(* ===== verification/_CoqProject ===== *)
-Q . S2P
Prelude.v
Interfaces.v
Umalloc.v
Uthread.v
Str.v
Grep.v
Devices.v
Kbd.v
Ulib.v
Uprog.v
Spinlock.v
Ide.v
Idedisk.v
Kalloc.v
Seg.v
Pipe.v
Bytes.v
Bio.v
Log.v
Crash.v
Sh.v
Disk.v
Fs.v
Fsblk.v
Fsfile.v
Fswrite.v
Fsdir.v
Fspath.v
Mkfs.v
Proc.v
Asm.v
Sleep.v
Console.v
Tty.v
Trap.v
Vm.v
Aspace.v
Uvm.v
Mp.v
Kern.v
Umem.v
Execmem.v
File.v
Filerw.v
Sysfile.v
Usertests.v
Exec.v
Boot.v
Files.v
Execrun.v
