(* ===== verification/Prelude.v ===== *)
(** * Verification of xv6 with user-level threads

    The program is the teaching kernel xv6 for the x86, extended with a
    user-level thread package (src/uthread.c) and a call that redirects a process
    to a handler (register_handler of src/proc.c), together with its boot loader,
    its user library and user programs, and the tool that makes its disk.  The
    development translates the sources into executable Rocq functions and proves
    what they do.

    ** The parts and their files

    User level.  Umalloc.v is umalloc.c and Uthread.v is uthread.c, over the
    allocator interface that Umalloc.v implements.  Ulib.v is ulib.c and printf.c.
    Sh.v is sh.c: tokens, parser, nulterminate, runcmd.  Grep.v is the matcher of
    grep.c.  Uprog.v has cat, wc, echo, grep, ls, rm, mkdir, ln, kill, init, zombie
    and the read loop of the shell as interaction trees of system calls.
    Usertests.v has the tests of usertests.c on files and processes, forktest.c
    and stressfs.c, with runs of them on the kernel as examples that validate
    the model.

    Processes and processors.  Spinlock.v is spinlock.c with the processors
    interleaved at every access to shared memory.  Proc.v is proc.c: one
    operation per critical section of ptable.lock, and the code that runs without
    the lock (most of fork and exit) as a tree of actions that its machine of
    processors interleaves; Sleep.v is sleep() and wakeup() again, with their lock
    operations as separate steps.  Trap.v is
    trap.c and the clock calls of sysproc.c.  Seg.v has the descriptors of mmu.h,
    seginit, switchkvm and switchuvm of vm.c and tvinit of trap.c.  Asm.v is
    swtch.S, trapasm.S and the entry points that vectors.pl generates, as lists
    of instructions.

    Memory.  Str.v is string.c over a byte memory.  Kalloc.v is kalloc.c.  Vm.v
    is vm.c; Aspace.v says what its page tables mean and Uvm.v proves its
    operations.  Kern.v puts the components together that a system call uses, and
    has the argument functions of syscall.c; Umem.v and Execmem.v are the lemmas
    on user memory; Exec.v is exec.c, sys_exec, sys_sbrk and the dispatcher;
    Execrun.v proves exec.

    Files.  Bio.v is bio.c over the memory disk of memide.c, Log.v is log.c over
    any buffer cache, Crash.v its behaviour under crashes.  Disk.v is the disk as
    fs.c sees it, with the proof that log.c implements it.  Fs.v is fs.c; Fsblk.v,
    Fsfile.v, Fswrite.v, Fsdir.v and Fspath.v are the proofs on blocks, files,
    writing, directories and paths.  File.v is file.c (with pipealloc), Filerw.v
    its reads and writes down to the blocks, Sysfile.v is sysfile.c, Files.v the
    invariant of open files.  Pipe.v is pipe.c.  Mkfs.v is mkfs.c.

    Devices.  Devices.v is picirq.c, timer.c, ioapic.c, lapic.c, uart.c and kbd.c
    over the ports of any machine, Kbd.v the proof of the keyboard decoder.
    Console.v is console.c, Tty.v its line discipline.  Ide.v is ide.c, Idedisk.v
    the disk it drives.  Mp.v is mp.c.  Boot.v is bootmain.c.

    Interfaces.v has the classes between components: the allocator (Umalloc.v for
    Uthread.v), the buffer cache (Bio.v for Log.v, Crash.v and Disk.v).  Proc.v takes the
    services of the other components as the record [Services], Trap.v the
    interrupt handlers as [Handlers]; what hardware does is a class of the ports
    ([Ports]) or of the drive, with its documented behaviour as hypotheses and an
    instance in the witnesses.  Bytes.v has the fields of byte arrays.

    ** How the code is represented

    An operation is a function in the monad [M S]: a state of the component goes
    in, and out come a result with the new state, or the reason for stopping: a
    panic with its message, undefined behaviour of C (a wild pointer, an index out
    of range), a process that goes to sleep, or fuel that ran out.  Error
    returns are values.  A record holds the variables of a source file, pointers
    are addresses where the code computes with them and indices otherwise, and
    [u32], [i32], [u16] and [u8] write out the wrap-around of C's integers.
    Code that can leave the processor is cut there, and the pieces are put
    together again by step relations (Spinlock.v, Sleep.v, Pipe.v, Proc.v, Idedisk.v)
    or by the scheduler of Usertests.v.

    ** What is shown

    - Crash safety: the disk after a crash and recovery has all or nothing of a
      transaction; log.c over bio.c refines the transactional disk.
    - Files: readi, writei, dirlookup, dirlink and namei against files as byte
      sequences and directories as maps from names; a write of any length is cut
      into transactions that fit the log, and is read back; every system call
      keeps the reference counts of open files; the image that mkfs makes has an
      exact bitmap and is what the kernel reads.
    - Processes: the invariant of the process table over all interleavings, with
      the entries that forks under way are filling; fork and wait; no
      wakeup is lost; mutual exclusion of the locks; killed processes do not return
      to user mode; a context switch and a trap resume what they interrupted; a
      new process starts at its entry.
    - Memory: copyuvm, freevm, allocuvm against address spaces as finite maps with
      page ownership; arguments of system calls stay inside the process; exec
      builds the program; the user allocator and the threads over it.
    - Devices: the disk driver serves its queue in order, the console is a line
      editor, the keyboard decoder follows its tables, mpinit finds the processors,
      the boot loader loads the kernel.
    - Programs: the shell starts, connects and waits for what a line means, grep
      prints the matching lines.
    - Errors of the code that modelling showed are theorems as well, named for what
      goes wrong (such as exit_from_removed_directory_panics in Usertests.v).

    ** Fuel

    Loops without a structural measure take fuel computed from the state: the
    length of a list or queue, the size of a file or directory, the room left in the
    address space, the number of table entries.  The theorems show that the
    operation returns, so the fuel is enough under their hypotheses.  Polling
    loops on a device take the number of polls after which the device answers as
    a parameter, with the hypothesis that it does.  The runs of Usertests.v have
    200000 steps, and they end.

    ** Not modelled

    - main.c: it calls the init function of every component on the state of that
      component; the functions are modelled, a state that holds all of them is not.
    - bootasm.S, entry.S, entryother.S, initcode.S and usys.S: mode switches before
      there are page tables and stacks, and stubs of one instruction.
    - Of usertests.c: pipe1, preempt, mem, sbrktest, validatetest, bsstest,
      bigargtest, exectest and main, which need user memory, processes that loop
      for ever, or a program loaded under the interaction trees.
    - uthread_sanity.c, a driver of the threads; kthread.h, which declares functions
      that do not exist; prototypes and build scripts. *)

From Stdlib Require Export ZArith Lia.
From stdpp Require Export base numbers strings gmap sorting.
From stdpp Require Export list.
Export list_relations.list list_basics.list list_monad.list list_misc.list list_numbers.list.

#[export] Set Default Goal Selector "!".
Global Open Scope Z_scope.

(** ** Machine integers

    A C [uint] is a [Z] in [0, 2^32), an [int] is a [Z] in [-2^31, 2^31);
    the wrap-around of the arithmetic is written out with [u32] and [i32]. *)

Definition u32 (x : Z) : Z := x mod 2 ^ 32.
Definition i32 (x : Z) : Z := (x + 2 ^ 31) mod 2 ^ 32 - 2 ^ 31.
Definition u16 (x : Z) : Z := x mod 2 ^ 16.
Definition u8 (x : Z) : Z := x mod 2 ^ 8.

Declare Scope c_scope.
Delimit Scope c_scope with c.
Notation "a ⊕ b" := (u32 (a + b)) (at level 50, left associativity) : c_scope.
Notation "a ⊖ b" := (u32 (a - b)) (at level 50, left associativity) : c_scope.
Global Open Scope c_scope.

(** A C condition: the value is non-zero. *)
Definition truth (x : Z) : bool := negb (x =? 0).

(** ** The execution monad

    C code that can panic, block, exit or go wrong is a function from the
    state to a result.  [Stop] carries the reason and the state in which the
    execution stopped. *)

Inductive stop : Type :=
| SPanic (msg : string)    (** the kernel's panic(), or the shell's *)
| SSleep (chan : Z)        (** the caller blocks in sleep(chan, ..) *)
| SExit                    (** the process calls exit() *)
| SUndef (why : string)    (** C undefined behaviour: wild access, null dereference *)
| SFuel.                   (** the loop has not ended within its fuel *)

Inductive res (S A : Type) : Type :=
| Ok (a : A) (s : S)
| Stop (o : stop) (s : S).
Arguments Ok {S A} a s.
Arguments Stop {S A} o s.

Definition M (S A : Type) : Type := S -> res S A.

Global Instance M_ret {S} : MRet (M S) := fun A a s => Ok a s.
Global Instance M_bind {S} : MBind (M S) := fun A B f m s =>
  match m s with
  | Ok a s' => f a s'
  | Stop o s' => Stop o s'
  end.

Definition get {S} : M S S := fun s => Ok s s.
Definition put {S} (s : S) : M S unit := fun _ => Ok tt s.
Definition gets {S A} (f : S -> A) : M S A := fun s => Ok (f s) s.
Definition modify {S} (f : S -> S) : M S unit := fun s => Ok tt (f s).
Definition halt {S A} (o : stop) : M S A := fun s => Stop o s.
Definition panic {S A} (msg : string) : M S A := halt (SPanic msg).
Definition undef {S A} (why : string) : M S A := halt (SUndef why).

(** [if (b) m;] *)
Definition when {S} (b : bool) (m : M S unit) : M S unit :=
  if b then m else mret tt.

(** Accessing an option: [None] is the wild access [why]. *)
Definition deref {S A} (why : string) (o : option A) : M S A :=
  match o with Some a => mret a | None => undef why end.

(** [for (x in l) body]. *)
Fixpoint mfor {S A} (l : list A) (body : A -> M S unit) : M S unit :=
  match l with
  | [] => mret tt
  | x :: l' => body x;; mfor l' body
  end.

(** [for (x in l) { ...; return y; }]: the loop ends at the first [Some]. *)
Fixpoint mfind {S A B} (l : list A) (body : A -> M S (option B)) : M S (option B) :=
  match l with
  | [] => mret None
  | x :: l' =>
      r ← body x;
      match r with Some y => mret (Some y) | None => mfind l' body end
  end.

(** A component's operation used inside a larger state. *)
Definition zoom {S T A} (get_ : T -> S) (put_ : S -> T -> T) (m : M S A) : M T A :=
  fun t =>
    match m (get_ t) with
    | Ok a s => Ok a (put_ s t)
    | Stop o s => Stop o (put_ s t)
    end.

(** [m] returns from [s], whatever the value, in a state satisfying [Q]. *)
Definition returns {S A} (m : M S A) (s : S) (Q : A -> S -> Prop) : Prop :=
  exists a s', m s = Ok a s' /\ Q a s'.

Section Monad.
Context {S : Type}.

Lemma bind_ok {A B} (m : M S A) (f : A -> M S B) s a s' :
  m s = Ok a s' -> (m ≫= f) s = f a s'.
Proof. unfold mbind, M_bind. by intros ->. Qed.

Lemma bind_stop {A B} (m : M S A) (f : A -> M S B) s o s' :
  m s = Stop o s' -> (m ≫= f) s = Stop o s'.
Proof. unfold mbind, M_bind. by intros ->. Qed.

Lemma bind_inv {A B} (m : M S A) (f : A -> M S B) s b s'' :
  (m ≫= f) s = Ok b s'' -> exists a s', m s = Ok a s' /\ f a s' = Ok b s''.
Proof. unfold mbind, M_bind. destruct (m s); [eauto | done]. Qed.

Lemma bind_assoc_run {A B C} (m : M S A) (f : A -> M S B) (g : B -> M S C) s :
  ((m ≫= f) ≫= g) s = (m ≫= fun a => f a ≫= g) s.
Proof. unfold mbind, M_bind. by destruct (m s). Qed.

Lemma when_ok (b : bool) (m : M S unit) s s' :
  (b = true -> m s = Ok tt s') -> (b = false -> s' = s) -> when b m s = Ok tt s'.
Proof. intros H1 H2. destruct b; simpl; [auto | by rewrite H2]. Qed.

Lemma mfor_app {A} (l1 l2 : list A) (body : A -> M S unit) s :
  mfor (l1 ++ l2) body s = (mfor l1 body;; mfor l2 body) s.
Proof.
  revert s. induction l1 as [|x l1 IH]; intros s; [done|]. simpl.
  rewrite bind_assoc_run. unfold mbind, M_bind. destruct (body x s); [apply IH | done].
Qed.

(** Loop rule: an invariant indexed by the elements still to be visited. *)
Lemma mfor_inv {A} (I : list A -> S -> Prop) (body : A -> M S unit) l s :
  I l s ->
  (forall x l' s, I (x :: l') s -> exists s', body x s = Ok tt s' /\ I l' s') ->
  exists s', mfor l body s = Ok tt s' /\ I [] s'.
Proof.
  intros HI Hb. revert s HI. induction l as [|x l IH]; intros s HI.
  { by exists s. }
  destruct (Hb _ _ _ HI) as (s1 & E & HI1). destruct (IH _ HI1) as (s2 & E2 & HI2).
  exists s2. simpl. by rewrite (bind_ok _ _ _ _ _ E).
Qed.

End Monad.

(** Execution of straight-line code: [mrun] runs the steps whose result the
    hint base [mrun] knows. *)
Create HintDb mrun discriminated.
#[export] Hint Constants Opaque : mrun.
Lemma get_ok {S} (s : S) : get s = Ok s s. Proof. done. Qed.
Lemma put_ok {S} (s s' : S) : put s' s = Ok tt s'. Proof. done. Qed.
Lemma gets_ok {S A} (f : S -> A) s : gets f s = Ok (f s) s. Proof. done. Qed.
Lemma modify_ok {S} (f : S -> S) s : modify f s = Ok tt (f s). Proof. done. Qed.
Lemma mret_ok {S A} (a : A) (s : S) : (mret a : M S A) s = Ok a s. Proof. done. Qed.
#[export] Hint Resolve get_ok put_ok gets_ok modify_ok mret_ok : mrun.
Ltac mrun1 := erewrite bind_ok by (solve [eauto with mrun nocore]).
Ltac mrun := repeat (rewrite ?bind_assoc_run; mrun1; cbn beta iota).

(** Run one monadic step whose result is known by [H]. *)
Ltac mstep H := rewrite (bind_ok _ _ _ _ _ H).
(** Reduce the monadic plumbing of a straight-line program. *)
Ltac msimpl :=
  repeat (unfold mbind, M_bind, mret, M_ret, get, put, gets, modify, halt, panic, undef,
    when, deref; cbn -[Z.add Z.sub Z.mul Z.div Z.modulo Z.pow u32 i32 Z.of_nat Z.to_nat]).
(** Invert a successful run of a sequence. *)
Ltac minv H a s H1 := apply bind_inv in H as (a & s & H1 & H).

(** ** Shared lemmas on integers *)

Lemma u32_id x : 0 <= x < 2 ^ 32 -> u32 x = x.
Proof. intros. by apply Z.mod_small. Qed.

Lemma u32_range x : 0 <= u32 x < 2 ^ 32.
Proof. apply Z.mod_pos_bound. lia. Qed.

Lemma i32_id x : - 2 ^ 31 <= x < 2 ^ 31 -> i32 x = x.
Proof. intros. unfold i32. rewrite Z.mod_small; lia. Qed.

(** ** Shared lemmas on lists *)

Section Sorted.
Context {A : Type} (R : relation A).

Lemma StronglySorted_filter (P : A -> Prop) `{!forall x, Decision (P x)} l :
  StronglySorted R l -> StronglySorted R (filter P l).
Proof.
  induction 1 as [|x l Hs IH Hf]; [constructor|]. rewrite filter_cons. case_decide; [|done].
  constructor; [done|]. rewrite Forall_forall in *. intros y [_ Hy]%list_elem_of_filter. auto.
Qed.

Lemma StronglySorted_lookup l (i j : nat) x y :
  StronglySorted R l -> (i < j)%nat -> l !! i = Some x -> l !! j = Some y -> R x y.
Proof.
  intros Hs. revert i j. induction Hs as [|z l Hs IH Hf]; intros i j Hij Hi Hj; [done|].
  destruct j as [|j]; [lia|]. destruct i as [|i]; simplify_eq/=.
  - by eapply Forall_lookup_1.
  - eapply (IH i j); [lia|done..].
Qed.
End Sorted.

Lemma StronglySorted_seq i n : StronglySorted lt (seq i n).
Proof.
  revert i. induction n as [|n IH]; intros i; simpl; constructor; [done|].
  apply Forall_forall. intros x Hx%elem_of_seq. lia.
Qed.
