(* ===== verification/Interfaces.v ===== *)
(** * Interfaces between components

    What a component promises to the components that call it, as type
    classes: the clients' theorems are proved against the class and the
    component's own theorems give the instance. *)

From stdpp Require Import functions.
From S2P Require Import Prelude.

(** ** malloc and free, as uthread.c uses them

    [ainv h al] relates an allocator state to its live blocks: payload address
    to requested size. *)
Class Allocator (H : Type) := {
  amalloc : Z -> M H Z;
  afree : Z -> M H unit;
  ainv : H -> gmap Z Z -> Prop;
  amalloc_spec : forall h al n, ainv h al -> 0 < n < 2 ^ 30 ->
    exists r h', amalloc n h = Ok r h' /\
      ((r = 0 /\ ainv h' al) \/ (0 < r /\ al !! r = None /\ ainv h' (<[r := n]> al)));
  afree_spec : forall h al r n, ainv h al -> al !! r = Some n ->
    exists h', afree r h = Ok tt h' /\ ainv h' (delete r al);
  ainv_separate : forall h al r n r' n', ainv h al ->
    al !! r = Some n -> al !! r' = Some n' -> r <> r' -> r + n <= r' \/ r' + n' <= r;
}.

(** ** The buffer cache, as log.c uses it

    [bview] is what a client knows of the blocks: the contents of the disk, the
    dirty blocks that the cache keeps in memory, the buffers it holds busy, with
    their current data, and the writes that reached the disk so far. *)

Definition BSIZE : Z := 512.
Definition NBUF : nat := 10.
Definition ROOTDEV : Z := 1.
Definition block := list Z.

Record bview := mkBview {
  bv_size : Z;                        (** number of sectors *)
  bv_disk : Z -> block;
  bv_dirty : gmap Z block;
  bv_held : gmap nat (Z * block);
  bv_hist : list (Z * block);
}.

(** What a read of sector [s] finds. *)
Definition content (v : bview) (s : Z) : block := default (bv_disk v s) (bv_dirty v !! s).

(** The sectors of the busy buffers. *)
Definition held_sectors (v : bview) : gset Z := list_to_set (fst <$> (snd <$> map_to_list (bv_held v))).

Definition bv_hold (h : nat) (s : Z) (x : block) (v : bview) : bview :=
  mkBview (bv_size v) (bv_disk v) (bv_dirty v) (<[h := (s, x)]> (bv_held v)) (bv_hist v).
Definition bv_drop (h : nat) (v : bview) : bview :=
  mkBview (bv_size v) (bv_disk v) (bv_dirty v) (delete h (bv_held v)) (bv_hist v).
Definition bv_mark (s : Z) (x : block) (v : bview) : bview :=
  mkBview (bv_size v) (bv_disk v) (<[s := x]> (bv_dirty v)) (bv_held v) (bv_hist v).
Definition bv_write (s : Z) (x : block) (v : bview) : bview :=
  mkBview (bv_size v) (<[s := x]> (bv_disk v)) (delete s (bv_dirty v)) (bv_held v) (bv_hist v ++ [(s, x)]).

(** Room for one more buffer: the busy and the dirty ones cannot be recycled. *)
Definition buf_room (v : bview) (s : Z) : Prop :=
  (size (dom (bv_dirty v) ∪ held_sectors v ∪ {[s]}) <= NBUF)%nat.

Class Buffers (C : Type) := {
  bread : Z -> Z -> M C nat;
  bwrite : nat -> M C unit;
  brelse : nat -> M C unit;
  bdata : nat -> M C block;                 (** b->data *)
  set_bdata : nat -> block -> M C unit;     (** stores into b->data *)
  bsector : nat -> M C Z;                   (** b->sector *)
  bdev : nat -> M C Z;                      (** b->dev *)
  mark_dirty : nat -> M C unit;             (** b->flags |= B_DIRTY *)
  brep : C -> bview -> Prop;
  bread_spec : forall c v s, brep c v -> 0 <= s < bv_size v -> s ∉ held_sectors v -> buf_room v s ->
    exists h c', bread ROOTDEV s c = Ok h c' /\ bv_held v !! h = None /\ brep c' (bv_hold h s (content v s) v);
  bwrite_spec : forall c v h s x, brep c v -> bv_held v !! h = Some (s, x) ->
    exists c', bwrite h c = Ok tt c' /\ brep c' (bv_write s x v);
  brelse_spec : forall c v h s x, brep c v -> bv_held v !! h = Some (s, x) -> x = content v s ->
    exists c', brelse h c = Ok tt c' /\ brep c' (bv_drop h v);
  bdata_spec : forall c v h s x, brep c v -> bv_held v !! h = Some (s, x) -> bdata h c = Ok x c;
  set_bdata_spec : forall c v h s x y, brep c v -> bv_held v !! h = Some (s, x) -> length y = Z.to_nat BSIZE ->
    exists c', set_bdata h y c = Ok tt c' /\ brep c' (bv_hold h s y v);
  bsector_spec : forall c v h s x, brep c v -> bv_held v !! h = Some (s, x) -> bsector h c = Ok s c;
  bdev_spec : forall c v h s x, brep c v -> bv_held v !! h = Some (s, x) -> bdev h c = Ok ROOTDEV c;
  mark_dirty_spec : forall c v h s x, brep c v -> bv_held v !! h = Some (s, x) ->
    exists c', mark_dirty h c = Ok tt c' /\ brep c' (bv_mark s x v);
  brep_length : forall c v s, brep c v -> 0 <= s < bv_size v -> length (content v s) = Z.to_nat BSIZE;
  brep_held : forall c v h s x, brep c v -> bv_held v !! h = Some (s, x) ->
    length x = Z.to_nat BSIZE /\ 0 <= s < bv_size v /\ forall h' x', bv_held v !! h' = Some (s, x') -> h' = h;
}.

Lemma elem_of_held_sectors v s : s ∈ held_sectors v <-> exists h x, bv_held v !! h = Some (s, x).
Proof.
  unfold held_sectors. rewrite elem_of_list_to_set, list_elem_of_fmap. split.
  - intros ([s' x] & -> & Hin). apply list_elem_of_fmap in Hin as ([h p] & E & Hp%elem_of_map_to_list).
    simpl in *. rewrite <- E in Hp. eauto.
  - intros (h & x & Hx). exists (s, x). split; [done|]. apply list_elem_of_fmap. exists (h, (s, x)).
    split; [done|]. by apply elem_of_map_to_list.
Qed.
