(* ===== verification/Umalloc.v ===== *)
(** * umalloc.c: the user-level memory allocator

    The Kernighan and Ritchie allocator of src/umalloc.c: a circular list of
    free blocks, in address order through the static header [base], first fit
    from [freep], blocks carved from the tail of a free block, neighbours
    merged by [free], and memory obtained from the kernel with sbrk.

    A [Header*] is its byte address and pointer arithmetic on headers is in
    units of 8 bytes ([sizeof(Header)]).  The map [hdr] is the memory that
    holds the headers; reading an address that holds none is undefined
    behaviour.  The kernel's side of sbrk is the break [brk] and the limit
    [lim] up to which it can grow. *)

From S2P Require Import Prelude Interfaces.

Record Header := mkHeader { ptr : Z; hsize : Z }.

Record heap := mkHeap {
  base : Z;                (** address of the static [base] *)
  hdr : gmap Z Header;
  freep : Z;
  brk : Z;                 (** proc->sz, what sbrk returns *)
  lim : Z;                 (** the size the kernel can grow the process to *)
}.

Definition set_hdr (m : gmap Z Header) (h : heap) : heap :=
  mkHeap (base h) m (freep h) (brk h) (lim h).
Definition set_freep (p : Z) (h : heap) : heap :=
  mkHeap (base h) (hdr h) p (brk h) (lim h).
Definition set_brk (b : Z) (h : heap) : heap :=
  mkHeap (base h) (hdr h) (freep h) b (lim h).

Definition load (p : Z) : M heap Header := fun h =>
  deref "header" (hdr h !! p) h.
Definition store_ptr (p q : Z) : M heap unit := fun h =>
  Ok tt (set_hdr (<[p := mkHeader q (default 0 (hsize <$> hdr h !! p))]> (hdr h)) h).
Definition store_size (p n : Z) : M heap unit := fun h =>
  Ok tt (set_hdr (<[p := mkHeader (default 0 (ptr <$> hdr h !! p)) n]> (hdr h)) h).

Definition sizeof_Header : Z := 8.
Definition hplus (p n : Z) : Z := p + n * sizeof_Header.

(** The for loop of [free]: the free block after which [bp] goes. *)
Fixpoint free_find (fuel : nat) (bp p : Z) : M heap Z :=
  match fuel with
  | O => halt SFuel
  | S fuel =>
      hp ← load p;
      if (p <? bp) && (bp <? ptr hp) then mret p
      else if (ptr hp <=? p) && ((p <? bp) || (bp <? ptr hp)) then mret p
      else free_find fuel bp (ptr hp)
  end.

Definition free (ap : Z) : M heap unit :=
  let bp := hplus ap (-1) in
  h ← get;
  p ← free_find (S (size (hdr h))) bp (freep h);
  hbp ← load bp;
  hp ← load p;
  (if hplus bp (hsize hbp) =? ptr hp then
     hn ← load (ptr hp);
     store_size bp (hsize hbp ⊕ hsize hn);;
     store_ptr bp (ptr hn)
   else store_ptr bp (ptr hp));;
  hbp ← load bp;
  hp ← load p;
  (if hplus p (hsize hp) =? bp then
     store_size p (hsize hp ⊕ hsize hbp);;
     store_ptr p (ptr hbp)
   else store_ptr p bp);;
  modify (set_freep p).

(** sbrk(n): the old break, or -1 when the process cannot grow. *)
Definition sbrk (n : Z) : M heap Z := fun h =>
  if brk h + n <=? lim h then Ok (brk h) (set_brk (brk h + n) h) else Ok (-1) h.

Definition morecore (nu : Z) : M heap Z :=
  let nu := if nu <? 4096 then 4096 else nu in
  p ← sbrk (i32 (nu * sizeof_Header));
  if p =? -1 then mret 0
  else
    store_size p nu;;
    free (hplus p 1);;
    gets freep.

(** The for(;;) of [malloc]. *)
Fixpoint malloc_scan (fuel : nat) (nunits prevp p : Z) : M heap Z :=
  match fuel with
  | O => halt SFuel
  | S fuel =>
      hp ← load p;
      if nunits <=? hsize hp then
        q ← (if hsize hp =? nunits then
               store_ptr prevp (ptr hp);; mret p
             else
               let n := hsize hp ⊖ nunits in
               store_size p n;;
               let q := hplus p n in
               store_size q nunits;; mret q);
        modify (set_freep prevp);;
        mret (hplus q 1)
      else
        fp ← gets freep;
        if p =? fp then
          p ← morecore nunits;
          if p =? 0 then mret 0
          else hp ← load p; malloc_scan fuel nunits p (ptr hp)
        else malloc_scan fuel nunits p (ptr hp)
  end.

Definition nunits_of (nbytes : Z) : Z :=
  (nbytes ⊕ (sizeof_Header - 1)) / sizeof_Header ⊕ 1.

Definition malloc (nbytes : Z) : M heap Z :=
  let nunits := nunits_of nbytes in
  fp ← gets freep;
  (if fp =? 0 then
     b ← gets base;
     modify (set_freep b);; store_ptr b b;; store_size b 0
   else mret tt);;
  h ← get;
  hp ← load (freep h);
  malloc_scan (2 * size (hdr h) + 4) nunits (freep h) (ptr hp).

(** The heap before the first call: [base] zeroed, [freep] null. *)
Definition heap0 (b top limit : Z) : heap :=
  mkHeap b {[b := mkHeader 0 0]} 0 top limit.

Example malloc_two :
  (p ← malloc 20; q ← malloc 4000; free p;; r ← malloc 12; mret (p, q, r))
    (heap0 1000 4096 1000000) =
  Ok (36840, 32832, 36848)
    (mkHeap 1000 (<[1000 := mkHeader 4096 0]> (<[4096 := mkHeader 36832 3591]>
      (<[32824 := mkHeader 0 501]> (<[36832 := mkHeader 1000 1]> {[36840 := mkHeader 0 3]})))) 4096 36864 1000000).
Proof. vm_compute. reflexivity. Qed.

(** ** Running the primitive accesses *)

Lemma load_ok p h x : hdr h !! p = Some x -> load p h = Ok x h.
Proof. unfold load, deref. by intros ->. Qed.

Lemma store_ptr_ok p q h x :
  hdr h !! p = Some x -> store_ptr p q h = Ok tt (set_hdr (<[p := mkHeader q (hsize x)]> (hdr h)) h).
Proof. unfold store_ptr. by intros ->. Qed.

Lemma store_size_ok p n h x :
  hdr h !! p = Some x -> store_size p n h = Ok tt (set_hdr (<[p := mkHeader (ptr x) n]> (hdr h)) h).
Proof. unfold store_size. by intros ->. Qed.

#[export] Hint Resolve load_ok store_ptr_ok store_size_ok : mrun.

(** Lookups in the header memory after a few stores. *)
Ltac hlook := cbn [hdr set_hdr set_freep set_brk];
  repeat first [rewrite lookup_insert_eq | rewrite lookup_insert_ne by (done || lia)]; (done || eassumption).

(** ** The free list as a list of blocks *)

(** A block is its address and its size in units. *)
Abbreviation block := (Z * Z)%type.

Definition hda (l : list block) (z : Z) : Z :=
  match l with [] => z | b :: _ => b.1 end.

(** [l] is a chain of headers whose last one points to [z]. *)
Fixpoint lseg (m : gmap Z Header) (l : list block) (z : Z) : Prop :=
  match l with
  | [] => True
  | b :: l' => m !! b.1 = Some (mkHeader (hda l' z) b.2) /\ lseg m l' z
  end.

Definition before (x y : block) : Prop := x.1 + 8 * x.2 <= y.1 /\ x.1 < y.1.
Definition disjoint (x y : block) : Prop := x.1 + 8 * x.2 <= y.1 \/ y.1 + 8 * y.2 <= x.1.
Definition within (lo hi : Z) (x : block) : Prop :=
  1 <= x.2 /\ lo <= x.1 /\ x.1 + 8 * x.2 <= hi.

(** The allocator's invariant: [L] is [base] followed by the free blocks in
    address order, and [al] the live allocations (header address to units). *)
Record heap_ok (h : heap) (L : list block) (al : gmap Z Z) : Prop := {
  ok_head : L !! 0%nat = Some (base h, 0);
  ok_ring : lseg (hdr h) L (base h);
  ok_sorted : StronglySorted before L;
  ok_bounds : Forall (fun b => b = (base h, 0) \/ within (base h + 8) (brk h) b) L;
  ok_freep : freep h ∈ L.*1;
  ok_brk : 0 < base h /\ base h + 8 <= brk h <= 2 ^ 31 /\ lim h <= 2 ^ 31;
  ok_live : map_Forall (fun a n => within (base h + 8) (brk h) (a, n) /\
                                   exists p, hdr h !! a = Some (mkHeader p n)) al;
  ok_live_disj : forall a n a' n', al !! a = Some n -> al !! a' = Some n' -> a <> a' ->
                                   disjoint (a, n) (a', n');
  ok_free_disj : forall b a n, b ∈ L -> al !! a = Some n -> disjoint b (a, n);
}.

Definition units (L : list block) : Z := foldr (fun b t => b.2 + t) 0 L.

Section Lseg.
Context (m : gmap Z Header).
Implicit Types (l : list block) (z : Z).

Lemma hda_app l1 l2 z : hda (l1 ++ l2) z = hda l1 (hda l2 z).
Proof. by destruct l1. Qed.

Lemma lseg_app l1 l2 z : lseg m (l1 ++ l2) z <-> lseg m l1 (hda l2 z) /\ lseg m l2 z.
Proof.
  induction l1 as [|b l1 IH]; simpl; [tauto|]. rewrite hda_app, IH. tauto.
Qed.

Lemma lseg_frame l z k v : k ∉ l.*1 -> lseg (<[k := v]> m) l z <-> lseg m l z.
Proof.
  induction l as [|b l IH]; [done|]. cbn [lseg fmap list_fmap].
  rewrite not_elem_of_cons. intros [Hk Hl].
  rewrite lookup_insert_ne by done. rewrite IH by done. done.
Qed.

(** A circular chain can be entered at any block. *)
Lemma lseg_rotate l1 l2 z :
  l2 <> [] -> hda (l1 ++ l2) z = z ->
  lseg m (l1 ++ l2) z -> lseg m (l2 ++ l1) (hda l2 z).
Proof.
  intros Hn Hz. rewrite !lseg_app. intros [H1 H2].
  destruct l1 as [|b1 l1]; [split; [|done]; destruct l2; simpl in *; congruence|].
  simpl in Hz. subst z. done.
Qed.

Lemma lseg_dom l z a : lseg m l z -> a ∈ l.*1 -> a ∈ dom m.
Proof.
  induction l as [|b l IH]; simpl; [intros _; set_solver|]. intros [Hb Hl] [->|Ha]%elem_of_cons.
  - by apply elem_of_dom_2 in Hb.
  - auto.
Qed.
End Lseg.

Lemma before_lt l : StronglySorted before l -> NoDup l.*1.
Proof.
  induction 1 as [|b l Hs IH Hf]; [apply NoDup_nil_2|]. cbn. apply NoDup_cons_2; [|done].
  intros (c & Hc1 & Hc2)%list_elem_of_fmap. rewrite Forall_forall in Hf.
  destruct (Hf _ Hc2). lia.
Qed.

Lemma lseg_length m l z : lseg m l z -> NoDup l.*1 -> (length l <= size m)%nat.
Proof.
  intros Hl Hn. rewrite <- (length_fmap fst l), <- (size_dom m).
  rewrite <- (size_list_to_set (C := gset Z)) by done.
  apply subseteq_size. intros a Ha. apply elem_of_list_to_set in Ha.
  eapply lseg_dom; eauto.
Qed.

Lemma sorted_split l a :
  StronglySorted before l -> (forall b, b ∈ l -> b.1 <> a) ->
  (exists x, l !! 0%nat = Some x /\ x.1 < a) ->
  exists l1 x l2, l = l1 ++ x :: l2 /\ x.1 < a /\ Forall (fun b => a < b.1) l2.
Proof.
  induction 1 as [|b l Hs IH Hf]; intros Hne (x & Hx & Hlt); [done|].
  simplify_eq/=. destruct l as [|c l].
  { exists [], x, []. done. }
  destruct (decide (c.1 < a)) as [Hc|Hc].
  - destruct IH as (l1 & y & l2 & E & ? & ?); [set_solver|by exists c|].
    exists (x :: l1), y, l2. by rewrite E.
  - exists [], x, (c :: l). split_and!; [done..|].
    apply Forall_cons; split.
    { specialize (Hne c ltac:(set_solver)). lia. }
    apply StronglySorted_inv in Hs as [_ Hs]. eapply Forall_impl; [exact Hs|].
    intros d [_ ?]. lia.
Qed.

Lemma lseg_next m l z b n s :
  lseg m l z -> StronglySorted before l -> b ∈ l -> m !! b.1 = Some (mkHeader n s) ->
  s = b.2 /\ (n = z \/ (b.1 < n /\ n ∈ l.*1)).
Proof.
  intros Hl Hs. revert Hl. induction Hs as [|c l Hs IH Hf]; [set_solver|].
  intros [Hc Hl] Hb E. apply elem_of_cons in Hb as [->|Hb].
  - rewrite Hc in E. simplify_eq. split; [done|]. destruct l as [|d l]; [by left|right].
    apply Forall_cons in Hf as [[_ ?] _]. simpl. split; [done|]. set_solver.
  - destruct (IH Hl Hb E) as (? & [?|[??]]); split; auto. right. set_solver.
Qed.

(** The walk of [free] over the blocks where it does not stop. *)
Lemma free_find_walk h bp l p n s fuel :
  lseg (hdr h) l p ->
  hdr h !! p = Some (mkHeader n s) ->
  (forall b, b ∈ l -> forall n s, hdr h !! b.1 = Some (mkHeader n s) ->
     (b.1 < bp < n -> False) /\ (n <= b.1 -> bp <= b.1 /\ n <= bp)) ->
  (p < bp < n \/ (n <= p /\ (p < bp \/ bp < n))) ->
  (length l < fuel)%nat ->
  free_find fuel bp (hda l p) h = Ok p h.
Proof.
  intros Hl Hp Hns Hst. revert fuel.
  induction l as [|b l IH]; intros [|fuel] Hf; simpl in Hf; try lia; simpl.
  - unfold load. msimpl. rewrite Hp. msimpl. repeat case_match; try done; lia.
  - destruct Hl as [Hb Hl]. unfold load. msimpl. rewrite Hb. msimpl.
    destruct (Hns b ltac:(left) _ _ Hb) as [Hc1 Hc2].
    repeat case_match; try (apply IH; [done|set_solver|lia]); exfalso; lia.
Qed.

Arguments free_find : simpl never.

(** What the invariant says around a block [(p, sp)] of the list. *)
Record around (h : heap) (A : list block) (p sp : Z) (B : list block) : Prop := {
  ar_base : base h <= p;
  ar_lt : forall b, b ∈ A -> b.1 < p;
  ar_gt : forall b, b ∈ B -> before (p, sp) b;
  ar_A : lseg (hdr h) A p;
  ar_B : lseg (hdr h) B (base h);
  ar_sA : StronglySorted before A;
  ar_sB : StronglySorted before B;
  ar_p : hdr h !! p = Some (mkHeader (hda B (base h)) sp);
  ar_cycle : lseg (hdr h) (B ++ A) p /\ hda (B ++ A) p = hda B (base h);
}.

Lemma ok_around h A p sp B al : heap_ok h (A ++ (p, sp) :: B) al -> around h A p sp B.
Proof.
  intros [Hhd Hring Hs _ _ _ _ _ _].
  apply StronglySorted_app in Hs as (Hx & HsA & [HsB Hf]%StronglySorted_inv).
  pose proof Hring as [HlA [Hp HlB]]%lseg_app. simpl in *.
  rewrite Forall_forall in Hf.
  assert (HSA : forall b, b ∈ A -> b.1 < p).
  { intros b Hb. by destruct (Hx b (p, sp) Hb ltac:(left)). }
  assert (Hhb : hda (A ++ (p, sp) :: B) (base h) = base h).
  { destruct A as [|[a sa] A]; simpl in *; congruence. }
  split; auto.
  - destruct A as [|[a sa] A]; simpl in Hhb; [lia|].
    specialize (HSA (a, sa) ltac:(left)). simpl in *. lia.
  - pose proof (lseg_rotate (hdr h) A ((p, sp) :: B) (base h) ltac:(done) Hhb Hring) as [Hp' ?].
    split; [done|]. simpl in Hp'. congruence.
Qed.

(** The effect of [free] on the list of blocks: the freed block [(bp, s)] is
    joined with the following block and with the preceding one when they
    touch it. *)
Definition join_next (bp s : Z) (B : list block) : Z * list block :=
  match B with
  | (a, sa) :: B' => if hplus bp s =? a then (s + sa, B') else (s, B)
  | [] => (s, B)
  end.
Definition join_prev (p sp bp s : Z) (R : list block) : list block :=
  if hplus p sp =? bp then (p, sp + s) :: R else (p, sp) :: (bp, s) :: R.
Definition insert_block (A : list block) (p sp bp s : Z) (B : list block) : list block :=
  let '(s1, R) := join_next bp s B in A ++ join_prev p sp bp s1 R.

Lemma ok_size h L al b : heap_ok h L al -> b ∈ L -> 0 <= b.2 <= 2 ^ 28.
Proof.
  intros Hok Hb. pose proof (ok_brk _ _ _ Hok) as (?&?&?).
  pose proof (ok_bounds _ _ _ Hok) as HF. rewrite Forall_forall in HF.
  destruct (HF _ Hb) as [->|(?&?&?)]; simpl; lia.
Qed.

Lemma live_not_free h L al b a k :
  heap_ok h L al -> b ∈ L -> al !! a = Some k -> a <> b.1.
Proof.
  intros Hok Hb Ha ->. pose proof (ok_bounds _ _ _ Hok) as HF. rewrite Forall_forall in HF.
  destruct (ok_live _ _ _ Hok _ _ Ha) as [(?&?&?) _].
  destruct (ok_free_disj _ _ _ Hok _ _ _ Hb Ha); destruct (HF _ Hb) as [E|(?&?&?)];
    try rewrite E in *; simpl in *; lia.
Qed.

Section Free.
Context (h : heap) (al : gmap Z Z) (bp n : Z) (Hbp : al !! bp = Some n).

(** Where a live block goes in the list: after [p] and before [B]. *)
Lemma free_place L :
  heap_ok h L al ->
  exists A p sp B, L = A ++ (p, sp) :: B /\ p < bp /\ Forall (fun b => bp < b.1) B.
Proof.
  intros [Hhd _ Hs Hb _ _ Hlive _ Hd].
  destruct (Hlive _ _ Hbp) as [(Hn1 & Hn2 & Hn3) _]. simpl in *.
  destruct (sorted_split L bp Hs) as (A & [p sp] & B & EL & Hp & HB); [| |by eauto 10].
  - intros b Hb' E. rewrite Forall_forall in Hb.
    destruct (Hd _ _ _ Hb' Hbp) as [D|D]; simpl in D; [|lia].
    destruct (Hb _ Hb') as [->|(?&?&?)]; simpl in *; lia.
  - exists (base h, 0). split; [done|]. simpl. lia.
Qed.

(** The loop of [free] visits no block twice and ends at [p]. *)
Lemma free_find_ok A p sp B :
  heap_ok h (A ++ (p, sp) :: B) al -> p < bp -> Forall (fun b => bp < b.1) B ->
  free_find (S (size (hdr h))) bp (freep h) h = Ok p h.
Proof.
  intros Hok Hp HB. pose proof (ok_around _ _ _ _ _ _ Hok) as [Hbase HSA _ HlA HlB HsA HsB Hhp [Hcyc Hhd]].
  assert (Hlen : (length (B ++ A) < size (hdr h))%nat).
  { pose proof (lseg_length _ _ _ (ok_ring _ _ _ Hok) (before_lt _ (ok_sorted _ _ _ Hok))) as Hsz.
    rewrite !length_app in *. simpl in *. lia. }
  assert (Hstop : p < bp < hda B (base h) \/ (hda B (base h) <= p /\ (p < bp \/ bp < hda B (base h)))).
  { destruct B as [|b B]; simpl; [lia|]. left. apply Forall_cons in HB as [? _]. lia. }
  assert (Hns : forall b, b ∈ B ++ A -> forall n s, hdr h !! b.1 = Some (mkHeader n s) ->
     (b.1 < bp < n -> False) /\ (n <= b.1 -> bp <= b.1 /\ n <= bp)).
  { intros b [Hb'|Hb']%elem_of_app m s E.
    - rewrite Forall_forall in HB. specialize (HB _ Hb').
      destruct (lseg_next _ _ _ _ _ _ HlB HsB Hb' E) as (_ & [->|[??]]); lia.
    - specialize (HSA _ Hb') as Hlt.
      destruct (lseg_next _ _ _ _ _ _ HlA HsA Hb' E) as (_ & [->|[? Hin]]); [lia|].
      apply list_elem_of_fmap in Hin as (c & -> & Hc). specialize (HSA _ Hc). lia. }
  assert (Hf : freep h = p \/ freep h ∈ (B ++ A).*1).
  { pose proof (ok_freep _ _ _ Hok) as Hfp. rewrite fmap_app in Hfp. rewrite fmap_app. set_solver. }
  destruct Hf as [->|(f & -> & Hf)%list_elem_of_fmap].
  - apply (free_find_walk h bp [] p (hda B (base h)) sp); [done|exact Hhp|set_solver|done|simpl; lia].
  - apply list_elem_of_split in Hf as (X & Y & E).
    apply (free_find_walk h bp (f :: Y) p (hda B (base h)) sp); [|exact Hhp| |done|].
    + rewrite E in Hcyc. by apply lseg_app in Hcyc as [_ ?].
    + intros b Hb'. apply Hns. rewrite E. set_solver.
    + rewrite E, length_app in Hlen. simpl in *. lia.
Qed.

(** The first [if]: joining with the following block. *)
Lemma free_join_next A p sp B q :
  heap_ok h (A ++ (p, sp) :: B) al -> Forall (fun b => bp < b.1) B ->
  hdr h !! bp = Some (mkHeader q n) ->
  (if hplus bp n =? hda B (base h) then
     hn ← load (hda B (base h)); store_size bp (n ⊕ hsize hn);; store_ptr bp (ptr hn)
   else store_ptr bp (hda B (base h))) h =
  let '(s1, R) := join_next bp n B in
  Ok tt (set_hdr (<[bp := mkHeader (hda R (base h)) s1]> (hdr h)) h).
Proof.
  intros Hok HB Hq. destruct (ok_around _ _ _ _ _ _ Hok) as [_ _ _ _ HlB _ _ _ _].
  destruct (ok_live _ _ _ Hok _ _ Hbp) as [(Hn1 & Hn2 & Hn3) _]. simpl in *.
  pose proof (ok_brk _ _ _ Hok) as (?&?&?).
  destruct B as [|[b sb] B]; simpl in *.
  - rewrite (proj2 (Z.eqb_neq _ _)) by (unfold hplus, sizeof_Header; lia).
    by rewrite (store_ptr_ok _ _ _ _ Hq).
  - destruct HlB as [Hb HlB]. apply Forall_cons in HB as [? _].
    pose proof (ok_size _ _ _ (b, sb) Hok ltac:(set_solver)) as Hsb. simpl in Hsb.
    case_match; [|by rewrite (store_ptr_ok _ _ _ _ Hq)].
    mrun. erewrite store_ptr_ok by hlook. cbn. rewrite insert_insert_eq, u32_id by lia. done.
Qed.

Lemma free_run A p sp B :
  heap_ok h (A ++ (p, sp) :: B) al -> p < bp -> Forall (fun b => bp < b.1) B ->
  free (hplus bp 1) h =
  let '(s1, R) := join_next bp n B in
  Ok tt (set_freep p (set_hdr
    (<[p := if hplus p sp =? bp then mkHeader (hda R (base h)) (sp + s1) else mkHeader bp sp]>
      (<[bp := mkHeader (hda R (base h)) s1]> (hdr h))) h)).
Proof.
  intros Hok Hp HB. pose proof (free_find_ok _ _ _ _ Hok Hp HB) as Hfind.
  pose proof (ok_around _ _ _ _ _ _ Hok) as [_ _ _ _ _ _ _ Hhp _].
  destruct (ok_live _ _ _ Hok _ _ Hbp) as [(?&?&?) [q Hq]].
  pose proof (ok_brk _ _ _ Hok) as (?&?&?).
  pose proof (ok_size _ _ _ (p, sp) Hok ltac:(set_solver)) as Hsp. simpl in *.
  assert (Hs1 : 0 <= (join_next bp n B).1 <= 2 ^ 29).
  { destruct B as [|[b sb] B]; simpl; [lia|]. pose proof (ok_size _ _ _ (b, sb) Hok ltac:(set_solver)).
    simpl in *. case_match; simpl; lia. }
  pose proof (free_join_next _ _ _ _ _ Hok HB Hq) as Hnext.
  unfold free. replace (hplus (hplus bp 1) (-1)) with bp by (unfold hplus; lia).
  mrun. cbn [ptr hsize]. destruct (join_next bp n B) as [s1 R]. mstep Hnext.
  set (h1 := set_hdr _ h).
  assert (Hbp1 : hdr h1 !! bp = Some (mkHeader (hda R (base h)) s1)) by (unfold h1; hlook).
  assert (Hp1 : hdr h1 !! p = Some (mkHeader (hda B (base h)) sp)) by (unfold h1; hlook).
  mrun. cbn [hsize ptr]. destruct (hplus p sp =? bp).
  - mrun. erewrite bind_ok; [|by apply store_ptr_ok; hlook]. unfold modify, set_freep, set_hdr. cbn.
    rewrite insert_insert_eq, u32_id by (simpl in *; lia). done.
  - mstep (store_ptr_ok _ bp _ _ Hp1). done.
Qed.

(** The block after joining with its successor, and the blocks that follow. *)
Record joined (s1 : Z) (R B : list block) : Prop := {
  jn_sub : forall b, b ∈ R -> b ∈ B;
  jn_before : Forall (before (bp, s1)) R;
  jn_lseg : lseg (hdr h) R (base h);
  jn_sorted : StronglySorted before R;
  jn_within : within (base h + 8) (brk h) (bp, s1);
  jn_disj : forall a k, al !! a = Some k -> a <> bp -> disjoint (bp, s1) (a, k);
  jn_units : units R + s1 = units B + n;
  jn_grow : n <= s1 /\ (length R <= length B)%nat;
}.

Lemma join_next_ok A p sp B :
  heap_ok h (A ++ (p, sp) :: B) al -> Forall (fun b => bp < b.1) B ->
  joined (join_next bp n B).1 (join_next bp n B).2 B.
Proof.
  intros Hok HB. destruct (ok_around _ _ _ _ _ _ Hok) as [_ _ _ _ HlB _ HsB _ _].
  destruct (ok_live _ _ _ Hok _ _ Hbp) as [Hw _]. pose proof (ok_live_disj _ _ _ Hok) as HD.
  pose proof (ok_free_disj _ _ _ Hok) as HF.
  assert (HBd : Forall (before (bp, n)) B).
  { apply Forall_forall. intros b Hb. rewrite Forall_forall in HB. specialize (HB _ Hb).
    destruct (HF b bp n ltac:(set_solver) Hbp) as [D|D]; simpl in D; [|by split].
    pose proof (ok_size _ _ _ b Hok ltac:(set_solver)). lia. }
  destruct B as [|[b sb] B]; simpl.
  { split; eauto. lia. }
  destruct (Z.eqb_spec (hplus bp n) b) as [Heq|Hne]; simpl.
  - unfold hplus, sizeof_Header in Heq. apply StronglySorted_inv in HsB as [HsB Hb].
    pose proof (ok_bounds _ _ _ Hok) as HW. rewrite Forall_app, !Forall_cons in HW.
    destruct HW as (_ & _ & [[= ? ?]|(?&?&?)] & _); [destruct Hw; simpl in *; lia|].
    destruct Hw as (?&?&?). simpl in *.
    split; simpl; [set_solver| |by destruct HlB|done|unfold within; simpl; lia| |lia|simpl; lia].
    + eapply Forall_impl; [exact Hb|]. unfold before. simpl. intros c ?. lia.
    + intros a k Ha Hne'. destruct (ok_live _ _ _ Hok _ _ Ha) as [(?&?&?) _].
      pose proof (HD bp n a k Hbp Ha ltac:(done)). pose proof (HF (b, sb) a k ltac:(set_solver) Ha).
      unfold disjoint in *. simpl in *. lia.
  - split; eauto. lia.
Qed.

Lemma units_app l1 l2 : units (l1 ++ l2) = units l1 + units l2.
Proof. induction l1 as [|b l1 IH]; simpl; [done|]. rewrite IH. lia. Qed.

(** The blocks put at the place of [(p, sp)], joined or not. *)
Lemma join_prev_ok A p sp B s1 R :
  heap_ok h (A ++ (p, sp) :: B) al -> p < bp -> joined s1 R B ->
  let J := join_prev p sp bp s1 R in
  p ∈ J.*1 /\ (A = [] -> J !! 0%nat = Some (p, sp)) /\ StronglySorted before J /\
  (forall a, a ∈ A -> Forall (before a) J) /\
  Forall (fun b => b = (base h, 0) \/ within (base h + 8) (brk h) b) J /\
  (forall b a k, b ∈ J -> al !! a = Some k -> a <> bp -> disjoint b (a, k)) /\
  units J = sp + s1 + units R.
Proof.
  intros Hok Hlt [Hsub Hbef _ HsR Hw Hdj _ _].
  destruct (ok_around _ _ _ _ _ _ Hok) as [Hbase HA Hgt _ _ _ _ _ _].
  pose proof (ok_sorted _ _ _ Hok) as Hs. pose proof (ok_head _ _ _ Hok) as Hhd.
  pose proof (ok_bounds _ _ _ Hok) as HW. rewrite Forall_app, Forall_cons in HW.
  destruct HW as (_ & Hwp & HWB). rewrite Forall_forall in Hbef, HWB.
  pose proof (ok_free_disj _ _ _ Hok) as HF.
  assert (Hpb : disjoint (p, sp) (bp, n)) by (apply HF; set_solver).
  pose proof (ok_size _ _ _ (p, sp) Hok ltac:(set_solver)) as Hsp.
  assert (HApb : forall a, a ∈ A -> a.1 + 8 * a.2 <= p /\ a.1 < p).
  { intros a Ha. by destruct (StronglySorted_app_1_elem_of _ _ _ a (p, sp) Hs Ha ltac:(set_solver)). }
  destruct (ok_live _ _ _ Hok _ _ Hbp) as [(?&?&?) _].
  assert (HpR : forall b, b ∈ R -> p < b.1 /\ p + 8 * sp <= bp /\ bp + 8 * s1 <= b.1).
  { intros b Hb. destruct (Hbef _ Hb), Hw as (?&?&?), Hpb; simpl in *; lia. }
  unfold join_prev, disjoint, within, before, hplus, sizeof_Header in *. simpl in *.
  destruct (Z.eqb_spec (p + sp * 8) bp) as [E|E]; (split_and!; [set_solver|..]); simpl.
  - intros ->. simpl in Hhd. injection Hhd as -> ->. lia.
  - constructor; [done|]. apply Forall_forall. intros b Hb. simpl. specialize (HpR _ Hb). lia.
  - intros a Ha. specialize (HApb _ Ha). apply Forall_cons; split; [simpl; lia|].
    apply Forall_forall. intros b Hb. specialize (HpR _ Hb). lia.
  - apply Forall_cons; split; [|by apply Forall_forall; auto]. right. simpl.
    destruct Hwp as [[= -> ->]|?]; lia.
  - intros b a k [->|Hb]%elem_of_cons Ha Hne; [|by apply HF; set_solver].
    specialize (Hdj _ _ Ha Hne). specialize (HF (p, sp) a k ltac:(set_solver) Ha).
    destruct (ok_live _ _ _ Hok _ _ Ha) as [(?&?&?) _]. simpl in *. lia.
  - lia.
  - done.
  - constructor; [constructor; [done|by apply Forall_forall; auto]|].
    apply Forall_cons; split; [simpl; lia|]. apply Forall_forall. intros b Hb.
    specialize (HpR _ Hb). simpl. lia.
  - intros a Ha. specialize (HApb _ Ha). apply Forall_cons; split; [simpl; lia|].
    apply Forall_cons; split; [simpl; lia|].
    apply Forall_forall. intros b Hb. specialize (HpR _ Hb). lia.
  - apply Forall_cons; split; [done|]. apply Forall_cons; split; [right; simpl; lia|].
    by apply Forall_forall; auto.
  - intros b a k [->|[->|Hb]%elem_of_cons]%elem_of_cons Ha Hne;
      [by apply HF; set_solver|by apply Hdj|by apply HF; set_solver].
  - lia.
Qed.

Definition freed_mem (p sp s1 : Z) (R : list block) : gmap Z Header :=
  <[p := if hplus p sp =? bp then mkHeader (hda R (base h)) (sp + s1) else mkHeader bp sp]>
    (<[bp := mkHeader (hda R (base h)) s1]> (hdr h)).

Lemma freed_ring A p sp B s1 R :
  heap_ok h (A ++ (p, sp) :: B) al -> p < bp -> joined s1 R B ->
  lseg (freed_mem p sp s1 R) (A ++ join_prev p sp bp s1 R) (base h).
Proof.
  intros Hok Hlt [_ Hbef HlR _ _ _ _ _].
  destruct (ok_around _ _ _ _ _ _ Hok) as [_ HA _ HlA _ _ _ _ _].
  rewrite Forall_forall in Hbef. pose proof (ok_size _ _ _ (p, sp) Hok ltac:(set_solver)) as Hsp.
  assert (HnA : forall x, p <= x -> x ∉ A.*1).
  { intros x Hx (b & -> & Hb)%list_elem_of_fmap. specialize (HA _ Hb). lia. }
  assert (HnR : forall x, x <= bp -> x ∉ R.*1).
  { intros x Hx (b & -> & Hb)%list_elem_of_fmap. destruct (Hbef _ Hb). simpl in *. lia. }
  assert (Hhd : hda (join_prev p sp bp s1 R) (base h) = p).
  { unfold join_prev. by destruct (hplus p sp =? bp). }
  unfold freed_mem. apply lseg_app. split.
  - rewrite Hhd.
    by rewrite !lseg_frame by (apply HnA; lia).
  - unfold join_prev. destruct (hplus p sp =? bp); cbn [lseg fst snd].
    + rewrite lookup_insert_eq. split; [done|]. by rewrite !lseg_frame by (apply HnR; lia).
    + rewrite lookup_insert_eq, lookup_insert_ne, lookup_insert_eq by lia. split_and!; [done..|].
      by rewrite !lseg_frame by (apply HnR; lia).
Qed.

(** [free] of a live block: it returns, and the invariant holds again with
    the block moved from the live ones to the free list. *)
Lemma free_ok L :
  heap_ok h L al ->
  exists h' L', free (hplus bp 1) h = Ok tt h' /\ heap_ok h' L' (delete bp al) /\
    units L' = units L + n /\ base h' = base h /\ brk h' = brk h /\ lim h' = lim h /\
    (exists b, b ∈ L' /\ n <= b.2) /\ (length L' <= S (length L))%nat.
Proof.
  intros Hok. destruct (free_place L Hok) as (A & p & sp & B & -> & Hp & HB).
  pose proof (free_run _ _ _ _ Hok Hp HB) as Hrun. pose proof (join_next_ok _ _ _ _ Hok HB) as Hj.
  destruct (join_next bp n B) as [s1 R]. simpl in Hj.
  destruct (join_prev_ok _ _ _ _ _ _ Hok Hp Hj) as (Jp & J0 & Js & JA & Jw & Jd & Ju).
  pose proof (freed_ring _ _ _ _ _ _ Hok Hp Hj) as Hring. pose proof (jn_units _ _ _ Hj).
  eexists _, (A ++ join_prev p sp bp s1 R). split; [exact Hrun|].
  assert (Hbig : (exists b, b ∈ A ++ join_prev p sp bp s1 R /\ n <= b.2) /\
    (length (A ++ join_prev p sp bp s1 R) <= S (length (A ++ (p, sp) :: B)))%nat).
  { destruct (jn_grow _ _ _ Hj). pose proof (ok_size _ _ _ (p, sp) Hok ltac:(set_solver)) as Hsp.
    rewrite !length_app. unfold join_prev. simpl in *. destruct (_ =? _); simpl; split; try lia.
    - exists (p, sp + s1). split; [set_solver|simpl; lia].
    - exists (bp, s1). split; [set_solver|simpl; lia]. }
  split; [|rewrite !units_app; simpl; split_and!; [lia|done..|apply Hbig|apply Hbig]].
  pose proof Hok as [Hhd _ Hs Hb _ Hbrk Hlive Hld Hfd].
  rewrite StronglySorted_app in Hs. destruct Hs as (_ & HsA & _).
  apply Forall_app in Hb as [HbA _].
  split; [|exact Hring|..]; cbn [base hdr freep brk lim set_freep set_hdr].
  - destruct A as [|a A]; [|done]. rewrite app_nil_l in *. simpl in Hhd. rewrite J0 by done. done.
  - apply StronglySorted_app. split_and!; [|done..]. intros a b Ha Hb'.
    specialize (JA _ Ha). rewrite Forall_forall in JA. auto.
  - apply Forall_app. done.
  - rewrite fmap_app. set_solver.
  - done.
  - intros a k (Hne & Ha)%lookup_delete_Some. destruct (Hlive _ _ Ha) as [Hw [q Hq]].
    split; [done|]. exists q.
    assert (a <> p) by (apply (live_not_free _ _ _ (p, sp) a k Hok); [set_solver|done]).
    by rewrite !lookup_insert_ne by done.
  - intros a k a' k' (_ & Ha)%lookup_delete_Some (_ & Ha')%lookup_delete_Some. by apply Hld.
  - intros b a k [Hb'|Hb']%elem_of_app (Hne & Ha)%lookup_delete_Some; [apply Hfd; set_solver|].
    by apply Jd.
Qed.
End Free.

(** ** malloc *)

(** The memory just obtained from sbrk is a live block above all others. *)
Definition grown (h : heap) (n : Z) : heap :=
  set_hdr (<[brk h := mkHeader (default 0 (ptr <$> hdr h !! brk h)) n]> (hdr h))
    (set_brk (brk h + n * 8) h).

Lemma grown_ok h L al n :
  heap_ok h L al -> 1 <= n -> brk h + 8 * n <= lim h ->
  al !! brk h = None /\ heap_ok (grown h n) L (<[brk h := n]> al).
Proof.
  intros [Hhd Hring Hs Hb Hfp (Hb0 & Hb1 & Hb2) Hlive Hld Hfd] Hn Hlim.
  assert (Hnl : al !! brk h = None).
  { destruct (al !! brk h) as [k|] eqn:E; [|done]. destruct (Hlive _ _ E) as [(?&?&?) _].
    simpl in *. lia. }
  assert (HnL : forall b, b ∈ L -> b.1 < brk h /\ b.1 + 8 * b.2 <= brk h).
  { intros b Hb'. rewrite Forall_forall in Hb. destruct (Hb _ Hb') as [->|(?&?&?)]; simpl; lia. }
  split; [done|].
  split; cbn [grown base hdr freep brk lim set_freep set_hdr set_brk]; auto.
  - apply lseg_frame; [|done]. intros (b & E & Hb')%list_elem_of_fmap.
    destruct (HnL _ Hb'). lia.
  - eapply Forall_impl; [exact Hb|]. unfold within. intros b [?|?]; [by left|right]. lia.
  - lia.
  - intros a k [[<- <-]|[Hne Ha]]%lookup_insert_Some.
    + split; [unfold within; simpl; lia|]. rewrite lookup_insert_eq. eauto.
    + destruct (Hlive _ _ Ha) as [(?&?&?) [q Hq]]. split; [unfold within; simpl in *; lia|].
      exists q. by rewrite lookup_insert_ne.
  - intros a k a' k' [[<- <-]|[? Ha]]%lookup_insert_Some [[<- <-]|[? Ha']]%lookup_insert_Some Hne;
      unfold disjoint; simpl; [done|..|by apply Hld];
      [destruct (Hlive _ _ Ha') as [(?&?&?) _]|destruct (Hlive _ _ Ha) as [(?&?&?) _]]; simpl in *; lia.
  - intros b a k Hb' [[<- <-]|[? Ha]]%lookup_insert_Some; [|by apply Hfd].
    destruct (HnL _ Hb'). left. simpl. lia.
Qed.

(** [morecore] fails exactly when the kernel cannot give the memory. *)
Lemma morecore_ok h L al nu :
  heap_ok h L al -> 1 <= nu < 2 ^ 28 ->
  let nu' := Z.max nu 4096 in
  (lim h < brk h + 8 * nu' -> morecore nu h = Ok 0 h) /\
  (brk h + 8 * nu' <= lim h ->
   exists h' L', morecore nu h = Ok (freep h') h' /\ heap_ok h' L' al /\
     units L' = units L + nu' /\ brk h' = brk h + 8 * nu' /\ base h' = base h /\ lim h' = lim h /\
     (exists b, b ∈ L' /\ nu <= b.2) /\ (length L' <= S (length L))%nat).
Proof.
  intros Hok Hnu nu'. unfold morecore.
  replace (if nu <? 4096 then 4096 else nu) with nu' by (unfold nu'; case_match; lia).
  unfold sizeof_Header, sbrk. rewrite i32_id by lia. split; intros Hlim.
  { msimpl. by rewrite (proj2 (Z.leb_gt _ _)) by lia. }
  pose proof (ok_brk _ _ _ Hok) as (?&?&?).
  destruct (grown_ok h L al nu' Hok ltac:(lia) Hlim) as [Hnl Hok1].
  destruct (free_ok _ _ (brk h) nu' (lookup_insert_eq _ _ _) L Hok1)
    as (h2 & L2 & Hf & Hok2 & Hu & E1 & E2 & E3 & (b & Hb' & Hb2') & Hlen).
  exists h2, L2. rewrite delete_insert_id in Hok2 by done. split.
  - erewrite bind_ok by (rewrite (proj2 (Z.leb_le _ _)) by lia; reflexivity).
    rewrite (proj2 (Z.eqb_neq _ _)) by lia.
    assert (Hs1 : store_size (brk h) nu' (set_brk (brk h + nu' * 8) h) = Ok tt (grown h nu')) by done.
    mrun. done.
  - split_and!; auto; try (rewrite ?E1, ?E2, ?E3; simpl; lia). exists b. split; [done|]. lia.
Qed.

(** Taking [nu] units from the tail of block [(b, sb)]: what stays of it. *)
Definition rest_of (b sb nu : Z) : list block :=
  if sb =? nu then [] else [(b, sb - nu)].

Section Take.
Context (h : heap) (al : gmap Z Z) (X Y : list block) (pv sq b sb nu : Z).
Context (Hok : heap_ok h (X ++ (pv, sq) :: (b, sb) :: Y) al) (Hnu : 1 <= nu <= sb).

Let r : Z := b + 8 * (sb - nu).
Let L' : list block := X ++ (pv, sq) :: rest_of b sb nu ++ Y.
Let mem : gmap Z Header :=
  if sb =? nu then <[pv := mkHeader (hda Y (base h)) sq]> (hdr h)
  else <[r := mkHeader (default 0 (ptr <$> hdr h !! r)) nu]>
         (<[b := mkHeader (hda Y (base h)) (sb - nu)]> (hdr h)).

Lemma take_facts :
  around h X pv sq ((b, sb) :: Y) /\ around h (X ++ [(pv, sq)]) b sb Y /\
  within (base h + 8) (brk h) (b, sb) /\ pv + 8 * sq <= b.
Proof.
  pose proof (ok_around _ _ _ _ _ _ Hok) as Ha. split; [done|].
  assert (Hok2 : heap_ok h ((X ++ [(pv, sq)]) ++ (b, sb) :: Y) al) by (by rewrite <- app_assoc).
  pose proof (ok_around _ _ _ _ _ _ Hok2) as Ha2. split; [done|]. split.
  - pose proof (ok_bounds _ _ _ Hok) as HW. rewrite Forall_app, !Forall_cons in HW.
    destruct HW as (_ & _ & [[= ? ?]|?] & _); [lia|done].
  - by destruct (ar_gt _ _ _ _ _ Ha (b, sb) ltac:(left)).
Qed.

Lemma take_ring : lseg mem L' (base h).
Proof.
  destruct take_facts as (H1 & H2 & Hw & Hpv).
  destruct H1 as [_ HX _ HlX HlY _ _ Hpv' _], H2 as [_ HX2 HY _ _ _ _ _ _]. simpl in *.
  pose proof (ok_size _ _ _ (pv, sq) Hok ltac:(set_solver)) as Hsq. simpl in Hsq.
  assert (HnX : forall x, pv <= x -> x ∉ X.*1).
  { intros x Hx (c & -> & Hc)%list_elem_of_fmap. specialize (HX _ Hc). lia. }
  assert (HnY : forall x, x < b + 8 * sb -> x ∉ Y.*1).
  { intros x Hx (c & -> & Hc)%list_elem_of_fmap. destruct (HY _ Hc). simpl in *. lia. }
  assert (pv < b) by (apply (HX2 (pv, sq)); set_solver).
  unfold L', mem, rest_of. apply lseg_app.
  destruct (Z.eqb_spec sb nu) as [->|Hne]; simpl; split_and!.
  - rewrite lseg_frame by (apply HnX; lia). done.
  - by rewrite lookup_insert_eq.
  - rewrite lseg_frame by (apply HnY; lia). tauto.
  - rewrite !lseg_frame by (apply HnX; unfold r; lia). done.
  - by rewrite !lookup_insert_ne by (unfold r; lia).
  - rewrite lookup_insert_ne by (unfold r; lia). by rewrite lookup_insert_eq.
  - rewrite !lseg_frame by (apply HnY; unfold r; lia). tauto.
Qed.

Lemma take_sorted :
  StronglySorted before L' /\ (forall c, c ∈ L' -> c.1 + 8 * c.2 <= r \/ r + 8 * nu <= c.1) /\
  Forall (fun b => b = (base h, 0) \/ within (base h + 8) (brk h) b) L' /\
  (forall c a k, c ∈ L' -> al !! a = Some k -> disjoint c (a, k)).
Proof.
  destruct take_facts as (H1 & H2 & Hw & Hpv). pose proof (ok_sorted _ _ _ Hok) as Hs.
  destruct H2 as [_ HX2 HY _ _ _ HsY _ _]. pose proof (ok_free_disj _ _ _ Hok) as HD.
  assert (HX : forall c, c ∈ X ++ [(pv, sq)] -> before c (b, sb)).
  { intros c Hc. apply (StronglySorted_app_1_elem_of _ (X ++ [(pv, sq)]) ((b, sb) :: Y)).
    - by rewrite <- app_assoc.
    - done.
    - left. }
  assert (HK : forall c, c ∈ rest_of b sb nu -> c = (b, sb - nu) /\ nu < sb).
  { unfold rest_of. intros c. destruct (Z.eqb_spec sb nu); [set_solver|].
    intros ->%list_elem_of_singleton. split; [done|lia]. }
  assert (Hbd : forall a k, al !! a = Some k -> disjoint (b, sb) (a, k)) by (intros; apply HD; set_solver).
  pose proof (ok_bounds _ _ _ Hok) as HW. rewrite Forall_forall in HW.
  assert (EL : L' = (X ++ [(pv, sq)]) ++ rest_of b sb nu ++ Y) by (unfold L'; by rewrite <- app_assoc).
  assert (HE : forall c, c ∈ L' -> (c ∈ X ++ [(pv, sq)] /\ before c (b, sb)) \/
            (c = (b, sb - nu) /\ nu < sb) \/ (c ∈ Y /\ before (b, sb) c)).
  { intros c. rewrite EL. intros [?|[?|?]%elem_of_app]%elem_of_app; auto. }
  assert (HW' : forall c, c ∈ X ++ [(pv, sq)] \/ c ∈ Y -> c ∈ X ++ (pv, sq) :: (b, sb) :: Y) by set_solver.
  destruct Hw as (?&?&?). unfold before, disjoint, within in *. simpl in *. split_and!.
  - rewrite EL. apply StronglySorted_app. split_and!.
    + intros c d Hc [Hd|Hd]%elem_of_app; specialize (HX _ Hc).
      * destruct (HK _ Hd) as [-> ?]. unfold before. simpl. lia.
      * destruct (HY _ Hd). unfold before. simpl in *. lia.
    + change (X ++ _) with (X ++ [(pv, sq)] ++ (b, sb) :: Y) in Hs. rewrite app_assoc in Hs.
      by eapply StronglySorted_app_1_l.
    + apply StronglySorted_app. split_and!; [|unfold rest_of; case_match; repeat constructor|done].
      intros c d Hc Hd. destruct (HK _ Hc) as [-> ?]. destruct (HY _ Hd).
      unfold before. simpl in *. lia.
  - intros c Hc. unfold r. destruct (HE _ Hc) as [(_ & ?)|[(-> & ?)|(_ & ?)]]; simpl in *; lia.
  - apply Forall_forall. intros c Hc.
    destruct (HE _ Hc) as [(Hc' & ?)|[(-> & ?)|(Hc' & ?)]]; [by apply HW; auto|right; simpl; lia|by apply HW; auto].
  - intros c a k Hc Ha. destruct (ok_live _ _ _ Hok _ _ Ha) as [(?&?&?) _].
    destruct (HE _ Hc) as [(Hc' & ?)|[(-> & ?)|(Hc' & ?)]]; [by apply HD; auto| |by apply HD; auto].
    specialize (Hbd _ _ Ha). simpl in *. lia.
Qed.

(** The invariant after the block has been taken. *)
Lemma take_ok :
  heap_ok (set_freep pv (set_hdr mem h)) L' (<[r := nu]> al) /\ al !! r = None /\
  units L' + nu = units (X ++ (pv, sq) :: (b, sb) :: Y).
Proof.
  destruct take_facts as (H1 & H2 & (?&?&?) & Hpv).
  destruct take_sorted as (Ts & Tr & Tw & Td). pose proof take_ring as Hring.
  pose proof Hok as [Hhd _ _ _ _ Hbrk Hlive Hld Hfd].
  assert (Hbd : forall a k, al !! a = Some k -> disjoint (b, sb) (a, k)) by (intros; apply Hfd; set_solver).
  unfold disjoint in *. simpl in *.
  assert (Hrn : al !! r = None).
  { destruct (al !! r) as [k|] eqn:E; [|done]. exfalso. specialize (Hbd _ _ E).
    destruct (Hlive _ _ E) as [(?&?&?) _]. unfold r in *. simpl in *. lia. }
  assert (Hrm : exists q, mem !! r = Some (mkHeader q nu)).
  { unfold mem. destruct (Z.eqb_spec sb nu) as [->|].
    - unfold r. replace (b + 8 * (nu - nu)) with b by lia. exists (hda Y (base h)).
      rewrite lookup_insert_ne; [by destruct H2|].
      pose proof (ar_lt _ _ _ _ _ H2 (pv, sq) ltac:(set_solver)). simpl in *. lia.
    - rewrite lookup_insert_eq. eauto. }
  assert (Hrw : within (base h + 8) (brk h) (r, nu)) by (unfold within, r; simpl; lia).
  split_and!; [|done|].
  - split; cbn [base hdr freep brk lim set_freep set_hdr]; auto.
    + unfold L'. destruct X; [|done]. simpl in *. done.
    + unfold L'. rewrite fmap_app. set_solver.
    + intros a k [[<- <-]|[Hne Ha]]%lookup_insert_Some; [by split|].
      destruct (Hlive _ _ Ha) as [Hw [q Hq]]. split; [done|]. exists q.
      pose proof (live_not_free _ _ _ (pv, sq) _ _ Hok ltac:(set_solver) Ha).
      pose proof (live_not_free _ _ _ (b, sb) _ _ Hok ltac:(set_solver) Ha). simpl in *.
      unfold mem. case_match; by rewrite !lookup_insert_ne by congruence.
    + intros a k a' k' [[<- <-]|[? Ha]]%lookup_insert_Some [[<- <-]|[? Ha']]%lookup_insert_Some Hne;
        [done|specialize (Hbd _ _ Ha')|specialize (Hbd _ _ Ha)|by apply Hld]; unfold disjoint, r; simpl; lia.
    + intros c a k Hc [[<- <-]|[? Ha]]%lookup_insert_Some; [by apply Tr|by apply Td].
  - unfold L'. rewrite !units_app. simpl. rewrite units_app. unfold rest_of. case_match; simpl; lia.
Qed.
End Take.

(** The tail of [malloc_scan] once a block that is large enough is found. *)
Definition take_block (nunits prevp p : Z) (hp : Header) : M heap Z :=
  q ← (if hsize hp =? nunits then
         store_ptr prevp (ptr hp);; mret p
       else
         let n := hsize hp ⊖ nunits in
         store_size p n;;
         let q := hplus p n in
         store_size q nunits;; mret q);
  modify (set_freep prevp);;
  mret (hplus q 1).

Lemma sorted_unique l a s s' :
  StronglySorted before l -> (a, s) ∈ l -> (a, s') ∈ l -> s = s'.
Proof.
  induction 1 as [|b l Hs IH Hf]; [set_solver|]. rewrite Forall_forall in Hf.
  intros [<-|H1]%elem_of_cons [E|H2]%elem_of_cons; [by injection E| | |auto].
  - destruct (Hf _ H2). simpl in *. lia.
  - subst b. destruct (Hf _ H1). simpl in *. lia.
Qed.

(** The predecessor in the ring is the predecessor in address order. *)
Lemma pred_linear h L al pv b sb s :
  heap_ok h L al -> pv ∈ L.*1 -> (b, sb) ∈ L -> 1 <= sb ->
  hdr h !! pv = Some (mkHeader b s) ->
  exists X Y, L = X ++ (pv, s) :: (b, sb) :: Y.
Proof.
  intros Hok (q & -> & Hq)%list_elem_of_fmap Hb Hsb Hh. destruct q as [pv sq].
  apply list_elem_of_split in Hq as (X & Z & ->). simpl in *.
  pose proof (ok_around _ _ _ _ _ _ Hok) as [_ HX _ _ _ _ _ Hp _].
  rewrite Hp in Hh. simplify_eq. destruct Z as [|[c sc] Z]; simpl in *.
  - exfalso. enough (0 = sb) by lia. apply (sorted_unique _ (base h) _ _ (ok_sorted _ _ _ Hok)); [|done].
    eapply list_elem_of_lookup_2, (ok_head _ _ _ Hok).
  - exists X, Z. do 4 f_equal. apply (sorted_unique _ c _ _ (ok_sorted _ _ _ Hok)); [set_solver|done].
Qed.

(** What a successful allocation of [nu] units guarantees. *)
Definition allocated (h h' : heap) (L : list block) (al : gmap Z Z) (nu r : Z) : Prop :=
  exists L', heap_ok h' L' (<[r := nu]> al) /\ al !! r = None /\ 0 < r /\
    8 * (units L' + nu) = 8 * units L + (brk h' - brk h) /\
    base h' = base h /\ lim h' = lim h.

Lemma take_run h L al pv b sb s nu :
  heap_ok h L al -> pv ∈ L.*1 -> (b, sb) ∈ L -> 1 <= nu <= sb ->
  hdr h !! pv = Some (mkHeader b s) ->
  exists r h', (forall p, hdr h !! b = Some (mkHeader p sb) ->
      take_block nu pv b (mkHeader p sb) h = Ok (hplus r 1) h') /\ allocated h h' L al nu r.
Proof.
  intros Hok Hpv Hb Hnu Hh.
  destruct (pred_linear _ _ _ _ _ _ _ Hok Hpv Hb ltac:(lia) Hh) as (X & Y & ->).
  destruct (take_facts _ _ _ _ _ _ _ _ _ Hok Hnu) as (_ & H2 & (_ & Hlo & _) & _). simpl in *.
  destruct (take_ok _ _ _ _ _ _ _ _ _ Hok Hnu) as (Hok' & Hn & Hu).
  pose proof (ok_size _ _ _ (b, sb) Hok ltac:(set_solver)) as Hsz. simpl in Hsz.
  pose proof (ok_brk _ _ _ Hok) as (?&?&?).
  eexists _, _. split; [|exists (X ++ (pv, s) :: rest_of b sb nu ++ Y); split_and!;
    [exact Hok'|exact Hn|simpl; lia|simpl; lia|done..]].
  intros p Hp. pose proof (ar_p _ _ _ _ _ H2) as Hp'. rewrite Hp' in Hp. injection Hp as <-.
  unfold take_block. cbn [hsize ptr].
  destruct (Z.eqb_spec sb nu) as [->|Hne].
  - mrun. cbn [hsize]. unfold hplus, sizeof_Header. replace (b + 8 * (nu - nu)) with b by lia. done.
  - rewrite u32_id by lia.
    unfold store_size, hplus, sizeof_Header. msimpl. rewrite Hp'. cbn.
    rewrite lookup_insert_ne by lia. unfold set_freep, set_hdr. cbn.
    replace (b + (sb - nu) * 8) with (b + 8 * (sb - nu)) by lia. done.
Qed.

Lemma malloc_scan_eq fuel nu pv p h hp :
  hdr h !! p = Some hp ->
  malloc_scan (S fuel) nu pv p h =
  (if nu <=? hsize hp then take_block nu pv p hp
   else fp ← gets freep;
        if p =? fp then
          p ← morecore nu;
          if p =? 0 then mret 0
          else hp ← load p; malloc_scan fuel nu p (ptr hp)
        else malloc_scan fuel nu p (ptr hp)) h.
Proof. intros Hp. cbn [malloc_scan]. by rewrite (bind_ok _ _ _ _ _ (load_ok _ _ _ Hp)). Qed.
Arguments malloc_scan : simpl never.

Section Scan.
Context (h : heap) (L : list block) (al : gmap Z Z) (Hok : heap_ok h L al).
Context (nu sf : Z) (Hnu : 1 <= nu) (Hf : (freep h, sf) ∈ L).

(** The blocks [l] between the current position and [freep]. *)
Definition arc (l : list block) (pv : Z) : Prop :=
  (forall b, b ∈ l -> b ∈ L /\ b.1 <> freep h) /\ lseg (hdr h) l (freep h) /\ pv ∈ L.*1 /\
  exists s, hdr h !! pv = Some (mkHeader (hda l (freep h)) s).

Lemma arc_tail b l pv : arc (b :: l) pv -> arc l b.1 /\ hdr h !! b.1 = Some (mkHeader (hda l (freep h)) b.2).
Proof.
  intros (Hl & [Hb Hs] & Hpv & _). split; [|done]. split_and!; [set_solver|done| |eauto].
  apply list_elem_of_fmap. exists b. split; [done|]. by apply Hl; left.
Qed.

Lemma freep_header : exists q, hdr h !! freep h = Some (mkHeader q sf).
Proof.
  pose proof Hf as Hf'. apply list_elem_of_split in Hf' as (A & B & E). pose proof Hok as Hok'.
  rewrite E in Hok'. destruct (ok_around _ _ _ _ _ _ Hok') as [_ _ _ _ _ _ _ Hp _]. eauto.
Qed.

Lemma scan_found l pv fuel :
  arc l pv -> (length l < fuel)%nat -> (exists b, b ∈ l ++ [(freep h, sf)] /\ nu <= b.2) ->
  exists r h', malloc_scan fuel nu pv (hda l (freep h)) h = Ok (hplus r 1) h' /\ allocated h h' L al nu r.
Proof.
  revert pv fuel. induction l as [|[b sb] l IH]; intros pv [|fuel] Ha Hlen (c & Hc & Hcn);
    simpl in Hlen; try lia; simpl.
  - apply list_elem_of_singleton in Hc as ->. destruct freep_header as [q Hq], Ha as (_ & _ & Hpv & s & Hs).
    simpl in *. rewrite (malloc_scan_eq _ _ _ _ _ _ Hq). cbn [hsize]. rewrite (proj2 (Z.leb_le _ _)) by lia.
    destruct (take_run h L al pv (freep h) sf s nu Hok Hpv Hf ltac:(lia) Hs) as (r & h' & Hr & Hal). eauto.
  - destruct (arc_tail _ _ _ Ha) as [Ha' Hb]. simpl in *. rewrite (malloc_scan_eq _ _ _ _ _ _ Hb). cbn [hsize ptr].
    destruct (Z.leb_spec nu sb).
    + destruct Ha as (Hl & _ & Hpv & s & Hs). simpl in *.
      destruct (take_run h L al pv b sb s nu Hok Hpv ltac:(apply Hl; left) ltac:(lia) Hs) as (r & h' & Hr & Hal). eauto.
    + mrun. rewrite (proj2 (Z.eqb_neq _ _)) by (apply (proj1 Ha (b, sb)); left).
      apply IH; [done|lia|]. exists c. split; [|done]. apply elem_of_cons in Hc as [->|?]; [simpl in *; lia|done].
Qed.

Lemma scan_none l pv fuel :
  arc l pv -> (forall b, b ∈ l ++ [(freep h, sf)] -> b.2 < nu) ->
  malloc_scan (length l + S fuel) nu pv (hda l (freep h)) h =
  (p ← morecore nu;
   if p =? 0 then mret 0 else hp ← load p; malloc_scan fuel nu p (ptr hp)) h.
Proof.
  revert pv. induction l as [|[b sb] l IH]; intros pv Ha Hsm; simpl.
  - destruct freep_header as [q Hq]. rewrite (malloc_scan_eq _ _ _ _ _ _ Hq). cbn [hsize].
    rewrite (proj2 (Z.leb_gt _ _)) by (apply (Hsm (freep h, sf)); set_solver).
    mrun. by rewrite Z.eqb_refl.
  - destruct (arc_tail _ _ _ Ha) as [Ha' Hb]. simpl in *. rewrite (malloc_scan_eq _ _ _ _ _ _ Hb). cbn [hsize ptr].
    rewrite (proj2 (Z.leb_gt _ _)) by (apply (Hsm (b, sb)); set_solver).
    mrun. rewrite (proj2 (Z.eqb_neq _ _)) by (apply (proj1 Ha (b, sb)); left).
    apply IH; [done|set_solver].
Qed.
End Scan.

(** One turn of the ring from [freep]. *)
Lemma ring_arc h L al :
  heap_ok h L al ->
  exists l sf, (freep h, sf) ∈ L /\ arc h L l (freep h) /\ hdr h !! freep h = Some (mkHeader (hda l (freep h)) sf) /\
    (forall b, b ∈ l ++ [(freep h, sf)] <-> b ∈ L) /\ length L = S (length l).
Proof.
  intros Hok. pose proof (ok_freep _ _ _ Hok) as ([f sf] & E & Hf)%list_elem_of_fmap. simpl in E.
  apply list_elem_of_split in Hf as (A & B & ->). subst f.
  pose proof (ok_around _ _ _ _ _ _ Hok) as [_ HA HB _ _ _ _ Hp [Hc Hh]].
  exists (B ++ A), sf. split_and!; [set_solver| |by rewrite Hh| |rewrite !length_app; simpl; lia].
  - split_and!; [|done|apply (ok_freep _ _ _ Hok)|exists sf; by rewrite Hh].
    intros b [Hb|Hb]%elem_of_app; (split; [set_solver|]); [destruct (HB _ Hb); simpl in *; lia|].
    specialize (HA _ Hb). lia.
  - set_solver.
Qed.

Lemma scan_ring_ok h L al nu :
  heap_ok h L al -> 1 <= nu < 2 ^ 28 ->
  exists res h', (hp ← load (freep h); malloc_scan (2 * size (hdr h) + 4) nu (freep h) (ptr hp)) h = Ok res h' /\
    ((res = 0 /\ h' = h /\ lim h < brk h + 8 * Z.max nu 4096) \/
     (exists r, res = hplus r 1 /\ allocated h h' L al nu r)).
Proof.
  intros Hok Hnu. destruct (ring_arc _ _ _ Hok) as (l & sf & Hf & Ha & Hh & Hl & Hlen).
  pose proof (lseg_length _ _ _ (ok_ring _ _ _ Hok) (before_lt _ (ok_sorted _ _ _ Hok))) as Hsz.
  mstep (load_ok _ _ _ Hh). cbn [ptr].
  destruct (decide (Exists (fun b => nu <= b.2) L)) as [(b & Hb & Hbn)%Exists_exists|Hsm].
  { destruct (scan_found h L al Hok nu sf ltac:(lia) Hf l (freep h) (2 * size (hdr h) + 4) Ha ltac:(lia))
      as (r & h' & Hr & Hal); [exists b; by rewrite Hl|]. eauto 10. }
  rewrite <- Forall_Exists_neg, Forall_forall in Hsm.
  replace (2 * size (hdr h) + 4)%nat with (length l + S (2 * size (hdr h) + 3 - length l))%nat by lia.
  rewrite (scan_none h L al Hok nu sf ltac:(lia) Hf l) by (done || (intros b Hb; apply Hl in Hb; specialize (Hsm _ Hb); lia)).
  destruct (morecore_ok h L al nu Hok Hnu) as [Hfail Hsucc].
  destruct (decide (lim h < brk h + 8 * Z.max nu 4096)) as [Hlim|Hlim].
  { mstep (Hfail Hlim). rewrite Z.eqb_refl. eauto 10. }
  destruct (Hsucc ltac:(lia)) as (h2 & L2 & Hm & Hok2 & Hu & Hb2 & Hbs & Hlm & (b & Hb & Hbn) & Hlen2).
  mstep Hm. pose proof (ok_freep _ _ _ Hok2) as Hfp2. pose proof (ok_brk _ _ _ Hok2) as (?&?&?).
  destruct (ring_arc _ _ _ Hok2) as (l2 & sf2 & Hf2 & Ha2 & Hh2 & Hl2 & Hlen2').
  rewrite (proj2 (Z.eqb_neq _ _)).
  2:{ apply list_elem_of_fmap in Hfp2 as (c & -> & Hc). pose proof (ok_bounds _ _ _ Hok2) as HW.
      rewrite Forall_forall in HW. destruct (HW _ Hc) as [->|(?&?&?)]; simpl; lia. }
  mstep (load_ok _ _ _ Hh2). cbn [ptr].
  destruct (scan_found h2 L2 al Hok2 nu sf2 ltac:(lia) Hf2 l2 (freep h2) (2 * size (hdr h) + 3 - length l) Ha2 ltac:(lia))
    as (r & h' & Hr & L' & Hok' & Hn & Hr0 & Hu' & ? & ?); [exists b; by rewrite Hl2|].
  exists (hplus r 1), h'. split; [done|]. right. exists r. split; [done|]. exists L'.
  split_and!; [done..|lia|congruence|congruence].
Qed.

(** The states the allocator can be in: before the first [malloc], or with a
    well-formed ring.  [al] are the live blocks (header address to units) and
    [u] the number of free units. *)
Definition fresh (h : heap) : Prop :=
  freep h = 0 /\ 0 < base h /\ base h + 8 <= brk h <= 2 ^ 31 /\ lim h <= 2 ^ 31.
Definition heap_inv (h : heap) (al : gmap Z Z) (u : Z) : Prop :=
  (fresh h /\ al = ∅ /\ u = 0) \/ exists L, heap_ok h L al /\ units L = u.

Lemma init_ok h m :
  fresh h -> m !! base h = Some (mkHeader (base h) 0) ->
  heap_ok (set_hdr m (set_freep (base h) h)) [(base h, 0)] ∅.
Proof.
  intros (Hf & Hb & Hbk & Hl) Hm. split; cbn; auto.
  - repeat constructor.
  - set_solver.
  - intros a n. by rewrite lookup_empty.
  - intros a n a' n'. by rewrite lookup_empty.
  - intros b a n _. by rewrite lookup_empty.
Qed.

Lemma freep_pos h L al : heap_ok h L al -> 0 < freep h.
Proof.
  intros Hok. pose proof (ok_freep _ _ _ Hok) as (c & -> & Hc)%list_elem_of_fmap.
  pose proof (ok_brk _ _ _ Hok) as (?&?&?). pose proof (ok_bounds _ _ _ Hok) as HW.
  rewrite Forall_forall in HW. destruct (HW _ Hc) as [->|(?&?&?)]; simpl; lia.
Qed.

Lemma nunits_of_eq nbytes : 0 <= nbytes < 2 ^ 30 -> nunits_of nbytes = (nbytes + 7) / 8 + 1.
Proof.
  intros H. unfold nunits_of, sizeof_Header. rewrite (u32_id (nbytes + _)) by lia.
  rewrite u32_id; [done|]. Z.to_euclidean_division_equations. lia.
Qed.

(** The initialisation at the start of [malloc] gives a well-formed ring with
    the same live blocks and free units. *)
Lemma malloc_init h al u :
  heap_inv h al u ->
  exists h1 L,
    (fp ← gets freep;
     (if fp =? 0 then b ← gets base; modify (set_freep b);; store_ptr b b;; store_size b 0
      else mret tt)) h = Ok tt h1 /\
    heap_ok h1 L al /\ units L = u /\ brk h1 = brk h /\ lim h1 = lim h.
Proof.
  intros [(Hfr & -> & ->)|(L & Hok & Hu)].
  - eexists _, [(base h, 0)]. split.
    + mrun. rewrite (proj1 Hfr), Z.eqb_refl. reflexivity.
    + split_and!; [|done..]. apply init_ok; [done|]. cbn. by rewrite !lookup_insert_eq.
  - exists h, L. pose proof (freep_pos _ _ _ Hok). split_and!; [|done..].
    mrun. by rewrite (proj2 (Z.eqb_neq _ _)) by lia.
Qed.

Lemma malloc_block h al u nbytes :
  heap_inv h al u -> 0 <= nbytes < 2 ^ 30 ->
  let nu := nunits_of nbytes in
  exists res h', malloc nbytes h = Ok res h' /\
    ((res = 0 /\ heap_inv h' al u /\ lim h < brk h + 8 * Z.max nu 4096) \/
     (exists r u', res = r + 8 /\ 0 < r /\ al !! r = None /\ nbytes <= 8 * (nu - 1) /\
        heap_inv h' (<[r := nu]> al) u' /\ 8 * (u' + nu) = 8 * u + (brk h' - brk h))).
Proof.
  intros Hinv Hn nu. assert (Hnu : 1 <= nu < 2 ^ 28 /\ nbytes <= 8 * (nu - 1)).
  { unfold nu. rewrite nunits_of_eq by done. Z.to_euclidean_division_equations. lia. }
  destruct Hnu as [Hnu Hnb].
  destruct (malloc_init _ _ _ Hinv) as (h1 & L & Hi & Hok & Hu & Hbk & Hlm).
  destruct (scan_ring_ok h1 L al nu Hok Hnu) as (res & h' & Hr & Hc).
  exists res, h'. split.
  { unfold malloc. fold nu. rewrite <- bind_assoc_run. mstep Hi. mstep (get_ok h1). done. }
  destruct Hc as [(-> & -> & ?)|(r & -> & L' & ? & ? & ? & ? & ? & ?)].
  - left. split_and!; [done|right; eauto|lia].
  - right. exists r, (units L'). split_and!; [unfold hplus, sizeof_Header; lia|done..|right; eauto|lia].
Qed.

Lemma free_block h al u r n :
  heap_inv h al u -> al !! r = Some n ->
  exists h', free (r + 8) h = Ok tt h' /\ heap_inv h' (delete r al) (u + n) /\ brk h' = brk h /\ lim h' = lim h.
Proof.
  intros [(_ & -> & _)|(L & Hok & Hu)] Hr; [done|].
  destruct (free_ok h al r n Hr L Hok) as (h' & L' & Hf & Hok' & Hu' & _ & ? & ? & _).
  exists h'. split_and!; [by replace (r + 8) with (hplus r 1) by (unfold hplus, sizeof_Header; lia)| |done..].
  right. exists L'. split; [done|lia].
Qed.

(** C18: [malloc] of up to 2^30 bytes always returns.  Either it returns null,
    which happens only when the kernel cannot grow the process, and the heap
    is as before; or it returns the payload of a block that was not live, large
    enough for the request, disjoint from every live block and from the free
    list, and no memory is lost: the free units plus the ones handed out are
    the former free units plus what sbrk added. *)
Theorem malloc_correct h al u nbytes :
  heap_inv h al u -> 0 <= nbytes < 2 ^ 30 ->
  let nu := nunits_of nbytes in
  exists res h', malloc nbytes h = Ok res h' /\
    ((res = 0 /\ heap_inv h' al u /\ lim h < brk h + 8 * Z.max nu 4096) \/
     (exists r u', res = r + 8 /\ 0 < r /\ al !! r = None /\ nbytes <= 8 * (nu - 1) /\
        heap_inv h' (<[r := nu]> al) u' /\ 8 * (u' + nu) = 8 * u + (brk h' - brk h))).
Proof. apply malloc_block. Qed.

(** [free] of the payload of a live block returns, the block is no longer
    live, its units are free again, and every other live block is untouched. *)
Theorem free_correct h al u r n :
  heap_inv h al u -> al !! r = Some n ->
  exists h', free (r + 8) h = Ok tt h' /\ heap_inv h' (delete r al) (u + n) /\ brk h' = brk h /\ lim h' = lim h.
Proof. apply free_block. Qed.

Lemma live_separate h al u r n r' n' :
  heap_inv h al u -> al !! r = Some n -> al !! r' = Some n' -> r <> r' ->
  r + 8 * n <= r' \/ r' + 8 * n' <= r.
Proof.
  intros [(_ & -> & _)|(L & Hok & _)] Hr Hr' Hne; [done|].
  apply (ok_live_disj _ _ _ Hok r n r' n' Hr Hr' Hne).
Qed.

Lemma malloc_correct_witness :
  exists res h', malloc 4000 (heap0 1000 4096 1000000) = Ok res h' /\ res <> 0.
Proof.
  destruct (malloc_correct (heap0 1000 4096 1000000) ∅ 0 4000) as (res & h' & Hm & H).
  - left. split_and!; [|done..]. unfold fresh. simpl. lia.
  - lia.
  - exists res, h'. split; [done|]. destruct H as [(-> & _ & H)|(r & u' & -> & ? & _)]; [|lia].
    vm_compute in H. discriminate.
Defined.

Lemma free_correct_witness :
  exists h h' al u, heap_inv h al u /\ al <> ∅ /\ free 32864 h = Ok tt h' /\ heap_inv h' (delete 32856 al) (u + 501).
Proof.
  destruct (malloc_block (heap0 1000 4096 1000000) ∅ 0 4000) as (res & h & Hm & H).
  - left. split_and!; [|done..]. unfold fresh. simpl. lia.
  - lia.
  - destruct H as [(-> & _ & H)|(r & u' & E & _ & _ & _ & Hi & _)]; [vm_compute in H; discriminate|].
    vm_compute in Hm. injection Hm as <- <-. assert (r = 32856) as -> by lia.
    destruct (free_correct _ _ _ 32856 501 Hi) as (h' & Hf & Hi' & _); [done|].
    eexists _, h', _, u'. split_and!; [exact Hi|done|exact Hf|exact Hi'].
Defined.

(** A request within 7 bytes of 2^32 is not refused: the rounding wraps
    around and [malloc] asks the free list for a single header unit, so the
    block it returns has no room at all for the caller's data. *)
Theorem malloc_huge_request nbytes :
  2 ^ 32 - 7 <= nbytes < 2 ^ 32 -> nunits_of nbytes = 1.
Proof.
  intros H. unfold nunits_of, sizeof_Header.
  replace (u32 (nbytes + (8 - 1))) with (nbytes + 7 - 2 ^ 32).
  - rewrite Z.div_small by lia. done.
  - unfold u32. rewrite <- (Z.mod_small (nbytes + 7 - 2 ^ 32) (2 ^ 32)) by lia.
    rewrite Z.mod_small by lia. symmetry. rewrite <- (Z_mod_plus_full _ (-1)). rewrite Z.mod_small; lia.
Qed.

Lemma malloc_huge_request_witness :
  2 ^ 32 - 7 <= 4294967290 < 2 ^ 32 /\ nunits_of 4294967290 = 1 /\
  exists h', malloc 4294967290 (heap0 1000 4096 1000000) = Ok 36864 h'.
Proof.
  split; [lia|]. split; [apply (malloc_huge_request 4294967290); lia|]. eexists. vm_compute. reflexivity.
Defined.

(** ** The allocator interface *)

(** [al] lists payloads with the sizes asked for; the heap lists headers with
    their units. *)
Definition payloads (al al0 : gmap Z Z) : Prop :=
  (forall r, al0 !! r = nunits_of <$> al !! (r + 8)) /\
  map_Forall (fun r n => 0 < n < 2 ^ 30) al.

#[export] Program Instance umalloc_allocator : Allocator heap := {|
  amalloc := malloc;
  afree := free;
  ainv h al := exists al0 u, heap_inv h al0 u /\ payloads al al0;
|}.
Next Obligation.
  intros h al n (al0 & u & Hi & Hp & Hs) Hn.
  destruct (malloc_block h al0 u n Hi ltac:(lia)) as (res & h' & Hm & H).
  exists res, h'. split; [done|].
  destruct H as [(-> & ? & _)|(r & u' & -> & ? & Hr & _ & Hi' & _)].
  - left. split; [done|]. by exists al0, u.
  - right. split; [lia|]. assert (Hn' : al !! (r + 8) = None).
    { rewrite Hp in Hr. by apply fmap_None in Hr. }
    split; [done|]. eexists _, u'. split; [exact Hi'|]. split.
    + intros r'. destruct (decide (r' = r)) as [->|].
      * by rewrite !lookup_insert_eq.
      * by rewrite !lookup_insert_ne, Hp by lia.
    + by apply map_Forall_insert_2.
Qed.
Next Obligation.
  intros h al r n (al0 & u & Hi & Hp & Hs) Hr.
  assert (Hr0 : al0 !! (r - 8) = Some (nunits_of n)).
  { rewrite Hp. replace (r - 8 + 8) with r by lia. by rewrite Hr. }
  destruct (free_block h al0 u (r - 8) _ Hi Hr0) as (h' & Hf & Hi' & _).
  exists h'. split; [by replace r with (r - 8 + 8) at 1 by lia|].
  eexists _, _. split; [exact Hi'|]. split.
  - intros r'. destruct (decide (r' = r - 8)) as [->|].
    + rewrite lookup_delete_eq. replace (r - 8 + 8) with r by lia. by rewrite lookup_delete_eq.
    + by rewrite !lookup_delete_ne, Hp by lia.
  - by apply map_Forall_delete.
Qed.
Next Obligation.
  intros h al r n r' n' (al0 & u & Hi & Hp & Hs) Hr Hr' Hne.
  pose proof (Hs _ _ Hr) as Hn. pose proof (Hs _ _ Hr') as Hn'. simpl in Hn, Hn'.
  pose proof (live_separate h al0 u (r - 8) (nunits_of n) (r' - 8) (nunits_of n') Hi) as Hsep.
  rewrite !Hp in Hsep. replace (r - 8 + 8) with r in Hsep by lia.
  replace (r' - 8 + 8) with r' in Hsep by lia. rewrite Hr, Hr' in Hsep.
  specialize (Hsep eq_refl eq_refl ltac:(lia)).
  rewrite !nunits_of_eq in Hsep by lia.
  pose proof (Z.div_mod (n + 7) 8 ltac:(lia)). pose proof (Z.mod_pos_bound (n + 7) 8 ltac:(lia)).
  pose proof (Z.div_mod (n' + 7) 8 ltac:(lia)). pose proof (Z.mod_pos_bound (n' + 7) 8 ltac:(lia)).
  lia.
Qed.
