(* ===== verification/Uthread.v ===== *)
(** * uthread.c: the user-level thread package

    The thread table of src/uthread.h and the operations of src/uthread.c over
    any allocator that meets the interface [Allocator] (umalloc.c does).

    A [uthread_t*] is an address into [objs], the memory of the thread
    objects; [free] writes headers only, so the object of a freed thread can
    still be read, as [uthread_exit] does.  [esp] and [ebp] are the registers
    STORE_ESP/LOAD_ESP and STORE_EBP/LOAD_EBP move.  Each operation that
    switches stacks ends with a [control]: return into the chosen thread's own
    frame, or start it through [wrap_function].  DEBUG_PRINT prints nothing at
    the T_A_DEBUG level of the file and is left out.  An index outside the
    table and the dereference of an address that holds no thread are undefined
    behaviour. *)

From S2P Require Import Prelude Interfaces Umalloc.

Definition MAX_UTHREADS : Z := 64.
Definition UTHREAD_STACK_SIZE : Z := 4000.
Definition sizeof_uthread_t : Z := 28.

Record uthread_t := mkUthread {
  tid : Z; ss_sp : Z; ss_esp : Z; ss_ebp : Z; priority : Z; entryfunc : Z; virgin : Z }.

Definition set_ss_sp v t := mkUthread (tid t) v (ss_esp t) (ss_ebp t) (priority t) (entryfunc t) (virgin t).
Definition set_ss_esp v t := mkUthread (tid t) (ss_sp t) v (ss_ebp t) (priority t) (entryfunc t) (virgin t).
Definition set_ss_ebp v t := mkUthread (tid t) (ss_sp t) (ss_esp t) v (priority t) (entryfunc t) (virgin t).
Definition set_priority v t := mkUthread (tid t) (ss_sp t) (ss_esp t) (ss_ebp t) v (entryfunc t) (virgin t).
Definition set_tid v t := mkUthread v (ss_sp t) (ss_esp t) (ss_ebp t) (priority t) (entryfunc t) (virgin t).
Definition set_entryfunc v t := mkUthread (tid t) (ss_sp t) (ss_esp t) (ss_ebp t) (priority t) v (virgin t).
Definition set_virgin v t := mkUthread (tid t) (ss_sp t) (ss_esp t) (ss_ebp t) (priority t) (entryfunc t) v.

Record uthread_table := mkTable {
  cur_threads : Z; highest_p : Z; threads : list Z; running_tid : Z }.

(** The scheduling policy chosen at compile time by SCHED_PB. *)
Inductive policy := ROUND_ROBIN | PRIORITY_BASED.

(** Where a stack switch continues. *)
Inductive control :=
| Resume                   (** return to the caller of the chosen thread *)
| Wrap (entry : Z).        (** CALL(wrap_function) with the entry function pushed *)

Section Uthread.
Context {H : Type} `{Allocator H}.

Record ut := mkUt {
  first_uthread : Z;
  ut_table : uthread_table;
  objs : gmap Z uthread_t;
  uheap : H;
  esp : Z;
  ebp : Z;
  s_self : Z; s_next : Z; s_self_tid : Z }.

Definition set_first v (s : ut) := mkUt v (ut_table s) (objs s) (uheap s) (esp s) (ebp s) (s_self s) (s_next s) (s_self_tid s).
Definition set_table v (s : ut) := mkUt (first_uthread s) v (objs s) (uheap s) (esp s) (ebp s) (s_self s) (s_next s) (s_self_tid s).
Definition set_objs v (s : ut) := mkUt (first_uthread s) (ut_table s) v (uheap s) (esp s) (ebp s) (s_self s) (s_next s) (s_self_tid s).
Definition set_uheap v (s : ut) := mkUt (first_uthread s) (ut_table s) (objs s) v (esp s) (ebp s) (s_self s) (s_next s) (s_self_tid s).
Definition set_esp v (s : ut) := mkUt (first_uthread s) (ut_table s) (objs s) (uheap s) v (ebp s) (s_self s) (s_next s) (s_self_tid s).
Definition set_ebp v (s : ut) := mkUt (first_uthread s) (ut_table s) (objs s) (uheap s) (esp s) v (s_self s) (s_next s) (s_self_tid s).
Definition set_s_self v (s : ut) := mkUt (first_uthread s) (ut_table s) (objs s) (uheap s) (esp s) (ebp s) v (s_next s) (s_self_tid s).
Definition set_s_next v (s : ut) := mkUt (first_uthread s) (ut_table s) (objs s) (uheap s) (esp s) (ebp s) (s_self s) v (s_self_tid s).
Definition set_s_self_tid v (s : ut) := mkUt (first_uthread s) (ut_table s) (objs s) (uheap s) (esp s) (ebp s) (s_self s) (s_next s) v.

Definition set_cur_threads v (s : ut) := let t := ut_table s in set_table (mkTable v (highest_p t) (threads t) (running_tid t)) s.
Definition set_highest_p v (s : ut) := let t := ut_table s in set_table (mkTable (cur_threads t) v (threads t) (running_tid t)) s.
Definition set_threads v (s : ut) := let t := ut_table s in set_table (mkTable (cur_threads t) (highest_p t) v (running_tid t)) s.
Definition set_running_tid v (s : ut) := let t := ut_table s in set_table (mkTable (cur_threads t) (highest_p t) (threads t) v) s.

(** [ut_table.threads[i]] and its assignment. *)
Definition slot (i : Z) : M ut Z := fun s =>
  if (0 <=? i) && (i <? MAX_UTHREADS) then deref "ut_table.threads" (threads (ut_table s) !! Z.to_nat i) s
  else undef "ut_table.threads index" s.
Definition set_slot (i p : Z) : M ut unit := fun s =>
  if (0 <=? i) && (i <? MAX_UTHREADS) then Ok tt (set_threads (<[Z.to_nat i := p]> (threads (ut_table s))) s)
  else undef "ut_table.threads index" s.

(** [*p] and [p->field = v]. *)
Definition obj (p : Z) : M ut uthread_t := fun s => deref "uthread_t" (objs s !! p) s.
Definition upd (p : Z) (f : uthread_t -> uthread_t) : M ut unit :=
  t ← obj p; modify (fun s => set_objs (<[p := f t]> (objs s)) s).

(** malloc and free of the process heap; the memory a successful malloc
    returns can be read and written as a thread object. *)
Definition malloc (n : Z) : M ut Z :=
  p ← zoom uheap set_uheap (amalloc n);
  (if p =? 0 then mret tt
   else modify (fun s => set_objs (<[p := default (mkUthread 0 0 0 0 0 0 0) (objs s !! p)]> (objs s)) s));;
  mret p.
Definition free (p : Z) : M ut unit := zoom uheap set_uheap (afree p).

(** The table scan of [uthread_create]: the first null slot, 64 if none. *)
Fixpoint free_slot (l : list Z) (ut_id : Z) : Z :=
  match l with
  | [] => ut_id
  | p :: l' => if p =? 0 then ut_id else free_slot l' (ut_id + 1)
  end.

Definition uthread_create (start_func prio : Z) : M ut Z :=
  first ← gets first_uthread;
  when (truth first)
    (modify (set_cur_threads 0);; modify (set_highest_p 9);; modify (set_running_tid (-1));;
     modify (set_threads (replicate (Z.to_nat MAX_UTHREADS) 0));; modify (set_first 0));;
  t ← gets ut_table;
  if cur_threads t =? MAX_UTHREADS then mret (-1)
  else
    let ut_id := free_slot (threads t) 0 in
    p ← malloc sizeof_uthread_t;
    set_slot ut_id p;;
    p ← slot ut_id;
    if p =? 0 then mret (-1)
    else
      sp ← malloc UTHREAD_STACK_SIZE;
      upd p (set_ss_sp sp);;
      t ← obj p;
      if ss_sp t =? 0 then free p;; mret (-1)
      else
        upd p (set_ss_esp (ss_sp t + (UTHREAD_STACK_SIZE - 4)));;
        t ← obj p;
        upd p (set_ss_ebp (ss_esp t));;
        modify (fun s => set_cur_threads (cur_threads (ut_table s) + 1) s);;
        modify (fun s => if prio <? highest_p (ut_table s) then set_highest_p prio s else s);;
        upd p (set_priority prio);;
        upd p (set_tid ut_id);;
        upd p (set_entryfunc start_func);;
        upd p (set_virgin 1);;
        mret ut_id.

(** The for(;;) of [next_thread]; it has no exit of its own, so the model
    gives it fuel. *)
Fixpoint next_thread_loop (fuel : nat) (sched : policy) (start : Z) : M ut Z :=
  match fuel with
  | O => halt SFuel
  | S fuel =>
      next ← slot start;
      ok ← (if next =? 0 then mret false
            else match sched with
                 | ROUND_ROBIN => mret true
                 | PRIORITY_BASED =>
                     t ← obj next; hp ← gets (fun s => highest_p (ut_table s));
                     mret (priority t =? hp)
                 end);
      if (ok : bool) then mret next
      else next_thread_loop fuel sched ((start + 1) mod MAX_UTHREADS)
  end.

(** One turn of the table is enough: see [next_loop_diverges]. *)
Definition next_thread (sched : policy) (start : Z) : M ut Z :=
  next_thread_loop (Z.to_nat MAX_UTHREADS) sched start.

Definition uthread_self : M ut uthread_t :=
  r ← gets (fun s => running_tid (ut_table s)); p ← slot r; obj p.

(** The end of yield, exit and start_all: load the stack of [s_next]. *)
Definition switch_to_next : M ut control :=
  n ← gets s_next;
  t ← obj n;
  modify (set_running_tid (tid t));;
  modify (set_esp (ss_esp t));;
  modify (set_ebp (ss_ebp t));;
  if truth (virgin t) then
    upd n (set_virgin 0);;
    modify (fun s => set_esp (esp s - 8) s);;   (* PUSH(entryfunc), and CALL's return address *)
    mret (Wrap (entryfunc t))
  else mret Resume.

Definition uthread_yield (sched : policy) : M ut control :=
  self ← uthread_self;
  p ← slot (tid self);
  modify (set_s_self p);;
  s ← get;
  upd p (set_ss_esp (esp s));;
  upd p (set_ss_ebp (ebp s));;
  t ← obj p;
  n ← next_thread sched ((tid t + 1) mod MAX_UTHREADS);
  modify (set_s_next n);;
  switch_to_next.

Fixpoint get_highest_p_loop (l : list Z) (cur_max : Z) : M ut Z :=
  match l with
  | [] => mret cur_max
  | p :: l' =>
      if p =? 0 then get_highest_p_loop l' cur_max
      else t ← obj p; get_highest_p_loop l' (if priority t <? cur_max then priority t else cur_max)
  end.

Definition get_highest_p : M ut Z :=
  l ← gets (fun s => threads (ut_table s)); get_highest_p_loop l 9.

Definition uthread_exit (sched : policy) : M ut control :=
  self ← uthread_self;
  p ← slot (tid self);
  modify (set_s_self p);;
  t ← obj p;
  modify (set_s_self_tid (tid t));;
  free (ss_sp t);;
  st ← gets s_self_tid;
  q ← slot st;
  free q;;
  t' ← obj p;          (* s_self->tid, read after the free *)
  set_slot (tid t') 0;;
  modify (fun s => set_cur_threads (cur_threads (ut_table s) - 1) s);;
  hp ← get_highest_p;
  modify (set_highest_p hp);;
  n ← gets (fun s => cur_threads (ut_table s));
  if n =? 0 then halt SExit
  else
    st ← gets s_self_tid;
    n ← next_thread sched ((st + 1) mod MAX_UTHREADS);
    modify (set_s_next n);;
    switch_to_next.

(** [inl] is a value returned to the caller, [inr] a switch to a thread. *)
Definition uthread_start_all (sched : policy) : M ut (Z + control) :=
  s ← get;
  if truth (first_uthread s) then mret (inl (-1))
  else if cur_threads (ut_table s) =? 0 then mret (inl (-1))
  else if negb (running_tid (ut_table s) =? -1) then mret (inl (-1))
  else
    n ← next_thread sched 0;
    modify (set_s_next n);;
    t ← obj n;
    modify (set_running_tid (tid t));;
    modify (set_esp (ss_esp t));;
    modify (set_ebp (ss_ebp t));;
    upd n (set_virgin 0);;
    modify (fun s => set_esp (esp s - 8) s);;
    mret (inr (Wrap (entryfunc t))).

Definition uthread_setpr (prio : Z) : M ut Z :=
  r ← gets (fun s => running_tid (ut_table s));
  self ← slot r;
  t ← obj self;
  upd self (set_priority prio);;
  mret (priority t).

Definition uthread_getpr : M ut Z :=
  r ← gets (fun s => running_tid (ut_table s)); p ← slot r; t ← obj p; mret (priority t).

(** The entry function of a thread, then its exit. *)
Definition wrap_function (sched : policy) (entry : M ut unit) : M ut control :=
  entry;; uthread_exit sched.

(** ** Running the primitive accesses *)

Lemma slot_ok i p s :
  0 <= i < MAX_UTHREADS -> threads (ut_table s) !! Z.to_nat i = Some p -> slot i s = Ok p s.
Proof.
  intros [H1 H2] Hp. unfold slot, deref.
  by rewrite (proj2 (Z.leb_le _ _) H1), (proj2 (Z.ltb_lt _ _) H2), Hp.
Qed.

Lemma set_slot_ok i p s :
  0 <= i < MAX_UTHREADS ->
  set_slot i p s = Ok tt (set_threads (<[Z.to_nat i := p]> (threads (ut_table s))) s).
Proof.
  intros [H1 H2]. unfold set_slot. by rewrite (proj2 (Z.leb_le _ _) H1), (proj2 (Z.ltb_lt _ _) H2).
Qed.

Lemma obj_ok p t s : objs s !! p = Some t -> obj p s = Ok t s.
Proof. intros Hp. unfold obj, deref. by rewrite Hp. Qed.

Lemma upd_ok p f t s :
  objs s !! p = Some t -> upd p f s = Ok tt (set_objs (<[p := f t]> (objs s)) s).
Proof. intros Hp. unfold upd. by rewrite (bind_ok _ _ _ _ _ (obj_ok _ _ _ Hp)). Qed.
End Uthread.
Arguments ut : clear implicits.
#[export] Hint Resolve slot_ok set_slot_ok obj_ok upd_ok : mrun.

(** Reduce the projections of an updated state. *)
Ltac ut_simpl :=
  cbn [first_uthread ut_table objs uheap esp ebp s_self s_next s_self_tid
       cur_threads highest_p threads running_tid tid ss_sp ss_esp ss_ebp priority entryfunc virgin
       set_first set_table set_objs set_uheap set_esp set_ebp set_s_self set_s_next set_s_self_tid
       set_cur_threads set_highest_p set_threads set_running_tid
       set_ss_sp set_ss_esp set_ss_ebp set_priority set_tid set_entryfunc set_virgin] in *.
#[export] Hint Extern 1 (objs _ !! _ = Some _) =>
  ut_simpl; first [eassumption | rewrite lookup_insert_eq; reflexivity] : mrun.

(** ** The invariant *)

Definition live (l : list Z) : list Z := filter (fun p => p <> 0) l.

Section Invariant.
Context {H : Type} `{Allocator H}.
Implicit Types (s : ut H) (al : gmap Z Z).

(** Thread [t] is the object at [p] in slot [i], with a live stack. *)
Definition thread_at s al (i : nat) (p : Z) (t : uthread_t) : Prop :=
  objs s !! p = Some t /\ tid t = Z.of_nat i /\
  al !! p = Some sizeof_uthread_t /\ al !! ss_sp t = Some UTHREAD_STACK_SIZE.

(** The table invariant: every non-null slot holds a live thread object whose
    tid is the slot, with a stack of its own; [cur_threads] counts them; the
    running thread, if any, is one of them and has been started. *)
Record ut_ok s al : Prop := {
  uo_first : first_uthread s = 0;
  uo_len : length (threads (ut_table s)) = Z.to_nat MAX_UTHREADS;
  uo_heap : ainv (uheap s) al;
  uo_thread : forall i p, threads (ut_table s) !! i = Some p -> p <> 0 -> exists t, thread_at s al i p t;
  uo_stacks : forall i j p q t u, i <> j ->
    threads (ut_table s) !! i = Some p -> threads (ut_table s) !! j = Some q ->
    p <> 0 -> q <> 0 -> objs s !! p = Some t -> objs s !! q = Some u -> ss_sp t <> ss_sp u;
  uo_count : cur_threads (ut_table s) = Z.of_nat (length (live (threads (ut_table s))));
  uo_run : running_tid (ut_table s) = -1 \/
    (0 <= running_tid (ut_table s) /\
     exists p t, threads (ut_table s) !! Z.to_nat (running_tid (ut_table s)) = Some p /\ p <> 0 /\
       objs s !! p = Some t /\ virgin t = 0);
}.

Lemma free_slot_spec l k :
  (exists i, free_slot l k = k + Z.of_nat i /\ l !! i = Some 0 /\ forall j p, (j < i)%nat -> l !! j = Some p -> p <> 0) \/
  (free_slot l k = k + Z.of_nat (length l) /\ Forall (fun p => p <> 0) l).
Proof.
  revert k. induction l as [|p l IH]; intros k; simpl.
  - right. split; [lia|done].
  - destruct (Z.eqb_spec p 0) as [->|Hp].
    + left. exists 0%nat. split_and!; [lia|done|]. intros j q Hj. lia.
    + destruct (IH (k + 1)) as [(i & E & Hi & Hlt)|[E Hall]].
      * left. exists (S i). split_and!; [lia|done|]. intros [|j] q Hj Hq; simplify_eq/=; [done|].
        apply (Hlt j); [lia|done].
      * right. split; [lia|by constructor].
Qed.

Lemma live_all l : Forall (fun p => p <> 0) l -> length (live l) = length l.
Proof.
  induction 1 as [|p l Hp Hl IH]; [done|]. unfold live in *. rewrite filter_cons, decide_True by done.
  simpl. by rewrite IH.
Qed.

Lemma live_insert l (i : nat) x y :
  l !! i = Some x ->
  Z.of_nat (length (live (<[i := y]> l))) =
  Z.of_nat (length (live l)) - (if x =? 0 then 0 else 1) + (if y =? 0 then 0 else 1).
Proof.
  intros Hx. pose proof (lookup_lt_Some _ _ _ Hx) as Hlt.
  rewrite insert_take_drop by done. rewrite <- (take_drop_middle l i x Hx) at 3.
  unfold live. rewrite !filter_app, !length_app, !filter_cons.
  destruct (Z.eqb_spec x 0), (Z.eqb_spec y 0); repeat case_decide; try done; simpl; lia.
Qed.

Lemma create_first_fit s al :
  ut_ok s al -> cur_threads (ut_table s) <> MAX_UTHREADS ->
  exists i, free_slot (threads (ut_table s)) 0 = Z.of_nat i /\ threads (ut_table s) !! i = Some 0 /\
    (i < 64)%nat /\ forall j p, (j < i)%nat -> threads (ut_table s) !! j = Some p -> p <> 0.
Proof.
  intros Hok Hc. destruct (free_slot_spec (threads (ut_table s)) 0) as [(i & E & Hi & Hlt)|[_ Hall]].
  - exists i. split_and!; [lia|done| |done].
    apply lookup_lt_Some in Hi. rewrite (uo_len _ _ Hok) in Hi. unfold MAX_UTHREADS in Hi. lia.
  - exfalso. apply Hc. by rewrite (uo_count _ _ Hok), (live_all _ Hall), (uo_len _ _ Hok).
Qed.

(** A malloc of the process: null, or a block that was not live. *)
Lemma ut_malloc_ok s al n :
  ainv (uheap s) al -> 0 < n < 2 ^ 30 ->
  exists p h', (p = 0 /\ ainv h' al /\ malloc n s = Ok 0 (set_uheap h' s)) \/
    (p <> 0 /\ al !! p = None /\ ainv h' (<[p := n]> al) /\
     malloc n s = Ok p (set_objs (<[p := default (mkUthread 0 0 0 0 0 0 0) (objs s !! p)]> (objs s)) (set_uheap h' s))).
Proof.
  intros Hi Hn. destruct (amalloc_spec _ _ _ Hi Hn) as (r & h' & Hm & Hc).
  exists r, h'. unfold malloc, zoom. msimpl. rewrite Hm.
  destruct Hc as [[-> Hi']|(Hr & Hn' & Hi')]; [by left|right].
  rewrite (proj2 (Z.eqb_neq _ _)) by lia. split_and!; [lia|done..].
Qed.

(** The table after a successful creation in slot [i]. *)
Definition created s (i : nat) (p sp f prio : Z) (h' : H) (s' : ut H) : Prop :=
  first_uthread s' = 0 /\ uheap s' = h' /\ esp s' = esp s /\ ebp s' = ebp s /\
  ut_table s' = mkTable (cur_threads (ut_table s) + 1) (Z.min (highest_p (ut_table s)) prio)
                  (<[i := p]> (threads (ut_table s))) (running_tid (ut_table s)) /\
  objs s' !! p = Some (mkUthread (Z.of_nat i) sp (sp + 3996) (sp + 3996) prio f 1) /\
  forall q, q <> p -> q <> sp -> objs s' !! q = objs s !! q.

(** The part of [uthread_create] after the stack has been allocated. *)
Lemma create_tail s (i : nat) p sp f prio t :
  objs s !! p = Some t -> sp <> 0 ->
  exists s',
    (upd p (set_ss_sp sp);;
     t ← obj p;
     if ss_sp t =? 0 then free p;; mret (-1)
     else
        upd p (set_ss_esp (ss_sp t + (UTHREAD_STACK_SIZE - 4)));;
        t ← obj p;
        upd p (set_ss_ebp (ss_esp t));;
        modify (fun s => set_cur_threads (cur_threads (ut_table s) + 1) s);;
        modify (fun s => if prio <? highest_p (ut_table s) then set_highest_p prio s else s);;
        upd p (set_priority prio);;
        upd p (set_tid (Z.of_nat i));;
        upd p (set_entryfunc f);;
        upd p (set_virgin 1);;
        mret (Z.of_nat i)) s = Ok (Z.of_nat i) s' /\
    first_uthread s' = first_uthread s /\ uheap s' = uheap s /\ esp s' = esp s /\ ebp s' = ebp s /\
    ut_table s' = mkTable (cur_threads (ut_table s) + 1) (Z.min (highest_p (ut_table s)) prio)
                    (threads (ut_table s)) (running_tid (ut_table s)) /\
    objs s' !! p = Some (mkUthread (Z.of_nat i) sp (sp + 3996) (sp + 3996) prio f 1) /\
    forall q, q <> p -> objs s' !! q = objs s !! q.
Proof.
  intros Hp Hsp. mrun1. mrun1. rewrite (proj2 (Z.eqb_neq _ _)) by done.
  mrun1. mrun1. mrun1. mrun1. mrun1. ut_simpl.
  destruct (Z.ltb_spec prio (highest_p (ut_table s))).
  - mrun. eexists. split; [reflexivity|]. ut_simpl. split_and!; [done..| | |].
    + by rewrite Z.min_r by lia.
    + rewrite lookup_insert_eq. unfold UTHREAD_STACK_SIZE. do 2 f_equal; lia.
    + intros q Hq. by rewrite !lookup_insert_ne by done.
  - mrun. eexists. split; [reflexivity|]. ut_simpl. split_and!; [done..| | |].
    + rewrite Z.min_l by lia. by destruct s as [? []].
    + rewrite lookup_insert_eq. unfold UTHREAD_STACK_SIZE. do 2 f_equal; lia.
    + intros q Hq. by rewrite !lookup_insert_ne by done.
Qed.

(** The state in which [uthread_create] looks for a slot: the table is
    initialised by the first call. *)
Definition ready s : ut H :=
  if truth (first_uthread s) then
    set_first 0 (set_table (mkTable 0 9 (replicate (Z.to_nat MAX_UTHREADS) 0) (-1)) s)
  else s.

(** Before the first call the table is unspecified and only the heap counts. *)
Definition ut_pre s al : Prop := (first_uthread s = 1 /\ ainv (uheap s) al) \/ ut_ok s al.

Lemma ready_ok s al : ut_pre s al -> ut_ok (ready s) al.
Proof.
  intros [[Hf Hi]|Hok]; unfold ready.
  - rewrite Hf. cbn [truth]. split; ut_simpl; auto.
    + intros i p [-> _]%lookup_replicate. done.
    + intros i j p q t u _ [-> _]%lookup_replicate. done.
  - by rewrite (uo_first _ _ Hok).
Qed.

Lemma create_ready s al f prio : ut_pre s al -> uthread_create f prio s = uthread_create f prio (ready s).
Proof.
  intros [[Hf Hi]|Hok]; unfold ready.
  - rewrite Hf. unfold uthread_create. msimpl. rewrite Hf. done.
  - by rewrite (uo_first _ _ Hok).
Qed.

(** The object and stack of a fresh thread keep the invariant. *)
Lemma created_ok s al i p sp f prio h' s' :
  ut_ok s al -> threads (ut_table s) !! i = Some 0 ->
  p <> 0 -> al !! p = None -> al !! sp = None -> sp <> p ->
  ainv h' (<[sp := UTHREAD_STACK_SIZE]> (<[p := sizeof_uthread_t]> al)) ->
  created s i p sp f prio h' s' ->
  ut_ok s' (<[sp := UTHREAD_STACK_SIZE]> (<[p := sizeof_uthread_t]> al)).
Proof.
  intros Hok Hi Hp Hpn Hspn Hne Hh (E1 & E2 & _ & _ & E5 & E6 & E7).
  destruct Hok as [Hf Hlen _ Hth Hst Hcnt Hrun]. pose proof (lookup_lt_Some _ _ _ Hi) as Hlt.
  assert (Hold : forall j q, j <> i -> threads (ut_table s) !! j = Some q -> q <> 0 ->
            exists t, thread_at s al j q t /\ q <> p /\ q <> sp /\ ss_sp t <> sp /\ ss_sp t <> p).
  { intros j q _ Hj Hq. destruct (Hth _ _ Hj Hq) as (t & Ht & Ht2 & Ht3 & Ht4).
    exists t. split; [done|]. split_and!; congruence. }
  split; rewrite ?E1, ?E2, ?E5; ut_simpl; auto.
  - by rewrite length_insert.
  - intros j q Hj Hq. destruct (decide (i = j)) as [<-|Hij].
    + rewrite list_lookup_insert_eq in Hj by done. injection Hj as <-.
      eexists. split; [exact E6|]. ut_simpl. split_and!; [done| |by rewrite lookup_insert_eq].
      by rewrite lookup_insert_ne, lookup_insert_eq by done.
    + rewrite list_lookup_insert_ne in Hj by done.
      destruct (Hold j q ltac:(done) Hj Hq) as (t & (Ht & Ht2 & Ht3 & Ht4) & ? & ? & ? & ?).
      exists t. unfold thread_at. rewrite E7, !lookup_insert_ne by done. done.
  - intros j k q r t u Hjk Hj Hk Hq Hr Ht Hu.
    destruct (decide (i = j)) as [<-|Hij]; destruct (decide (i = k)) as [<-|Hik]; [done|..].
    + rewrite list_lookup_insert_eq in Hj by done. rewrite list_lookup_insert_ne in Hk by done.
      injection Hj as <-. destruct (Hold k r ltac:(done) Hk Hr) as (u' & (Hu1 & _) & ? & ? & ? & ?).
      rewrite E6 in Ht. rewrite E7 in Hu by done. simplify_eq. ut_simpl. congruence.
    + rewrite list_lookup_insert_eq in Hk by done. rewrite list_lookup_insert_ne in Hj by done.
      injection Hk as <-. destruct (Hold j q ltac:(done) Hj Hq) as (t' & (Ht1 & _) & ? & ? & ? & ?).
      rewrite E6 in Hu. rewrite E7 in Ht by done. simplify_eq. ut_simpl. congruence.
    + rewrite list_lookup_insert_ne in Hj, Hk by done.
      destruct (Hold j q ltac:(done) Hj Hq) as (? & _ & ? & ? & _).
      destruct (Hold k r ltac:(done) Hk Hr) as (? & _ & ? & ? & _).
      rewrite E7 in Ht, Hu by done. eauto.
  - rewrite (live_insert _ _ _ _ Hi). rewrite (proj2 (Z.eqb_neq p 0)) by done. simpl. lia.
  - destruct Hrun as [?|(? & q & u & Hq & Hq0 & Hu & Hv)]; [by left|right]. split; [done|]. exists q, u.
    assert (Hir : i <> Z.to_nat (running_tid (ut_table s))) by congruence.
    destruct (Hold _ _ ltac:(done) Hq Hq0) as (t & _ & ? & ? & _).
    rewrite list_lookup_insert_ne, E7 by done. done.
Qed.

(** The four ways [uthread_create] can end. *)
Inductive create_result s al (f prio : Z) : Z -> ut H -> Prop :=
| create_full :
    cur_threads (ut_table s) = MAX_UTHREADS -> create_result s al f prio (-1) s
| create_no_object s' :
    ut_table s' = ut_table s -> objs s' = objs s -> ut_ok s' al -> create_result s al f prio (-1) s'
| create_no_stack s' (i : nat) p :
    threads (ut_table s) !! i = Some 0 -> p <> 0 -> al !! p = None ->
    ut_table s' = mkTable (cur_threads (ut_table s)) (highest_p (ut_table s))
                    (<[i := p]> (threads (ut_table s))) (running_tid (ut_table s)) ->
    ainv (uheap s') al ->
    create_result s al f prio (-1) s'
| create_done s' (i : nat) p sp :
    threads (ut_table s) !! i = Some 0 ->
    (forall j q, (j < i)%nat -> threads (ut_table s) !! j = Some q -> q <> 0) ->
    created s i p sp f prio (uheap s') s' ->
    ut_ok s' (<[sp := UTHREAD_STACK_SIZE]> (<[p := sizeof_uthread_t]> al)) ->
    create_result s al f prio (Z.of_nat i) s'.

Lemma set_threads_id s i p :
  threads (ut_table s) !! i = Some p -> set_threads (<[i := p]> (threads (ut_table s))) s = s.
Proof. intros Hi. unfold set_threads. rewrite list_insert_id by done. by destruct s as [? [] ?]. Qed.

Lemma ut_ok_heap s al h' : ut_ok s al -> ainv h' al -> ut_ok (set_uheap h' s) al.
Proof. intros [] ?. by split. Qed.

Lemma create_step s al f prio :
  ut_ok s al -> exists r s', uthread_create f prio s = Ok r s' /\ create_result s al f prio r s'.
Proof.
  intros Hok. unfold uthread_create. mrun1. rewrite (uo_first _ _ Hok).
  change (truth 0) with false. cbn [when]. mrun1. mrun1.
  destruct (Z.eqb_spec (cur_threads (ut_table s)) MAX_UTHREADS) as [Hfull|Hc].
  { eexists _, _. split; [reflexivity|]. by constructor. }
  destruct (create_first_fit s al Hok Hc) as (i & -> & Hi & Hlt & Hfirst). cbn zeta.
  assert (Hi64 : 0 <= Z.of_nat i < MAX_UTHREADS) by (unfold MAX_UTHREADS; lia).
  destruct (ut_malloc_ok s al sizeof_uthread_t (uo_heap _ _ Hok) ltac:(done))
    as (p & h1 & [(-> & Hh1 & Hm)|(Hp & Hpn & Hh1 & Hm)]); mstep Hm.
  { mstep (set_slot_ok (Z.of_nat i) 0 (set_uheap h1 s) Hi64). rewrite Nat2Z.id. ut_simpl.
    erewrite bind_ok; [|apply slot_ok; [done|]; ut_simpl; rewrite Nat2Z.id, list_lookup_insert_eq; [done|]].
    2:{ by apply lookup_lt_Some in Hi. }
    rewrite Z.eqb_refl. eexists _, _. split; [reflexivity|].
    change (set_threads _ _) with (set_uheap h1 (set_threads (<[i:=0]> (threads (ut_table s))) s)).
    rewrite (set_threads_id s i 0 Hi). apply create_no_object; [done..|]. by apply ut_ok_heap. }
  set (s1 := set_objs _ _). mstep (set_slot_ok (Z.of_nat i) p s1 Hi64). rewrite Nat2Z.id.
  set (s2 := set_threads _ s1).
  assert (Hs2 : threads (ut_table s2) = <[i := p]> (threads (ut_table s))) by done.
  erewrite bind_ok; [|apply slot_ok; [done|]; rewrite Hs2, Nat2Z.id, list_lookup_insert_eq; [done|]].
  2:{ by apply lookup_lt_Some in Hi. }
  rewrite (proj2 (Z.eqb_neq _ _)) by done.
  assert (Hp2 : objs s2 !! p = Some (default (mkUthread 0 0 0 0 0 0 0) (objs s !! p))).
  { unfold s2, s1. ut_simpl. by rewrite lookup_insert_eq. }
  destruct (ut_malloc_ok s2 _ UTHREAD_STACK_SIZE Hh1 ltac:(done))
    as (sp & h2 & [(-> & Hh2 & Hm2)|(Hsp & Hspn & Hh2 & Hm2)]); mstep Hm2.
  - mrun1. mrun1. ut_simpl. rewrite Z.eqb_refl.
    destruct (afree_spec h2 _ p _ Hh2 (lookup_insert_eq _ _ _)) as (h3 & Hf & Hh3).
    rewrite delete_insert_id in Hh3 by done.
    erewrite bind_ok by (unfold free, zoom; ut_simpl; rewrite Hf; reflexivity).
    eexists _, _. split; [reflexivity|]. by eapply (create_no_stack _ _ _ _ _ i p).
  - set (s3 := set_objs _ (set_uheap h2 s2)).
    assert (Hne : sp <> p) by (intros ->; by rewrite lookup_insert_eq in Hspn).
    assert (Hp3 : objs s3 !! p = objs s2 !! p) by (unfold s3; ut_simpl; by rewrite lookup_insert_ne).
    rewrite Hp2 in Hp3.
    destruct (create_tail s3 i p sp f prio _ Hp3 Hsp) as (s' & Hrun & E1 & E2 & E3 & E4 & E5 & E6 & E7).
    eexists _, s'. split; [exact Hrun|].
    assert (Hcr : created s i p sp f prio h2 s').
    { split_and!; try done; [by rewrite E1, <- (uo_first _ _ Hok)|].
      intros q Hq Hq'. rewrite E7 by done. unfold s3, s2, s1. ut_simpl. by rewrite !lookup_insert_ne by done. }
    rewrite lookup_insert_ne in Hspn by done.
    apply (create_done _ _ _ _ _ i p sp); [done..|by rewrite E2|].
    by eapply created_ok.
Qed.
End Invariant.

(** ** Scheduling *)

Section Schedule.
Context {H : Type} `{Allocator H}.
Implicit Types (s : ut H) (al : gmap Z Z).

(** The test of [next_thread] on a slot's content. *)
Definition picks s (sched : policy) (p : Z) : bool :=
  negb (p =? 0) &&
  match sched with
  | ROUND_ROBIN => true
  | PRIORITY_BASED =>
      match objs s !! p with Some t => priority t =? highest_p (ut_table s) | None => false end
  end.

Lemma next_loop_step s al fuel sched start p :
  ut_ok s al -> 0 <= start < MAX_UTHREADS -> threads (ut_table s) !! Z.to_nat start = Some p ->
  next_thread_loop (S fuel) sched start s =
  if picks s sched p then Ok p s else next_thread_loop fuel sched ((start + 1) mod MAX_UTHREADS) s.
Proof.
  intros Hok Hst Hp. cbn [next_thread_loop]. mstep (slot_ok _ _ _ Hst Hp). unfold picks.
  destruct (Z.eqb_spec p 0) as [->|Hp0]; [by mrun1|]. destruct sched; [by mrun1|].
  destruct (uo_thread _ _ Hok _ _ Hp Hp0) as (t & Ht & _). rewrite Ht.
  mrun. simpl. by destruct (priority t =? _).
Qed.

(** The loop returns the first slot that passes the test, in cyclic order. *)
Lemma next_loop_first s al sched start (k : nat) p fuel :
  ut_ok s al -> 0 <= start < MAX_UTHREADS -> (k < fuel)%nat ->
  threads (ut_table s) !! Z.to_nat ((start + Z.of_nat k) mod MAX_UTHREADS) = Some p -> picks s sched p = true ->
  (forall (j : nat) q, (j < k)%nat ->
     threads (ut_table s) !! Z.to_nat ((start + Z.of_nat j) mod MAX_UTHREADS) = Some q -> picks s sched q = false) ->
  next_thread_loop fuel sched start s = Ok p s.
Proof.
  intros Hok. revert start fuel. induction k as [|k IH]; intros start [|fuel] Hst Hf Hp Hpk Hno; try lia.
  - rewrite Z.add_0_r, Z.mod_small in Hp by done.
    rewrite (next_loop_step _ _ _ _ _ _ Hok Hst Hp). by rewrite Hpk.
  - destruct (lookup_lt_is_Some_2 (threads (ut_table s)) (Z.to_nat start)) as [q Hq].
    { rewrite (uo_len _ _ Hok). lia. }
    rewrite (next_loop_step _ _ _ _ _ _ Hok Hst Hq).
    rewrite (Hno 0%nat q) by (lia || rewrite Z.add_0_r, Z.mod_small by done; done).
    assert (Hshift : forall j, ((start + 1) mod MAX_UTHREADS + j) mod MAX_UTHREADS = (start + (1 + j)) mod MAX_UTHREADS).
    { intros j. rewrite Zplus_mod_idemp_l. f_equal. lia. }
    apply IH; [apply Z.mod_pos_bound; done|lia| |done|].
    + rewrite Hshift. by replace (1 + Z.of_nat k) with (Z.of_nat (S k)) by lia.
    + intros j r Hj. rewrite Hshift. replace (1 + Z.of_nat j) with (Z.of_nat (S j)) by lia.
      apply Hno. lia.
Qed.

(** With no slot passing the test the loop runs for ever. *)
Lemma next_loop_diverges s al sched start fuel :
  ut_ok s al -> 0 <= start < MAX_UTHREADS ->
  Forall (fun p => picks s sched p = false) (threads (ut_table s)) ->
  next_thread_loop fuel sched start s = Stop SFuel s.
Proof.
  intros Hok Hst Hno. revert start Hst. induction fuel as [|fuel IH]; intros start Hst; [done|].
  destruct (lookup_lt_is_Some_2 (threads (ut_table s)) (Z.to_nat start)) as [q Hq].
  { rewrite (uo_len _ _ Hok). lia. }
  rewrite (next_loop_step _ _ _ _ _ _ Hok Hst Hq).
  rewrite (Forall_lookup_1 _ _ _ _ Hno Hq). apply IH, Z.mod_pos_bound. done.
Qed.

(** The tids of the live threads, in increasing order. *)
Definition live_tids s : list nat :=
  filter (fun i => threads (ut_table s) !! i <> Some 0) (seq 0 (Z.to_nat MAX_UTHREADS)).

(** [m] is strictly between [i] and [j] going upwards around the table. *)
Definition between (i m j : nat) : Prop :=
  if decide (i < j)%nat then (i < m < j)%nat else (i < m \/ m < j)%nat.

Lemma next_thread_rr s al (i j : nat) p :
  ut_ok s al -> (i < 64)%nat -> threads (ut_table s) !! j = Some p -> p <> 0 ->
  (forall m q, threads (ut_table s) !! m = Some q -> between i m j -> q = 0) ->
  next_thread ROUND_ROBIN ((Z.of_nat i + 1) mod MAX_UTHREADS) s = Ok p s.
Proof.
  intros Hok Hi Hj Hp Hbt. pose proof (lookup_lt_Some _ _ _ Hj) as Hj64. rewrite (uo_len _ _ Hok) in Hj64.
  set (k := Z.to_nat ((Z.of_nat j - Z.of_nat i - 1) mod MAX_UTHREADS)).
  assert (Hk : 0 <= (Z.of_nat j - Z.of_nat i - 1) mod MAX_UTHREADS < MAX_UTHREADS) by (apply Z.mod_pos_bound; done).
  unfold MAX_UTHREADS in *. simpl in Hj64.
  apply (next_loop_first s al ROUND_ROBIN _ k p); unfold MAX_UTHREADS; [done|apply Z.mod_pos_bound; lia|lia| | |].
  - replace (Z.to_nat _) with j; [done|]. rewrite Zplus_mod_idemp_l. unfold k. rewrite Z2Nat.id by lia.
    rewrite Zplus_mod_idemp_r. replace (Z.of_nat i + 1 + (Z.of_nat j - Z.of_nat i - 1)) with (Z.of_nat j) by lia.
    rewrite Z.mod_small by lia. lia.
  - unfold picks. by rewrite (proj2 (Z.eqb_neq _ _)).
  - intros m q Hm Hq. unfold picks. rewrite (Hbt _ _ Hq); [done|].
    unfold between, k in *. rewrite Zplus_mod_idemp_l in *.
    case_decide; Z.to_euclidean_division_equations; lia.
Qed.

Lemma live_tids_spec s al i :
  ut_ok s al -> i ∈ live_tids s <-> exists p, threads (ut_table s) !! i = Some p /\ p <> 0.
Proof.
  intros Hok. unfold live_tids. rewrite list_elem_of_filter, elem_of_seq. split.
  - intros [Hne Hlt]. destruct (lookup_lt_is_Some_2 (threads (ut_table s)) i) as [p Hp].
    { rewrite (uo_len _ _ Hok). lia. }
    exists p. split; [done|]. congruence.
  - intros (p & Hp & Hne). split; [congruence|]. apply lookup_lt_Some in Hp.
    rewrite (uo_len _ _ Hok) in Hp. lia.
Qed.

Lemma live_tids_sorted s : StronglySorted lt (live_tids s).
Proof. apply StronglySorted_filter, StronglySorted_seq. Qed.

(** Between two cyclically consecutive live tids every slot is null. *)
Lemma live_tids_gap s al (k i j : nat) :
  ut_ok s al -> live_tids s !! k = Some i ->
  live_tids s !! ((k + 1) mod length (live_tids s))%nat = Some j ->
  forall m q, threads (ut_table s) !! m = Some q -> between i m j -> q = 0.
Proof.
  intros Hok Hi Hj m q Hm Hb. destruct (decide (q = 0)) as [|Hq]; [done|exfalso].
  assert (Hml : m ∈ live_tids s) by (apply (live_tids_spec _ _ _ Hok); eauto).
  apply list_elem_of_lookup in Hml as [l Hl].
  pose proof (lookup_lt_Some _ _ _ Hi) as Hk. pose proof (lookup_lt_Some _ _ _ Hl) as Hll.
  set (n := length (live_tids s)) in *.
  assert (Hmono : forall a b x y, live_tids s !! a = Some x -> live_tids s !! b = Some y -> (x < y <-> a < b)%nat).
  { intros a b x y Ha Hb'. pose proof (live_tids_sorted s) as Hs. split; intros Hlt.
    - destruct (decide (a < b)%nat); [done|]. destruct (decide (a = b)) as [->|]; [simplify_eq; lia|].
      pose proof (StronglySorted_lookup _ _ b a _ _ Hs ltac:(lia) Hb' Ha). lia.
    - apply (StronglySorted_lookup _ _ a b _ _ Hs); done. }
  pose proof (Hmono _ _ _ _ Hi Hl) as H1. pose proof (Hmono _ _ _ _ Hl Hj) as H2. pose proof (Hmono _ _ _ _ Hi Hj) as H3.
  assert (Hw : (k + 1 < n /\ (k + 1) mod n = k + 1 \/ k + 1 = n /\ (k + 1) mod n = 0)%nat).
  { destruct (decide (k + 1 < n)%nat); [left; split; [done|]; by apply Nat.mod_small|right].
    assert (E : (k + 1 = n)%nat) by lia. split; [done|]. rewrite E. apply Nat.Div0.mod_same. }
  unfold between in Hb. case_decide; lia.
Qed.

(** The running thread's own object. *)
Lemma running_thread s al :
  ut_ok s al -> running_tid (ut_table s) <> -1 ->
  exists p t, threads (ut_table s) !! Z.to_nat (running_tid (ut_table s)) = Some p /\ p <> 0 /\
    thread_at s al (Z.to_nat (running_tid (ut_table s))) p t /\ tid t = running_tid (ut_table s) /\
    0 <= running_tid (ut_table s) < MAX_UTHREADS /\ uthread_self s = Ok t s /\ virgin t = 0.
Proof.
  intros Hok Hr. destruct (uo_run _ _ Hok) as [?|(Hge & p & t0 & Hp & Hp0 & Ht0 & Hv)]; [done|].
  destruct (uo_thread _ _ Hok _ _ Hp Hp0) as (t & Ht). pose proof Ht as (Ht1 & Ht2 & _).
  pose proof (lookup_lt_Some _ _ _ Hp) as Hlt. rewrite (uo_len _ _ Hok) in Hlt.
  assert (Hb : 0 <= running_tid (ut_table s) < MAX_UTHREADS) by (unfold MAX_UTHREADS in *; lia).
  exists p, t. split_and!; [done..|lia|lia|lia| |congruence]. unfold uthread_self. mrun1.
  mstep (slot_ok _ _ _ Hb Hp). by apply obj_ok.
Qed.
End Schedule.

(** ** Yielding *)

Section Yield.
Context {H : Type} `{Allocator H}.
Implicit Types (s : ut H) (al : gmap Z Z).

(** [ut_ok] depends on the table, the heap and the objects only. *)
Lemma ut_ok_regs s al s' :
  ut_ok s al -> first_uthread s' = first_uthread s -> ut_table s' = ut_table s ->
  objs s' = objs s -> uheap s' = uheap s -> ut_ok s' al.
Proof.
  intros [] E1 E2 E3 E4. split; unfold thread_at in *; rewrite ?E1, ?E2, ?E3, ?E4; auto.
Qed.

Lemma ut_ok_upd s al p t t' :
  ut_ok s al -> objs s !! p = Some t -> tid t' = tid t -> ss_sp t' = ss_sp t ->
  (virgin t = 0 -> virgin t' = 0) ->
  ut_ok (set_objs (<[p := t']> (objs s)) s) al.
Proof.
  intros [Hf Hl Hh Hth Hst Hc Hr] Hp E1 E2 E3.
  assert (Hlk : forall q u', (<[p := t']> (objs s)) !! q = Some u' ->
            exists u, objs s !! q = Some u /\ tid u' = tid u /\ ss_sp u' = ss_sp u).
  { intros q u' [[<- <-]|[? ?]]%lookup_insert_Some; eauto. }
  split; ut_simpl; auto.
  - intros i q Hi Hq. destruct (Hth _ _ Hi Hq) as (u & Hu1 & Hu2 & Hu3 & Hu4).
    destruct (decide (p = q)) as [<-|Hne].
    + exists t'. split_and!; ut_simpl; [by rewrite lookup_insert_eq|congruence..].
    + exists u. split_and!; ut_simpl; [by rewrite lookup_insert_ne|done..].
  - intros i j q r u' v' Hij Hi Hj Hq Hr' Hu Hv.
    destruct (Hlk _ _ Hu) as (u & Hu0 & _ & ->), (Hlk _ _ Hv) as (v & Hv0 & _ & ->). eauto.
  - destruct Hr as [?|(? & q & u & Hq & Hq0 & Hu & Hv)]; [by left|right]. split; [done|].
    destruct (decide (p = q)) as [<-|Hne].
    + exists p, t'. rewrite lookup_insert_eq. split_and!; [done..|]. apply E3. congruence.
    + exists q, u. by rewrite lookup_insert_ne.
Qed.

Lemma ut_ok_run s al (j : nat) p t :
  ut_ok s al -> threads (ut_table s) !! j = Some p -> p <> 0 -> objs s !! p = Some t -> virgin t = 0 ->
  ut_ok (set_running_tid (Z.of_nat j) s) al.
Proof.
  intros Hok Hp Hp0 Ht Hv.
  destruct Hok. split; ut_simpl; auto. right. split; [lia|]. exists p, t. by rewrite Nat2Z.id.
Qed.

Definition saved s (t : uthread_t) : uthread_t := set_ss_ebp (ebp s) (set_ss_esp (esp s) t).
Definition entered (u : uthread_t) : uthread_t := if truth (virgin u) then set_virgin 0 u else u.

(** The switch to thread [u] (object [q], slot [j]). *)
Definition switched s (j : nat) (q : Z) (u : uthread_t) (c : control) s' : Prop :=
  first_uthread s' = first_uthread s /\ uheap s' = uheap s /\
  ut_table s' = mkTable (cur_threads (ut_table s)) (highest_p (ut_table s)) (threads (ut_table s)) (Z.of_nat j) /\
  objs s' !! q = Some (entered u) /\ (forall r, r <> q -> objs s' !! r = objs s !! r) /\
  ebp s' = ss_ebp u /\
  if truth (virgin u) then c = Wrap (entryfunc u) /\ esp s' = ss_esp u - 8
  else c = Resume /\ esp s' = ss_esp u.

Lemma switch_ok s al j q u :
  ut_ok s al -> threads (ut_table s) !! j = Some q -> q <> 0 -> thread_at s al j q u ->
  exists c s', (modify (set_s_next q);; switch_to_next) s = Ok c s' /\ switched s j q u c s' /\ ut_ok s' al.
Proof.
  intros Hok Hj Hq (Hu1 & Hu2 & _). unfold switch_to_next. mrun1. mrun1.
  mrun1. mrun1. mrun1. mrun1. unfold switched, entered.
  destruct (truth (virgin u)) eqn:Hv.
  - mrun. eexists _, _. split; [reflexivity|]. ut_simpl. split.
    + rewrite Hu2. split_and!; [done|done|done|by rewrite lookup_insert_eq| |done|done|done].
      intros r Hr. by rewrite lookup_insert_ne.
    + pose proof (ut_ok_upd _ _ q u (set_virgin 0 u) Hok Hu1 eq_refl eq_refl ltac:(done)) as Hok1.
      eapply ut_ok_regs; [apply (ut_ok_run _ _ j q (set_virgin 0 u) Hok1 Hj Hq); [|done]|done|..]; ut_simpl;
        [by rewrite lookup_insert_eq|by rewrite Hu2|done..].
  - eexists _, _. split; [reflexivity|]. ut_simpl. rewrite Hu2. split; [done|].
    eapply ut_ok_regs; [apply (ut_ok_run _ _ j q u Hok Hj Hq Hu1)|done..].
    unfold truth in Hv. apply negb_false_iff, Z.eqb_eq in Hv. done.
Qed.

Lemma yield_switch s al (k i j : nat) :
  ut_ok s al -> running_tid (ut_table s) = Z.of_nat i -> live_tids s !! k = Some i ->
  live_tids s !! ((k + 1) mod length (live_tids s))%nat = Some j ->
  exists p t q u c s',
    threads (ut_table s) !! i = Some p /\ threads (ut_table s) !! j = Some q /\
    thread_at s al i p t /\ thread_at s al j q u /\
    uthread_yield ROUND_ROBIN s = Ok c s' /\ ut_ok s' al /\
    switched (set_objs (<[p := saved s t]> (objs s)) s) j q (if decide (i = j) then saved s u else u) c s'.
Proof.
  intros Hok Hr Hi Hj.
  destruct (running_thread s al Hok ltac:(lia)) as (p & t & Hp & Hp0 & Ht & Htid & Hb & Hself & Hv).
  rewrite Hr, Nat2Z.id in Hp, Ht. pose proof Ht as (Ht1 & Ht2 & _).
  assert (Hlj : j ∈ live_tids s) by (by eapply list_elem_of_lookup_2).
  apply (live_tids_spec _ _ _ Hok) in Hlj as (q & Hq & Hq0).
  destruct (uo_thread _ _ Hok _ _ Hq Hq0) as (u & Hu).
  pose proof (ut_ok_upd s al p t (saved s t) Hok Ht1 eq_refl eq_refl ltac:(done)) as Hok1.
  set (s1 := set_objs (<[p := saved s t]> (objs s)) s) in *.
  exists p, t, q, u.
  set (u1 := if decide (i = j) then saved s u else u).
  assert (Hu1 : thread_at s1 al j q u1).
  { unfold u1. destruct (decide (i = j)) as [<-|Hne].
    - assert (q = p) as -> by congruence. destruct Hu as (E1 & E2 & E3 & E4).
      assert (u = t) as -> by congruence. unfold s1, thread_at. ut_simpl. by rewrite lookup_insert_eq.
    - assert (q <> p).
      { intros ->. destruct Hu as (E1 & E2 & _). rewrite Ht1 in E1. injection E1 as <-. lia. }
      destruct Hu as (E1 & E2 & E3 & E4). unfold s1, thread_at. ut_simpl. by rewrite lookup_insert_ne. }
  set (s2 := set_objs (<[p := saved s t]> (<[p := set_ss_esp (esp s) t]> (objs s))) (set_s_self p s)).
  assert (Hok2 : ut_ok s2 al) by (eapply ut_ok_regs; [exact Hok1|done|done|unfold s2; ut_simpl; by rewrite insert_insert_eq|done]).
  assert (Hu2 : thread_at s2 al j q u1).
  { unfold thread_at, s2 in *. ut_simpl. by rewrite insert_insert_eq. }
  destruct (switch_ok s2 al j q u1 Hok2 Hq Hq0 Hu2) as (c & s' & Hsw & Hs' & Hok').
  exists c, s'. split_and!; try done.
  - unfold uthread_yield. mstep Hself. rewrite Htid, Hr.
    erewrite bind_ok by (apply slot_ok; [lia|rewrite Nat2Z.id; exact Hp]).
    mrun1. mrun1. mrun1. mrun1. mrun1. ut_simpl. rewrite Ht2.
    fold (saved s t). change (set_objs _ _) with s2.
    mstep (next_thread_rr s2 al i j q Hok2 ltac:(unfold MAX_UTHREADS in *; lia) Hq Hq0
             (live_tids_gap s al k i j Hok Hi Hj)).
    exact Hsw.
  - destruct Hs' as (E1 & E2 & E3 & E4 & Hr' & E6).
    refine (conj E1 (conj E2 (conj E3 (conj E4 (conj _ E6))))). intros r Hne. rewrite Hr' by done.
    unfold s2. ut_simpl. by rewrite insert_insert_eq.
Qed.

(** Threads running in turn: each one computes, moving its stack registers,
    and yields. *)
Inductive turns : nat -> ut H -> ut H -> Prop :=
| turns_0 s : turns 0 s s
| turns_S n s s1 e b c s2 :
    turns n s s1 -> uthread_yield ROUND_ROBIN (set_esp e (set_ebp b s1)) = Ok c s2 -> turns (S n) s s2.

Lemma live_tids_table s s' :
  threads (ut_table s') = threads (ut_table s) -> live_tids s' = live_tids s.
Proof. unfold live_tids. by intros ->. Qed.

Lemma ut_ok_moved s al e b : ut_ok s al -> ut_ok (set_esp e (set_ebp b s)) al.
Proof. intros. by eapply ut_ok_regs. Qed.

(** The thread running is the [k]th of the live threads. *)
Definition runs_kth s (k : nat) : Prop :=
  exists i, running_tid (ut_table s) = Z.of_nat i /\ live_tids s !! k = Some i.

Lemma kth_next s (k : nat) i : live_tids s !! k = Some i ->
  exists j, live_tids s !! ((k + 1) mod length (live_tids s))%nat = Some j.
Proof.
  intros Hk%lookup_lt_Some. apply lookup_lt_is_Some_2, Nat.mod_upper_bound. lia.
Qed.

Lemma yield_kth s al k :
  ut_ok s al -> runs_kth s k ->
  exists c s', uthread_yield ROUND_ROBIN s = Ok c s' /\ ut_ok s' al /\ live_tids s' = live_tids s /\
    threads (ut_table s') = threads (ut_table s) /\
    runs_kth s' ((k + 1) mod length (live_tids s)).
Proof.
  intros Hok (i & Hr & Hk). destruct (kth_next s k i Hk) as (j & Hj).
  destruct (yield_switch s al k i j Hok Hr Hk Hj) as (p & t & q & u & c & s' & _ & _ & _ & _ & Hy & Hok' & Hsw).
  destruct Hsw as (_ & _ & Htab & _). exists c, s'. ut_simpl.
  assert (Hl : live_tids s' = live_tids s) by (apply live_tids_table; by rewrite Htab).
  split_and!; [done..|by rewrite Htab|].
  exists j. by rewrite Htab, Hl.
Qed.

Lemma turns_kth s al k n s' :
  ut_ok s al -> runs_kth s k -> turns n s s' ->
  ut_ok s' al /\ live_tids s' = live_tids s /\ threads (ut_table s') = threads (ut_table s) /\
  runs_kth s' ((k + n) mod length (live_tids s)).
Proof.
  intros Hok Hk Hn. induction Hn as [s|n s s1 e b c s2 Hn IH Hy].
  - split_and!; try done. destruct Hk as (i & Hr & Hi). exists i. split; [done|].
    rewrite Nat.add_0_r, Nat.mod_small by (by eapply lookup_lt_Some). done.
  - destruct (IH Hok Hk) as (Hok1 & Hl1 & Ht1 & Hk1).
    destruct (yield_kth (set_esp e (set_ebp b s1)) al _ (ut_ok_moved _ _ e b Hok1) Hk1)
      as (c' & s2' & Hy' & Hok2 & Hl2 & Ht2 & Hk2).
    rewrite Hy in Hy'. injection Hy' as <- <-.
    change (live_tids (set_esp e (set_ebp b s1))) with (live_tids s1) in *.
    change (threads (ut_table (set_esp e (set_ebp b s1)))) with (threads (ut_table s1)) in Ht2.
    split_and!; [done|congruence|congruence|]. rewrite Hl1 in Hk2.
    replace ((k + S n) mod length (live_tids s))%nat
      with (((k + n) mod length (live_tids s) + 1) mod length (live_tids s))%nat; [done|].
    rewrite Nat.Div0.add_mod_idemp_l. f_equal. lia.
Qed.

Lemma turns_exist s al k n :
  ut_ok s al -> runs_kth s k -> exists s', turns n s s'.
Proof.
  intros Hok Hk. induction n as [|n (s1 & IH)]; [exists s; constructor|].
  destruct (turns_kth _ _ _ _ _ Hok Hk IH) as (Hok1 & _ & _ & Hk1).
  destruct (yield_kth (set_esp 0 (set_ebp 0 s1)) al _ (ut_ok_moved _ _ 0 0 Hok1) Hk1) as (c & s2 & Hy & _).
  exists s2. by econstructor.
Qed.

Lemma running_kth s al : ut_ok s al -> running_tid (ut_table s) <> -1 -> exists k, runs_kth s k.
Proof.
  intros Hok Hr. destruct (running_thread s al Hok Hr) as (p & t & Hp & Hp0 & _ & _ & Hb & _).
  assert (Hin : Z.to_nat (running_tid (ut_table s)) ∈ live_tids s).
  { apply (live_tids_spec _ _ _ Hok). eauto. }
  apply list_elem_of_lookup in Hin as [k Hk]. exists k, (Z.to_nat (running_tid (ut_table s))).
  split; [lia|done].
Qed.

(** Every live thread is reached within one round. *)
Lemma round_reaches s al (x : nat) :
  ut_ok s al -> running_tid (ut_table s) <> -1 -> x ∈ live_tids s ->
  exists n, (1 <= n <= length (live_tids s))%nat /\
    forall s', turns n s s' -> running_tid (ut_table s') = Z.of_nat x.
Proof.
  intros Hok Hr Hx. destruct (running_kth s al Hok Hr) as (k & Hk).
  apply list_elem_of_lookup in Hx as [m Hm].
  pose proof Hk as (i & _ & Hi). apply lookup_lt_Some in Hi. pose proof (lookup_lt_Some _ _ _ Hm) as Hml.
  set (N := length (live_tids s)) in *.
  exists (if decide (k < m)%nat then m - k else m + N - k)%nat. split; [case_decide; lia|].
  intros s' Hn. destruct (turns_kth _ _ _ _ _ Hok Hk Hn) as (_ & Hl & _ & j & Hj & Hlj).
  rewrite Hl in Hlj. fold N in Hlj.
  replace ((k + (if decide (k < m) then m - k else m + N - k)) mod N)%nat with m in Hlj.
  { rewrite Hj. congruence. }
  case_decide.
  - replace (k + (m - k))%nat with m by lia. by rewrite Nat.mod_small.
  - replace (k + (m + N - k))%nat with (m + 1 * N)%nat by lia. rewrite Nat.Div0.mod_add.
    by rewrite Nat.mod_small.
Qed.

Lemma mod_merge (a b c N : nat) : (((a mod N + b) mod N + c) mod N = (a + (b + c)) mod N)%nat.
Proof. rewrite Nat.Div0.add_mod_idemp_l, <- Nat.add_assoc. apply Nat.Div0.add_mod_idemp_l. Qed.

Lemma kth_wrap (k N d : nat) : (k < N)%nat -> (0 < d < N)%nat -> ((k + d) mod N <> k)%nat.
Proof.
  intros Hk Hd E. destruct (decide (k + d < N)%nat).
  - rewrite Nat.mod_small in E by done. lia.
  - replace (k + d)%nat with (k + d - N + 1 * N)%nat in E by lia.
    rewrite Nat.Div0.mod_add, Nat.mod_small in E by lia. lia.
Qed.

Lemma live_tids_inj s (a b : nat) x : live_tids s !! a = Some x -> live_tids s !! b = Some x -> a = b.
Proof.
  intros Ha Hb. pose proof (live_tids_sorted s) as Hs. destruct (Nat.lt_total a b) as [L|[L|L]]; [|done|];
    [pose proof (StronglySorted_lookup _ _ _ _ _ _ Hs L Ha Hb)
    |pose proof (StronglySorted_lookup _ _ _ _ _ _ Hs L Hb Ha)]; lia.
Qed.

(** While the others take their turns, the object of the thread that has
    yielded is left alone. *)
Lemma turns_keep s al k i p n s' :
  ut_ok s al -> runs_kth s ((k + 1) mod length (live_tids s)) ->
  live_tids s !! k = Some i -> threads (ut_table s) !! i = Some p ->
  turns n s s' -> (n + 1 < length (live_tids s))%nat -> objs s' !! p = objs s !! p.
Proof.
  intros Hok Hk1 Hi Hp Hn. induction Hn as [s|n s s1 e b c s2 Hn IH Hy]; intros Hlt; [done|].
  rewrite <- IH by (done || lia).
  destruct (turns_kth _ _ _ _ _ Hok Hk1 Hn) as (Hok1 & Hl1 & Ht1 & r & Hr & Hrk).
  pose proof (lookup_lt_Some _ _ _ Hi) as Hkn.
  set (N := length (live_tids s)) in *. set (K := ((((k + 1) mod N) + n) mod N)%nat) in *.
  rewrite <- Hl1 in Hi.
  set (s1' := set_esp e (set_ebp b s1)) in *.
  destruct (kth_next s1' K r Hrk) as (j & Hj).
  destruct (yield_switch s1' al K r j (ut_ok_moved _ _ e b Hok1) Hr Hrk Hj)
    as (pr & tr & q & u & c' & s2' & Hpr & Hq & Hat & Hau & Hy' & _ & Hsw).
  rewrite Hy in Hy'. injection Hy' as <- <-. destruct Hsw as (_ & _ & _ & _ & Hoth & _). ut_simpl.
  change (live_tids s1') with (live_tids s1) in Hj. rewrite Hl1 in Hj. fold N in Hj.
  assert (HK : K <> k /\ ((K + 1) mod N)%nat <> k).
  { unfold K. rewrite mod_merge, Nat.Div0.add_mod_idemp_l, <- !Nat.add_assoc. split; apply kth_wrap; lia. }
  assert (Hdistinct : forall m x y v, m <> k -> live_tids s !! m = Some x ->
            threads (ut_table s1) !! x = Some y -> thread_at s1 al x y v -> y <> p).
  { intros m x y v Hm Hx Hy' (Hv & Hvt & _) ->.
    assert (Hxi : x <> i) by (intros ->; apply Hm; rewrite Hl1 in Hi; by eapply live_tids_inj).
    rewrite <- Ht1 in Hp. destruct (decide (p = 0)) as [->|Hp0].
    - assert (i ∈ live_tids s1) by (by eapply list_elem_of_lookup_2).
      apply (live_tids_spec _ _ _ Hok1) in H1 as (p' & ? & ?). congruence.
    - destruct (uo_thread _ _ Hok1 _ _ Hp Hp0) as (v' & Hv' & Hvt' & _).
      rewrite Hv in Hv'. injection Hv' as <-. lia. }
  rewrite Hoth by (symmetry; eapply (Hdistinct _ j q u); [apply HK|exact Hj|exact Hq|exact Hau]).
  rewrite lookup_insert_ne; [done|]. change (live_tids s1') with (live_tids s1) in Hrk. rewrite Hl1 in Hrk.
  eapply (Hdistinct K r pr tr); [apply HK|done|exact Hpr|exact Hat].
Qed.

(** What the running thread leaves in its object when it yields to another. *)
Lemma yield_saves s al k i p t c s1 :
  ut_ok s al -> running_tid (ut_table s) = Z.of_nat i -> live_tids s !! k = Some i ->
  threads (ut_table s) !! i = Some p -> objs s !! p = Some t -> (1 < length (live_tids s))%nat ->
  uthread_yield ROUND_ROBIN s = Ok c s1 -> objs s1 !! p = Some (saved s t).
Proof.
  intros Hok Hr Hk Hp Ht Hlen Hy. destruct (kth_next s k i Hk) as (j & Hj).
  destruct (yield_switch s al k i j Hok Hr Hk Hj)
    as (p' & t' & q & u & c' & s' & Hp' & Hq & Hat & Hau & Hy' & _ & Hsw).
  rewrite Hy in Hy'. injection Hy' as <- <-. assert (p' = p) as -> by congruence.
  destruct Hsw as (_ & _ & _ & _ & Hoth & _). ut_simpl.
  destruct Hat as (Ht' & Htt & _), Hau as (Hu & Htu & _).
  assert (Hij : i <> j).
  { intros <-. apply (kth_wrap k (length (live_tids s)) 1); [by eapply lookup_lt_Some|lia|].
    by eapply live_tids_inj. }
  rewrite Hoth, lookup_insert_eq by (intros ->; simplify_eq; lia). congruence.
Qed.

(** The yield that comes back to a started thread loads what it had saved. *)
Lemma yield_restores s al k r i p t c s1 :
  ut_ok s al -> running_tid (ut_table s) = Z.of_nat r -> live_tids s !! k = Some r ->
  live_tids s !! ((k + 1) mod length (live_tids s))%nat = Some i -> r <> i ->
  threads (ut_table s) !! i = Some p -> objs s !! p = Some t -> virgin t = 0 ->
  uthread_yield ROUND_ROBIN s = Ok c s1 ->
  running_tid (ut_table s1) = Z.of_nat i /\ esp s1 = ss_esp t /\ ebp s1 = ss_ebp t /\ c = Resume.
Proof.
  intros Hok Hr Hk Hj Hri Hp Ht Hv Hy.
  destruct (yield_switch s al k r i Hok Hr Hk Hj)
    as (p' & t' & q & u & c' & s' & _ & Hq & _ & (Hu & _) & Hy' & _ & Hsw).
  rewrite Hy in Hy'. injection Hy' as <- <-. assert (q = p) as -> by congruence. assert (u = t) as -> by congruence.
  destruct Hsw as (_ & _ & Htab & _ & _ & Hebp & Hc). ut_simpl.
  rewrite decide_False in Hebp, Hc by done. rewrite Hv in Hc. change (truth 0) with false in Hc.
  destruct Hc as [-> Hesp]. rewrite Htab. done.
Qed.

Lemma yield_resumes s al c s1 s' :
  ut_ok s al -> running_tid (ut_table s) <> -1 -> uthread_yield ROUND_ROBIN s = Ok c s1 ->
  turns (length (live_tids s) - 1) s1 s' ->
  running_tid (ut_table s') = running_tid (ut_table s) /\ esp s' = esp s /\ ebp s' = ebp s.
Proof.
  intros Hok Hrun Hy Hn. destruct (running_kth s al Hok Hrun) as (k & Hkth). pose proof Hkth as (i & Hr & Hk).
  destruct (running_thread s al Hok Hrun) as (p & t & Hp & Hp0 & (Ht & _) & _ & _ & _ & Hv).
  rewrite Hr, Nat2Z.id in Hp.
  pose proof (lookup_lt_Some _ _ _ Hk) as HkN. set (N := length (live_tids s)) in *.
  destruct (yield_kth s al k Hok Hkth) as (c' & s1' & Hy' & Hok1 & Hl1 & Ht1 & Hk1).
  rewrite Hy in Hy'. injection Hy' as <- <-.
  destruct (decide (N = 1%nat)) as [HN|HN].
  - rewrite HN in Hn. inversion Hn. subst. assert (Hj : live_tids s !! ((k + 1) mod N)%nat = Some i).
    { by rewrite HN, Nat.mod_1_r, <- (ltac:(lia) : k = 0%nat). }
    destruct (yield_switch s al k i i Hok Hr Hk Hj) as (p' & t' & q & u & c'' & s'' & _ & Hq & _ & (Hu & _) & Hy' & _ & Hsw).
    rewrite Hy in Hy'. injection Hy' as <- <-. destruct Hsw as (_ & _ & Htab & _ & _ & Hebp & Hc). ut_simpl.
    rewrite decide_True in Hebp, Hc by done. simplify_eq. cbn [saved] in Hc. unfold saved in Hc, Hebp. ut_simpl.
    rewrite Hv in Hc. destruct Hc as [_ Hesp]. by rewrite Htab.
  - pose proof (yield_saves s al k i p t c s1 Hok Hr Hk Hp Ht ltac:(lia) Hy) as Hsav.
    destruct (N - 1)%nat as [|m] eqn:Hm; [lia|]. inversion Hn as [|? ? s2 e b c2 ? Hm' Hy2]. subst.
    assert (Hkeep : objs s2 !! p = objs s1 !! p).
    { eapply (turns_keep s1 al k i p m); rewrite ?Hl1, ?Ht1; [done|done|done|done|done|fold N; lia]. }
    destruct (turns_kth _ _ _ _ _ Hok1 Hk1 Hm') as (Hok2 & Hl2 & Ht2 & r & Hr2 & Hk2).
    rewrite Hl1 in Hl2, Hk2. fold N in Hk2.
    assert (Hback : ((((k + 1) mod N + m) mod N + 1) mod N = k)%nat).
    { rewrite mod_merge. replace (k + 1 + (m + 1))%nat with (k + 1 * N)%nat by lia.
      rewrite Nat.Div0.mod_add. by apply Nat.mod_small. }
    assert (Hri : r <> i).
    { intros ->. rewrite Hl2 in Hk2. pose proof (live_tids_inj _ _ _ _ Hk Hk2) as E.
      rewrite Nat.Div0.add_mod_idemp_l in E. symmetry in E. revert E.
      rewrite <- Nat.add_assoc. apply kth_wrap; lia. }
    destruct (yield_restores (set_esp e (set_ebp b s2)) al _ r i p (saved s t) c2 s'
                (ut_ok_moved _ _ e b Hok2) Hr2 Hk2) as (E1 & E2 & E3 & _); try done.
    + change (live_tids (set_esp e (set_ebp b s2))) with (live_tids s2). rewrite Hl2. fold N. by rewrite Hback.
    + change (threads (ut_table s2) !! i = Some p). by rewrite Ht2, Ht1.
    + change (objs s2 !! p = Some (saved s t)). by rewrite Hkeep.
    + by rewrite E1, E2, E3, Hr.
Qed.
End Yield.

(** ** Exiting *)

Section Exit.
Context {H : Type} `{Allocator H}.
Implicit Types (s : ut H) (al : gmap Z Z).

(** The priorities of the threads of a table, in slot order. *)
Definition priorities s (l : list Z) : list Z :=
  omap (fun p => if p =? 0 then None else priority <$> objs s !! p) l.

Lemma highest_loop s l m :
  (forall p, p ∈ l -> p <> 0 -> is_Some (objs s !! p)) ->
  get_highest_p_loop l m s = Ok (foldl Z.min m (priorities s l)) s.
Proof.
  revert m. induction l as [|p l IH]; intros m Hl; [done|]. cbn [get_highest_p_loop].
  assert (IH' := fun m => IH m ltac:(intros q Hq; apply Hl; by right)).
  unfold priorities in *. cbn [omap list_omap]. destruct (Z.eqb_spec p 0) as [->|Hp]; [apply IH'|].
  destruct (Hl p ltac:(left) Hp) as [t Ht]. rewrite Ht. cbn [fmap option_fmap option_map foldl].
  mstep (obj_ok _ _ _ Ht). rewrite IH'. do 2 f_equal.
  destruct (Z.ltb_spec (priority t) m); lia.
Qed.

Lemma foldl_min_le m l : foldl Z.min m l <= m /\ Forall (fun x => foldl Z.min m l <= x) l.
Proof.
  revert m. induction l as [|x l IH]; intros m; simpl; [split; [lia|constructor]|].
  destruct (IH (Z.min m x)) as [H1 H2]. split; [lia|]. constructor; [lia|done].
Qed.

Lemma foldl_min_in m l : foldl Z.min m l = m \/ foldl Z.min m l ∈ l.
Proof.
  revert m. induction l as [|x l IH]; intros m; simpl; [by left|].
  destruct (IH (Z.min m x)) as [->|Hin]; [|right; by right].
  destruct (Z.min_spec m x) as [[_ ->]|[_ ->]]; [by left|right; left].
Qed.

(** The table once thread [i] is gone, with heap [h']. *)
Definition departed s (i : nat) (p : Z) (h' : H) : ut H :=
  let l := <[i := 0]> (threads (ut_table s)) in
  mkUt (first_uthread s)
    (mkTable (cur_threads (ut_table s) - 1) (foldl Z.min 9 (priorities s l)) l (running_tid (ut_table s)))
    (objs s) h' (esp s) (ebp s) p (s_next s) (Z.of_nat i).

Lemma departed_ok s al i p t h' :
  ut_ok s al -> threads (ut_table s) !! i = Some p -> p <> 0 -> thread_at s al i p t ->
  ainv h' (delete p (delete (ss_sp t) al)) ->
  ut_ok (set_running_tid (-1) (departed s i p h')) (delete p (delete (ss_sp t) al)).
Proof.
  intros [Hf Hlen Hh Hth Hst Hc Hr] Hi Hp (Ht1 & Ht2 & Ht3 & Ht4) Hh'.
  pose proof (lookup_lt_Some _ _ _ Hi) as Hlt.
  assert (Hold : forall j q, <[i := 0]> (threads (ut_table s)) !! j = Some q -> q <> 0 ->
            i <> j /\ threads (ut_table s) !! j = Some q).
  { intros j q Hj Hq. destruct (decide (i = j)) as [<-|Hne].
    - rewrite list_lookup_insert_eq in Hj by done. congruence.
    - by rewrite list_lookup_insert_ne in Hj. }
  split; unfold departed; ut_simpl; auto.
  - by rewrite length_insert.
  - intros j q Hj Hq. destruct (Hold j q Hj Hq) as [Hne Hj']. destruct (Hth _ _ Hj' Hq) as (u & Hu1 & Hu2 & Hu3 & Hu4).
    exists u. unfold thread_at. ut_simpl.
    assert (Hpq : p <> q) by (intros <-; simplify_eq; lia).
    pose proof (Hst i j p q t u Hne Hi Hj' Hp Hq Ht1 Hu1) as Hss.
    rewrite !lookup_delete_ne by (congruence || intros E; rewrite <- E in *; simplify_eq). done.
  - intros j k q r u v Hjk Hj Hk Hq Hr'. destruct (Hold j q Hj Hq), (Hold k r Hk Hr'). eauto.
  - rewrite (live_insert _ _ _ _ Hi). rewrite (proj2 (Z.eqb_neq p 0)) by done. simpl. lia.
Qed.

(** The end of [uthread_exit], after the table has been updated. *)
Definition exit_tail (sched : policy) : M (ut H) control :=
  n ← gets (fun s => cur_threads (ut_table s));
  if n =? 0 then halt SExit
  else
    st ← gets s_self_tid;
    n ← next_thread sched ((st + 1) mod MAX_UTHREADS);
    modify (set_s_next n);;
    switch_to_next.

Lemma ut_free_ok s al p n :
  ainv (uheap s) al -> al !! p = Some n ->
  exists h', free p s = Ok tt (set_uheap h' s) /\ ainv h' (delete p al).
Proof.
  intros Hi Hp. destruct (afree_spec _ _ _ _ Hi Hp) as (h' & E & Hi'). exists h'.
  unfold free, zoom. by rewrite E.
Qed.

Lemma exit_prefix s al sched i p t :
  ut_ok s al -> running_tid (ut_table s) = Z.of_nat i -> threads (ut_table s) !! i = Some p ->
  p <> 0 -> thread_at s al i p t ->
  exists h', ainv h' (delete p (delete (ss_sp t) al)) /\
    uthread_exit sched s = exit_tail sched (departed s i p h').
Proof.
  intros Hok Hr Hi Hp (Ht1 & Ht2 & Ht3 & Ht4).
  pose proof (lookup_lt_Some _ _ _ Hi) as Hlt. rewrite (uo_len _ _ Hok) in Hlt.
  assert (Hb : 0 <= Z.of_nat i < MAX_UTHREADS) by (unfold MAX_UTHREADS in *; lia).
  assert (Hslot : forall s', ut_table s' = ut_table s -> slot (Z.of_nat i) s' = Ok p s').
  { intros s' E. apply slot_ok; [done|]. by rewrite E, Nat2Z.id. }
  destruct (ut_free_ok (set_s_self_tid (Z.of_nat i) (set_s_self p s)) al (ss_sp t) _ (uo_heap _ _ Hok) Ht4)
    as (h1 & Hf1 & Hh1).
  assert (Hne : ss_sp t <> p) by (intros E; rewrite E in Ht4; simplify_eq).
  destruct (ut_free_ok (set_uheap h1 (set_s_self_tid (Z.of_nat i) (set_s_self p s))) _ p sizeof_uthread_t Hh1
              ltac:(by rewrite lookup_delete_ne)) as (h2 & Hf2 & Hh2).
  exists h2. split; [done|]. unfold uthread_exit.
  destruct (running_thread s al Hok ltac:(lia)) as (p' & t' & Hp' & _ & (Ht' & _) & _ & _ & Hself & _).
  rewrite Hr, Nat2Z.id, Hi in Hp'. injection Hp' as <-. assert (t' = t) as -> by congruence.
  mstep Hself. rewrite Ht2. mstep (Hslot s eq_refl). mrun1.
  mstep (obj_ok p t (set_s_self p s) Ht1). rewrite Ht2. mrun1. mstep Hf1. mrun1. ut_simpl.
  mstep (Hslot (set_uheap h1 (set_s_self_tid (Z.of_nat i) (set_s_self p s))) eq_refl). mstep Hf2.
  mstep (obj_ok p t (set_uheap h2 (set_uheap h1 (set_s_self_tid (Z.of_nat i) (set_s_self p s)))) Ht1).
  rewrite Ht2. mstep (set_slot_ok (Z.of_nat i) 0
     (set_uheap h2 (set_uheap h1 (set_s_self_tid (Z.of_nat i) (set_s_self p s)))) Hb).
  mrun1. rewrite Nat2Z.id. unfold get_highest_p. rewrite bind_assoc_run. mrun1. ut_simpl.
  erewrite bind_ok; [|apply highest_loop].
  2:{ intros q Hq Hq0. ut_simpl. apply list_elem_of_lookup in Hq as [j Hj].
      destruct (decide (i = j)) as [<-|Hij]; [rewrite list_lookup_insert_eq in Hj by (by eapply lookup_lt_Some); congruence|].
      rewrite list_lookup_insert_ne in Hj by done.
      destruct (uo_thread _ _ Hok _ _ Hj Hq0) as (u & Hu & _). eauto. }
  mrun1. reflexivity.
Qed.

(** The scheduler does not look at [running_tid], and the switch overwrites
    it: both run as from the state where nothing runs. *)
Lemma next_run_any fuel sched st r s :
  next_thread_loop fuel sched st (set_running_tid r s) =
  match next_thread_loop fuel sched st s with
  | Ok p s' => Ok p (set_running_tid r s')
  | Stop o s' => Stop o (set_running_tid r s')
  end.
Proof.
  revert st. induction fuel as [|fuel IH]; intros st; [done|]. cbn [next_thread_loop].
  unfold slot, obj, deref, gets, mbind, M_bind, mret, M_ret, undef, halt. ut_simpl.
  destruct ((0 <=? st) && (st <? MAX_UTHREADS)); [|done].
  destruct (threads (ut_table s) !! Z.to_nat st) as [p|]; [|done].
  destruct (p =? 0); [apply IH|]. destruct sched; [done|]. ut_simpl.
  destruct (objs s !! p) as [t|]; [|done].
  change (highest_p (ut_table (set_running_tid r s))) with (highest_p (ut_table s)).
  destruct (priority t =? highest_p (ut_table s)); [done|apply IH].
Qed.

Lemma next_state fuel sched st s p s' : next_thread_loop fuel sched st s = Ok p s' -> s' = s.
Proof.
  revert st. induction fuel as [|fuel IH]; intros st; [done|]. cbn [next_thread_loop].
  unfold slot, obj, deref, gets, mbind, M_bind, mret, M_ret, undef, halt.
  destruct ((0 <=? st) && (st <? MAX_UTHREADS)); [|done].
  destruct (threads (ut_table s) !! Z.to_nat st) as [q|]; [|done].
  destruct (q =? 0); [apply IH|]. destruct sched; [congruence|].
  destruct (objs s !! q) as [t|]; [|done]. destruct (priority t =? highest_p (ut_table s)); [congruence|apply IH].
Qed.

Lemma switch_run_any r q t s :
  objs s !! q = Some t ->
  (modify (set_s_next q);; switch_to_next) (set_running_tid r s) =
  (modify (set_s_next q);; switch_to_next) s.
Proof.
  intros Hq. unfold switch_to_next. mrun1. mrun1. mrun1. symmetry. mrun1. mrun1. mrun1. symmetry.
  mrun1. mrun1. mrun1. symmetry. mrun1. mrun1. mrun1.
  destruct (truth (virgin t)); [|done]. do 2 mrun1. symmetry. do 2 mrun1. done.
Qed.

(** With a slot that passes the test, the scheduler stops at the first one. *)
Lemma next_thread_finds s al sched start j p :
  ut_ok s al -> 0 <= start < MAX_UTHREADS ->
  threads (ut_table s) !! j = Some p -> picks s sched p = true ->
  exists j' p', threads (ut_table s) !! j' = Some p' /\ p' <> 0 /\ picks s sched p' = true /\
    next_thread sched start s = Ok p' s.
Proof.
  intros Hok Hst Hj Hpk. pose proof (lookup_lt_Some _ _ _ Hj) as Hj64. rewrite (uo_len _ _ Hok) in Hj64.
  set (at_ := fun k : nat => Z.to_nat ((start + Z.of_nat k) mod MAX_UTHREADS)).
  assert (Hex : exists k : nat, (k < 64)%nat /\ exists p, threads (ut_table s) !! at_ k = Some p /\ picks s sched p = true).
  { exists (Z.to_nat ((Z.of_nat j - start) mod MAX_UTHREADS)). unfold MAX_UTHREADS in *.
    pose proof (Z.mod_pos_bound (Z.of_nat j - start) 64 ltac:(lia)). split; [lia|].
    exists p. unfold at_. rewrite Z2Nat.id, Zplus_mod_idemp_r by lia.
    replace (start + (Z.of_nat j - start)) with (Z.of_nat j) by lia.
    rewrite Z.mod_small, Nat2Z.id by lia. done. }
  destruct Hex as (k & Hk & Hkp). revert Hkp. revert Hk.
  induction (lt_wf k) as [k _ IH]; intros Hk (p' & Hp' & Hpk').
  destruct (decide (Exists (fun m => from_option (picks s sched) false (threads (ut_table s) !! at_ m) = true) (seq 0 k)))
    as [(m & Hm & Hpm)%Exists_exists|Hno].
  - apply elem_of_seq in Hm. apply (IH m); [lia|lia|].
    destruct (threads (ut_table s) !! at_ m) as [pm|]; [|done]. eauto.
  - exists (at_ k), p'. split_and!; [done| |done|].
    + intros ->. unfold picks in Hpk'. by rewrite Z.eqb_refl in Hpk'.
    + apply (next_loop_first s al sched start k p'); [done|done|unfold MAX_UTHREADS; lia|done|done|].
      intros m q Hm Hq. destruct (picks s sched q) eqn:E; [|done]. exfalso. apply Hno, Exists_exists.
      exists m. split; [apply elem_of_seq; lia|]. unfold at_. by rewrite Hq.
Qed.

(** When no thread has a priority number above 9, some remaining thread has
    the recomputed highest priority. *)
Lemma departed_picks s al i p t h' sched j q :
  ut_ok s al -> threads (ut_table s) !! i = Some p -> p <> 0 -> thread_at s al i p t ->
  (sched = PRIORITY_BASED ->
   forall k r u, threads (ut_table s) !! k = Some r -> r <> 0 -> objs s !! r = Some u -> priority u <= 9) ->
  i <> j -> threads (ut_table s) !! j = Some q -> q <> 0 ->
  exists j' q', threads (ut_table (departed s i p h')) !! j' = Some q' /\ picks (departed s i p h') sched q' = true.
Proof.
  intros Hok Hi Hp Hat Hpr Hij Hj Hq. unfold departed. ut_simpl.
  set (l := <[i := 0]> (threads (ut_table s))).
  assert (Hl : l !! j = Some q) by (unfold l; by rewrite list_lookup_insert_ne).
  destruct (uo_thread _ _ Hok _ _ Hj Hq) as (u & Hu & _).
  destruct sched.
  { exists j, q. split; [done|]. unfold picks. by rewrite (proj2 (Z.eqb_neq _ _)). }
  assert (Hin : priority u ∈ priorities s l).
  { apply list_elem_of_omap. exists q. split; [by eapply list_elem_of_lookup_2|].
    by rewrite (proj2 (Z.eqb_neq _ _)), Hu by done. }
  assert (Hmin : foldl Z.min 9 (priorities s l) ∈ priorities s l).
  { destruct (foldl_min_in 9 (priorities s l)) as [E|]; [|done]. rewrite E.
    destruct (foldl_min_le 9 (priorities s l)) as [_ Hle]. rewrite E, Forall_forall in Hle.
    specialize (Hle _ Hin). specialize (Hpr eq_refl _ _ _ Hj Hq Hu). by replace 9 with (priority u) by lia. }
  apply list_elem_of_omap in Hmin as (q' & Hq' & E). apply list_elem_of_lookup in Hq' as [j' Hj'].
  exists j', q'. split; [done|]. unfold picks. ut_simpl.
  destruct (q' =? 0); [done|]. destruct (objs s !! q') as [u'|]; [|done]. simpl in *. injection E as ->.
  by rewrite Z.eqb_refl.
Qed.

(** What is left when a thread exits: nothing to run, or another thread,
    chosen by the policy, takes over. *)
Inductive exit_result (sched : policy) s al (i : nat) (p : Z) (t : uthread_t) : res (ut H) control -> Prop :=
| exit_last h' :
    cur_threads (ut_table s) = 1 -> ainv h' (delete p (delete (ss_sp t) al)) ->
    exit_result sched s al i p t (Stop SExit (departed s i p h'))
| exit_next h' j q u c s' :
    j <> i -> threads (ut_table s) !! j = Some q -> thread_at s al j q u ->
    match sched with
    | ROUND_ROBIN => forall m r, threads (ut_table s) !! m = Some r -> between i m j -> r = 0
    | PRIORITY_BASED => forall m r v, m <> i -> threads (ut_table s) !! m = Some r -> r <> 0 ->
                          objs s !! r = Some v -> priority u <= priority v
    end ->
    switched (departed s i p h') j q u c s' -> ut_ok s' (delete p (delete (ss_sp t) al)) ->
    exit_result sched s al i p t (Ok c s').

Lemma another_live s al i p t h' :
  ut_ok s al -> threads (ut_table s) !! i = Some p -> p <> 0 -> thread_at s al i p t ->
  ut_ok (set_running_tid (-1) (departed s i p h')) (delete p (delete (ss_sp t) al)) ->
  cur_threads (ut_table s) <> 1 ->
  exists j q, i <> j /\ threads (ut_table s) !! j = Some q /\ q <> 0.
Proof.
  intros Hok Hi Hp Hat Hd Hc. pose proof (uo_count _ _ Hd) as Hcnt. unfold departed in Hcnt. ut_simpl.
  destruct (live (<[i := 0]> (threads (ut_table s)))) as [|q l] eqn:E; [simpl in Hcnt; lia|].
  assert (Hq : q ∈ live (<[i := 0]> (threads (ut_table s)))) by (rewrite E; left).
  apply list_elem_of_filter in Hq as [Hq0 [j Hj]%list_elem_of_lookup].
  destruct (decide (i = j)) as [<-|Hne].
  - rewrite list_lookup_insert_eq in Hj by (by eapply lookup_lt_Some). congruence.
  - rewrite list_lookup_insert_ne in Hj by done. eauto.
Qed.

(** The next live thread after [i]. *)
Lemma next_live s al i p j q :
  ut_ok s al -> threads (ut_table s) !! i = Some p -> p <> 0 ->
  i <> j -> threads (ut_table s) !! j = Some q -> q <> 0 ->
  exists j' q', i <> j' /\ threads (ut_table s) !! j' = Some q' /\ q' <> 0 /\
    forall m r, threads (ut_table s) !! m = Some r -> between i m j' -> r = 0.
Proof.
  intros Hok Hi Hp Hij Hj Hq.
  assert (Hil : i ∈ live_tids s) by (apply (live_tids_spec _ _ _ Hok); eauto).
  assert (Hjl : j ∈ live_tids s) by (apply (live_tids_spec _ _ _ Hok); eauto).
  apply list_elem_of_lookup in Hil as [k Hk]. apply list_elem_of_lookup in Hjl as [k' Hk'].
  destruct (kth_next s k i Hk) as (j' & Hj').
  assert (Hl : j' ∈ live_tids s) by (by eapply list_elem_of_lookup_2).
  apply (live_tids_spec _ _ _ Hok) in Hl as (q' & Hq' & Hq0). exists j', q'. split_and!; [|done..|].
  - intros <-. pose proof (live_tids_inj _ _ _ _ Hk Hj') as E. symmetry in E. revert E.
    pose proof (lookup_lt_Some _ _ _ Hk). pose proof (lookup_lt_Some _ _ _ Hk').
    apply kth_wrap; [done|]. assert (k <> k') by congruence. lia.
  - by eapply live_tids_gap.
Qed.

Lemma departed_slot s i p h' j q :
  threads (ut_table (departed s i p h')) !! j = Some q -> q <> 0 ->
  i <> j /\ threads (ut_table s) !! j = Some q.
Proof.
  unfold departed. ut_simpl. intros Hj Hq. destruct (decide (i = j)) as [<-|Hne].
  - apply list_lookup_insert_Some in Hj as [(_ & <- & _)|[]]; done.
  - by rewrite list_lookup_insert_ne in Hj.
Qed.

(** The thread [uthread_exit] passes control to. *)
Lemma exit_choice s al sched i p t h' j0 q0 :
  ut_ok s al -> threads (ut_table s) !! i = Some p -> p <> 0 -> thread_at s al i p t ->
  ut_ok (set_running_tid (-1) (departed s i p h')) (delete p (delete (ss_sp t) al)) ->
  (sched = PRIORITY_BASED ->
   forall k r u, threads (ut_table s) !! k = Some r -> r <> 0 -> objs s !! r = Some u -> priority u <= 9) ->
  i <> j0 -> threads (ut_table s) !! j0 = Some q0 -> q0 <> 0 ->
  let d := departed s i p h' in
  exists j q, i <> j /\ threads (ut_table s) !! j = Some q /\ q <> 0 /\
     next_thread sched ((Z.of_nat i + 1) mod MAX_UTHREADS) (set_running_tid (-1) d) = Ok q (set_running_tid (-1) d) /\
     picks d sched q = true /\
     (sched = ROUND_ROBIN -> forall m r, threads (ut_table s) !! m = Some r -> between i m j -> r = 0).
Proof.
  intros Hok Hi Hp Hat Hd Hpr Hij0 Hj0 Hq0 d.
  assert (Hi64 : (i < 64)%nat) by (apply lookup_lt_Some in Hi; rewrite (uo_len _ _ Hok) in Hi; done).
  destruct sched.
  - destruct (next_live s al i p j0 q0 Hok Hi Hp Hij0 Hj0 Hq0) as (j & q & Hij & Hj & Hq & Hgap).
    exists j, q. assert (Hdj : threads (ut_table d) !! j = Some q) by (unfold d, departed; ut_simpl; by rewrite list_lookup_insert_ne).
    split_and!; [done..| | |done].
    + apply (next_thread_rr (set_running_tid (-1) d) _ i j q Hd Hi64 Hdj Hq). intros m r Hm Hb.
      destruct (decide (r = 0)); [done|]. destruct (departed_slot s i p h' m r Hm ltac:(done)) as [_ Hm']. eauto.
    + unfold picks. by rewrite (proj2 (Z.eqb_neq _ _)).
  - destruct (departed_picks s al i p t h' PRIORITY_BASED j0 q0 Hok Hi Hp Hat Hpr Hij0 Hj0 Hq0) as (j1 & q1 & Hj1 & Hpk1).
    destruct (next_thread_finds (set_running_tid (-1) d) _ PRIORITY_BASED ((Z.of_nat i + 1) mod MAX_UTHREADS) j1 q1 Hd
                ltac:(apply Z.mod_pos_bound; done) Hj1 Hpk1) as (j & q & Hj & Hq & Hpk & Hn).
    destruct (departed_slot s i p h' j q Hj Hq) as [Hij Hj']. exists j, q. by split_and!.
Qed.

Lemma exit_step s al sched i p t :
  ut_ok s al -> running_tid (ut_table s) = Z.of_nat i -> threads (ut_table s) !! i = Some p ->
  p <> 0 -> thread_at s al i p t ->
  (sched = PRIORITY_BASED ->
   forall k r u, threads (ut_table s) !! k = Some r -> r <> 0 -> objs s !! r = Some u -> priority u <= 9) ->
  exit_result sched s al i p t (uthread_exit sched s).
Proof.
  intros Hok Hr Hi Hp Hat Hpr.
  destruct (exit_prefix s al sched i p t Hok Hr Hi Hp Hat) as (h' & Hh' & ->).
  pose proof (departed_ok s al i p t h' Hok Hi Hp Hat Hh') as Hd.
  unfold exit_tail. mrun1. change (cur_threads (ut_table (departed s i p h'))) with (cur_threads (ut_table s) - 1).
  destruct (Z.eqb_spec (cur_threads (ut_table s) - 1) 0) as [Hc|Hc]; [apply exit_last; [lia|done]|].
  destruct (another_live s al i p t h' Hok Hi Hp Hat Hd ltac:(lia)) as (j0 & q0 & Hij0 & Hj0 & Hq0).
  mrun1. change (s_self_tid (departed s i p h')) with (Z.of_nat i).
  set (d := departed s i p h') in *.
  destruct (exit_choice s al sched i p t h' j0 q0 Hok Hi Hp Hat Hd Hpr Hij0 Hj0 Hq0)
    as (j & q & Hij & Hj & Hq & Hn & Hpk & Hrr). fold d in Hn, Hpk.
  destruct (uo_thread _ _ Hok _ _ Hj Hq) as (u & Hu).
  assert (Hdj : threads (ut_table d) !! j = Some q) by (unfold d, departed; ut_simpl; by rewrite list_lookup_insert_ne).
  destruct (uo_thread _ _ Hd j q Hdj Hq) as (u' & Hu').
  assert (u' = u) as -> by (destruct Hu as [Hu _], Hu' as [Hu' _]; unfold d, departed in Hu'; ut_simpl; congruence).
  destruct (switch_ok (set_running_tid (-1) d) _ j q u Hd Hdj Hq Hu') as (c & s' & Hsw & Hs' & Hok').
  unfold next_thread in *. rewrite next_run_any in Hn. 
  destruct (next_thread_loop _ sched _ d) as [q' d'|] eqn:Hn'; [|done].
  assert (d' = d /\ q' = q) as [-> ->].
  { injection Hn as -> E. split; [|done]. pose proof (next_state _ _ _ _ _ _ Hn') as ->. done. }
  mstep Hn'. destruct Hu as (Hu1 & Hu2). rewrite (switch_run_any (-1) q u d Hu1) in Hsw. rewrite Hsw.
  apply (exit_next sched s al i p t h' j q u c s'); [congruence|done|done| |done|done].
  destruct sched; [by apply Hrr|]. intros m r v Hm Hmr Hr0 Hv.
  unfold picks in Hpk. change (objs d) with (objs s) in Hpk. rewrite Hu1 in Hpk. apply andb_true_iff in Hpk as [_ ->%Z.eqb_eq].
  destruct (foldl_min_le 9 (priorities s (<[i := 0]> (threads (ut_table s))))) as [_ Hle].
  rewrite Forall_forall in Hle. apply Hle, list_elem_of_omap. exists r. split.
  - apply (list_elem_of_lookup_2 _ m). by rewrite list_lookup_insert_ne.
  - by rewrite (proj2 (Z.eqb_neq _ _)), Hv by done.
Qed.
End Exit.

(** ** Starting, and changing priorities *)

Section Start.
Context {H : Type} `{Allocator H}.
Implicit Types (s : ut H) (al : gmap Z Z).

Lemma live_tids_head s al i :
  ut_ok s al -> head (live_tids s) = Some i ->
  exists p, threads (ut_table s) !! i = Some p /\ p <> 0 /\
    forall j q, (j < i)%nat -> threads (ut_table s) !! j = Some q -> q = 0.
Proof.
  intros Hok Hh. pose proof (live_tids_sorted s) as Hs.
  assert (Hi : i ∈ live_tids s) by (destruct (live_tids s); simplify_eq/=; left).
  apply (live_tids_spec _ _ _ Hok) in Hi as (p & Hp & Hp0). exists p. split_and!; [done..|].
  intros j q Hj Hq. destruct (decide (q = 0)) as [|Hq0]; [done|].
  assert (Hjl : j ∈ live_tids s) by (apply (live_tids_spec _ _ _ Hok); eauto).
  destruct (live_tids s) as [|i' l]; simplify_eq/=. apply StronglySorted_inv in Hs as [_ Hs].
  rewrite Forall_forall in Hs. apply elem_of_cons in Hjl as [->|Hjl]; [lia|]. apply Hs in Hjl. lia.
Qed.

Lemma live_tids_nonempty s al :
  ut_ok s al -> cur_threads (ut_table s) <> 0 -> exists i, head (live_tids s) = Some i.
Proof.
  intros Hok Hc. pose proof (uo_count _ _ Hok) as Hcnt.
  destruct (live (threads (ut_table s))) as [|q l] eqn:E; [done|].
  assert (Hq : q ∈ live (threads (ut_table s))) by (rewrite E; left).
  apply list_elem_of_filter in Hq as [Hq0 [j Hj]%list_elem_of_lookup].
  assert (Hjl : j ∈ live_tids s) by (apply (live_tids_spec _ _ _ Hok); eauto).
  destruct (live_tids s) as [|i l']; [by apply not_elem_of_nil in Hjl|by exists i].
Qed.

Lemma start_step s al i :
  ut_ok s al -> running_tid (ut_table s) = -1 -> head (live_tids s) = Some i ->
  exists q u s', threads (ut_table s) !! i = Some q /\ thread_at s al i q u /\
    uthread_start_all ROUND_ROBIN s = Ok (inr (Wrap (entryfunc u))) s' /\ ut_ok s' al /\
    running_tid (ut_table s') = Z.of_nat i /\ esp s' = ss_esp u - 8 /\ ebp s' = ss_ebp u.
Proof.
  intros Hok Hr Hh. destruct (live_tids_head s al i Hok Hh) as (q & Hq & Hq0 & Hlow).
  destruct (uo_thread _ _ Hok _ _ Hq Hq0) as (u & Hu). pose proof Hu as (Hu1 & Hu2 & _).
  pose proof (lookup_lt_Some _ _ _ Hq) as Hi64. rewrite (uo_len _ _ Hok) in Hi64.
  assert (Hc : cur_threads (ut_table s) <> 0).
  { rewrite (uo_count _ _ Hok). assert (q ∈ live (threads (ut_table s))).
    { apply list_elem_of_filter. split; [done|]. by eapply list_elem_of_lookup_2. }
    destruct (live _); [by apply not_elem_of_nil in H1|simpl; lia]. }
  assert (Hn : next_thread ROUND_ROBIN 0 s = Ok q s).
  { apply (next_loop_first s al ROUND_ROBIN 0 i q); [done|done|done| | |].
    - rewrite Z.mod_small by (unfold MAX_UTHREADS in *; lia). by rewrite Z.add_0_l, Nat2Z.id.
    - unfold picks. by rewrite (proj2 (Z.eqb_neq _ _)).
    - intros j r Hj. rewrite Z.mod_small by (unfold MAX_UTHREADS in *; lia). rewrite Z.add_0_l, Nat2Z.id.
      intros Hjr. unfold picks. by rewrite (Hlow j r Hj Hjr). }
  eexists q, u, _. split_and!; [done|done| |..].
  - unfold uthread_start_all. mrun1. rewrite (uo_first _ _ Hok). change (truth 0) with false. cbn iota.
    rewrite (proj2 (Z.eqb_neq _ _) Hc), Hr. change (negb (-1 =? -1)) with false. cbn iota. mstep Hn. mrun. reflexivity.
  - pose proof (ut_ok_upd _ _ q u (set_virgin 0 u) Hok Hu1 eq_refl eq_refl ltac:(done)) as Hok1.
    eapply ut_ok_regs; [apply (ut_ok_run _ _ i q (set_virgin 0 u) Hok1 Hq Hq0); [|done]|done|..]; ut_simpl;
      [by rewrite lookup_insert_eq|by rewrite Hu2|done..].
  - ut_simpl. done.
  - done.
  - done.
Qed.

Lemma setpr_starves s al prio i p t :
  ut_ok s al -> running_tid (ut_table s) = Z.of_nat i -> threads (ut_table s) !! i = Some p -> p <> 0 ->
  objs s !! p = Some t -> prio <> highest_p (ut_table s) ->
  (forall j q u, j <> i -> threads (ut_table s) !! j = Some q -> q <> 0 -> objs s !! q = Some u ->
     priority u <> highest_p (ut_table s)) ->
  exists s', uthread_setpr prio s = Ok (priority t) s' /\ ut_ok s' al /\
    forall fuel start, 0 <= start < MAX_UTHREADS ->
      next_thread_loop fuel PRIORITY_BASED start s' = Stop SFuel s'.
Proof.
  intros Hok Hr Hi Hp Ht Hprio Hoth. pose proof (lookup_lt_Some _ _ _ Hi) as Hlt. rewrite (uo_len _ _ Hok) in Hlt.
  pose proof (ut_ok_upd _ _ p t (set_priority prio t) Hok Ht eq_refl eq_refl ltac:(done)) as Hok'.
  eexists. split_and!; [|exact Hok'|].
  - unfold uthread_setpr. mrun1. rewrite Hr.
    erewrite bind_ok by (apply slot_ok; [unfold MAX_UTHREADS in *; lia|by rewrite Nat2Z.id]).
    mrun. reflexivity.
  - intros fuel start Hst. apply (next_loop_diverges _ al); [exact Hok'|done|].
    apply Forall_lookup_2. intros j q Hj. ut_simpl. unfold picks. ut_simpl.
    destruct (Z.eqb_spec q 0) as [->|Hq]; [done|]. simpl.
    destruct (uo_thread _ _ Hok _ _ Hj Hq) as (u & Hu & Htu & _).
    destruct (uo_thread _ _ Hok _ _ Hi Hp) as (t' & Ht' & Htt & _).
    destruct (decide (j = i)) as [->|Hne].
    + assert (q = p) as -> by congruence. rewrite lookup_insert_eq. simpl. by apply Z.eqb_neq.
    + rewrite lookup_insert_ne by (intros <-; simplify_eq; lia). rewrite Hu. apply Z.eqb_neq. by eapply Hoth.
Qed.
End Start.

(** ** Properties *)

(** [uthread_create], from any state it can be called in, returns; its
    result is one of: the table is full and nothing changes; no memory for the
    thread object and the table is unchanged; no memory for the stack, in which
    case -1 is returned but the slot keeps the address of the freed object; or
    the first null slot holds a fresh thread with its stack, entry function and
    priority, the count and the highest priority are updated, and the table
    invariant holds with two more live blocks. *)
Theorem uthread_create_correct {H} `{Allocator H} (s : ut H) al f prio :
  ut_pre s al ->
  exists r s', uthread_create f prio s = Ok r s' /\ create_result (ready s) al f prio r s'.
Proof. intros Hp. rewrite (create_ready s al f prio Hp). by apply create_step, ready_ok. Qed.

(** C28: round robin is fair: from a running thread, every live thread [x] gets
    the processor within as many yields as there are live threads, whatever the
    stack registers of the threads that yield; and the yields never fail. *)
Theorem uthread_yield_fair {H} `{Allocator H} (s : ut H) al (x : nat) :
  ut_ok s al -> running_tid (ut_table s) <> -1 -> x ∈ live_tids s ->
  exists n, (1 <= n <= length (live_tids s))%nat /\
    (exists s', turns n s s') /\
    forall s', turns n s s' -> ut_ok s' al /\ running_tid (ut_table s') = Z.of_nat x.
Proof.
  intros Hok Hr Hx. destruct (round_reaches s al x Hok Hr Hx) as (n & Hn & Hall).
  destruct (running_kth s al Hok Hr) as (k & Hk).
  exists n. split; [done|]. split; [by eapply turns_exist|].
  intros s' Ht. split; [by eapply turns_kth|auto].
Qed.

(** Context switches lose nothing: when a thread yields and every other
    live thread then takes its turn, the thread runs again with the stack
    pointer and the frame pointer it had. *)
Theorem uthread_yield_resumes {H} `{Allocator H} (s : ut H) al c s1 s' :
  ut_ok s al -> running_tid (ut_table s) <> -1 -> uthread_yield ROUND_ROBIN s = Ok c s1 ->
  turns (length (live_tids s) - 1) s1 s' ->
  running_tid (ut_table s') = running_tid (ut_table s) /\ esp s' = esp s /\ ebp s' = ebp s.
Proof. apply yield_resumes. Qed.

(** [uthread_exit] frees the thread's stack and object and clears its slot;
    the last thread ends the process, otherwise control passes to the next live
    thread of the table (round robin) or to one of the best priority among the
    remaining threads (priority based, priorities at most 9), and the invariant
    holds without the two blocks. *)
Theorem uthread_exit_correct {H} `{Allocator H} (s : ut H) al sched i p t :
  ut_ok s al -> running_tid (ut_table s) = Z.of_nat i -> threads (ut_table s) !! i = Some p ->
  p <> 0 -> thread_at s al i p t ->
  (sched = PRIORITY_BASED ->
   forall k r u, threads (ut_table s) !! k = Some r -> r <> 0 -> objs s !! r = Some u -> priority u <= 9) ->
  exit_result sched s al i p t (uthread_exit sched s).
Proof. apply exit_step. Qed.

(** [uthread_start_all] refuses, changing nothing, when no thread exists or
    threads already run; otherwise it enters the lowest live tid through
    [wrap_function] on that thread's own stack. *)
Theorem uthread_start_all_correct {H} `{Allocator H} (s : ut H) al :
  ut_ok s al ->
  ((cur_threads (ut_table s) = 0 \/ running_tid (ut_table s) <> -1) /\
   uthread_start_all ROUND_ROBIN s = Ok (inl (-1)) s) \/
  exists i q u s', head (live_tids s) = Some i /\ threads (ut_table s) !! i = Some q /\ thread_at s al i q u /\
    uthread_start_all ROUND_ROBIN s = Ok (inr (Wrap (entryfunc u))) s' /\ ut_ok s' al /\
    running_tid (ut_table s') = Z.of_nat i /\ esp s' = ss_esp u - 8 /\ ebp s' = ss_ebp u.
Proof.
  intros Hok. destruct (decide (cur_threads (ut_table s) = 0)) as [Hc|Hc].
  - left. split; [by left|]. unfold uthread_start_all. mrun1. by rewrite (uo_first _ _ Hok), Hc.
  - destruct (decide (running_tid (ut_table s) = -1)) as [Hr|Hr].
    + right. destruct (live_tids_nonempty s al Hok Hc) as (i & Hi). exists i.
      destruct (start_step s al i Hok Hr Hi) as (q & u & s' & ?). by exists q, u, s'.
    + left. split; [by right|]. unfold uthread_start_all. mrun1. rewrite (uo_first _ _ Hok).
      change (truth 0) with false. cbn iota.
      by rewrite (proj2 (Z.eqb_neq _ _) Hc), (proj2 (Z.eqb_neq _ _) Hr).
Qed.

(** [uthread_setpr] does not update [highest_p]: with priority-based
    scheduling, when the running thread is the only one at the highest priority
    and gives itself another one, the search of [next_thread] never ends. *)
Theorem uthread_setpr_starves {H} `{Allocator H} (s : ut H) al prio i p t :
  ut_ok s al -> running_tid (ut_table s) = Z.of_nat i -> threads (ut_table s) !! i = Some p -> p <> 0 ->
  objs s !! p = Some t -> prio <> highest_p (ut_table s) ->
  (forall j q u, j <> i -> threads (ut_table s) !! j = Some q -> q <> 0 -> objs s !! q = Some u ->
     priority u <> highest_p (ut_table s)) ->
  exists s', uthread_setpr prio s = Ok (priority t) s' /\ ut_ok s' al /\
    forall fuel start, 0 <= start < MAX_UTHREADS ->
      next_thread_loop fuel PRIORITY_BASED start s' = Stop SFuel s'.
Proof. apply setpr_starves. Qed.

(** ** Witnesses, over the heap of umalloc.c *)

Definition ut0 (limit : Z) : ut heap := mkUt 1 (mkTable 0 0 [] 0) ∅ (heap0 1000 4096 limit) 0 0 0 0 0.

Lemma ut0_pre limit : 4096 <= limit < 2 ^ 31 -> ut_pre (ut0 limit) ∅.
Proof.
  intros Hl. left. split; [done|]. exists ∅, 0. split.
  - left. split_and!; [|done..]. unfold fresh. simpl. lia.
  - split; [intros r; by rewrite !lookup_empty|apply map_Forall_empty].
Qed.

(** Failed creations leak table slots: with memory for eight threads only,
    the ninth creation and the 55 after it return -1 and each leaves a dangling
    pointer in the table, and the 65th call indexes [ut_table.threads] out of
    bounds although eight threads exist. *)
Theorem uthread_create_overruns_table :
  exists s, mfor (seq 0 64) (fun _ => uthread_create 100 3;; mret tt) (ut0 40000) = Ok tt s /\
    cur_threads (ut_table s) = 8 /\ Forall (fun p => p <> 0) (threads (ut_table s)) /\
    exists s', uthread_create 100 3 s = Stop (SUndef "ut_table.threads index") s'.
Proof.
  eexists. split; [vm_compute; reflexivity|]. split; [reflexivity|]. split.
  - apply (bool_decide_unpack _). vm_compute. reflexivity.
  - eexists. vm_compute. reflexivity.
Qed.

(** Two threads created and started, at priorities 3 and 5. *)
Definition demo : M (ut heap) (Z + control) :=
  uthread_create 100 3;; uthread_create 200 5;; uthread_start_all ROUND_ROBIN.

(** Replace a closed run in [E] by its value. *)
Ltac eval_run E :=
  match type of E with
  | ?m = _ => let v := eval vm_compute in m in
              let V := fresh in assert (V : m = v) by (vm_compute; reflexivity); rewrite V in E; clear V
  end.

Lemma demo_ok :
  exists al s, demo (ut0 1000000) = Ok (inr (Wrap 100)) s /\ ut_ok s al.
Proof.
  pose proof (ready_ok _ _ (ut0_pre 1000000 ltac:(lia))) as H0.
  destruct (create_step _ _ 100 3 H0) as (r1 & s1 & E1 & R1). eval_run E1.
  destruct R1 as [?|s1 _ _ _|s1 ? ? _ _ _ _|s1 i1 p1 sp1 _ _ _ H1]; [done..|].
  injection E1 as Ei1 <-. destruct (create_step _ _ 200 5 H1) as (r2 & s2 & E2 & R2). eval_run E2.
  destruct R2 as [?|s2 _ _ _|s2 ? ? _ _ _ _|s2 i2 p2 sp2 _ _ _ H2]; [done..|].
  injection E2 as Ei2 <-.
  destruct (start_step _ _ 0%nat H2 eq_refl eq_refl) as (q & u & s3 & _ & _ & E3 & H3 & _). eval_run E3.
  injection E3 as _ <-. eexists _, _. split; [|exact H3]. vm_compute. reflexivity.
Qed.

Lemma uthread_create_correct_witness :
  exists s', uthread_create 100 3 (ut0 1000000) = Ok 0 s' /\
    create_result (ready (ut0 1000000)) ∅ 100 3 0 s'.
Proof.
  destruct (uthread_create_correct (ut0 1000000) ∅ 100 3 (ut0_pre 1000000 ltac:(lia))) as (r & s' & E & R).
  exists s'. assert (r = 0) as -> by (eval_run E; congruence).
  split; [exact E|exact R].
Defined.

Lemma uthread_yield_fair_witness :
  exists s n s' c, demo (ut0 1000000) = Ok c s /\ running_tid (ut_table s) = 0 /\ (1 <= n <= 2)%nat /\
    turns n s s' /\ running_tid (ut_table s') = 1.
Proof.
  destruct demo_ok as (al & s & E & Hok). pose proof E as E'. eval_run E. injection E as <-.
  destruct (uthread_yield_fair _ al 1%nat Hok) as (n & Hn & [s' Hs'] & Hall); [discriminate|vm_compute; right; left|].
  eexists _, n, s', _. split; [exact E'|]. split; [reflexivity|]. split; [exact Hn|]. split; [exact Hs'|].
  exact (proj2 (Hall s' Hs')).
Defined.

Lemma uthread_yield_resumes_witness :
  exists s s1 s' c, (demo (ut0 1000000) = Ok (inr (Wrap 100)) s /\ uthread_yield ROUND_ROBIN s = Ok c s1) /\
    turns 1 s1 s' /\ esp s' = esp s /\ ebp s' = ebp s.
Proof.
  destruct demo_ok as (al & s & E & Hok). pose proof E as E'. eval_run E. injection E as Es.
  assert (Hy : exists c s1, uthread_yield ROUND_ROBIN s = Ok c s1 /\ exists s', turns 1 s1 s' /\
            running_tid (ut_table s) = 0 /\ length (live_tids s) = 2%nat).
  { rewrite <- Es. eexists _, _. split; [vm_compute; reflexivity|]. eexists. split; [|split; reflexivity].
    eapply (turns_S 0 _ _ 7 8); [constructor|vm_compute; reflexivity]. }
  destruct Hy as (c & s1 & Hy & s' & Ht & Hr & Hlen).
  destruct (uthread_yield_resumes s al c s1 s' Hok) as (_ & H1 & H2); [rewrite Hr; discriminate|exact Hy|rewrite Hlen; exact Ht|].
  exists s, s1, s', c. split; [split; [exact E'|exact Hy]|]. split; [exact Ht|]. split; [exact H1|exact H2].
Defined.

Lemma uthread_exit_correct_witness :
  exists s al p t, demo (ut0 1000000) = Ok (inr (Wrap 100)) s /\
    exit_result ROUND_ROBIN s al 0 p t (uthread_exit ROUND_ROBIN s).
Proof.
  destruct demo_ok as (al & s & E & Hok). pose proof E as E'. eval_run E. injection E as Es.
  assert (Hr : running_tid (ut_table s) = 0) by (rewrite <- Es; reflexivity).
  assert (Hp : exists p, threads (ut_table s) !! 0%nat = Some p /\ p <> 0) by (rewrite <- Es; eexists; split; [reflexivity|done]).
  destruct Hp as (p & Hp & Hp0). destruct (uo_thread _ _ Hok _ _ Hp Hp0) as (t & Ht).
  exists s, al, p, t. split; [exact E'|].
  apply (uthread_exit_correct s al ROUND_ROBIN 0 p t Hok Hr Hp Hp0 Ht). discriminate.
Defined.

Lemma uthread_start_all_correct_witness :
  exists s al, demo (ut0 1000000) = Ok (inr (Wrap 100)) s /\ ut_ok s al /\
    uthread_start_all ROUND_ROBIN s = Ok (inl (-1)) s.
Proof.
  destruct demo_ok as (al & s & E & Hok). exists s, al. split; [exact E|]. split; [exact Hok|].
  destruct (uthread_start_all_correct s al Hok) as [[_ Hs]|(i & q & u & s' & _ & _ & _ & Hs & _)]; [exact Hs|].
  eval_run E. injection E as <-. vm_compute in Hs. discriminate.
Defined.

Lemma uthread_setpr_starves_witness :
  exists s s', demo (ut0 1000000) = Ok (inr (Wrap 100)) s /\ uthread_setpr 7 s = Ok 3 s' /\
    next_thread PRIORITY_BASED 0 s' = Stop SFuel s'.
Proof.
  destruct demo_ok as (al & s & E & Hok). pose proof E as E'. eval_run E. injection E as Es.
  assert (Hp : exists p t, threads (ut_table s) !! 0%nat = Some p /\ p <> 0 /\ objs s !! p = Some t /\ priority t = 3).
  { rewrite <- Es. eexists _, _. split; [reflexivity|]. split; [done|]. split; reflexivity. }
  destruct Hp as (p & t & Hp & Hp0 & Ht & Hpr).
  assert (Ho : Forall (fun q => from_option (fun u => negb (priority u =? highest_p (ut_table s))) (q =? 0) (objs s !! q) = true)
                 (drop 1 (threads (ut_table s)))) by (rewrite <- Es; vm_compute; repeat constructor).
  destruct (uthread_setpr_starves s al 7 0 p t Hok) as (s' & Hs' & _ & Hd);
    [rewrite <- Es; reflexivity|exact Hp|exact Hp0|exact Ht|rewrite <- Es; discriminate| |].
  - clear E' Es. intros j q u Hj Hq Hq0 Hu. rewrite Forall_lookup in Ho.
    specialize (Ho (j - 1)%nat q). rewrite lookup_drop, Nat.add_comm, Nat.sub_add, Hu in Ho by lia.
    apply Z.eqb_neq, negb_true_iff, (Ho Hq).
  - exists s, s'. rewrite Hpr in Hs'. split; [exact E'|]. split; [exact Hs'|].
    apply Hd. unfold MAX_UTHREADS. lia.
Defined.
