(* ===== verification/Str.v ===== *)
(** * string.c: the kernel's memory and string routines

    Memory is a function from byte addresses to bytes (0 to 255).  A routine
    that only reads its argument takes it as a C string, a function from
    offsets to bytes: [at_ m a] is the string at address [a] of memory [m],
    [of_list l] an array.  Objects do not wrap around the address space.
    strlen has no bound of its own and takes fuel. *)

From S2P Require Import Prelude.

Definition mem := Z -> Z.
Definition sto (m : mem) (a v : Z) : mem := fun x => if x =? a then v else m x.
Definition cstr := nat -> Z.
Definition at_ (m : mem) (a : Z) : cstr := fun i => m (a + Z.of_nat i).
Definition of_list (l : list Z) : cstr := fun i => nth i l 0.

(** The [n] bytes of memory at [a]. *)
Definition bytes (m : mem) (a : Z) (n : nat) : list Z := map (at_ m a) (seq 0 n).

(** The bytes [l] are at [a]. *)
Definition lies_at (m : mem) (a : Z) (l : list Z) : Prop := bytes m a (length l) = l.

(** Bytes that come from outside of the memory. *)
Fixpoint put_bytes (m : mem) (a : Z) (l : list Z) : mem :=
  match l with [] => m | b :: l => put_bytes (sto m a b) (a + 1) l end.

(** rep stosb and rep stosl of x86.h. *)
Fixpoint stosb (m : mem) (a c : Z) (cnt : nat) : mem :=
  match cnt with
  | O => m
  | S cnt => stosb (sto m a (u8 c)) (a + 1) c cnt
  end.
Definition store32 (m : mem) (a w : Z) : mem :=
  sto (sto (sto (sto m a (u8 w)) (a + 1) (u8 (Z.shiftr w 8))) (a + 2) (u8 (Z.shiftr w 16))) (a + 3) (u8 (Z.shiftr w 24)).
Fixpoint stosl (m : mem) (a w : Z) (cnt : nat) : mem :=
  match cnt with
  | O => m
  | S cnt => stosl (store32 m a w) (a + 4) w cnt
  end.

Definition memset (m : mem) (dst c n : Z) : mem :=
  if (Z.rem (i32 dst) 4 =? 0) && (n mod 4 =? 0) then
    let c := Z.land c 255 in
    stosl m dst (Z.lor (Z.lor (Z.lor (Z.shiftl c 24) (Z.shiftl c 16)) (Z.shiftl c 8)) c) (Z.to_nat (n / 4))
  else stosb m dst c (Z.to_nat n).

Fixpoint memcmp (s1 s2 : cstr) (n : nat) : Z :=
  match n with
  | O => 0
  | S n => if negb (s1 O =? s2 O) then s1 O - s2 O
           else memcmp (fun i => s1 (S i)) (fun i => s2 (S i)) n
  end.

(** [while(n-- > 0) *d++ = *s++] and [while(n-- > 0) *--d = *--s]. *)
Fixpoint copy_up (m : mem) (d s : Z) (n : nat) : mem :=
  match n with
  | O => m
  | S n => copy_up (sto m d (m s)) (d + 1) (s + 1) n
  end.
Fixpoint copy_down (m : mem) (d s : Z) (n : nat) : mem :=
  match n with
  | O => m
  | S n => copy_down (sto m (d - 1) (m (s - 1))) (d - 1) (s - 1) n
  end.

Definition memmove (m : mem) (dst src n : Z) : mem :=
  if (src <? dst) && (dst <? src + n) then copy_down m (dst + n) (src + n) (Z.to_nat n)
  else copy_up m dst src (Z.to_nat n).

Fixpoint strncmp (p q : cstr) (n : nat) : Z :=
  match n with
  | O => 0
  | S n => if truth (p O) && (p O =? q O) then strncmp (fun i => p (S i)) (fun i => q (S i)) n
           else u8 (p O) - u8 (q O)
  end.

(** The two loops of [strncpy]; [n] iterations are left. *)
Fixpoint strncpy (m : mem) (s t : Z) (n : nat) : mem :=
  match n with
  | O => m
  | S n => let m' := sto m s (m t) in
           if truth (m t) then strncpy m' (s + 1) (t + 1) n else stosb m' (s + 1) 0 n
  end.

(** The loop of [safestrcpy], [n] being the value of [--n], and the final
    store. *)
Fixpoint safestrcpy_loop (m : mem) (s t : Z) (n : nat) : mem :=
  match n with
  | O => sto m s 0
  | S n => let m' := sto m s (m t) in
           if truth (m t) then safestrcpy_loop m' (s + 1) (t + 1) n else sto m' (s + 1) 0
  end.
Definition safestrcpy (m : mem) (s t n : Z) : mem :=
  if n <=? 0 then m else safestrcpy_loop m s t (Z.to_nat (n - 1)).

Fixpoint strlen (fuel : nat) (s : cstr) : option Z :=
  match fuel with
  | O => None
  | S fuel => if truth (s O) then (fun n => n + 1) <$> strlen fuel (fun i => s (S i)) else Some 0
  end.

(** ** Characterisations *)

Definition is_byte (x : Z) : Prop := 0 <= x < 256.

Lemma u8_id x : is_byte x -> u8 x = x.
Proof. intros. by apply Z.mod_small. Qed.

Lemma u8_byte x : is_byte (u8 x).
Proof. unfold is_byte, u8. apply Z.mod_pos_bound. lia. Qed.

Lemma stosb_spec m a c cnt x :
  stosb m a c cnt x = if (a <=? x) && (x <? a + Z.of_nat cnt) then u8 c else m x.
Proof.
  revert m a. induction cnt as [|cnt IH]; intros m a; cbn [stosb].
  - destruct (Z.leb_spec a x), (Z.ltb_spec x (a + Z.of_nat 0)); simpl; done || lia.
  - rewrite IH. unfold sto.
    destruct (Z.leb_spec (a + 1) x), (Z.ltb_spec x (a + 1 + Z.of_nat cnt)), (Z.leb_spec a x),
      (Z.ltb_spec x (a + Z.of_nat (S cnt))), (Z.eqb_spec x a); simpl; done || lia.
Qed.

Lemma stosl_spec m a w cnt c x :
  u8 w = c -> u8 (Z.shiftr w 8) = c -> u8 (Z.shiftr w 16) = c -> u8 (Z.shiftr w 24) = c ->
  stosl m a w cnt x = if (a <=? x) && (x <? a + 4 * Z.of_nat cnt) then c else m x.
Proof.
  intros E0 E1 E2 E3. revert m a. induction cnt as [|cnt IH]; intros m a; cbn [stosl].
  - destruct (Z.leb_spec a x), (Z.ltb_spec x (a + 4 * Z.of_nat 0)); simpl; done || lia.
  - rewrite IH. unfold store32, sto. rewrite E0, E1, E2, E3.
    destruct (Z.leb_spec (a + 4) x), (Z.ltb_spec x (a + 4 + 4 * Z.of_nat cnt)), (Z.leb_spec a x),
      (Z.ltb_spec x (a + 4 * Z.of_nat (S cnt))), (Z.eqb_spec x (a + 3)), (Z.eqb_spec x (a + 2)),
      (Z.eqb_spec x (a + 1)), (Z.eqb_spec x a); simpl; done || lia.
Qed.

Lemma land_255 c : Z.land c 255 = u8 c.
Proof. change 255 with (Z.ones 8). by rewrite Z.land_ones by lia. Qed.

Lemma bytes_S m a n : bytes m a (S n) = m a :: bytes m (a + 1) n.
Proof.
  unfold bytes. cbn. f_equal; [unfold at_; f_equal; lia|]. rewrite <- seq_shift, map_map. apply map_ext. intros i. unfold at_. f_equal. lia.
Qed.
Lemma lies_cons m a x l : lies_at m a (x :: l) <-> m a = x /\ lies_at m (a + 1) l.
Proof. unfold lies_at. cbn [length]. rewrite bytes_S. split; [by intros [= ? ?]|by intros [-> ->]]. Qed.
Lemma lies_app m a l l' : lies_at m a (l ++ l') <-> lies_at m a l /\ lies_at m (a + Z.of_nat (length l)) l'.
Proof.
  revert a. induction l as [|x l IH]; intros a; cbn [app length].
  - rewrite Z.add_0_r. unfold lies_at at 2. naive_solver.
  - rewrite !lies_cons, IH. replace (a + 1 + Z.of_nat (length l)) with (a + Z.of_nat (S (length l))) by lia. naive_solver.
Qed.

Lemma lies_ext m m' a l : (forall x, a <= x < a + Z.of_nat (length l) -> m' x = m x) -> lies_at m a l -> lies_at m' a l.
Proof. intros H Hl. unfold lies_at in *. rewrite <- Hl at 2. unfold bytes. apply list_fmap_ext. intros i j Hj%lookup_seq. apply H. lia. Qed.

Lemma put_bytes_spec l m a x : put_bytes m a l x = if (a <=? x) && (x <? a + Z.of_nat (length l)) then nth (Z.to_nat (x - a)) l 0 else m x.
Proof.
  revert m a. induction l as [|b l IH]; intros m a; cbn [put_bytes length].
  - destruct (Z.leb_spec a x), (Z.ltb_spec x (a + Z.of_nat 0)); simpl; done || lia.
  - rewrite IH. unfold sto. destruct (Z.leb_spec (a + 1) x), (Z.ltb_spec x (a + 1 + Z.of_nat (length l))), (Z.leb_spec a x),
      (Z.ltb_spec x (a + Z.of_nat (S (length l)))), (Z.eqb_spec x a); simpl; try done; try lia.
    + replace (Z.to_nat (x - a)) with (S (Z.to_nat (x - (a + 1)))) by lia. done.
    + by replace (Z.to_nat (x - a)) with 0%nat by lia.
Qed.
Lemma put_bytes_out m a l x : x < a \/ a + Z.of_nat (length l) <= x -> put_bytes m a l x = m x.
Proof. intros H. rewrite put_bytes_spec. destruct (Z.leb_spec a x), (Z.ltb_spec x (a + Z.of_nat (length l))); try done. lia. Qed.
Lemma put_bytes_app m a l l' : put_bytes m a (l ++ l') = put_bytes (put_bytes m a l) (a + Z.of_nat (length l)) l'.
Proof. revert m a. induction l as [|b l IH]; intros m a; cbn [app put_bytes length]; [by rewrite Z.add_0_r|]. rewrite IH. f_equal. lia. Qed.
Lemma put_bytes_lies m a l : lies_at (put_bytes m a l) a l.
Proof.
  unfold lies_at, bytes. apply list_eq. intros i. rewrite list_lookup_fmap. destruct (decide (i < length l)%nat) as [Hi|Hi].
  - rewrite lookup_seq_lt by done. cbn. unfold at_. rewrite put_bytes_spec, (proj2 (Z.leb_le _ _)), (proj2 (Z.ltb_lt _ _)) by lia. cbn [andb]. replace (Z.to_nat (a + Z.of_nat i - a)) with i by lia.
    destruct (lookup_lt_is_Some_2 _ _ Hi) as [x Hx]. rewrite Hx. f_equal. by apply nth_lookup_Some.
  - rewrite lookup_seq_ge by lia. cbn. symmetry. apply lookup_ge_None. lia.
Qed.

(** The word memset stores has [c] in each of its bytes. *)
Lemma splat_bytes c (k : Z) :
  is_byte c -> 0 <= k < 4 ->
  u8 (Z.shiftr (Z.lor (Z.lor (Z.lor (Z.shiftl c 24) (Z.shiftl c 16)) (Z.shiftl c 8)) c) (8 * k)) = c.
Proof.
  intros Hc Hk. unfold u8. rewrite <- Z.land_ones by lia.
  apply Z.bits_inj'. intros n Hn. rewrite Z.land_spec, Z.shiftr_spec, !Z.lor_spec, !Z.shiftl_spec by lia.
  assert (Hhi : forall i, 8 <= i -> Z.testbit c i = false).
  { intros i Hi. rewrite <- (Z.mod_small c (2 ^ 8)) by (unfold is_byte in Hc; lia).
    by apply Z.mod_pow2_bits_high. }
  assert (Hneg : forall i, i < 0 -> Z.testbit c i = false) by (intros; by apply Z.testbit_neg_r).
  destruct (decide (n < 8)).
  - rewrite Z.ones_spec_low, andb_true_r by lia.
    assert (Hk' : k = 0 \/ k = 1 \/ k = 2 \/ k = 3) by lia.
    destruct Hk' as [->|[->|[->| ->]]];
      repeat match goal with
      | |- context [Z.testbit c ?i] =>
          first [rewrite (Hneg i) by lia | rewrite (Hhi i) by lia]
      end; rewrite ?orb_false_r, ?orb_false_l; f_equal; lia.
  - rewrite Z.ones_spec_high, andb_false_r by lia. symmetry. apply Hhi. lia.
Qed.

Lemma memset_bytes m dst c n x :
  0 <= n -> memset m dst c n x = if (dst <=? x) && (x <? dst + n) then u8 c else m x.
Proof.
  intros Hn. unfold memset. destruct ((Z.rem (i32 dst) 4 =? 0) && (n mod 4 =? 0)) eqn:E.
  - apply andb_true_iff in E as [_ Hm%Z.eqb_eq]. rewrite land_255. pose proof (u8_byte c) as Hc.
    pose proof (splat_bytes (u8 c) 0 Hc ltac:(lia)) as H0. pose proof (splat_bytes (u8 c) 1 Hc ltac:(lia)) as H1.
    pose proof (splat_bytes (u8 c) 2 Hc ltac:(lia)) as H2. pose proof (splat_bytes (u8 c) 3 Hc ltac:(lia)) as H3.
    rewrite Z.shiftr_0_r in H0. cbn zeta. erewrite stosl_spec by eassumption.
    rewrite Z2Nat.id by (apply Z.div_pos; lia). by rewrite <- Z_div_exact_2 by lia.
  - rewrite stosb_spec, Z2Nat.id by done. done.
Qed.

(** A copy upwards is faithful unless the destination starts inside the source. *)
Lemma copy_up_spec m d s n x :
  d <= s \/ s + Z.of_nat n <= d ->
  copy_up m d s n x = if (d <=? x) && (x <? d + Z.of_nat n) then m (s + (x - d)) else m x.
Proof.
  revert m d s. induction n as [|n IH]; intros m d s Hds; cbn [copy_up].
  - destruct (Z.leb_spec d x), (Z.ltb_spec x (d + Z.of_nat 0)); simpl; done || lia.
  - rewrite IH by lia. unfold sto.
    destruct (Z.leb_spec (d + 1) x), (Z.ltb_spec x (d + 1 + Z.of_nat n)), (Z.leb_spec d x),
      (Z.ltb_spec x (d + Z.of_nat (S n))); simpl; try lia.
    + destruct (Z.eqb_spec (s + 1 + (x - (d + 1))) d); [lia|f_equal; lia].
    + destruct (Z.eqb_spec x d); [lia|done].
    + destruct (Z.eqb_spec x d); [f_equal; lia|lia].
    + destruct (Z.eqb_spec x d); [lia|done].
Qed.

Lemma copy_down_spec m d s n x :
  s <= d \/ d <= s - Z.of_nat n ->
  copy_down m d s n x = if (d - Z.of_nat n <=? x) && (x <? d) then m (s + (x - d)) else m x.
Proof.
  revert m d s. induction n as [|n IH]; intros m d s Hds; cbn [copy_down].
  - destruct (Z.leb_spec (d - Z.of_nat 0) x), (Z.ltb_spec x d); simpl; done || lia.
  - rewrite IH by lia. unfold sto.
    destruct (Z.leb_spec (d - 1 - Z.of_nat n) x), (Z.ltb_spec x (d - 1)), (Z.leb_spec (d - Z.of_nat (S n)) x),
      (Z.ltb_spec x d); simpl; try lia.
    + destruct (Z.eqb_spec (s - 1 + (x - (d - 1))) (d - 1)); [lia|f_equal; lia].
    + destruct (Z.eqb_spec x (d - 1)); [f_equal; lia|lia].
    + destruct (Z.eqb_spec x (d - 1)); [lia|done].
    + destruct (Z.eqb_spec x (d - 1)); [lia|done].
Qed.

Lemma memmove_bytes m dst src n x :
  0 <= n -> memmove m dst src n x = if (dst <=? x) && (x <? dst + n) then m (src + (x - dst)) else m x.
Proof.
  intros Hn. unfold memmove. destruct ((src <? dst) && (dst <? src + n)) eqn:E.
  - apply andb_true_iff in E as [H1%Z.ltb_lt H2%Z.ltb_lt]. rewrite copy_down_spec by lia.
    rewrite Z2Nat.id by done. replace (dst + n - n) with dst by lia. destruct (_ && _); [f_equal; lia|done].
  - apply andb_false_iff in E. rewrite Z.ltb_ge, Z.ltb_ge in E. rewrite copy_up_spec by lia.
    by rewrite Z2Nat.id by done.
Qed.

(** Two strings agree on their first [n] bytes, up to and including the NUL. *)
Fixpoint agree (p q : cstr) (n : nat) : Prop :=
  match n with
  | O => True
  | S n => p O = q O /\ (p O <> 0 -> agree (fun i => p (S i)) (fun i => q (S i)) n)
  end.

Lemma memcmp_zero s1 s2 n : memcmp s1 s2 n = 0 <-> forall i, (i < n)%nat -> s1 i = s2 i.
Proof.
  revert s1 s2. induction n as [|n IH]; intros s1 s2; cbn [memcmp].
  - split; [lia|done].
  - destruct (Z.eqb_spec (s1 O) (s2 O)) as [E|E]; simpl.
    + rewrite IH. split.
      * intros Hall [|i] Hi; [done|]. apply Hall. lia.
      * intros Hall i Hi. apply Hall. lia.
    + split; [lia|]. intros Hall. exfalso. apply E, Hall. lia.
Qed.

Lemma strncmp_agree p q n :
  (forall i, is_byte (p i)) -> (forall i, is_byte (q i)) -> strncmp p q n = 0 <-> agree p q n.
Proof.
  revert p q. induction n as [|n IH]; intros p q Hp Hq; cbn [strncmp agree]; [done|].
  unfold truth. destruct (Z.eqb_spec (p O) 0) as [E0|E0]; simpl.
  - rewrite !u8_id by done. split; [intros; split; [lia|done]|intros []; lia].
  - destruct (Z.eqb_spec (p O) (q O)) as [E|E].
    + rewrite IH by done. split; [done|]. intros []; auto.
    + rewrite !u8_id by done. split; [lia|intros [? _]; done].
Qed.

Lemma strncmp_ext p p' q q' n :
  (forall i, (i < n)%nat -> p i = p' i) -> (forall i, (i < n)%nat -> q i = q' i) ->
  strncmp p q n = strncmp p' q' n.
Proof.
  revert p p' q q'. induction n as [|n IH]; intros p p' q q' Hp Hq; cbn [strncmp]; [done|].
  rewrite (Hp O), (Hq O) by lia. destruct (_ && _); [|done].
  apply IH; intros i Hi; [apply Hp|apply Hq]; lia.
Qed.

(** The first byte on which the strings differ decides, as an unsigned value. *)
Lemma strncmp_first p q n k :
  (forall i, is_byte (p i)) -> (forall i, is_byte (q i)) -> (k < n)%nat ->
  (forall i, (i < k)%nat -> p i = q i /\ p i <> 0) -> p k <> q k -> strncmp p q n = p k - q k.
Proof.
  revert p q k. induction n as [|n IH]; intros p q k Hp Hq Hk Hlt Hne; [lia|]. cbn [strncmp].
  destruct k as [|k].
  - rewrite (proj2 (Z.eqb_neq _ _) Hne), andb_false_r. by rewrite !u8_id.
  - destruct (Hlt O ltac:(lia)) as [E E0]. unfold truth. rewrite (proj2 (Z.eqb_neq _ _) E0), E, Z.eqb_refl. simpl.
    apply (IH (fun i => p (S i)) (fun i => q (S i)) k); auto; [lia|]. intros i Hi. apply Hlt. lia.
Qed.

(** The bytes strncpy leaves: the string, then zeros. *)
Fixpoint strncpy_bytes (t : cstr) (n : nat) : list Z :=
  match n with
  | O => []
  | S n => if truth (t O) then t O :: strncpy_bytes (fun i => t (S i)) n else replicate (S n) 0
  end.

Lemma strncpy_bytes_length t n : length (strncpy_bytes t n) = n.
Proof.
  revert t. induction n as [|n IH]; intros t; cbn [strncpy_bytes]; [done|].
  destruct (truth (t O)); simpl; [by rewrite IH|by rewrite length_replicate].
Qed.

Lemma strncpy_bytes_ext t t' n : (forall i, (i < n)%nat -> t i = t' i) -> strncpy_bytes t n = strncpy_bytes t' n.
Proof.
  revert t t'. induction n as [|n IH]; intros t t' E; cbn [strncpy_bytes]; [done|].
  rewrite (E O) by lia. destruct (truth (t' O)); [|done]. f_equal. apply IH. intros i Hi. apply E. lia.
Qed.

(** With disjoint source and destination. *)
Lemma strncpy_spec m s t n x :
  s + Z.of_nat n <= t \/ t + Z.of_nat n <= s ->
  strncpy m s t n x =
  if (s <=? x) && (x <? s + Z.of_nat n) then nth (Z.to_nat (x - s)) (strncpy_bytes (at_ m t) n) 0 else m x.
Proof.
  revert m s t. induction n as [|n IH]; intros m s t Hd; cbn [strncpy strncpy_bytes].
  - destruct (Z.leb_spec s x), (Z.ltb_spec x (s + Z.of_nat 0)); simpl; done || lia.
  - unfold at_ at 1. rewrite Z.add_0_r. cbn zeta. destruct (truth (m t)) eqn:Et.
    + rewrite IH by lia.
      assert (E : strncpy_bytes (at_ (sto m s (m t)) (t + 1)) n = strncpy_bytes (fun i => at_ m t (S i)) n).
      { apply strncpy_bytes_ext. intros i Hi. unfold at_, sto. destruct (Z.eqb_spec (t + 1 + Z.of_nat i) s); [lia|].
        f_equal. lia. }
      rewrite E. unfold sto.
      destruct (Z.leb_spec (s + 1) x), (Z.ltb_spec x (s + 1 + Z.of_nat n)), (Z.leb_spec s x),
        (Z.ltb_spec x (s + Z.of_nat (S n))), (Z.eqb_spec x s); simpl; try lia; try done.
      * replace (Z.to_nat (x - s)) with (S (Z.to_nat (x - (s + 1)))) by lia. done.
      * replace (Z.to_nat (x - s)) with O by lia. unfold at_. by rewrite Z.add_0_r.
    + rewrite stosb_spec. unfold sto. unfold truth in Et. apply negb_false_iff, Z.eqb_eq in Et.
      assert (Hz : forall k, nth k (replicate (S n) 0) 0 = 0).
      { intros k. generalize (S n) as l. intros l. revert k. induction l as [|l IHl]; intros [|k]; simpl; auto. }
      rewrite Hz.
      destruct (Z.leb_spec (s + 1) x), (Z.ltb_spec x (s + 1 + Z.of_nat n)), (Z.leb_spec s x),
        (Z.ltb_spec x (s + Z.of_nat (S n))), (Z.eqb_spec x s); simpl; try lia; try done.
Qed.

(** The [k] bytes of a string before its end or the bound [b]. *)
Definition prefix_len (t : cstr) (b k : nat) : Prop :=
  (k <= b)%nat /\ (forall i, (i < k)%nat -> t i <> 0) /\ ((k < b)%nat -> t k = 0).

Lemma prefix_len_cons t b k : t O <> 0 -> prefix_len t (S b) k ->
  exists k', k = S k' /\ prefix_len (fun i => t (S i)) b k'.
Proof.
  intros Ht (Hk & Hne & Hend). destruct k as [|k]; [by destruct Ht; apply Hend; lia|].
  exists k. split; [done|]. split_and!; [lia|intros i Hi; apply Hne; lia|intros Hlt; apply Hend; lia].
Qed.

Lemma safestrcpy_loop_spec m s t b k x :
  s + Z.of_nat b < t \/ t + Z.of_nat b <= s -> prefix_len (at_ m t) b k ->
  safestrcpy_loop m s t b x =
  if (s <=? x) && (x <? s + Z.of_nat k) then m (t + (x - s))
  else if (x =? s + Z.of_nat k) || ((x =? s + Z.of_nat k + 1) && (k <? b)%nat) then 0 else m x.
Proof.
  revert m s t k. induction b as [|b IH]; intros m s t k Hd Hp; cbn [safestrcpy_loop].
  - destruct Hp as (Hk & _). replace k with O by lia. unfold sto.
    destruct (Z.leb_spec s x), (Z.ltb_spec x (s + Z.of_nat 0)), (Z.eqb_spec x s), (Z.eqb_spec x (s + Z.of_nat 0)),
      (Z.eqb_spec x (s + Z.of_nat 0 + 1)); simpl; lia || done.
  - cbn zeta. destruct (truth (m t)) eqn:Et; unfold truth in Et.
    + apply negb_true_iff, Z.eqb_neq in Et.
      assert (Ht0 : at_ m t O = m t) by (unfold at_; f_equal; lia).
      destruct (prefix_len_cons _ _ _ ltac:(by rewrite Ht0) Hp) as (k' & -> & Hp'). pose proof (proj1 Hp') as Hkb.
      assert (Hsame : forall i, (i < b)%nat -> at_ (sto m s (m t)) (t + 1) i = at_ m t (S i)).
      { intros i Hi. unfold at_, sto. destruct (Z.eqb_spec (t + 1 + Z.of_nat i) s); [lia|f_equal; lia]. }
      rewrite (IH _ _ _ k'); [|lia|].
      2:{ destruct Hp' as (H1 & H2 & H3). split_and!; [done| |].
          - intros i Hi. rewrite Hsame by lia. auto.
          - intros Hlt. rewrite Hsame by lia. auto. }
      replace (k' <? b)%nat with (S k' <? S b)%nat by done. unfold sto.
      destruct (Z.leb_spec (s + 1) x), (Z.ltb_spec x (s + 1 + Z.of_nat k')), (Z.leb_spec s x),
        (Z.ltb_spec x (s + Z.of_nat (S k'))); simpl; try lia.
      * destruct (Z.eqb_spec (t + 1 + (x - (s + 1))) s); [lia|f_equal; lia].
      * replace (s + 1 + Z.of_nat k') with (s + Z.of_nat (S k')) by lia.
        destruct (Z.eqb_spec x s); [lia|done].
      * destruct (Z.eqb_spec x (s + 1 + Z.of_nat k')), (Z.eqb_spec x (s + 1 + Z.of_nat k' + 1)); simpl; try lia.
        destruct (Z.eqb_spec x s); [f_equal; lia|lia].
      * replace (s + 1 + Z.of_nat k') with (s + Z.of_nat (S k')) by lia.
        destruct (Z.eqb_spec x s); [lia|done].
    + apply negb_false_iff, Z.eqb_eq in Et. rewrite Et.
      assert (k = O) as ->.
      { destruct k as [|k]; [done|]. destruct Hp as (_ & Hne & _). exfalso. apply (Hne O); [lia|].
        unfold at_. by rewrite Z.add_0_r. }
      rewrite Z.add_0_r. unfold sto. simpl.
      destruct (Z.leb_spec s x), (Z.ltb_spec x s), (Z.eqb_spec x s), (Z.eqb_spec x (s + 1)); simpl; lia || done.
Qed.

Lemma strlen_spec fuel s k :
  (forall i, (i < k)%nat -> s i <> 0) -> s k = 0 -> (k < fuel)%nat -> strlen fuel s = Some (Z.of_nat k).
Proof.
  revert s fuel. induction k as [|k IH]; intros s [|fuel] Hne H0 Hf; try lia; cbn [strlen]; unfold truth.
  - by rewrite H0.
  - rewrite (proj2 (Z.eqb_neq _ _) (Hne O ltac:(lia))). cbn [negb].
    rewrite (IH (fun i => s (S i))); [simpl; f_equal; lia| |done|lia]. intros i Hi. apply Hne. lia.
Qed.

Lemma agree_strncpy p t n : agree p (of_list (strncpy_bytes t n)) n <-> agree p t n.
Proof.
  revert p t. induction n as [|n IH]; intros p t; cbn [agree strncpy_bytes]; [done|].
  destruct (truth (t O)) eqn:Et; unfold truth in Et.
  - split; intros [H1 H2]; (split; [exact H1|]); intros Hp; apply IH; exact (H2 Hp).
  - apply negb_false_iff, Z.eqb_eq in Et. unfold of_list. cbn [nth replicate]. rewrite Et.
    split; intros [H1 _]; split; auto; congruence.
Qed.

Lemma strncpy_bytes_byte t n : (forall i, is_byte (t i)) -> Forall is_byte (strncpy_bytes t n).
Proof.
  revert t. induction n as [|n IH]; intros t Ht; cbn [strncpy_bytes]; [constructor|].
  destruct (truth (t O)); [constructor; auto|]. apply Forall_replicate. unfold is_byte. lia.
Qed.

Lemma of_list_byte l : Forall is_byte l -> forall i, is_byte (of_list l i).
Proof.
  intros Hl i. unfold of_list. revert i. induction Hl as [|x l Hx Hl IH]; intros [|i]; simpl; auto; unfold is_byte; lia.
Qed.

(** A name stored by strncpy is recognised by strncmp. *)
Lemma strncmp_strncpy p t n :
  (forall i, is_byte (p i)) -> (forall i, is_byte (t i)) ->
  strncmp p (of_list (strncpy_bytes t n)) n = 0 <-> agree p t n.
Proof.
  intros Hp Ht. rewrite strncmp_agree, agree_strncpy; [done|done|]. by apply of_list_byte, strncpy_bytes_byte.
Qed.

(** ** Properties *)

(** [memmove] copies the source as it was before the call, whatever the
    overlap of source and destination, and changes nothing else. *)
Theorem memmove_correct m dst src n x :
  0 <= n < 2 ^ 32 ->
  memmove m dst src n x = if (dst <=? x) && (x <? dst + n) then m (src + (x - dst)) else m x.
Proof. intros. apply memmove_bytes. lia. Qed.

Lemma memmove_correct_witness :
  bytes (memmove (of_list [1; 2; 3; 4; 5; 6] ∘ Z.to_nat) 2 0 4) 0 6 = [1; 2; 1; 2; 3; 4] /\
  memmove (of_list [1; 2; 3; 4; 5; 6] ∘ Z.to_nat) 2 0 4 5 = 4.
Proof.
  split; [reflexivity|].
  pose proof (memmove_correct (of_list [1; 2; 3; 4; 5; 6] ∘ Z.to_nat) 2 0 4 5 ltac:(lia)) as E. exact E.
Defined.

(** [memset] writes the low byte of [c] to each of the [n] bytes and
    nothing else, in the word-at-a-time case as in the byte case. *)
Theorem memset_correct m dst c n x :
  0 <= n < 2 ^ 32 ->
  memset m dst c n x = if (dst <=? x) && (x <? dst + n) then u8 c else m x.
Proof. intros. apply memset_bytes. lia. Qed.

Lemma memset_correct_witness :
  bytes (memset (fun _ => 9) 4 258 8) 3 10 = [9; 2; 2; 2; 2; 2; 2; 2; 2; 9] /\
  memset (fun _ => 9) 4 258 8 11 = 2.
Proof.
  split; [reflexivity|]. pose proof (memset_correct (fun _ => 9) 4 258 8 11 ltac:(lia)) as E. exact E.
Defined.

(** [safestrcpy] always leaves a NUL-terminated string: the source up to
    its own end or the first n-1 bytes of it, within the n bytes of the
    destination; the rest of memory is unchanged. *)
Theorem safestrcpy_correct m s t n k :
  0 < n < 2 ^ 31 -> s + n <= t \/ t + n <= s -> prefix_len (at_ m t) (Z.to_nat (n - 1)) k ->
  let m' := safestrcpy m s t n in
  (forall i, (i < k)%nat -> at_ m' s i = at_ m t i) /\ at_ m' s k = 0 /\
  strlen (S k) (at_ m' s) = Some (Z.of_nat k) /\
  forall x, x < s \/ s + n <= x -> m' x = m x.
Proof.
  intros Hn Hd Hp. cbn zeta. unfold safestrcpy. rewrite (proj2 (Z.leb_gt _ _)) by lia.
  pose proof (fun x => safestrcpy_loop_spec m s t (Z.to_nat (n - 1)) k x ltac:(lia) Hp) as E.
  pose proof Hp as (Hk & Hne & _).
  assert (H1 : forall i, (i < k)%nat -> at_ (safestrcpy_loop m s t (Z.to_nat (n - 1))) s i = at_ m t i).
  { intros i Hi. unfold at_ at 1. rewrite E.
    rewrite (proj2 (Z.leb_le _ _)), (proj2 (Z.ltb_lt _ _)) by lia. simpl. unfold at_. f_equal. lia. }
  assert (H2 : at_ (safestrcpy_loop m s t (Z.to_nat (n - 1))) s k = 0).
  { unfold at_. rewrite E, (proj2 (Z.ltb_ge _ _)), andb_false_r, Z.eqb_refl by lia. done. }
  split_and!; [done|done| |].
  - apply strlen_spec; [|done|lia]. intros i Hi. rewrite H1 by done. auto.
  - intros x Hx. rewrite E.
    destruct (Z.leb_spec s x), (Z.ltb_spec x (s + Z.of_nat k)), (Z.eqb_spec x (s + Z.of_nat k)),
      (Z.eqb_spec x (s + Z.of_nat k + 1)), (Nat.ltb_spec k (Z.to_nat (n - 1))); simpl; lia || done.
Qed.

Lemma safestrcpy_correct_witness :
  let m := of_list [0; 0; 0; 0; 0; 0; 0; 0; 104; 101; 108; 108; 111; 0] ∘ Z.to_nat in
  bytes (safestrcpy m 0 8 4) 0 5 = [104; 101; 108; 0; 0] /\ strlen 4 (at_ (safestrcpy m 0 8 4) 0) = Some 3.
Proof.
  intros m. split; [reflexivity|].
  destruct (safestrcpy_correct m 0 8 4 3) as (_ & _ & E & _); [lia|lia| |exact E].
  split_and!; [simpl; lia| |simpl; lia].
  intros i Hi. do 3 (destruct i as [|i]; [discriminate|]). lia.
Defined.

(** The fixed-width name fields of directories: [strncmp] over [n] bytes
    finds a string equal to a field that [strncpy] filled exactly when the two
    strings agree on their first [n] bytes or to their common NUL. *)
Theorem name_field_correct m s t p n :
  (forall x, is_byte (m x)) -> (forall i, is_byte (p i)) ->
  s + Z.of_nat n <= t \/ t + Z.of_nat n <= s ->
  strncmp p (at_ (strncpy m s t n) s) n = 0 <-> agree p (at_ m t) n.
Proof.
  intros Hm Hp Hd.
  assert (Hf : forall i, (i < n)%nat -> at_ (strncpy m s t n) s i = of_list (strncpy_bytes (at_ m t) n) i).
  { intros i Hi. unfold at_ at 1. rewrite strncpy_spec by done.
    rewrite (proj2 (Z.leb_le _ _)), (proj2 (Z.ltb_lt _ _)) by lia. simpl. unfold of_list. f_equal. lia. }
  rewrite (strncmp_ext p p _ (of_list (strncpy_bytes (at_ m t) n)) n) by auto.
  apply strncmp_strncpy; [done|]. intros i. apply Hm.
Qed.

Lemma name_field_correct_witness :
  let m := of_list [7; 7; 7; 7; 97; 98; 0; 9] ∘ Z.to_nat in
  strncmp (of_list [97; 98; 0]) (at_ (strncpy m 0 4 4) 0) 4 = 0.
Proof.
  intros m. apply (name_field_correct m 0 4 (of_list [97; 98; 0]) 4); [| |lia|].
  - intros x. apply of_list_byte. repeat (constructor; [unfold is_byte; lia|]). constructor.
  - apply of_list_byte. repeat (constructor; [unfold is_byte; lia|]). constructor.
  - do 2 (split; [reflexivity|intros _]). split; [reflexivity|intros E; by destruct E].
Defined.
