(* ===== verification/Grep.v ===== *)
(** * grep.c: the pattern matcher and the search for lines

    match, matchhere and matchstar of src/grep.c on C strings, given as the
    bytes before the NUL, and the loop of grep() on its buffer of 1024 bytes.
    A pattern is a sequence of characters and stars between an optional ^ and
    an optional $; [denotes] is what it means.

    grep_loop takes what the calls of read() return; an access outside of the
    buffer is undefined. *)

From S2P Require Import Prelude Str.

Definition CARET : Z := 94.
Definition DOT : Z := 46.
Definition STAR : Z := 42.
Definition DOLLAR : Z := 36.
Definition NL : Z := 10.

(** ** The matcher *)

(** The loop of matchstar, [here] being matchhere on the rest of the pattern. *)
Fixpoint star_loop (here : list Z -> bool) (c : Z) (text : list Z) : bool :=
  here text ||
  match text with
  | [] => false
  | x :: text => ((x =? c) || (c =? DOT)) && star_loop here c text
  end.
Fixpoint matchhere (re text : list Z) {struct re} : bool :=
  match re with
  | [] => true
  | c :: re1 =>
      match re1 with
      | [] =>
          if c =? DOLLAR then bool_decide (text = [])
          else match text with [] => false | x :: text => ((c =? DOT) || (c =? x)) && matchhere re1 text end
      | s :: re2 =>
          if s =? STAR then star_loop (matchhere re2) c text
          else match text with [] => false | x :: text => ((c =? DOT) || (c =? x)) && matchhere re1 text end
      end
  end.
Definition matchstar (c : Z) (re text : list Z) : bool := star_loop (matchhere re) c text.
Fixpoint match_loop (re text : list Z) : bool :=
  matchhere re text || match text with [] => false | _ :: text => match_loop re text end.
Definition match_ (re text : list Z) : bool :=
  match re with
  | c :: re1 => if c =? CARET then matchhere re1 text else match_loop re text
  | [] => match_loop re text
  end.

(** ** grep() *)

Definition BUFSZ : nat := 1024.
(** [strchr(p, '\n')]: [None] when the string ends before. *)
Fixpoint find_nl (fuel : nat) (buf : list Z) (p : nat) : M (list (list Z)) (option nat) :=
  match fuel with
  | O => halt SFuel
  | S fuel =>
      c ← deref "buf[1024]" (buf !! p);
      if c =? 0 then mret None else if c =? NL then mret (Some p) else find_nl fuel buf (S p)
  end.
(** The bytes from [p] to [q]. *)
Definition slice (buf : list Z) (p q : nat) : list Z := take (q - p) (drop p buf).
(** The loop over the lines from [p]: the new buffer and [p]; the state is the
    calls of write(1, ..) so far. *)
Fixpoint lines_loop (fuel : nat) (pattern buf : list Z) (p : nat) : M (list (list Z)) (list Z * nat) :=
  match fuel with
  | O => halt SFuel
  | S fuel =>
      q ← find_nl (S BUFSZ) buf p;
      match q with
      | None => mret (buf, p)
      | Some q =>
          if match_ pattern (slice buf p q)
          then modify (fun out => out ++ [slice buf p (S q)]);; lines_loop fuel pattern buf (S q)
          else lines_loop fuel pattern (<[q := 0]> buf) (S q)
      end
  end.
(** [n] bytes into the buffer at [m]. *)
Definition read_in (buf : list Z) (m : Z) (l : list Z) : M (list (list Z)) (list Z) :=
  if (m <? 0) || (Z.of_nat BUFSZ <? m + Z.of_nat (length l)) then undef "buf" else mret (take (Z.to_nat m) buf ++ l ++ drop (Z.to_nat m + length l) buf).
(** memmove(buf, p, m) of ulib.c. *)
Definition move_down (buf : list Z) (p : nat) (m : Z) : list Z :=
  let n := Z.to_nat m in take n (drop p buf) ++ drop n buf.
(** One turn of the loop of grep, after read() has returned [l]. *)
Definition grep_turn (pattern l buf : list Z) (m : Z) : M (list (list Z)) (list Z * Z) :=
  buf ← read_in buf m l;
  let m := m + Z.of_nat (length l) in
  r ← lines_loop (S BUFSZ) pattern buf 0;
  let (buf, p) := r : list Z * nat in
  let m := if bool_decide (p = 0%nat) then 0 else m in
  if 0 <? m then
    let m := m - Z.of_nat p in
    mret (move_down buf p m, m)
  else mret (buf, m).
Fixpoint grep_loop (pattern : list Z) (reads : list (list Z)) (buf : list Z) (m : Z) : M (list (list Z)) unit :=
  match reads with
  | [] => mret tt
  | l :: reads =>
      if bool_decide (l = []) then mret tt
      else r ← grep_turn pattern l buf m; grep_loop pattern reads r.1 r.2
  end.
(** From the start of the program; the array is zero. *)
Definition grep (pattern : list Z) (reads : list (list Z)) : M (list (list Z)) unit := grep_loop pattern reads (replicate BUFSZ 0) 0.

(** ** What a pattern means *)

Definition fits (c x : Z) : Prop := c = DOT \/ c = x.
Inductive atom : Type := One (c : Z) | Many (c : Z).
(** The texts an atom stands for. *)
Definition denotes1 (a : atom) (l : list Z) : Prop :=
  match a with One c => exists x, l = [x] /\ fits c x | Many c => Forall (fits c) l end.
Fixpoint denotes (re : list atom) (l : list Z) : Prop :=
  match re with [] => l = [] | a :: re => exists l1 l2, l = l1 ++ l2 /\ denotes1 a l1 /\ denotes re l2 end.
(** The atoms of a pattern after ^, and whether $ ends it. *)
Fixpoint atoms (re : list Z) : list atom * bool :=
  match re with
  | [] => ([], false)
  | c :: re1 =>
      match re1 with
      | [] => if c =? DOLLAR then ([], true) else ([One c], false)
      | s :: re2 => if s =? STAR then let (l, d) := atoms re2 in (Many c :: l, d) else let (l, d) := atoms re1 in (One c :: l, d)
      end
  end.

Lemma star_loop_spec here c text : star_loop here c text = true <-> exists l1 l2, text = l1 ++ l2 /\ Forall (fits c) l1 /\ here l2 = true.
Proof.
  induction text as [|x text IH]; cbn [star_loop]; rewrite orb_true_iff.
  - split.
    + intros [H|H]; [|done]. exists [], []. by repeat constructor.
    + intros (l1 & l2 & [-> ->]%eq_sym%app_nil & _ & H). by left.
  - rewrite andb_true_iff, orb_true_iff, !Z.eqb_eq, IH. split.
    + intros [H|(Hx & l1 & l2 & -> & Hf & H)]; [by exists [], (x :: text)|].
      exists (x :: l1), l2. split_and!; try done. constructor; [|done]. unfold fits. naive_solver.
    + intros ([|y l1] & l2 & E & Hf & H); cbn in E; [left; by subst|]. injection E as -> ->. apply Forall_cons in Hf as [Hx Hf].
      right. split; [unfold fits in Hx; naive_solver|by exists l1, l2].
Qed.

(** The text begins with what the pattern means. *)
Definition begins (re text : list Z) : Prop :=
  exists l1 l2, text = l1 ++ l2 /\ denotes (atoms re).1 l1 /\ ((atoms re).2 = true -> l2 = []).
Lemma begins_one c re as_ d text : atoms re = (as_, d) ->
  (exists l1 l2, text = l1 ++ l2 /\ denotes (One c :: as_) l1 /\ (d = true -> l2 = [])) <->
  match text with [] => False | x :: text => fits c x /\ begins re text end.
Proof.
  intros Ea. unfold begins. rewrite Ea. cbn [fst snd]. split.
  - intros (l1 & l2 & -> & (k1 & k2 & -> & (x & -> & Hx) & Hd) & H2). cbn. split; [done|]. rewrite <- ?app_assoc. by exists k2, l2.
  - destruct text as [|x text]; [done|]. intros [Hx (l1 & l2 & -> & Hd & H2)]. exists (x :: l1), l2. split_and!; try done. exists [x], l1. split_and!; try done. by exists x.
Qed.
Lemma begins_many c re as_ d text : atoms re = (as_, d) ->
  (exists l1 l2, text = l1 ++ l2 /\ denotes (Many c :: as_) l1 /\ (d = true -> l2 = [])) <->
  exists l1 l2, text = l1 ++ l2 /\ Forall (fits c) l1 /\ begins re l2.
Proof.
  intros Ea. unfold begins. rewrite Ea. cbn [fst snd]. split.
  - intros (l1 & l2 & -> & (k1 & k2 & -> & Hf & Hd) & H2). exists k1, (k2 ++ l2). rewrite app_assoc. split_and!; try done. by exists k2, l2.
  - intros (k1 & l & -> & Hf & k2 & l2 & -> & Hd & H2). exists (k1 ++ k2), l2. rewrite app_assoc. split_and!; try done. by exists k1, k2.
Qed.
Lemma fits_spec c x : ((c =? DOT) || (c =? x)) = true <-> fits c x.
Proof. unfold fits. by rewrite orb_true_iff, !Z.eqb_eq. Qed.

Lemma atoms_two c s re : atoms (c :: s :: re) =
  if s =? STAR then (Many c :: (atoms re).1, (atoms re).2) else (One c :: (atoms (s :: re)).1, (atoms (s :: re)).2).
Proof. change (atoms (c :: s :: re)) with (if s =? STAR then let (l, d) := atoms re in (Many c :: l, d) else let (l, d) := atoms (s :: re) in (One c :: l, d)). destruct (s =? STAR); [by destruct (atoms re)|by destruct (atoms (s :: re))]. Qed.

Lemma matchhere_two c s re text : matchhere (c :: s :: re) text =
  if s =? STAR then star_loop (matchhere re) c text
  else match text with [] => false | x :: text => ((c =? DOT) || (c =? x)) && matchhere (s :: re) text end.
Proof. done. Qed.

Lemma matchhere_spec re : forall text, matchhere re text = true <-> begins re text.
Proof.
  induction re as [re IH] using (induction_ltof1 _ (@length Z)). unfold ltof in IH. intros text.
  destruct re as [|c [|s re2]].
  - split; [|done]. intros _. exists [], text. by split_and!.
  - cbn [matchhere]. unfold begins. cbn [atoms]. destruct (Z.eqb_spec c DOLLAR) as [->|Hc].
    + cbn. rewrite bool_decide_eq_true. split; [intros ->; by exists [], []|]. intros (l1 & l2 & -> & -> & H). by rewrite H.
    + cbn [fst snd]. rewrite (begins_one c [] [] false text eq_refl). destruct text as [|x text]; [done|]. rewrite andb_true_iff, fits_spec.
      split; [|by intros [? _]]. intros [Hx _]. split; [done|]. exists [], text. by split_and!.
  - rewrite matchhere_two. unfold begins. rewrite atoms_two. destruct (s =? STAR).
    + destruct (atoms re2) as [as_ d] eqn:Ea. cbn [fst snd]. rewrite (begins_many c re2 as_ d text Ea), star_loop_spec.
      setoid_rewrite IH; [done|cbn; lia].
    + destruct (atoms (s :: re2)) as [as_ d] eqn:Ea. cbn [fst snd]. rewrite (begins_one c (s :: re2) as_ d text Ea). destruct text as [|x text]; [done|].
      rewrite andb_true_iff, fits_spec. by rewrite (IH (s :: re2)) by (cbn; lia).
Qed.

(** C32: The matcher decides the meaning of patterns: match succeeds exactly when
    the text has a part that the characters and stars of the pattern stand
    for, which begins the text when the pattern begins with ^ and ends it when
    the pattern ends with $. *)
Theorem match_correct re text : match_ re text = true <->
  let caret := match re with c :: _ => c =? CARET | [] => false end in
  let (as_, dollar) := atoms (if caret then tail re else re) in
  exists pre mid post, text = pre ++ mid ++ post /\ denotes as_ mid /\ (caret = true -> pre = []) /\ (dollar = true -> post = []).
Proof.
  assert (Hloop : forall re text, match_loop re text = true <-> exists pre suf, text = pre ++ suf /\ begins re suf).
  { intros re'. induction text0 as [|x text0 IH]; cbn [match_loop]; rewrite orb_true_iff, matchhere_spec.
    - split; [intros [H|H]; [by exists [], []|done]|]. intros (pre & suf & [-> ->]%eq_sym%app_nil & H). by left.
    - rewrite IH. split.
      + intros [H|(pre & suf & -> & H)]; [by exists [], (x :: text0)|by exists (x :: pre), suf].
      + intros ([|y pre] & suf & E & H); cbn in E; [left; by subst|]. injection E as -> ->. right. by exists pre, suf. }
  assert (Hfree : match_loop re text = true <-> let (as_, dollar) := atoms re in
    exists pre mid post, text = pre ++ mid ++ post /\ denotes as_ mid /\ (false = true -> pre = []) /\ (dollar = true -> post = [])).
  { rewrite Hloop. unfold begins. destruct (atoms re) as [as_ d]. cbn. naive_solver. }
  unfold match_. destruct re as [|c re]; [exact Hfree|]. destruct (c =? CARET); [|exact Hfree]. cbn [tail].
  rewrite matchhere_spec. unfold begins. destruct (atoms re) as [as_ d]. cbn. split.
  - intros (l1 & l2 & -> & H). exists [], l1, l2. naive_solver.
  - intros (pre & mid & post & -> & H1 & H2 & H3). rewrite (H2 eq_refl). exists mid, post. naive_solver.
Qed.

(** ** Searching a file *)

(** The lines that end with a newline. *)
Fixpoint lines_from (cur l : list Z) : list (list Z) :=
  match l with [] => [] | c :: l => if c =? NL then cur :: lines_from [] l else lines_from (cur ++ [c]) l end.
Definition lines : list Z -> list (list Z) := lines_from [].
Definition selected (pattern : list Z) (ls : list (list Z)) : list (list Z) :=
  (fun line => line ++ [NL]) <$> filter (fun line => match_ pattern line = true) ls.

Lemma lines_from_none cur l : NL ∉ l -> lines_from cur l = [].
Proof. revert cur. induction l as [|c l IH]; intros cur Hl; [done|]. cbn. rewrite (proj2 (Z.eqb_neq c NL)) by set_solver. apply IH. set_solver. Qed.
Lemma lines_from_line cur l rest : NL ∉ l -> lines_from cur (l ++ NL :: rest) = (cur ++ l) :: lines rest.
Proof.
  revert cur. induction l as [|c l IH]; intros cur Hl; cbn; [by rewrite app_nil_r|].
  rewrite (proj2 (Z.eqb_neq c NL)) by set_solver. rewrite IH by set_solver. by rewrite <- app_assoc.
Qed.
Lemma first_line l : NL ∈ l -> exists line rest, l = line ++ NL :: rest /\ NL ∉ line.
Proof.
  induction l as [|c l IH]; [by intros ?%elem_of_nil|]. destruct (decide (c = NL)) as [->|Hc]; intros H; [by exists [], l; split; [|apply not_elem_of_nil]|].
  destruct IH as (line & rest & -> & Hn); [set_solver|]. exists (c :: line), rest. split; [done|set_solver].
Qed.

Lemma find_nl_run fuel buf p l tl out : drop p buf = l ++ tl -> 0 ∉ l -> NL ∉ l -> (length l < fuel)%nat ->
  find_nl fuel buf p out = find_nl (fuel - length l) buf (p + length l) out.
Proof.
  revert fuel p. induction l as [|c l IH]; intros fuel p Hd H0 Hn Hf; cbn [length]; [by rewrite Nat.sub_0_r, Nat.add_0_r|].
  cbn in Hf. destruct fuel as [|fuel]; [lia|]. assert (Hb : buf !! p = Some c) by (rewrite <- (Nat.add_0_r p), <- lookup_drop, Hd; done).
  cbn [find_nl]. rewrite Hb. cbn [deref]. rewrite (bind_ok _ _ _ _ _ (mret_ok _ _)). rewrite (proj2 (Z.eqb_neq c 0)), (proj2 (Z.eqb_neq c NL)) by set_solver.
  rewrite IH; [|replace (S p) with (p + 1)%nat by lia; by rewrite <- drop_drop, Hd|set_solver|set_solver|lia].
  replace (S fuel - S (length l))%nat with (fuel - length l)%nat by lia. by replace (S p + length l)%nat with (p + S (length l))%nat by lia.
Qed.

Lemma lines_run pattern : forall fuel l buf p tl out, drop p buf = l ++ 0 :: tl -> 0 ∉ l -> (length l < BUFSZ)%nat -> (length l < fuel)%nat ->
  exists buf' p', lines_loop fuel pattern buf p out = Ok (buf', p') (out ++ selected pattern (lines l)) /\
    length buf' = length buf /\ drop (p + length l) buf' = drop (p + length l) buf /\ (p <= p' <= p + length l)%nat.
Proof.
  induction fuel as [|fuel IH]; intros l buf p tl out Hd H0 Hl Hf; [lia|]. cbn [lines_loop].
  destruct (decide (NL ∈ l)) as [(line & rest & -> & Hn)%first_line|Hn].
  - assert (Hline : 0 ∉ line) by (intros H; apply H0, elem_of_app; by left). assert (Hrest : 0 ∉ rest) by (intros H; apply H0, elem_of_app; right; by right).
    rewrite <- app_assoc in Hd. cbn [app] in Hd. rewrite length_app in Hl, Hf. cbn [length] in Hl, Hf. set (q := (p + length line)%nat).
    assert (Hq : buf !! q = Some NL) by (unfold q; rewrite <- lookup_drop, Hd, lookup_app_r, Nat.sub_diag by lia; done).
    assert (E : find_nl (S BUFSZ) buf p out = Ok (Some q) out).
    { rewrite (find_nl_run _ _ _ line _ _ Hd) by (done || lia). fold q. replace (S BUFSZ - length line)%nat with (S (BUFSZ - length line)) by lia. cbn [find_nl]. by rewrite Hq. }
    mstep E. unfold slice. replace (q - p)%nat with (length line) by lia. replace (S q - p)%nat with (length line + 1)%nat by lia. rewrite Hd.
    rewrite take_app_length, take_app_add. cbn [take]. unfold lines, selected. rewrite lines_from_line by done. cbn [app]. rewrite filter_cons.
    assert (Hds : drop (S q) buf = rest ++ 0 :: tl).
    { replace (S q) with (p + (length line + 1))%nat by lia. rewrite <- drop_drop, Hd, drop_app_add. done. }
    destruct (match_ pattern line) eqn:Em; [rewrite decide_True by done|rewrite decide_False by done].
    + rewrite (bind_ok _ _ _ _ _ (modify_ok _ _)). destruct (IH rest buf (S q) tl (out ++ [line ++ [NL]]) Hds) as (b & p' & Er & Lb & Db & Hp); [done|lia|lia|]. exists b, p'. rewrite length_app. cbn [length]. replace (S q + length rest)%nat with (p + (length line + S (length rest)))%nat in Db, Hp by lia.
      split_and!; try done; [|lia|lia]. etransitivity; [exact Er|]. by rewrite <- app_assoc.
    + destruct (IH rest (<[q := 0]> buf) (S q) tl out) as (b & p' & Er & Lb & Db & Hp); [by rewrite drop_insert_lt by lia|done|lia|lia|]. exists b, p'. rewrite length_app. cbn [length]. replace (S q + length rest)%nat with (p + (length line + S (length rest)))%nat in Db, Hp by lia.
      rewrite length_insert in Lb. rewrite drop_insert_lt in Db by lia. split_and!; try done; lia.
  - exists buf, p. set (q := (p + length l)%nat). assert (Hq : buf !! q = Some 0) by (unfold q; rewrite <- lookup_drop, Hd, lookup_app_r, Nat.sub_diag by lia; done).
    assert (E : find_nl (S BUFSZ) buf p out = Ok None out).
    { rewrite (find_nl_run _ _ _ l _ _ Hd) by (done || lia). fold q. replace (S BUFSZ - length l)%nat with (S (BUFSZ - length l)) by lia. cbn [find_nl]. by rewrite Hq. }
    mstep E. unfold lines, selected. rewrite lines_from_none by done. rewrite app_nil_r. split_and!; try done; lia.
Qed.

(** The buffer has never been written from [n] on. *)
Definition clear_from (n : nat) (buf : list Z) : Prop := length buf = BUFSZ /\ drop n buf = replicate (BUFSZ - n) 0.
Lemma clear_from_le n k buf : clear_from n buf -> (n <= k)%nat -> clear_from k buf.
Proof. intros [Hl Hd] Hk. split; [done|]. replace k with (n + (k - n))%nat by lia. rewrite <- drop_drop, Hd, drop_replicate. f_equal. lia. Qed.
(** A text that fits into the buffer and comes in one read. *)
Lemma grep_turn_run pattern text buf out : clear_from (length text) buf -> 0 ∉ text -> (length text < BUFSZ)%nat ->
  exists buf' m, grep_turn pattern text buf 0 out = Ok (buf', m) (out ++ selected pattern (lines text)) /\ clear_from (length text) buf'.
Proof.
  intros [Hb Hd] H0 Hl. unfold grep_turn, read_in. cbn [orb Z.ltb Z.compare]. rewrite (proj2 (Z.ltb_ge _ _)) by lia. rewrite (bind_ok _ _ _ _ _ (mret_ok _ _)).
  change (Z.to_nat 0) with 0%nat. rewrite take_0, Nat.add_0_l, Hd. destruct (BUFSZ - length text)%nat as [|k] eqn:Ek; [lia|].
  destruct (lines_run pattern (S BUFSZ) text (text ++ replicate (S k) 0) 0 (replicate k 0) out eq_refl H0 Hl) as (buf1 & p & E & L1 & D1 & Hp); [lia|].
  rewrite app_nil_l. mstep E. rewrite length_app, length_replicate in L1. rewrite Nat.add_0_l, drop_app_length in D1.
  assert (Hc : clear_from (length text) buf1) by (split; [lia|by rewrite D1, Ek]). case_bool_decide as Hp0; [by exists buf1, 0|]. destruct (Z.ltb_spec 0 (0 + Z.of_nat (length text))); [|eauto].
  eexists _, _. split; [done|]. unfold move_down. replace (Z.to_nat _) with (length text - p)%nat by lia. set (m := (length text - p)%nat).
  assert (Ht : length (take m (drop p buf1)) = m) by (rewrite length_take, length_drop; lia). split; [rewrite length_app, Ht, length_drop; lia|].
  rewrite drop_app_ge, Ht, drop_drop by lia. replace (m + (length text - m))%nat with (length text) by lia. apply Hc.
Qed.

(** When the input comes in several reads, grep prints lines that are not
    there: the buffer is not terminated after a read, and what an earlier,
    longer read has left behind it is searched again.  Here the input is
    the lines "aaa" and "b", and "a" is printed as a third line. *)
Theorem grep_stale_lines : grep [97] [[97; 97; 97; NL]; [98; NL]; []] [] = Ok tt [[97; 97; 97; NL]; [97; NL]] /\
  selected [97] (lines ([97; 97; 97; NL] ++ [98; NL])) = [[97; 97; 97; NL]].
Proof. split; vm_compute; reflexivity. Qed.
