(* ===== verification/Devices.v ===== *)
(** * Devices: interrupt controllers, timer, serial port, keyboard

    src/picirq.c, src/ioapic.c, src/timer.c, src/uart.c, src/kbd.c and src/lapic.c.
    The machine behind the ports and the memory-mapped registers is the
    parameter [Ports]: reads may change it and give any byte.  [dv] adds the
    variables of the drivers.  cpunum, ioapicinit and everything else that
    prints is in Mp.v, after the console. *)

From stdpp Require Import functions.
From S2P Require Import Prelude Str.

(** inb, outb, insl and outsl of x86.h, and device registers in memory. *)
Class Ports (D : Type) := {
  in_byte : Z -> D -> Z * D;
  out_byte : Z -> Z -> D -> D;
  in_words : Z -> nat -> D -> list Z * D;
  out_words : Z -> list Z -> D -> D;
  reg_read : Z -> D -> Z * D;
  reg_write : Z -> Z -> D -> D;
}.

(** ** traps.h *)

Definition T_SYSCALL : Z := 64.
Definition T_IRQ0 : Z := 32.
Definition IRQ_TIMER : Z := 0.
Definition IRQ_KBD : Z := 1.
Definition IRQ_COM1 : Z := 4.
Definition IRQ_IDE : Z := 14.
Definition IRQ_ERROR : Z := 19.
Definition IRQ_SPURIOUS : Z := 31.

Record dv {D : Type} := mkDv {
  hw : D;
  irqmask : Z;       (** picirq.c *)
  ioapic : Z;        (** ioapic.c: the address of its registers, or 0 *)
  ismp : bool;       (** mp.c *)
  ioapicid : Z;
  ncpu : Z;
  lapic : Z;         (** lapic.c: the address of its registers, or 0 *)
  uart : bool;       (** uart.c *)
  shift : Z;         (** kbd.c *)
  pmem : mem;        (** memory, at kernel addresses *)
}.
Arguments dv : clear implicits.

Section Devices.
Context {D : Type} `{!Ports D}.
Notation dv := (dv D).
Definition set_hw v (s : dv) : dv := mkDv _ v (irqmask s) (ioapic s) (ismp s) (ioapicid s) (ncpu s) (lapic s) (uart s) (shift s) (pmem s).
Definition set_irqmask v (s : dv) : dv := mkDv _ (hw s) v (ioapic s) (ismp s) (ioapicid s) (ncpu s) (lapic s) (uart s) (shift s) (pmem s).
Definition set_ioapic v (s : dv) : dv := mkDv _ (hw s) (irqmask s) v (ismp s) (ioapicid s) (ncpu s) (lapic s) (uart s) (shift s) (pmem s).
Definition set_ismp v (s : dv) : dv := mkDv _ (hw s) (irqmask s) (ioapic s) v (ioapicid s) (ncpu s) (lapic s) (uart s) (shift s) (pmem s).
Definition set_ioapicid v (s : dv) : dv := mkDv _ (hw s) (irqmask s) (ioapic s) (ismp s) v (ncpu s) (lapic s) (uart s) (shift s) (pmem s).
Definition set_ncpu v (s : dv) : dv := mkDv _ (hw s) (irqmask s) (ioapic s) (ismp s) (ioapicid s) v (lapic s) (uart s) (shift s) (pmem s).
Definition set_lapic v (s : dv) : dv := mkDv _ (hw s) (irqmask s) (ioapic s) (ismp s) (ioapicid s) (ncpu s) v (uart s) (shift s) (pmem s).
Definition set_uart v (s : dv) : dv := mkDv _ (hw s) (irqmask s) (ioapic s) (ismp s) (ioapicid s) (ncpu s) (lapic s) v (shift s) (pmem s).
Definition set_shift v (s : dv) : dv := mkDv _ (hw s) (irqmask s) (ioapic s) (ismp s) (ioapicid s) (ncpu s) (lapic s) (uart s) v (pmem s).
Definition set_pmem v (s : dv) : dv := mkDv _ (hw s) (irqmask s) (ioapic s) (ismp s) (ioapicid s) (ncpu s) (lapic s) (uart s) (shift s) v.

Definition inb (port : Z) : M dv Z := fun s => let (v, d) := in_byte port (hw s) in Ok v (set_hw d s).
Definition outb (port data : Z) : M dv unit := modify (fun s => set_hw (out_byte port (u8 data) (hw s)) s).
Definition rdreg (addr : Z) : M dv Z := fun s => let (v, d) := reg_read addr (hw s) in Ok v (set_hw d s).
Definition wrreg (addr v : Z) : M dv unit := modify (fun s => set_hw (reg_write addr (u32 v) (hw s)) s).

(** ** picirq.c *)

Definition IO_PIC1 : Z := 0x20.
Definition IO_PIC2 : Z := 0xA0.
Definition IRQ_SLAVE : Z := 2.
Definition irqmask0 : Z := Z.land 0xFFFF (Z.lnot (Z.shiftl 1 IRQ_SLAVE)).

Definition picsetmask (mask : Z) : M dv unit :=
  modify (set_irqmask mask);;
  outb (IO_PIC1 + 1) mask;;
  outb (IO_PIC2 + 1) (Z.shiftr mask 8).
Definition picenable (irq : Z) : M dv unit :=
  m ← gets irqmask; picsetmask (u16 (Z.land m (Z.lnot (Z.shiftl 1 irq)))).
Definition picinit : M dv unit :=
  outb (IO_PIC1 + 1) 0xFF;; outb (IO_PIC2 + 1) 0xFF;;
  outb IO_PIC1 0x11;; outb (IO_PIC1 + 1) T_IRQ0;; outb (IO_PIC1 + 1) (Z.shiftl 1 IRQ_SLAVE);; outb (IO_PIC1 + 1) 0x3;;
  outb IO_PIC2 0x11;; outb (IO_PIC2 + 1) (T_IRQ0 + 8);; outb (IO_PIC2 + 1) IRQ_SLAVE;; outb (IO_PIC2 + 1) 0x3;;
  outb IO_PIC1 0x68;; outb IO_PIC1 0x0a;;
  outb IO_PIC2 0x68;; outb IO_PIC2 0x0a;;
  m ← gets irqmask;
  when (negb (m =? 0xFFFF)) (picsetmask m).

(** ** ioapic.c *)

Definition REG_TABLE : Z := 0x10.
Definition ioapicread (reg : Z) : M dv Z := a ← gets ioapic; wrreg a reg;; rdreg (a + 16).
Definition ioapicwrite (reg data : Z) : M dv unit := a ← gets ioapic; wrreg a reg;; wrreg (a + 16) data.
Definition ioapicenable (irq cpunum : Z) : M dv unit :=
  mp ← gets ismp;
  if negb mp then mret tt
  else
    ioapicwrite (REG_TABLE + 2 * irq) (T_IRQ0 + irq);;
    ioapicwrite (REG_TABLE + 2 * irq + 1) (Z.shiftl cpunum 24).

(** ** timer.c *)

Definition IO_TIMER1 : Z := 0x40.
Definition TIMER_DIV (x : Z) : Z := (1193182 + x / 2) / x.
Definition timerinit : M dv unit :=
  outb (IO_TIMER1 + 3) (Z.lor (Z.lor 0x00 0x04) 0x30);;
  outb IO_TIMER1 (TIMER_DIV 100 mod 256);;
  outb IO_TIMER1 (TIMER_DIV 100 / 256);;
  picenable IRQ_TIMER.

(** ** uart.c *)

Definition COM1 : Z := 0x3f8.
Definition microdelay (us : Z) : M dv unit := mret tt.
(** [for (i = 0; i < 128 && !(inb(COM1+5) & 0x20); i++)] *)
Fixpoint uart_wait (i : nat) : M dv unit :=
  match i with
  | O => mret tt
  | S i => st ← inb (COM1 + 5); if truth (Z.land st 0x20) then mret tt else microdelay 10;; uart_wait i
  end.
Definition uartputc (c : Z) : M dv unit :=
  u ← gets uart;
  if negb u then mret tt else uart_wait 128;; outb COM1 c.
Definition uartgetc : M dv Z :=
  u ← gets uart;
  if negb u then mret (-1)
  else
    st ← inb (COM1 + 5);
    if truth (Z.land st 0x01) then inb COM1 else mret (-1).
Definition hello : list Z := [120; 118; 54; 46; 46; 46; 10].
Definition uartinit : M dv unit :=
  outb (COM1 + 2) 0;;
  outb (COM1 + 3) 0x80;; outb COM1 (115200 / 9600);; outb (COM1 + 1) 0;; outb (COM1 + 3) 0x03;;
  outb (COM1 + 4) 0;; outb (COM1 + 1) 0x01;;
  st ← inb (COM1 + 5);
  if st =? 0xFF then mret tt
  else
    modify (set_uart true);;
    _ ← inb (COM1 + 2); _ ← inb COM1;
    picenable IRQ_COM1;; ioapicenable IRQ_COM1 0;;
    mfor hello uartputc.

(** ** kbd.c and kbd.h *)

Definition KBSTATP : Z := 0x64.
Definition KBS_DIB : Z := 0x01.
Definition KBDATAP : Z := 0x60.
Definition SHIFT : Z := 1.
Definition CTL : Z := 2.
Definition ALT : Z := 4.
Definition CAPSLOCK : Z := 8.
Definition NUMLOCK : Z := 16.
Definition SCROLLLOCK : Z := 32.
Definition E0ESC : Z := 64.

(** A table of 256 entries: the listed ones, then those with an index. *)
Definition table (l : list Z) (d : list (Z * Z)) : list Z :=
  fold_left (fun t e => <[Z.to_nat e.1 := e.2]> t) d (l ++ replicate (256 - length l) 0).
Definition shiftcode : list Z :=
  table []
    [(0x1D, CTL); (0x2A, SHIFT); (0x36, SHIFT); (0x38, ALT); (0x9D, CTL); (0xB8, ALT)].
Definition togglecode : list Z :=
  table []
    [(0x3A, CAPSLOCK); (0x45, NUMLOCK); (0x46, SCROLLLOCK)].
Definition normalmap : list Z :=
  table [0; 27; 49; 50; 51; 52; 53; 54; 55; 56; 57; 48; 45; 61; 8; 9;
    113; 119; 101; 114; 116; 121; 117; 105; 111; 112; 91; 93; 10; 0; 97; 115;
    100; 102; 103; 104; 106; 107; 108; 59; 39; 96; 0; 92; 122; 120; 99; 118;
    98; 110; 109; 44; 46; 47; 0; 42; 0; 32; 0; 0; 0; 0; 0; 0;
    0; 0; 0; 0; 0; 0; 0; 55; 56; 57; 45; 52; 53; 54; 43; 49;
    50; 51; 48; 46; 0; 0; 0; 0]
    [(0x9C, 10); (0xB5, 47); (0xC8, 226); (0xD0, 227); (0xC9, 230); (0xD1, 231); (0xCB, 228); (0xCD, 229); (0x97, 224); (0xCF, 225); (0xD2, 232); (0xD3, 233)].
Definition shiftmap : list Z :=
  table [0; 27; 33; 64; 35; 36; 37; 94; 38; 42; 40; 41; 95; 43; 8; 9;
    81; 87; 69; 82; 84; 89; 85; 73; 79; 80; 123; 125; 10; 0; 65; 83;
    68; 70; 71; 72; 74; 75; 76; 58; 34; 126; 0; 124; 90; 88; 67; 86;
    66; 78; 77; 60; 62; 63; 0; 42; 0; 32; 0; 0; 0; 0; 0; 0;
    0; 0; 0; 0; 0; 0; 0; 55; 56; 57; 45; 52; 53; 54; 43; 49;
    50; 51; 48; 46; 0; 0; 0; 0]
    [(0x9C, 10); (0xB5, 47); (0xC8, 226); (0xD0, 227); (0xC9, 230); (0xD1, 231); (0xCB, 228); (0xCD, 229); (0x97, 224); (0xCF, 225); (0xD2, 232); (0xD3, 233)].
(** C('/') is -17, stored in an unsigned char. *)
Definition ctlmap : list Z :=
  table [0; 0; 0; 0; 0; 0; 0; 0; 0; 0; 0; 0; 0; 0; 0; 0;
    17; 23; 5; 18; 20; 25; 21; 9; 15; 16; 0; 0; 13; 0; 1; 19;
    4; 6; 7; 8; 10; 11; 12; 0; 0; 0; 0; 28; 26; 24; 3; 22;
    2; 14; 13; 0; 0; u8 (-17); 0; 0]
    [(0x9C, 13); (0xB5, u8 (-17)); (0xC8, 226); (0xD0, 227); (0xC9, 230); (0xD1, 231); (0xCB, 228); (0xCD, 229); (0x97, 224); (0xCF, 225); (0xD2, 232); (0xD3, 233)].
Definition entry (t : list Z) (k : Z) : Z := nth (Z.to_nat k) t 0.
Definition charcode (k : Z) : list Z := if k =? 0 then normalmap else if k =? 1 then shiftmap else ctlmap.

(** [if (shift & CAPSLOCK) ...] *)
Definition caps (c : Z) : Z :=
  if (97 <=? c) && (c <=? 122) then c + (65 - 97)
  else if (65 <=? c) && (c <=? 90) then c + (97 - 65)
  else c.
(** The code of a pressed key. *)
Definition keypress (data : Z) : M dv Z :=
  modify (fun s => set_shift (Z.lor (shift s) (entry shiftcode data)) s);;
  modify (fun s => set_shift (Z.lxor (shift s) (entry togglecode data)) s);;
  sh ← gets shift;
  let c := entry (charcode (Z.land sh (Z.lor CTL SHIFT))) data in
  mret (if truth (Z.land sh CAPSLOCK) then caps c else c).
Definition kbdgetc : M dv Z :=
  st ← inb KBSTATP;
  if Z.land st KBS_DIB =? 0 then mret (-1)
  else
    data ← inb KBDATAP;
    sh ← gets shift;
    if data =? 0xE0 then modify (set_shift (Z.lor sh E0ESC));; mret 0
    else if truth (Z.land data 0x80) then
      let data := if truth (Z.land sh E0ESC) then data else Z.land data 0x7F in
      modify (set_shift (Z.land sh (Z.lnot (Z.lor (entry shiftcode data) E0ESC))));; mret 0
    else if truth (Z.land sh E0ESC) then
      modify (set_shift (Z.land sh (Z.lnot E0ESC)));; keypress (Z.lor data 0x80)
    else keypress data.

(** ** lapic.c *)

Definition L_ID : Z := 0x0020 / 4.
Definition L_VER : Z := 0x0030 / 4.
Definition L_TPR : Z := 0x0080 / 4.
Definition L_EOI : Z := 0x00B0 / 4.
Definition L_SVR : Z := 0x00F0 / 4.
Definition L_ESR : Z := 0x0280 / 4.
Definition L_ICRLO : Z := 0x0300 / 4.
Definition L_ICRHI : Z := 0x0310 / 4.
Definition L_TIMER : Z := 0x0320 / 4.
Definition L_PCINT : Z := 0x0340 / 4.
Definition L_LINT0 : Z := 0x0350 / 4.
Definition L_LINT1 : Z := 0x0360 / 4.
Definition L_ERROR : Z := 0x0370 / 4.
Definition L_TICR : Z := 0x0380 / 4.
Definition L_TDCR : Z := 0x03E0 / 4.
Definition INIT_ : Z := 0x500.
Definition STARTUP : Z := 0x600.
Definition DELIVS : Z := 0x1000.
Definition ASSERT : Z := 0x4000.
Definition LEVEL : Z := 0x8000.
Definition BCAST : Z := 0x80000.
Definition MASKED : Z := 0x10000.
Definition PERIODIC : Z := 0x20000.
Definition X1 : Z := 0xB.

(** [lapic[index]] *)
Definition lapicr (index : Z) : M dv Z := a ← gets lapic; rdreg (a + 4 * index).
Definition lapicw (index value : Z) : M dv unit :=
  a ← gets lapic; wrreg (a + 4 * index) value;; _ ← lapicr L_ID; mret tt.
(** [while (lapic[ICRLO] & DELIVS)], with a bound on the number of reads. *)
Fixpoint deliver_wait (polls : nat) : M dv unit :=
  match polls with
  | O => halt SFuel
  | S polls => v ← lapicr L_ICRLO; if truth (Z.land v DELIVS) then deliver_wait polls else mret tt
  end.
Definition lapicinit (polls : nat) : M dv unit :=
  a ← gets lapic;
  if a =? 0 then mret tt
  else
    lapicw L_SVR (Z.lor 0x100 (T_IRQ0 + IRQ_SPURIOUS));;
    lapicw L_TDCR X1;;
    lapicw L_TIMER (Z.lor PERIODIC (T_IRQ0 + IRQ_TIMER));;
    lapicw L_TICR 10000000;;
    lapicw L_LINT0 MASKED;;
    lapicw L_LINT1 MASKED;;
    v ← lapicr L_VER;
    when (4 <=? Z.land (Z.shiftr v 16) 0xFF) (lapicw L_PCINT MASKED);;
    lapicw L_ERROR (T_IRQ0 + IRQ_ERROR);;
    lapicw L_ESR 0;; lapicw L_ESR 0;;
    lapicw L_EOI 0;;
    lapicw L_ICRHI 0;;
    lapicw L_ICRLO (Z.lor (Z.lor BCAST INIT_) LEVEL);;
    deliver_wait polls;;
    lapicw L_TPR 0.
Definition lapiceoi : M dv unit := a ← gets lapic; when (negb (a =? 0)) (lapicw L_EOI 0).

Definition IO_RTC : Z := 0x70.
(** [wrv], the warm reset vector, at its kernel address. *)
Definition wrv : Z := 0x80000000 + Z.lor (Z.shiftl 0x40 4) 0x67.
Definition store16 (a v : Z) : M dv unit := modify (fun s => set_pmem (sto (sto (pmem s) a (u8 v)) (a + 1) (u8 (Z.shiftr v 8))) s).
Definition lapicstartap (apicid addr : Z) : M dv unit :=
  outb IO_RTC 0xF;;
  outb (IO_RTC + 1) 0x0A;;
  store16 wrv 0;;
  store16 (wrv + 2) (u16 (Z.shiftr addr 4));;
  lapicw L_ICRHI (Z.shiftl apicid 24);;
  lapicw L_ICRLO (Z.lor (Z.lor INIT_ LEVEL) ASSERT);;
  microdelay 200;;
  lapicw L_ICRLO (Z.lor INIT_ LEVEL);;
  microdelay 100;;
  mfor [0; 1] (fun _ =>
    lapicw L_ICRHI (Z.shiftl apicid 24);;
    lapicw L_ICRLO (Z.lor STARTUP (Z.shiftr addr 12));;
    microdelay 200).
End Devices.
