(* ===== verification/Kbd.v ===== *)
(** * The keyboard decoder

    kbdgetc of kbd.c as a function of the modifiers and the scan code, what it
    makes of the keys, and a machine with a queue of scan codes as an instance
    of [Ports]. *)

From S2P Require Import Prelude Str Devices.

(** The code and the modifiers after a byte from the controller. *)
Definition scan_press (sh data : Z) : Z * Z :=
  let sh := Z.lxor (Z.lor sh (entry shiftcode data)) (entry togglecode data) in
  let c := entry (charcode (Z.land sh (Z.lor CTL SHIFT))) data in
  (if truth (Z.land sh CAPSLOCK) then caps c else c, sh).
Definition scan (sh data : Z) : Z * Z :=
  if data =? 0xE0 then (0, Z.lor sh E0ESC)
  else if truth (Z.land data 0x80) then
    (0, Z.land sh (Z.lnot (Z.lor (entry shiftcode (if truth (Z.land sh E0ESC) then data else Z.land data 0x7F)) E0ESC)))
  else if truth (Z.land sh E0ESC) then scan_press (Z.land sh (Z.lnot E0ESC)) (Z.lor data 0x80)
  else scan_press sh data.

Definition held (sh m : Z) : bool := truth (Z.land sh m).

Section Kbd.
Context {D : Type} `{!Ports D}.

Lemma keypress_run data (s : dv D) : keypress data s = Ok (scan_press (shift s) data).1 (set_shift (scan_press (shift s) data).2 s).
Proof. done. Qed.

Lemma kbdgetc_scan (s : dv D) st h data h' :
  in_byte KBSTATP (hw s) = (st, h) -> Z.land st KBS_DIB <> 0 -> in_byte KBDATAP h = (data, h') ->
  kbdgetc s = Ok (scan (shift s) data).1 (set_shift (scan (shift s) data).2 (set_hw h' s)).
Proof.
  intros E Hst E'. unfold kbdgetc, inb. unfold mbind at 1, M_bind at 1. rewrite E. rewrite (proj2 (Z.eqb_neq _ _)) by done.
  unfold mbind at 1, M_bind at 1. cbn [hw set_hw]. rewrite E'. mrun1. unfold scan. cbn [shift set_hw]. destruct (data =? 0xE0); [done|].
  destruct (truth (Z.land data 0x80)); [done|]. destruct (truth (Z.land (shift s) E0ESC)); [|by rewrite keypress_run]. mrun1. by rewrite keypress_run.
Qed.

(** All pairs of modifiers and keys. *)
Definition all_keys (P : Z -> Z -> bool) (n : Z) : bool := forallb (fun sh => forallb (P sh) (seqZ 0 n)) (seqZ 0 128).
Lemma all_keys_spec P n sh k : all_keys P n = true -> 0 <= sh < 128 -> 0 <= k < n -> P sh k = true.
Proof.
  unfold all_keys. rewrite forallb_forall. intros H Hs Hk. assert (H1 := H sh). rewrite forallb_forall in H1. apply H1; apply list_elem_of_In, elem_of_seqZ; lia.
Qed.

Definition is_letter (k : Z) : bool := (97 <=? entry normalmap k) && (entry normalmap k <=? 122).
Definition letter_of (sh k : Z) : Z :=
  let c := entry normalmap k in if held sh CTL then c - 96 else if xorb (held sh SHIFT) (held sh CAPSLOCK) then c - 32 else c.
(** A letter key without an escape before it; a release of a modifier; the
    modifiers of a key that is pressed and released. *)
Definition key_letter_ok (sh k : Z) : bool := negb (is_letter k) || held sh E0ESC || ((scan sh k).1 =? letter_of sh k).
Definition key_up_ok (sh k : Z) : bool :=
  let (c, sh') := scan sh (Z.lor k 0x80) in
  (k =? 0x60) || ((c =? 0) && negb (held sh' E0ESC) && (held sh E0ESC || negb (truth (Z.land sh' (entry shiftcode k))))).
Definition key_stroke_ok (sh k : Z) : bool :=
  (k =? 0x60) || held sh E0ESC || truth (entry shiftcode k) || ((scan (scan sh k).2 (Z.lor k 0x80)).2 =? Z.lxor sh (entry togglecode k)).
Definition key_range_ok (sh k : Z) : bool := (0 <=? (scan sh k).1) && ((scan sh k).1 <? 256) && (0 <=? (scan sh k).2) && ((scan sh k).2 <? 128).

Lemma letters_all : all_keys key_letter_ok 128 = true.
Proof. vm_compute. reflexivity. Qed.
Lemma release_all : all_keys key_up_ok 128 = true.
Proof. vm_compute. reflexivity. Qed.
Lemma stroke_all : all_keys key_stroke_ok 128 = true.
Proof. vm_compute. reflexivity. Qed.
Lemma range_all : all_keys key_range_ok 256 = true.
Proof. vm_compute. reflexivity. Qed.

Lemma scan_range sh data : 0 <= sh < 128 -> 0 <= data < 256 -> 0 <= (scan sh data).1 < 256 /\ 0 <= (scan sh data).2 < 128.
Proof. intros Hs Hd. pose proof (all_keys_spec _ _ _ _ range_all Hs Hd) as H. unfold key_range_ok in H. rewrite !andb_true_iff, !Z.leb_le, !Z.ltb_lt in H. lia. Qed.

(** Kbdgetc returns -1, changing nothing of the driver, when the controller
    has no byte.  Otherwise it returns a code below 256 and keeps the modifiers
    in range: for a letter key the letter, upper case exactly when one of shift
    and caps lock is on, or its control code when control is held; for the
    release of a key 0, with the modifier of the key off and no escape left.
    The tables are checked for every key and every state of the modifiers. *)
Theorem kbdgetc_correct (s : dv D) st h :
  in_byte KBSTATP (hw s) = (st, h) -> 0 <= shift s < 128 ->
  (Z.land st KBS_DIB = 0 -> kbdgetc s = Ok (-1) (set_hw h s)) /\
  (forall data h', Z.land st KBS_DIB <> 0 -> in_byte KBDATAP h = (data, h') -> 0 <= data < 256 ->
     exists c sh, kbdgetc s = Ok c (set_shift sh (set_hw h' s)) /\ 0 <= c < 256 /\ 0 <= sh < 128 /\
       (data < 128 -> is_letter data = true -> held (shift s) E0ESC = false -> c = letter_of (shift s) data) /\
       (forall k, data = Z.lor k 0x80 -> 0 <= k < 128 -> data <> 0xE0 ->
          c = 0 /\ held sh E0ESC = false /\ (held (shift s) E0ESC = false -> Z.land sh (entry shiftcode k) = 0))).
Proof.
  intros E Hs. split.
  - intros Hst. unfold kbdgetc, inb. unfold mbind at 1, M_bind at 1. rewrite E. by rewrite (proj2 (Z.eqb_eq _ _)).
  - intros data h' Hst E' Hd. destruct (scan_range (shift s) data Hs Hd) as [Hc Hsh]. eexists _, _. split; [by eapply kbdgetc_scan|]. split_and!; try lia.
    + intros Hlt Hl He. pose proof (all_keys_spec _ _ _ data letters_all Hs ltac:(lia)) as H. unfold key_letter_ok in H. rewrite Hl, He in H. by apply Z.eqb_eq.
    + intros k -> Hk Hne. pose proof (all_keys_spec _ _ _ k release_all Hs Hk) as H. unfold key_up_ok in H. destruct (scan (shift s) (Z.lor k 0x80)) as [c sh]. cbn [fst snd].
      destruct (Z.eqb_spec k 0x60) as [->|_]; [done|]. cbn [orb] in H. rewrite !andb_true_iff, negb_true_iff, Z.eqb_eq in H. destruct H as [[Hc0 He] Hm].
      split_and!; [done|done|]. intros Hns. rewrite Hns in Hm. cbn [orb] in Hm. unfold truth in Hm. by apply negb_true_iff, negb_false_iff, Z.eqb_eq in Hm.
Qed.
End Kbd.

(** ** A machine with a keyboard

    Its state is the queue of scan codes; it has no serial port. *)
Global Instance keyboard : Ports (list Z) := {
  in_byte p q := if p =? KBSTATP then (match q with [] => 0 | _ => 1 end, q) else if p =? KBDATAP then (hd 0 q, tl q) else (0, q);
  out_byte p v q := q;
  in_words p n q := (replicate (4 * n) 0, q);
  out_words p l q := q;
  reg_read a q := (0, q);
  reg_write a v q := q;
}.
Definition idle (q : list Z) : dv (list Z) := mkDv _ q irqmask0 0 false 0 1 0 false 0 (fun _ => 0).

(** The codes kbdgetc returns for a queue. *)
Fixpoint codes (sh : Z) (q : list Z) : list Z :=
  match q with [] => [] | b :: q => (scan sh b).1 :: codes (scan sh b).2 q end.

Lemma keyboard_next sh b q d : shift d = sh -> hw d = b :: q -> kbdgetc d = Ok (scan sh b).1 (set_shift (scan sh b).2 (set_hw q d)).
Proof. intros <- E. apply (kbdgetc_scan d 1 (b :: q)); [by rewrite E|done|done]. Qed.

(** Shift and the key of the letter a. *)
Lemma kbdgetc_correct_witness : exists c sh, kbdgetc (set_shift SHIFT (idle [0x1e])) = Ok c (set_shift sh (set_hw [] (set_shift SHIFT (idle [0x1e])))) /\ c = 65.
Proof.
  destruct (kbdgetc_correct (Ports0 := keyboard) (set_shift SHIFT (idle [0x1e])) 1 [0x1e] ltac:(reflexivity) ltac:(cbn; unfold SHIFT; lia)) as [_ H].
  destruct (H 0x1e [] ltac:(done) ltac:(reflexivity) ltac:(lia)) as (c & sh & E & _ & _ & Hl & _). exists c, sh. split; [exact E|]. rewrite Hl; [reflexivity|lia|reflexivity|reflexivity].
Defined.
