(* ===== verification/Ulib.v ===== *)
(** * ulib.c and printf.c: the user library

    The string routines of src/ulib.c over the byte memory of Str.v, gets over
    the bytes that read(0, ..) delivers, and the formatted output of
    src/printf.c as the list of bytes written to the descriptor.  Loops that
    run to the end of a string take fuel, the room left in the address space. *)

From S2P Require Import Prelude Str.

(** ** ulib.c *)

Fixpoint strcpy (fuel : nat) (m : mem) (s t : Z) : option mem :=
  match fuel with
  | O => None
  | S fuel => let m' := sto m s (m t) in
              if truth (m t) then strcpy fuel m' (s + 1) (t + 1) else Some m'
  end.

Fixpoint strcmp (fuel : nat) (p q : cstr) : option Z :=
  match fuel with
  | O => None
  | S fuel => if truth (p O) && (p O =? q O) then strcmp fuel (fun i => p (S i)) (fun i => q (S i))
              else Some (u8 (p O) - u8 (q O))
  end.

Definition memset (m : mem) (dst c n : Z) : mem := stosb m dst c (Z.to_nat n).

(** The address of the first [c] of the string at [s], or 0. *)
Fixpoint strchr (fuel : nat) (m : mem) (s c : Z) : option Z :=
  match fuel with
  | O => None
  | S fuel => if negb (truth (m s)) then Some 0
              else if m s =? c then Some s else strchr fuel m (s + 1) c
  end.

(** [input] are the bytes the reads will deliver one by one; at its end read
    returns less than 1.  The result is the memory and the input left. *)
Fixpoint gets_loop (m : mem) (buf : Z) (n : nat) (input : list Z) : mem * list Z :=
  match n, input with
  | O, _ => (sto m buf 0, input)
  | S _, [] => (sto m buf 0, [])
  | S n, c :: input =>
      let m' := sto m buf c in
      if (c =? 10) || (c =? 13) then (sto m' (buf + 1) 0, input)
      else gets_loop m' (buf + 1) n input
  end.
Definition gets (m : mem) (buf max : Z) (input : list Z) : mem * list Z :=
  gets_loop m buf (Z.to_nat (max - 1)) input.

(** The int arithmetic wraps around. *)
Fixpoint atoi_loop (fuel : nat) (s : cstr) (n : Z) : option Z :=
  match fuel with
  | O => None
  | S fuel => if (48 <=? s O) && (s O <=? 57) then atoi_loop fuel (fun i => s (S i)) (i32 (i32 (n * 10) + s O - 48))
              else Some n
  end.
Definition atoi (fuel : nat) (s : cstr) : option Z := atoi_loop fuel s 0.

Definition memmove (m : mem) (dst src n : Z) : mem := copy_up m dst src (Z.to_nat n).

(** ** printf.c *)

(** "0123456789ABCDEF" *)
Definition digits : list Z := [48; 49; 50; 51; 52; 53; 54; 55; 56; 57; 65; 66; 67; 68; 69; 70].

(** The do loop of [printint]: the digits of [x] behind those of [buf]; None
    when [buf] or [digits] is accessed out of range. *)
Fixpoint printint_loop (fuel : nat) (x base : Z) (buf : list Z) : option (list Z) :=
  match fuel with
  | O => None
  | S fuel =>
      d ← digits !! Z.to_nat (x mod base);
      if (16 <=? length buf)%nat then None
      else let buf := buf ++ [d] in
           let x := x / base in
           if x =? 0 then Some buf else printint_loop fuel x base buf
  end.

(** The bytes printed; a 32-bit number has at most 32 digits. *)
Definition printint (xx base : Z) (sgn : bool) : option (list Z) :=
  let neg := sgn && (xx <? 0) in
  let x := if neg then u32 (- xx) else u32 xx in
  buf ← printint_loop 33 x base [];
  if neg then
    if (16 <=? length buf)%nat then None else Some (rev (buf ++ [45]))
  else Some (rev buf).

(** The bytes of the string at [a], without the NUL. *)
Fixpoint string_at (fuel : nat) (m : mem) (a : Z) : option (list Z) :=
  match fuel with
  | O => None
  | S fuel => if truth (m a) then (cons (m a)) <$> string_at fuel m (a + 1) else Some []
  end.

(** The loop of [printf] over the bytes of the format; [pct] is
    [state == '%'] and [ap] the argument words. *)
Fixpoint printf_loop (fuel : nat) (m : mem) (fmt : list Z) (pct : bool) (ap : list Z) : option (list Z) :=
  match fmt with
  | [] => Some []
  | c :: fmt' =>
      let next (out : list Z) (pct : bool) (ap : list Z) := app out <$> printf_loop fuel m fmt' pct ap in
      if negb pct then if c =? 37 then next [] true ap else next [c] false ap
      else if c =? 100 then
        match ap with a :: ap' => o ← printint (i32 a) 10 true; next o false ap' | [] => None end
      else if (c =? 120) || (c =? 112) then
        match ap with a :: ap' => o ← printint (i32 a) 16 false; next o false ap' | [] => None end
      else if c =? 115 then
        match ap with
        | a :: ap' => o ← (if a =? 0 then Some [40; 110; 117; 108; 108; 41] else string_at fuel m a); next o false ap'
        | [] => None
        end
      else if c =? 99 then
        match ap with a :: ap' => next [u8 a] false ap' | [] => None end
      else if c =? 37 then next [c] false ap
      else next [37; c] false ap
  end.
Definition printf (fuel : nat) (m : mem) (fmt : list Z) (args : list Z) : option (list Z) :=
  printf_loop fuel m fmt false args.

(** ** Numbers in a base *)

(** The value of digits, least significant first. *)
Fixpoint value (base : Z) (l : list Z) : Z :=
  match l with
  | [] => 0
  | d :: l => d + base * value base l
  end.

Lemma digits_lookup (k : nat) : (k < 10)%nat -> digits !! k = Some (48 + Z.of_nat k).
Proof. intros Hk. do 10 (destruct k as [|k]; [done|]). lia. Qed.

(** The digit values of a number below [base ^ n]. *)
Fixpoint to_base (n : nat) (base x : Z) : list Z :=
  match n with
  | O => []
  | S n => x mod base :: (if x / base =? 0 then [] else to_base n base (x / base))
  end.

Lemma to_base_length n base x : (length (to_base n base x) <= n)%nat.
Proof.
  revert x. induction n as [|n IH]; intros x; simpl; [lia|]. destruct (_ =? 0); simpl; [lia|]. specialize (IH (x / base)). lia.
Qed.

Lemma to_base_value n base x :
  1 < base -> 0 <= x < base ^ Z.of_nat n -> value base (to_base n base x) = x.
Proof.
  intros Hb. revert x. induction n as [|n IH]; intros x Hx.
  - simpl in *. lia.
  - rewrite Nat2Z.inj_succ, Z.pow_succ_r in Hx by lia. cbn [to_base value].
    pose proof (Z.div_mod x base ltac:(lia)). destruct (Z.eqb_spec (x / base) 0) as [E|E]; cbn [value]; [lia|].
    rewrite IH; [lia|]. split; [apply Z.div_pos; lia|]. apply Z.div_lt_upper_bound; lia.
Qed.

Lemma to_base_digits n base x : 1 < base -> Forall (fun d => 0 <= d < base) (to_base n base x).
Proof.
  intros Hb. revert x. induction n as [|n IH]; intros x; simpl; constructor.
  - apply Z.mod_pos_bound. lia.
  - destruct (_ =? 0); [constructor|apply IH].
Qed.

Definition digit_chars (l : list Z) : list Z := map (fun d => nth (Z.to_nat d) digits 0) l.

(** The loop prints the digits of [x] when they fit [buf]. *)
Lemma printint_loop_spec fuel n base x buf :
  1 < base <= 16 -> 0 <= x < base ^ Z.of_nat n -> (0 < n)%nat -> (n <= fuel)%nat -> (length buf + n <= 16)%nat ->
  printint_loop fuel x base buf = Some (buf ++ digit_chars (to_base n base x)).
Proof.
  intros Hb. revert fuel x buf. induction n as [|n IH]; intros [|fuel] x buf Hx Hn Hf Hl; try lia.
  pose proof (Z.mod_pos_bound x base ltac:(lia)) as Hm.
  cbn [printint_loop to_base digit_chars map].
  destruct (lookup_lt_is_Some_2 digits (Z.to_nat (x mod base))) as [d Hd]; [simpl; lia|].
  rewrite Hd. cbn [mbind option_bind]. rewrite (nth_lookup_Some _ _ _ _ Hd).
  rewrite (proj2 (Nat.leb_gt _ _)) by lia. cbn zeta.
  destruct (Z.eqb_spec (x / base) 0) as [E|E]; [done|].
  assert (Hx' : 0 <= x / base < base ^ Z.of_nat n).
  { rewrite Nat2Z.inj_succ, Z.pow_succ_r in Hx by lia.
    split; [apply Z.div_pos; lia|]. apply Z.div_lt_upper_bound; lia. }
  rewrite IH; [by rewrite <- app_assoc|done| |lia|rewrite length_app; simpl; lia].
  destruct n; [simpl in Hx'; lia|lia].
Qed.

(** Reading digits, most significant first. *)
Lemma atoi_loop_spec (ds : list Z) n fuel :
  Forall (fun d => 0 <= d < 10) ds -> 0 <= n ->
  foldl (fun n d => n * 10 + d) n ds < 2 ^ 31 -> (length ds < fuel)%nat ->
  atoi_loop fuel (of_list (map (fun d => 48 + d) ds)) n = Some (foldl (fun n d => n * 10 + d) n ds).
Proof.
  intros Hd. revert n fuel. induction Hd as [|d ds Hd Hds IH]; intros n [|fuel] Hn Hlt Hf; simpl in Hf; try lia; [done|].
  cbn [atoi_loop map foldl] in *.
  change (of_list (48 + d :: map (fun d => 48 + d) ds) O) with (48 + d).
  rewrite (proj2 (Z.leb_le _ _)), (proj2 (Z.leb_le _ _)) by lia. cbn [andb].
  assert (Hmono : n * 10 + d <= foldl (fun n d => n * 10 + d) (n * 10 + d) ds).
  { generalize (n * 10 + d) (ltac:(lia) : 0 <= n * 10 + d). clear -Hds. intros k Hk. revert k Hk.
    induction Hds as [|e es He Hes IHe]; intros k Hk; simpl; [lia|]. specialize (IHe (k * 10 + e)). lia. }
  rewrite (i32_id (n * 10)), i32_id by lia.
  replace (n * 10 + (48 + d) - 48) with (n * 10 + d) by lia. apply IH; [lia|done|lia].
Qed.

Lemma foldl_value base l : foldl (fun n d => n * base + d) 0 (rev l) = value base l.
Proof.
  induction l as [|d l IH]; [done|]. cbn [rev value]. rewrite foldl_app. simpl. rewrite IH. lia.
Qed.

Lemma digit_chars_10 l : Forall (fun d => 0 <= d < 10) l -> digit_chars l = map (fun d => 48 + d) l.
Proof.
  induction 1 as [|d l Hd Hl IH]; [done|]. cbn [digit_chars map]. f_equal; [|exact IH].
  rewrite (nth_lookup_Some _ _ _ (48 + d)); [done|]. rewrite digits_lookup by lia. f_equal. lia.
Qed.

(** ** Properties *)

(** Printing a number never overruns the buffer of [printint]: every int
    in base 10 with its sign, and every word in base 16, is printed, and the
    digits printed denote the number. *)
Theorem printint_correct xx :
  - 2 ^ 31 <= xx < 2 ^ 31 ->
  printint xx 10 true = Some ((if xx <? 0 then [45] else []) ++ rev (digit_chars (to_base 10 10 (Z.abs xx)))) /\
  value 10 (to_base 10 10 (Z.abs xx)) = Z.abs xx /\
  printint xx 16 false = Some (rev (digit_chars (to_base 8 16 (u32 xx)))) /\
  value 16 (to_base 8 16 (u32 xx)) = u32 xx.
Proof.
  intros Hx. pose proof (u32_range xx) as Hu. split_and!.
  - unfold printint. cbn [andb]. destruct (Z.ltb_spec xx 0) as [Hneg|Hpos].
    + rewrite u32_id, (printint_loop_spec 33 10 10) by (simpl; lia). cbn [mbind option_bind].
      pose proof (to_base_length 10 10 (- xx)) as Hl.
      rewrite (proj2 (Nat.leb_gt _ _)) by (rewrite app_nil_l; unfold digit_chars; rewrite length_map; lia).
      rewrite (Z.abs_neq xx) by lia. cbn [app]. by rewrite rev_app_distr.
    + rewrite u32_id, (printint_loop_spec 33 10 10) by (simpl; lia). by rewrite (Z.abs_eq xx) by lia.
  - apply to_base_value; simpl; lia.
  - unfold printint. cbn [andb]. rewrite (printint_loop_spec 33 8 16) by (simpl; lia). done.
  - apply to_base_value; simpl; lia.
Qed.

Lemma printint_correct_witness :
  - 2 ^ 31 <= -2147483648 < 2 ^ 31 /\
  printint (-2147483648) 10 true = Some [45; 50; 49; 52; 55; 52; 56; 51; 54; 52; 56] /\
  value 10 (to_base 10 10 (Z.abs (-2147483648))) = Z.abs (-2147483648).
Proof.
  split; [lia|]. destruct (printint_correct (-2147483648)) as (E1 & E2 & _); [lia|]. split; [exact E1|exact E2].
Defined.

(** [atoi] reads back what [printf] prints with %d for every non-negative
    int. *)
Theorem atoi_printint x :
  0 <= x < 2 ^ 31 ->
  exists l, printint x 10 true = Some l /\ atoi (S (length l)) (of_list l) = Some x.
Proof.
  intros Hx. exists (rev (digit_chars (to_base 10 10 x))). split.
  - unfold printint. cbn [andb]. rewrite (proj2 (Z.ltb_ge _ _)) by lia.
    rewrite u32_id, (printint_loop_spec 33 10 10) by (simpl; lia). done.
  - pose proof (to_base_digits 10 10 x ltac:(lia)) as Hd. rewrite digit_chars_10 by done.
    unfold atoi. rewrite length_rev, length_map, <- map_rev.
    rewrite atoi_loop_spec.
    + rewrite foldl_value, to_base_value; [done|lia|simpl; lia].
    + by apply Forall_rev.
    + lia.
    + rewrite foldl_value, to_base_value; [lia|lia|simpl; lia].
    + rewrite length_rev. lia.
Qed.

Lemma atoi_printint_witness :
  exists l, printint 12005 10 true = Some l /\ atoi (S (length l)) (of_list l) = Some 12005.
Proof. destruct (atoi_printint 12005) as (l & E & A); [lia|]. exists l. split; [exact E|exact A]. Defined.

Example printf_format :
  printf 10 (of_list [104; 105; 0] ∘ Z.to_nat) [97; 37; 100; 37; 115; 37; 120; 37; 37; 37; 122] [u32 (-7); 0; 255] =
  Some [97; 45; 55; 40; 110; 117; 108; 108; 41; 70; 70; 37; 37; 122].
Proof. reflexivity. Qed.
