(* ===== verification/Uprog.v ===== *)
(** * User programs

    cat, wc, echo, grep, ls, rm, mkdir, ln, kill, init and zombie, the read loop
    of the shell, and stat() of ulib.c, as interaction trees over the system
    calls: a program is what it asks of the kernel and how it goes on with
    the answer, and a loop that need not end is [ITree.iter].

    [world] answers: files with their contents, descriptors, what has been
    written.  read() may return less than asked for, as [cut] says.  [runs] and
    [exits] are what a program does in a world, with a rule for each way to
    build a program. *)

From S2P Require Import Prelude Str Ulib Grep.
From ITree Require Import ITree ITreeFacts Events.State Events.StateFacts.

Notation "'let*' x := m 'in' k" := (ITree.bind m (fun x => k)) (at level 10, x pattern, k at level 200).

(** ** System calls *)

Record ustat := mkUstat { st_type : Z; st_ino : Z; st_size : Z }.
Inductive sysE : Type -> Type :=
| Open (path : list Z) (mode : Z) : sysE Z
| Close (fd : Z) : sysE Z
| Read (fd n : Z) : sysE (option (list Z))
| Write (fd : Z) (l : list Z) : sysE Z
| Fstat (fd : Z) : sysE (option ustat)
| Dup (fd : Z) : sysE Z
| Mknod (path : list Z) (major minor : Z) : sysE Z
| Link (old new : list Z) : sysE Z
| Unlink (path : list Z) : sysE Z
| Mkdir (path : list Z) : sysE Z
| Chdir (path : list Z) : sysE Z
| Kill (pid : Z) : sysE Z
| Sleep (n : Z) : sysE Z
| Fork : sysE Z
| Wait : sysE Z
| Exec (path : list Z) (argv : list (list Z)) : sysE Z
| Exit : sysE void
| Fault : sysE void.     (** undefined behaviour *)

Definition prog := itree sysE.
Definition call {A} (e : sysE A) : prog A := ITree.trigger e.
(** exit() does not return. *)
Definition exit_ {A} : prog A := let* v := call Exit in match v : void with end.
Definition fault {A} : prog A := let* v := call Fault in match v : void with end.
Fixpoint each {A} (l : list A) (f : A -> prog unit) : prog unit :=
  match l with [] => Ret tt | x :: l => let* _ := f x in each l f end.

(** printf writes its bytes one by one; arguments are numbers and strings. *)
Inductive uarg : Type := UInt (n : Z) | UStr (s : list Z).
Definition lit (s : string) : list Z := List.map (fun a => Z.of_nat (Ascii.nat_of_ascii a)) (String.list_ascii_of_string s).
Fixpoint format (fmt : list Z) (pct : bool) (args : list uarg) : list Z :=
  match fmt with
  | [] => []
  | c :: fmt =>
      if negb pct then if c =? 37 then format fmt true args else c :: format fmt false args
      else match args with
           | UInt n :: args => if c =? 100 then default [] (printint (i32 n) 10 true) ++ format fmt false args else []
           | UStr s :: args => if c =? 115 then s ++ format fmt false args else []
           | [] => []
           end
  end.
Definition write_all (fd : Z) (l : list Z) : prog unit := each l (fun c => let* _ := call (Write fd [c]) in Ret tt).
Definition printf (fd : Z) (fmt : list Z) (args : list uarg) : prog unit := write_all fd (format fmt false args).
(** "...\n" *)
Definition line (s : string) : list Z := lit s ++ [10].

(** ** cat.c *)

Definition cat (fd : Z) : prog unit :=
  ITree.iter (fun _ : unit =>
    let* r := call (Read fd 512) in
    match r with
    | Some [] => Ret (inr tt)
    | Some l => let* _ := call (Write 1 l) in Ret (inl tt)
    | None => let* _ := printf 1 (line "cat: read error") [] in exit_
    end) tt.
Definition cat_main (argv : list (list Z)) : prog unit :=
  if bool_decide (length argv <= 1)%nat then let* _ := cat 0 in exit_
  else
    let* _ := each (tail argv) (fun path =>
      let* fd := call (Open path 0) in
      if fd <? 0 then let* _ := printf 1 (line "cat: cannot open %s") [UStr path] in exit_
      else let* _ := cat fd in let* _ := call (Close fd) in Ret tt) in
    exit_.

(** ** wc.c *)

Record counts := mkCounts { c_l : Z; c_w : Z; c_c : Z; c_in : bool }.
(** [strchr(" \r\t\n\v", c)] *)
Definition wc_space (c : Z) : bool := existsb (Z.eqb c) [32; 13; 9; 10; 11].
Definition wc_char (k : counts) (c : Z) : counts :=
  let l := if c =? 10 then i32 (c_l k + 1) else c_l k in
  if wc_space c then mkCounts l (c_w k) (i32 (c_c k + 1)) false
  else if negb (c_in k) then mkCounts l (i32 (c_w k + 1)) (i32 (c_c k + 1)) true
  else mkCounts l (c_w k) (i32 (c_c k + 1)) true.
Definition wc (fd : Z) (name : list Z) : prog unit :=
  let* k := ITree.iter (fun k : counts =>
    let* r := call (Read fd 512) in
    match r with
    | Some [] => Ret (inr k)
    | Some l => Ret (inl (fold_left wc_char l k))
    | None => let* _ := printf 1 (line "wc: read error") [] in exit_
    end) (mkCounts 0 0 0 false) in
  printf 1 (line "%d %d %d %s") [UInt (c_l k); UInt (c_w k); UInt (c_c k); UStr name].
Definition wc_main (argv : list (list Z)) : prog unit :=
  if bool_decide (length argv <= 1)%nat then let* _ := wc 0 [] in exit_
  else
    let* _ := each (tail argv) (fun path =>
      let* fd := call (Open path 0) in
      if fd <? 0 then let* _ := printf 1 (line "cat: cannot open %s") [UStr path] in exit_
      else let* _ := wc fd path in let* _ := call (Close fd) in Ret tt) in
    exit_.

(** ** echo.c *)

Fixpoint echo_args (argv : list (list Z)) : prog unit :=
  match argv with
  | [] => Ret tt
  | a :: argv =>
      let* _ := printf 1 (lit "%s%s") [UStr a; UStr (if bool_decide (argv = []) then [10] else [32])] in
      echo_args argv
  end.
Definition echo_main (argv : list (list Z)) : prog unit := let* _ := echo_args (tail argv) in exit_.

(** ** grep.c *)

(** From [buf] and [m] on; the buffer is a global array, and what one call
    leaves in it the next one finds. *)
Definition grep_from (pattern : list Z) (fd : Z) : list Z * Z -> prog (list Z) :=
  ITree.iter (fun '(buf, m) =>
    let* r := call (Read fd (u32 (Z.of_nat BUFSZ - m))) in
    match r with
    | Some (c :: l) =>
        match grep_turn pattern (c :: l) buf m [] with
        | Ok st out => let* _ := each out (fun l => let* _ := call (Write 1 l) in Ret tt) in Ret (inl st)
        | Stop _ _ => fault
        end
    | _ => Ret (inr buf)
    end).
Definition grep (pattern : list Z) (fd : Z) (buf : list Z) : prog (list Z) := grep_from pattern fd (buf, 0).
(** The loop over the files. *)
Fixpoint grep_files (pattern : list Z) (files : list (list Z)) (buf : list Z) : prog unit :=
  match files with
  | [] => exit_
  | path :: files =>
      let* fd := call (Open path 0) in
      if fd <? 0 then let* _ := printf 1 (line "grep: cannot open %s") [UStr path] in exit_
      else
        let* buf := grep pattern fd buf in
        let* _ := call (Close fd) in
        grep_files pattern files buf
  end.
Definition grep_main (argv : list (list Z)) : prog unit :=
  let buf := replicate BUFSZ 0 in
  match argv with
  | _ :: pattern :: files =>
      if bool_decide (files = []) then let* _ := grep pattern 0 buf in exit_
      else grep_files pattern files buf
  | _ => let* _ := printf 2 (line "usage: grep pattern [file ...]") [] in exit_
  end.

(** ** ls.c *)

Definition DIRSIZ : nat := 14.
Fixpoint after_slash (last s : list Z) : list Z :=
  match s with [] => last | c :: s => after_slash (if c =? 47 then s else last) s end.
Definition fmtname (path : list Z) : list Z :=
  let p := after_slash path path in
  if bool_decide (DIRSIZ <= length p)%nat then p else p ++ replicate (DIRSIZ - length p) 32.
(** stat() of ulib.c *)
Definition stat (n : list Z) : prog (option ustat) :=
  let* fd := call (Open n 0) in
  if fd <? 0 then Ret None
  else let* r := call (Fstat fd) in let* _ := call (Close fd) in Ret r.
Definition print_entry (path : list Z) (st : ustat) : prog unit :=
  printf 1 (line "%s %d %d %d") [UStr (fmtname path); UInt (st_type st); UInt (st_ino st); UInt (st_size st)].
Definition until_nul (l : list Z) : list Z := fold_right (fun c r => if c =? 0 then [] else c :: r) [] l.
Definition ls_dir (fd : Z) (path : list Z) : prog unit :=
  ITree.iter (fun _ : unit =>
    let* r := call (Read fd 16) in
    match r with
    | Some (i0 :: i1 :: name) =>
        if bool_decide (length name = DIRSIZ) then
          if i0 + 256 * i1 =? 0 then Ret (inl tt)
          else
            let buf := path ++ [47] ++ until_nul name in
            let* st := stat buf in
            match st with
            | None => let* _ := printf 1 (line "ls: cannot stat %s") [UStr buf] in Ret (inl tt)
            | Some st => let* _ := print_entry buf st in Ret (inl tt)
            end
        else Ret (inr tt)
    | _ => Ret (inr tt)
    end) tt.
Definition ls (path : list Z) : prog unit :=
  let* fd := call (Open path 0) in
  if fd <? 0 then printf 2 (line "ls: cannot open %s") [UStr path]
  else
    let* st := call (Fstat fd) in
    match st with
    | None => let* _ := printf 2 (line "ls: cannot stat %s") [UStr path] in let* _ := call (Close fd) in Ret tt
    | Some st =>
        let* _ :=
          (if st_type st =? 2 then print_entry path st
           else if st_type st =? 1 then
             if bool_decide (512 < length path + 1 + DIRSIZ + 1)%nat then printf 1 (line "ls: path too long") [] else ls_dir fd path
           else Ret tt) in
        let* _ := call (Close fd) in Ret tt
    end.
Definition ls_main (argv : list (list Z)) : prog unit :=
  let* _ := (if bool_decide (length argv < 2)%nat then ls [46] else each (tail argv) ls) in exit_.

(** ** rm.c, mkdir.c, ln.c, kill.c *)

(** The loop that stops at the first failure. *)
Fixpoint until_failure (l : list (list Z)) (f : list Z -> sysE Z) (msg : list Z) : prog unit :=
  match l with
  | [] => Ret tt
  | x :: l => let* r := call (f x) in if r <? 0 then printf 2 msg [UStr x] else until_failure l f msg
  end.
Definition rm_main (argv : list (list Z)) : prog unit :=
  if bool_decide (length argv < 2)%nat then let* _ := printf 2 (line "Usage: rm files...") [] in exit_
  else let* _ := until_failure (tail argv) Unlink (line "rm: %s failed to delete") in exit_.
Definition mkdir_main (argv : list (list Z)) : prog unit :=
  if bool_decide (length argv < 2)%nat then let* _ := printf 2 (line "Usage: mkdir files...") [] in exit_
  else let* _ := until_failure (tail argv) Mkdir (line "mkdir: %s failed to create") in exit_.
Definition ln_main (argv : list (list Z)) : prog unit :=
  match argv with
  | [_; old; new] =>
      let* r := call (Link old new) in
      if r <? 0 then let* _ := printf 2 (line "link %s %s: failed") [UStr old; UStr new] in exit_ else exit_
  | _ => let* _ := printf 2 (line "Usage: ln old new") [] in exit_
  end.
Definition kill_main (argv : list (list Z)) : prog unit :=
  if bool_decide (argv = []) then let* _ := printf 2 (line "usage: kill pid...") [] in exit_
  else let* _ := each (tail argv) (fun a => let* _ := call (Kill (default 0 (atoi (S (length a)) (of_list a)))) in Ret tt) in exit_.

(** ** init.c, zombie.c *)

Definition O_RDWR : Z := 2.
(** [while((wpid=wait()) >= 0 && wpid != pid) printf(1, "zombie!\n");] *)
Definition reap (pid : Z) : prog unit :=
  ITree.iter (fun _ : unit =>
    let* wpid := call Wait in
    if (0 <=? wpid) && negb (wpid =? pid) then let* _ := printf 1 (line "zombie!") [] in Ret (inl tt) else Ret (inr tt)) tt.
Definition init_turn : prog unit :=
  let* _ := printf 1 (line "init: starting sh") [] in
  let* pid := call Fork in
  if pid <? 0 then let* _ := printf 1 (line "init: fork failed") [] in exit_
  else if pid =? 0 then
    let* _ := call (Exec (lit "sh") [lit "sh"]) in
    let* _ := printf 1 (line "init: exec sh failed") [] in exit_
  else reap pid.
Definition init_main : prog void :=
  let* r := call (Open (lit "console") O_RDWR) in
  let* _ := (if r <? 0 then let* _ := call (Mknod (lit "console") 1 1) in let* _ := call (Open (lit "console") O_RDWR) in Ret tt else Ret tt) in
  let* _ := call (Dup 0) in
  let* _ := call (Dup 0) in
  ITree.iter (fun _ : unit => let* _ := init_turn in Ret (inl tt)) tt.
Definition zombie_main : prog unit :=
  let* pid := call Fork in
  let* _ := (if 0 <? pid then let* _ := call (Sleep 5) in Ret tt else Ret tt) in
  exit_.

(** ** The shell's loop *)

Section Shell.
(** runcmd(parsecmd(line)) in the child, which does not return. *)
Context (child : list Z -> prog unit).
(** gets(buf, max): a byte at a time. *)
Definition gets (max : Z) : prog (list Z) :=
  ITree.iter (fun buf : list Z =>
    if Z.of_nat (length buf) + 1 <? max then
      let* r := call (Read 0 1) in
      match r with
      | Some (c :: _) => let buf := buf ++ [c] in if (c =? 10) || (c =? 13) then Ret (inr buf) else Ret (inl buf)
      | _ => Ret (inr buf)
      end
    else Ret (inr buf)) [].
(** The line, or [None] at the end of the input. *)
Definition getcmd (nbuf : Z) : prog (option (list Z)) :=
  let* _ := printf 2 (lit "$ ") [] in
  let* buf := gets nbuf in
  Ret (match until_nul buf with [] => None | buf => Some buf end).
Definition fork1 : prog Z :=
  let* pid := call Fork in
  if pid =? -1 then let* _ := printf 2 (line "%s") [UStr (lit "fork")] in exit_ else Ret pid.
Definition three_fds : prog unit :=
  ITree.iter (fun _ : unit =>
    let* fd := call (Open (lit "console") O_RDWR) in
    if fd <? 0 then Ret (inr tt)
    else if 3 <=? fd then let* _ := call (Close fd) in Ret (inr tt) else Ret (inl tt)) tt.
Definition sh_turn : prog (unit + unit) :=
  let* r := getcmd 100 in
  match r with
  | None => Ret (inr tt)
  | Some (99 :: 100 :: 32 :: dir) =>
      let dir := removelast dir in
      let* r := call (Chdir dir) in
      if r <? 0 then let* _ := printf 2 (line "cannot cd %s") [UStr dir] in Ret (inl tt) else Ret (inl tt)
  | Some buf =>
      let* pid := fork1 in
      let* _ := (if pid =? 0 then child buf else Ret tt) in
      let* _ := call Wait in
      Ret (inl tt)
  end.
Definition sh_main : prog unit :=
  let* _ := three_fds in
  let* _ := ITree.iter (fun _ : unit => sh_turn) tt in
  exit_.
End Shell.

(** ** The rules *)

(** The state in which a program has called exit(). *)
Inductive haltE (S : Type) : Type -> Type := Halt (s : S) : haltE S void.
Arguments Halt {S} s.

Section Rules.
Context {S : Type} (h : forall T, sysE T -> S -> itree (haltE S) (S * T)).
Implicit Types (s : S).
Definition halted {A} s : itree (haltE S) A := let* v := ITree.trigger (Halt s) in match v : void with end.
(** The program returns [a]; it exits. *)
Definition runs {A} (p : prog A) s s' (a : A) : Prop := eutt eq (interp_state h p s) (Ret (s', a)).
Definition exits {A} (p : prog A) s s' : Prop := eutt eq (interp_state h p s) (halted s').

Lemma runs_ret {A} (a : A) s : runs (Ret a) s s a.
Proof. unfold runs. by rewrite interp_state_ret. Qed.
Lemma runs_call {A} (e : sysE A) s s' a : h _ e s = Ret (s', a) -> runs (call e) s s' a.
Proof. intros E. unfold runs, call. by rewrite interp_state_trigger, E. Qed.
Lemma runs_bind {A B} (p : prog A) (k : A -> prog B) s s1 a s' b : runs p s s1 a -> runs (k a) s1 s' b -> runs (ITree.bind p k) s s' b.
Proof. unfold runs. intros H1 H2. rewrite interp_state_bind, H1, bind_ret_l. apply H2. Qed.
Lemma exits_bind {A B} (p : prog A) (k : A -> prog B) s s1 a s' : runs p s s1 a -> exits (k a) s1 s' -> exits (ITree.bind p k) s s'.
Proof. unfold runs, exits. intros H1 H2. rewrite interp_state_bind, H1, bind_ret_l. apply H2. Qed.
Lemma halted_bind {A B} s (k : A -> itree (haltE S) B) : eutt eq (ITree.bind (halted s) k) (halted s).
Proof. unfold halted. rewrite bind_bind. eapply eutt_clo_bind; [reflexivity|intros []]. Qed.
Lemma exits_first {A B} (p : prog A) (k : A -> prog B) s s' : exits p s s' -> exits (ITree.bind p k) s s'.
Proof. unfold exits. intros H1. rewrite interp_state_bind, H1. apply halted_bind. Qed.
Lemma runs_iter {I A} (f : I -> prog (I + A)) i s s1 j s' a : runs (f i) s s1 (inl j) -> runs (ITree.iter f j) s1 s' a -> runs (ITree.iter f i) s s' a.
Proof. intros H1 H2. unfold runs. rewrite unfold_iter. eapply runs_bind; [exact H1|]. unfold runs. cbn. rewrite interp_state_tau, tau_eutt. apply H2. Qed.
Lemma runs_iter_end {I A} (f : I -> prog (I + A)) i s s' a : runs (f i) s s' (inr a) -> runs (ITree.iter f i) s s' a.
Proof. intros H1. unfold runs. rewrite unfold_iter. eapply runs_bind; [exact H1|]. apply runs_ret. Qed.
Lemma exits_iter {I A} (f : I -> prog (I + A)) i s s' : exits (f i) s s' -> exits (ITree.iter f i) s s'.
Proof. intros H1. unfold exits. rewrite unfold_iter. by apply exits_first. Qed.
Lemma runs_each {A} (l : list A) (f : A -> prog unit) (st : list A -> S) :
  (forall x l', runs (f x) (st (x :: l')) (st l') tt) -> runs (each l f) (st l) (st []) tt.
Proof. intros Hf. induction l as [|x l IH]; [apply runs_ret|]. cbn [each]. eapply runs_bind; [apply Hf|exact IH]. Qed.
End Rules.

(** ** A world of files *)

Record world := mkWorld { files : list Z -> option (list Z); fds : gmap Z (list Z); out1 : list Z; out2 : list Z }.
Definition set_fds v w := mkWorld (files w) v (out1 w) (out2 w).
(** [l] written to the standard output or the standard error. *)
Definition wrote (fd : Z) (l : list Z) (w : world) : world :=
  if fd =? 1 then mkWorld (files w) (fds w) (out1 w ++ l) (out2 w) else if fd =? 2 then mkWorld (files w) (fds w) (out1 w) (out2 w ++ l) else w.

Section World.
(** How much of what is left a read of [n] bytes returns; the descriptor of a
    file that is opened. *)
Context (cut : list Z -> Z -> nat) (newfd : gmap Z (list Z) -> Z).
Definition answer : forall T, sysE T -> world -> itree (haltE world) (world * T) := fun T e =>
  match e with
  | Open path _ => fun w => match files w path with Some c => Ret (set_fds (<[newfd (fds w) := c]> (fds w)) w, newfd (fds w)) | None => Ret (w, -1) end
  | Close fd => fun w => match fds w !! fd with Some _ => Ret (set_fds (delete fd (fds w)) w, 0) | None => Ret (w, -1) end
  | Read fd n => fun w =>
      match fds w !! fd with
      | Some l => let k := if bool_decide (l = []) then 0%nat else cut l n in Ret (set_fds (<[fd := drop k l]> (fds w)) w, Some (take k l))
      | None => Ret (w, None)
      end
  | Write fd l => fun w => Ret (wrote fd l w, Z.of_nat (length l))
  | Exit => fun w => halted w
  | Fault => fun w => ITree.spin
  | Fstat _ => fun w => Ret (w, None)
  | Dup _ | Mknod _ _ _ | Link _ _ | Unlink _ | Mkdir _ | Chdir _ | Kill _ | Sleep _ | Fork | Wait | Exec _ _ => fun w => Ret (w, -1)
  end.
Context (Hcut : forall l n, l <> [] -> 0 < n -> (1 <= cut l n <= length l)%nat) (Hnew : forall m, 3 <= newfd m /\ m !! newfd m = None).
Notation Runs := (runs answer).
Notation Exits := (exits answer).

Lemma wrote_app fd l l' w : wrote fd l' (wrote fd l w) = wrote fd (l ++ l') w.
Proof. unfold wrote. destruct (fd =? 1); cbn; [by rewrite app_assoc|]. destruct (fd =? 2); cbn; [by rewrite app_assoc|done]. Qed.
Lemma wrote_nil fd w : wrote fd [] w = w.
Proof. unfold wrote. destruct w as [f m o1 o2]. destruct (fd =? 1); cbn; [by rewrite app_nil_r|]. destruct (fd =? 2); cbn; [by rewrite app_nil_r|done]. Qed.
Lemma wrote_fds fd l m w : wrote fd l (set_fds m w) = set_fds m (wrote fd l w).
Proof. unfold wrote. destruct (fd =? 1); [done|]. by destruct (fd =? 2). Qed.
Lemma fds_wrote fd l w : fds (wrote fd l w) = fds w.
Proof. unfold wrote. destruct (fd =? 1); [done|]. by destruct (fd =? 2). Qed.
Lemma files_wrote fd l w : files (wrote fd l w) = files w.
Proof. unfold wrote. destruct (fd =? 1); [done|]. by destruct (fd =? 2). Qed.

Lemma runs_write fd l w : Runs (call (Write fd l)) w (wrote fd l w) (Z.of_nat (length l)).
Proof. by apply runs_call. Qed.
Lemma runs_write_all fd l w : Runs (write_all fd l) w (wrote fd l w) tt.
Proof.
  revert w. induction l as [|c l IH]; intros w; [rewrite wrote_nil; apply runs_ret|]. unfold write_all. cbn [each].
  eapply runs_bind; [eapply runs_bind; [apply runs_write|apply runs_ret]|]. change (c :: l) with ([c] ++ l). rewrite <- wrote_app. apply IH.
Qed.
Lemma runs_printf fd fmt args w : Runs (printf fd fmt args) w (wrote fd (format fmt false args) w) tt.
Proof. apply runs_write_all. Qed.
Lemma exits_exit {A} w : Exits (exit_ (A := A)) w w.
Proof. apply exits_first. unfold exits, call. rewrite interp_state_trigger. reflexivity. Qed.
Lemma runs_read fd n l w : fds w !! fd = Some l -> 0 < n ->
  exists k, Runs (call (Read fd n)) w (set_fds (<[fd := drop k l]> (fds w)) w) (Some (take k l)) /\ (l = [] \/ (1 <= k <= length l)%nat).
Proof.
  intros Hl Hn. eexists. split; [apply runs_call; cbn; by rewrite Hl|]. cbn. case_bool_decide; [by left|right]. by apply Hcut.
Qed.

(** A loop that reads a descriptor to its end, whatever the pieces: [step] and
    [eff] are what a piece does to the loop's variables and to the world. *)
Section ReadLoop.
Context {I A : Type} (fd n : Z) (k : I -> option (list Z) -> prog (I + A)) (step : I -> list Z -> I) (eff : list Z -> world -> world) (fin : I -> A).
Context (Hn : 0 < n) (Hend : forall i w, Runs (k i (Some [])) w w (inr (fin i))).
Context (Hpiece : forall i c l w, Runs (k i (Some (c :: l))) w (eff (c :: l) w) (inl (step i (c :: l)))).
Context (Hstep : forall i l l', step i (l ++ l') = step (step i l) l') (Hstep0 : forall i, step i [] = i).
Context (Heff : forall l l' w, eff (l ++ l') w = eff l' (eff l w)) (Heff0 : forall w, eff [] w = w).
Context (Hfds : forall l m w, eff l (set_fds m w) = set_fds m (eff l w)).
Lemma read_to_end : forall size l i w, (length l <= size)%nat -> fds w !! fd = Some l ->
  Runs (ITree.iter (fun i => let* r := call (Read fd n) in k i r) i) w (eff l (set_fds (<[fd := []]> (fds w)) w)) (fin (step i l)).
Proof.
  induction size as [|size IH]; intros l i w Hl Hfd; destruct (runs_read fd n l w Hfd Hn) as (j & R & Hj).
  - destruct l; [|cbn in Hl; lia]. rewrite drop_nil, take_nil in R. rewrite Hstep0, Heff0. apply runs_iter_end. eapply runs_bind; [exact R|]. apply Hend.
  - destruct Hj as [->|Hj].
    { rewrite drop_nil, take_nil in R. rewrite Hstep0, Heff0. apply runs_iter_end. eapply runs_bind; [exact R|]. apply Hend. }
    rewrite <- (take_drop j l) at 1 2. rewrite Hstep, Heff. assert (Hd : (length (drop j l) <= size)%nat) by (rewrite length_drop; lia). revert R Hd. generalize (drop j l). intros l2.
    destruct (take j l) as [|c l1] eqn:Et; [apply (f_equal length) in Et; rewrite length_take in Et; cbn in Et; lia|]. intros R Hd.
    eapply runs_iter; [eapply runs_bind; [exact R|apply Hpiece]|]. rewrite Hfds.
    replace (eff l2 (eff (c :: l1) (set_fds (<[fd := []]> (fds w)) w))) with (eff l2 (set_fds (<[fd := []]> (fds (set_fds (<[fd := l2]> (fds w)) (eff (c :: l1) w)))) (set_fds (<[fd := l2]> (fds w)) (eff (c :: l1) w)))).
    + apply IH; [done|]. cbn. by rewrite lookup_insert_eq.
    + f_equal. cbn. rewrite insert_insert_eq, Hfds. done.
Qed.
End ReadLoop.

Lemma cat_runs fd l w : fds w !! fd = Some l -> Runs (cat fd) w (wrote 1 l (set_fds (<[fd := []]> (fds w)) w)) tt.
Proof.
  intros Hl. unfold cat.
  apply (read_to_end (A := unit) fd 512 (fun _ r => match r with Some [] => Ret (inr tt) | Some l => let* _ := call (Write 1 l) in Ret (inl tt) | None => let* _ := printf 1 (line "cat: read error") [] in exit_ end)
    (fun i _ => i) (wrote 1) (fun i => i)) with (size := length l); try done.
  - intros [] w'. apply runs_ret.
  - intros i c l' w'. destruct i. eapply runs_bind; [apply runs_write|apply runs_ret].
  - intros l1 l2 w'. by rewrite wrote_app.
  - apply wrote_nil.
Qed.

(** The program for one file: open, work, close. *)
Lemma file_runs (work : Z -> prog unit) path c w (l : list Z) (err : prog unit) : files w path = Some c ->
  (forall fd w', fds w' !! fd = Some c -> Runs (work fd) w' (wrote 1 l (set_fds (<[fd := []]> (fds w')) w')) tt) ->
  Runs (let* fd := call (Open path 0) in if fd <? 0 then err else let* _ := work fd in let* _ := call (Close fd) in Ret tt) w (wrote 1 l w) tt.
Proof.
  intros Hc Hw. destruct (Hnew (fds w)) as [H3 Hn]. set (fd := newfd (fds w)) in *. set (w1 := set_fds (<[fd := c]> (fds w)) w).
  eapply (runs_bind _ _ _ w w1 fd); [apply runs_call; cbn; by rewrite Hc|]. rewrite (proj2 (Z.ltb_ge fd 0)) by lia.
  eapply runs_bind; [apply Hw; cbn; by rewrite lookup_insert_eq|]. cbn [fds w1 set_fds]. rewrite insert_insert_eq.
  eapply runs_bind; [|apply runs_ret]. apply runs_call. cbn [answer]. rewrite fds_wrote. cbn [fds set_fds]. rewrite lookup_insert_eq.
  rewrite delete_insert_id, <- wrote_fds by done. by destruct w.
Qed.
Lemma file_exits {A} (work : Z -> prog A) path c w (l : list Z) (err : prog unit) (k : A -> prog unit) (Q : A -> Prop) w2 : files w path = Some c ->
  (forall fd w', fds w' !! fd = Some c -> exists a, Runs (work fd) w' (wrote 1 l (set_fds (<[fd := []]> (fds w')) w')) a /\ Q a) ->
  (forall a, Q a -> Exits (k a) (wrote 1 l w) w2) ->
  Exits (let* fd := call (Open path 0) in if fd <? 0 then err else let* r := work fd in let* _ := call (Close fd) in k r) w w2.
Proof.
  intros Hc Hw Hk. destruct (Hnew (fds w)) as [H3 Hn]. set (fd := newfd (fds w)) in *. set (w1 := set_fds (<[fd := c]> (fds w)) w).
  eapply (exits_bind _ _ _ w w1 fd); [apply runs_call; cbn; by rewrite Hc|]. rewrite (proj2 (Z.ltb_ge fd 0)) by lia.
  destruct (Hw fd w1) as (a & R & Ha); [cbn; by rewrite lookup_insert_eq|]. eapply exits_bind; [exact R|]. cbn [fds w1 set_fds]. rewrite insert_insert_eq.
  eapply exits_bind; [|apply (Hk a Ha)]. apply (runs_call _ _ _ _ 0). cbn [answer]. rewrite fds_wrote. cbn [fds set_fds]. rewrite lookup_insert_eq.
  rewrite delete_insert_id, <- wrote_fds by done. by destruct w.
Qed.
Lemma each_runs (f : list Z -> prog unit) (g : list Z -> list Z -> list Z) : forall paths cs w,
  Forall2 (fun p c => files w p = Some c) paths cs -> (forall p c w', files w' p = Some c -> Runs (f p) w' (wrote 1 (g p c) w') tt) ->
  Runs (each paths f) w (wrote 1 (concat (zip_with g paths cs)) w) tt.
Proof.
  induction paths as [|p paths IH]; intros cs w Hf Hg; inversion Hf as [|? c ? cs' Hp Hps]; subst; cbn [each zip_with concat]; [rewrite wrote_nil; apply runs_ret|].
  eapply runs_bind; [by apply Hg|]. rewrite <- wrote_app. apply IH; [|done]. eapply Forall2_impl; [exact Hps|]. intros ? ?. by rewrite files_wrote.
Qed.

(** Cat copies: for files that exist, and however read() cuts them into
    pieces, it writes their contents one after the other to the standard
    output and exits, with every descriptor closed again. *)
Theorem cat_correct name paths cs w : paths <> [] -> Forall2 (fun p c => files w p = Some c) paths cs ->
  Exits (cat_main (name :: paths)) w (wrote 1 (concat cs) w).
Proof.
  intros Hne Hf. unfold cat_main. rewrite bool_decide_false by (destruct paths; [done|cbn; lia]). cbn [tail].
  eapply exits_bind; [|apply exits_exit].
  replace (concat cs) with (concat (zip_with (fun (_ c : list Z) => c) paths cs)) by (f_equal; clear -Hf; induction Hf; cbn; congruence).
  apply each_runs; [done|]. intros p c w' Hc. apply (file_runs cat p c w' c); [done|]. intros. by apply cat_runs.
Qed.

(** ** wc *)

(** The first characters of words. *)
Fixpoint word_starts (after_space : bool) (l : list Z) : nat :=
  match l with [] => 0 | c :: l => ((if after_space && negb (wc_space c) then 1 else 0) + word_starts (wc_space c) l)%nat end.
Definition newlines (l : list Z) : nat := length (filter (fun c => c = 10) l).
Lemma wc_fold l : forall nl nw nc b, fold_left wc_char l (mkCounts (i32 nl) (i32 nw) (i32 nc) b) =
  mkCounts (i32 (nl + Z.of_nat (newlines l))) (i32 (nw + Z.of_nat (word_starts (negb b) l))) (i32 (nc + Z.of_nat (length l))) (fold_left (fun _ c => negb (wc_space c)) l b).
Proof.
  assert (Hi : forall x, i32 (i32 x + 1) = i32 (x + 1)).
  { intros x. unfold i32. f_equal. replace ((x + 2 ^ 31) mod 2 ^ 32 - 2 ^ 31 + 1 + 2 ^ 31) with ((x + 2 ^ 31) mod 2 ^ 32 + 1) by lia. rewrite Zplus_mod_idemp_l. f_equal. lia. }
  induction l as [|c l IH]; intros nl nw nc b; cbn [fold_left word_starts length]; [by rewrite !Z.add_0_r|].
  assert (Hnl : newlines (c :: l) = ((if (c =? 10)%Z then 1 else 0) + newlines l)%nat) by (unfold newlines; rewrite filter_cons; destruct (Z.eqb_spec c 10); [rewrite decide_True by done|rewrite decide_False by done]; done).
  rewrite Hnl. unfold wc_char at 2. cbn [c_l c_w c_c c_in]. rewrite !Hi.
  replace (if c =? 10 then i32 (nl + 1) else i32 nl) with (i32 (nl + if c =? 10 then 1 else 0)) by (destruct (c =? 10); [done|by rewrite Z.add_0_r]).
  destruct (wc_space c); [|destruct b]; cbn [negb andb]; rewrite ?andb_false_r, IH; f_equal; try done; f_equal. all: cbn [negb]; destruct (c =? 10); lia.
Qed.
Definition wc_line (path c : list Z) : list Z :=
  format (line "%d %d %d %s") false [UInt (i32 (Z.of_nat (newlines c))); UInt (i32 (Z.of_nat (word_starts true c))); UInt (i32 (Z.of_nat (length c))); UStr path].
Lemma wc_runs fd name l w : fds w !! fd = Some l -> Runs (wc fd name) w (wrote 1 (wc_line name l) (set_fds (<[fd := []]> (fds w)) w)) tt.
Proof.
  intros Hl. unfold wc. eapply runs_bind.
  - apply (read_to_end fd 512 (fun k r => match r with Some [] => Ret (inr k) | Some l => Ret (inl (fold_left wc_char l k)) | None => let* _ := printf 1 (line "wc: read error") [] in exit_ end)
      (fun k l => fold_left wc_char l k) (fun _ w => w) (fun k => k)) with (size := length l); try done.
    + intros k w'. apply runs_ret.
    + intros k c l' w'. apply runs_ret.
    + intros k l1 l2. apply fold_left_app.
  - change (mkCounts 0 0 0 false) with (mkCounts (i32 0) (i32 0) (i32 0) false). rewrite wc_fold. apply runs_printf.
Qed.
(** Wc counts: for every file it prints the number of newlines, of words,
    that is of characters other than white space at the start or after white
    space, and of bytes, however read() cuts the file into pieces. *)
Theorem wc_correct name paths cs w : paths <> [] -> Forall2 (fun p c => files w p = Some c) paths cs ->
  Exits (wc_main (name :: paths)) w (wrote 1 (concat (zip_with wc_line paths cs)) w).
Proof.
  intros Hne Hf. unfold wc_main. rewrite bool_decide_false by (destruct paths; [done|cbn; lia]). cbn [tail].
  eapply exits_bind; [|apply exits_exit]. apply each_runs; [done|]. intros p c w' Hc.
  apply (file_runs (fun fd => wc fd p) p c w'); [done|]. intros. by apply wc_runs.
Qed.

(** ** echo and grep *)

Fixpoint joined (l : list (list Z)) : list Z :=
  match l with [] => [] | [a] => a ++ [10] | a :: l => a ++ [32] ++ joined l end.
Lemma echo_correct argv w : Exits (echo_main argv) w (wrote 1 (joined (tail argv)) w).
Proof.
  unfold echo_main. eapply exits_bind; [|apply exits_exit]. generalize (tail argv). intros l. revert w.
  induction l as [|a l IH]; intros w; cbn [echo_args joined]; [rewrite wrote_nil; apply runs_ret|].
  eapply runs_bind; [apply runs_printf|]. change (format (lit "%s%s") false [UStr a; UStr (if bool_decide (l = []) then [10] else [32])]) with (a ++ (if bool_decide (l = []) then [10] else [32]) ++ []).
  rewrite app_nil_r. destruct l as [|b l]; [apply runs_ret|]. rewrite bool_decide_false by done.
  change (joined (a :: b :: l)) with (a ++ [32] ++ joined (b :: l)). rewrite app_assoc, <- (wrote_app 1 (a ++ [32]) (joined (b :: l))). apply IH.
Qed.

Lemma runs_writes ls w : Runs (each ls (fun l => let* _ := call (Write 1 l) in Ret tt)) w (wrote 1 (concat ls) w) tt.
Proof.
  revert w. induction ls as [|l ls IH]; intros w; cbn [each concat]; [rewrite wrote_nil; apply runs_ret|].
  eapply runs_bind; [eapply runs_bind; [apply runs_write|apply runs_ret]|]. rewrite <- wrote_app. apply IH.
Qed.
(** At the end of the file. *)
Lemma grep_end pattern fd buf m w : fds w !! fd = Some [] -> Runs (grep_from pattern fd (buf, m)) w (set_fds (<[fd := []]> (fds w)) w) buf.
Proof.
  intros Hfd. apply runs_iter_end. apply (runs_bind _ _ _ _ (set_fds (<[fd := []]> (fds w)) w) (Some [])); [|apply runs_ret].
  apply runs_call. cbn. rewrite Hfd. done.
Qed.
(** A text file that fits into the buffer and is read at once. *)
Definition short_text (c : list Z) : Prop := (0 ∉ c) /\ (length c < BUFSZ)%nat /\ cut c 1024 = length c.
Definition found (pattern c : list Z) : list Z := concat (selected pattern (lines c)).
(** A file that is read at once. *)
Lemma grep_once pattern fd c buf w buf' m ls : fds w !! fd = Some c -> c <> [] -> cut c 1024 = length c -> grep_turn pattern c buf 0 [] = Ok (buf', m) ls ->
  Runs (grep pattern fd buf) w (wrote 1 (concat ls) (set_fds (<[fd := []]> (fds w)) w)) buf'.
Proof.
  intros Hfd Hne Hc E. destruct c as [|x c]; [done|]. set (w1 := set_fds (<[fd := []]> (fds w)) w).
  unfold grep. apply (runs_iter _ _ _ _ (wrote 1 (concat ls) w1) (buf', m)).
  - cbv beta iota. apply (runs_bind _ _ _ _ w1 (Some (x :: c))).
    + apply runs_call. cbn [answer]. rewrite Hfd. change (u32 (Z.of_nat BUFSZ - 0)) with 1024. rewrite bool_decide_false, Hc by done. by rewrite drop_all, take_ge by done.
    + rewrite E. eapply runs_bind; [apply runs_writes|apply runs_ret].
  - assert (Hfd' : fds (wrote 1 (concat ls) w1) !! fd = Some []) by (rewrite fds_wrote; cbn; by rewrite lookup_insert_eq).
    pose proof (grep_end pattern fd buf' m _ Hfd') as R. rewrite fds_wrote in R. cbn [w1 fds set_fds] in R. rewrite insert_insert_eq in R. by rewrite <- wrote_fds in R.
Qed.
Lemma grep_runs pattern fd c buf w : fds w !! fd = Some c -> short_text c -> clear_from (length c) buf ->
  exists buf', Runs (grep pattern fd buf) w (wrote 1 (found pattern c) (set_fds (<[fd := []]> (fds w)) w)) buf' /\ clear_from (length c) buf'.
Proof.
  intros Hfd (H0 & Hl & Hc) Hb. destruct (decide (c = [])) as [->|Hne]; [exists buf; split; [|done]; change (found pattern []) with (@nil Z); rewrite wrote_nil; by apply grep_end|].
  destruct (grep_turn_run pattern c buf [] Hb H0 Hl) as (buf' & m & E & Hb'). exists buf'. split; [|done]. by eapply grep_once.
Qed.
Lemma grep_files_run pattern : forall paths cs buf w, Forall2 (fun p c => files w p = Some c) paths cs -> Forall short_text cs ->
  StronglySorted le (length <$> cs) -> (forall c, head cs = Some c -> clear_from (length c) buf) ->
  Exits (grep_files pattern paths buf) w (wrote 1 (concat (found pattern <$> cs)) w).
Proof.
  induction paths as [|p paths IH]; intros cs buf w Hf Ht Hs Hb; inversion Hf as [|? c ? cs' Hp Hps]; subst; cbn [grep_files fmap list_fmap concat]; [rewrite wrote_nil; apply exits_exit|].
  apply Forall_cons in Ht as [Hc Ht]. apply StronglySorted_inv in Hs as [Hs Hle]. eapply file_exits; [exact Hp| |].
  - intros fd w' Hfd. by apply (grep_runs pattern fd c buf w' Hfd Hc (Hb c eq_refl)).
  - intros buf' Hb'. rewrite <- wrote_app. apply IH; [|done|done|].
    + eapply Forall2_impl; [exact Hps|]. intros ? ?. by rewrite files_wrote.
    + intros c' Hc'. apply (clear_from_le _ _ _ Hb'). destruct cs' as [|c2 cs']; [done|]. injection Hc' as ->. by apply Forall_cons in Hle as [? _].
Qed.
(** C35: grep prints, of text files that fit into its buffer and are read at once,
    none shorter than the one before it, exactly the lines that match the
    pattern, in their order, and exits with every descriptor closed.  (What a
    longer file has left in the buffer is searched with a shorter one after it:
    [grep_stale_files].) *)
Theorem grep_correct name pattern paths cs w : paths <> [] -> Forall2 (fun p c => files w p = Some c) paths cs ->
  Forall short_text cs -> StronglySorted le (length <$> cs) ->
  Exits (grep_main (name :: pattern :: paths)) w (wrote 1 (concat ((fun c => concat (selected pattern (lines c))) <$> cs)) w).
Proof.
  intros Hne Hf Ht Hs. unfold grep_main. rewrite bool_decide_false by done. apply (grep_files_run pattern paths cs); try done. intros c Hc.
  split; [by rewrite length_replicate|by rewrite drop_replicate].
Qed.
(** After "aaa" in one file, the line "b" of the next, shorter file is followed by "a" in the buffer. *)
Lemma grep_stale_files name p1 p2 w : files w p1 = Some [97; 97; 97; 10] -> files w p2 = Some [98; 10] -> (forall l, cut l 1024 = length l) ->
  Exits (grep_main [name; [97]; p1; p2]) w (wrote 1 ([97; 97; 97; 10] ++ [97; 10]) w).
Proof.
  intros H1 H2 Hc. unfold grep_main. rewrite bool_decide_false by done. cbn [grep_files]. rewrite <- wrote_app.
  set (b1 := [97; 97; 97; 10] ++ replicate 1020 0). apply (file_exits _ p1 [97; 97; 97; 10] w [97; 97; 97; 10] _ _ (eq b1)); [done| |].
  - intros fd w' Hfd. exists b1. split; [|done]. apply (grep_once [97] fd [97; 97; 97; 10] _ w' b1 0 [[97; 97; 97; 10]]); [done|done|apply Hc|by vm_compute].
  - intros ? <-. apply (file_exits _ p2 [98; 10] _ [97; 10] _ _ (fun _ => True)); [by rewrite files_wrote| |intros; apply exits_exit].
    intros fd w' Hfd. eexists. split; [|done]. eapply (grep_once [97] fd [98; 10] b1 w' _ _ [[97; 10]]); [done|done|apply Hc|by vm_compute].
Qed.
End World.

(** printf of Ulib.v, on words and memory, prints these bytes. *)
Definition arg_word (fuel : nat) (m : mem) (a : uarg) (x : Z) : Prop :=
  match a with UInt n => i32 x = i32 n | UStr s => x <> 0 /\ string_at fuel m x = Some s end.
Fixpoint plain (fmt : list Z) (pct : bool) (args : list uarg) : bool :=
  match fmt with
  | [] => true
  | c :: fmt =>
      if negb pct then plain fmt (c =? 37) args
      else match args with
           | UInt _ :: args => (c =? 100) && plain fmt false args
           | UStr _ :: args => (c =? 115) && plain fmt false args
           | [] => false
           end
  end.
Lemma printf_writes_format fuel m fmt : forall pct args ws, plain fmt pct args = true -> Forall2 (arg_word fuel m) args ws ->
  printf_loop fuel m fmt pct ws = Some (format fmt pct args).
Proof.
  induction fmt as [|c fmt IH]; intros pct args ws Hp Hw; [done|]. cbn [printf_loop format plain] in *. destruct pct; cbn [negb] in *.
  - destruct Hw as [|[n|s] x args ws Ha Hw]; [done|..]; apply andb_true_iff in Hp as [Hc Hp]; rewrite Hc.
    + cbn in Ha. rewrite Ha. assert (Hi : exists l, printint (i32 n) 10 true = Some l).
      { edestruct (printint_correct (i32 n)) as [E _]; [unfold i32; pose proof (Z.mod_pos_bound (n + 2 ^ 31) (2 ^ 32)); lia|]. eauto. }
      destruct Hi as [l ->]. cbn. by rewrite (IH _ _ _ Hp Hw).
    + apply Z.eqb_eq in Hc as ->. destruct Ha as [Hx Hs]. cbn [Z.eqb Pos.eqb orb]. rewrite (proj2 (Z.eqb_neq x 0) Hx), Hs. cbn. by rewrite (IH _ _ _ Hp Hw).
  - destruct (c =? 37); by rewrite (IH _ _ _ Hp Hw).
Qed.

(** ** Witnesses *)

(** Reads of at most two bytes; the first descriptor from 3 on that is free. *)
Definition cut2 (l : list Z) (n : Z) : nat := Nat.min 2 (length l).
Definition all_of (l : list Z) (n : Z) : nat := length l.
Definition free_fd (m : gmap Z (list Z)) : Z := 3 + Z.of_nat (fresh (set_map (fun k => Z.to_nat (k - 3)) (dom m) : gset nat)).
Lemma cut2_ok l n : l <> [] -> 0 < n -> (1 <= cut2 l n <= length l)%nat.
Proof. intros Hl _. unfold cut2. destruct l; [done|]. cbn [length]. lia. Qed.
Lemma all_of_ok l n : l <> [] -> 0 < n -> (1 <= all_of l n <= length l)%nat.
Proof. intros Hl _. unfold all_of. destruct l; [done|]. cbn. lia. Qed.
Lemma free_fd_ok m : 3 <= free_fd m /\ m !! free_fd m = None.
Proof.
  unfold free_fd. set (X := set_map _ _). pose proof (is_fresh X) as Hf. revert Hf. generalize (fresh X). intros n Hf. split; [lia|]. apply not_elem_of_dom. intros Hd. apply Hf.
  apply elem_of_map. exists (3 + Z.of_nat n). split; [lia|exact Hd].
Qed.
Definition demo_world : world := mkWorld (fun p => if decide (p = [97]) then Some [104; 105; 32; 120; 10] else if decide (p = [98]) then Some [121; 10] else None) ∅ [] [].
Lemma demo_files : Forall2 (fun p c => files demo_world p = Some c) [[97]; [98]] [[104; 105; 32; 120; 10]; [121; 10]].
Proof. by repeat constructor. Qed.

Lemma cat_correct_witness : exits (answer cut2 free_fd) (cat_main [lit "cat"; [97]; [98]]) demo_world (wrote 1 [104; 105; 32; 120; 10; 121; 10] demo_world).
Proof. exact (cat_correct cut2 free_fd cut2_ok free_fd_ok (lit "cat") [[97]; [98]] _ demo_world ltac:(done) demo_files). Defined.
(** 1 2 5 a and 1 1 2 b *)
Lemma wc_correct_witness : exits (answer cut2 free_fd) (wc_main [lit "wc"; [97]; [98]]) demo_world (wrote 1 (line "1 2 5 a" ++ line "1 1 2 b") demo_world).
Proof. exact (wc_correct cut2 free_fd cut2_ok free_fd_ok (lit "wc") [[97]; [98]] _ demo_world ltac:(done) demo_files). Defined.
Lemma grep_correct_witness : exits (answer all_of free_fd) (grep_main [lit "grep"; lit "^h.*x$"; [98]; [97]]) demo_world (wrote 1 (line "hi x") demo_world).
Proof.
  apply (grep_correct all_of free_fd free_fd_ok (lit "grep") (lit "^h.*x$") [[98]; [97]] [[121; 10]; [104; 105; 32; 120; 10]] demo_world); [done|by repeat constructor| |repeat constructor; cbn; lia].
  repeat constructor; first [set_solver|cbn; unfold BUFSZ; lia].
Defined.
