(* ===== verification/Spinlock.v ===== *)
(** * spinlock.c: spin locks and interrupt nesting

    Processors run acquire and release concurrently.  The state is every
    processor's interrupt flag and pushcli nesting, the locks in shared memory
    and every processor's position inside acquire or release; one step is one
    access to shared memory, so the two reads of [holding] and the write of
    [lk->cpu] after the xchg interleave with the other processors.  The caller
    program counters of [lk->pcs] are debugging information and left out.

    The last part is the view the other components have of a lock: between
    acquire and release nobody else runs their critical sections. *)

From stdpp Require Import functions.
From S2P Require Import Prelude.

Record cpu := mkCpu { iflag : bool; ncli : Z; intena : bool }.

Definition pushcli (c : cpu) : cpu :=
  mkCpu false (ncli c + 1) (if ncli c =? 0 then iflag c else intena c).

(** The message of the panic, or the new state. *)
Definition popcli (c : cpu) : string + cpu :=
  if iflag c then inl "popcli - interruptible"
  else
    let n := ncli c - 1 in
    if n <? 0 then inl "popcli"
    else inr (mkCpu (if (n =? 0) && intena c then true else iflag c) n (intena c)).

(** [lcpu] is the processor number, [None] the null pointer. *)
Record spinlock := mkLock { locked : Z; lcpu : option nat }.
Definition initlock : spinlock := mkLock 0 None.

(** Where a processor is: outside, or before the named access of acquire or
    release of a lock. *)
Inductive pc :=
| Run
| Acq_hold1 (l : Z)        (** holding: read [lk->locked] *)
| Acq_hold2 (l : Z)        (** holding: read [lk->cpu] *)
| Acq_spin (l : Z)         (** xchg(&lk->locked, 1) *)
| Acq_record (l : Z)       (** lk->cpu = cpu *)
| Rel_hold1 (l : Z)
| Rel_hold2 (l : Z)
| Rel_clear (l : Z)        (** lk->cpu = 0 *)
| Rel_xchg (l : Z)         (** xchg(&lk->locked, 0) *)
| Rel_pop (l : Z)          (** popcli *)
| Panicked (msg : string) (l : Z).

Record machine := mkMachine { cpus : nat -> cpu; pcs : nat -> pc; locks : Z -> spinlock }.

Definition upd_cpu (i : nat) (c : cpu) (p : pc) (m : machine) : machine :=
  mkMachine (<[i := c]> (cpus m)) (<[i := p]> (pcs m)) (locks m).
Definition goto (i : nat) (p : pc) (m : machine) : machine :=
  mkMachine (cpus m) (<[i := p]> (pcs m)) (locks m).
Definition set_lock (l : Z) (k : spinlock) (m : machine) : machine :=
  mkMachine (cpus m) (pcs m) (<[l := k]> (locks m)).

(** One step of processor [i]. *)
Inductive step (i : nat) (m : machine) : machine -> Prop :=
(** outside of the locks a processor with no lock may change its flag (sti,
    cli, traps) *)
| step_flag b :
    pcs m i = Run -> ncli (cpus m i) = 0 ->
    step i m (upd_cpu i (mkCpu b 0 (intena (cpus m i))) Run m)
| step_acquire l :
    pcs m i = Run -> step i m (upd_cpu i (pushcli (cpus m i)) (Acq_hold1 l) m)
| step_acq_hold1 l :
    pcs m i = Acq_hold1 l ->
    step i m (goto i (if truth (locked (locks m l)) then Acq_hold2 l else Acq_spin l) m)
| step_acq_hold2 l :
    pcs m i = Acq_hold2 l ->
    step i m (goto i (if bool_decide (lcpu (locks m l) = Some i) then Panicked "acquire" l else Acq_spin l) m)
| step_acq_spin l :
    pcs m i = Acq_spin l ->
    step i m (goto i (if truth (locked (locks m l)) then Acq_spin l else Acq_record l)
                (set_lock l (mkLock 1 (lcpu (locks m l))) m))
| step_acq_record l :
    pcs m i = Acq_record l ->
    step i m (goto i Run (set_lock l (mkLock (locked (locks m l)) (Some i)) m))
| step_release l :
    pcs m i = Run -> step i m (goto i (Rel_hold1 l) m)
| step_rel_hold1 l :
    pcs m i = Rel_hold1 l ->
    step i m (goto i (if truth (locked (locks m l)) then Rel_hold2 l else Panicked "release" l) m)
| step_rel_hold2 l :
    pcs m i = Rel_hold2 l ->
    step i m (goto i (if bool_decide (lcpu (locks m l) = Some i) then Rel_clear l else Panicked "release" l) m)
| step_rel_clear l :
    pcs m i = Rel_clear l ->
    step i m (goto i (Rel_xchg l) (set_lock l (mkLock (locked (locks m l)) None) m))
| step_rel_xchg l :
    pcs m i = Rel_xchg l ->
    step i m (goto i (Rel_pop l) (set_lock l (mkLock 0 (lcpu (locks m l))) m))
| step_rel_pop l :
    pcs m i = Rel_pop l ->
    step i m (match popcli (cpus m i) with
              | inl msg => goto i (Panicked msg l) m
              | inr c => upd_cpu i c Run m
              end).

(** Initially interrupts are in any state, no lock is held. *)
Definition initial (m : machine) : Prop :=
  (forall i, ncli (cpus m i) = 0 /\ pcs m i = Run) /\ forall l, locks m l = initlock.

Inductive reachable : machine -> Prop :=
| reach_init m : initial m -> reachable m
| reach_step i m m' : reachable m -> step i m m' -> reachable m'.

(** Processor [i] has the lock [l]: from its successful xchg to the xchg that
    gives the lock back. *)
Definition owns (m : machine) (i : nat) (l : Z) : Prop :=
  lcpu (locks m l) = Some i \/ pcs m i = Acq_record l \/ pcs m i = Rel_xchg l.

(** pushcli calls of the acquire or release in progress that are not
    accounted for by a lock. *)
Definition pending (p : pc) : Z :=
  match p with
  | Acq_hold1 _ | Acq_hold2 _ | Acq_spin _ | Rel_pop _ => 1
  | Panicked msg _ => if bool_decide (msg = "acquire") then 1 else 0
  | _ => 0
  end.

(** What the position of a processor says of the lock it works on. *)
Definition pc_ok (m : machine) (i : nat) : Prop :=
  match pcs m i with
  | Acq_spin l | Acq_record l | Rel_xchg l => lcpu (locks m l) <> Some i
  | Rel_clear l => lcpu (locks m l) = Some i
  | Panicked msg l => (msg = "acquire" /\ lcpu (locks m l) = Some i) \/ (msg = "release" /\ lcpu (locks m l) <> Some i)
  | _ => True
  end.

(** The invariant, with the set of locks each processor has. *)
Record inv (m : machine) (held : nat -> gset Z) : Prop := {
  inv_held : forall i l, l ∈ held i <-> owns m i l;
  inv_locked : forall i l, owns m i l -> locked (locks m l) = 1;
  inv_one : forall i j l, owns m i l -> owns m j l -> i = j;
  inv_free : forall l, locked (locks m l) <> 0 -> exists i, owns m i l;
  inv_ncli : forall i, ncli (cpus m i) = Z.of_nat (size (held i)) + pending (pcs m i);
  inv_iflag : forall i, 0 < ncli (cpus m i) -> iflag (cpus m i) = false;
  inv_pc : forall i, pc_ok m i;
}.

(** ** Every step keeps the invariant *)

Section Preservation.
Implicit Types (m : machine) (held : nat -> gset Z).

(** Case analysis on whether an index of an updated function is the new one. *)
Ltac at_index :=
  repeat match goal with
  | H : context [(<[?i := _]> _) ?i] |- _ => rewrite fn_lookup_insert in H
  | |- context [(<[?i := _]> _) ?i] => rewrite fn_lookup_insert
  | Hne : ?i <> ?j, H : context [(<[?i := _]> _) ?j] |- _ => rewrite (fn_lookup_insert_ne _ i j) in H by done
  | Hne : ?i <> ?j |- context [(<[?i := _]> _) ?j] => rewrite (fn_lookup_insert_ne _ i j) by done
  | H : context [(<[?i := _]> _) ?j] |- _ => destruct (decide (i = j)) as [?|?]; [subst j|]
  | |- context [(<[?i := _]> _) ?j] => destruct (decide (i = j)) as [?|?]; [subst j|]
  end.

Ltac at_pc := unfold pc_ok; cbn; rewrite fn_lookup_insert; try done.

Lemma inv_same m m' held :
  inv m held -> (forall j l, owns m' j l <-> owns m j l) ->
  (forall l, locked (locks m' l) = locked (locks m l)) ->
  (forall j, ncli (cpus m' j) - pending (pcs m' j) = ncli (cpus m j) - pending (pcs m j)) ->
  (forall j, 0 < ncli (cpus m' j) -> iflag (cpus m' j) = false) -> (forall j, pc_ok m' j) ->
  inv m' held.
Proof.
  intros [H1 H2 H3 H4 H5 H6 H7] Ho Hl Hn Hi Hp. split; try done.
  - intros j l. by rewrite Ho.
  - intros j l. rewrite Ho, Hl. apply H2.
  - intros j k l. rewrite !Ho. apply H3.
  - intros l. rewrite Hl. intros [j Hj]%H4. exists j. by apply Ho.
  - intros j. specialize (Hn j). specialize (H5 j). lia.
Qed.

(** Moving inside acquire or release without touching a lock. *)
Lemma inv_goto m held i p :
  inv m held ->
  match pcs m i with Acq_record _ | Rel_xchg _ => False | _ => True end ->
  match p with Acq_record _ | Rel_xchg _ => False | _ => True end ->
  pending p = pending (pcs m i) -> pc_ok (goto i p m) i -> inv (goto i p m) held.
Proof.
  intros Hinv Hold Hnew Hpend Hok.
  apply (inv_same m); [done| |done| |apply Hinv|].
  - intros j l. unfold owns. cbn. at_index; [|done].
    destruct (pcs m i), p; naive_solver.
  - intros j. cbn. at_index; [by rewrite Hpend|done].
  - intros j. destruct (decide (i = j)) as [<-|Hne]; [done|].
    pose proof (inv_pc _ _ Hinv j) as Hj. unfold pc_ok in *. cbn. by at_index.
Qed.

Lemma step_inv_hold m held i m' :
  inv m held -> step i m m' ->
  match pcs m i with Acq_hold1 _ | Acq_hold2 _ | Rel_hold1 _ | Rel_hold2 _ => True | _ => False end ->
  inv m' held.
Proof.
  intros Hinv Hs Hpc.
  assert (Hown : forall l, lcpu (locks m l) = Some i -> locked (locks m l) = 1).
  { intros l Hl. apply (inv_locked _ _ Hinv i). by left. }
  destruct Hs as [? E ?|? E|? E|? E|? E|? E|? E|? E|? E|? E|? E|? E]; rewrite E in Hpc; try done.
  - destruct (truth (locked (locks m l))) eqn:Ht; apply inv_goto; rewrite ?E; try done; at_pc.
    intros Hl%Hown. unfold truth in Ht. by rewrite Hl in Ht.
  - case_bool_decide as Hb; apply inv_goto; rewrite ?E; try done; at_pc; auto.
  - destruct (truth (locked (locks m l))) eqn:Ht; apply inv_goto; rewrite ?E; try done; at_pc.
    right. split; [done|]. intros Hl%Hown. unfold truth in Ht. by rewrite Hl in Ht.
  - case_bool_decide as Hb; apply inv_goto; rewrite ?E; try done; at_pc; auto.
Qed.

(** Steps of the interrupt nesting. *)
Lemma step_inv_cpu m held i c p :
  inv m held ->
  match pcs m i with Acq_record _ | Rel_xchg _ => False | _ => True end ->
  match p with Acq_record _ | Rel_xchg _ => False | _ => True end ->
  ncli c - pending p = ncli (cpus m i) - pending (pcs m i) ->
  (0 < ncli c -> iflag c = false) -> pc_ok (upd_cpu i c p m) i -> inv (upd_cpu i c p m) held.
Proof.
  intros Hinv Hold Hnew Hn Hi Hok. apply (inv_same m); [done| |done| | |].
  - intros j l. unfold owns. cbn. at_index; [|done]. destruct (pcs m i), p; naive_solver.
  - intros j. cbn. by at_index.
  - intros j. cbn. at_index; [done|]. apply Hinv.
  - intros j. destruct (decide (i = j)) as [<-|Hne]; [done|].
    pose proof (inv_pc _ _ Hinv j) as Hj. unfold pc_ok in *. cbn. by at_index.
Qed.

Lemma step_inv_pop m held i l m' :
  inv m held -> pcs m i = Rel_pop l ->
  match popcli (cpus m i) with inl msg => goto i (Panicked msg l) m | inr c => upd_cpu i c Run m end = m' ->
  inv m' held.
Proof.
  intros Hinv E <-. pose proof (inv_ncli _ _ Hinv i) as Hn. rewrite E in Hn. cbn in Hn.
  pose proof (inv_iflag _ _ Hinv i ltac:(lia)) as Hf. unfold popcli. rewrite Hf. cbn zeta.
  rewrite (proj2 (Z.ltb_ge _ _)) by lia. apply step_inv_cpu; rewrite ?E; try done.
  - cbn. lia.
  - cbn. intros Hpos. by rewrite (proj2 (Z.eqb_neq _ _)) by lia.
  - at_pc.
Qed.

(** A lock changes hands. *)
Lemma step_inv_take m held i l :
  inv m held -> pcs m i = Acq_spin l -> locked (locks m l) = 0 ->
  inv (goto i (Acq_record l) (set_lock l (mkLock 1 (lcpu (locks m l))) m)) (<[i := {[l]} ∪ held i]> held).
Proof.
  intros Hinv E Hl.
  assert (Hno : forall j, ~ owns m j l) by (intros j Hj; pose proof (inv_locked _ _ Hinv j l Hj); lia).
  assert (Hown : forall j k, owns (goto i (Acq_record l) (set_lock l (mkLock 1 (lcpu (locks m l))) m)) j k <->
                   owns m j k \/ (j = i /\ k = l)).
  { intros j k. unfold owns. cbn. at_index; cbn; rewrite ?E; naive_solver. }
  split.
  - intros j k. rewrite Hown. at_index; [|rewrite (inv_held _ _ Hinv); naive_solver].
    rewrite elem_of_union, elem_of_singleton, (inv_held _ _ Hinv). naive_solver.
  - intros j k. rewrite Hown. cbn. at_index; [done|]. intros [Hj|[_ ->]]; [by eapply inv_locked|done].
  - intros j j' k. rewrite !Hown. intros [Hj|[? ?]] [Hj'|[? ?]]; subst; [by eapply inv_one|by apply Hno in Hj|by apply Hno in Hj'|done].
  - intros k. cbn. at_index.
    + intros _. exists i. apply Hown. by right.
    + intros [j Hj]%(inv_free _ _ Hinv). exists j. apply Hown. by left.
  - intros j. pose proof (inv_ncli _ _ Hinv j) as Hn. cbn. at_index; [|done]. rewrite E in Hn. cbn in Hn |- *.
    rewrite size_union, size_singleton; [lia|]. apply disjoint_singleton_l. rewrite (inv_held _ _ Hinv). apply Hno.
  - apply Hinv.
  - intros j. pose proof (inv_pc _ _ Hinv j) as Hj. unfold pc_ok in *. cbn. at_index.
    + rewrite E in Hj. at_index. exact Hj.
    + destruct (pcs m j); cbn; try done; at_index; done.
Qed.

Lemma step_inv_spin m held i l :
  inv m held -> pcs m i = Acq_spin l -> locked (locks m l) <> 0 ->
  inv (goto i (Acq_spin l) (set_lock l (mkLock 1 (lcpu (locks m l))) m)) held.
Proof.
  intros Hinv E Hl. destruct (inv_free _ _ Hinv l Hl) as [j0 Hj0]. pose proof (inv_locked _ _ Hinv j0 l Hj0) as H1.
  assert (Hlk : forall k, <[l := mkLock 1 (lcpu (locks m l))]> (locks m) k = locks m k).
  { intros k. at_index; [|done]. destruct (locks m l); simpl in *. by subst. }
  apply (inv_same m); [done|..].
  - intros j k. unfold owns. cbn. rewrite Hlk. at_index; [rewrite E; naive_solver|done].
  - intros k. cbn. by rewrite Hlk.
  - intros j. cbn. at_index; [by rewrite E|done].
  - apply Hinv.
  - intros j. pose proof (inv_pc _ _ Hinv j) as Hj. unfold pc_ok in *. cbn.
    destruct (decide (i = j)) as [<-|Hne].
    + rewrite E in Hj. by rewrite fn_lookup_insert, Hlk.
    + rewrite fn_lookup_insert_ne by done. destruct (pcs m j); try done; by rewrite ?Hlk.
Qed.

(** Writing [lk->cpu] by the owner keeps the ownership. *)
Lemma step_inv_write m held i l o p :
  inv m held ->
  (pcs m i = Acq_record l /\ o = Some i /\ p = Run) \/ (pcs m i = Rel_clear l /\ o = None /\ p = Rel_xchg l) ->
  inv (goto i p (set_lock l (mkLock (locked (locks m l)) o) m)) held.
Proof.
  intros Hinv Hcase. pose proof (inv_pc _ _ Hinv i) as Hpi. unfold pc_ok in Hpi.
  assert (Hmine : owns m i l).
  { unfold owns. destruct Hcase as [(E & _)|(E & _)]; rewrite E in *; auto. }
  assert (Hnone : forall j, j <> i -> ~ owns m j l).
  { intros j Hj Hj'. by apply Hj, (inv_one _ _ Hinv j i l). }
  assert (Hown : forall j k, owns (goto i p (set_lock l (mkLock (locked (locks m l)) o) m)) j k <-> owns m j k).
  { intros j k. unfold owns in *. cbn. destruct (decide (i = j)) as [<-|Hij]; [|specialize (Hnone j ltac:(done))];
      at_index; cbn; destruct Hcase as [(E & -> & ->)|(E & -> & ->)]; rewrite ?E in *; naive_solver. }
  apply (inv_same m); [done|exact Hown| | | |].
  - intros k. cbn. by at_index.
  - intros j. cbn. at_index; [|done]. by destruct Hcase as [(E & -> & ->)|(E & -> & ->)]; rewrite E.
  - apply Hinv.
  - intros j. pose proof (inv_pc _ _ Hinv j) as Hj. unfold pc_ok in *. cbn. at_index.
    + destruct Hcase as [(E & -> & ->)|(E & -> & ->)]; [done|]. by at_index.
    + specialize (Hnone j ltac:(done)). unfold owns in Hnone.
      destruct (pcs m j); cbn; try done; at_index; cbn; try done; destruct Hcase as [(E & -> & ->)|(E & -> & ->)]; naive_solver.
Qed.

Lemma step_inv_give m held i l :
  inv m held -> pcs m i = Rel_xchg l ->
  inv (goto i (Rel_pop l) (set_lock l (mkLock 0 (lcpu (locks m l))) m)) (<[i := held i ∖ {[l]}]> held).
Proof.
  intros Hinv E. pose proof (inv_pc _ _ Hinv i) as Hpi. unfold pc_ok in Hpi. rewrite E in Hpi.
  assert (Hmine : owns m i l) by (unfold owns; auto).
  assert (Hown : forall j k, owns (goto i (Rel_pop l) (set_lock l (mkLock 0 (lcpu (locks m l))) m)) j k <->
                   owns m j k /\ k <> l).
  { intros j k. destruct (decide (k = l)) as [->|Hk].
    - split; [|naive_solver]. intros Hj. exfalso. destruct (decide (i = j)) as [<-|Hij].
      + unfold owns in Hj. cbn in Hj. rewrite !fn_lookup_insert in Hj. cbn in Hj. naive_solver.
      + apply Hij, (inv_one _ _ Hinv i j l Hmine). unfold owns in *. cbn in *. at_index. done.
    - unfold owns. cbn. at_index; cbn; rewrite ?E; naive_solver. }
  split.
  - intros j k. rewrite Hown. at_index.
    + rewrite elem_of_difference, elem_of_singleton, (inv_held _ _ Hinv). naive_solver.
    + rewrite (inv_held _ _ Hinv). split; [|naive_solver]. intros Hj. split; [done|]. intros ->.
      apply n, (inv_one _ _ Hinv i j l Hmine Hj).
  - intros j k. rewrite Hown. intros [Hj Hk]. cbn. at_index; [done|]. by eapply inv_locked.
  - intros j j' k. rewrite !Hown. intros [Hj _] [Hj' _]. by eapply inv_one.
  - intros k. cbn. at_index; [done|]. intros [j Hj]%(inv_free _ _ Hinv). exists j. apply Hown. split; [done|congruence].
  - intros j. pose proof (inv_ncli _ _ Hinv j) as Hn. cbn. at_index; [|done]. rewrite E in Hn. cbn in Hn |- *.
    assert (Hl : l ∈ held i) by (by apply (inv_held _ _ Hinv)).
    rewrite size_difference, size_singleton by set_solver.
    assert (0 < size (held i))%nat by (destruct (size (held i)) eqn:Hs; [apply size_empty_inv in Hs; set_solver|lia]). lia.
  - apply Hinv.
  - intros j. pose proof (inv_pc _ _ Hinv j) as Hj. unfold pc_ok in *. cbn. at_index; [done|].
    destruct (pcs m j); cbn; try done; at_index; done.
Qed.

Lemma step_inv m held i m' : inv m held -> step i m m' -> exists held', inv m' held'.
Proof.
  intros Hinv Hs. destruct Hs as [b E E0|l E|l E|l E|l E|l E|l E|l E|l E|l E|l E|l E].
  - exists held. apply step_inv_cpu; rewrite ?E; try done; [cbn; lia|at_pc].
  - exists held. apply step_inv_cpu; rewrite ?E; try done; [cbn; lia|at_pc].
  - exists held. eapply step_inv_hold; [done|by apply step_acq_hold1|by rewrite E].
  - exists held. eapply step_inv_hold; [done|by apply step_acq_hold2|by rewrite E].
  - destruct (truth (locked (locks m l))) eqn:Ht; unfold truth in Ht.
    + exists held. apply step_inv_spin; [done|done|]. by apply negb_true_iff, Z.eqb_neq in Ht.
    + eexists. apply step_inv_take; [done|done|]. by apply negb_false_iff, Z.eqb_eq in Ht.
  - exists held. apply step_inv_write; [done|]. by left.
  - exists held. apply inv_goto; rewrite ?E; try done. at_pc.
  - exists held. eapply step_inv_hold; [done|by apply step_rel_hold1|by rewrite E].
  - exists held. eapply step_inv_hold; [done|by apply step_rel_hold2|by rewrite E].
  - exists held. apply step_inv_write; [done|]. by right.
  - eexists. by apply step_inv_give.
  - exists held. by eapply step_inv_pop.
Qed.

Lemma reachable_inv m : reachable m -> exists held, inv m held.
Proof.
  induction 1 as [m [Hc Hl]|i m m' Hr [held IH] Hs].
  - assert (Hno : forall i l, ~ owns m i l).
    { intros i l [Ho|[Ho|Ho]]; [rewrite Hl in Ho; done|destruct (Hc i); congruence..]. }
    exists (fun _ => ∅). split.
    + intros i l. split; [set_solver|]. intros Ho. by apply Hno in Ho.
    + intros i l Ho. by apply Hno in Ho.
    + intros i j l Ho. by apply Hno in Ho.
    + intros l. by rewrite Hl.
    + intros i. destruct (Hc i) as [-> ->]. done.
    + intros i. destruct (Hc i) as [-> _]. lia.
    + intros i. unfold pc_ok. by destruct (Hc i) as [_ ->].
  - by eapply step_inv.
Qed.
End Preservation.

(** [n] popcli in a row. *)
Fixpoint popn (n : nat) (c : cpu) : string + cpu :=
  match n with
  | O => inr c
  | S n => match popcli c with inl msg => inl msg | inr c => popn n c end
  end.

Lemma pop_push c :
  0 <= ncli c -> (0 < ncli c -> iflag c = false) ->
  exists c', popcli (pushcli c) = inr c' /\ iflag c' = iflag c /\ ncli c' = ncli c /\
    (0 < ncli c -> intena c' = intena c).
Proof.
  intros Hn Hi. unfold popcli, pushcli. cbn [iflag ncli intena]. cbn zeta. replace (ncli c + 1 - 1) with (ncli c) by lia.
  rewrite (proj2 (Z.ltb_ge _ _)) by lia. eexists. split; [reflexivity|]. cbn [iflag ncli intena].
  destruct (Z.eqb_spec (ncli c) 0) as [E|E]; cbn [andb].
  - split_and!; [by destruct (iflag c)|done|lia].
  - split_and!; [by rewrite Hi by lia|done|done].
Qed.

(** popcli looks at the flag, the depth and, with locks held, the saved flag. *)
Lemma popn_ext n c d :
  iflag c = iflag d -> ncli c = ncli d -> (0 < ncli c -> intena c = intena d) -> iflag c = false ->
  match popn n c, popn n d with
  | inr c', inr d' => iflag c' = iflag d' /\ ncli c' = ncli d'
  | inl x, inl y => x = y
  | _, _ => False
  end.
Proof.
  revert c d. induction n as [|n IH]; intros c d H1 H2 H3 Hf; cbn [popn]; [done|].
  unfold popcli. rewrite <- H1, <- H2, Hf. cbn zeta. destruct (Z.ltb_spec (ncli c - 1) 0); [done|].
  rewrite <- H3 by lia. destruct (Z.eqb_spec (ncli c - 1) 0) as [E|E]; cbn [andb].
  - destruct n as [|n]; cbn [popn]; [by destruct (intena c)|]. unfold popcli. cbn [iflag ncli intena]. cbn zeta.
    rewrite E. by destruct (intena c).
  - apply IH; cbn; auto.
Qed.

(** ** Properties *)

(** C22: mutual exclusion: at most one processor has a lock, through every
    interleaving of the accesses of acquire and release. *)
Theorem mutual_exclusion m i j l : reachable m -> owns m i l -> owns m j l -> i = j.
Proof. intros Hr Hi Hj. destruct (reachable_inv m Hr) as [held Hinv]. by eapply (inv_one _ _ Hinv). Qed.

(** A processor that has a lock runs with interrupts off; it never spins on
    a lock it has; acquire panics only for a lock the processor has, release
    only for one it does not have, and popcli never panics. *)
Theorem lock_discipline m i :
  reachable m ->
  (forall l, owns m i l -> iflag (cpus m i) = false) /\
  (forall l, pcs m i = Acq_spin l -> ~ owns m i l) /\
  (forall msg l, pcs m i = Panicked msg l ->
     (msg = "acquire" /\ owns m i l) \/ (msg = "release" /\ ~ owns m i l)).
Proof.
  intros Hr. destruct (reachable_inv m Hr) as [held Hinv]. split_and!.
  - intros l Hl. apply (inv_iflag _ _ Hinv). rewrite (inv_ncli _ _ Hinv).
    apply (inv_held _ _ Hinv) in Hl. assert (held i <> ∅) as Hne by set_solver.
    assert (size (held i) <> 0%nat) by (by rewrite size_empty_iff; intros ?%leibniz_equiv).
    assert (0 <= pending (pcs m i)) by (destruct (pcs m i); cbn; try lia; case_bool_decide; lia). lia.
  - intros l E Ho. pose proof (inv_pc _ _ Hinv i) as Hp. unfold pc_ok in Hp. rewrite E in Hp.
    destruct Ho as [Ho|[Ho|Ho]]; congruence.
  - intros msg l E. pose proof (inv_pc _ _ Hinv i) as Hp. unfold pc_ok in Hp. rewrite E in Hp.
    destruct Hp as [[-> Hl]|[-> Hl]]; [left; split; [done|by left]|right; split; [done|]].
    intros [Ho|[Ho|Ho]]; congruence.
Qed.

(** Pushcli and popcli are matched: [n] of each restore the interrupt flag
    and the depth, and the flag is off in between. *)
Theorem cli_matched n c :
  0 <= ncli c -> (0 < ncli c -> iflag c = false) ->
  exists c', popn n (Nat.iter n pushcli c) = inr c' /\ iflag c' = iflag c /\ ncli c' = ncli c /\
    (0 < n -> iflag (Nat.iter n pushcli c) = false)%nat.
Proof.
  intros Hn Hi. induction n as [|n (c' & E & H1 & H2 & H3)].
  { exists c. split_and!; [done..|lia]. }
  assert (Hd : ncli (Nat.iter n pushcli c) = ncli c + Z.of_nat n).
  { clear -c. induction n as [|n IH]; simpl; [lia|]. rewrite IH. lia. }
  destruct (pop_push (Nat.iter n pushcli c)) as (d & Ep & D1 & D2 & D3).
  { lia. }
  { destruct n as [|n]; [done|]. intros _. apply H3. lia. }
  cbn [popn]. change (Nat.iter (S n) pushcli c) with (pushcli (Nat.iter n pushcli c)). rewrite Ep.
  destruct n as [|n].
  - cbn [popn] in *. exists d. injection E as <-. done.
  - pose proof (popn_ext (S n) d (Nat.iter (S n) pushcli c) D1 D2) as Hx.
    rewrite E in Hx. destruct (popn (S n) d) as [|d'].
    + destruct Hx; [|rewrite D1; apply H3; lia]. intros. apply D3. lia.
    + destruct Hx as [Hx1 Hx2]; [intros; apply D3; lia|rewrite D1; apply H3; lia|].
      exists d'. split_and!; [done|congruence|congruence|done].
Qed.

(** ** The view of the critical sections

    [get_] and [set_] are the held flag of the lock in a component's state, as
    the processor that runs the component sees it. *)

Section Client.
Context {S : Type} (get_ : S -> bool) (set_ : bool -> S -> S).
Definition acquire : M S unit :=
  b ← gets get_; if (b : bool) then panic "acquire" else modify (set_ true).
Definition release : M S unit :=
  b ← gets get_; if (b : bool) then modify (set_ false) else panic "release".

Lemma acquire_ok s : get_ s = false -> acquire s = Ok tt (set_ true s).
Proof. intros E. unfold acquire. mrun1. by rewrite E. Qed.
Lemma release_ok s : get_ s = true -> release s = Ok tt (set_ false s).
Proof. intros E. unfold release. mrun1. by rewrite E. Qed.
End Client.

(** ** Witnesses *)

(** Two processors, interrupts on, and a run in which 0 takes lock 7 while 1 is
    inside [holding]. *)
Definition boot : machine := mkMachine (fun _ => mkCpu true 0 false) (fun _ => Run) (fun _ => initlock).

Lemma boot_run :
  exists m, reachable m /\ owns m 0 7 /\ pcs m 1%nat = Acq_spin 7 /\ iflag (cpus m 0%nat) = false.
Proof.
  assert (H0 : reachable boot) by (apply reach_init; split; [intros i; done|done]).
  eapply reach_step in H0; [|apply (step_acquire 0 _ 7); reflexivity].
  eapply reach_step in H0; [|apply (step_acquire 1 _ 7); reflexivity].
  eapply reach_step in H0; [|apply (step_acq_hold1 1 _ 7); reflexivity].
  eapply reach_step in H0; [|apply (step_acq_hold1 0 _ 7); reflexivity].
  eapply reach_step in H0; [|apply (step_acq_spin 0 _ 7); reflexivity].
  eapply reach_step in H0; [|apply (step_acq_record 0 _ 7); reflexivity].
  eexists. split; [exact H0|]. split; [by left|]. split; reflexivity.
Qed.

Lemma mutual_exclusion_witness : exists m, reachable m /\ owns m 0 7 /\ ~ owns m 1 7.
Proof.
  destruct boot_run as (m & Hr & Ho & _). exists m. split; [done|]. split; [done|].
  intros H1. pose proof (mutual_exclusion m 0 1 7 Hr Ho H1). lia.
Defined.

Lemma lock_discipline_witness : exists m, reachable m /\ iflag (cpus m 0%nat) = false /\ ~ owns m 1 7.
Proof.
  destruct boot_run as (m & Hr & Ho & Hp & _). exists m. split; [done|].
  destruct (lock_discipline m 0 Hr) as (H0 & _). destruct (lock_discipline m 1 Hr) as (_ & H1 & _).
  split; [by apply (H0 7)|by apply H1].
Defined.

Lemma cli_matched_witness :
  exists c, popn 3 (Nat.iter 3 pushcli (mkCpu true 0 false)) = inr c /\ iflag c = true.
Proof.
  destruct (cli_matched 3 (mkCpu true 0 false)) as (c & E & H1 & _); [done|done|]. exists c. split; [exact E|exact H1].
Defined.
