(* ===== verification/Ide.v ===== *)
(** * ide.c: the disk driver

    src/ide.c over the ports of Devices.v.  The buffers are numbered; [qnext]
    links those that wait for the disk.  iderw is cut where it sleeps: it
    returns [false] when the process sleeps on the buffer, and [iderw_wait] is
    what runs when it is woken.  [asleep_on] are the buffers with a sleeping
    process.

    What the driver relies on of the drive, and what it promises, is in
    Idedisk.v. *)

From stdpp Require Import functions.
From S2P Require Import Prelude Str Interfaces Spinlock Devices.

Definition IDE_BSY : Z := 0x80.
Definition IDE_DRDY : Z := 0x40.
Definition IDE_DF : Z := 0x20.
Definition IDE_ERR : Z := 0x01.
Definition IDE_CMD_READ : Z := 0x20.
Definition IDE_CMD_WRITE : Z := 0x30.
Definition B_BUSY : Z := 1.
Definition B_VALID : Z := 2.
Definition B_DIRTY : Z := 4.

Record buf := mkBuf { flags : Z; bdev : Z; sector : Z; qnext : option nat; data : block }.
Definition set_flags v b := mkBuf v (bdev b) (sector b) (qnext b) (data b).
Definition set_qnext v b := mkBuf (flags b) (bdev b) (sector b) v (data b).
Definition set_data v b := mkBuf (flags b) (bdev b) (sector b) (qnext b) v.
Definition has (b : buf) (mask : Z) : bool := truth (Z.land (flags b) mask).
(** [(b->flags & (B_VALID|B_DIRTY)) == B_VALID] *)
Definition synced (b : buf) : bool := Z.land (flags b) (Z.lor B_VALID B_DIRTY) =? B_VALID.

Record ide {D : Type} := mkIde {
  idev : dv D;
  idelock : bool;
  ibufs : nat -> buf;
  idequeue : option nat;
  havedisk1 : bool;
  asleep_on : list nat;
}.
Arguments ide : clear implicits.

Section Ide.
Context {D : Type} `{!Ports D}.
Notation ide := (ide D).
Definition set_idev v (s : ide) : ide := mkIde _ v (idelock s) (ibufs s) (idequeue s) (havedisk1 s) (asleep_on s).
Definition set_idelock v (s : ide) : ide := mkIde _ (idev s) v (ibufs s) (idequeue s) (havedisk1 s) (asleep_on s).
Definition set_ibufs v (s : ide) : ide := mkIde _ (idev s) (idelock s) v (idequeue s) (havedisk1 s) (asleep_on s).
Definition set_idequeue v (s : ide) : ide := mkIde _ (idev s) (idelock s) (ibufs s) v (havedisk1 s) (asleep_on s).
Definition set_havedisk1 v (s : ide) : ide := mkIde _ (idev s) (idelock s) (ibufs s) (idequeue s) v (asleep_on s).
Definition set_asleep_on v (s : ide) : ide := mkIde _ (idev s) (idelock s) (ibufs s) (idequeue s) (havedisk1 s) v.

Definition dev {A} (m : M (dv D) A) : M ide A := zoom idev set_idev m.
Definition getb (b : nat) : M ide buf := gets (fun s => ibufs s b).
Definition updb (b : nat) (f : buf -> buf) : M ide unit := modify (fun s => set_ibufs (<[b := f (ibufs s b)]> (ibufs s)) s).
Definition ide_acquire : M ide unit := acquire idelock set_idelock.
Definition ide_release : M ide unit := release idelock set_idelock.
(** [insl(0x1f0, b->data, 512/4)] and [outsl(0x1f0, b->data, 512/4)] *)
Definition insl (b : nat) : M ide unit :=
  fun s => let (x, d) := in_words 0x1f0 128 (hw (idev s)) in updb b (set_data x) (set_idev (set_hw d (idev s)) s).
Definition outsl (b : nat) : M ide unit :=
  s ← get; modify (fun s => set_idev (set_hw (out_words 0x1f0 (data (ibufs s b)) (hw (idev s))) (idev s)) s).

(** The number of status reads is bounded by [polls]. *)
Context (polls : nat).
Fixpoint idewait_loop (polls : nat) : M ide Z :=
  match polls with
  | O => halt SFuel
  | S polls =>
      r ← dev (inb 0x1f7);
      if Z.land r (Z.lor IDE_BSY IDE_DRDY) =? IDE_DRDY then mret r else idewait_loop polls
  end.
Definition idewait (checkerr : bool) : M ide Z :=
  r ← idewait_loop polls;
  mret (if checkerr && truth (Z.land r (Z.lor IDE_DF IDE_ERR)) then -1 else 0).

Fixpoint probe (n : nat) : M ide unit :=
  match n with
  | O => mret tt
  | S n => r ← dev (inb 0x1f7); if negb (r =? 0) then modify (set_havedisk1 true) else probe n
  end.
Definition ideinit : M ide unit :=
  modify (set_idelock false);;
  dev (picenable IRQ_IDE);;
  s ← get;
  dev (ioapicenable IRQ_IDE (ncpu (idev s) - 1));;
  _ ← idewait false;
  dev (outb 0x1f6 (Z.lor 0xe0 (Z.shiftl 1 4)));;
  probe 1000;;
  dev (outb 0x1f6 (Z.lor 0xe0 (Z.shiftl 0 4))).

Definition idestart (b : option nat) : M ide unit :=
  match b with
  | None => panic "idestart"
  | Some b =>
      _ ← idewait false;
      x ← getb b;
      dev (outb 0x3f6 0);;
      dev (outb 0x1f2 1);;
      dev (outb 0x1f3 (Z.land (sector x) 0xff));;
      dev (outb 0x1f4 (Z.land (Z.shiftr (sector x) 8) 0xff));;
      dev (outb 0x1f5 (Z.land (Z.shiftr (sector x) 16) 0xff));;
      dev (outb 0x1f6 (Z.lor (Z.lor 0xe0 (Z.shiftl (Z.land (bdev x) 1) 4)) (Z.land (Z.shiftr (sector x) 24) 0x0f)));;
      if has x B_DIRTY then dev (outb 0x1f7 IDE_CMD_WRITE);; outsl b
      else dev (outb 0x1f7 IDE_CMD_READ)
  end.

Definition ideintr : M ide unit :=
  ide_acquire;;
  q ← gets idequeue;
  match q with
  | None => ide_release
  | Some b =>
      x ← getb b;
      modify (set_idequeue (qnext x));;
      (if has x B_DIRTY then mret tt
       else r ← idewait true; when (0 <=? r) (insl b));;
      updb b (fun x => set_flags (Z.lor (flags x) B_VALID) x);;
      updb b (fun x => set_flags (Z.land (flags x) (Z.lnot B_DIRTY)) x);;
      modify (fun s => set_asleep_on (filter (fun c => c <> b) (asleep_on s)) s);;
      q ← gets idequeue;
      when (bool_decide (q <> None)) (idestart q);;
      ide_release
  end.

(** The loop of iderw that looks for the end of the queue, from its head: the
    last buffer; [fuel] bounds the length. *)
Fixpoint last_buf (fuel : nat) (b : nat) : M ide nat :=
  match fuel with
  | O => halt SFuel
  | S fuel => x ← getb b; match qnext x with None => mret b | Some b => last_buf fuel b end
  end.
Definition append (fuel b : nat) : M ide unit :=
  q ← gets idequeue;
  match q with
  | None => modify (set_idequeue (Some b))
  | Some c => l ← last_buf fuel c; updb l (set_qnext (Some b))
  end.

(** [while ((b->flags & (B_VALID|B_DIRTY)) != B_VALID) sleep(b, &idelock);]
    entered with the lock. *)
Definition iderw_check (b : nat) : M ide bool :=
  x ← getb b;
  if synced x then ide_release;; mret true
  else modify (fun s => set_asleep_on (b :: asleep_on s) s);; ide_release;; mret false.
Definition iderw_wait (b : nat) : M ide bool := ide_acquire;; iderw_check b.
Definition iderw (fuel b : nat) : M ide bool :=
  x ← getb b;
  if negb (has x B_BUSY) then panic "iderw: buf not busy"
  else if synced x then panic "iderw: nothing to do"
  else
    s ← get;
    if negb (bdev x =? 0) && negb (havedisk1 s) then panic "iderw: ide disk 1 not present"
    else
      ide_acquire;;
      updb b (set_qnext None);;
      append fuel b;;
      q ← gets idequeue;
      when (bool_decide (q = Some b)) (idestart (Some b));;
      iderw_check b.
End Ide.
