(* ===== verification/Idedisk.v ===== *)
(** * The disk behind the driver

    What ide.c promises, given a drive that behaves as the ATA interface
    describes: requests are served in the order of the queue, each exactly
    once, and nobody waits for a request that is done. *)

From stdpp Require Import functions.
From S2P Require Import Prelude Str Interfaces Spinlock Devices Ide.

(** ** The drive *)

Definition lba_of (t : Z -> Z) : Z := t 0x1f3 + 256 * t 0x1f4 + 65536 * t 0x1f5 + 16777216 * (t 0x1f6 mod 16).
Definition drive_of (t : Z -> Z) : Z := t 0x1f6 / 16 mod 2.
Definition task_ports : list Z := [0x3f6; 0x1f2; 0x1f3; 0x1f4; 0x1f5; 0x1f6].
Definition upd_block (P : Z * Z -> block) (k : Z * Z) (x : block) : Z * Z -> block := fun j => if decide (j = k) then x else P j.

(** A drive without errors that gets ready within [max_delay] status reads. *)
Class Ata (D : Type) `{Ports D} := {
  treg : D -> Z -> Z;
  platter : D -> Z * Z -> block;
  pending : D -> option (bool * (Z * Z));
  delay : D -> nat;
  max_delay : nat;
  ata_delay : forall d, (delay d <= max_delay)%nat;
  ata_status : forall d r d', in_byte 0x1f7 d = (r, d') ->
    treg d' = treg d /\ platter d' = platter d /\ pending d' = pending d /\
    Z.land r (Z.lor IDE_DF IDE_ERR) = 0 /\ (Z.land r (Z.lor IDE_BSY IDE_DRDY) = IDE_DRDY \/ (delay d' < delay d)%nat);
  ata_reg : forall d p v, p ∈ task_ports ->
    treg (out_byte p v d) = <[p := v]> (treg d) /\ platter (out_byte p v d) = platter d /\ pending (out_byte p v d) = pending d;
  ata_read : forall d, platter (out_byte 0x1f7 IDE_CMD_READ d) = platter d /\
    pending (out_byte 0x1f7 IDE_CMD_READ d) = Some (false, (drive_of (treg d), lba_of (treg d)));
  ata_write : forall d, platter (out_byte 0x1f7 IDE_CMD_WRITE d) = platter d /\
    pending (out_byte 0x1f7 IDE_CMD_WRITE d) = Some (true, (drive_of (treg d), lba_of (treg d)));
  ata_out : forall d k x, pending d = Some (true, k) -> length x = 512%nat -> platter (out_words 0x1f0 x d) = upd_block (platter d) k x;
  ata_in : forall d k x d', pending d = Some (false, k) -> in_words 0x1f0 128 d = (x, d') -> x = platter d k /\ platter d' = platter d;
}.

Section Drive.
Context {D : Type} `{!Ports D} `{!Ata D} (polls : nat) (Hpolls : (max_delay < polls)%nat).
Implicit Types (s : ide D) (b : nat) (l : list nat).

(** A step that changes the state of the drive only. *)
Definition moved s (h : D) : ide D := set_idev (set_hw h (idev s)) s.
Lemma moved_moved s h h' : moved (moved s h) h' = moved s h'.
Proof. by destruct s as [[] ? ? ? ? ?]. Qed.
Lemma moved_id s : moved s (hw (idev s)) = s.
Proof. by destruct s as [[] ? ? ? ? ?]. Qed.

Lemma outb_run p v s : dev (outb p v) s = Ok tt (moved s (out_byte p (u8 v) (hw (idev s)))).
Proof. done. Qed.
#[local] Hint Resolve outb_run : mrun.
Lemma inb_run p s r h : in_byte p (hw (idev s)) = (r, h) -> dev (inb p) s = Ok r (moved s h).
Proof. intros E. unfold dev, zoom, inb. by rewrite E. Qed.

Definition same_drive (h h' : D) : Prop := treg h' = treg h /\ platter h' = platter h /\ pending h' = pending h.
Lemma idewait_loop_run n s : (delay (hw (idev s)) < n)%nat ->
  exists r h, idewait_loop n s = Ok r (moved s h) /\ same_drive (hw (idev s)) h /\ Z.land r (Z.lor IDE_DF IDE_ERR) = 0.
Proof.
  revert s. induction n as [|n IH]; intros s Hd; [lia|]. cbn [idewait_loop]. destruct (in_byte 0x1f7 (hw (idev s))) as [r h] eqn:E. mstep (inb_run _ _ _ _ E).
  destruct (ata_status _ _ _ E) as (H1 & H2 & H3 & H4 & H5). destruct (Z.eqb_spec (Z.land r (Z.lor IDE_BSY IDE_DRDY)) IDE_DRDY) as [Er|Er].
  - exists r, h. by split_and!.
  - destruct H5 as [H5|H5]; [done|]. destruct (IH (moved s h)) as (r' & h' & R & (S1 & S2 & S3) & He); [change (delay h < n)%nat; lia|].
    exists r', h'. rewrite R, moved_moved. cbn in S1, S2, S3. unfold same_drive. by rewrite S1, S2, S3.
Qed.
Lemma idewait_run c s : exists h, idewait polls c s = Ok 0 (moved s h) /\ same_drive (hw (idev s)) h.
Proof.
  pose proof (ata_delay (hw (idev s))). destruct (idewait_loop_run polls s) as (r & h & R & Sd & He); [lia|].
  exists h. split; [|done]. unfold idewait. mstep R. rewrite He. by destruct c.
Qed.

(** ** idestart *)

Lemma drive_reg x v : 0 <= x < 16 -> 0 <= v < 2 ->
  let r := u8 (Z.lor (Z.lor 0xe0 (Z.shiftl (Z.land v 1) 4)) (Z.land x 0x0f)) in r mod 16 = x /\ r / 16 mod 2 = v.
Proof.
  clear Hpolls. intros Hx Hv. assert (v = 0 \/ v = 1) as [-> | ->] by lia.
  all: destruct x as [|p|p]; [done| |lia]; do 4 (destruct p as [p|p|]; try lia; try done).
Qed.
Lemma lba_split n v t : 0 <= n < 2 ^ 28 -> 0 <= v < 2 ->
  t 0x1f3 = u8 (Z.land n 0xff) -> t 0x1f4 = u8 (Z.land (Z.shiftr n 8) 0xff) -> t 0x1f5 = u8 (Z.land (Z.shiftr n 16) 0xff) ->
  t 0x1f6 = u8 (Z.lor (Z.lor 0xe0 (Z.shiftl (Z.land v 1) 4)) (Z.land (Z.shiftr n 24) 0x0f)) ->
  drive_of t = v /\ lba_of t = n.
Proof.
  clear Hpolls. intros Hn Hv E3 E4 E5 E6. unfold drive_of, lba_of. rewrite E3, E4, E5, E6. clear E3 E4 E5 E6.
  destruct (drive_reg (Z.shiftr n 24) v) as [H1 H2]; [|done|].
  { rewrite Z.shiftr_div_pow2 by lia. split; [apply Z.div_pos; lia|apply Z.div_lt_upper_bound; lia]. }
  rewrite H1, H2. split; [done|]. change 0xff with (Z.ones 8). unfold u8. rewrite !Z.land_ones, !Z.shiftr_div_pow2, !Z.mod_mod by lia.
  change (2 ^ 16) with (2 ^ 8 * 2 ^ 8). change (2 ^ 24) with (2 ^ 8 * 2 ^ 8 * 2 ^ 8). rewrite <- !Z.div_div by lia.
  pose proof (Z.div_mod n (2 ^ 8)). pose proof (Z.div_mod (n / 2 ^ 8) (2 ^ 8)). pose proof (Z.div_mod (n / 2 ^ 8 / 2 ^ 8) (2 ^ 8)). lia.
Qed.

(** The request of a buffer, and what it does to the platters when the drive
    takes it. *)
Definition where_ (x : buf) : Z * Z := (bdev x, sector x).
Definition started (x : buf) (P : Z * Z -> block) : Z * Z -> block := if has x B_DIRTY then upd_block P (where_ x) (data x) else P.
Definition request (x : buf) : Prop :=
  has x B_BUSY = true /\ synced x = false /\ 0 <= bdev x < 2 /\ 0 <= sector x < 2 ^ 28 /\ length (data x) = 512%nat.

Definition addressed (x : buf) (h : D) : D :=
  foldl (fun h pv => out_byte pv.1 (u8 pv.2) h) h
    [(0x3f6, 0); (0x1f2, 1); (0x1f3, Z.land (sector x) 0xff); (0x1f4, Z.land (Z.shiftr (sector x) 8) 0xff);
     (0x1f5, Z.land (Z.shiftr (sector x) 16) 0xff); (0x1f6, Z.lor (Z.lor 0xe0 (Z.shiftl (Z.land (bdev x) 1) 4)) (Z.land (Z.shiftr (sector x) 24) 0x0f))].
Lemma ata_treg p v h : p ∈ task_ports -> treg (out_byte p v h) = <[p := v]> (treg h).
Proof. intros Hp. apply (ata_reg h p v Hp). Qed.
Lemma ata_platter p v h : p ∈ task_ports -> platter (out_byte p v h) = platter h.
Proof. intros Hp. apply (ata_reg h p v Hp). Qed.
Lemma addressed_run x h : request x -> platter (addressed x h) = platter h /\
  where_ x = (drive_of (treg (addressed x h)), lba_of (treg (addressed x h))).
Proof.
  intros (_ & _ & Hv & Hn & _). unfold addressed. cbn [foldl fst snd]. rewrite !ata_treg, !ata_platter by set_solver.
  split; [done|]. edestruct (lba_split (sector x) (bdev x)) as [-> ->]; done.
Qed.

Lemma idestart_run b s : request (ibufs s b) -> exists h, idestart polls (Some b) s = Ok tt (moved s h) /\
  platter h = started (ibufs s b) (platter (hw (idev s))) /\ (has (ibufs s b) B_DIRTY = false -> pending h = Some (false, where_ (ibufs s b))).
Proof.
  intros Hr. unfold idestart. destruct (idewait_run false s) as (h0 & R & _ & HP & _). mstep R. unfold getb. mrun.
  change (ibufs (moved s h0) b) with (ibufs s b). set (x := ibufs s b) in *. rewrite !moved_moved. cbn [idev moved set_idev hw set_hw].
  change (out_byte 0x1f6 _ _) with (addressed x h0). destruct (addressed_run x h0 Hr) as [HP6 Ew]. destruct Hr as (_ & _ & _ & _ & Hl).
  unfold started. rewrite <- HP, <- HP6, Ew. destruct (has x B_DIRTY).
  - destruct (ata_write (addressed x h0)) as [Pw Qw]. mrun. unfold outsl. eexists. split; [reflexivity|]. split; [|done].
    change (platter (out_words 0x1f0 (data x) (out_byte 0x1f7 (u8 IDE_CMD_WRITE) (addressed x h0))) = upd_block (platter (addressed x h0)) (drive_of (treg (addressed x h0)), lba_of (treg (addressed x h0))) (data x)).
    rewrite <- Pw. by apply ata_out.
  - destruct (ata_read (addressed x h0)) as [Pr Qr]. exists (out_byte 0x1f7 IDE_CMD_READ (addressed x h0)). by rewrite outb_run, moved_moved.
Qed.

(** ** The queue *)

Fixpoint queued (B : nat -> buf) (o : option nat) l : Prop :=
  match l with [] => o = None | b :: l => o = Some b /\ queued B (qnext (B b)) l end.
(** The drive works on [x]: it has the block to be written already, or it has
    the read command. *)
Definition active (h : D) (x : buf) : Prop :=
  if has x B_DIRTY then forall k, started x (platter h) k = platter h k else pending h = Some (false, where_ x).
Record serving s l : Prop := {
  sv_lock : idelock s = false;
  sv_queue : queued (ibufs s) (idequeue s) l;
  sv_nodup : NoDup l;
  sv_req : Forall (fun b => request (ibufs s b)) l;
  sv_asleep : asleep_on s ⊆ l;
  sv_active : forall b, head l = Some b -> active (hw (idev s)) (ibufs s b);
}.

(** What a request leaves in its buffer. *)
Definition outcome (x : buf) (P : Z * Z -> block) : block := if has x B_DIRTY then data x else P (where_ x).
Definition finished (x : buf) (P : Z * Z -> block) : buf :=
  set_flags (Z.land (Z.lor (flags x) B_VALID) (Z.lnot B_DIRTY)) (set_data (outcome x P) x).

Lemma queued_agree B B' o l : (forall b, b ∈ l -> qnext (B' b) = qnext (B b)) -> queued B o l -> queued B' o l.
Proof.
  revert o. induction l as [|b l IH]; intros o Hb; cbn [queued]; [done|]. intros [-> Hq]. split; [done|].
  rewrite Hb by set_solver. apply IH; [set_solver|done].
Qed.
Lemma queued_inj B o l l' : queued B o l -> queued B o l' -> l = l'.
Proof.
  revert o l'. induction l as [|b l IH]; intros o [|b' l']; cbn [queued]; [done|naive_solver..|].
  intros [-> H1] [[= <-] H2]. f_equal. eauto.
Qed.
Lemma started_idem x P k : started x (started x P) k = started x P k.
Proof. unfold started. destruct (has x B_DIRTY); [|done]. unfold upd_block. by case_decide. Qed.
Lemma finished_synced x P : synced (finished x P) = true.
Proof using Type.
  clear. unfold synced, finished. cbn [flags set_flags]. apply Z.eqb_eq, Z.bits_inj'. intros i Hi.
  rewrite !Z.land_spec, Z.lor_spec, Z.lnot_spec by done.
  assert (Hb : i = 0 \/ i = 1 \/ i = 2 \/ 2 < i) by lia. destruct Hb as [-> | [-> | [-> | Hb]]]; try (by destruct (Z.testbit (flags x) _)).
  rewrite (Z.bits_above_log2 (Z.lor _ _)), (Z.bits_above_log2 B_VALID) by (done || (cbn; lia)). by rewrite andb_false_r.
Qed.

Lemma start_next t l : queued (ibufs t) (idequeue t) l -> Forall (fun c => request (ibufs t c)) l ->
  exists h, when (bool_decide (idequeue t <> None)) (idestart polls (idequeue t)) t = Ok tt (moved t h) /\
  (forall k, platter h k = from_option (fun c => started (ibufs t c)) id (head l) (platter (hw (idev t))) k) /\
  forall c, head l = Some c -> active h (ibufs t c).
Proof.
  intros Hq Hr. destruct l as [|c l]; cbn [queued] in Hq.
  - rewrite Hq. exists (hw (idev t)). by rewrite moved_id.
  - destruct Hq as [-> _]. apply Forall_cons in Hr as [Hr _]. destruct (idestart_run c t Hr) as (h & R & HP & Hp).
    exists h. split; [exact R|]. rewrite HP. split; [done|]. intros ? [= <-]. unfold active.
    destruct (has (ibufs t c) B_DIRTY); [|auto]. intros k. rewrite HP. apply started_idem.
Qed.

Section Intr.
Context (s : ide D) (b : nat) (l : list nat) (Hs : serving s (b :: l)).
Notation x := (ibufs s b).
(** The data phase of a read, or nothing. *)
Lemma take_data t : ibufs t = ibufs s -> hw (idev t) = hw (idev s) -> exists t', (if has x B_DIRTY then mret tt else r ← idewait polls true; when (0 <=? r) (insl b)) t = Ok tt t' /\
  exists h, platter h = platter (hw (idev s)) /\
  t' = moved (set_ibufs (if has x B_DIRTY then ibufs t else <[b := set_data (outcome x (platter (hw (idev s)))) (ibufs t b)]> (ibufs t)) t) h.
Proof.
  intros Hb Hh. pose proof (sv_active _ _ Hs b eq_refl) as Ha. unfold active in Ha. unfold outcome. destruct (has x B_DIRTY).
  { eexists. split; [done|]. exists (hw (idev s)). split; [done|]. rewrite <- Hh. by destruct t as [[] ? ? ? ? ?]. }
  destruct (idewait_run true t) as (h & R & _ & HP & Hp). mstep R. rewrite Hh in HP, Hp. cbn [when Z.leb Z.compare]. unfold insl.
  cbn [idev moved set_idev hw set_hw]. destruct (in_words 0x1f0 128 h) as [v h'] eqn:E.
  rewrite Ha in Hp. destruct (ata_in _ _ _ _ Hp E) as [-> HP']. eexists. split; [done|]. exists h'. split; [congruence|]. rewrite HP. by destruct t as [[] ? ? ? ? ?].
Qed.

Lemma ideintr_run : exists s', ideintr polls s = Ok tt s' /\ serving s' l /\
  (forall c, ibufs s' c = if decide (c = b) then finished x (platter (hw (idev s))) else ibufs s c) /\
  asleep_on s' = filter (fun c => c <> b) (asleep_on s) /\ havedisk1 s' = havedisk1 s /\
  forall k, platter (hw (idev s')) k = from_option (fun c => started (ibufs s c)) id (head l) (platter (hw (idev s))) k.
Proof.
  destruct (sv_queue _ _ Hs) as [Hq Hq']. pose proof (sv_nodup _ _ Hs) as [Hb Hnd]%NoDup_cons. pose proof (sv_req _ _ Hs) as [Hr Hrl]%Forall_cons.
  unfold ideintr. mstep (acquire_ok idelock set_idelock s (sv_lock _ _ Hs)). rewrite (bind_ok _ _ _ _ _ (gets_ok _ _)). cbn [set_idelock idequeue]. rewrite Hq.
  unfold getb. rewrite (bind_ok _ _ _ _ _ (gets_ok _ _)), (bind_ok _ _ _ _ _ (modify_ok _ _)). cbn [set_idelock ibufs].
  set (t := set_idequeue _ _). destruct (take_data t) as (t' & R & h & HP & Et); [done..|]. mstep R.
  unfold updb. rewrite !(bind_ok _ _ _ _ _ (modify_ok _ _)), (bind_ok _ _ _ _ _ (gets_ok _ _)).
  set (t2 := set_asleep_on _ _).
  assert (Ht2 : idelock t2 = true /\ idequeue t2 = qnext x /\ asleep_on t2 = filter (fun c => c <> b) (asleep_on s) /\ havedisk1 t2 = havedisk1 s /\ hw (idev t2) = h) by (subst t2 t'; done).
  assert (Hb2 : forall c, ibufs t2 c = if decide (c = b) then finished x (platter (hw (idev s))) else ibufs s c).
  { intros c. subst t2 t'. cbn [ibufs set_asleep_on set_ibufs moved set_idev]. case_decide; subst; rewrite ?fn_lookup_insert, ?fn_lookup_insert_ne by done.
    - change (ibufs t) with (ibufs s). unfold finished, outcome. destruct (has x B_DIRTY); rewrite ?fn_lookup_insert; by destruct (ibufs s b).
    - destruct (has x B_DIRTY); by rewrite ?fn_lookup_insert_ne by done. }
  clearbody t2. clear R Et t' t. destruct Ht2 as (Hl2 & Hq2 & Ha2 & Hd2 & Hh2). subst h. cbn beta.
  assert (Hbl : forall c, c ∈ l -> ibufs t2 c = ibufs s c) by (intros c Hc; rewrite Hb2; by rewrite decide_False by set_solver).
  assert (Hql : queued (ibufs t2) (idequeue t2) l) by (rewrite Hq2; eapply queued_agree, Hq'; intros c Hc; by rewrite Hbl).
  assert (Hrl2 : Forall (fun c => request (ibufs t2 c)) l) by (apply Forall_forall; intros c Hc; rewrite Hbl by done; by eapply Forall_forall in Hrl).
  destruct (start_next t2 l Hql Hrl2) as (h & R & HPh & Hah). mstep R. eexists. split; [by apply release_ok|].
  split; [split; cbn -[platter]; try done|split_and!; try done].
  - rewrite Ha2. pose proof (sv_asleep _ _ Hs). intros c [Hc ?]%list_elem_of_filter. set_solver.
  - intros k. change (platter h k = from_option (fun c => started (ibufs s c)) id (head l) (platter (hw (idev s))) k).
    rewrite HPh, HP. destruct l; [done|]. cbn. by rewrite Hbl by set_solver.
Qed.
End Intr.

(** ** Queueing a request *)

(** The link of a buffer is no part of its request. *)
Definition relinked (x y : buf) : Prop := exists o, y = set_qnext o x.
Lemma relinked_request x y : relinked x y -> request x -> request y.
Proof. by intros [o ->]. Qed.
Lemma relinked_started x y P : relinked x y -> started y P = started x P.
Proof. by intros [o ->]. Qed.
Lemma relinked_outcome x y P : relinked x y -> outcome y P = outcome x P.
Proof. by intros [o ->]. Qed.
Lemma relinked_active x y h : relinked x y -> active h x -> active h y.
Proof. by intros [o ->]. Qed.
Lemma relinked_refl x : relinked x x.
Proof. exists (qnext x). by destruct x. Qed.

Lemma last_buf_run B l c n (t : ide D) : ibufs t = B -> queued B (Some c) l -> (length l <= n)%nat ->
  exists l0 z, l = l0 ++ [z] /\ last_buf n c t = Ok z t.
Proof.
  intros Hb. revert l c. induction n as [|n IH]; intros [|c' l] c Hq Hn; cbn [queued length last_buf] in *; try done; try lia.
  destruct Hq as [[= <-] Hq]. unfold getb. rewrite (bind_ok _ _ _ _ _ (gets_ok _ _)), Hb. destruct (qnext (B c)) as [d|] eqn:E.
  - destruct (IH l d Hq) as (l0 & z & -> & R); [lia|]. by exists (c :: l0), z.
  - destruct l as [|? ?]; [|by destruct Hq]. by exists [], c.
Qed.
Lemma queued_snoc B B' o l z b : NoDup (l ++ [z]) -> b ∉ l ++ [z] -> queued B o (l ++ [z]) ->
  (forall c, c ∈ l -> qnext (B' c) = qnext (B c)) -> qnext (B' z) = Some b -> qnext (B' b) = None -> queued B' o (l ++ [z; b]).
Proof.
  revert o. induction l as [|c l IH]; intros o Hn Hb Hq HB Hz HbN; cbn [queued app] in *.
  - destruct Hq as [-> _]. by rewrite Hz, HbN.
  - destruct Hq as [-> Hq]. split; [done|]. apply NoDup_cons in Hn as [? Hn]. rewrite HB by set_solver. apply IH; try done; set_solver.
Qed.
(** The loop over [pp] and the store through it. *)
Lemma append_run s b l n : queued (ibufs s) (idequeue s) l -> NoDup l -> b ∉ l -> qnext (ibufs s b) = None -> (length l <= n)%nat ->
  exists s', append n b s = Ok tt s' /\ queued (ibufs s') (idequeue s') (l ++ [b]) /\ (forall c, relinked (ibufs s c) (ibufs s' c)) /\
  idelock s' = idelock s /\ asleep_on s' = asleep_on s /\ havedisk1 s' = havedisk1 s /\ idev s' = idev s.
Proof.
  intros Hq Hn Hb HN Hl. unfold append. rewrite (bind_ok _ _ _ _ _ (gets_ok _ _)). destruct (idequeue s) as [c|] eqn:E.
  - destruct (last_buf_run _ l c n s eq_refl Hq Hl) as (l0 & z & -> & R). mstep R. eexists. split; [done|]. cbn. rewrite <- app_assoc. cbn [app]. split; [|split_and!; try done].
    + rewrite E. apply NoDup_app in Hn as Hn'. eapply queued_snoc; try done; rewrite ?fn_lookup_insert; try done.
      * intros d Hd. rewrite fn_lookup_insert_ne; [done|]. intros ->. set_solver.
      * rewrite fn_lookup_insert_ne; [done|]. set_solver.
    + intros d. destruct (decide (d = z)) as [->|]; [rewrite fn_lookup_insert; by eexists|rewrite fn_lookup_insert_ne by done; apply relinked_refl].
  - destruct l as [|? ?]; [|by destruct Hq]. eexists. split; [done|]. cbn. split_and!; try done. intros; apply relinked_refl.
Qed.

Lemma start_first (t : ide D) b l : queued (ibufs t) (idequeue t) (l ++ [b]) -> b ∉ l -> request (ibufs t b) ->
  (forall c, head l = Some c -> active (hw (idev t)) (ibufs t c)) ->
  exists h, when (bool_decide (idequeue t = Some b)) (idestart polls (Some b)) t = Ok tt (moved t h) /\
  (forall k, platter h k = (if decide (l = []) then started (ibufs t b) else id) (platter (hw (idev t))) k) /\
  forall c, head (l ++ [b]) = Some c -> active h (ibufs t c).
Proof.
  intros Hq Hb Hr Ha. destruct l as [|c l]; cbn [queued app] in Hq.
  - destruct (start_next t [b]) as (h & R & HP & Hh); [done|by constructor|]. destruct Hq as [Hq _]. rewrite Hq in R |- *.
    rewrite bool_decide_true in R |- * by done. by exists h.
  - destruct Hq as [-> _]. rewrite bool_decide_false by (intros [= ->]; set_solver). exists (hw (idev t)). by rewrite moved_id.
Qed.
Lemma iderw_run s b l n : serving s l -> b ∉ l -> request (ibufs s b) -> (bdev (ibufs s b) = 0 \/ havedisk1 s = true) -> (length l <= n)%nat ->
  exists s', iderw polls n b s = Ok false s' /\ serving s' (l ++ [b]) /\ (forall c, relinked (ibufs s c) (ibufs s' c)) /\
  asleep_on s' = b :: asleep_on s /\ havedisk1 s' = havedisk1 s /\
  forall k, platter (hw (idev s')) k = (if decide (l = []) then started (ibufs s b) else id) (platter (hw (idev s))) k.
Proof.
  intros Hs Hb Hr Hd Hn. pose proof Hr as (Hbusy & Hsy & _). unfold iderw, getb. rewrite (bind_ok _ _ _ _ _ (gets_ok _ _)), Hbusy, Hsy. cbn [negb].
  rewrite (bind_ok _ _ _ _ _ (get_ok _)). replace (negb (bdev (ibufs s b) =? 0) && negb (havedisk1 s)) with false by (destruct Hd as [-> | ->]; by rewrite ?andb_false_r).
  mstep (acquire_ok idelock set_idelock s (sv_lock _ _ Hs)). unfold updb. rewrite (bind_ok _ _ _ _ _ (modify_ok _ _)). set (t := set_ibufs _ _).
  assert (Ht : forall c, c <> b -> ibufs t c = ibufs s c) by (intros c Hc; unfold t; cbn; by rewrite fn_lookup_insert_ne).
  assert (Htb : ibufs t b = set_qnext None (ibufs s b)) by (unfold t; cbn; by rewrite fn_lookup_insert).
  destruct (append_run t b l n) as (t1 & R & Hq1 & Hre & Hl1 & Ha1 & Hd1 & Hv1); [|apply (sv_nodup _ _ Hs)|done|by rewrite Htb|done|].
  { eapply queued_agree, (sv_queue _ _ Hs). intros c Hc. rewrite Ht; [done|]. by intros ->. }
  mstep R. rewrite (bind_ok _ _ _ _ _ (gets_ok _ _)).
  assert (Hre' : forall c, relinked (ibufs s c) (ibufs t1 c)).
  { intros c. destruct (Hre c) as [o ->]. destruct (decide (c = b)) as [->|Hc]; [rewrite Htb; by exists o|rewrite Ht by done; by exists o]. }
  clear Hre R. change (idelock t) with true in Hl1. change (asleep_on t) with (asleep_on s) in Ha1. change (havedisk1 t) with (havedisk1 s) in Hd1. change (idev t) with (idev s) in Hv1. clear Ht Htb. clearbody t. clear t.
  assert (Hrb : request (ibufs t1 b)) by (by eapply relinked_request).
  destruct (start_first t1 b l) as (h & R & HP & Ha); try done.
  { intros c Hc. rewrite Hv1. eapply relinked_active; [done|]. by apply (sv_active _ _ Hs). }
  mstep R. unfold iderw_check, getb. rewrite (bind_ok _ _ _ _ _ (gets_ok _ _)). change (ibufs (moved t1 h) b) with (ibufs t1 b).
  replace (synced (ibufs t1 b)) with false by (symmetry; apply Hrb). rewrite (bind_ok _ _ _ _ _ (modify_ok _ _)).
  mstep (release_ok idelock set_idelock (set_asleep_on (b :: asleep_on (moved t1 h)) (moved t1 h)) Hl1). eexists. split; [done|].
  split; [split; cbn -[platter]; try done|split_and!; try done; try (cbn; congruence)].
  - apply NoDup_app. split_and!; [apply (sv_nodup _ _ Hs)|set_solver|apply NoDup_singleton].
  - apply Forall_app. split; [|by constructor]. pose proof (sv_req _ _ Hs) as Hf. rewrite Forall_forall in Hf |- *. intros c Hc. eapply relinked_request; [done|auto].
  - rewrite Ha1. pose proof (sv_asleep _ _ Hs). set_solver.
  - intros k. change (platter h k = (if decide (l = []) then started (ibufs s b) else id) (platter (hw (idev s))) k). rewrite HP, Hv1.
    case_decide; [|done]. by rewrite (relinked_started (ibufs s b)).
Qed.

(** ** The contract

    To its callers the disk is a map of blocks and a queue of promises: what
    each outstanding request will leave in its buffer.  A request takes effect
    when it is made. *)

Record spec := mkSpec { blocks : Z * Z -> block; due : list (nat * block) }.
Definition issue b (x : buf) (sp : spec) : spec := mkSpec (started x (blocks sp)) (due sp ++ [(b, outcome x (blocks sp))]).

Definition written (B : nat -> buf) l (P : Z * Z -> block) : Z * Z -> block := foldl (fun P b => started (B b) P) P l.
Fixpoint promised (B : nat -> buf) l (P : Z * Z -> block) : list (nat * block) :=
  match l with [] => [] | b :: l => (b, outcome (B b) P) :: promised B l (started (B b) P) end.
Record rep s (sp : spec) l : Prop := {
  rp_serving : serving s l;
  rp_due : due sp = promised (ibufs s) l (platter (hw (idev s)));
  rp_blocks : forall k, blocks sp k = written (ibufs s) l (platter (hw (idev s))) k;
}.

Lemma started_ext x P P' : (forall k, P k = P' k) -> forall k, started x P k = started x P' k.
Proof. intros H k. unfold started, upd_block. by destruct (has x B_DIRTY); [case_decide|]. Qed.
Lemma outcome_ext x P P' : (forall k, P k = P' k) -> outcome x P = outcome x P'.
Proof. intros H. unfold outcome. by destruct (has x B_DIRTY). Qed.
Lemma promised_ext B B' l P P' : (forall b, b ∈ l -> relinked (B b) (B' b)) -> (forall k, P' k = P k) ->
  promised B' l P' = promised B l P /\ forall k, written B' l P' k = written B l P k.
Proof.
  revert P P'. induction l as [|b l IH]; intros P P' HB HP; [done|]. cbn [promised]. unfold written. cbn [foldl].
  rewrite (relinked_outcome (B b)), (outcome_ext _ _ _ HP), (relinked_started (B b)) by (apply HB; set_solver).
  destruct (IH (started (B b) P) (started (B b) P')) as [-> Hw]; [set_solver|by apply started_ext|done].
Qed.
Lemma promised_snoc B l b P : promised B (l ++ [b]) P = promised B l P ++ [(b, outcome (B b) (written B l P))].
Proof. revert P. induction l as [|c l IH]; intros P; [done|]. cbn. by rewrite IH. Qed.
Lemma written_snoc B l b P : written B (l ++ [b]) P = started (B b) (written B l P).
Proof. unfold written. by rewrite foldl_app. Qed.

(** The request at the head may have taken effect already. *)
Lemma promised_idem B l P : let P' := from_option (fun c => started (B c)) id (head l) P in
  promised B l P' = promised B l P /\ forall k, written B l P' k = written B l P k.
Proof.
  destruct l as [|b l]; [done|]. cbn [head from_option promised]. unfold written. cbn [foldl].
  destruct (promised_ext B B l (started (B b) P) (started (B b) (started (B b) P))) as [-> Hw]; [intros; apply relinked_refl|apply started_idem|].
  split; [|done]. f_equal. f_equal. unfold outcome, started. by destruct (has (B b) B_DIRTY).
Qed.

Lemma rep_issue s sp l s' b : rep s sp l -> serving s' (l ++ [b]) -> (forall c, relinked (ibufs s c) (ibufs s' c)) ->
  (forall k, platter (hw (idev s')) k = (if decide (l = []) then started (ibufs s b) else id) (platter (hw (idev s))) k) ->
  rep s' (issue b (ibufs s b) sp) (l ++ [b]).
Proof.
  intros [_ Hd Hb] Hs' HB HP. destruct (promised_ext (ibufs s) (ibufs s') (l ++ [b]) _ _ (fun c _ => HB c) HP) as [Ep Ew].
  assert (E : promised (ibufs s) (l ++ [b]) ((if decide (l = []) then started (ibufs s b) else id) (platter (hw (idev s)))) = promised (ibufs s) (l ++ [b]) (platter (hw (idev s))) /\
    forall k, written (ibufs s) (l ++ [b]) ((if decide (l = []) then started (ibufs s b) else id) (platter (hw (idev s)))) k = written (ibufs s) (l ++ [b]) (platter (hw (idev s))) k)
    by (case_decide; [subst l; apply (promised_idem _ [b])|done]). destruct E as [Ep' Ew'].
  split; [done| |]; cbn [issue due blocks].
  - rewrite Ep, Ep', promised_snoc, Hd, (outcome_ext _ _ _ Hb). done.
  - intros k. rewrite Ew, Ew', written_snoc. by apply started_ext.
Qed.

Lemma rep_complete s sp l s' b : rep s sp (b :: l) -> serving s' l -> (forall c, c ∈ l -> ibufs s' c = ibufs s c) ->
  (forall k, platter (hw (idev s')) k = from_option (fun c => started (ibufs s c)) id (head l) (platter (hw (idev s))) k) ->
  rep s' (mkSpec (blocks sp) (tail (due sp))) l.
Proof.
  intros [Hs Hd Hb] Hs' HB HP. assert (HB' : forall c, c ∈ l -> relinked (ibufs s c) (ibufs s' c)) by (intros c Hc; rewrite HB by done; apply relinked_refl).
  destruct (promised_ext (ibufs s) (ibufs s') l _ _ HB' HP) as [Ep Ew]. destruct (promised_idem (ibufs s) l (platter (hw (idev s)))) as [Ep' Ew'].
  assert (Hact : forall k, started (ibufs s b) (platter (hw (idev s))) k = platter (hw (idev s)) k).
  { pose proof (sv_active _ _ Hs b eq_refl) as Ha. unfold active in Ha. unfold started in *. by destruct (has (ibufs s b) B_DIRTY). }
  destruct (promised_ext (ibufs s) (ibufs s) l _ _ (fun c _ => relinked_refl _) Hact) as [Ep'' Ew''].
  split; [done| |]; cbn [due blocks].
  - by rewrite Hd, Ep, Ep'.
  - intros k. rewrite Ew, Ew', <- Ew''. apply Hb.
Qed.

(** C20: The disk driver refines the queue of promises, whatever the drive does
    within its documented behaviour: a request on a buffer that is not queued
    is accepted, its process sleeps, and its effect is that of the access at
    the moment of the request, after all earlier ones; an interrupt completes
    the oldest request, leaves in its buffer exactly what was promised, marks
    it valid and clean, wakes its process and touches no other buffer; an
    interrupt with nothing outstanding changes nothing. *)
Theorem ide_refines s sp l : rep s sp l ->
  (forall n b, b ∉ l -> request (ibufs s b) -> (bdev (ibufs s b) = 0 \/ havedisk1 s = true) -> (length l <= n)%nat ->
    exists s', iderw polls n b s = Ok false s' /\ rep s' (issue b (ibufs s b) sp) (l ++ [b]) /\ asleep_on s' = b :: asleep_on s /\
    forall c, relinked (ibufs s c) (ibufs s' c)) /\
  match due sp with
  | [] => ideintr polls s = Ok tt s
  | (b, v) :: due' =>
      exists s' l', l = b :: l' /\ ideintr polls s = Ok tt s' /\ rep s' (mkSpec (blocks sp) due') l' /\
      data (ibufs s' b) = v /\ synced (ibufs s' b) = true /\ asleep_on s' = filter (fun c => c <> b) (asleep_on s) /\
      (forall c, c <> b -> ibufs s' c = ibufs s c) /\ iderw_wait b s' = Ok true s'
  end.
Proof.
  intros Hr. destruct Hr as [Hs Hd Hb] eqn:EH. clear EH. split.
  - intros n b Hbl Hq Hdisk Hn. destruct (iderw_run s b l n Hs Hbl Hq Hdisk Hn) as (s' & R & Hs' & HB & Ha & _ & HP).
    exists s'. split_and!; try done. by apply (rep_issue s).
  - rewrite Hd. destruct l as [|b l]; cbn [promised].
    + unfold ideintr. mstep (acquire_ok idelock set_idelock s (sv_lock _ _ Hs)). rewrite (bind_ok _ _ _ _ _ (gets_ok _ _)). cbn [set_idelock idequeue].
      rewrite (sv_queue _ _ Hs : idequeue s = None). unfold ide_release. rewrite release_ok by done. pose proof (sv_lock _ _ Hs). destruct s; simplify_eq/=. done.
    + destruct (ideintr_run s b l Hs) as (s' & R & Hs' & HB & Ha & _ & HP). pose proof (sv_nodup _ _ Hs) as [Hbl _]%NoDup_cons.
      exists s', l. assert (Hb' : ibufs s' b = finished (ibufs s b) (platter (hw (idev s)))) by (rewrite HB; by rewrite decide_True).
      split_and!; try done; rewrite ?Hb'; [|done|apply finished_synced| |].
      * replace (promised _ _ _) with (tail (due sp)) by (by rewrite Hd). eapply rep_complete; try done. intros c Hc. rewrite HB, decide_False; [done|]. by intros ->.
      * intros c Hc. by rewrite HB, decide_False.
      * unfold iderw_wait. mstep (acquire_ok idelock set_idelock s' (sv_lock _ _ Hs')). unfold iderw_check, getb. rewrite (bind_ok _ _ _ _ _ (gets_ok _ _)). cbn [set_idelock ibufs].
        rewrite Hb', finished_synced. mstep (release_ok idelock set_idelock (set_idelock true s') eq_refl). pose proof (sv_lock _ _ Hs'). destruct s'; simplify_eq/=. done.
Qed.
End Drive.

(** ** A drive *)

(** Busy for one status read after a command. *)
Record toy := mkToy { toy_reg : Z -> Z; toy_platter : Z * Z -> block; toy_pending : option (bool * (Z * Z)); toy_busy : bool }.
Definition toy_cmd (w : bool) (d : toy) : toy :=
  mkToy (toy_reg d) (toy_platter d) (Some (w, (drive_of (toy_reg d), lba_of (toy_reg d)))) true.
#[local] Instance toy_ports : Ports toy := {
  in_byte p d := if p =? 0x1f7 then (if toy_busy d then 0x80 else 0x40, mkToy (toy_reg d) (toy_platter d) (toy_pending d) false) else (0, d);
  out_byte p v d :=
    if p =? 0x1f7 then (if v =? IDE_CMD_READ then toy_cmd false d else if v =? IDE_CMD_WRITE then toy_cmd true d else d)
    else mkToy (<[p := v]> (toy_reg d)) (toy_platter d) (toy_pending d) (toy_busy d);
  in_words p n d := match toy_pending d with Some (false, k) => (toy_platter d k, d) | _ => ([], d) end;
  out_words p x d := match toy_pending d with Some (true, k) => mkToy (toy_reg d) (upd_block (toy_platter d) k x) None true | _ => d end;
  reg_read a d := (0, d);
  reg_write a v d := d;
}.
#[local] Program Instance toy_ata : Ata toy := {
  treg := toy_reg; platter := toy_platter; pending := toy_pending; delay d := if toy_busy d then 1%nat else 0%nat; max_delay := 1%nat;
}.
Next Obligation. intros d. cbn. destruct (toy_busy d); lia. Qed.
Next Obligation. cbn. intros d r d' [= <- <-]. cbn. split_and!; try done; destruct (toy_busy d); cbn; [done..|right; lia|by left]. Qed.
Next Obligation. intros d p v Hp. assert (Hn : p <> 0x1f7) by (intros ->; set_solver). cbn. by rewrite (proj2 (Z.eqb_neq _ _) Hn). Qed.
Next Obligation. done. Qed.
Next Obligation. done. Qed.
Next Obligation. cbn. intros d k x -> _. done. Qed.
Next Obligation. cbn. intros d k x d' ->. by intros [= <- <-]. Qed.

Definition toy0 : toy := mkToy (fun _ => 0) (fun k => replicate 512 (k.2 mod 256)) None false.
Definition demo_bufs (b : nat) : buf :=
  if decide (b = 0%nat) then mkBuf (Z.lor B_BUSY B_DIRTY) 0 7 None (replicate 512 42) else mkBuf B_BUSY 0 7 None (replicate 512 0).
Definition demo : ide toy := mkIde _ (mkDv _ toy0 0 0 false 0 1 0 false 0 (fun _ => 0)) false demo_bufs None false [].
Lemma demo_rep : rep demo (mkSpec (platter toy0) []) [].
Proof. split; [split|..]; done || apply NoDup_nil; done. Qed.

(** A block is written and read back by two processes that wait together: the
    reader gets what the writer wrote, though neither request was done when
    the second was made. *)
Lemma ide_refines_witness : exists s1 s2 s3 s4 : ide toy,
  iderw 2 4 0 demo = Ok false s1 /\ iderw 2 4 1 s1 = Ok false s2 /\ ideintr 2 s2 = Ok tt s3 /\ ideintr 2 s3 = Ok tt s4 /\
  data (ibufs s4 1%nat) = replicate 512 42 /\ asleep_on s4 = [].
Proof.
  assert (H1 : (max_delay < 2)%nat) by (cbn; lia).
  destruct (ide_refines 2 H1 demo _ _ demo_rep) as [Hrw _]. destruct (Hrw 4%nat 0%nat) as (s1 & R1 & Hr1 & Ha1 & HB1); [set_solver|by split_and!|by left|cbn; lia|].
  destruct (ide_refines 2 H1 s1 _ _ Hr1) as [Hrw1 _]. destruct (HB1 1%nat) as [o Ho].
  destruct (Hrw1 4%nat 1%nat) as (s2 & R2 & Hr2 & Ha2 & HB2); [set_solver|rewrite Ho; by split_and!|rewrite Ho; by left|cbn; lia|].
  destruct (ide_refines 2 H1 s2 _ _ Hr2) as [_ Hi]. destruct Hi as (s3 & l3 & _ & R3 & Hr3 & _ & _ & Ha3 & _).
  destruct (ide_refines 2 H1 s3 _ _ Hr3) as [_ Hi]. destruct Hi as (s4 & l4 & _ & R4 & Hr4 & Hd & _ & Ha4 & _).
  exists s1, s2, s3, s4. split_and!; try done.
  - rewrite Hd, Ho. done.
  - rewrite Ha4, Ha3, Ha2, Ha1. done.
Defined.

(** ** Errors *)

Section Errors.
Context {D : Type} `{!Ports D} (polls : nat).
End Errors.

#[local] Instance broken_ports : Ports unit := {
  in_byte p d := (Z.lor IDE_DRDY IDE_ERR, d); out_byte p v d := d; in_words p n d := ([], d); out_words p x d := d; reg_read a d := (0, d); reg_write a v d := d;
}.
