(* ===== verification/Kalloc.v ===== *)
(** * kalloc.c: the physical page allocator

    The free list of src/kalloc.c in the kernel's byte memory: the first word
    of a free page is the address of the next one.  [kend] is the linker's
    [end].  Other components' bytes live in the same memory and are shown
    untouched. *)

From S2P Require Import Prelude Str Spinlock.

Definition PGSIZE : Z := 4096.
Definition KERNBASE : Z := 2 ^ 31.
Definition PHYSTOP : Z := 0xE000000.
Definition v2p (a : Z) : Z := a ⊖ KERNBASE.
Definition p2v (a : Z) : Z := a ⊕ KERNBASE.
Definition PGROUNDUP (sz : Z) : Z := Z.land (sz ⊕ (PGSIZE - 1)) (u32 (Z.lnot (PGSIZE - 1))).

Definition load32 (m : mem) (a : Z) : Z := m a + 2 ^ 8 * m (a + 1) + 2 ^ 16 * m (a + 2) + 2 ^ 24 * m (a + 3).

Record kmem := mkKmem {
  klock : bool;            (** kmem.lock is held *)
  use_lock : bool;
  freelist : Z;
  kdata : mem;             (** the kernel's memory *)
  kend : Z;
}.
Definition set_klock b k := mkKmem b (use_lock k) (freelist k) (kdata k) (kend k).
Definition set_use_lock b k := mkKmem (klock k) b (freelist k) (kdata k) (kend k).
Definition set_freelist p k := mkKmem (klock k) (use_lock k) p (kdata k) (kend k).
Definition set_kdata m k := mkKmem (klock k) (use_lock k) (freelist k) m (kend k).

Definition kacquire : M kmem unit := u ← gets use_lock; when u (acquire klock set_klock).
Definition krelease : M kmem unit := u ← gets use_lock; when u (release klock set_klock).

Definition kfree (v : Z) : M kmem unit :=
  e ← gets kend;
  if truth (v mod PGSIZE) || (v <? e) || (PHYSTOP <=? v2p v) then panic "kfree"
  else
    modify (fun k => set_kdata (memset (kdata k) v 1 PGSIZE) k);;
    kacquire;;
    modify (fun k => set_kdata (store32 (kdata k) v (freelist k)) k);;
    modify (set_freelist v);;
    krelease.

Definition kalloc : M kmem Z :=
  kacquire;;
  r ← gets freelist;
  when (truth r) (modify (fun k => set_freelist (load32 (kdata k) r) k));;
  krelease;;
  mret r.

(** The loop of [freerange]; [fuel] pages at most lie between [p] and [vend]. *)
Fixpoint freerange_loop (fuel : nat) (p vend : Z) : M kmem unit :=
  match fuel with
  | O => halt SFuel
  | S fuel => if p + PGSIZE <=? vend then kfree p;; freerange_loop fuel (p + PGSIZE) vend else mret tt
  end.
Definition freerange (vstart vend : Z) : M kmem unit :=
  freerange_loop (S (Z.to_nat (vend / PGSIZE))) (PGROUNDUP vstart) vend.

Definition kinit1 (vstart vend : Z) : M kmem unit :=
  modify (set_klock false);; modify (set_use_lock false);; freerange vstart vend.
Definition kinit2 (vstart vend : Z) : M kmem unit :=
  freerange vstart vend;; modify (set_use_lock true).

Ltac k_simpl := cbn [klock use_lock freelist kdata kend set_klock set_use_lock set_freelist set_kdata].

(** ** Words in memory *)

Definition byte_mem (m : mem) : Prop := forall x, is_byte (m x).


Lemma load32_store32 m a w : 0 <= w < 2 ^ 32 -> load32 (store32 m a w) a = w.
Proof.
  intros Hw. unfold load32, store32, sto. rewrite !Z.eqb_refl.
  repeat (rewrite (proj2 (Z.eqb_neq _ _)) by lia). unfold u8. rewrite !Z.shiftr_div_pow2 by lia.
  pose proof (Z.div_mod w (2 ^ 8) ltac:(lia)). pose proof (Z.div_mod (w / 2 ^ 8) (2 ^ 8) ltac:(lia)).
  pose proof (Z.div_mod (w / 2 ^ 16) (2 ^ 8) ltac:(lia)).
  assert (w / 2 ^ 8 / 2 ^ 8 = w / 2 ^ 16) by (rewrite Z.div_div by lia; done).
  assert (w / 2 ^ 16 / 2 ^ 8 = w / 2 ^ 24) by (rewrite Z.div_div by lia; done).
  assert (0 <= w / 2 ^ 24 < 2 ^ 8) by (split; [apply Z.div_pos; lia|apply Z.div_lt_upper_bound; lia]).
  rewrite (Z.mod_small (w / 2 ^ 24)) by lia. lia.
Qed.

Lemma store32_other m a w x : x < a \/ a + 4 <= x -> store32 m a w x = m x.
Proof. intros Hx. unfold store32, sto. by repeat (rewrite (proj2 (Z.eqb_neq _ _)) by lia). Qed.

Lemma load32_ext m m' a : (forall x, a <= x < a + 4 -> m x = m' x) -> load32 m a = load32 m' a.
Proof. intros E. unfold load32. by rewrite !E by lia. Qed.

(** ** The free list *)

(** [p] is the start of a page the allocator may own. *)
Definition page_ok (e p : Z) : Prop := p mod PGSIZE = 0 /\ e <= p /\ KERNBASE <= p < KERNBASE + PHYSTOP.

Fixpoint chain (m : mem) (p : Z) (L : list Z) : Prop :=
  match L with
  | [] => p = 0
  | q :: L => p = q /\ q <> 0 /\ chain m (load32 m q) L
  end.

(** [L] are the free pages, in list order. *)
Record kinv (k : kmem) (L : list Z) : Prop := {
  ki_lock : klock k = false;
  ki_end : 0 < kend k;
  ki_chain : chain (kdata k) (freelist k) L;
  ki_pages : Forall (page_ok (kend k)) L;
  ki_nodup : NoDup L;
}.

Lemma page_disjoint p q : p mod PGSIZE = 0 -> q mod PGSIZE = 0 -> p <> q -> p + PGSIZE <= q \/ q + PGSIZE <= p.
Proof.
  unfold PGSIZE. intros Hp Hq Hne.
  pose proof (Z.div_mod p 4096 ltac:(lia)). pose proof (Z.div_mod q 4096 ltac:(lia)). lia.
Qed.

Lemma chain_ext m m' p L :
  (forall q, q ∈ L -> load32 m q = load32 m' q) -> chain m p L -> chain m' p L.
Proof.
  revert p. induction L as [|q L IH]; intros p E; [done|]. simpl. intros (-> & Hq & Hc).
  split_and!; [done|done|]. rewrite <- E by left. apply IH; [|done]. intros r Hr. apply E. by right.
Qed.

Lemma chain_head m p L : chain m p L -> (p = 0 <-> L = []).
Proof. destruct L as [|q L]; simpl; [done|]. intros (-> & Hq & _). done. Qed.

Lemma page_range e p : page_ok e p -> 0 < p < 2 ^ 32 /\ v2p p = p - KERNBASE /\ p - KERNBASE < PHYSTOP.
Proof.
  intros (_ & _ & Hp). unfold KERNBASE, PHYSTOP in *. split_and!; [lia|lia| |lia].
  unfold v2p, KERNBASE. rewrite u32_id; lia.
Qed.

Lemma kacquire_ok k : klock k = false -> kacquire k = Ok tt (if use_lock k then set_klock true k else k).
Proof.
  intros E. unfold kacquire. mrun1. unfold when. destruct (use_lock k) eqn:Eu; [|by destruct k].
  by rewrite acquire_ok.
Qed.

Lemma krelease_ok k : klock k = use_lock k -> krelease k = Ok tt (set_klock false k).
Proof.
  intros E. unfold krelease. mrun1. unfold when. destruct (use_lock k) eqn:Eu; [by rewrite release_ok|].
  destruct k; simpl in *; by subst.
Qed.

Definition kmem_frame (v : Z) (k k' : kmem) : Prop :=
  use_lock k' = use_lock k /\ kend k' = kend k /\ forall x, x < v \/ v + PGSIZE <= x -> kdata k' x = kdata k x.

Lemma kfree_page k L v :
  kinv k L -> page_ok (kend k) v -> v ∉ L ->
  exists k', kfree v k = Ok tt k' /\ kinv k' (v :: L) /\ kmem_frame v k k' /\
    forall x, v + 4 <= x < v + PGSIZE -> kdata k' x = 1.
Proof.
  intros [Hlk He Hch Hpg Hnd] Hv Hin. pose proof (page_range _ _ Hv) as (Hr & Hvp & Hph).
  destruct Hv as (Hal & Hend & Hkb).
  unfold kfree. mrun1. rewrite Hal, (proj2 (Z.ltb_ge _ _) Hend), Hvp, (proj2 (Z.leb_gt _ _) Hph). cbn [truth orb negb Z.eqb].
  mrun1. set (m1 := memset (kdata k) v 1 PGSIZE).
  mstep (kacquire_ok (set_kdata m1 k) Hlk). set (k1 := if use_lock _ then _ else _).
  assert (Hk1 : kdata k1 = m1 /\ freelist k1 = freelist k /\ use_lock k1 = use_lock k /\ kend k1 = kend k /\ klock k1 = use_lock k).
  { unfold k1. k_simpl. destruct (use_lock k) eqn:Eu; k_simpl; by rewrite ?Eu. }
  destruct Hk1 as (E1 & E2 & E3 & E4 & E5). mrun1. mrun1. rewrite E1, E2.
  rewrite krelease_ok by (k_simpl; congruence). eexists. split; [reflexivity|]. k_simpl.
  set (m2 := store32 m1 v (freelist k)).
  assert (Hfr : 0 <= freelist k < 2 ^ 32).
  { destruct L as [|q L]; simpl in Hch; [lia|]. destruct Hch as (-> & _ & _).
    apply Forall_cons in Hpg as [Hq _]. apply page_range in Hq. lia. }
  assert (Hout : forall x, x < v \/ v + PGSIZE <= x -> m2 x = kdata k x).
  { intros x Hx. unfold m2, m1. rewrite store32_other by (unfold PGSIZE in *; lia).
    rewrite memset_bytes by (unfold PGSIZE; lia).
    destruct (Z.leb_spec v x), (Z.ltb_spec x (v + PGSIZE)); simpl; done || lia. }
  split_and!.
  - split; k_simpl; [done|by rewrite E4| | |].
    + cbn [chain]. split_and!; [done|lia|]. unfold m2 at 2. rewrite load32_store32 by done. eapply chain_ext; [|done].
      intros q Hq. apply load32_ext. intros x Hx. symmetry. apply Hout.
      rewrite Forall_forall in Hpg. specialize (Hpg q Hq). destruct Hpg as (Hqa & _).
      assert (v <> q) as Hvq by (intros ->; done). pose proof (page_disjoint v q Hal Hqa Hvq). unfold PGSIZE in *. lia.
    + rewrite E4. by constructor.
    + by constructor.
  - split_and!; [done..|]. exact Hout.
  - intros x Hx. unfold m2, m1. rewrite store32_other by lia. rewrite memset_bytes by (unfold PGSIZE; lia).
    rewrite (proj2 (Z.leb_le _ _)), (proj2 (Z.ltb_lt _ _)) by lia. done.
Qed.

Lemma kalloc_page k L :
  kinv k L ->
  match L with
  | [] => kalloc k = Ok 0 k
  | p :: L' => exists k', kalloc k = Ok p k' /\ kinv k' L' /\ page_ok (kend k) p /\ (p ∉ L') /\
                 kdata k' = kdata k /\ use_lock k' = use_lock k /\ kend k' = kend k
  end.
Proof.
  intros [Hlk He Hch Hpg Hnd]. unfold kalloc.
  mstep (kacquire_ok k Hlk). set (k1 := if use_lock k then _ else _).
  assert (Hk1 : kdata k1 = kdata k /\ freelist k1 = freelist k /\ use_lock k1 = use_lock k /\ kend k1 = kend k /\
                klock k1 = use_lock k /\ set_klock false k1 = k).
  { unfold k1. destruct k as [lk ul fl m e]; simpl in *. subst lk. by destruct ul. }
  destruct Hk1 as (E1 & E2 & E3 & E4 & E5 & E6). mrun1. rewrite E2.
  destruct L as [|p L].
  - simpl in Hch. rewrite Hch. cbn [truth negb Z.eqb when]. mrun1.
    erewrite bind_ok by (apply krelease_ok; congruence). by rewrite E6.
  - simpl in Hch. destruct Hch as (-> & Hp & Hc). unfold truth. rewrite (proj2 (Z.eqb_neq _ _) Hp). cbn [negb when].
    mrun1. erewrite bind_ok by (apply krelease_ok; simpl; congruence).
    apply NoDup_cons in Hnd as [Hni Hnd]. apply Forall_cons in Hpg as [Hpp Hpg].
    eexists. split; [reflexivity|]. simpl. rewrite E1. split_and!; try done.
    split; simpl; rewrite ?E1, ?E4; done.
Qed.

(** The pages from [p], upwards. *)
Definition frames (p : Z) (n : nat) : list Z := map (fun i => p + PGSIZE * Z.of_nat i) (seq 0 n).

Lemma frames_S p n : frames p (S n) = p :: frames (p + PGSIZE) n.
Proof.
  unfold frames. cbn [seq map]. rewrite <- fmap_S_seq. f_equal; [lia|]. rewrite map_map.
  apply map_ext. intros i. lia.
Qed.

Lemma freerange_loop_ok fuel k L p vend (n : nat) :
  kinv k L -> p mod PGSIZE = 0 -> kend k <= p -> KERNBASE <= p ->
  vend <= KERNBASE + PHYSTOP ->
  p + PGSIZE * Z.of_nat n <= vend < p + PGSIZE * (Z.of_nat n + 1) -> (n < fuel)%nat ->
  (forall q, q ∈ L -> q < p \/ vend <= q) ->
  exists k', freerange_loop fuel p vend k = Ok tt k' /\ kinv k' (rev (frames p n) ++ L) /\
    use_lock k' = use_lock k /\ kend k' = kend k.
Proof.
  revert fuel k L p. induction n as [|n IH]; intros [|fuel] k L p Hinv Hal Hend Hkb Htop Hn Hf Hd; try lia;
    cbn [freerange_loop].
  - rewrite (proj2 (Z.leb_gt _ _)) by (unfold PGSIZE in *; lia). by exists k.
  - rewrite (proj2 (Z.leb_le _ _)) by (unfold PGSIZE in *; lia).
    assert (Hp : page_ok (kend k) p) by (split_and!; [done|done|done|unfold PGSIZE in *; lia]).
    destruct (kfree_page k L p Hinv Hp) as (k1 & E1 & Hinv1 & (Eu & Ee & _) & _).
    { intros Hin. specialize (Hd p Hin). unfold PGSIZE in *. lia. }
    mstep E1. destruct (IH fuel k1 (p :: L) (p + PGSIZE)) as (k2 & E2 & Hinv2 & Eu2 & Ee2).
    + done.
    + rewrite <- Zplus_mod_idemp_l, Hal. unfold PGSIZE. done.
    + unfold PGSIZE. lia.
    + unfold PGSIZE. lia.
    + done.
    + lia.
    + lia.
    + intros q [->|Hq]%elem_of_cons; [unfold PGSIZE in *; lia|]. specialize (Hd q Hq). unfold PGSIZE in *. lia.
    + exists k2. split; [done|]. rewrite frames_S. cbn [rev]. rewrite <- app_assoc. split_and!; [done|congruence|congruence].
Qed.

Lemma page_mask x : 0 <= x < 2 ^ 32 -> Z.land x (u32 (Z.lnot (PGSIZE - 1))) = PGSIZE * (x / PGSIZE).
Proof.
  intros Hx. unfold PGSIZE. change (u32 (Z.lnot (4096 - 1))) with (Z.ldiff (Z.ones 32) (Z.ones 12)).
  assert (E : Z.land x (Z.ldiff (Z.ones 32) (Z.ones 12)) = Z.ldiff (Z.land x (Z.ones 32)) (Z.ones 12)).
  { apply Z.bits_inj'. intros n _. by rewrite !Z.land_spec, !Z.ldiff_spec, Z.land_spec, andb_assoc. }
  rewrite E, Z.land_ones, Z.mod_small by lia. rewrite Z.ldiff_ones_r by lia.
  rewrite Z.shiftl_mul_pow2, Z.shiftr_div_pow2 by lia. change (2 ^ 12) with 4096. lia.
Qed.

Lemma PGROUNDUP_spec a : 0 <= a <= 2 ^ 32 - PGSIZE -> PGROUNDUP a = PGSIZE * ((a + (PGSIZE - 1)) / PGSIZE).
Proof.
  intros Ha. unfold PGROUNDUP. rewrite u32_id by (unfold PGSIZE in *; lia). apply page_mask. unfold PGSIZE in *. lia.
Qed.

Lemma frames_elem p n q :
  p mod PGSIZE = 0 ->
  q ∈ frames p n <-> p <= q < p + PGSIZE * Z.of_nat n /\ q mod PGSIZE = 0.
Proof.
  intros Hp. unfold frames, PGSIZE in *. rewrite list_elem_of_fmap. split.
  - intros (i & -> & Hi%elem_of_seq). split; [lia|].
    rewrite Z.mul_comm, Z_mod_plus_full. done.
  - intros [Hr Hq]. exists (Z.to_nat ((q - p) / 4096)).
    pose proof (Z.div_mod p 4096 ltac:(lia)). pose proof (Z.div_mod q 4096 ltac:(lia)).
    assert (E : (q - p) / 4096 = q / 4096 - p / 4096).
    { replace (q - p) with ((q / 4096 - p / 4096) * 4096) by lia. by rewrite Z.div_mul. }
    rewrite E. split; [lia|]. apply elem_of_seq. lia.
Qed.

Lemma freerange_ok k L vstart vend :
  kinv k L -> kend k <= vstart -> KERNBASE <= vstart -> vstart <= vend - PGSIZE -> vend <= KERNBASE + PHYSTOP ->
  vend mod PGSIZE = 0 -> (forall q, q ∈ L -> q < vstart \/ vend <= q) ->
  exists k' L', freerange vstart vend k = Ok tt k' /\ kinv k' (L' ++ L) /\
    use_lock k' = use_lock k /\ kend k' = kend k /\
    forall q, q ∈ L' <-> vstart <= q < vend /\ q mod PGSIZE = 0.
Proof.
  intros Hinv He Hk Hv Htop Hal Hd. unfold freerange.
  assert (HR : PGROUNDUP vstart = PGSIZE * ((vstart + (PGSIZE - 1)) / PGSIZE)).
  { apply PGROUNDUP_spec. unfold KERNBASE, PHYSTOP, PGSIZE in *. lia. }
  set (p := PGROUNDUP vstart) in *. set (n := Z.to_nat ((vend - p) / PGSIZE)).
  pose proof (Z.div_mod (vstart + (PGSIZE - 1)) PGSIZE ltac:(unfold PGSIZE; lia)) as Hdm.
  pose proof (Z.mod_pos_bound (vstart + (PGSIZE - 1)) PGSIZE ltac:(unfold PGSIZE; lia)) as Hmb.
  assert (Hpm : p mod PGSIZE = 0) by (rewrite HR, Z.mul_comm; apply Z.mod_mul; unfold PGSIZE; lia).
  assert (Hpr : vstart <= p < vstart + PGSIZE) by lia.
  assert (Hn : p + PGSIZE * Z.of_nat n = vend).
  { pose proof (Z.div_mod vend PGSIZE ltac:(unfold PGSIZE; lia)). pose proof (Z.div_mod p PGSIZE ltac:(unfold PGSIZE; lia)).
    assert (E : (vend - p) / PGSIZE = vend / PGSIZE - p / PGSIZE).
    { replace (vend - p) with ((vend / PGSIZE - p / PGSIZE) * PGSIZE) by lia. apply Z.div_mul. unfold PGSIZE; lia. }
    unfold n. rewrite E. unfold PGSIZE in *. lia. }
  destruct (freerange_loop_ok (S (Z.to_nat (vend / PGSIZE))) k L p vend n) as (k' & E & Hinv' & Eu & Ee);
    try (unfold PGSIZE in *; lia); try done.
  - assert (vend / PGSIZE * PGSIZE <= vend) by (rewrite Z.mul_comm; apply Z.mul_div_le; unfold PGSIZE; lia).
    assert (Z.of_nat n <= vend / PGSIZE); [|lia].
    apply Z.div_le_lower_bound; unfold PGSIZE, KERNBASE in *; lia.
  - intros q Hq. specialize (Hd q Hq). lia.
  - exists k', (rev (frames p n)). split_and!; [done..|].
    intros q. rewrite list_elem_of_In, <- in_rev, <- list_elem_of_In, frames_elem by done. rewrite Hn. split; [intros []; split; [lia|done]|].
    intros [Hq Hqm]. split; [|done]. split; [|lia].
    pose proof (Z.div_mod q PGSIZE ltac:(unfold PGSIZE; lia)). pose proof (Z.div_mod p PGSIZE ltac:(unfold PGSIZE; lia)).
    unfold PGSIZE in *. lia.
Qed.

(** ** Properties *)

(** [kalloc] returns 0, changing nothing, exactly when no page is free, and
    otherwise a page of physical memory that leaves the free list for good; the
    contents of memory are untouched. *)
Theorem kalloc_correct k L :
  kinv k L ->
  match L with
  | [] => kalloc k = Ok 0 k
  | p :: L' => exists k', kalloc k = Ok p k' /\ kinv k' L' /\ page_ok (kend k) p /\ (p ∉ L') /\
                 kdata k' = kdata k /\ use_lock k' = use_lock k /\ kend k' = kend k
  end.
Proof. apply kalloc_page. Qed.

(** [kfree] refuses an address that is not a page of the allocator with a
    panic; a page that is not free goes on the free list filled with 1s behind
    its link, and no byte outside of it changes. *)
Theorem kfree_correct k L v :
  kinv k L -> KERNBASE <= v < 2 ^ 32 -> v ∉ L ->
  (page_ok (kend k) v /\ exists k', kfree v k = Ok tt k' /\ kinv k' (v :: L) /\ kmem_frame v k k' /\
     forall x, v + 4 <= x < v + PGSIZE -> kdata k' x = 1) \/
  (~ page_ok (kend k) v /\ kfree v k = Stop (SPanic "kfree") k).
Proof.
  intros Hinv Hv Hin.
  destruct (decide (v mod PGSIZE = 0)) as [Ha|Ha]; [destruct (decide (kend k <= v)) as [He|He];
    [destruct (decide (v < KERNBASE + PHYSTOP)) as [Hp|Hp]|]|].
  - left. assert (Hok : page_ok (kend k) v) by (split_and!; [done|done|lia|done]).
    split; [done|]. by apply (kfree_page k L).
  - right. split; [intros (_ & _ & ?); lia|]. unfold kfree. mrun1.
    assert (E : v2p v = v - KERNBASE) by (unfold v2p, KERNBASE in *; rewrite u32_id; lia).
    rewrite E, (proj2 (Z.leb_le PHYSTOP (v - KERNBASE))) by lia. by rewrite orb_true_r.
  - right. split; [intros (_ & ? & _); lia|]. unfold kfree. mrun1.
    rewrite (proj2 (Z.ltb_lt v (kend k))) by lia. by rewrite orb_true_r.
  - right. split; [intros (? & _); done|]. unfold kfree. mrun1. unfold truth.
    by rewrite (proj2 (Z.eqb_neq _ _) Ha).
Qed.

(** Both phases of the initialisation. *)
Lemma kinit_run k :
  freelist k = 0 -> KERNBASE <= kend k <= KERNBASE + 4 * 2 ^ 20 - PGSIZE ->
  exists k' L, (kinit1 (kend k) (p2v (4 * 2 ^ 20));; kinit2 (p2v (4 * 2 ^ 20)) (p2v PHYSTOP)) k = Ok tt k' /\
    kinv k' L /\ use_lock k' = true /\ kend k' = kend k /\ forall q, q ∈ L <-> page_ok (kend k) q.
Proof.
  intros Hf Hend. set (k0 := set_use_lock false (set_klock false k)).
  assert (H0 : kinv k0 []) by (split; simpl; [done|unfold KERNBASE in *; lia|done|constructor|constructor]).
  assert (E4 : p2v (4 * 2 ^ 20) = KERNBASE + 4 * 2 ^ 20) by done.
  assert (EP : p2v PHYSTOP = KERNBASE + PHYSTOP) by done. rewrite E4, EP.
  destruct (freerange_ok k0 [] (kend k) (KERNBASE + 4 * 2 ^ 20) H0) as (k1 & L1 & R1 & H1 & Eu1 & Ee1 & M1);
    [done|lia|lia|unfold PHYSTOP; lia|done|by intros q ?%not_elem_of_nil|].
  rewrite app_nil_r in H1. change (kend k0) with (kend k) in Ee1.
  destruct (freerange_ok k1 L1 (KERNBASE + 4 * 2 ^ 20) (KERNBASE + PHYSTOP) H1) as (k2 & L2 & R2 & H2 & Eu2 & Ee2 & M2);
    [unfold PGSIZE in *; lia|lia|unfold PGSIZE, PHYSTOP; lia|lia|done|intros q Hq%M1; lia|].
  exists (set_use_lock true k2), (L2 ++ L1). split_and!.
  - unfold kinit1, kinit2. rewrite bind_assoc_run. mrun1. rewrite bind_assoc_run. mrun1. fold k0. mstep R1. mstep R2. done.
  - by destruct H2.
  - done.
  - k_simpl. congruence.
  - intros q. rewrite elem_of_app, M1, M2. unfold page_ok, PHYSTOP, PGSIZE in *. split; [intros [[]|[]]; lia|].
    intros (? & ? & ?). destruct (decide (q < KERNBASE + 4 * 2 ^ 20)); [right|left]; lia.
Qed.

(** The two phases of the initialisation, as main() calls them, leave a free
    list that holds every page of physical memory above the kernel exactly
    once, and turn the lock on. *)
Theorem kinit_correct k :
  freelist k = 0 -> KERNBASE <= kend k <= KERNBASE + 4 * 2 ^ 20 - PGSIZE ->
  exists k' L, (kinit1 (kend k) (p2v (4 * 2 ^ 20));; kinit2 (p2v (4 * 2 ^ 20)) (p2v PHYSTOP)) k = Ok tt k' /\
    kinv k' L /\ use_lock k' = true /\ forall q, q ∈ L <-> page_ok (kend k) q.
Proof. intros Hf He. destruct (kinit_run k Hf He) as (k' & L & ? & ? & ? & _ & ?). by exists k', L. Qed.

(** ** Witnesses *)

(** An allocator with the two pages above [end]. *)
Definition kmem2 : kmem :=
  mkKmem false true 0x80101000 (store32 (fun _ => 0) 0x80101000 0x80100000) 0x80100000.

Lemma kmem2_inv : kinv kmem2 [0x80101000; 0x80100000].
Proof.
  split; [done|done|vm_compute; split_and!; [done|done|done|done|done]| |].
  - do 2 (constructor; [split; [done|unfold KERNBASE, PHYSTOP; simpl; lia]|]). constructor.
  - apply (bool_decide_unpack _). vm_compute. done.
Qed.

Lemma kalloc_correct_witness :
  exists k', kalloc kmem2 = Ok 0x80101000 k' /\ kinv k' [0x80100000].
Proof. destruct (kalloc_correct kmem2 _ kmem2_inv) as (k' & E & H & _). exists k'. split; [exact E|exact H]. Defined.

Lemma kfree_correct_witness :
  exists k', kfree 0x80102000 kmem2 = Ok tt k' /\ kinv k' [0x80102000; 0x80101000; 0x80100000].
Proof.
  destruct (kfree_correct kmem2 _ 0x80102000 kmem2_inv) as [(_ & k' & E & H & _)|(Hn & _)].
  - unfold KERNBASE. lia.
  - apply (bool_decide_unpack _). vm_compute. done.
  - exists k'. split; [exact E|exact H].
  - destruct Hn. split; [done|]. split; [unfold kmem2; simpl; lia|unfold KERNBASE, PHYSTOP; lia].
Defined.

Lemma kinit_correct_witness :
  exists k L, kinv k L /\ use_lock k = true /\ 0x8dfff000 ∈ L /\ ~ 0x80100000 ∈ L.
Proof.
  destruct (kinit_correct (mkKmem false false 0 (fun _ => 0) 0x8010a5a0)) as (k & L & _ & H & Hu & HL).
  - done.
  - unfold KERNBASE, PGSIZE; simpl; lia.
  - exists k, L. split; [done|]. split; [done|]. rewrite !HL. unfold page_ok, KERNBASE, PHYSTOP. simpl. split; [|lia].
    split; [done|lia].
Defined.
