(* ===== verification/Seg.v ===== *)
(** * Segments, task state and gates

    The descriptors of src/mmu.h with the layout of their bit-fields, and the
    code that fills them: seginit, switchkvm and switchuvm of src/vm.c, tvinit
    and idtinit of src/trap.c.  [hcpu] is what one processor's tables and
    registers hold.

    The processor sees 64-bit words.  [desc_base], [gate_offset] and the like
    decode them as the processor manual lays them out; the theorems compare
    what it sees with what the code meant. *)

From S2P Require Import Prelude Spinlock Kalloc Devices.

Definition DPL_USER : Z := 3.
Definition STA_X : Z := 8.
Definition STA_W : Z := 2.
Definition STA_R : Z := 2.
Definition STS_T32A : Z := 9.
Definition STS_IG32 : Z := 14.
Definition STS_TG32 : Z := 15.
Definition SEG_KCODE : Z := 1.
Definition SEG_KDATA : Z := 2.
Definition SEG_KCPU : Z := 3.
Definition SEG_UCODE : Z := 4.
Definition SEG_UDATA : Z := 5.
Definition SEG_TSS : Z := 6.
Definition NSEGS : nat := 7.
Definition KSTACKSIZE : Z := 4096.

(** ** Bit-fields *)

(** Fields (width, value) from the lowest bit; a value is cut to its width. *)
Fixpoint pack (fs : list (Z * Z)) : Z :=
  match fs with [] => 0 | (w, v) :: fs => v mod 2 ^ w + 2 ^ w * pack fs end.

Record segdesc := mkSeg {
  lim_15_0 : Z; base_15_0 : Z; base_23_16 : Z; type : Z; s_ : Z; dpl : Z; p_ : Z;
  lim_19_16 : Z; avl : Z; rsv1 : Z; db : Z; g_ : Z; base_31_24 : Z;
}.
Definition seg_word (d : segdesc) : Z :=
  pack [(16, lim_15_0 d); (16, base_15_0 d); (8, base_23_16 d); (4, type d); (1, s_ d); (2, dpl d); (1, p_ d);
        (4, lim_19_16 d); (1, avl d); (1, rsv1 d); (1, db d); (1, g_ d); (8, base_31_24 d)].
Definition SEG (ty base lim dpl : Z) : segdesc :=
  mkSeg (Z.land (Z.shiftr lim 12) 0xffff) (Z.land (u32 base) 0xffff) (Z.land (Z.shiftr (u32 base) 16) 0xff) ty 1 dpl 1
    (Z.shiftr (u32 lim) 28) 0 0 1 1 (Z.shiftr (u32 base) 24).
Definition SEG16 (ty base lim dpl : Z) : segdesc :=
  mkSeg (Z.land lim 0xffff) (Z.land (u32 base) 0xffff) (Z.land (Z.shiftr (u32 base) 16) 0xff) ty 1 dpl 1
    (Z.shiftr (u32 lim) 16) 0 0 1 0 (Z.shiftr (u32 base) 24).
Definition set_s (v : Z) (d : segdesc) : segdesc :=
  mkSeg (lim_15_0 d) (base_15_0 d) (base_23_16 d) (type d) v (dpl d) (p_ d) (lim_19_16 d) (avl d) (rsv1 d) (db d) (g_ d) (base_31_24 d).

Record gatedesc := mkGate {
  off_15_0 : Z; gate_cs : Z; gate_args : Z; gate_rsv1 : Z; gate_type : Z; gate_s : Z; gate_dpl : Z; gate_p : Z; off_31_16 : Z;
}.
Definition gate_word (g : gatedesc) : Z :=
  pack [(16, off_15_0 g); (16, gate_cs g); (5, gate_args g); (3, gate_rsv1 g); (4, gate_type g); (1, gate_s g); (2, gate_dpl g); (1, gate_p g); (16, off_31_16 g)].
Definition SETGATE (istrap : bool) (sel off d : Z) : gatedesc :=
  mkGate (Z.land (u32 off) 0xffff) sel 0 0 (if istrap then STS_TG32 else STS_IG32) 0 d 1 (Z.shiftr (u32 off) 16).

(** ** One processor *)

Record taskstate := mkTs { esp0 : Z; ss0 : Z }.
(** The table registers hold the address and the limit. *)
Record hcpu := mkH {
  h_ts : taskstate; h_gdt : list segdesc; h_cli : cpu;
  h_cpu : Z;               (** %gs:0 *)
  h_proc : Z;              (** %gs:4 *)
  h_gdtr : Z * Z; h_idtr : Z * Z; h_tr : Z; h_gs : Z; h_cr3 : Z;
}.
Definition set_ts v h := mkH v (h_gdt h) (h_cli h) (h_cpu h) (h_proc h) (h_gdtr h) (h_idtr h) (h_tr h) (h_gs h) (h_cr3 h).
Definition set_gdt v h := mkH (h_ts h) v (h_cli h) (h_cpu h) (h_proc h) (h_gdtr h) (h_idtr h) (h_tr h) (h_gs h) (h_cr3 h).
Definition set_cli v h := mkH (h_ts h) (h_gdt h) v (h_cpu h) (h_proc h) (h_gdtr h) (h_idtr h) (h_tr h) (h_gs h) (h_cr3 h).
Definition set_local c p h := mkH (h_ts h) (h_gdt h) (h_cli h) c p (h_gdtr h) (h_idtr h) (h_tr h) (h_gs h) (h_cr3 h).
Definition set_gdtr v h := mkH (h_ts h) (h_gdt h) (h_cli h) (h_cpu h) (h_proc h) v (h_idtr h) (h_tr h) (h_gs h) (h_cr3 h).
Definition set_idtr v h := mkH (h_ts h) (h_gdt h) (h_cli h) (h_cpu h) (h_proc h) (h_gdtr h) v (h_tr h) (h_gs h) (h_cr3 h).
Definition set_tr v h := mkH (h_ts h) (h_gdt h) (h_cli h) (h_cpu h) (h_proc h) (h_gdtr h) (h_idtr h) v (h_gs h) (h_cr3 h).
Definition set_gs v h := mkH (h_ts h) (h_gdt h) (h_cli h) (h_cpu h) (h_proc h) (h_gdtr h) (h_idtr h) (h_tr h) v (h_cr3 h).
Definition set_cr3 v h := mkH (h_ts h) (h_gdt h) (h_cli h) (h_cpu h) (h_proc h) (h_gdtr h) (h_idtr h) (h_tr h) (h_gs h) v.

Definition pseudo (p size : Z) : Z * Z := (u16 p + 2 ^ 16 * u16 (Z.shiftr p 16), u16 (size - 1)).
Definition lgdt (p size : Z) : M hcpu unit := modify (set_gdtr (pseudo p size)).
Definition lidt (p size : Z) : M hcpu unit := modify (set_idtr (pseudo p size)).
Definition ltr (sel : Z) : M hcpu unit := modify (set_tr (u16 sel)).
Definition loadgs (v : Z) : M hcpu unit := modify (set_gs (u16 v)).
Definition lcr3 (v : Z) : M hcpu unit := modify (set_cr3 v).
Definition h_pushcli : M hcpu unit := modify (fun h => set_cli (pushcli (h_cli h)) h).
Definition h_popcli : M hcpu unit :=
  h ← get; match popcli (h_cli h) with inl msg => panic msg | inr c => put (set_cli c h) end.
Definition put_gdt (i : Z) (d : segdesc) : M hcpu unit :=
  h ← get;
  _ ← deref "gdt[]" (h_gdt h !! Z.to_nat i);
  put (set_gdt (<[Z.to_nat i := d]> (h_gdt h)) h).

(** struct cpu in memory: the offsets of ts, gdt and cpu. *)
Definition ts_off : Z := 8.
Definition gdt_off : Z := 112.
Definition cpu_off : Z := 180.
Definition sizeof_ts : Z := 104.

(** On the processor whose struct cpu is at [c]. *)
Definition seginit (c : Z) : M hcpu unit :=
  put_gdt SEG_KCODE (SEG (Z.lor STA_X STA_R) 0 0xffffffff 0);;
  put_gdt SEG_KDATA (SEG STA_W 0 0xffffffff 0);;
  put_gdt SEG_UCODE (SEG (Z.lor STA_X STA_R) 0 0xffffffff DPL_USER);;
  put_gdt SEG_UDATA (SEG STA_W 0 0xffffffff DPL_USER);;
  put_gdt SEG_KCPU (SEG STA_W (c + cpu_off) 8 0);;
  lgdt (c + gdt_off) (8 * Z.of_nat NSEGS);;
  loadgs (Z.shiftl SEG_KCPU 3);;
  modify (set_local c 0).

Definition switchkvm (kpgdir : Z) : M hcpu unit := lcr3 (v2p kpgdir).
(** [kstack] is proc->kstack, [pgdir] is p->pgdir. *)
Definition switchuvm (kstack pgdir : Z) : M hcpu unit :=
  h_pushcli;;
  h ← get;
  put_gdt SEG_TSS (SEG16 STS_T32A (h_cpu h + ts_off) (sizeof_ts - 1) 0);;
  h ← get;
  d ← deref "gdt[]" (h_gdt h !! Z.to_nat SEG_TSS);
  put_gdt SEG_TSS (set_s 0 d);;
  modify (fun h => set_ts (mkTs (esp0 (h_ts h)) (Z.shiftl SEG_KDATA 3)) h);;
  modify (fun h => set_ts (mkTs (u32 (kstack + KSTACKSIZE)) (ss0 (h_ts h))) h);;
  ltr (Z.shiftl SEG_TSS 3);;
  if pgdir =? 0 then panic "switchuvm: no pgdir"
  else lcr3 (v2p pgdir);; h_popcli.

(** The table of gates; the loop, then the gate of system calls. *)
Definition tvinit (vectors : nat -> Z) : list gatedesc :=
  <[Z.to_nat T_SYSCALL := SETGATE true (Z.shiftl SEG_KCODE 3) (vectors (Z.to_nat T_SYSCALL)) DPL_USER]>
    (map (fun i => SETGATE false (Z.shiftl SEG_KCODE 3) (vectors i) 0) (seq 0 256)).
Definition idtinit (idt : Z) : M hcpu unit := lidt idt (8 * 256).

(** ** What the processor sees *)

Definition field (x lo w : Z) : Z := x / 2 ^ lo mod 2 ^ w.
Definition desc_base (x : Z) : Z := field x 16 24 + 2 ^ 24 * field x 56 8.
(** The last byte of the segment. *)
Definition desc_limit (x : Z) : Z :=
  let l := field x 0 16 + 2 ^ 16 * field x 48 4 in if field x 55 1 =? 1 then 4096 * l + 4095 else l.
Definition desc_type (x : Z) : Z := field x 40 4.
Definition desc_s (x : Z) : Z := field x 44 1.
Definition desc_dpl (x : Z) : Z := field x 45 2.
Definition desc_p (x : Z) : Z := field x 47 1.
Definition gate_offset (x : Z) : Z := field x 0 16 + 2 ^ 16 * field x 48 16.
Definition gate_selector (x : Z) : Z := field x 16 16.

(** ** Reading packed fields *)

Lemma field_skip v w x lo n : 0 <= w <= lo -> field (v mod 2 ^ w + 2 ^ w * x) lo n = field x (lo - w) n.
Proof.
  intros Hw. unfold field. replace (2 ^ lo) with (2 ^ w * 2 ^ (lo - w)) by (rewrite <- Z.pow_add_r by lia; f_equal; lia).
  rewrite <- Z.div_div by lia. rewrite Z.mul_comm, Z.div_add by lia.
  rewrite (Z.div_small (v mod 2 ^ w)) by (apply Z.mod_pos_bound; lia). done.
Qed.
Lemma field_head v w x : 0 <= w -> field (v mod 2 ^ w + 2 ^ w * x) 0 w = v mod 2 ^ w.
Proof. intros Hw. unfold field. rewrite Z.div_1_r, Z.mul_comm, Z.mod_add, Z.mod_mod by lia. done. Qed.
Lemma field_split x lo n k m lo' : 0 <= lo -> 0 <= n -> 0 <= k -> m = n + k -> lo' = lo + n -> field x lo m = field x lo n + 2 ^ n * field x lo' k.
Proof.
  intros Hl Hn Hk -> ->. unfold field. rewrite !Z.pow_add_r, <- Z.div_div by lia. apply Z.rem_mul_r; lia.
Qed.
Ltac read_fields :=
  repeat first
    [ rewrite field_head by lia
    | match goal with |- context [field (?v mod 2 ^ ?w + 2 ^ ?w * ?x) ?lo ?n] =>
        let d := eval vm_compute in (lo - w) in rewrite (field_skip v w x lo n : _ -> _ = field x d n) by lia end ].

(** The three parts of an address put together again. *)
Lemma split_32 a : 0 <= a < 2 ^ 32 ->
  Z.land a 0xffff mod 2 ^ 16 + 2 ^ 16 * (Z.land (Z.shiftr a 16) 0xff mod 2 ^ 8) + 2 ^ 24 * (Z.shiftr a 24 mod 2 ^ 8) = a.
Proof.
  intros Ha. change 0xffff with (Z.ones 16). change 0xff with (Z.ones 8). rewrite !Z.land_ones, !Z.shiftr_div_pow2, !Z.mod_mod by lia.
  rewrite (Z.mod_small (a / 2 ^ 24)) by (split; [apply Z.div_pos|apply Z.div_lt_upper_bound]; lia).
  change (2 ^ 24) with (2 ^ 16 * 2 ^ 8). rewrite <- Z.div_div by lia.
  pose proof (Z.div_mod a (2 ^ 16)). pose proof (Z.div_mod (a / 2 ^ 16) (2 ^ 8)). lia.
Qed.


Ltac unfold_desc := unfold desc_base, desc_limit, desc_type, desc_s, desc_dpl, desc_p, gate_offset, gate_selector, seg_word, gate_word, SEG, SEG16, set_s, SETGATE;
  cbn [pack lim_15_0 base_15_0 base_23_16 type s_ dpl p_ lim_19_16 avl rsv1 db g_ base_31_24 off_15_0 gate_cs gate_args gate_rsv1 gate_type gate_s gate_dpl gate_p off_31_16].

(** The processor reads a descriptor built by SEG as the segment that was
    meant: at the base, with all the pages up to the limit, of the type and
    privilege level given, present and of the application kind. *)
Theorem seg_correct ty base lim d : 0 <= base < 2 ^ 32 -> 0 <= lim < 2 ^ 32 -> 0 <= ty < 16 -> 0 <= d < 4 ->
  let x := seg_word (SEG ty base lim d) in
  desc_base x = base /\ desc_limit x = lim / 4096 * 4096 + 4095 /\ desc_type x = ty /\ desc_dpl x = d /\ desc_p x = 1 /\ desc_s x = 1.
Proof.
  intros Hb Hl Ht Hd x. subst x. unfold_desc. rewrite (field_split _ 16 16 8 24 32) by lia. read_fields. rewrite !u32_id by done. split_and!; try done.
  - by apply split_32.
  - rewrite (Z.mod_small 1) by lia. cbn [Z.eqb Pos.eqb]. change 0xffff with (Z.ones 16). rewrite Z.land_ones, !Z.shiftr_div_pow2, Z.mod_mod by lia.
    rewrite (Z.mod_small (lim / 2 ^ 28)) by (split; [apply Z.div_pos|apply Z.div_lt_upper_bound]; lia).
    change (2 ^ 28) with (2 ^ 12 * 2 ^ 16). rewrite <- Z.div_div by lia. change 4096 with (2 ^ 12). pose proof (Z.div_mod (lim / 2 ^ 12) (2 ^ 16)). lia.
  - rewrite Z.mod_small; lia.
  - rewrite Z.mod_small; lia.
Qed.

Lemma seg_correct_witness : desc_limit (seg_word (SEG STA_W 0x80100000 8 0)) = 4095 /\ desc_base (seg_word (SEG STA_W 0x80100000 8 0)) = 0x80100000.
Proof. destruct (seg_correct STA_W 0x80100000 8 0) as (H1 & H2 & _); [unfold STA_W; lia..|]. by split. Defined.

Lemma seg16_correct ty base lim d s : 0 <= base < 2 ^ 32 -> 0 <= lim < 2 ^ 20 -> 0 <= ty < 16 -> 0 <= d < 4 -> 0 <= s < 2 ->
  let x := seg_word (set_s s (SEG16 ty base lim d)) in
  desc_base x = base /\ desc_limit x = lim /\ desc_type x = ty /\ desc_dpl x = d /\ desc_p x = 1 /\ desc_s x = s.
Proof.
  intros Hb Hl Ht Hd Hs x. subst x. unfold_desc. rewrite (field_split _ 16 16 8 24 32) by lia. read_fields. rewrite !u32_id by lia. split_and!; try done.
  - by apply split_32.
  - rewrite (Z.mod_small 0) by lia. cbn [Z.eqb]. change 0xffff with (Z.ones 16). rewrite Z.land_ones, !Z.shiftr_div_pow2, Z.mod_mod by lia.
    rewrite (Z.mod_small (lim / 2 ^ 16)) by (split; [apply Z.div_pos|apply Z.div_lt_upper_bound]; lia). pose proof (Z.div_mod lim (2 ^ 16)). lia.
  - rewrite Z.mod_small; lia.
  - rewrite Z.mod_small; lia.
  - rewrite Z.mod_small; lia.
Qed.
Lemma gate_correct tr sel off d : 0 <= sel < 2 ^ 16 -> 0 <= off < 2 ^ 32 -> 0 <= d < 4 ->
  let x := gate_word (SETGATE tr sel off d) in
  gate_offset x = off /\ gate_selector x = sel /\ desc_type x = (if tr then STS_TG32 else STS_IG32) /\ desc_dpl x = d /\ desc_p x = 1.
Proof.
  intros Hs Ho Hd x. subst x. unfold_desc. read_fields. rewrite u32_id by done. split_and!; try done.
  - change 0xffff with (Z.ones 16). rewrite Z.land_ones, Z.shiftr_div_pow2, !Z.mod_mod by lia.
    rewrite (Z.mod_small (off / 2 ^ 16)) by (split; [apply Z.div_pos|apply Z.div_lt_upper_bound]; lia). pose proof (Z.div_mod off (2 ^ 16)). lia.
  - rewrite Z.mod_small; lia.
  - by destruct tr.
  - rewrite Z.mod_small; lia.
Qed.

(** ** Entering the kernel *)

Definition index (sel : Z) : nat := Z.to_nat (sel / 8).
(** All of memory, at privilege level [d]. *)
Definition flat (x : segdesc) (ty d : Z) : Prop :=
  desc_base (seg_word x) = 0 /\ desc_limit (seg_word x) = 2 ^ 32 - 1 /\ desc_type (seg_word x) = ty /\ desc_dpl (seg_word x) = d /\ desc_p (seg_word x) = 1 /\ desc_s (seg_word x) = 1.
Lemma put_gdt_run i d h : (Z.to_nat i < length (h_gdt h))%nat -> put_gdt i d h = Ok tt (set_gdt (<[Z.to_nat i := d]> (h_gdt h)) h).
Proof. intros Hi. unfold put_gdt. mrun1. destruct (lookup_lt_is_Some_2 _ _ Hi) as [x ->]. done. Qed.
Lemma tvinit_lookup vectors i : (i < 256)%nat ->
  tvinit vectors !! i = Some (let sys := bool_decide (i = Z.to_nat T_SYSCALL) in SETGATE sys (Z.shiftl SEG_KCODE 3) (vectors i) (if sys then DPL_USER else 0)).
Proof.
  intros Hi. unfold tvinit. case_bool_decide as Hs.
  - subst i. by rewrite list_lookup_insert_eq by (rewrite length_map, length_seq; done).
  - rewrite list_lookup_insert_ne by done. rewrite list_lookup_fmap, lookup_seq_lt by done. done.
Qed.

(** The tables after seginit and switchuvm. *)
Definition full_gdt (c : Z) (d0 : segdesc) : list segdesc :=
  [d0; SEG (Z.lor STA_X STA_R) 0 0xffffffff 0; SEG STA_W 0 0xffffffff 0; SEG STA_W (c + cpu_off) 8 0;
   SEG (Z.lor STA_X STA_R) 0 0xffffffff DPL_USER; SEG STA_W 0 0xffffffff DPL_USER; set_s 0 (SEG16 STS_T32A (c + ts_off) (sizeof_ts - 1) 0)].
Lemma enter_run c h kstack pgdir d0 : length (h_gdt h) = NSEGS -> h_gdt h !! 0%nat = Some d0 -> 0 <= ncli (h_cli h) -> (0 < ncli (h_cli h) -> iflag (h_cli h) = false) -> pgdir <> 0 ->
  exists h', (seginit c;; switchuvm kstack pgdir) h = Ok tt h' /\ h_gdt h' = full_gdt c d0 /\ h_tr h' = 48 /\ h_gs h' = 24 /\
  h_ts h' = mkTs (u32 (kstack + KSTACKSIZE)) 16 /\ h_cr3 h' = v2p pgdir /\ h_gdtr h' = pseudo (c + gdt_off) 56 /\ ncli (h_cli h') = ncli (h_cli h) /\ iflag (h_cli h') = iflag (h_cli h).
Proof.
  intros Hl H0 Hn Hf Hp.
  destruct h as [ts gdt cl hc hp gdtr idtr tr gs cr3]. cbn in *. destruct gdt as [|g0 [|g1 [|g2 [|g3 [|g4 [|g5 [|g6 [|]]]]]]]]; try done. injection H0 as ->.
  destruct cl as [fl n ie]. cbn in Hn, Hf. set (h1 := mkH (mkTs (u32 (kstack + KSTACKSIZE)) 16) (full_gdt c d0) (pushcli (mkCpu fl n ie)) c 0 (pseudo (c + gdt_off) 56) idtr 48 24 (v2p pgdir)).
  assert (E : exists c', popcli (h_cli h1) = inr c' /\ ncli c' = n /\ iflag c' = fl).
  { unfold popcli, pushcli. cbn. replace (n + 1 - 1) with n by lia. rewrite (proj2 (Z.ltb_ge n 0)) by lia. eexists. split; [done|]. cbn. split; [done|].
    destruct (Z.eqb_spec n 0) as [->|]; cbn [andb]; [by destruct fl|]. symmetry. apply Hf. lia. }
  destruct E as (c' & E & En & Ef). exists (set_cli c' h1). split; [|done].
  transitivity (h_popcli h1); [|unfold h_popcli; mrun1; by rewrite E].
  unfold switchuvm. rewrite (proj2 (Z.eqb_neq pgdir 0) Hp). reflexivity.
Qed.

Lemma pseudo_whole p : 0 <= p < 2 ^ 32 -> pseudo p 56 = (p, 55).
Proof.
  intros Hp. unfold pseudo, u16. rewrite Z.shiftr_div_pow2 by lia. change (2 ^ 16) with 65536. f_equal. rewrite (Z.mod_small (p / 65536)) by (split; [apply Z.div_pos; lia|apply Z.div_lt_upper_bound; lia]).
  pose proof (Z.div_mod p 65536). lia.
Qed.
(** C26: Once seginit has run on a processor and switchuvm has switched to a
    process, the processor uses the descriptor table of its struct cpu and every
    trap and interrupt enters the kernel where it should: vector
    [i] is entered at vectors[i] through the flat kernel code segment at
    privilege level 0, on the stack of the process, in the flat kernel data
    segment; user code can raise the system call vector and no other, and
    interrupts stay on for system calls only. *)
Theorem kernel_entry c h vectors kstack pgdir i : length (h_gdt h) = NSEGS -> 0 <= ncli (h_cli h) -> (0 < ncli (h_cli h) -> iflag (h_cli h) = false) -> pgdir <> 0 ->
  0 <= c < 2 ^ 32 - 188 -> 0 <= kstack < 2 ^ 32 - KSTACKSIZE -> (i < 256)%nat -> 0 <= vectors i < 2 ^ 32 ->
  exists h' tss code stack gate, (seginit c;; switchuvm kstack pgdir) h = Ok tt h' /\ h_cr3 h' = v2p pgdir /\ h_gdtr h' = (c + gdt_off, 8 * Z.of_nat NSEGS - 1) /\
  h_gdt h' !! index (h_tr h') = Some tss /\ desc_base (seg_word tss) = c + ts_off /\ desc_limit (seg_word tss) = sizeof_ts - 1 /\ desc_type (seg_word tss) = STS_T32A /\ desc_s (seg_word tss) = 0 /\
  esp0 (h_ts h') = kstack + KSTACKSIZE /\ h_gdt h' !! index (ss0 (h_ts h')) = Some stack /\ flat stack STA_W 0 /\
  tvinit vectors !! i = Some gate /\ gate_offset (gate_word gate) = vectors i /\ desc_p (gate_word gate) = 1 /\
  h_gdt h' !! index (gate_selector (gate_word gate)) = Some code /\ flat code (Z.lor STA_X STA_R) 0 /\
  (desc_dpl (gate_word gate) = DPL_USER <-> i = Z.to_nat T_SYSCALL) /\ (desc_type (gate_word gate) = STS_TG32 <-> i = Z.to_nat T_SYSCALL).
Proof.
  intros Hl Hn Hf Hp Hc Hk Hi Hv. destruct (lookup_lt_is_Some_2 (h_gdt h) 0) as [d0 H0]; [rewrite Hl; unfold NSEGS; lia|].
  destruct (enter_run c h kstack pgdir d0 Hl H0 Hn Hf Hp) as (h' & E & Hg & Htr & _ & Hts & Hcr & Hgd & _).
  pose proof (tvinit_lookup vectors i Hi) as Hgate. set (sys := bool_decide (i = Z.to_nat T_SYSCALL)) in Hgate. cbv zeta in Hgate.
  destruct (gate_correct sys (Z.shiftl SEG_KCODE 3) (vectors i) (if sys then DPL_USER else 0)) as (Go & Gs & Gt & Gd & Gp); [done|done|by destruct sys|].
  destruct (seg16_correct STS_T32A (c + ts_off) (sizeof_ts - 1) 0 0) as (S1 & S2 & S3 & _ & _ & S6); [unfold ts_off; lia|done..|].
  eexists h', _, _, _, _. rewrite Hg, Htr, Hts, Gs, Go, Gt, Gd, Gp. split_and!; try done.
  - rewrite Hgd. apply pseudo_whole. unfold gdt_off. lia.
  - cbn. rewrite u32_id; unfold KSTACKSIZE in *; lia.
  - unfold sys. case_bool_decide; split; done.
  - unfold sys. case_bool_decide; split; done.
Qed.
Definition demo_cpu : hcpu := mkH (mkTs 0 0) (replicate NSEGS (mkSeg 0 0 0 0 0 0 0 0 0 0 0 0 0)) (mkCpu false 0 false) 0 0 (0, 0) (0, 0) 0 0 0.
(** The timer's vector, for a process with its stack at 0x8dfff000. *)
Lemma kernel_entry_witness : exists h' gate, (seginit 0x80112780;; switchuvm 0x8dfff000 0x8dffe000) demo_cpu = Ok tt h' /\ esp0 (h_ts h') = 0x8e000000 /\
  tvinit (fun i => 0x80105000 + 8 * Z.of_nat i) !! 32%nat = Some gate /\ gate_offset (gate_word gate) = 0x80105100.
Proof.
  destruct (kernel_entry 0x80112780 demo_cpu (fun i => 0x80105000 + 8 * Z.of_nat i) 0x8dfff000 0x8dffe000 32) as (h' & t & k & st & g & E & _ & _ & _ & _ & _ & _ & _ & He & _ & _ & Hg & Ho & _); try done; [lia|].
  exists h', g. split; [exact E|]. split; [exact He|]. split; [exact Hg|exact Ho].
Defined.
