(* ===== verification/Pipe.v ===== *)
(** * pipe.c: pipes

    A pipe's buffer and counters as src/pipe.c has them, with the processes
    asleep on its two channels.  A call runs under the pipe's lock until it
    returns or goes to sleep; a sleeping call has released the lock and starts
    again, when its process is woken, at the test of its while loop.  [killed]
    is proc->killed when the call runs.  The last part lets any number of
    readers and writers interleave. *)

From stdpp Require Import functions.
From S2P Require Import Prelude Spinlock.

Definition PIPESIZE : Z := 512.

Record pipe := mkPipe {
  plock : bool;
  data : list Z;
  nread : Z;
  nwrite : Z;
  readopen : bool;
  writeopen : bool;
  rchan : gset nat;        (** processes asleep on &p->nread *)
  wchan : gset nat;        (** processes asleep on &p->nwrite *)
  freed : bool;            (** kfree((char* )p) has been called *)
}.
Definition set_plock b p := mkPipe b (data p) (nread p) (nwrite p) (readopen p) (writeopen p) (rchan p) (wchan p) (freed p).
Definition set_data d p := mkPipe (plock p) d (nread p) (nwrite p) (readopen p) (writeopen p) (rchan p) (wchan p) (freed p).
Definition set_nread n p := mkPipe (plock p) (data p) n (nwrite p) (readopen p) (writeopen p) (rchan p) (wchan p) (freed p).
Definition set_nwrite n p := mkPipe (plock p) (data p) (nread p) n (readopen p) (writeopen p) (rchan p) (wchan p) (freed p).
Definition set_readopen b p := mkPipe (plock p) (data p) (nread p) (nwrite p) b (writeopen p) (rchan p) (wchan p) (freed p).
Definition set_writeopen b p := mkPipe (plock p) (data p) (nread p) (nwrite p) (readopen p) b (rchan p) (wchan p) (freed p).
Definition set_rchan c p := mkPipe (plock p) (data p) (nread p) (nwrite p) (readopen p) (writeopen p) c (wchan p) (freed p).
Definition set_wchan c p := mkPipe (plock p) (data p) (nread p) (nwrite p) (readopen p) (writeopen p) (rchan p) c (freed p).
Definition set_freed b p := mkPipe (plock p) (data p) (nread p) (nwrite p) (readopen p) (writeopen p) (rchan p) (wchan p) b.

Definition p_acquire : M pipe unit := acquire plock set_plock.
Definition p_release : M pipe unit := release plock set_plock.
Definition wakeup_nread : M pipe unit := modify (set_rchan ∅).
Definition wakeup_nwrite : M pipe unit := modify (set_wchan ∅).
(** sleep(&p->nread, &p->lock) and sleep(&p->nwrite, &p->lock) by [pid], up to
    the switch to the scheduler. *)
Definition sleep_nread (pid : nat) : M pipe unit := modify (fun p => set_rchan ({[pid]} ∪ rchan p) p);; p_release.
Definition sleep_nwrite (pid : nat) : M pipe unit := modify (fun p => set_wchan ({[pid]} ∪ wchan p) p);; p_release.

(** The pipe pipealloc makes in a fresh page; its data is what the page held. *)
Definition new_pipe (page : list Z) : pipe := mkPipe false page 0 0 true true ∅ ∅ false.

Definition pipeclose (writable : bool) : M pipe unit :=
  p_acquire;;
  (if writable then modify (set_writeopen false);; wakeup_nread
   else modify (set_readopen false);; wakeup_nwrite);;
  p ← get;
  if negb (readopen p) && negb (writeopen p) then p_release;; modify (set_freed true)
  else p_release.

(** The bytes [rest] are still to be written: [inl r] is a return, [inr rest'] a
    sleep with [rest'] left. *)
Fixpoint pipewrite_loop (pid : nat) (killed : bool) (n : Z) (rest : list Z) : M pipe (Z + list Z) :=
  match rest with
  | [] => wakeup_nread;; p_release;; mret (inl n)
  | b :: rest' =>
      p ← get;
      if nwrite p =? nread p ⊕ PIPESIZE then
        if negb (readopen p) || killed then p_release;; mret (inl (-1))
        else wakeup_nread;; sleep_nwrite pid;; mret (inr rest)
      else
        modify (fun p => set_data (<[Z.to_nat (nwrite p mod PIPESIZE) := b]> (data p)) p);;
        modify (fun p => set_nwrite (nwrite p ⊕ 1) p);;
        pipewrite_loop pid killed n rest'
  end.
Definition pipewrite (pid : nat) (killed : bool) (n : Z) (buf : list Z) : M pipe (Z + list Z) :=
  p_acquire;; pipewrite_loop pid killed n buf.

(** The copy loop: [n] iterations are left, the bytes read so far in order. *)
Fixpoint piperead_copy (n : nat) (got : list Z) : M pipe (list Z) :=
  match n with
  | O => mret got
  | S n =>
      p ← get;
      if nread p =? nwrite p then mret got
      else
        b ← deref "p->data" (data p !! Z.to_nat (nread p mod PIPESIZE));
        modify (set_nread (nread p ⊕ 1));;
        piperead_copy n (got ++ [b])
  end.

(** [inl (r, bytes)] returns [r] with [bytes] copied out, [inr tt] sleeps. *)
Definition piperead (pid : nat) (killed : bool) (n : Z) : M pipe (Z * list Z + unit) :=
  p_acquire;;
  p ← get;
  if (nread p =? nwrite p) && writeopen p then
    if killed then p_release;; mret (inl (-1, []))
    else sleep_nread pid;; mret (inr tt)
  else
    got ← piperead_copy (Z.to_nat n) [];
    wakeup_nwrite;;
    p_release;;
    mret (inl (Z.of_nat (length got), got)).

(** ** The queue a pipe holds *)

(** [q] is the contents: the bytes between the counters, around the ring and
    around the wrap of the counters. *)
Record holds (p : pipe) (q : list Z) : Prop := {
  ho_len : length (data p) = Z.to_nat PIPESIZE;
  ho_nread : 0 <= nread p < 2 ^ 32;
  ho_nwrite : nwrite p = nread p ⊕ Z.of_nat (length q);
  ho_size : Z.of_nat (length q) <= PIPESIZE;
  ho_data : forall i b, q !! i = Some b -> data p !! Z.to_nat ((nread p + Z.of_nat i) mod PIPESIZE) = Some b;
}.

Definition same_ctl (p p' : pipe) : Prop :=
  readopen p' = readopen p /\ writeopen p' = writeopen p /\ freed p' = freed p.

(** The ring index does not see the wrap of the counters. *)
Lemma ring_wrap x : u32 x mod PIPESIZE = x mod PIPESIZE.
Proof.
  unfold u32, PIPESIZE. change (2 ^ 32) with (512 * 2 ^ 23). rewrite Z.rem_mul_r by lia.
  rewrite Z.mul_comm, Z_mod_plus_full. apply Z.mod_mod. lia.
Qed.

Lemma holds_full p q : holds p q -> (nwrite p =? nread p ⊕ PIPESIZE) = (Z.of_nat (length q) =? PIPESIZE).
Proof.
  intros [_ Hr Hw Hs _]. rewrite Hw. unfold u32, PIPESIZE in *.
  destruct (Z.eqb_spec (Z.of_nat (length q)) 512) as [->|Hne]; [by rewrite Z.eqb_refl|].
  apply Z.eqb_neq. intros E. Z.to_euclidean_division_equations. lia.
Qed.

Lemma holds_empty p q : holds p q -> (nread p =? nwrite p) = bool_decide (q = []).
Proof.
  intros [_ Hr Hw Hs _]. rewrite Hw. unfold u32, PIPESIZE in *. case_bool_decide as Hq.
  - subst q. simpl. rewrite Z.add_0_r, Z.mod_small by lia. apply Z.eqb_refl.
  - apply Z.eqb_neq. destruct q as [|b q]; [done|]. simpl length in *. intros E.
    Z.to_euclidean_division_equations. lia.
Qed.

Lemma ring_inj r i j :
  0 <= i < PIPESIZE -> 0 <= j < PIPESIZE -> (r + i) mod PIPESIZE = (r + j) mod PIPESIZE -> i = j.
Proof. unfold PIPESIZE. intros Hi Hj E. Z.to_euclidean_division_equations. lia. Qed.

Lemma holds_push p q b :
  holds p q -> Z.of_nat (length q) < PIPESIZE ->
  holds (set_nwrite (nwrite p ⊕ 1) (set_data (<[Z.to_nat (nwrite p mod PIPESIZE) := b]> (data p)) p)) (q ++ [b]).
Proof.
  intros [Hl Hr Hw Hs Hd] Hlt. assert (Hix : nwrite p mod PIPESIZE = (nread p + Z.of_nat (length q)) mod PIPESIZE).
  { rewrite Hw. apply ring_wrap. }
  pose proof (Z.mod_pos_bound (nread p + Z.of_nat (length q)) PIPESIZE ltac:(done)) as Hm.
  split; cbn; [by rewrite length_insert|done| |rewrite length_app; simpl; lia|].
  - rewrite Hw, length_app. simpl length. unfold u32. rewrite Zplus_mod_idemp_l. f_equal. lia.
  - intros i c Hi. rewrite Hix. destruct (decide (i = length q)) as [->|Hne].
    + rewrite lookup_app_r, Nat.sub_diag in Hi by lia. injection Hi as <-.
      rewrite list_lookup_insert_eq; [done|]. rewrite Hl. lia.
    + assert (Hi' : (i < length q)%nat) by (apply lookup_lt_Some in Hi; rewrite length_app in Hi; simpl in Hi; lia).
      rewrite lookup_app_l in Hi by done. rewrite list_lookup_insert_ne; [by apply Hd|].
      pose proof (Z.mod_pos_bound (nread p + Z.of_nat i) PIPESIZE ltac:(done)) as Hm'.
      intros E. apply Z2Nat.inj in E; [|lia|lia]. apply ring_inj in E; [lia|lia|lia].
Qed.

Lemma holds_pop p q b :
  holds p (b :: q) ->
  data p !! Z.to_nat (nread p mod PIPESIZE) = Some b /\ holds (set_nread (nread p ⊕ 1) p) q.
Proof.
  intros [Hl Hr Hw Hs Hd]. simpl length in *. split.
  { specialize (Hd O b eq_refl). by rewrite Z.add_0_r in Hd. }
  split; cbn; [done|apply u32_range| |lia|].
  - rewrite Hw. unfold u32. rewrite Zplus_mod_idemp_l. f_equal. lia.
  - intros i c Hi. specialize (Hd (S i) c Hi).
    replace ((u32 (nread p + 1) + Z.of_nat i) mod PIPESIZE) with ((nread p + Z.of_nat (S i)) mod PIPESIZE); [done|].
    rewrite <- (Zplus_mod_idemp_l (u32 (nread p + 1))), ring_wrap, Zplus_mod_idemp_l. f_equal. lia.
Qed.

Lemma holds_ctl p q p' :
  holds p q -> data p' = data p -> nread p' = nread p -> nwrite p' = nwrite p -> holds p' q.
Proof. intros [] E1 E2 E3. split; by rewrite ?E1, ?E2, ?E3. Qed.

(** ** A run of write, of read, of close *)

(** How a run of pipewrite over [rest] ends, [w] being the bytes it wrote. *)
Inductive write_end (p : pipe) (q : list Z) (pid : nat) (killed : bool) (n : Z) (rest w : list Z) : Z + list Z -> pipe -> Prop :=
| write_done p' :
    rest = w -> rchan p' = ∅ -> wchan p' = wchan p -> write_end p q pid killed n rest w (inl n) p'
| write_broken b rest' p' :
    rest = w ++ b :: rest' -> Z.of_nat (length (q ++ w)) = PIPESIZE -> readopen p = false \/ killed = true ->
    rchan p' = rchan p -> wchan p' = wchan p -> write_end p q pid killed n rest w (inl (-1)) p'
| write_sleeps b rest' p' :
    rest = w ++ b :: rest' -> Z.of_nat (length (q ++ w)) = PIPESIZE -> readopen p = true -> killed = false ->
    rchan p' = ∅ -> wchan p' = {[pid]} ∪ wchan p -> write_end p q pid killed n rest w (inr (b :: rest')) p'.

Lemma p_release_ok p : plock p = true -> p_release p = Ok tt (set_plock false p).
Proof. apply release_ok. Qed.
Lemma p_acquire_ok p : plock p = false -> p_acquire p = Ok tt (set_plock true p).
Proof. apply acquire_ok. Qed.

Lemma pipewrite_loop_run pid killed n rest p q :
  holds p q -> plock p = true ->
  exists o p' w, pipewrite_loop pid killed n rest p = Ok o p' /\ plock p' = false /\ nread p' = nread p /\ same_ctl p p' /\
    holds p' (q ++ w) /\ write_end p q pid killed n rest w o p'.
Proof.
  revert p q. induction rest as [|b rest IH]; intros p q Hh Hl; cbn [pipewrite_loop].
  - unfold wakeup_nread. mrun1. erewrite bind_ok by (by apply p_release_ok).
    eexists _, _, []. split_and!; [reflexivity|done|done|done|rewrite app_nil_r; by eapply holds_ctl|by constructor].
  - mrun1. rewrite (holds_full p q Hh). pose proof (ho_size _ _ Hh) as Hs.
    destruct (Z.eqb_spec (Z.of_nat (length q)) PIPESIZE) as [Hfull|Hroom].
    + destruct (readopen p) eqn:Hro; cbn [negb orb]; [destruct killed|].
      * erewrite bind_ok by (by apply p_release_ok). eexists _, _, [].
        split_and!; [reflexivity|done|done|by split_and!|rewrite app_nil_r; by eapply holds_ctl|].
        eapply write_broken; [reflexivity|by rewrite app_nil_r|by right|done|done].
      * unfold wakeup_nread, sleep_nwrite. mrun1. rewrite bind_assoc_run. mrun1. erewrite bind_ok by (by apply p_release_ok).
        eexists _, _, []. split_and!; [reflexivity|done|done|by split_and!|rewrite app_nil_r; by eapply holds_ctl|].
        eapply write_sleeps; [reflexivity|by rewrite app_nil_r|done|done|done|done].
      * erewrite bind_ok by (by apply p_release_ok). eexists _, _, [].
        split_and!; [reflexivity|done|done|by split_and!|rewrite app_nil_r; by eapply holds_ctl|].
        eapply write_broken; [reflexivity|by rewrite app_nil_r|by left|done|done].
    + mrun1. mrun1. cbn [nwrite set_data].
      destruct (IH _ _ (holds_push p q b Hh ltac:(lia)) Hl) as (o & p' & w & E & Hl' & Hr' & (C1 & C2 & C3) & Hh' & He).
      exists o, p', (b :: w). split; [exact E|]. split; [done|]. split; [done|]. split; [done|].
      rewrite <- app_assoc in Hh'. split; [done|].
      destruct He as [p' -> H1 H2|b' rest' p' -> H1 H2 H3 H4|b' rest' p' -> H1 H2 H3 H4 H5].
      * by apply write_done.
      * rewrite <- app_assoc in H1. by eapply write_broken.
      * rewrite <- app_assoc in H1. by eapply write_sleeps.
Qed.

Lemma pipewrite_run pid killed n buf p q :
  holds p q -> plock p = false ->
  exists o p' w, pipewrite pid killed n buf p = Ok o p' /\ plock p' = false /\ nread p' = nread p /\ same_ctl p p' /\
    holds p' (q ++ w) /\ write_end p q pid killed n buf w o p'.
Proof.
  intros Hh Hl. unfold pipewrite. mstep (p_acquire_ok p Hl).
  destruct (pipewrite_loop_run pid killed n buf (set_plock true p) q) as (o & p' & w & E & H1 & Hr & H2 & H3 & H4);
    [by eapply holds_ctl|done|].
  exists o, p', w. split_and!; try done.
  inversion H4; subst; [by apply write_done|by eapply write_broken|by eapply write_sleeps].
Qed.

Lemma piperead_copy_run n got p q :
  holds p q -> exists p',
    piperead_copy n got p = Ok (got ++ take n q) p' /\ holds p' (drop n q) /\ plock p' = plock p /\ same_ctl p p' /\
    rchan p' = rchan p /\ wchan p' = wchan p.
Proof.
  revert got p q. induction n as [|n IH]; intros got p q Hh; cbn [piperead_copy].
  - exists p. rewrite take_0, drop_0, app_nil_r. split_and!; done.
  - mrun1. rewrite (holds_empty p q Hh). destruct q as [|b q]; simpl.
    + exists p. rewrite app_nil_r. split_and!; done.
    + destruct (holds_pop p q b Hh) as [Hb Hh']. rewrite Hb. cbn [deref]. mrun1. mrun1.
      destruct (IH (got ++ [b]) _ q Hh') as (p' & E & H1 & H2 & (C1 & C2 & C3) & H4 & H5).
      exists p'. rewrite E, <- app_assoc. split_and!; done.
Qed.

(** How a run of piperead ends. *)
Inductive read_end (p : pipe) (q : list Z) (pid : nat) (killed : bool) (n : Z) : Z * list Z + unit -> list Z -> pipe -> Prop :=
| read_done p' :
    q <> [] \/ writeopen p = false -> rchan p' = rchan p -> wchan p' = ∅ ->
    read_end p q pid killed n (inl (Z.min (Z.of_nat (Z.to_nat n)) (Z.of_nat (length q)), take (Z.to_nat n) q)) (drop (Z.to_nat n) q) p'
| read_killed p' :
    q = [] -> writeopen p = true -> killed = true -> rchan p' = rchan p -> wchan p' = wchan p ->
    read_end p q pid killed n (inl (-1, [])) q p'
| read_sleeps p' :
    q = [] -> writeopen p = true -> killed = false -> rchan p' = {[pid]} ∪ rchan p -> wchan p' = wchan p ->
    read_end p q pid killed n (inr tt) q p'.

Lemma piperead_run pid killed n p q :
  holds p q -> plock p = false ->
  exists o p' q', piperead pid killed n p = Ok o p' /\ plock p' = false /\ same_ctl p p' /\
    holds p' q' /\ read_end p q pid killed n o q' p'.
Proof.
  intros Hh Hl. unfold piperead. mstep (p_acquire_ok p Hl). mrun1. cbn [nread nwrite writeopen set_plock].
  rewrite (holds_empty p q Hh). case_bool_decide as Hq; [destruct (writeopen p) eqn:Hw; [destruct killed|]|]; cbn [andb].
  - erewrite bind_ok by (by apply p_release_ok). eexists _, _, q. split_and!; [reflexivity|done|by split_and!|by eapply holds_ctl|].
    by apply read_killed.
  - unfold sleep_nread. rewrite bind_assoc_run. mrun1. erewrite bind_ok by (by apply p_release_ok).
    eexists _, _, q. split_and!; [reflexivity|done|by split_and!|by eapply holds_ctl|]. by apply read_sleeps.
  - destruct (piperead_copy_run (Z.to_nat n) [] (set_plock true p) q) as (p' & E & H1 & H2 & (C1 & C2 & C3) & H4 & H5); [by eapply holds_ctl|].
    mstep E. unfold wakeup_nwrite. mrun1. erewrite bind_ok by (by apply p_release_ok).
    eexists _, _, (drop (Z.to_nat n) q). split; [reflexivity|]. split; [done|]. split; [by split_and!|]. split; [by eapply holds_ctl|].
    rewrite app_nil_l, length_take, Nat2Z.inj_min. apply read_done; [by right|done|done].
  - destruct (piperead_copy_run (Z.to_nat n) [] (set_plock true p) q) as (p' & E & H1 & H2 & (C1 & C2 & C3) & H4 & H5); [by eapply holds_ctl|].
    mstep E. unfold wakeup_nwrite. mrun1. erewrite bind_ok by (by apply p_release_ok).
    eexists _, _, (drop (Z.to_nat n) q). split; [reflexivity|]. split; [done|]. split; [by split_and!|]. split; [by eapply holds_ctl|].
    rewrite app_nil_l, length_take, Nat2Z.inj_min. apply read_done; [by left|done|done].
Qed.

Lemma pipeclose_run writable p q :
  holds p q -> plock p = false ->
  exists p', pipeclose writable p = Ok tt p' /\ plock p' = false /\ holds p' q /\
    readopen p' = (if writable then readopen p else false) /\ writeopen p' = (if writable then false else writeopen p) /\
    freed p' = (if writable then if readopen p then freed p else true else if writeopen p then freed p else true) /\
    rchan p' = (if writable then ∅ else rchan p) /\ wchan p' = (if writable then wchan p else ∅).
Proof.
  intros Hh Hl. unfold pipeclose, wakeup_nread, wakeup_nwrite. mstep (p_acquire_ok p Hl).
  destruct writable; rewrite bind_assoc_run; mrun1; mrun1; mrun1; cbn [readopen writeopen set_plock set_readopen set_writeopen set_rchan set_wchan].
  - destruct (readopen p) eqn:E; cbn [negb andb].
    + rewrite p_release_ok by done. eexists. split_and!; [reflexivity|done|by eapply holds_ctl|done..].
    + erewrite bind_ok by (by apply p_release_ok). eexists. split_and!; [reflexivity|done|by eapply holds_ctl|done..].
  - destruct (writeopen p) eqn:E; cbn [negb andb].
    + rewrite p_release_ok by done. eexists. split_and!; [reflexivity|done|by eapply holds_ctl|done..].
    + erewrite bind_ok by (by apply p_release_ok). eexists. split_and!; [reflexivity|done|by eapply holds_ctl|done..].
Qed.

(** ** Readers and writers together *)

(** A call in progress: what is left to write, or the count to read. *)
Inductive job := JWrite (n : Z) (rest : list Z) | JRead (n : Z).

(** [sent] and [received] record the bytes that went in and came out. *)
Record psys := mkPsys { pp : pipe; jobs : gmap nat job; sent : list Z; received : list Z }.

(** The bytes a run took from [buf], by the counters. *)
Definition taken (p p' : pipe) (buf : list Z) : list Z := take (Z.to_nat (nwrite p' ⊖ nwrite p)) buf.

Definition after_write (s : psys) (pid : nat) (n : Z) (buf : list Z) (o : Z + list Z) (p' : pipe) : psys :=
  mkPsys p' (match o with inl _ => delete pid (jobs s) | inr rest => <[pid := JWrite n rest]> (jobs s) end)
    (sent s ++ taken (pp s) p' buf) (received s).
Definition after_read (s : psys) (pid : nat) (n : Z) (o : Z * list Z + unit) (p' : pipe) : psys :=
  mkPsys p' (match o with inl _ => delete pid (jobs s) | inr _ => <[pid := JRead n]> (jobs s) end)
    (sent s) (received s ++ match o with inl (_, got) => got | inr _ => [] end).

(** Steps of the processes.  A call keeps its descriptor, and with it that end
    of the pipe, open; [wk] tells whether writers may have been killed. *)
Inductive pstep (wk : bool) (s : psys) : psys -> Prop :=
| ps_write pid killed n buf o p' :
    jobs s !! pid = None -> writeopen (pp s) = true -> (killed = true -> wk = true) ->
    pipewrite pid killed n buf (pp s) = Ok o p' -> pstep wk s (after_write s pid n buf o p')
| ps_write_again pid killed n rest o p' :
    jobs s !! pid = Some (JWrite n rest) -> pid ∉ wchan (pp s) -> (killed = true -> wk = true) ->
    pipewrite pid killed n rest (pp s) = Ok o p' -> pstep wk s (after_write s pid n rest o p')
| ps_read pid killed n o p' :
    jobs s !! pid = None -> readopen (pp s) = true ->
    piperead pid killed n (pp s) = Ok o p' -> pstep wk s (after_read s pid n o p')
| ps_read_again pid killed n o p' :
    jobs s !! pid = Some (JRead n) -> pid ∉ rchan (pp s) ->
    piperead pid killed n (pp s) = Ok o p' -> pstep wk s (after_read s pid n o p')
| ps_close (writable : bool) p' :
    (if writable then forall pid n rest, jobs s !! pid <> Some (JWrite n rest)
     else forall pid n, jobs s !! pid <> Some (JRead n)) ->
    pipeclose writable (pp s) = Ok tt p' -> pstep wk s (mkPsys p' (jobs s) (sent s) (received s))
| ps_kill pid :
    pstep wk s (mkPsys (set_rchan (rchan (pp s) ∖ {[pid]}) (set_wchan (wchan (pp s) ∖ {[pid]}) (pp s)))
                  (jobs s) (sent s) (received s)).

Inductive preach (wk : bool) : psys -> Prop :=
| preach_init page : length page = Z.to_nat PIPESIZE -> preach wk (mkPsys (new_pipe page) ∅ [] [])
| preach_step s s' : preach wk s -> pstep wk s s' -> preach wk s'.

(** Nothing is lost, duplicated or reordered. *)
Definition fifo (s : psys) : Prop :=
  plock (pp s) = false /\ exists q, holds (pp s) q /\ sent s = received s ++ q.

Lemma written_taken p q w p' rest :
  holds p q -> holds p' (q ++ w) -> nread p' = nread p -> w `prefix_of` rest -> taken p p' rest = w.
Proof.
  intros Hh Hh' Hr [z ->]. unfold taken. rewrite (ho_nwrite _ _ Hh), (ho_nwrite _ _ Hh'), Hr.
  pose proof (ho_size _ _ Hh') as Hs. rewrite length_app in Hs |- *. unfold PIPESIZE in Hs.
  assert (E : u32 (u32 (nread p + Z.of_nat (length q + length w)) - u32 (nread p + Z.of_nat (length q))) = Z.of_nat (length w)).
  { unfold u32. rewrite Zminus_mod_idemp_l, Zminus_mod_idemp_r. rewrite Z.mod_small; lia. }
  rewrite E, Nat2Z.id. apply take_app_length.
Qed.

Lemma write_prefix p q pid killed n rest w o p' : write_end p q pid killed n rest w o p' -> w `prefix_of` rest.
Proof. intros He. destruct He; subst; [done|by eexists..]. Qed.

Lemma fifo_write s pid killed n buf o p' :
  fifo s -> pipewrite pid killed n buf (pp s) = Ok o p' -> fifo (after_write s pid n buf o p').
Proof.
  intros (Hl & q & Hh & Hs) E.
  destruct (pipewrite_run pid killed n buf (pp s) q Hh Hl) as (o' & p'' & w & E' & Hl' & Hr & _ & Hh' & He).
  rewrite E in E'. injection E' as <- <-. split; [done|]. exists (q ++ w). split; [done|]. cbn.
  rewrite (written_taken _ _ w _ _ Hh Hh' Hr (write_prefix _ _ _ _ _ _ _ _ _ He)), Hs. by rewrite app_assoc.
Qed.

Lemma fifo_read s pid killed n o p' :
  fifo s -> piperead pid killed n (pp s) = Ok o p' -> fifo (after_read s pid n o p').
Proof.
  intros (Hl & q & Hh & Hs) E.
  destruct (piperead_run pid killed n (pp s) q Hh Hl) as (o' & p'' & q' & E' & Hl' & _ & Hh' & He).
  rewrite E in E'. injection E' as <- <-. split; [done|]. exists q'. split; [done|]. cbn. rewrite Hs.
  destruct He; cbn; rewrite ?app_nil_r; try done. by rewrite <- app_assoc, take_drop.
Qed.

Lemma fifo_step wk s s' : fifo s -> pstep wk s s' -> fifo s'.
Proof.
  intros Hf Hs. destruct Hs as [pid k n buf o p' _ _ _ E|pid k n rest o p' _ _ _ E|pid k n o p' _ _ E|pid k n o p' _ _ E|wr p' _ E|pid].
  - by eapply fifo_write.
  - by eapply fifo_write.
  - by eapply fifo_read.
  - by eapply fifo_read.
  - destruct Hf as (Hl & q & Hh & Hs). destruct (pipeclose_run wr (pp s) q Hh Hl) as (p'' & E' & Hl' & Hh' & _).
    rewrite E in E'. injection E' as <-. split; [done|]. by exists q.
  - destruct Hf as (Hl & q & Hh & Hs). split; [done|]. exists q. split; [by eapply holds_ctl|done].
Qed.

Lemma new_pipe_holds page : length page = Z.to_nat PIPESIZE -> holds (new_pipe page) [].
Proof. intros Hp. by split. Qed.

Lemma preach_fifo wk s : preach wk s -> fifo s.
Proof.
  induction 1 as [page Hp|s s' _ IH Hs]; [|by eapply fifo_step].
  split; [done|]. exists []. split; [by apply new_pipe_holds|done].
Qed.

(** Who may be asleep, and why. *)
Record sleepers (s : psys) : Prop := {
  sl_r : forall pid, pid ∈ rchan (pp s) -> exists n, jobs s !! pid = Some (JRead n);
  sl_w : forall pid, pid ∈ wchan (pp s) -> exists n rest, jobs s !! pid = Some (JWrite n rest);
  sl_ro : forall pid n, jobs s !! pid = Some (JRead n) -> readopen (pp s) = true;
  sl_wo : forall pid n rest, jobs s !! pid = Some (JWrite n rest) -> writeopen (pp s) = true;
  sl_empty : forall q, holds (pp s) q -> rchan (pp s) <> ∅ -> q = [] /\ writeopen (pp s) = true;
  sl_full : forall q, holds (pp s) q -> wchan (pp s) <> ∅ -> Z.of_nat (length q) = PIPESIZE /\ readopen (pp s) = true;
}.

(** The contents are determined by the pipe. *)
Lemma holds_unique p q q' : holds p q -> holds p q' -> q = q'.
Proof.
  intros H1 H2. pose proof (ho_size _ _ H1) as Hs1. pose proof (ho_size _ _ H2) as Hs2.
  assert (Hl : length q = length q').
  { pose proof (ho_nwrite _ _ H1) as E. rewrite (ho_nwrite _ _ H2) in E. unfold u32, PIPESIZE in *.
    Z.to_euclidean_division_equations. lia. }
  apply list_eq. intros i. destruct (q !! i) as [b|] eqn:E.
  - destruct (lookup_lt_is_Some_2 q' i) as [b' E']; [apply lookup_lt_Some in E; lia|].
    pose proof (ho_data _ _ H1 _ _ E). pose proof (ho_data _ _ H2 _ _ E'). congruence.
  - symmetry. apply lookup_ge_None. apply lookup_ge_None in E. lia.
Qed.

Lemma sleepers_write s pid n buf o p' :
  fifo s -> sleepers s -> writeopen (pp s) = true ->
  (forall m, jobs s !! pid <> Some (JRead m)) -> pid ∉ wchan (pp s) ->
  pipewrite pid false n buf (pp s) = Ok o p' -> sleepers (after_write s pid n buf o p').
Proof.
  intros (Hl & q & Hh & _) [Hr Hw Hro Hwo Hem Hfu] Hopen Hjob Hnw E.
  destruct (pipewrite_run pid false n buf (pp s) q Hh Hl) as (o' & p'' & w & E' & Hl' & _ & (C1 & C2 & _) & Hh' & He).
  rewrite E in E'. injection E' as <- <-.
  assert (Hpr : pid ∉ rchan (pp s)) by (intros (m & Hm)%Hr; by apply (Hjob m)).
  specialize (Hem q Hh). specialize (Hfu q Hh). pose proof (ho_size _ _ Hh') as Hs.
  assert (Hdel : forall p j, delete pid (jobs s) !! p = Some j -> jobs s !! p = Some j).
  { intros p j. rewrite lookup_delete_Some. naive_solver. }
  destruct He as [p' -> R W|b rest' p' -> Hf [Hc|?] R W|b rest' p' -> Hf Hro' _ R W]; [| |done|].
  - split; cbn; rewrite ?R, ?W, ?C1, ?C2; [set_solver| |eauto|eauto|done|].
    + intros p Hp. destruct (Hw p Hp) as (m & rest & ?). exists m, rest. rewrite lookup_delete_ne by set_solver. done.
    + intros q' Hq' Hne. destruct (Hfu Hne) as [Hlen ?]. split; [|done].
      rewrite <- (holds_unique _ _ _ Hh' Hq'). rewrite length_app in *. lia.
  - assert (Hr0 : rchan (pp s) = ∅).
    { destruct (set_choose_or_empty (rchan (pp s))) as [[p (m & Hp)%Hr]|Hemp]; [|by apply leibniz_equiv].
      specialize (Hro _ _ Hp). congruence. }
    split; cbn; rewrite ?R, ?W, ?C1, ?C2, ?Hr0; [set_solver| |eauto|eauto|done|].
    + intros p Hp. destruct (Hw p Hp) as (m & rest & ?). exists m, rest. rewrite lookup_delete_ne by set_solver. done.
    + intros q' Hq' Hne. destruct (Hfu Hne). congruence.
  - split; cbn; rewrite ?R, ?W, ?C1, ?C2; [set_solver| | | |done|].
    + intros p Hp. destruct (decide (p = pid)) as [->|Hne]; [rewrite lookup_insert_eq; eauto|].
      destruct (Hw p ltac:(set_solver)) as (m & rest & ?). exists m, rest. by rewrite lookup_insert_ne.
    + done.
    + done.
    + intros q' Hq' _. split; [|done]. by rewrite <- (holds_unique _ _ _ Hh' Hq').
Qed.

Lemma sleepers_read s pid killed n o p' :
  fifo s -> sleepers s -> readopen (pp s) = true ->
  (forall m rest, jobs s !! pid <> Some (JWrite m rest)) -> pid ∉ rchan (pp s) ->
  piperead pid killed n (pp s) = Ok o p' -> sleepers (after_read s pid n o p').
Proof.
  intros (Hl & q & Hh & _) [Hr Hw Hro Hwo Hem Hfu] Hopen Hjob Hnr E.
  destruct (piperead_run pid killed n (pp s) q Hh Hl) as (o' & p'' & q' & E' & Hl' & (C1 & C2 & _) & Hh' & He).
  rewrite E in E'. injection E' as <- <-.
  assert (Hpw : pid ∉ wchan (pp s)) by (intros (m & rest & Hm)%Hw; by apply (Hjob m rest)).
  specialize (Hem q Hh). specialize (Hfu q Hh).
  assert (Hdel : forall p j, delete pid (jobs s) !! p = Some j -> jobs s !! p = Some j).
  { intros p j. rewrite lookup_delete_Some. naive_solver. }
  assert (HR : forall p, p ∈ rchan (pp s) -> exists n, delete pid (jobs s) !! p = Some (JRead n)).
  { intros p Hp. destruct (Hr p Hp) as (m & ?). exists m. rewrite lookup_delete_ne by set_solver. done. }
  assert (HW : forall p, p ∈ wchan (pp s) -> exists n rest, delete pid (jobs s) !! p = Some (JWrite n rest)).
  { intros p Hp. destruct (Hw p Hp) as (m & rest & ?). exists m, rest. rewrite lookup_delete_ne by set_solver. done. }
  destruct He as [p' Hc R W|p' -> Ho _ R W|p' -> Ho _ R W].
  - split; cbn; rewrite ?R, ?W, ?C1, ?C2; [done|set_solver|eauto|eauto| |done].
    intros q' Hq' Hne. destruct (Hem Hne) as [-> Hx]. destruct Hc; congruence.
  - split; cbn; rewrite ?R, ?W, ?C1, ?C2; [done|done|eauto|eauto| |].
    + intros q' Hq' Hne. by rewrite <- (holds_unique _ _ _ Hh' Hq').
    + intros q' Hq' Hne. rewrite <- (holds_unique _ _ _ Hh' Hq'). auto.
  - split; cbn; rewrite ?R, ?W, ?C1, ?C2.
    + intros p Hp. destruct (decide (p = pid)) as [->|Hne]; [rewrite lookup_insert_eq; eauto|].
      destruct (Hr p ltac:(set_solver)) as (m & ?). exists m. by rewrite lookup_insert_ne.
    + intros p Hp. destruct (Hw p Hp) as (m & rest & ?). exists m, rest. rewrite lookup_insert_ne by set_solver. done.
    + done.
    + done.
    + intros q' Hq' _. by rewrite <- (holds_unique _ _ _ Hh' Hq').
    + intros q' Hq' Hne. rewrite <- (holds_unique _ _ _ Hh' Hq'). auto.
Qed.

Lemma sleepers_close s (writable : bool) p' :
  fifo s -> sleepers s ->
  (if writable then forall pid n rest, jobs s !! pid <> Some (JWrite n rest)
   else forall pid n, jobs s !! pid <> Some (JRead n)) ->
  pipeclose writable (pp s) = Ok tt p' -> sleepers (mkPsys p' (jobs s) (sent s) (received s)).
Proof.
  intros (Hl & q & Hh & _) [Hr Hw Hro Hwo Hem Hfu] Hno E.
  destruct (pipeclose_run writable (pp s) q Hh Hl) as (p'' & E' & Hl' & Hh' & C1 & C2 & _ & R & W).
  rewrite E in E'. injection E' as <-. specialize (Hem q Hh). specialize (Hfu q Hh).
  destruct writable.
  - assert (Hw0 : wchan (pp s) = ∅).
    { destruct (set_choose_or_empty (wchan (pp s))) as [[p (m & rest & Hp)%Hw]|Hemp]; [|by apply leibniz_equiv].
      by apply Hno in Hp. }
    split; cbn; rewrite ?R, ?W, ?C1, ?C2, ?Hw0; [set_solver|set_solver|eauto|intros ? ? ? []%Hno|done|done].
  - assert (Hr0 : rchan (pp s) = ∅).
    { destruct (set_choose_or_empty (rchan (pp s))) as [[p (m & Hp)%Hr]|Hemp]; [|by apply leibniz_equiv].
      by apply Hno in Hp. }
    split; cbn; rewrite ?R, ?W, ?C1, ?C2, ?Hr0; [set_solver|set_solver|intros ? ? []%Hno|eauto|done|done].
Qed.

Lemma sleepers_step s s' : fifo s -> sleepers s -> pstep false s s' -> sleepers s'.
Proof.
  intros Hf Hs Hst. destruct Hst as [pid k n buf o p' Hj Ho Hk E|pid k n rest o p' Hj Hn Hk E|pid k n o p' Hj Ho E|pid k n o p' Hj Hn E|wr p' Hno E|pid].
  - destruct k; [by specialize (Hk eq_refl)|]. eapply sleepers_write; try done; [congruence|].
    intros (m & rest & Hx)%(sl_w _ Hs). congruence.
  - destruct k; [by specialize (Hk eq_refl)|]. eapply sleepers_write; try done; [by eapply (sl_wo _ Hs)|congruence].
  - eapply sleepers_read; try done; [congruence|]. intros (m & Hx)%(sl_r _ Hs). congruence.
  - eapply sleepers_read; try done; [by eapply (sl_ro _ Hs)|congruence].
  - by eapply sleepers_close.
  - destruct Hs as [Hr Hw Hro Hwo Hem Hfu]. split; cbn; eauto.
    + intros p Hp. apply Hr. set_solver.
    + intros p Hp. apply Hw. set_solver.
    + intros q Hq Hne. apply Hem; [by eapply holds_ctl|set_solver].
    + intros q Hq Hne. apply Hfu; [by eapply holds_ctl|set_solver].
Qed.

Lemma preach_sleepers s : preach false s -> sleepers s.
Proof.
  induction 1 as [page Hp|s s' Hr IH Hs]; [|eapply sleepers_step; [by eapply preach_fifo|done|done]].
  split; cbn; try set_solver; intros *; rewrite lookup_empty; done.
Qed.

(** ** Properties *)

(** C19: pipes are FIFO: through any interleaving of reads, writes, closes and
    kills, the bytes delivered to readers followed by the contents of the pipe
    are exactly the bytes taken from writers, in order, and at most PIPESIZE
    bytes are in the pipe; the wrap of the 32-bit counters is harmless. *)
Theorem pipe_fifo wk s :
  preach wk s ->
  exists q, holds (pp s) q /\ sent s = received s ++ q /\ Z.of_nat (length q) <= PIPESIZE.
Proof.
  intros (_ & q & Hh & Hs)%preach_fifo. exists q. split_and!; [done|done|]. apply (ho_size _ _ Hh).
Qed.

(** C37: no wake-up is lost as long as no writer is killed: a reader asleep means
    an empty pipe with an open write end, a writer asleep a full pipe with an
    open read end; the two never sleep at the same time. *)
Theorem pipe_no_lost_wakeup s q :
  preach false s -> holds (pp s) q ->
  (rchan (pp s) <> ∅ -> q = [] /\ writeopen (pp s) = true) /\
  (wchan (pp s) <> ∅ -> Z.of_nat (length q) = PIPESIZE /\ readopen (pp s) = true) /\
  (rchan (pp s) = ∅ \/ wchan (pp s) = ∅).
Proof.
  intros Hr Hh. pose proof (preach_sleepers s Hr) as Hs.
  pose proof (sl_empty _ Hs q Hh) as H1. pose proof (sl_full _ Hs q Hh) as H2. split_and!; [done|done|].
  destruct (decide (rchan (pp s) = ∅)); [by left|]. destruct (decide (wchan (pp s) = ∅)); [by right|].
  destruct (H1 ltac:(done)) as [-> _]. by destruct (H2 ltac:(done)).
Qed.

(** A writer that has been killed returns from a full pipe without waking
    the readers: a state is reachable in which a reader stays asleep although
    the pipe is full. *)
Theorem pipe_killed_writer_loses_wakeup :
  exists s q, preach true s /\ holds (pp s) q /\ Z.of_nat (length q) = PIPESIZE /\ 1%nat ∈ rchan (pp s) /\
    jobs s !! 1%nat = Some (JRead 10).
Proof.
  assert (H0 : preach true (mkPsys (new_pipe (replicate 512 0)) ∅ [] [])) by (by constructor).
  eapply preach_step in H0; [|apply (ps_read true _ 1 false 10); [done|done|vm_compute; reflexivity]].
  eapply preach_step in H0; [|apply (ps_write true _ 2 true 600 (replicate 600 7)); [done|done|done|vm_compute; reflexivity]].
  destruct (preach_fifo _ _ H0) as (_ & q & Hh & _). eexists _, q. split; [exact H0|]. split; [done|].
  split; [|split; [vm_compute; done|vm_compute; done]].
  apply Z.eqb_eq. rewrite <- (holds_full _ _ Hh). vm_compute. reflexivity.
Qed.

(** ** Witnesses *)

(** A reader asleep on an empty pipe, then a writer that wakes it. *)
Lemma pipe_demo :
  exists s s', preach false s /\ rchan (pp s) = {[1%nat]} /\ holds (pp s) [] /\
    pstep false s s' /\ sent s' = [7; 8; 9] /\ rchan (pp s') = ∅.
Proof.
  assert (H0 : preach false (mkPsys (new_pipe (replicate 512 0)) ∅ [] [])) by (by constructor).
  eapply preach_step in H0; [|apply (ps_read false _ 1 false 10); [done|done|vm_compute; reflexivity]].
  eexists _, _. split; [exact H0|]. split; [reflexivity|]. split.
  - destruct (preach_fifo _ _ H0) as (_ & q & Hh & Hs). destruct q; [exact Hh|done].
  - split; [apply (ps_write false _ 2 false 3 [7; 8; 9]); [done|done|done|vm_compute; reflexivity]|].
    split; reflexivity.
Qed.

Lemma pipe_fifo_witness :
  exists s q, preach false s /\ holds (pp s) q /\ sent s = received s ++ q /\ sent s = [7; 8; 9].
Proof.
  destruct pipe_demo as (s & s' & Hr & _ & _ & Hst & Hs & _).
  destruct (pipe_fifo false s' (preach_step _ _ _ Hr Hst)) as (q & Hh & E & _).
  exists s', q. split; [exact (preach_step _ _ _ Hr Hst)|]. split; [done|]. split; [done|done].
Defined.

Lemma pipe_no_lost_wakeup_witness :
  exists s, preach false s /\ rchan (pp s) <> ∅ /\ wchan (pp s) = ∅.
Proof.
  destruct pipe_demo as (s & s' & Hr & Hc & Hh & _). exists s. split; [done|].
  destruct (pipe_no_lost_wakeup s [] Hr Hh) as (_ & _ & [E|E]); rewrite Hc; (split; [set_solver|]); [|done].
  rewrite Hc in E. set_solver.
Defined.
