(* ===== verification/Bytes.v ===== *)
(** * Fields of byte arrays

    Little-endian halfwords and words at an offset of a block, as the C code
    reads and writes them through a cast of [bp->data].  Offsets past the end
    of the block read zero and write nothing; the lemmas are for offsets
    inside. *)

From S2P Require Import Prelude.

(** The [n] bytes of a number, least significant first, and back. *)
Fixpoint le_bytes (n : nat) (w : Z) : list Z :=
  match n with
  | O => []
  | S n => w mod 256 :: le_bytes n (w / 256)
  end.
Fixpoint le_value (l : list Z) : Z :=
  match l with
  | [] => 0
  | b :: l => b + 256 * le_value l
  end.

(** The slice of [n] bytes at offset [k], and its replacement. *)
Definition slice (x : list Z) (k n : nat) : list Z := take n (drop k x).
Definition splice (x : list Z) (k : nat) (y : list Z) : list Z := take k x ++ y ++ drop (k + length y) x.

Definition get32 (x : list Z) (k : nat) : Z := le_value (slice x k 4).
Definition put32 (x : list Z) (k : nat) (w : Z) : list Z := splice x k (le_bytes 4 w).
Definition get16 (x : list Z) (k : nat) : Z := le_value (slice x k 2).
Definition put16 (x : list Z) (k : nat) (w : Z) : list Z := splice x k (le_bytes 2 w).

Lemma le_bytes_length n w : length (le_bytes n w) = n.
Proof. revert w. induction n as [|n IH]; intros w; simpl; [done|]. by rewrite IH. Qed.

Lemma le_value_bytes n w : 0 <= w < 256 ^ Z.of_nat n -> le_value (le_bytes n w) = w.
Proof.
  revert w. induction n as [|n IH]; intros w Hw; [simpl in *; lia|].
  rewrite Nat2Z.inj_succ, Z.pow_succ_r in Hw by lia. cbn [le_bytes le_value].
  rewrite IH.
  - pose proof (Z.div_mod w 256 ltac:(lia)). lia.
  - split; [apply Z.div_pos; lia|apply Z.div_lt_upper_bound; lia].
Qed.

Lemma le_bytes_value l : Forall (fun b => 0 <= b < 256) l -> le_bytes (length l) (le_value l) = l.
Proof.
  induction 1 as [|b l Hb Hl IH]; [done|]. cbn [length le_bytes le_value].
  rewrite Z.mul_comm, Z.div_add, Z.mod_add, Z.mod_small, Z.div_small, Z.add_0_l by lia. by rewrite IH.
Qed.

Lemma le_value_range l : Forall (fun b => 0 <= b < 256) l -> 0 <= le_value l < 256 ^ Z.of_nat (length l).
Proof.
  induction 1 as [|b l Hb Hl IH]; [simpl; lia|]. cbn [length le_value]. rewrite Nat2Z.inj_succ, Z.pow_succ_r by lia. lia.
Qed.

Lemma splice_length x k y : (k + length y <= length x)%nat -> length (splice x k y) = length x.
Proof. intros H. unfold splice. rewrite !length_app, length_take, length_drop. lia. Qed.

Lemma slice_splice_same x k y : (k + length y <= length x)%nat -> slice (splice x k y) k (length y) = y.
Proof.
  intros H. unfold slice, splice. rewrite drop_app_length' by (rewrite length_take; lia). apply take_app_length.
Qed.

(** Bytes outside of the replaced slice. *)
Lemma splice_lookup_out x k y i :
  (k + length y <= length x)%nat -> (i < k \/ k + length y <= i)%nat -> splice x k y !! i = x !! i.
Proof.
  intros Hl Hi. unfold splice. destruct (decide (i < k)%nat) as [Hlt|Hge].
  - rewrite lookup_app_l by (rewrite length_take; lia). by rewrite lookup_take_lt.
  - rewrite lookup_app_r, length_take, lookup_app_r by (rewrite ?length_take; lia).
    rewrite lookup_drop. f_equal. lia.
Qed.

Lemma splice_lookup_in x k y i :
  (k + length y <= length x)%nat -> (k <= i < k + length y)%nat -> splice x k y !! i = y !! (i - k)%nat.
Proof.
  intros Hl Hi. unfold splice. rewrite lookup_app_r, length_take, lookup_app_l by (rewrite ?length_take; lia).
  f_equal. lia.
Qed.

Lemma slice_lookup x k n i : (i < n)%nat -> slice x k n !! i = x !! (k + i)%nat.
Proof. intros H. unfold slice. by rewrite lookup_take_lt, lookup_drop. Qed.

Lemma slice_length x k n : (k + n <= length x)%nat -> length (slice x k n) = n.
Proof. intros H. unfold slice. rewrite length_take, length_drop. lia. Qed.

Lemma slice_eq x y k n :
  (k + n <= length x)%nat -> (k + n <= length y)%nat ->
  (forall i, (k <= i < k + n)%nat -> x !! i = y !! i) -> slice x k n = slice y k n.
Proof.
  intros Hx Hy E. apply list_eq. intros i. destruct (decide (i < n)%nat) as [Hi|Hi].
  - rewrite !slice_lookup by done. apply E. lia.
  - rewrite !lookup_ge_None_2; [done|rewrite slice_length; lia..].
Qed.

Lemma slice_splice_other x k y j n :
  (k + length y <= length x)%nat -> (j + n <= length x)%nat -> (j + n <= k \/ k + length y <= j)%nat ->
  slice (splice x k y) j n = slice x j n.
Proof.
  intros Hl Hj Hd. apply slice_eq; [by rewrite splice_length|done|].
  intros i Hi. apply splice_lookup_out; [done|lia].
Qed.

Lemma get32_put32 x k w : (k + 4 <= length x)%nat -> 0 <= w < 2 ^ 32 -> get32 (put32 x k w) k = w.
Proof.
  intros Hk Hw. unfold get32, put32. replace 4%nat with (length (le_bytes 4 w)) at 2 by apply le_bytes_length.
  rewrite slice_splice_same by (rewrite le_bytes_length; lia). apply le_value_bytes. simpl. lia.
Qed.

Lemma get32_put32_other x k w j :
  (k + 4 <= length x)%nat -> (j + 4 <= length x)%nat -> (j + 4 <= k \/ k + 4 <= j)%nat -> get32 (put32 x k w) j = get32 x j.
Proof.
  intros Hk Hj Hd. unfold get32, put32. by rewrite slice_splice_other by (rewrite ?le_bytes_length; lia).
Qed.

Lemma put32_length x k w : (k + 4 <= length x)%nat -> length (put32 x k w) = length x.
Proof. intros Hk. apply splice_length. rewrite le_bytes_length. lia. Qed.

Lemma get16_put16 x k w : (k + 2 <= length x)%nat -> 0 <= w < 2 ^ 16 -> get16 (put16 x k w) k = w.
Proof.
  intros Hk Hw. unfold get16, put16. replace 2%nat with (length (le_bytes 2 w)) at 2 by apply le_bytes_length.
  rewrite slice_splice_same by (rewrite le_bytes_length; lia). apply le_value_bytes. simpl. lia.
Qed.

Lemma put16_length x k w : (k + 2 <= length x)%nat -> length (put16 x k w) = length x.
Proof. intros Hk. apply splice_length. rewrite le_bytes_length. lia. Qed.

(** ** Slices of a sequence of blocks *)

Lemma slice_slice (x : list Z) o k n m : (k + n <= m)%nat -> slice (slice x o m) k n = slice x (o + k) n.
Proof. intros H. unfold slice. rewrite skipn_firstn_comm, firstn_firstn, drop_drop. f_equal. lia. Qed.
Lemma slice_app x k m n : slice x k (m + n) = slice x k m ++ slice x (k + m) n.
Proof. unfold slice. rewrite <- drop_drop. symmetry. apply take_take_drop. Qed.

Lemma splice_splice x k y z : (k + length y <= length x)%nat -> splice (splice x k y) (k + length y) z = splice x k (y ++ z).
Proof.
  intros H. unfold splice. rewrite !(app_assoc (take k x) y). set (p := take k x ++ y).
  assert (Hp : length p = (k + length y)%nat) by (unfold p; rewrite length_app, length_take; lia). rewrite <- Hp.
  rewrite take_app_length, drop_app_add, drop_drop, length_app, Hp. unfold p. rewrite <- !app_assoc. do 4 f_equal. lia.
Qed.

Lemma splice_app_l x k y z : (k + length y <= length x)%nat -> splice x k y ++ z = splice (x ++ z) k y.
Proof.
  intros H. unfold splice. rewrite take_app_le, drop_app_le by lia. by rewrite <- !app_assoc.
Qed.

Lemma splice_nil x k : splice x k [] = x.
Proof. unfold splice. rewrite Nat.add_0_r. apply take_drop. Qed.

(** Cutting back an array that was extended before the replacement. *)
Lemma take_splice x z k y (n : nat) :
  (k <= n)%nat -> (n <= length x)%nat -> (k + length y <= length (x ++ z))%nat ->
  take (n `max` (k + length y)) (splice (x ++ z) k y) = splice (take n x) k y.
Proof.
  intros Hk Hn Hl. unfold splice. assert (Ht : length (take k x) = k) by (rewrite length_take; lia).
  rewrite (take_app_le x z k) by lia. rewrite take_take, Nat.min_l by lia. rewrite (app_assoc (take k x)), (app_assoc (take k x)).
  rewrite take_app, take_ge by (rewrite length_app; lia). f_equal. rewrite length_app, Ht.
  destruct (decide (n <= k + length y)%nat).
  - rewrite Nat.max_r, Nat.sub_diag, take_0 by done. by rewrite drop_ge by (rewrite length_take; lia).
  - rewrite Nat.max_l by lia. rewrite drop_app_le by lia. rewrite take_app_le by (rewrite length_drop; lia). by rewrite skipn_firstn_comm.
Qed.

Lemma slice_splice_in x k y j n : (k + length y <= length x)%nat -> (j + n <= length y)%nat -> slice (splice x k y) (k + j) n = slice y j n.
Proof.
  intros Hl Hj. unfold slice, splice. assert (Hk : length (take k x) = k) by (rewrite length_take; lia).
  rewrite <- Hk at 1. rewrite drop_app_add. rewrite drop_app_le by lia. by rewrite take_app_le by (rewrite length_drop; lia).
Qed.
Lemma slice_mid p q r : slice (p ++ q ++ r) (length p) (length q) = q.
Proof. unfold slice. by rewrite drop_app_length, take_app_length. Qed.

Section Blocks.
Context {B : nat}.
Implicit Types (L : list (list Z)).

Lemma concat_blocks_length L : Forall (fun x => length x = B) L -> length (concat L) = (B * length L)%nat.
Proof. induction 1 as [|x L Hx HL IH]; [simpl; lia|]. cbn. rewrite length_app, IH, Hx. lia. Qed.

(** A slice inside of block [k]. *)
Lemma slice_concat L k x o n :
  Forall (fun x => length x = B) L -> L !! k = Some x -> (o + n <= B)%nat -> slice (concat L) (B * k + o) n = slice x o n.
Proof.
  intros HL Hk Ho. pose proof (take_drop_middle _ _ _ Hk) as E. rewrite <- E. rewrite concat_app. cbn.
  assert (Hx : length x = B) by (by eapply Forall_lookup_1 in Hk; [|done]).
  assert (Ht : length (concat (take k L)) = (B * k)%nat).
  { rewrite concat_blocks_length by (by apply Forall_take). apply lookup_lt_Some in Hk. rewrite length_take. f_equal. lia. }
  unfold slice. rewrite <- Ht, drop_app_add. rewrite drop_app_le by lia. by rewrite take_app_le by (rewrite length_drop; lia).
Qed.
Lemma concat_splice L k x o y :
  Forall (fun x => length x = B) L -> L !! k = Some x -> (o + length y <= B)%nat ->
  concat (<[k := splice x o y]> L) = splice (concat L) (B * k + o) y.
Proof.
  intros HL Hk Ho. pose proof (take_drop_middle _ _ _ Hk) as E. rewrite insert_take_drop by (by eapply lookup_lt_Some). rewrite <- E at 3.
  assert (Hx : length x = B) by (by eapply Forall_lookup_1 in Hk; [|done]).
  assert (Ht : length (concat (take k L)) = (B * k)%nat).
  { rewrite concat_blocks_length by (by apply Forall_take). apply lookup_lt_Some in Hk. rewrite length_take. f_equal. lia. }
  rewrite !concat_app. cbn. set (X := concat (take k L)) in *. set (Y := concat (drop (S k) L)). rewrite <- Ht. unfold splice.
  rewrite take_app_add, <- Nat.add_assoc, drop_app_add. rewrite take_app_le, drop_app_le by lia. by rewrite <- !app_assoc.
Qed.
End Blocks.
