(* ===== verification/Bio.v ===== *)
(** * bio.c and memide.c: the buffer cache over the memory disk

    The buffers of src/bio.c are numbered; number [NBUF] is [bcache.head].  The
    list of all buffers is the doubly linked ring through [prev] and [next], as
    the code manipulates it.  The device is src/memide.c, the disk image in
    memory, whose [iderw] transfers at once; the image is a function from
    sectors to 512-byte blocks.  A process that must wait for a busy buffer
    stops with [SSleep].  The last part gives the instance of [Buffers]. *)

From stdpp Require Import functions.
From S2P Require Import Prelude Interfaces Spinlock.

Definition B_BUSY : Z := 1.
Definition B_VALID : Z := 2.
Definition B_DIRTY : Z := 4.

Record buf := mkBuf { flags : Z; dev : Z; sector : Z; prev : nat; next : nat; bytes_ : block }.
Definition set_flags v b := mkBuf v (dev b) (sector b) (prev b) (next b) (bytes_ b).
Definition set_dev v b := mkBuf (flags b) v (sector b) (prev b) (next b) (bytes_ b).
Definition set_sector v b := mkBuf (flags b) (dev b) v (prev b) (next b) (bytes_ b).
Definition set_prev v b := mkBuf (flags b) (dev b) (sector b) v (next b) (bytes_ b).
Definition set_next v b := mkBuf (flags b) (dev b) (sector b) (prev b) v (bytes_ b).
Definition set_bytes v b := mkBuf (flags b) (dev b) (sector b) (prev b) (next b) v.

Record bcache := mkBcache {
  bc_lock : bool;
  bufs : nat -> buf;       (** bcache.buf, and bcache.head at [NBUF] *)
  memdisk : Z -> block;
  disksize : Z;
  io : list (Z * block);   (** the writes the disk has received *)
}.
Definition set_bc_lock b c := mkBcache b (bufs c) (memdisk c) (disksize c) (io c).
Definition set_bufs f c := mkBcache (bc_lock c) f (memdisk c) (disksize c) (io c).

Definition head : nat := NBUF.
Definition getb (i : nat) : M bcache buf := gets (fun c => bufs c i).
Definition updb (i : nat) (f : buf -> buf) : M bcache unit := modify (fun c => set_bufs (<[i := f (bufs c i)]> (bufs c)) c).
Definition has (b : buf) (mask : Z) : bool := truth (Z.land (flags b) mask).

(** ** memide.c *)

Definition disk_write (s : Z) (x : block) (c : bcache) : bcache :=
  mkBcache (bc_lock c) (bufs c) (<[s := x]> (memdisk c)) (disksize c) (io c ++ [(s, x)]).

Definition iderw (i : nat) : M bcache unit :=
  b ← getb i;
  if negb (has b B_BUSY) then panic "iderw: buf not busy"
  else if Z.land (flags b) (Z.lor B_VALID B_DIRTY) =? B_VALID then panic "iderw: nothing to do"
  else if negb (dev b =? 1) then panic "iderw: request not for disk 1"
  else
    c ← get;
    if disksize c <=? sector b then panic "iderw: sector out of range"
    else
      (if has b B_DIRTY then
         updb i (set_flags (Z.land (flags b) (Z.lnot B_DIRTY)));;
         modify (disk_write (sector b) (bytes_ b))
       else updb i (set_bytes (memdisk c (sector b))));;
      updb i (fun b => set_flags (Z.lor (flags b) B_VALID) b).

(** ** bio.c *)

Definition b_acquire : M bcache unit := acquire bc_lock set_bc_lock.
Definition b_release : M bcache unit := release bc_lock set_bc_lock.

(** The loop body of [binit] for buffer [b]. *)
Definition binit_one (b : nat) : M bcache unit :=
  h ← getb head;
  updb b (set_next (next h));;
  updb b (set_prev head);;
  updb b (set_dev (u32 (-1)));;
  h ← getb head;
  updb (next h) (set_prev b);;
  updb head (set_next b).
Definition binit : M bcache unit :=
  modify (set_bc_lock false);;
  updb head (set_prev head);;
  updb head (set_next head);;
  mfor (seq 0 NBUF) binit_one.

(** The first loop of [bget], from buffer [b]. *)
Fixpoint bget_find (fuel : nat) (b : nat) (dv sec : Z) : M bcache (option nat) :=
  match fuel with
  | O => halt SFuel
  | S fuel =>
      if (b =? head)%nat then mret None
      else x ← getb b;
           if (dev x =? dv) && (sector x =? sec) then mret (Some b) else bget_find fuel (next x) dv sec
  end.
(** The second loop: the first buffer from the tail that is idle and clean. *)
Fixpoint bget_recycle (fuel : nat) (b : nat) : M bcache (option nat) :=
  match fuel with
  | O => halt SFuel
  | S fuel =>
      if (b =? head)%nat then mret None
      else x ← getb b;
           if (Z.land (flags x) B_BUSY =? 0) && (Z.land (flags x) B_DIRTY =? 0) then mret (Some b)
           else bget_recycle fuel (prev x)
  end.

Definition bget (dv sec : Z) : M bcache nat :=
  b_acquire;;
  h ← getb head;
  f ← bget_find (S NBUF) (next h) dv sec;
  match f with
  | Some b =>
      x ← getb b;
      if negb (has x B_BUSY) then
        updb b (set_flags (Z.lor (flags x) B_BUSY));; b_release;; mret b
      else b_release;; halt (SSleep (Z.of_nat b))
  | None =>
      h ← getb head;
      r ← bget_recycle (S NBUF) (prev h);
      match r with
      | Some b =>
          updb b (set_dev dv);; updb b (set_sector sec);; updb b (set_flags B_BUSY);;
          b_release;; mret b
      | None => panic "bget: no buffers"
      end
  end.

Definition bread (dv sec : Z) : M bcache nat :=
  b ← bget dv sec;
  x ← getb b;
  when (negb (has x B_VALID)) (iderw b);;
  mret b.

Definition bwrite (b : nat) : M bcache unit :=
  x ← getb b;
  if Z.land (flags x) B_BUSY =? 0 then panic "bwrite"
  else updb b (set_flags (Z.lor (flags x) B_DIRTY));; iderw b.

Definition brelse (b : nat) : M bcache unit :=
  x ← getb b;
  if Z.land (flags x) B_BUSY =? 0 then panic "brelse"
  else
    b_acquire;;
    x ← getb b; updb (next x) (set_prev (prev x));;
    x ← getb b; updb (prev x) (set_next (next x));;
    h ← getb head; updb b (set_next (next h));;
    updb b (set_prev head);;
    h ← getb head; updb (next h) (set_prev b);;
    updb head (set_next b);;
    updb b (fun x => set_flags (Z.land (flags x) (Z.lnot B_BUSY)) x);;
    b_release.

(** ** Flags *)

(** The flags in use are the eight combinations of the three bits. *)
Definition flags_of (busy valid dirty : bool) : Z :=
  (if busy then 1 else 0) + (if valid then 2 else 0) + (if dirty then 4 else 0).

Lemma flags_ops busy valid dirty :
  let f := flags_of busy valid dirty in
  Z.land f B_BUSY = (if busy then 1 else 0) /\ Z.land f B_VALID = (if valid then 2 else 0) /\
  Z.land f B_DIRTY = (if dirty then 4 else 0) /\
  Z.land f (Z.lor B_VALID B_DIRTY) = flags_of false valid dirty /\
  Z.lor f B_BUSY = flags_of true valid dirty /\ Z.lor f B_VALID = flags_of busy true dirty /\
  Z.lor f B_DIRTY = flags_of busy valid true /\
  Z.land f (Z.lnot B_BUSY) = flags_of false valid dirty /\ Z.land f (Z.lnot B_DIRTY) = flags_of busy valid false.
Proof. by destruct busy, valid, dirty. Qed.

(** ** The ring *)

Section Ring.
Context (nx pv : nat -> nat).

(** Consecutive elements are linked both ways. *)
Fixpoint linked (xs : list nat) : Prop :=
  match xs with
  | x :: (y :: _) as r => nx x = y /\ pv y = x /\ linked r
  | _ => True
  end.

Lemma linked_cons2 x y r : linked (x :: y :: r) <-> nx x = y /\ pv y = x /\ linked (y :: r).
Proof. done. Qed.

Lemma linked_app xs y ys : linked (xs ++ y :: ys) <-> linked (xs ++ [y]) /\ linked (y :: ys).
Proof.
  induction xs as [|x xs IH]; [simpl; tauto|]. destruct xs as [|x' xs]; [simpl; tauto|].
  cbn [app linked] in *. tauto.
Qed.
End Ring.

Lemma linked_frame nx pv nx' pv' xs z :
  (forall x, x ∈ xs -> nx' x = nx x) -> (forall y, y ∈ tail (xs ++ [z]) -> pv' y = pv y) ->
  linked nx pv (xs ++ [z]) -> linked nx' pv' (xs ++ [z]).
Proof.
  induction xs as [|x xs IH]; intros Hn Hp Hl; [done|]. destruct xs as [|x' xs]; cbn [app tail linked] in *.
  - destruct Hl as (H1 & H2 & _). split_and!; [rewrite Hn by set_solver; done|rewrite Hp by set_solver; done|done].
  - destruct Hl as (H1 & H2 & H3). split_and!; [rewrite Hn by set_solver; done|rewrite Hp by set_solver; done|].
    apply IH; [set_solver|set_solver|done].
Qed.

(** The two neighbours of [b] are linked to each other. *)
Lemma linked_unlink nx pv A pb b C z nb B :
  C ++ [z] = nb :: B -> linked nx pv (A ++ pb :: b :: C ++ [z]) ->
  (pb ∉ A) -> (nb ∉ tail (A ++ [pb])) -> (nb ∉ B) -> (pb ∉ C) ->
  nx b = nb /\ pv b = pb /\ linked (<[pb := nb]> nx) (<[nb := pb]> pv) (A ++ pb :: C ++ [z]).
Proof.
  intros HC Hl H1 H2 H3 H4. rewrite HC in Hl. apply linked_app in Hl as [La Lb].
  apply linked_cons2 in Lb as (_ & P1 & Lb). apply linked_cons2 in Lb as (N1 & _ & Lb). split_and!; [done|done|]. rewrite HC. apply linked_app. split.
  - eapply linked_frame; [| |exact La].
    + intros x Hx. apply fn_lookup_insert_ne. set_solver.
    + intros y Hy. apply fn_lookup_insert_ne. set_solver.
  - change (pb :: nb :: B) with ([pb] ++ nb :: B). apply linked_app. split.
    + cbn. by rewrite !fn_lookup_insert.
    + rewrite <- HC in Lb |- *. eapply linked_frame; [| |exact Lb].
      * intros x Hx. apply fn_lookup_insert_ne. set_solver.
      * intros y Hy. rewrite HC in Hy. cbn in Hy. apply fn_lookup_insert_ne. set_solver.
Qed.

(** [b] enters the ring behind [h]. *)
Lemma linked_insert nx pv h b C z f B :
  C ++ [z] = f :: B -> linked nx pv (h :: C ++ [z]) -> (b ∉ h :: C ++ [z]) -> (h ∉ C) -> (f ∉ B) ->
  linked (<[h := b]> (<[b := f]> nx)) (<[f := b]> (<[b := h]> pv)) (h :: b :: C ++ [z]).
Proof.
  intros HC Hl Hb Hh Hf. rewrite HC in *. change (h :: b :: f :: B) with ([h; b] ++ f :: B).
  change (h :: f :: B) with ([h] ++ f :: B) in Hl. apply linked_app in Hl as [_ Hl].
  assert (b <> h) by set_solver. assert (b <> f) by set_solver. apply linked_app. split.
  - cbn. rewrite !fn_lookup_insert. rewrite !(fn_lookup_insert_ne _ h b), !(fn_lookup_insert_ne _ f b) by done.
    by rewrite !fn_lookup_insert.
  - rewrite <- HC in Hl |- *. eapply linked_frame; [| |exact Hl].
    + intros x Hx. assert (x ∈ f :: B) by (rewrite <- HC; set_solver).
      rewrite !fn_lookup_insert_ne; [done|set_solver|set_solver].
    + intros y Hy. rewrite HC in Hy. cbn in Hy. rewrite !fn_lookup_insert_ne; [done|set_solver|set_solver].
Qed.

(** What brelse does to the ring: [b] moves to the front. *)
Lemma ring_move nx pv h l1 b l2 :
  NoDup (h :: l1 ++ b :: l2) -> linked nx pv (h :: (l1 ++ b :: l2) ++ [h]) ->
  let nx1 := <[pv b := nx b]> nx in
  let pv1 := <[nx b := pv b]> pv in
  linked (<[h := b]> (<[b := nx1 h]> nx1)) (<[nx1 h := b]> (<[b := h]> pv1)) (h :: (b :: l1 ++ l2) ++ [h]).
Proof.
  intros Hnd Hl nx1 pv1.
  destruct (exists_last (l := h :: l1)) as (A & pb & HA); [done|].
  assert (HB : exists nb B, l2 ++ [h] = nb :: B) by (destruct l2; simpl; eauto). destruct HB as (nb & B & HB).
  assert (HF : exists f F, (l1 ++ l2) ++ [h] = f :: F) by (destruct (l1 ++ l2); simpl; eauto). destruct HF as (f & F & HF).
  apply NoDup_cons in Hnd as [Hh Hnd]. apply NoDup_app in Hnd as (Hn1 & Hd & Hn2). apply NoDup_cons in Hn2 as [Hb2 Hn2].
  assert (Hpb : pb ∈ h :: l1) by (rewrite HA; set_solver).
  assert (Hnb : nb ∈ l2 ++ [h]) by (rewrite HB; set_solver).
  destruct (linked_unlink nx pv A pb b l2 h nb B HB) as (E1 & E2 & Hu).
  - rewrite <- app_assoc in Hl. cbn [app] in Hl.
    change (h :: l1 ++ b :: l2 ++ [h]) with ((h :: l1) ++ b :: l2 ++ [h]) in Hl. rewrite HA, <- app_assoc in Hl. exact Hl.
  - assert (HN : NoDup (A ++ [pb])) by (rewrite <- HA; constructor; [set_solver|done]).
    apply NoDup_app in HN as (_ & HN & _). intros Hx. apply (HN pb Hx). set_solver.
  - rewrite <- HA. cbn [tail]. intros Hx. apply elem_of_app in Hnb as [Hnb|Hnb]; [apply (Hd nb Hx); set_solver|set_solver].
  - assert (HN : NoDup (l2 ++ [h])) by (apply NoDup_app; split_and!; [done|set_solver|apply NoDup_singleton]).
    rewrite HB in HN. by apply NoDup_cons in HN as [? _].
  - apply elem_of_cons in Hpb as [->|Hpb]; [set_solver|]. intros Hx. apply (Hd pb Hpb). set_solver.
  - unfold nx1, pv1. rewrite E1, E2. clear nx1 pv1.
    assert (Hu' : linked (<[pb := nb]> nx) (<[nb := pb]> pv) (h :: (l1 ++ l2) ++ [h])).
    { rewrite <- app_assoc. change (h :: l1 ++ l2 ++ [h]) with ((h :: l1) ++ l2 ++ [h]). by rewrite HA, <- app_assoc. }
    assert (Ef : (<[pb := nb]> nx) h = f) by (rewrite HF in Hu'; cbn in Hu'; tauto).
    rewrite Ef. cbn [app]. apply (linked_insert _ _ h b (l1 ++ l2) h f F HF Hu').
    + set_solver.
    + set_solver.
    + assert (HN : NoDup ((l1 ++ l2) ++ [h])).
      { apply NoDup_app. split_and!; [apply NoDup_app; split_and!; [done|set_solver|done]|set_solver|apply NoDup_singleton]. }
      rewrite HF in HN. by apply NoDup_cons in HN as [? _].
Qed.

(** ** The invariant *)

(** Buffer [b], number [i], against the client's view: it is busy when the
    client holds it, dirty when the view keeps its sector dirty, and an idle
    valid buffer has the contents of its sector. *)
Definition bst (v : bview) (i : nat) (b : buf) : Prop :=
  exists busy valid dirty,
    flags b = flags_of busy valid dirty /\
    bv_held v !! i = (if busy then Some (sector b, bytes_ b) else None) /\
    (dirty = true <-> dev b = ROOTDEV /\ sector b ∈ dom (bv_dirty v)) /\
    (busy || dirty = true -> valid = true) /\
    (if valid then dev b = ROOTDEV /\ 0 <= sector b < bv_size v /\ length (bytes_ b) = Z.to_nat BSIZE /\
                   (busy = false -> bytes_ b = content v (sector b))
     else dev b <> ROOTDEV).

(** [l] is the ring without the head, most recently used first. *)
Record bc_ok (c : bcache) (v : bview) (l : list nat) : Prop := {
  bo_lock : bc_lock c = false;
  bo_ring : linked (next ∘ bufs c) (prev ∘ bufs c) (head :: l ++ [head]);
  bo_perm : l ≡ₚ seq 0 NBUF;
  bo_size : bv_size v = disksize c;
  bo_disk : bv_disk v = memdisk c;
  bo_hist : bv_hist v = io c;
  bo_bst : forall i, (i < NBUF)%nat -> bst v i (bufs c i);
  bo_held : forall i, (NBUF <= i)%nat -> bv_held v !! i = None;
  bo_unique : forall i j, (i < NBUF)%nat -> (j < NBUF)%nat -> dev (bufs c i) = ROOTDEV -> dev (bufs c j) = ROOTDEV ->
    sector (bufs c i) = sector (bufs c j) -> i = j;
  bo_dirty : forall s x, bv_dirty v !! s = Some x ->
    length x = Z.to_nat BSIZE /\ exists i, (i < NBUF)%nat /\ dev (bufs c i) = ROOTDEV /\ sector (bufs c i) = s;
  bo_blocks : forall s, 0 <= s < disksize c -> length (memdisk c s) = Z.to_nat BSIZE;
}.

Lemma bst_frame v v' j b :
  bst v j b -> bv_held v' !! j = bv_held v !! j -> bv_size v' = bv_size v ->
  (dev b = ROOTDEV -> (sector b ∈ dom (bv_dirty v') <-> sector b ∈ dom (bv_dirty v)) /\
                      content v' (sector b) = content v (sector b)) ->
  bst v' j b.
Proof.
  intros (busy & valid & dirty & Hf & Hh & Hd & Hbd & Hv) Eh Es Ed. exists busy, valid, dirty.
  rewrite Eh, Es. split_and!; [done|done| |done|].
  - rewrite Hd. split; intros [H1 H2]; (split; [done|]); by apply (Ed H1).
  - destruct valid; [|done]. destruct Hv as (H1 & H2 & H3 & H4). destruct (Ed H1) as [_ ->]. done.
Qed.

(** A change of one buffer that leaves the links alone. *)
Lemma bc_ok_upd c v l i b' v' c' :
  bc_ok c v l -> (i < NBUF)%nat -> bst v' i b' ->
  bc_lock c' = false -> bufs c' i = b' -> (forall j, j <> i -> bufs c' j = bufs c j) -> disksize c' = disksize c ->
  next b' = next (bufs c i) -> prev b' = prev (bufs c i) ->
  bv_size v' = bv_size v -> bv_disk v' = memdisk c' -> bv_hist v' = io c' ->
  (forall s, 0 <= s < disksize c -> length (memdisk c' s) = Z.to_nat BSIZE) ->
  (forall j, j <> i -> bv_held v' !! j = bv_held v !! j) ->
  (forall s, (s = sector b' /\ dev b' = ROOTDEV) \/
     ((s ∈ dom (bv_dirty v') <-> s ∈ dom (bv_dirty v)) /\ content v' s = content v s)) ->
  (forall s x, bv_dirty v' !! s = Some x -> length x = Z.to_nat BSIZE /\
     ((s = sector b' /\ dev b' = ROOTDEV) \/ (exists y, bv_dirty v !! s = Some y /\ (sector (bufs c i) <> s \/ dev (bufs c i) <> ROOTDEV)))) ->
  (dev b' = ROOTDEV -> forall j, j <> i -> (j < NBUF)%nat -> dev (bufs c j) = ROOTDEV -> sector (bufs c j) <> sector b') ->
  bc_ok c' v' l.
Proof.
  intros [] Hi Hb Hl Hself Hoth Hds Hn Hp Hsz Hdk Hio Hlen Hhd Hcont Hdirty Huniq.
  assert (Hnb : i <> head) by (unfold head; lia).
  split; try done.
  - eapply (linked_frame (next ∘ bufs c) (prev ∘ bufs c) _ _ (head :: l)); [| |done]; intros x _; unfold compose;
      destruct (decide (x = i)) as [->|Hx]; rewrite ?Hself, ?Hoth by done; done.
  - by rewrite Hsz, Hds.
  - intros j Hj. destruct (decide (j = i)) as [->|Hne]; [by rewrite Hself|]. rewrite Hoth by done.
    apply (bst_frame v); [by apply bo_bst0|by apply Hhd|done|]. intros Hdev.
    destruct (Hcont (sector (bufs c j))) as [[E E']|E]; [|done]. exfalso. by apply (Huniq E' j Hne Hj Hdev).
  - intros j Hj. rewrite Hhd by lia. auto.
  - intros a b Ha Hb' Hda Hdb Hs. destruct (decide (a = i)) as [->|Hai], (decide (b = i)) as [->|Hbi]; [done|..];
      rewrite ?Hself in *; rewrite ?(Hoth a), ?(Hoth b) in * by done.
    + exfalso. by apply (Huniq Hda b Hbi Hb' Hdb).
    + exfalso. by apply (Huniq Hdb a Hai Ha Hda).
    + eauto.
  - intros s x Hx. destruct (Hdirty s x Hx) as [Hlx [[-> Hdev]|(y & Hy & Hns)]]; (split; [done|]).
    + exists i. by rewrite Hself.
    + destruct (bo_dirty0 s y Hy) as (_ & j & Hj & Hdj & Hsj). exists j.
      rewrite Hoth; [done|]. intros ->. tauto.
  - by rewrite Hds.
Qed.

(** ** Searching the ring *)

(** The buffer [find] gets to is the first of the ring with the sector. *)
Definition is_block (c : bcache) (dv sec : Z) (i : nat) : bool := (dev (bufs c i) =? dv) && (sector (bufs c i) =? sec).
Definition is_clean (c : bcache) (i : nat) : bool :=
  (Z.land (flags (bufs c i)) B_BUSY =? 0) && (Z.land (flags (bufs c i)) B_DIRTY =? 0).

Lemma bget_find_run c x l dv sec fuel :
  linked (next ∘ bufs c) (prev ∘ bufs c) (x :: l ++ [head]) -> head ∉ l -> (length l < fuel)%nat ->
  bget_find fuel (next (bufs c x)) dv sec c = Ok (find (is_block c dv sec) l) c.
Proof.
  revert x fuel. induction l as [|y l IH]; intros x [|fuel] Hl Hh Hf; simpl in Hf; try lia.
  - cbn in Hl. destruct Hl as (E & _). cbn [bget_find]. unfold compose in E. rewrite E, Nat.eqb_refl. done.
  - cbn [app] in Hl. apply linked_cons2 in Hl as (E & _ & Hl). unfold compose in E. rewrite E. cbn [bget_find].
    rewrite (proj2 (Nat.eqb_neq _ _)) by set_solver. unfold getb. mrun1. cbn [find]. fold (is_block c dv sec y).
    destruct (is_block c dv sec y); [done|]. apply IH; [done|set_solver|lia].
Qed.

Lemma linked_rev nx pv xs : linked nx pv xs -> linked pv nx (rev xs).
Proof.
  induction xs as [|x xs IH]; [done|]. destruct xs as [|y xs]; [done|].
  intros (E1 & E2 & Hl). cbn [rev] in *. rewrite <- app_assoc. apply linked_app. split; [apply (IH Hl)|]. cbn. done.
Qed.

Lemma bget_recycle_run c x l fuel :
  linked (prev ∘ bufs c) (next ∘ bufs c) (x :: l ++ [head]) -> head ∉ l -> (length l < fuel)%nat ->
  bget_recycle fuel (prev (bufs c x)) c = Ok (find (is_clean c) l) c.
Proof.
  revert x fuel. induction l as [|y l IH]; intros x [|fuel] Hl Hh Hf; simpl in Hf; try lia.
  - cbn in Hl. destruct Hl as (E & _). cbn [bget_recycle]. unfold compose in E. rewrite E, Nat.eqb_refl. done.
  - cbn [app] in Hl. apply linked_cons2 in Hl as (E & _ & Hl). unfold compose in E. rewrite E. cbn [bget_recycle].
    rewrite (proj2 (Nat.eqb_neq _ _)) by set_solver. unfold getb. mrun1. cbn [find]. fold (is_clean c y).
    destruct (is_clean c y); [done|]. apply IH; [done|set_solver|lia].
Qed.

Section Operations.
Context (c : bcache) (v : bview) (l : list nat) (Hok : bc_ok c v l).

Lemma ring_elem i : i ∈ l <-> (i < NBUF)%nat.
Proof. rewrite (bo_perm _ _ _ Hok), elem_of_seq. lia. Qed.
Lemma ring_head : head ∉ l.
Proof. rewrite ring_elem. unfold head. lia. Qed.
Lemma ring_length : length l = NBUF.
Proof. by rewrite (bo_perm _ _ _ Hok), length_seq. Qed.
Lemma ring_nodup : NoDup l.
Proof. rewrite (bo_perm _ _ _ Hok). apply NoDup_seq. Qed.

Lemma find_block i s :
  (i < NBUF)%nat -> dev (bufs c i) = ROOTDEV -> sector (bufs c i) = s -> find (is_block c ROOTDEV s) l = Some i.
Proof.
  intros Hi Hd Hs. destruct (find (is_block c ROOTDEV s) l) as [j|] eqn:E.
  - apply find_some in E as [Hj Hb]. apply list_elem_of_In, ring_elem in Hj.
    apply andb_true_iff in Hb as [H1%Z.eqb_eq H2%Z.eqb_eq]. f_equal. apply (bo_unique _ _ _ Hok); congruence.
  - eapply find_none in E; [|apply list_elem_of_In, ring_elem; exact Hi]. unfold is_block in E.
    by rewrite Hd, Hs, !Z.eqb_refl in E.
Qed.

Lemma find_no_block s :
  find (is_block c ROOTDEV s) l = None -> forall i, (i < NBUF)%nat -> dev (bufs c i) = ROOTDEV -> sector (bufs c i) <> s.
Proof. intros E i Hi Hd Hs. by rewrite (find_block i s Hi Hd Hs) in E. Qed.

Lemma held_of i s x : bv_held v !! i = Some (s, x) ->
  (i < NBUF)%nat /\ dev (bufs c i) = ROOTDEV /\ sector (bufs c i) = s /\ bytes_ (bufs c i) = x /\
  0 <= s < bv_size v /\ length x = Z.to_nat BSIZE /\
  exists dirty, flags (bufs c i) = flags_of true true dirty /\ (dirty = true <-> s ∈ dom (bv_dirty v)).
Proof.
  intros Hh. assert (Hi : (i < NBUF)%nat).
  { destruct (decide (i < NBUF)%nat); [done|]. rewrite (bo_held _ _ _ Hok) in Hh by lia. done. }
  destruct (bo_bst _ _ _ Hok i Hi) as (busy & valid & dirty & Hf & Hb & Hd & Hbd & Hv). rewrite Hh in Hb.
  destruct busy; [|done]. injection Hb as -> ->. rewrite (Hbd eq_refl) in *. destruct Hv as (H1 & H2 & H3 & _).
  split_and!; try done; try lia. exists dirty. split; [done|]. rewrite Hd. tauto.
Qed.

(** With no clean buffer, the dirty and held sectors take up all buffers. *)
Lemma no_clean_full :
  find (is_clean c) (rev l) = None -> (NBUF <= size (dom (bv_dirty v) ∪ held_sectors v))%nat.
Proof.
  intros E.
  assert (Hall : forall i, (i < NBUF)%nat -> dev (bufs c i) = ROOTDEV /\ sector (bufs c i) ∈ dom (bv_dirty v) ∪ held_sectors v).
  { intros i Hi. eapply find_none in E; [|apply in_rev; rewrite rev_involutive; apply list_elem_of_In, ring_elem; exact Hi].
    destruct (bo_bst _ _ _ Hok i Hi) as (busy & valid & dirty & Hf & Hb & Hd & Hbd & Hv).
    destruct (flags_ops busy valid dirty) as (F1 & _ & F3 & _). unfold is_clean in E. rewrite Hf, F1, F3 in E.
    destruct busy.
    - rewrite (Hbd eq_refl) in Hv. split; [tauto|]. apply elem_of_union_r, elem_of_held_sectors. eauto.
    - destruct dirty; [|done]. destruct (proj1 Hd eq_refl). split; [done|]. by apply elem_of_union_l. }
  transitivity (size (list_to_set (C := gset Z) (map (fun i => sector (bufs c i)) (seq 0 NBUF)))).
  - rewrite size_list_to_set; [by rewrite length_map, length_seq|]. apply NoDup_fmap_2_strong; [|apply NoDup_seq].
    intros i j Hi%elem_of_seq Hj%elem_of_seq Hs. apply (bo_unique _ _ _ Hok); [lia|lia|by apply Hall; lia|by apply Hall; lia|done].
  - apply subseteq_size. intros s Hs. apply elem_of_list_to_set, list_elem_of_fmap in Hs as (i & -> & Hi%elem_of_seq).
    apply Hall. lia.
Qed.

Lemma b_acquire_run : b_acquire c = Ok tt (set_bc_lock true c).
Proof. apply acquire_ok, (bo_lock _ _ _ Hok). Qed.

(** The searches of [bget], with the lock held. *)
Lemma bget_searches dv s :
  bget_find (S NBUF) (next (bufs c head)) dv s (set_bc_lock true c) =
    Ok (find (is_block c dv s) l) (set_bc_lock true c) /\
  bget_recycle (S NBUF) (prev (bufs c head)) (set_bc_lock true c) =
    Ok (find (is_clean c) (rev l)) (set_bc_lock true c).
Proof.
  split.
  - apply (bget_find_run (set_bc_lock true c) head l dv s); [apply Hok|apply ring_head|rewrite ring_length; lia].
  - apply (bget_recycle_run (set_bc_lock true c) head (rev l)).
    + pose proof (linked_rev _ _ _ (bo_ring _ _ _ Hok)) as Hr. cbn [rev] in Hr. rewrite rev_app_distr in Hr. exact Hr.
    + rewrite list_elem_of_In, <- in_rev, <- list_elem_of_In. apply ring_head.
    + rewrite length_rev, ring_length. lia.
Qed.
End Operations.

(** Running the accesses to a buffer. *)
Lemma getb_ok i c : getb i c = Ok (bufs c i) c. Proof. done. Qed.
Lemma updb_ok i f c : updb i f c = Ok tt (set_bufs (<[i := f (bufs c i)]> (bufs c)) c). Proof. done. Qed.
Lemma b_release_run c : bc_lock c = true -> b_release c = Ok tt (set_bc_lock false c).
Proof. apply release_ok. Qed.
#[export] Hint Resolve getb_ok updb_ok : mrun.
Ltac b_simpl := cbn [bc_lock bufs memdisk disksize io set_bc_lock set_bufs disk_write flags dev sector prev next bytes_
  set_flags set_dev set_sector set_prev set_next set_bytes bv_size bv_disk bv_dirty bv_held bv_hist bv_hold bv_drop bv_mark bv_write].

Lemma bget_hit c v l i s :
  bc_ok c v l -> (i < NBUF)%nat -> dev (bufs c i) = ROOTDEV -> sector (bufs c i) = s -> s ∉ held_sectors v ->
  exists c', bget ROOTDEV s c = Ok i c' /\ bc_ok c' (bv_hold i s (content v s) v) l /\
    has (bufs c' i) B_VALID = true.
Proof.
  intros Hok Hi Hdv Hs Hnh. unfold bget. mstep (b_acquire_run c v l Hok). mrun1. b_simpl.
  mstep (proj1 (bget_searches c v l Hok ROOTDEV s)). rewrite (find_block c v l Hok i s Hi Hdv Hs). mrun1. b_simpl.
  destruct (bo_bst _ _ _ Hok i Hi) as (busy & valid & dirty & Hf & Hb & Hd & Hbd & Hv).
  destruct (flags_ops busy valid dirty) as (F1 & _ & _ & _ & F5 & _).
  assert (busy = false) as ->.
  { destruct busy; [|done]. exfalso. apply Hnh, elem_of_held_sectors. rewrite <- Hs. eauto. }
  destruct valid; [|done]. destruct Hv as (H1 & H2 & H3 & H4). specialize (H4 eq_refl).
  unfold has. rewrite Hf, F1. cbn [truth negb Z.eqb]. mrun1. erewrite bind_ok by (by apply b_release_run).
  eexists. split; [reflexivity|]. b_simpl. rewrite fn_lookup_insert. b_simpl. rewrite F5. split.
  - eapply (bc_ok_upd c v l i (set_flags (flags_of true true dirty) (bufs c i))); try done; try apply Hok; b_simpl.
    + exists true, true, dirty. b_simpl. rewrite lookup_insert_eq, <- Hs, <- H4. split_and!; try done; lia.
    + by rewrite fn_lookup_insert.
    + intros j Hj. by rewrite fn_lookup_insert_ne.
    + intros j Hj. by rewrite lookup_insert_ne.
    + intros s'. by right.
    + b_simpl. intros s' x Hx. destruct (bo_dirty _ _ _ Hok s' x Hx) as (Hlx & _). split; [done|].
      destruct (decide (s' = s)) as [->|Hne]; [by left|right]. exists x. split; [done|left]. congruence.
    + intros _ j Hj Hjn Hdj. b_simpl. intros E. apply Hj. by apply (bo_unique _ _ _ Hok).
  - by destruct dirty.
Qed.

(** Replacing a buffer several times. *)
Ltac fn_simpl := repeat (rewrite fn_lookup_insert || rewrite fn_lookup_insert_ne by done); b_simpl.

(** [c'] is [c] with buffer [i] replaced by [b]. *)
Definition replaced (c c' : bcache) (i : nat) (b : buf) : Prop :=
  bc_lock c' = bc_lock c /\ bufs c' i = b /\ (forall j, j <> i -> bufs c' j = bufs c j) /\
  memdisk c' = memdisk c /\ disksize c' = disksize c /\ io c' = io c.

Lemma bget_miss c v l s i :
  bc_ok c v l -> find (is_block c ROOTDEV s) l = None -> find (is_clean c) (rev l) = Some i ->
  exists c', bget ROOTDEV s c = Ok i c' /\
    replaced c c' i (mkBuf B_BUSY ROOTDEV s (prev (bufs c i)) (next (bufs c i)) (bytes_ (bufs c i))).
Proof.
  intros Hok Ef Er. unfold bget. mstep (b_acquire_run c v l Hok). mrun1. b_simpl.
  mstep (proj1 (bget_searches c v l Hok ROOTDEV s)). rewrite Ef. mrun1. b_simpl.
  mstep (proj2 (bget_searches c v l Hok ROOTDEV s)). rewrite Er. mrun1. mrun1. mrun1. b_simpl.
  erewrite bind_ok by (by apply b_release_run). eexists. split; [reflexivity|]. unfold replaced. b_simpl. fn_simpl.
  split_and!; try done; [by rewrite (bo_lock _ _ _ Hok)|]. intros j Hj. by fn_simpl.
Qed.

Lemma iderw_read c i :
  flags (bufs c i) = B_BUSY -> dev (bufs c i) = ROOTDEV -> sector (bufs c i) < disksize c ->
  exists c', iderw i c = Ok tt c' /\
    replaced c c' i (set_flags (flags_of true true false) (set_bytes (memdisk c (sector (bufs c i))) (bufs c i))).
Proof.
  intros Hf Hd Hs. unfold iderw, has. mrun1. rewrite Hf, Hd.
  change (truth (Z.land B_BUSY B_BUSY)) with true. change (Z.land B_BUSY (Z.lor B_VALID B_DIRTY) =? B_VALID) with false.
  change (ROOTDEV =? 1) with true. change (truth (Z.land B_BUSY B_DIRTY)) with false. cbn [negb].
  mrun1. rewrite (proj2 (Z.leb_gt _ _)) by lia. mrun1. rewrite updb_ok. eexists. split; [reflexivity|].
  unfold replaced. b_simpl. fn_simpl. rewrite Hf. split_and!; try done. intros j Hj. by fn_simpl.
Qed.

(** Writing a busy, valid buffer; it comes out clean. *)
Lemma iderw_write c i :
  flags (bufs c i) = flags_of true true true -> dev (bufs c i) = ROOTDEV -> sector (bufs c i) < disksize c ->
  exists c', iderw i c = Ok tt c' /\ replaced (disk_write (sector (bufs c i)) (bytes_ (bufs c i)) c) c' i
    (set_flags (flags_of true true false) (bufs c i)).
Proof.
  intros Hf Hd Hs. unfold iderw, has. mrun1. rewrite Hf, Hd. change (ROOTDEV =? 1) with true.
  change (truth (Z.land (flags_of true true true) B_BUSY)) with true.
  change (Z.land (flags_of true true true) (Z.lor B_VALID B_DIRTY) =? B_VALID) with false.
  change (truth (Z.land (flags_of true true true) B_DIRTY)) with true. cbn [negb].
  mrun1. rewrite (proj2 (Z.leb_gt _ _)) by lia. rewrite bind_assoc_run. mrun1. mrun1. rewrite updb_ok.
  eexists. split; [reflexivity|]. unfold replaced. b_simpl. fn_simpl. split_and!; try done.
  intros j Hj. by fn_simpl.
Qed.

Lemma dirty_cached c v l s :
  bc_ok c v l -> find (is_block c ROOTDEV s) l = None -> s ∉ dom (bv_dirty v).
Proof.
  intros Hok Ef [x Hx]%elem_of_dom. destruct (bo_dirty _ _ _ Hok s x Hx) as (_ & i & Hi & Hd & Hsi).
  by apply (find_no_block c v l Hok s Ef i Hi Hd).
Qed.

Lemma bread_run c v l s :
  bc_ok c v l -> 0 <= s < bv_size v -> s ∉ held_sectors v ->
  (find (is_block c ROOTDEV s) l = None -> is_Some (find (is_clean c) (rev l))) ->
  exists i c', bread ROOTDEV s c = Ok i c' /\ bv_held v !! i = None /\ bc_ok c' (bv_hold i s (content v s) v) l.
Proof.
  intros Hok Hs Hnh Hroom. destruct (find (is_block c ROOTDEV s) l) as [i|] eqn:Ef.
  - pose proof Ef as Ef'. apply find_some in Ef' as [Hi Hb]. apply list_elem_of_In, (ring_elem c v l Hok) in Hi.
    apply andb_true_iff in Hb as [H1%Z.eqb_eq H2%Z.eqb_eq].
    destruct (bget_hit c v l i s Hok Hi H1 H2 Hnh) as (c' & E & Hok' & Hval). exists i, c'. split_and!; [|..|done].
    + unfold bread. mstep E. mrun1. rewrite Hval. cbn [negb when]. mrun1. done.
    + destruct (bo_bst _ _ _ Hok i Hi) as (busy & ? & ? & _ & Hb & _). destruct busy; [|done].
      exfalso. apply Hnh, elem_of_held_sectors. rewrite <- H2. eauto.
  - pose proof (find_no_block c v l Hok s Ef) as Hno.
    pose proof (dirty_cached c v l s Hok Ef) as Hnd.
    assert (Hc : content v s = memdisk c s).
    { unfold content. apply not_elem_of_dom in Hnd. rewrite Hnd, (bo_disk _ _ _ Hok). done. }
    destruct (Hroom eq_refl) as [i Er]. pose proof Er as Er'. apply find_some in Er' as [Hi Hcl]. apply in_rev, list_elem_of_In, (ring_elem c v l Hok) in Hi.
    destruct (bo_bst _ _ _ Hok i Hi) as (busy & valid & dirty & Hf & Hb & Hd & Hbd & Hv).
    destruct (flags_ops busy valid dirty) as (F1 & _ & F3 & _).
    unfold is_clean in Hcl. rewrite Hf, F1, F3 in Hcl. destruct busy; [done|]. destruct dirty; [done|].
    destruct (bget_miss c v l s i Hok Ef Er) as (c1 & E1 & (L1 & B1 & O1 & M1 & D1 & I1)).
    destruct (iderw_read c1 i) as (c2 & E2 & (L2 & B2 & O2 & M2 & D2 & I2)).
    { by rewrite B1. } { by rewrite B1. } { rewrite B1, D1, <- (bo_size _ _ _ Hok). b_simpl. lia. }
    rewrite B1 in B2. b_simpl. cbn [sector] in B2. rewrite M1 in B2.
    exists i, c2. split_and!; [|done|].
    + unfold bread. mstep E1. mrun1. rewrite B1. unfold has. b_simpl.
      change (truth (Z.land B_BUSY B_VALID)) with false. cbn [negb when]. mstep E2. done.
    + eapply (bc_ok_upd c v l i (bufs c2 i) (bv_hold i s (content v s) v) c2 Hok Hi); rewrite ?B2; b_simpl.
      * exists true, true, false. b_simpl. rewrite lookup_insert_eq, Hc.
        assert (length (memdisk c s) = Z.to_nat BSIZE) by (apply (bo_blocks _ _ _ Hok); rewrite <- (bo_size _ _ _ Hok); done).
        split_and!; try done; try lia. split; [done|by intros [_ ?]].
      * rewrite L2, L1. apply Hok.
      * done.
      * intros j Hj. rewrite O2, O1 by done. done.
      * by rewrite D2.
      * done.
      * done.
      * done.
      * rewrite M2, M1. apply Hok.
      * rewrite I2, I1. apply Hok.
      * intros s' Hs'. rewrite M2, M1. by apply (bo_blocks _ _ _ Hok).
      * intros j Hj. by rewrite lookup_insert_ne.
      * intros s'. by right.
      * intros s' x Hx. destruct (bo_dirty _ _ _ Hok s' x Hx) as (Hlx & j & Hj & Hdj & Hsj). split; [done|]. right.
        exists x. split; [done|]. destruct valid; [|by right]. left. intros E. destruct Hv as (Hv1 & _).
        destruct Hd as [_ Hd]. discriminate Hd. split; [done|]. rewrite E. apply elem_of_dom. eauto.
      * intros _ j Hj Hjn Hdj. by apply Hno.
Qed.

Lemma room_clean c v l s :
  bc_ok c v l -> s ∉ held_sectors v -> buf_room v s ->
  find (is_block c ROOTDEV s) l = None -> is_Some (find (is_clean c) (rev l)).
Proof.
  intros Hok Hnh Hroom Ef. pose proof (dirty_cached c v l s Hok Ef) as Hnd.
  destruct (find (is_clean c) (rev l)) as [i|] eqn:Er; [by exists i|].
  exfalso. apply (no_clean_full c v l Hok) in Er. unfold buf_room in Hroom.
  rewrite size_union, size_singleton in Hroom by set_solver. lia.
Qed.

Lemma bwrite_run c v l i s x :
  bc_ok c v l -> bv_held v !! i = Some (s, x) ->
  exists c', bwrite i c = Ok tt c' /\ bc_ok c' (bv_write s x v) l.
Proof.
  intros Hok Hh. destruct (held_of c v l Hok i s x Hh) as (Hi & Hd & Hs & Hx & Hr & Hlen & dirty & Hf & Hdi).
  destruct (flags_ops true true dirty) as (F1 & _ & _ & _ & _ & _ & F7 & _).
  unfold bwrite. mrun1. rewrite Hf, F1, F7. cbn [Z.eqb]. mrun1. set (c1 := set_bufs _ c).
  assert (Hb1 : bufs c1 i = set_flags (flags_of true true true) (bufs c i)) by (unfold c1; b_simpl; by rewrite fn_lookup_insert).
  destruct (iderw_write c1 i) as (c2 & E2 & (L2 & B2 & O2 & M2 & D2 & I2)).
  { by rewrite Hb1. } { by rewrite Hb1. } { rewrite Hb1. b_simpl. unfold c1. b_simpl. rewrite Hs, <- (bo_size _ _ _ Hok). lia. }
  rewrite Hb1 in B2, M2, I2. cbn [sector bytes_ set_flags] in M2, I2. rewrite Hs, Hx in M2, I2.
  exists c2. split; [exact E2|].
  eapply (bc_ok_upd c v l i (bufs c2 i) (bv_write s x v) c2 Hok Hi); rewrite ?B2; b_simpl; try done.
  - exists true, true, false. b_simpl. rewrite Hs, Hx, Hh, dom_delete_L.
    split_and!; try done; try lia. set_solver.
  - rewrite L2. apply Hok.
  - intros j Hj. rewrite O2 by done. unfold c1. b_simpl. by rewrite fn_lookup_insert_ne.
  - rewrite M2. b_simpl. unfold c1. b_simpl. by rewrite (bo_disk _ _ _ Hok).
  - rewrite I2. b_simpl. unfold c1. b_simpl. by rewrite (bo_hist _ _ _ Hok).
  - intros s' Hs'. rewrite M2. unfold c1. b_simpl. destruct (decide (s = s')) as [<-|Hne].
    + by rewrite fn_lookup_insert.
    + rewrite fn_lookup_insert_ne by done. by apply (bo_blocks _ _ _ Hok).
  - intros s'. destruct (decide (s' = s)) as [->|Hne]; [left; by rewrite Hs|right]. unfold content. b_simpl.
    rewrite fn_lookup_insert_ne, lookup_delete_ne by done. split; [|done]. rewrite dom_delete_L. set_solver.
  - intros s' y [Hne Hy]%lookup_delete_Some. destruct (bo_dirty _ _ _ Hok s' y Hy) as (Hly & _). split; [done|].
    right. exists y. split; [done|]. left. congruence.
  - intros _ j Hj Hjn Hdj E. apply Hj. by apply (bo_unique _ _ _ Hok).
Qed.

(** A store into the data of a held buffer. *)
Lemma set_bytes_run c v l i s x y :
  bc_ok c v l -> bv_held v !! i = Some (s, x) -> length y = Z.to_nat BSIZE ->
  exists c', updb i (set_bytes y) c = Ok tt c' /\ bc_ok c' (bv_hold i s y v) l.
Proof.
  intros Hok Hh Hy. destruct (held_of c v l Hok i s x Hh) as (Hi & Hd & Hs & Hx & Hr & Hlen & dirty & Hf & Hdi).
  eexists. split; [reflexivity|].
  eapply (bc_ok_upd c v l i (set_bytes y (bufs c i)) (bv_hold i s y v) _ Hok Hi); b_simpl; try done; try apply Hok.
  - exists true, true, dirty. b_simpl. rewrite lookup_insert_eq, Hs. split_and!; try done; try lia. rewrite Hdi. tauto.
  - by rewrite fn_lookup_insert.
  - intros j Hj. by rewrite fn_lookup_insert_ne.
  - intros j Hj. by rewrite lookup_insert_ne.
  - intros s'. by right.
  - intros s' z Hz. destruct (bo_dirty _ _ _ Hok s' z Hz) as (Hlz & _). split; [done|].
    destruct (decide (s' = s)) as [->|Hne]; [left; by rewrite Hs|right]. exists z. split; [done|left]. congruence.
  - intros _ j Hj Hjn Hdj E. apply Hj. by apply (bo_unique _ _ _ Hok).
Qed.

Lemma mark_dirty_run c v l i s x :
  bc_ok c v l -> bv_held v !! i = Some (s, x) ->
  exists c', updb i (fun b => set_flags (Z.lor (flags b) B_DIRTY) b) c = Ok tt c' /\ bc_ok c' (bv_mark s x v) l.
Proof.
  intros Hok Hh. destruct (held_of c v l Hok i s x Hh) as (Hi & Hd & Hs & Hx & Hr & Hlen & dirty & Hf & Hdi).
  destruct (flags_ops true true dirty) as (_ & _ & _ & _ & _ & _ & F7 & _).
  eexists. split; [reflexivity|].
  eapply (bc_ok_upd c v l i (set_flags (flags_of true true true) (bufs c i)) (bv_mark s x v) _ Hok Hi); b_simpl; try done; try apply Hok.
  - exists true, true, true. b_simpl. rewrite Hs, Hx, dom_insert_L. split_and!; try done; try lia. set_solver.
  - rewrite fn_lookup_insert, Hf. by rewrite F7.
  - intros j Hj. by rewrite fn_lookup_insert_ne.
  - intros s'. destruct (decide (s' = s)) as [->|Hne]; [left; by rewrite Hs|right]. unfold content. b_simpl.
    rewrite lookup_insert_ne by done. split; [|done]. rewrite dom_insert_L. set_solver.
  - intros s' z Hz. destruct (decide (s' = s)) as [->|Hne].
    + rewrite lookup_insert_eq in Hz. injection Hz as <-. split; [done|]. left. by rewrite Hs.
    + rewrite lookup_insert_ne in Hz by done. destruct (bo_dirty _ _ _ Hok s' z Hz) as (Hlz & _). split; [done|].
      right. exists z. split; [done|left]. congruence.
  - intros _ j Hj Hjn Hdj E. apply Hj. by apply (bo_unique _ _ _ Hok).
Qed.

(** ** The links of updated buffers *)

Section Links.
Context (f : nat -> buf) (i : nat).
Lemma next_set_next n j : next ((<[i := set_next n (f i)]> f) j) = (<[i := n]> (next ∘ f)) j.
Proof. destruct (decide (i = j)) as [<-|?]; by fn_simpl. Qed.
Lemma next_set_prev n j : next ((<[i := set_prev n (f i)]> f) j) = next (f j).
Proof. destruct (decide (i = j)) as [<-|?]; by fn_simpl. Qed.
Lemma prev_set_prev n j : prev ((<[i := set_prev n (f i)]> f) j) = (<[i := n]> (prev ∘ f)) j.
Proof. destruct (decide (i = j)) as [<-|?]; by fn_simpl. Qed.
Lemma prev_set_next n j : prev ((<[i := set_next n (f i)]> f) j) = prev (f j).
Proof. destruct (decide (i = j)) as [<-|?]; by fn_simpl. Qed.
(** Changing links changes nothing else. *)
Definition core (b : buf) : Z * Z * Z * block := (flags b, dev b, sector b, bytes_ b).
Lemma core_set_next n j : core ((<[i := set_next n (f i)]> f) j) = core (f j).
Proof. destruct (decide (i = j)) as [<-|?]; by fn_simpl. Qed.
Lemma core_set_prev n j : core ((<[i := set_prev n (f i)]> f) j) = core (f j).
Proof. destruct (decide (i = j)) as [<-|?]; by fn_simpl. Qed.
End Links.

Lemma core_eq b fl d s x : core b = (fl, d, s, x) -> flags b = fl /\ dev b = d /\ sector b = s /\ bytes_ b = x.
Proof. destruct b. unfold core. simpl. intros E. by simplify_eq. Qed.
Lemma core_same b b' : core b = core b' -> flags b = flags b' /\ dev b = dev b' /\ sector b = sector b' /\ bytes_ b = bytes_ b'.
Proof. apply core_eq. Qed.

Lemma fn_insert_ext (f g : nat -> nat) i n j : (forall x, f x = g x) -> (<[i := n]> f) j = (<[i := n]> g) j.
Proof. intros E. destruct (decide (i = j)) as [<-|?]; rewrite ?fn_lookup_insert, ?fn_lookup_insert_ne by done; done. Qed.

(** The six stores of brelse. *)
Definition relink (f : nat -> buf) (b : nat) : nat -> buf :=
  let f1 := <[next (f b) := set_prev (prev (f b)) (f (next (f b)))]> f in
  let f2 := <[prev (f1 b) := set_next (next (f1 b)) (f1 (prev (f1 b)))]> f1 in
  let f3 := <[b := set_next (next (f2 head)) (f2 b)]> f2 in
  let f4 := <[b := set_prev head (f3 b)]> f3 in
  let f5 := <[next (f4 head) := set_prev b (f4 (next (f4 head)))]> f4 in
  <[head := set_next b (f5 head)]> f5.

Lemma relink_links f b :
  next (f b) <> b -> b <> head ->
  let nx1 := <[prev (f b) := next (f b)]> (next ∘ f) in
  let pv1 := <[next (f b) := prev (f b)]> (prev ∘ f) in
  (forall j, next (relink f b j) = (<[head := b]> (<[b := nx1 head]> nx1)) j) /\
  (forall j, prev (relink f b j) = (<[nx1 head := b]> (<[b := head]> pv1)) j) /\
  (forall j, core (relink f b j) = core (f j)).
Proof.
  intros Hnb Hbh nx1 pv1. unfold relink. cbv zeta.
  set (f1 := <[next (f b) := set_prev (prev (f b)) (f (next (f b)))]> f).
  assert (E1 : f1 b = f b) by (unfold f1; by rewrite fn_lookup_insert_ne). rewrite E1.
  set (f2 := <[prev (f b) := set_next (next (f b)) (f1 (prev (f b)))]> f1).
  assert (N2 : forall j, next (f2 j) = nx1 j).
  { intros j. unfold f2. rewrite next_set_next. apply fn_insert_ext. intros x. unfold compose, f1. apply next_set_prev. }
  assert (P2 : forall j, prev (f2 j) = pv1 j) by (intros j; unfold f2; rewrite prev_set_next; unfold f1; apply prev_set_prev).
  set (f3 := <[b := set_next (next (f2 head)) (f2 b)]> f2).
  set (f4 := <[b := set_prev head (f3 b)]> f3).
  assert (N4 : forall j, next (f4 j) = (<[b := nx1 head]> nx1) j).
  { intros j. unfold f4. rewrite next_set_prev. unfold f3. rewrite next_set_next, N2. by apply fn_insert_ext. }
  assert (P4 : forall j, prev (f4 j) = (<[b := head]> pv1) j).
  { intros j. unfold f4. rewrite prev_set_prev. apply fn_insert_ext. intros x. unfold compose, f3. by rewrite prev_set_next. }
  assert (E4 : next (f4 head) = nx1 head) by (rewrite N4; by rewrite fn_lookup_insert_ne).
  rewrite E4. split_and!; intros j.
  - rewrite next_set_next. apply fn_insert_ext. intros x. unfold compose. by rewrite next_set_prev.
  - rewrite prev_set_next, prev_set_prev. by apply fn_insert_ext.
  - rewrite core_set_next, core_set_prev. unfold f4. rewrite core_set_prev. unfold f3. rewrite core_set_next.
    unfold f2. rewrite core_set_next. unfold f1. by rewrite core_set_prev.
Qed.

Lemma brelse_run c v l i s x :
  bc_ok c v l -> bv_held v !! i = Some (s, x) -> x = content v s ->
  exists c' l1 l2, l = l1 ++ i :: l2 /\ brelse i c = Ok tt c' /\ bc_ok c' (bv_drop i v) (i :: l1 ++ l2).
Proof.
  intros Hok Hh Hcx. destruct (held_of c v l Hok i s x Hh) as (Hi & Hd & Hs & Hx & Hr & Hlen & dirty & Hf & Hdi).
  destruct (flags_ops true true dirty) as (F1 & _ & _ & _ & _ & _ & _ & F8 & _).
  assert (Hil : i ∈ l) by (by apply (ring_elem c v l Hok)). apply list_elem_of_split in Hil as (l1 & l2 & Hl).
  pose proof (ring_nodup c v l Hok) as Hnd. pose proof (ring_head c v l Hok) as Hhd.
  pose proof (bo_ring _ _ _ Hok) as Hring. rewrite Hl in Hnd, Hhd, Hring.
  assert (Hndh : NoDup (head :: l1 ++ i :: l2)) by (by constructor).
  assert (Hih : i <> head) by (unfold head; lia).
  assert (Hnx : next (bufs c i) <> i).
  { rewrite <- app_assoc in Hring. cbn [app] in Hring.
    change (head :: l1 ++ i :: l2 ++ [head]) with ((head :: l1) ++ i :: l2 ++ [head]) in Hring.
    apply linked_app in Hring as [_ Hr2]. apply NoDup_app in Hnd as (_ & _ & Hn2). apply NoDup_cons in Hn2 as [Hn2 _].
    destruct l2 as [|y l2]; cbn in Hr2; unfold compose in Hr2; [destruct Hr2; congruence|].
    destruct Hr2 as (E & _). rewrite E. set_solver. }
  destruct (relink_links (bufs c) i Hnx Hih) as (RN & RP & RC).
  set (c2 := set_bc_lock false (set_bufs (<[i := set_flags (Z.land (flags (relink (bufs c) i i)) (Z.lnot B_BUSY)) (relink (bufs c) i i)]> (relink (bufs c) i)) c)).
  exists c2, l1, l2. split; [done|]. split.
  { unfold brelse. mrun1. rewrite Hf, F1. cbn [Z.eqb]. mstep (b_acquire_run c v l Hok).
    do 11 (mrun1; b_simpl). rewrite b_release_run by done. reflexivity. }
  assert (Hcore : forall j, j <> i -> core (bufs c2 j) = core (bufs c j)).
  { intros j Hj. unfold c2. b_simpl. rewrite fn_lookup_insert_ne by done. apply RC. }
  assert (Hself : core (bufs c2 i) = (flags_of false true dirty, ROOTDEV, s, x)).
  { unfold c2. b_simpl. rewrite fn_lookup_insert. unfold core at 1. b_simpl.
    destruct (core_same _ _ (RC i)) as (E1 & E2 & E3 & E4). rewrite E1, E2, E3, E4, Hf, F8, Hd, Hs, Hx. done. }
  assert (Hcd : forall j, dev (bufs c2 j) = dev (bufs c j) /\ sector (bufs c2 j) = sector (bufs c j)).
  { intros j. destruct (decide (j = i)) as [->|Hj].
    - destruct (core_eq _ _ _ _ _ Hself) as (_ & -> & -> & _). by rewrite Hd, Hs.
    - by destruct (core_same _ _ (Hcore j Hj)) as (_ & -> & -> & _). }
  split; try apply Hok.
  - done.
  - pose proof (ring_move (next ∘ bufs c) (prev ∘ bufs c) head l1 i l2 Hndh Hring) as Hm. cbv zeta in Hm.
    eapply (linked_frame _ _ _ _ (head :: i :: l1 ++ l2) head); [| |exact Hm]; intros j _; unfold compose at 1, c2; b_simpl.
    + rewrite <- RN. destruct (decide (i = j)) as [<-|?]; by fn_simpl.
    + rewrite <- RP. destruct (decide (i = j)) as [<-|?]; by fn_simpl.
  - rewrite <- (bo_perm _ _ _ Hok), Hl. apply Permutation_middle.
  - intros j Hj. destruct (decide (j = i)) as [->|Hne].
    + destruct (core_eq _ _ _ _ _ Hself) as (E1 & E2 & E3 & E4). exists false, true, dirty. rewrite E1, E2, E3, E4. b_simpl.
      rewrite lookup_delete_eq. split_and!; try done; try lia.
      * rewrite Hdi. tauto.
    + destruct (core_same _ _ (Hcore j Hne)) as (E1 & E2 & E3 & E4).
      destruct (bo_bst _ _ _ Hok j Hj) as (busy & valid & dirty' & Hf' & Hb' & Hd' & Hbd' & Hv').
      exists busy, valid, dirty'. rewrite E1, E2, E3, E4. b_simpl. rewrite lookup_delete_ne by done. done.
  - intros j Hj. b_simpl. apply lookup_delete_None. right. by apply (bo_held _ _ _ Hok).
  - intros a b. destruct (Hcd a) as [-> ->], (Hcd b) as [-> ->]. apply (bo_unique _ _ _ Hok).
  - intros s' y Hy. destruct (bo_dirty _ _ _ Hok s' y Hy) as (Hly & j & Hj & Hdj & Hsj). split; [done|].
    exists j. by destruct (Hcd j) as [-> ->].
Qed.

(** ** Initialisation *)

(** After [k] iterations of [binit]. *)
Record binit_inv (c0 c : bcache) (k : nat) : Prop := {
  bi_lock : bc_lock c = false;
  bi_ring : linked (next ∘ bufs c) (prev ∘ bufs c) (head :: rev (seq 0 k) ++ [head]);
  bi_flags : forall i, flags (bufs c i) = flags (bufs c0 i);
  bi_dev : forall i, (i < k)%nat -> dev (bufs c i) = u32 (-1);
  bi_rest : memdisk c = memdisk c0 /\ disksize c = disksize c0 /\ io c = io c0;
}.

Lemma binit_one_run c0 c k :
  binit_inv c0 c k -> (k < NBUF)%nat -> exists c', binit_one k c = Ok tt c' /\ binit_inv c0 c' (S k).
Proof.
  intros [Hl Hring Hf Hd (R1 & R2 & R3)] Hk. assert (Hkh : k <> head) by (unfold head; lia).
  unfold binit_one. do 5 (mrun1; b_simpl). mrun1. rewrite updb_ok. b_simpl. eexists. split; [reflexivity|].
  set (f := bufs c) in *. set (f1 := <[k := set_next (next (f head)) (f k)]> f).
  set (f2 := <[k := set_prev head (f1 k)]> f1). set (f3 := <[k := set_dev (u32 (-1)) (f2 k)]> f2).
  assert (Hh : f3 head = f head) by (unfold f3, f2, f1; by rewrite !fn_lookup_insert_ne by done). rewrite Hh.
  set (f4 := <[next (f head) := set_prev k (f3 (next (f head)))]> f3).
  assert (Hn3 : forall j, next (f3 j) = (<[k := next (f head)]> (next ∘ f)) j).
  { intros j. transitivity (next (f2 j)); [unfold f3; destruct (decide (k = j)) as [<-|?]; by fn_simpl|].
    unfold f2. rewrite next_set_prev. unfold f1. apply next_set_next. }
  assert (Hp3 : forall j, prev (f3 j) = (<[k := head]> (prev ∘ f)) j).
  { intros j. transitivity (prev (f2 j)); [unfold f3; destruct (decide (k = j)) as [<-|?]; by fn_simpl|].
    unfold f2. rewrite prev_set_prev. apply fn_insert_ext. intros x. unfold compose, f1. apply prev_set_next. }
  assert (Hfl : forall j, flags (f3 j) = flags (f j) /\ (j <> k -> dev (f3 j) = dev (f j)) /\ (j = k -> dev (f3 j) = u32 (-1))).
  { intros j. unfold f3, f2, f1. destruct (decide (k = j)) as [<-|?]; fn_simpl; done. }
  assert (Hf5 : forall j, core ((<[head := set_next k (f4 head)]> f4) j) = core (f3 j)).
  { intros j. rewrite core_set_next. unfold f4. apply core_set_prev. }
  split; b_simpl; try done.
  - assert (HF : exists n B, rev (seq 0 k) ++ [head] = n :: B) by (destruct (rev (seq 0 k)); simpl; eauto). destruct HF as (n & B & HF).
    assert (Hn : next (f head) = n) by (rewrite HF in Hring; by destruct Hring as (E & _)).
    assert (Hks : forall j, j ∈ rev (seq 0 k) -> (j < k)%nat) by (intros j; rewrite list_elem_of_In, <- in_rev, <- list_elem_of_In, elem_of_seq; lia).
    assert (Hhd : head ∉ rev (seq 0 k)) by (intros ?%Hks; unfold head in *; lia).
    rewrite seq_S, rev_app_distr. cbn [rev app plus].
    eapply (linked_frame _ _ _ _ (head :: k :: rev (seq 0 k)) head);
      [| |apply (linked_insert (next ∘ f) (prev ∘ f) head k (rev (seq 0 k)) head n B HF Hring)].
    + intros j _. unfold compose at 1. rewrite next_set_next. apply fn_insert_ext. intros x. unfold compose at 1, f4.
      rewrite next_set_prev, Hn3, Hn. done.
    + intros j _. unfold compose at 1. rewrite prev_set_next. unfold f4. rewrite prev_set_prev, Hn. by apply fn_insert_ext.
    + intros Hx. apply elem_of_cons in Hx as [?|Hx]; [done|]. apply elem_of_app in Hx as [?%Hks|Hx]; [lia|set_solver].
    + done.
    + assert (HN : NoDup (rev (seq 0 k) ++ [head])).
      { apply NoDup_app. split_and!; [apply NoDup_ListNoDup, NoDup_rev, NoDup_ListNoDup, NoDup_seq|set_solver|apply NoDup_singleton]. }
      rewrite HF in HN. by apply NoDup_cons in HN as [? _].
  - intros i. destruct (core_same _ _ (Hf5 i)) as (-> & _). destruct (Hfl i) as (-> & _). apply Hf.
  - intros i Hi. destruct (core_same _ _ (Hf5 i)) as (_ & -> & _). destruct (Hfl i) as (_ & E1 & E2).
    destruct (decide (i = k)) as [Hik|Hik]; [auto|]. rewrite E1 by done. apply Hd. lia.
Qed.

Lemma binit_loop c0 c k n :
  binit_inv c0 c k -> (k + n <= NBUF)%nat ->
  exists c', mfor (seq k n) binit_one c = Ok tt c' /\ binit_inv c0 c' (k + n).
Proof.
  revert c k. induction n as [|n IH]; intros c k Hi Hk; cbn [seq mfor].
  - exists c. by rewrite Nat.add_0_r.
  - destruct (binit_one_run c0 c k Hi ltac:(lia)) as (c1 & E1 & H1). mstep E1.
    destruct (IH c1 (S k) H1 ltac:(lia)) as (c2 & E2 & H2). exists c2. split; [done|]. by rewrite Nat.add_succ_r.
Qed.

(** The client's view of a cache that holds nothing. *)
Definition fresh_view (c : bcache) : bview := mkBview (disksize c) (memdisk c) ∅ ∅ (io c).

Lemma binit_run c :
  (forall i, flags (bufs c i) = 0) -> (forall s, 0 <= s < disksize c -> length (memdisk c s) = Z.to_nat BSIZE) ->
  exists c', binit c = Ok tt c' /\ bc_ok c' (fresh_view c) (rev (seq 0 NBUF)).
Proof.
  intros Hfl Hlen. unfold binit. mrun1. mrun1. mrun1. b_simpl.
  destruct (binit_loop c (set_bufs (<[head := set_next head (set_prev head (bufs c head))]> (<[head := set_prev head (bufs c head)]> (bufs c))) (set_bc_lock false c)) 0 NBUF)
    as (c' & E & [Hl Hr Hf Hd (R1 & R2 & R3)]); [|done|].
  - split; b_simpl; try done; [intros i; destruct (decide (head = i)) as [<-|?]; by fn_simpl|lia].
  - exists c'. rewrite fn_lookup_insert. split; [exact E|]. clear E.
    assert (Hdev : forall i, (i < NBUF)%nat -> dev (bufs c' i) <> ROOTDEV) by (intros i Hi; rewrite Hd by done; done).
    split; b_simpl; try done.
    + symmetry. apply Permutation_rev.
    + intros i Hi. exists false, false, false. rewrite Hf, Hfl. split_and!; try done.
      * split; [done|]. intros [Hx _]. by apply Hdev in Hx.
      * by apply Hdev.
    + intros i j Hi _ Hx. by apply Hdev in Hx.
    + intros s Hs. rewrite R1. apply Hlen. by rewrite <- R2.
Qed.

(** ** The interface *)

#[export] Program Instance bio_buffers : Buffers bcache := {|
  Interfaces.bread := bread;
  Interfaces.bwrite := bwrite;
  Interfaces.brelse := brelse;
  bdata i := b ← getb i; mret (bytes_ b);
  set_bdata i x := updb i (set_bytes x);
  bsector i := b ← getb i; mret (sector b);
  bdev i := b ← getb i; mret (dev b);
  mark_dirty i := updb i (fun b => set_flags (Z.lor (flags b) B_DIRTY) b);
  brep c v := exists l, bc_ok c v l;
|}.
Next Obligation.
  intros c v s [l Hok] Hs Hn Hr. destruct (bread_run c v l s Hok Hs Hn (room_clean c v l s Hok Hn Hr)) as (i & c' & E & Hi & Hok').
  exists i, c'. split_and!; [done|done|by exists l].
Qed.
Next Obligation.
  intros c v h s x [l Hok] Hh. destruct (bwrite_run c v l h s x Hok Hh) as (c' & E & Hok'). exists c'. split; [done|by exists l].
Qed.
Next Obligation.
  intros c v h s x [l Hok] Hh Hx. destruct (brelse_run c v l h s x Hok Hh Hx) as (c' & l1 & l2 & _ & E & Hok').
  exists c'. split; [done|]. by eexists.
Qed.
Next Obligation. intros c v h s x [l Hok] Hh. destruct (held_of c v l Hok h s x Hh) as (_ & _ & _ & <- & _). done. Qed.
Next Obligation.
  intros c v h s x y [l Hok] Hh Hy. destruct (set_bytes_run c v l h s x y Hok Hh Hy) as (c' & E & Hok'). exists c'. split; [done|by exists l].
Qed.
Next Obligation. intros c v h s x [l Hok] Hh. destruct (held_of c v l Hok h s x Hh) as (_ & _ & <- & _). done. Qed.
Next Obligation. intros c v h s x [l Hok] Hh. destruct (held_of c v l Hok h s x Hh) as (_ & <- & _). done. Qed.
Next Obligation.
  intros c v h s x [l Hok] Hh. destruct (mark_dirty_run c v l h s x Hok Hh) as (c' & E & Hok'). exists c'. split; [done|by exists l].
Qed.
Next Obligation.
  intros c v s [l Hok] Hs. unfold content. destruct (bv_dirty v !! s) as [x|] eqn:Hx; simpl.
  - by apply (bo_dirty _ _ _ Hok s x).
  - rewrite (bo_disk _ _ _ Hok). apply (bo_blocks _ _ _ Hok). by rewrite <- (bo_size _ _ _ Hok).
Qed.
Next Obligation.
  intros c v h s x [l Hok] Hh. destruct (held_of c v l Hok h s x Hh) as (Hi & Hd & Hs & _ & Hr & Hl & _). split_and!; [done|lia|lia|].
  intros h' x' Hh'. destruct (held_of c v l Hok h' s x' Hh') as (Hi' & Hd' & Hs' & _).
  apply (bo_unique _ _ _ Hok); congruence.
Qed.

(** ** Properties *)

Lemma bread_busy c v l i s x :
  bc_ok c v l -> bv_held v !! i = Some (s, x) -> bread ROOTDEV s c = Stop (SSleep (Z.of_nat i)) c.
Proof.
  intros Hok Hh. destruct (held_of c v l Hok i s x Hh) as (Hi & Hd & Hs & _ & _ & _ & dirty & Hf & _).
  destruct (flags_ops true true dirty) as (F1 & _). unfold bread. apply bind_stop. unfold bget.
  mstep (b_acquire_run c v l Hok). mrun1. b_simpl. mstep (proj1 (bget_searches c v l Hok ROOTDEV s)).
  rewrite (find_block c v l Hok i s Hi Hd Hs). mrun1. b_simpl. unfold has. rewrite Hf, F1. cbn [truth negb Z.eqb].
  erewrite bind_ok by (by apply b_release_run). unfold halt. f_equal. pose proof (bo_lock _ _ _ Hok).
  destruct c; simpl in *. by subst.
Qed.

Lemma bread_full c v l s :
  bc_ok c v l -> find (is_block c ROOTDEV s) l = None -> find (is_clean c) (rev l) = None ->
  bread ROOTDEV s c = Stop (SPanic "bget: no buffers") (set_bc_lock true c).
Proof.
  intros Hok Ef Er. unfold bread. apply bind_stop. unfold bget. mstep (b_acquire_run c v l Hok). mrun1. b_simpl.
  mstep (proj1 (bget_searches c v l Hok ROOTDEV s)). rewrite Ef. mrun1. b_simpl.
  mstep (proj2 (bget_searches c v l Hok ROOTDEV s)). by rewrite Er.
Qed.

(** [bread] is coherent: for a sector nobody holds it returns a buffer, now
    busy, with the current contents of the sector (the dirty block of the cache,
    else the block on disk) and the cache stays well formed, each sector in at
    most one buffer; for a sector that is held it waits for that buffer; it
    panics only when all NBUF buffers are busy or dirty. *)
Theorem bread_correct c v l s :
  bc_ok c v l -> 0 <= s < bv_size v ->
  (exists i x, bv_held v !! i = Some (s, x) /\ bread ROOTDEV s c = Stop (SSleep (Z.of_nat i)) c) \/
  ((s ∉ held_sectors v) /\ exists i c', bread ROOTDEV s c = Ok i c' /\ bv_held v !! i = None /\
     bc_ok c' (bv_hold i s (content v s) v) l) \/
  ((NBUF <= size (dom (bv_dirty v) ∪ held_sectors v))%nat /\
   bread ROOTDEV s c = Stop (SPanic "bget: no buffers") (set_bc_lock true c)).
Proof.
  intros Hok Hs. destruct (decide (s ∈ held_sectors v)) as [(i & x & Hx)%elem_of_held_sectors|Hn].
  { left. exists i, x. split; [done|]. by eapply bread_busy. }
  right. destruct (find (is_block c ROOTDEV s) l) as [i|] eqn:Ef.
  - left. split; [done|]. apply bread_run; [done|done|done|]. by rewrite Ef.
  - destruct (find (is_clean c) (rev l)) as [i|] eqn:Er.
    + left. split; [done|]. apply bread_run; [done|done|done|]. intros _. by exists i.
    + right. split; [by apply (no_clean_full c v l Hok)|by eapply bread_full].
Qed.

(** [brelse] of a held buffer whose data is the contents of its sector moves
    the buffer to the front of the doubly linked list, keeps the order of the
    others, and frees it. *)
Theorem brelse_correct c v l i s x :
  bc_ok c v l -> bv_held v !! i = Some (s, x) -> x = content v s ->
  exists c' l1 l2, l = l1 ++ i :: l2 /\ brelse i c = Ok tt c' /\ bc_ok c' (bv_drop i v) (i :: l1 ++ l2).
Proof. apply brelse_run. Qed.

(** [binit] links all buffers into a well-formed empty cache, the last
    buffer first. *)
Theorem binit_correct c :
  (forall i, flags (bufs c i) = 0) -> (forall s, 0 <= s < disksize c -> length (memdisk c s) = Z.to_nat BSIZE) ->
  exists c', binit c = Ok tt c' /\ bc_ok c' (fresh_view c) (rev (seq 0 NBUF)).
Proof. apply binit_run. Qed.

Lemma fresh_held c : held_sectors (fresh_view c) = ∅.
Proof. unfold held_sectors, fresh_view. b_simpl. by rewrite map_to_list_empty. Qed.

Lemma fresh_room c s : buf_room (fresh_view c) s.
Proof.
  unfold buf_room. rewrite fresh_held. unfold fresh_view. b_simpl.
  rewrite dom_empty_L, !union_empty_l_L, size_singleton. unfold NBUF. lia.
Qed.

(** ** Witnesses: a disk of four sectors *)

Definition disk4 : bcache :=
  mkBcache false (fun _ => mkBuf 0 0 0 0 0 []) (fun s => replicate 512 s) 4 [].

Lemma disk4_blocks s : 0 <= s < disksize disk4 -> length (memdisk disk4 s) = Z.to_nat BSIZE.
Proof. intros _. apply length_replicate. Qed.

Lemma binit_correct_witness : exists c', binit disk4 = Ok tt c' /\ bc_ok c' (fresh_view disk4) (rev (seq 0 NBUF)).
Proof. apply (binit_correct disk4); [done|apply disk4_blocks]. Defined.

Lemma bread_correct_witness :
  exists c i c', binit disk4 = Ok tt c /\ bread ROOTDEV 3 c = Ok i c' /\
    bc_ok c' (bv_hold i 3 (replicate 512 3) (fresh_view disk4)) (rev (seq 0 NBUF)).
Proof.
  destruct (binit_run disk4 ltac:(done) disk4_blocks) as (c & E & Hok).
  destruct (bread_correct c _ _ 3 Hok) as [(i & x & Hx & _)|[(_ & i & c' & R & _ & Hok')|(Hn & _)]].
  - cbn. lia.
  - change ((∅ : gmap nat (Z * block)) !! i = Some (3, x)) in Hx. rewrite lookup_empty in Hx. discriminate.
  - exists c, i, c'. split; [exact E|]. split; [exact R|]. exact Hok'.
  - exfalso. rewrite fresh_held in Hn. unfold fresh_view in Hn. cbn [bv_dirty] in Hn.
    rewrite dom_empty_L, union_empty_l_L, size_empty in Hn. unfold NBUF in Hn. lia.
Defined.

Lemma brelse_correct_witness :
  exists c c' l, bc_ok c' (bv_drop 0 (bv_hold 0 3 (replicate 512 3) (fresh_view disk4))) (0%nat :: l) /\ brelse 0 c = Ok tt c'.
Proof.
  destruct (binit_run disk4 ltac:(done) disk4_blocks) as (c & E & Hok).
  assert (Hn : 3 ∉ held_sectors (fresh_view disk4)) by (rewrite fresh_held; apply not_elem_of_empty).
  assert (Hs : 0 <= 3 < bv_size (fresh_view disk4)) by (cbn; lia).
  pose proof (room_clean c _ _ 3 Hok Hn (fresh_room disk4 3)) as Hr.
  destruct (bread_run c _ _ 3 Hok Hs Hn Hr) as (i & c1 & R & _ & Hok1).
  assert (i = 0%nat) as ->.
  { vm_compute in E. injection E as <-. vm_compute in R. by injection R. }
  destruct (brelse_correct c1 _ _ 0 3 (replicate 512 3) Hok1) as (c2 & l1 & l2 & _ & B & Hok2);
    [apply lookup_insert_eq|reflexivity|].
  exists c1, c2, (l1 ++ l2). split; [exact Hok2|exact B].
Defined.
