(* ===== verification/Log.v ===== *)
(** * log.c: the redo log

    Transactions of src/log.c over any buffer cache that meets the interface
    [Buffers].  The header block holds the int [n] at offset 0 and the sector
    numbers from offset 4.  A waiting begin_trans stops with [SSleep].  An
    index outside of [lh.sector] is undefined behaviour.

    The crash theorems use the list of writes the disk has received: a crash
    leaves the disk with a prefix of them. *)

From stdpp Require Import functions.
From S2P Require Import Prelude Interfaces Spinlock Bytes.

Definition LOGSIZE : Z := 10.

Section Log.
Context {C : Type} `{Buffers C}.

Record log := mkLog {
  lg_lock : bool;
  lg_start : Z;
  lg_size : Z;
  lg_busy : bool;
  lg_dev : Z;
  lh_n : Z;
  lh_sector : list Z;      (** LOGSIZE ints *)
  bc : C;
}.
Definition set_lg_lock b (l : log) := mkLog b (lg_start l) (lg_size l) (lg_busy l) (lg_dev l) (lh_n l) (lh_sector l) (bc l).
Definition set_lg_busy b (l : log) := mkLog (lg_lock l) (lg_start l) (lg_size l) b (lg_dev l) (lh_n l) (lh_sector l) (bc l).
Definition set_lh_n n (l : log) := mkLog (lg_lock l) (lg_start l) (lg_size l) (lg_busy l) (lg_dev l) n (lh_sector l) (bc l).
Definition set_lh_sector v (l : log) := mkLog (lg_lock l) (lg_start l) (lg_size l) (lg_busy l) (lg_dev l) (lh_n l) v (bc l).
Definition set_bc c (l : log) := mkLog (lg_lock l) (lg_start l) (lg_size l) (lg_busy l) (lg_dev l) (lh_n l) (lh_sector l) c.
Definition set_place start size (l : log) := mkLog (lg_lock l) start size (lg_busy l) ROOTDEV (lh_n l) (lh_sector l) (bc l).

Definition cache {A} (m : M C A) : M log A := zoom bc set_bc m.

(** [lh.sector[i]] and its assignment. *)
Definition sector_at (i : Z) : M log Z := fun l =>
  deref "log.lh.sector" (if 0 <=? i then lh_sector l !! Z.to_nat i else None) l.
Definition set_sector_at (i s : Z) : M log unit := fun l =>
  if (0 <=? i) && (i <? LOGSIZE) then Ok tt (set_lh_sector (<[Z.to_nat i := s]> (lh_sector l)) l)
  else undef "log.lh.sector" l.

(** The loop counters of the C code, [0 .. n-1]. *)
Definition upto (n : Z) : list Z := map Z.of_nat (seq 0 (Z.to_nat n)).

Definition install_one (tail : Z) : M log unit :=
  l ← get;
  lbuf ← cache (bread (lg_dev l) (lg_start l + tail + 1));
  s ← sector_at tail;
  dbuf ← cache (bread (lg_dev l) s);
  x ← cache (bdata lbuf);
  cache (set_bdata dbuf x);;
  cache (bwrite dbuf);;
  cache (brelse lbuf);;
  cache (brelse dbuf).
Definition install_trans : M log unit :=
  n ← gets lh_n; mfor (upto n) install_one.

(** The header block: [n] and [sector[i]]. *)
Definition hdr_n (x : block) : Z := i32 (get32 x 0).
Definition hdr_sector (x : block) (i : Z) : Z := i32 (get32 x (Z.to_nat (4 + 4 * i))).

Definition read_head : M log unit :=
  l ← get;
  buf ← cache (bread (lg_dev l) (lg_start l));
  x ← cache (bdata buf);
  modify (set_lh_n (hdr_n x));;
  mfor (upto (hdr_n x)) (fun i => set_sector_at i (hdr_sector x i));;
  cache (brelse buf).

Definition write_head : M log unit :=
  l ← get;
  buf ← cache (bread (lg_dev l) (lg_start l));
  x ← cache (bdata buf);
  cache (set_bdata buf (put32 x 0 (u32 (lh_n l))));;
  mfor (upto (lh_n l)) (fun i =>
    s ← sector_at i;
    x ← cache (bdata buf);
    cache (set_bdata buf (put32 x (Z.to_nat (4 + 4 * i)) (u32 s))));;
  cache (bwrite buf);;
  cache (brelse buf).

Definition recover_from_log : M log unit :=
  read_head;;
  install_trans;;
  modify (set_lh_n 0);;
  write_head.

(** readsb of fs.c: the four words of block 1. *)
Record superblock := mkSb { sb_size : Z; sb_nblocks : Z; sb_ninodes : Z; sb_nlog : Z }.
Definition readsb (dev : Z) : M log superblock :=
  bp ← cache (bread dev 1);
  x ← cache (bdata bp);
  cache (brelse bp);;
  mret (mkSb (get32 x 0) (get32 x 4) (get32 x 8) (get32 x 12)).

Definition initlog : M log unit :=
  if BSIZE <=? 4 + 4 * LOGSIZE then panic "initlog: too big logheader" else
  modify (set_lg_lock false);;
  sb ← readsb ROOTDEV;
  modify (set_place (i32 (sb_size sb ⊖ sb_nlog sb)) (i32 (sb_nlog sb)));;
  recover_from_log.

Definition l_acquire : M log unit := acquire lg_lock set_lg_lock.
Definition l_release : M log unit := release lg_lock set_lg_lock.

Definition begin_trans : M log unit :=
  l_acquire;;
  l ← get;
  if lg_busy l then l_release;; halt (SSleep 0)
  else modify (set_lg_busy true);; l_release.

Definition commit_trans : M log unit :=
  n ← gets lh_n;
  when (0 <? n) (write_head;; install_trans;; modify (set_lh_n 0);; write_head);;
  l_acquire;;
  modify (set_lg_busy false);;
  l_release.

(** The absorption loop: the first [i < n] with the sector, [n] if none. *)
Fixpoint find_sector (fuel : nat) (i n s : Z) : M log Z :=
  match fuel with
  | O => halt SFuel
  | S fuel => if i <? n then x ← sector_at i; if u32 x =? s then mret i else find_sector fuel (i + 1) n s
              else mret i
  end.

Definition log_write (b : nat) : M log unit :=
  l ← get;
  if (LOGSIZE <=? lh_n l) || (lg_size l - 1 <=? lh_n l) then panic "too big a transaction"
  else if negb (lg_busy l) then panic "write outside of trans"
  else
    s ← cache (bsector b);
    i ← find_sector (S (Z.to_nat LOGSIZE)) 0 (lh_n l) s;
    set_sector_at i s;;
    d ← cache (bdev b);
    lbuf ← cache (bread d (lg_start l + i + 1));
    x ← cache (bdata b);
    cache (set_bdata lbuf x);;
    cache (bwrite lbuf);;
    cache (brelse lbuf);;
    n ← gets lh_n;
    when (i =? n) (modify (fun l => set_lh_n (lh_n l + 1) l));;
    cache (mark_dirty b).
End Log.
Arguments log : clear implicits.

Ltac l_simpl := cbn [lg_lock lg_start lg_size lg_busy lg_dev lh_n lh_sector bc set_lg_lock set_lg_busy set_lh_n set_lh_sector set_bc set_place
  bv_size bv_disk bv_dirty bv_held bv_hist bv_hold bv_drop bv_mark bv_write].

(** ** Effects on the client's view *)

Section Effects.
Context {C : Type} `{Buffers C}.
Implicit Types (l : log C) (v : bview).

(** A sequence of writes, on the disk and on a view. *)
Definition apply_writes (ws : list (Z * block)) (d : Z -> block) : Z -> block :=
  foldl (fun d w => <[w.1 := w.2]> d) d ws.
Definition bv_writes (ws : list (Z * block)) v : bview := foldl (fun v w => bv_write w.1 w.2 v) v ws.

Lemma bv_writes_app ws ws' v : bv_writes (ws ++ ws') v = bv_writes ws' (bv_writes ws v).
Proof. apply foldl_app. Qed.
Lemma bv_writes_hist ws v : bv_hist (bv_writes ws v) = bv_hist v ++ ws.
Proof.
  revert v. induction ws as [|[s x] ws IH]; intros v; simpl; [by rewrite app_nil_r|].
  rewrite IH. l_simpl. by rewrite <- app_assoc.
Qed.
Lemma bv_writes_disk ws v : bv_disk (bv_writes ws v) = apply_writes ws (bv_disk v).
Proof. revert v. induction ws as [|[s x] ws IH]; intros v; simpl; [done|]. by rewrite IH. Qed.
Lemma bv_writes_held ws v : bv_held (bv_writes ws v) = bv_held v.
Proof. revert v. induction ws as [|[s x] ws IH]; intros v; simpl; [done|]. by rewrite IH. Qed.
Lemma bv_writes_size ws v : bv_size (bv_writes ws v) = bv_size v.
Proof. revert v. induction ws as [|[s x] ws IH]; intros v; simpl; [done|]. by rewrite IH. Qed.
Lemma bv_writes_dirty ws v s : bv_dirty (bv_writes ws v) !! s = if decide (s ∈ ws.*1) then None else bv_dirty v !! s.
Proof.
  revert v. induction ws as [|[s' x] ws IH]; intros v; simpl; [done|]. rewrite IH. l_simpl.
  destruct (decide (s = s')) as [->|Hne].
  - rewrite lookup_delete_eq. by repeat case_decide; set_solver.
  - rewrite lookup_delete_ne by done. repeat case_decide; set_solver.
Qed.
Lemma bv_writes_dom ws v : dom (bv_dirty (bv_writes ws v)) ⊆ dom (bv_dirty v).
Proof.
  intros s [x Hx]%elem_of_dom. rewrite bv_writes_dirty in Hx. case_decide; [done|]. apply elem_of_dom. eauto.
Qed.
Lemma held_same v v' : bv_held v' = bv_held v -> held_sectors v' = held_sectors v.
Proof. unfold held_sectors. by intros ->. Qed.

Lemma apply_writes_other ws d s : s ∉ ws.*1 -> apply_writes ws d s = d s.
Proof.
  revert d. induction ws as [|[s' x] ws IH]; intros d Hs; [done|]. simpl in *.
  rewrite IH by set_solver. apply fn_lookup_insert_ne. set_solver.
Qed.

Lemma cache_ok {A} (m : M C A) l a c' : m (bc l) = Ok a c' -> cache m l = Ok a (set_bc c' l).
Proof. intros E. unfold cache, zoom. by rewrite E. Qed.

(** Holding and dropping a buffer restores the view. *)
Lemma drop_hold h s x v : bv_held v !! h = None -> bv_drop h (bv_hold h s x v) = v.
Proof. intros Hh. unfold bv_drop, bv_hold. l_simpl. rewrite delete_insert_id by done. by destruct v. Qed.
Lemma hold_hold h s x y v : bv_hold h s x (bv_hold h s y v) = bv_hold h s x v.
Proof. unfold bv_hold. l_simpl. by rewrite insert_insert_eq. Qed.
Lemma write_hold h s x s' y v : bv_write s x (bv_hold h s' y v) = bv_hold h s' y (bv_write s x v).
Proof. done. Qed.
Lemma hold_other h h' s s' x y v : bv_held v !! h' = None -> h' <> h ->
  bv_drop h' (bv_hold h s x (bv_hold h' s' y v)) = bv_hold h s x v.
Proof.
  intros Hn Hne. unfold bv_drop, bv_hold. l_simpl. f_equal. rewrite insert_insert_ne, delete_insert_id; [done| |done].
  by rewrite lookup_insert_ne.
Qed.
Lemma content_hold h s x v s' : content (bv_hold h s x v) s' = content v s'.
Proof. done. Qed.
Lemma content_write s x v : content (bv_write s x v) s = x.
Proof. unfold content. l_simpl. by rewrite lookup_delete_eq, fn_lookup_insert. Qed.
Lemma content_write_other s x v s' : s' <> s -> content (bv_write s x v) s' = content v s'.
Proof. intros. unfold content. l_simpl. by rewrite lookup_delete_ne, fn_lookup_insert_ne by done. Qed.
Lemma held_hold h s x v : bv_held v !! h = None -> held_sectors (bv_hold h s x v) ≡ {[s]} ∪ held_sectors v.
Proof.
  intros Hh s'. rewrite elem_of_union, elem_of_singleton, !elem_of_held_sectors. l_simpl. split.
  - intros (h' & y & Hy). destruct (decide (h' = h)) as [->|Hne].
    + rewrite lookup_insert_eq in Hy. left. congruence.
    + rewrite lookup_insert_ne in Hy by done. eauto.
  - intros [->|(h' & y & Hy)]; [exists h, x; by rewrite lookup_insert_eq|].
    exists h', y. rewrite lookup_insert_ne; [done|]. congruence.
Qed.

(** *** The header block *)

Definition put_sectors (x : block) (secs : list Z) (i : Z) : block :=
  put32 x (Z.to_nat (4 + 4 * i)) (u32 (secs !!! Z.to_nat i)).
Definition hdr_block (x : block) (n : Z) (secs : list Z) : block :=
  foldl (fun x i => put_sectors x secs i) (put32 x 0 (u32 n)) (upto n).

Lemma upto_elem n i : i ∈ upto n <-> 0 <= i < n.
Proof.
  unfold upto. rewrite list_elem_of_fmap. split.
  - intros (k & -> & Hk%elem_of_seq). lia.
  - intros Hi. exists (Z.to_nat i). split; [lia|]. apply elem_of_seq. lia.
Qed.
Lemma upto_S (n : nat) : upto (Z.of_nat (S n)) = upto (Z.of_nat n) ++ [Z.of_nat n].
Proof. unfold upto. rewrite !Nat2Z.id, seq_S, map_app. done. Qed.

Lemma put_all_length x secs ks :
  length x = Z.to_nat BSIZE -> Forall (fun i => 0 <= i < LOGSIZE) ks ->
  length (foldl (fun x i => put_sectors x secs i) x ks) = Z.to_nat BSIZE.
Proof.
  intros Hx Hi. revert x Hx. induction Hi as [|i ks Hi Hks IH]; intros x Hx; [done|]. simpl. apply IH.
  unfold put_sectors. rewrite put32_length; [done|]. rewrite Hx. unfold BSIZE, LOGSIZE in *. lia.
Qed.

Lemma upto_bound n : n <= LOGSIZE -> Forall (fun i => 0 <= i < LOGSIZE) (upto n).
Proof. intros Hn. apply Forall_forall. intros i Hi%upto_elem. lia. Qed.

Lemma hdr_block_length x n secs : length x = Z.to_nat BSIZE -> n <= LOGSIZE -> length (hdr_block x n secs) = Z.to_nat BSIZE.
Proof.
  intros Hx Hn. unfold hdr_block. apply put_all_length; [|by apply upto_bound].
  rewrite put32_length; [done|]. rewrite Hx. unfold BSIZE. lia.
Qed.

(** What the loop leaves at the offset of [n] and of each sector. *)
Lemma put_all_get x secs (m : nat) :
  length x = Z.to_nat BSIZE -> Z.of_nat m <= LOGSIZE ->
  let y := foldl (fun x i => put_sectors x secs i) x (upto (Z.of_nat m)) in
  get32 y 0 = get32 x 0 /\ forall i, 0 <= i < Z.of_nat m -> get32 y (Z.to_nat (4 + 4 * i)) = u32 (secs !!! Z.to_nat i).
Proof.
  intros Hx. induction m as [|m IH]; intros Hm; cbv zeta; [split; [done|lia]|].
  destruct (IH ltac:(lia)) as [H0 Hi]. cbv zeta in *. rewrite upto_S, foldl_app. cbn [foldl].
  set (y := foldl (fun x i => put_sectors x secs i) x (upto (Z.of_nat m))) in *. assert (Hy : length y = Z.to_nat BSIZE) by (apply put_all_length; [done|apply upto_bound; lia]).
  unfold put_sectors, BSIZE, LOGSIZE in *. split.
  - rewrite get32_put32_other by lia. done.
  - intros i Hr. destruct (decide (i = Z.of_nat m)) as [->|Hne].
    + apply get32_put32; [lia|apply u32_range].
    + rewrite get32_put32_other by lia. apply Hi. lia.
Qed.

Lemma i32_u32 w : - 2 ^ 31 <= w < 2 ^ 31 -> i32 (u32 w) = w.
Proof. intros Hw. unfold i32, u32. rewrite Zplus_mod_idemp_l, Z.mod_small; lia. Qed.

Lemma hdr_block_n x n secs : length x = Z.to_nat BSIZE -> 0 <= n <= LOGSIZE -> hdr_n (hdr_block x n secs) = n.
Proof.
  intros Hx Hn. unfold hdr_n, hdr_block. rewrite <- (Z2Nat.id n) at 2 by lia.
  destruct (put_all_get (put32 x 0 (u32 n)) secs (Z.to_nat n)) as [E _].
  - rewrite put32_length; [done|]. rewrite Hx. unfold BSIZE. lia.
  - lia.
  - rewrite E, get32_put32; [|rewrite Hx; unfold BSIZE; lia|apply u32_range]. apply i32_u32. unfold LOGSIZE in Hn. lia.
Qed.

Lemma hdr_block_sector x n secs i s :
  length x = Z.to_nat BSIZE -> n <= LOGSIZE -> 0 <= i < n -> secs !! Z.to_nat i = Some s -> 0 <= s < 2 ^ 31 ->
  hdr_sector (hdr_block x n secs) i = s.
Proof.
  intros Hx Hn Hi Hs Hr. unfold hdr_sector, hdr_block. rewrite <- (Z2Nat.id n) at 2 by lia.
  destruct (put_all_get (put32 x 0 (u32 n)) secs (Z.to_nat n)) as [_ E].
  - rewrite put32_length; [done|]. rewrite Hx. unfold BSIZE. lia.
  - lia.
  - rewrite E by lia. rewrite (list_lookup_total_correct _ _ _ Hs). apply i32_u32. lia.
Qed.
End Effects.

Section Runs.
Context {C : Type} `{Buffers C}.
Implicit Types (l : log C) (v : bview).

Lemma sector_at_ok l i s : 0 <= i -> lh_sector l !! Z.to_nat i = Some s -> sector_at i l = Ok s l.
Proof. intros Hi Hs. unfold sector_at. rewrite (proj2 (Z.leb_le _ _) Hi), Hs. done. Qed.
Lemma set_sector_at_ok l i s :
  0 <= i < LOGSIZE -> set_sector_at i s l = Ok tt (set_lh_sector (<[Z.to_nat i := s]> (lh_sector l)) l).
Proof. intros [H1 H2]. unfold set_sector_at. by rewrite (proj2 (Z.leb_le _ _) H1), (proj2 (Z.ltb_lt _ _) H2). Qed.

Lemma write_head_loop l v h s x ks :
  brep (bc l) (bv_hold h s x v) -> length x = Z.to_nat BSIZE -> length (lh_sector l) = Z.to_nat LOGSIZE ->
  Forall (fun i => 0 <= i < LOGSIZE) ks ->
  exists c', mfor ks (fun i => s ← sector_at i; x ← cache (bdata h);
                               cache (set_bdata h (put32 x (Z.to_nat (4 + 4 * i)) (u32 s)))) l = Ok tt (set_bc c' l) /\
    brep c' (bv_hold h s (foldl (fun x i => put_sectors x (lh_sector l) i) x ks) v).
Proof.
  intros Hb Hx Hlen Hks. revert l x Hb Hx Hlen. induction Hks as [|i ks Hi Hks IH]; intros l x Hb Hx Hlen; cbn [mfor].
  - exists (bc l). split; [by destruct l|done].
  - destruct (lookup_lt_is_Some_2 (lh_sector l) (Z.to_nat i)) as [si Hsi]; [unfold LOGSIZE in *; lia|].
    rewrite bind_assoc_run. mstep (sector_at_ok l i si ltac:(lia) Hsi). rewrite bind_assoc_run.
    assert (Hh : bv_held (bv_hold h s x v) !! h = Some (s, x)) by (l_simpl; by rewrite lookup_insert_eq).
    mstep (cache_ok _ _ _ _ (bdata_spec _ _ _ _ _ Hb Hh)).
    destruct (set_bdata_spec _ _ h s x (put_sectors x (lh_sector l) i) Hb Hh) as (c1 & E1 & Hb1).
    { unfold put_sectors. rewrite put32_length; [done|]. rewrite Hx. unfold BSIZE, LOGSIZE in *. lia. }
    rewrite hold_hold in Hb1. unfold put_sectors in E1. rewrite (list_lookup_total_correct _ _ _ Hsi) in E1.
    erewrite bind_ok by (apply cache_ok; exact E1).
    destruct (IH (set_bc c1 (set_bc (bc l) l)) (put_sectors x (lh_sector l) i)) as (c2 & E2 & Hb2); [exact Hb1| |exact Hlen|].
    { unfold put_sectors. rewrite put32_length; [done|]. rewrite Hx. unfold BSIZE, LOGSIZE in *. lia. }
    exists c2. split; [exact E2|exact Hb2].
Qed.

Lemma write_head_run l v :
  brep (bc l) v -> lg_dev l = ROOTDEV -> 0 <= lg_start l < bv_size v -> lg_start l ∉ held_sectors v ->
  lg_start l ∉ dom (bv_dirty v) -> buf_room v (lg_start l) -> 0 <= lh_n l <= LOGSIZE ->
  length (lh_sector l) = Z.to_nat LOGSIZE ->
  exists c', write_head l = Ok tt (set_bc c' l) /\
    brep c' (bv_write (lg_start l) (hdr_block (bv_disk v (lg_start l)) (lh_n l) (lh_sector l)) v).
Proof.
  intros Hb Hd Hs Hnh Hnd Hroom Hn Hlen. unfold write_head. mrun1. rewrite Hd. set (st := lg_start l) in *.
  destruct (bread_spec _ _ st Hb Hs Hnh Hroom) as (h & c1 & E1 & Hh & Hb1).
  assert (Hc : content v st = bv_disk v st) by (unfold content; apply not_elem_of_dom in Hnd; by rewrite Hnd).
  rewrite Hc in Hb1. mstep (cache_ok _ _ _ _ E1). set (x := bv_disk v st) in *.
  assert (Hx : length x = Z.to_nat BSIZE) by (rewrite <- Hc; by apply (brep_length _ _ _ Hb)).
  assert (Hh1 : bv_held (bv_hold h st x v) !! h = Some (st, x)) by (l_simpl; by rewrite lookup_insert_eq).
  mstep (cache_ok _ _ _ _ (bdata_spec _ _ _ _ _ Hb1 Hh1 : bdata h (bc (set_bc c1 l)) = _)).
  destruct (set_bdata_spec _ _ h st x (put32 x 0 (u32 (lh_n l))) Hb1 Hh1) as (c2 & E2 & Hb2).
  { rewrite put32_length; [done|]. rewrite Hx. unfold BSIZE. lia. }
  rewrite hold_hold in Hb2. erewrite bind_ok by (apply cache_ok; exact E2). l_simpl.
  destruct (write_head_loop (set_bc c2 l) v h st (put32 x 0 (u32 (lh_n l))) (upto (lh_n l))) as (c3 & E3 & Hb3);
    [exact Hb2| |exact Hlen|apply upto_bound; lia|].
  { rewrite put32_length; [done|]. rewrite Hx. unfold BSIZE. lia. }
  fold (hdr_block x (lh_n l) (lh_sector l)) in Hb3. l_simpl. cbn [lh_sector set_bc] in Hb3.
  fold (hdr_block x (lh_n l) (lh_sector l)) in Hb3. set (y := hdr_block x (lh_n l) (lh_sector l)) in *.
  erewrite bind_ok by exact E3. l_simpl.
  assert (Hh3 : bv_held (bv_hold h st y v) !! h = Some (st, y)) by (l_simpl; by rewrite lookup_insert_eq).
  destruct (bwrite_spec _ _ h st y Hb3 Hh3) as (c4 & E4 & Hb4).
  erewrite bind_ok by (apply cache_ok; exact E4). rewrite write_hold in Hb4.
  destruct (brelse_spec _ _ h st y Hb4) as (c5 & E5 & Hb5); [l_simpl; by rewrite lookup_insert_eq|by rewrite content_hold, content_write|].
  rewrite drop_hold in Hb5 by done. exists c5. split; [|exact Hb5]. erewrite cache_ok by exact E5. done.
Qed.

(** The contents of the log block [tail]. *)
Definition log_block l v (i : Z) : block := bv_disk v (lg_start l + i + 1).

Lemma install_one_run l v i s :
  brep (bc l) v -> lg_dev l = ROOTDEV -> 0 <= i -> lh_sector l !! Z.to_nat i = Some s ->
  0 <= s < lg_start l -> 0 <= lg_start l + i + 1 < bv_size v ->
  (lg_start l + i + 1) ∉ held_sectors v -> (lg_start l + i + 1) ∉ dom (bv_dirty v) -> s ∉ held_sectors v ->
  (size (dom (bv_dirty v) ∪ held_sectors v ∪ {[(lg_start l + i + 1)%Z]} ∪ {[s]}) <= NBUF)%nat ->
  exists c', install_one i l = Ok tt (set_bc c' l) /\ brep c' (bv_write s (log_block l v i) v).
Proof.
  intros Hb Hd Hi Hsi Hs Hr Hnh Hnd Hsh Hroom. unfold install_one, log_block. mrun1. rewrite Hd. set (lb := lg_start l + i + 1) in *.
  destruct (bread_spec _ _ lb Hb Hr Hnh) as (h & c1 & E1 & Hh & Hb1).
  { unfold buf_room. etransitivity; [|exact Hroom]. apply subseteq_size. set_solver. }
  assert (Hc : content v lb = bv_disk v lb) by (unfold content; apply not_elem_of_dom in Hnd; by rewrite Hnd).
  rewrite Hc in Hb1. mstep (cache_ok _ _ _ _ E1). set (x := bv_disk v lb) in *.
  mstep (sector_at_ok (set_bc c1 l) i s Hi Hsi).
  pose proof (held_hold h lb x v Hh) as Hhs.
  destruct (bread_spec _ _ s Hb1) as (h2 & c2 & E2 & Hh2 & Hb2).
  { l_simpl. lia. } { rewrite Hhs. set_solver by lia. }
  { unfold buf_room. l_simpl. rewrite Hhs. etransitivity; [|exact Hroom]. apply subseteq_size. set_solver. }
  rewrite content_hold in Hb2. erewrite bind_ok by (apply cache_ok; exact E2).
  set (y := content v s) in *. cbn [bv_held bv_hold] in Hh2.
  assert (Hne : h2 <> h) by (intros ->; by rewrite lookup_insert_eq in Hh2).
  rewrite lookup_insert_ne in Hh2 by done.
  assert (Hx2 : bv_held (bv_hold h2 s y (bv_hold h lb x v)) !! h = Some (lb, x)) by (l_simpl; by rewrite lookup_insert_ne, lookup_insert_eq).
  assert (Hy2 : bv_held (bv_hold h2 s y (bv_hold h lb x v)) !! h2 = Some (s, y)) by (l_simpl; by rewrite lookup_insert_eq).
  destruct (brep_held _ _ _ _ _ Hb2 Hx2) as (Hxl & _).
  erewrite bind_ok by (apply cache_ok; exact (bdata_spec _ _ _ _ _ Hb2 Hx2)).
  destruct (set_bdata_spec _ _ h2 s y x Hb2 Hy2 Hxl) as (c3 & E3 & Hb3). rewrite hold_hold in Hb3.
  erewrite bind_ok by (apply cache_ok; exact E3).
  destruct (bwrite_spec _ _ h2 s x Hb3) as (c4 & E4 & Hb4); [l_simpl; by rewrite lookup_insert_eq|].
  rewrite !write_hold in Hb4. erewrite bind_ok by (apply cache_ok; exact E4).
  destruct (brelse_spec _ _ h lb x Hb4) as (c5 & E5 & Hb5).
  { l_simpl. by rewrite lookup_insert_ne, lookup_insert_eq. }
  { rewrite !content_hold, content_write_other by lia. by rewrite Hc. }
  rewrite hold_other in Hb5 by done. erewrite bind_ok by (apply cache_ok; exact E5).
  destruct (brelse_spec _ _ h2 s x Hb5) as (c6 & E6 & Hb6); [l_simpl; by rewrite lookup_insert_eq|by rewrite content_hold, content_write|].
  rewrite drop_hold in Hb6 by done. exists c6. split; [|done]. erewrite cache_ok by exact E6. done.
Qed.

(** What [install_trans] needs of index [i], whose sector is [s]. *)
Definition installable l v (i s : Z) : Prop :=
  0 <= i /\ lh_sector l !! Z.to_nat i = Some s /\ 0 <= s < lg_start l /\ lg_start l + i + 1 < bv_size v /\
  ((lg_start l + i + 1) ∉ held_sectors v) /\ ((lg_start l + i + 1) ∉ dom (bv_dirty v)) /\ (s ∉ held_sectors v) /\
  (size (dom (bv_dirty v) ∪ held_sectors v ∪ {[(lg_start l + i + 1)%Z]} ∪ {[s]}) <= NBUF)%nat.

Lemma installable_write l v i s s' x : installable l v i s -> installable l (bv_write s' x v) i s.
Proof.
  intros (H1 & H2 & H3 & H4 & H5 & H6 & H7 & H8).
  assert (Hsub : dom (bv_dirty (bv_write s' x v)) ⊆ dom (bv_dirty v)) by (l_simpl; rewrite dom_delete_L; set_solver).
  split_and!; try done; try lia; [set_solver|]. etransitivity; [|exact H8]. apply subseteq_size. set_solver.
Qed.

Lemma install_loop l v ks (f : Z -> Z) :
  brep (bc l) v -> lg_dev l = ROOTDEV -> Forall (fun i => installable l v i (f i)) ks ->
  exists c', mfor ks install_one l = Ok tt (set_bc c' l) /\
    brep c' (bv_writes (map (fun i => (f i, log_block l v i)) ks) v).
Proof.
  intros Hb Hd Hks. revert l v Hb Hd Hks. induction ks as [|i ks IH]; intros l v Hb Hd Hks; cbn [mfor].
  - exists (bc l). split; [by destruct l|done].
  - apply Forall_cons in Hks as [(H1 & H2 & H3 & H4 & H5 & H6 & H7 & H8) Hks].
    destruct (install_one_run l v i (f i) Hb Hd H1 H2 H3 ltac:(lia) H5 H6 H7 H8) as (c1 & E1 & Hb1). mstep E1.
    destruct (IH (set_bc c1 l) (bv_write (f i) (log_block l v i) v)) as (c2 & E2 & Hb2); [exact Hb1|exact Hd| |].
    { eapply Forall_impl; [exact Hks|]. intros j Hj. by apply installable_write. }
    exists c2. split; [exact E2|].
    replace (map (fun j => (f j, log_block (set_bc c1 l) (bv_write (f i) (log_block l v i) v) j)) ks)
      with (map (fun j => (f j, log_block l v j)) ks) in Hb2; [exact Hb2|].
    apply map_ext_in. intros j Hj%list_elem_of_In. rewrite Forall_forall in Hks. destruct (Hks j Hj) as (J1 & _).
    f_equal. unfold log_block. l_simpl. rewrite fn_lookup_insert_ne; [done|lia].
Qed.

(** The in-memory header after reading header block [x]. *)
Lemma read_head_loop l x ks :
  Forall (fun i => 0 <= i < LOGSIZE) ks -> length (lh_sector l) = Z.to_nat LOGSIZE ->
  exists secs, mfor ks (fun i => set_sector_at i (hdr_sector x i)) l = Ok tt (set_lh_sector secs l) /\
    length secs = Z.to_nat LOGSIZE /\ (forall i, i ∈ ks -> secs !! Z.to_nat i = Some (hdr_sector x i)) /\
    (forall i, 0 <= i -> i ∉ ks -> secs !! Z.to_nat i = lh_sector l !! Z.to_nat i).
Proof.
  intros Hks. revert l. induction Hks as [|k ks Hk Hks IH]; intros l Hl; cbn [mfor].
  - exists (lh_sector l). split_and!; [by destruct l|done|by intros i ?%not_elem_of_nil|done].
  - mstep (set_sector_at_ok l k (hdr_sector x k) Hk).
    destruct (IH (set_lh_sector (<[Z.to_nat k := hdr_sector x k]> (lh_sector l)) l)) as (secs & E & Hlen & Hin & Hout).
    { l_simpl. by rewrite length_insert. }
    exists secs. rewrite Forall_forall in Hks. split_and!; [exact E|done| |].
    + intros i [->|Hi]%elem_of_cons; [|auto]. destruct (decide (k ∈ ks)) as [?|Hn]; [auto|].
      rewrite Hout by (done || lia). l_simpl. apply list_lookup_insert_eq. unfold LOGSIZE in *. lia.
    + intros i Hi Hn. rewrite Hout by set_solver. l_simpl. apply list_lookup_insert_ne. intros E'.
      apply Hn. assert (k = i) as -> by lia. left.
Qed.

Lemma read_head_run l v :
  brep (bc l) v -> lg_dev l = ROOTDEV -> 0 <= lg_start l < bv_size v -> lg_start l ∉ held_sectors v ->
  buf_room v (lg_start l) -> hdr_n (content v (lg_start l)) <= LOGSIZE -> length (lh_sector l) = Z.to_nat LOGSIZE ->
  let x := content v (lg_start l) in
  exists c' secs, read_head l = Ok tt (set_bc c' (set_lh_sector secs (set_lh_n (hdr_n x) l))) /\ brep c' v /\
    length secs = Z.to_nat LOGSIZE /\ forall i, 0 <= i < hdr_n x -> secs !! Z.to_nat i = Some (hdr_sector x i).
Proof.
  intros Hb Hd Hs Hnh Hroom Hn Hlen x. unfold read_head. mrun1. rewrite Hd.
  destruct (bread_spec _ _ _ Hb Hs Hnh Hroom) as (h & c1 & E1 & Hh & Hb1). mstep (cache_ok _ _ _ _ E1). fold x in Hb1.
  erewrite bind_ok by (apply cache_ok; eapply (bdata_spec _ _ _ _ _ Hb1); l_simpl; by rewrite lookup_insert_eq).
  mrun1. destruct (read_head_loop (set_lh_n (hdr_n x) (set_bc c1 l)) x (upto (hdr_n x))) as (secs & E2 & Hls & Hin & _);
    [by apply upto_bound|exact Hlen|].
  mstep E2. destruct (brelse_spec _ _ h (lg_start l) x Hb1) as (c2 & E3 & Hb2); [l_simpl; by rewrite lookup_insert_eq|done|].
  rewrite drop_hold in Hb2 by done. exists c2, secs. split_and!; [|done|done|].
  - erewrite cache_ok by exact E3. done.
  - intros i Hi. apply Hin. by apply upto_elem.
Qed.

Lemma find_sector_run l s fuel (i n : Z) :
  0 <= i <= n -> n - i < Z.of_nat fuel -> (forall k, i <= k < n -> is_Some (lh_sector l !! Z.to_nat k)) ->
  exists j, find_sector fuel i n s l = Ok j l /\ i <= j <= n /\
    (j < n -> exists x, lh_sector l !! Z.to_nat j = Some x /\ u32 x = s) /\
    (forall k x, i <= k < j -> lh_sector l !! Z.to_nat k = Some x -> u32 x <> s).
Proof.
  revert i. induction fuel as [|fuel IH]; intros i Hi Hf Hall; [lia|]. cbn [find_sector].
  destruct (Z.ltb_spec i n) as [Hlt|Hge].
  - destruct (Hall i ltac:(lia)) as [x Hx]. mstep (sector_at_ok l i x ltac:(lia) Hx).
    destruct (Z.eqb_spec (u32 x) s) as [E|E].
    + exists i. split_and!; [done|lia|lia|eauto|lia].
    + destruct (IH (i + 1)) as (j & Ej & Hj & H1 & H2); [lia|lia|intros k Hk; apply Hall; lia|].
      exists j. split_and!; [done|lia|lia|done|]. intros k y Hk Hy. destruct (decide (k = i)) as [->|]; [congruence|].
      apply (H2 k y); [lia|done].
  - exists i. split_and!; [done|lia|lia|lia|lia].
Qed.

Lemma log_write_run l v b s x :
  brep (bc l) v -> lg_busy l = true -> 0 <= lh_n l < LOGSIZE -> lh_n l < lg_size l - 1 ->
  length (lh_sector l) = Z.to_nat LOGSIZE -> bv_held v !! b = Some (s, x) ->
  0 <= lg_start l -> lg_start l + lg_size l <= bv_size v ->
  (forall i, 0 <= i < lg_size l - 1 -> ((lg_start l + i + 1) ∉ held_sectors v) /\ buf_room v (lg_start l + i + 1)) ->
  exists i c', 0 <= i <= lh_n l /\
    (i < lh_n l -> exists y, lh_sector l !! Z.to_nat i = Some y /\ u32 y = s) /\
    (forall k y, 0 <= k < i -> lh_sector l !! Z.to_nat k = Some y -> u32 y <> s) /\
    log_write b l = Ok tt (set_bc c' (set_lh_n (if i =? lh_n l then lh_n l + 1 else lh_n l)
                                        (set_lh_sector (<[Z.to_nat i := s]> (lh_sector l)) l))) /\
    brep c' (bv_mark s x (bv_write (lg_start l + i + 1) x v)).
Proof.
  intros Hb Hbusy Hn Hsz Hlen Hh Hst Hend Hlog.
  destruct (find_sector_run l s (S (Z.to_nat LOGSIZE)) 0 (lh_n l)) as (i & Ef & Hi & Hfound & Hbefore).
  { lia. } { unfold LOGSIZE in *. lia. } { intros k Hk. apply lookup_lt_is_Some_2. unfold LOGSIZE in *. lia. }
  exists i. destruct (Hlog i ltac:(lia)) as [Hnl Hrl]. set (lb := lg_start l + i + 1) in *.
  unfold log_write. mrun1. rewrite (proj2 (Z.leb_gt _ _)), (proj2 (Z.leb_gt _ _)) by lia. rewrite Hbusy. cbn [orb negb].
  erewrite bind_ok by (apply cache_ok; exact (bsector_spec _ _ _ _ _ Hb Hh)).
  replace (set_bc (bc l) l) with l by (by destruct l). mstep Ef.
  mstep (set_sector_at_ok l i s ltac:(lia)). set (l1 := set_lh_sector (<[Z.to_nat i := s]> (lh_sector l)) l).
  erewrite bind_ok by (apply (cache_ok _ l1); exact (bdev_spec _ _ _ _ _ Hb Hh)).
  destruct (bread_spec _ _ lb Hb ltac:(unfold lb; lia) Hnl Hrl) as (h & c1 & E1 & Hhn & Hb1).
  erewrite bind_ok by (apply cache_ok; exact E1).
  assert (Hne : h <> b) by congruence. set (y := content v lb) in *.
  assert (Hb' : forall z w, bv_held (bv_hold h lb z w) !! b = bv_held w !! b) by (intros; l_simpl; by rewrite lookup_insert_ne).
  destruct (brep_held _ _ _ _ _ Hb Hh) as (Hxl & _).
  erewrite bind_ok by (apply cache_ok; eapply (bdata_spec _ _ b s x Hb1); by rewrite Hb').
  destruct (set_bdata_spec _ _ h lb y x Hb1) as (c2 & E2 & Hb2); [l_simpl; by rewrite lookup_insert_eq|done|].
  rewrite hold_hold in Hb2. erewrite bind_ok by (apply cache_ok; exact E2).
  destruct (bwrite_spec _ _ h lb x Hb2) as (c3 & E3 & Hb3); [l_simpl; by rewrite lookup_insert_eq|].
  rewrite write_hold in Hb3. erewrite bind_ok by (apply cache_ok; exact E3).
  destruct (brelse_spec _ _ h lb x Hb3) as (c4 & E4 & Hb4); [l_simpl; by rewrite lookup_insert_eq|by rewrite content_hold, content_write|].
  rewrite drop_hold in Hb4 by done. erewrite bind_ok by (apply cache_ok; exact E4).
  mrun1. destruct (mark_dirty_spec _ _ b s x Hb4) as (c5 & E5 & Hb5); [exact Hh|].
  exists c5. split_and!; [lia|lia|done|done| |exact Hb5].
  unfold l1. l_simpl. destruct (i =? lh_n l); cbn [when]; mrun1; erewrite cache_ok by exact E5; done.
Qed.
End Runs.

(** ** Transactions *)

Section Transactions.
Context {C : Type} `{Buffers C}.
Implicit Types (l : log C) (v : bview) (T : list (Z * block)).

(** The log in a transaction that has written the blocks [T], in log order, or
    between transactions with [T] empty: their copies are on disk in the log,
    they are dirty in the cache, and the header on disk is empty. *)
Record lrep l v T : Prop := {
  lr_rep : brep (bc l) v;
  lr_lock : lg_lock l = false;
  lr_dev : lg_dev l = ROOTDEV;
  lr_start : 0 < lg_start l;
  lr_end : lg_start l + lg_size l <= bv_size v;
  lr_big : bv_size v <= 2 ^ 31;
  lr_room : 0 < lg_size l;
  lr_n : lh_n l = Z.of_nat (length T);
  lr_max : lh_n l <= LOGSIZE /\ lh_n l <= lg_size l - 1;
  lr_len : length (lh_sector l) = Z.to_nat LOGSIZE;
  lr_T : forall i s x, T !! i = Some (s, x) ->
    lh_sector l !! i = Some s /\ 0 <= s < lg_start l /\ bv_disk v (lg_start l + Z.of_nat i + 1) = x;
  lr_nodup : NoDup T.*1;
  lr_dirty : bv_dirty v = list_to_map T;
  lr_hdr : hdr_n (bv_disk v (lg_start l)) = 0;
}.

(** Nobody holds a block of the log, and there is a buffer for one. *)
Definition log_free l v : Prop :=
  (forall s, lg_start l <= s -> s ∉ held_sectors v) /\ (size (dom (bv_dirty v) ∪ held_sectors v) < NBUF)%nat.

Lemma log_free_room l v s : log_free l v -> buf_room v s.
Proof.
  intros [_ Hs]. unfold buf_room.
  assert (size (dom (bv_dirty v) ∪ held_sectors v ∪ {[s]}) <= size (dom (bv_dirty v) ∪ held_sectors v) + 1)%nat; [|lia].
  destruct (decide (s ∈ dom (bv_dirty v) ∪ held_sectors v)).
  - replace (dom (bv_dirty v) ∪ held_sectors v ∪ {[s]}) with (dom (bv_dirty v) ∪ held_sectors v) by set_solver. lia.
  - rewrite size_union by set_solver. rewrite size_singleton. lia.
Qed.

(** Recording block [x] of sector [s] in the log order of [T]. *)
Fixpoint log_insert T (s : Z) (x : block) : list (Z * block) :=
  match T with
  | [] => [(s, x)]
  | (s', y) :: T' => if s' =? s then (s, x) :: T' else (s', y) :: log_insert T' s x
  end.

Lemma log_insert_map T s x : NoDup T.*1 -> list_to_map (log_insert T s x) = <[s := x]> (list_to_map T : gmap Z block).
Proof.
  induction T as [|[s' y] T IH]; intros Hnd; [done|]. simpl. apply NoDup_cons in Hnd as [Hn Hnd].
  destruct (Z.eqb_spec s' s) as [->|Hne]; simpl.
  - by rewrite insert_insert_eq.
  - rewrite IH by done. by rewrite insert_insert_ne.
Qed.

Lemma log_insert_keys T s x : (log_insert T s x).*1 = if decide (s ∈ T.*1) then T.*1 else T.*1 ++ [s].
Proof.
  induction T as [|[s' y] T IH]; [done|]. cbn [log_insert].
  destruct (Z.eqb_spec s' s) as [->|Hne]; rewrite !fmap_cons; cbn [fst].
  - rewrite decide_True by set_solver. done.
  - rewrite IH. repeat case_decide; set_solver.
Qed.

Lemma log_insert_at T s x (i : nat) :
  (i <= length T)%nat -> (i < length T -> T.*1 !! i = Some s)%nat -> (forall k, (k < i)%nat -> T.*1 !! k <> Some s) ->
  log_insert T s x = if decide (i < length T)%nat then <[i := (s, x)]> T else T ++ [(s, x)].
Proof.
  revert i. induction T as [|[s' y] T IH]; intros i Hi Hat Hb; cbn [log_insert length] in *.
  - by rewrite decide_False by lia.
  - destruct i as [|i].
    + rewrite decide_True by lia. destruct (Z.eqb_spec s' s) as [->|Hne]; [done|].
      specialize (Hat ltac:(lia)). simpl in Hat. congruence.
    + destruct (Z.eqb_spec s' s) as [->|Hne]; [by destruct (Hb 0%nat ltac:(lia))|].
      rewrite (IH i); [|lia|intros; apply Hat; lia|intros k Hk; apply (Hb (S k)); lia].
      repeat case_decide; try lia; done.
Qed.

Lemma lrep_key l v T i s : lrep l v T -> T.*1 !! i = Some s <-> (i < length T)%nat /\ lh_sector l !! i = Some s.
Proof.
  intros Hr. rewrite list_lookup_fmap. split.
  - intros Hs. destruct (T !! i) as [[s' x]|] eqn:E; [|done]. simpl in Hs. injection Hs as ->.
    destruct (lr_T _ _ _ Hr i s x E) as (? & _). split; [by apply lookup_lt_Some in E|done].
  - intros [Hi Hs]. destruct (lookup_lt_is_Some_2 _ _ Hi) as [[s' x] E]. rewrite E. simpl.
    destruct (lr_T _ _ _ Hr i s' x E) as (Hs' & _). congruence.
Qed.

Lemma lrep_log_write l v T b s x :
  lrep l v T -> log_free l v -> lg_busy l = true -> bv_held v !! b = Some (s, x) -> 0 <= s < lg_start l ->
  lh_n l < LOGSIZE -> lh_n l < lg_size l - 1 ->
  exists l' lb, log_write b l = Ok tt l' /\ lg_start l < lb < lg_start l + lg_size l /\
    lrep l' (bv_mark s x (bv_write lb x v)) (log_insert T s x) /\
    lg_start l' = lg_start l /\ lg_size l' = lg_size l /\ lg_busy l' = true.
Proof.
  intros Hr Hfree Hbusy Hh Hs Hn1 Hn2. pose proof Hr as [Hb Hlk Hdv Hst Hend Hbig Hrm Hn _ Hlen HT Hnd Hdi Hhd].
  destruct (log_write_run l v b s x) as (i & c' & Hi & Hfound & Hbefore & E & Hb'); try done; try lia.
  { intros i Hi. split; [apply Hfree; lia|by eapply log_free_room]. }
  assert (Hsu : forall k y, lh_sector l !! k = Some y -> (k < length T)%nat -> u32 y = y /\ 0 <= y < lg_start l).
  { intros k y Hy Hk. destruct (lookup_lt_is_Some_2 _ _ Hk) as [[s' z] Ek]. destruct (HT k s' z Ek) as (Hs' & Hr' & _).
    assert (y = s') as -> by congruence. split; [apply u32_id; lia|done]. }
  set (lb := lg_start l + i + 1) in *.
  assert (Hins : log_insert T s x = if decide (Z.to_nat i < length T)%nat then <[Z.to_nat i := (s, x)]> T else T ++ [(s, x)]).
  { apply log_insert_at; [lia| |].
    - intros Hlt. destruct (Hfound ltac:(lia)) as (y & Hy & Hys). apply (lrep_key l v T _ s Hr). split; [done|].
      destruct (Hsu _ _ Hy Hlt) as [Hyu _]. congruence.
    - intros k Hk Hks. apply (lrep_key l v T _ s Hr) in Hks as [Hkl Hks]. destruct (Hsu _ _ Hks Hkl) as [Hyu _].
      apply (Hbefore (Z.of_nat k) s); [lia|by rewrite Nat2Z.id|done]. }
  assert (Hlen' : Z.of_nat (length (log_insert T s x)) = if i =? lh_n l then lh_n l + 1 else lh_n l).
  { rewrite Hins. case_decide; destruct (Z.eqb_spec i (lh_n l)); rewrite ?length_insert, ?length_app; simpl; lia. }
  eexists _, lb. split; [exact E|]. split; [unfold lb; lia|]. split; [|done].
  split; l_simpl; try done.
  - split; destruct (Z.eqb_spec i (lh_n l)); lia.
  - by rewrite length_insert.
  - intros k s' z Hk. rewrite Hins in Hk.
    assert (Hcase : (k = Z.to_nat i /\ s' = s /\ z = x) \/ (k <> Z.to_nat i /\ T !! k = Some (s', z))).
    { case_decide as Hd.
      - apply list_lookup_insert_Some in Hk as [(-> & E' & _)|[Hne Hk]]; [left; by simplify_eq|right; done].
      - destruct (decide (k < length T)%nat) as [Hkt|Hkt].
        + rewrite lookup_app_l in Hk by done. right. split; [lia|done].
        + rewrite lookup_app_r in Hk by lia. apply list_lookup_singleton_Some in Hk as [Hk E']. left. simplify_eq. split_and!; [lia|done|done]. }
    destruct Hcase as [(-> & -> & ->)|[Hne Hk']].
    + rewrite list_lookup_insert_eq by (unfold LOGSIZE in *; lia). split_and!; [done|lia|lia|].
      rewrite Z2Nat.id by lia. by rewrite fn_lookup_insert.
    + destruct (HT k s' z Hk') as (H1 & H2 & H3). rewrite list_lookup_insert_ne by done. split_and!; [done|lia|lia|].
      rewrite fn_lookup_insert_ne by lia. done.
  - rewrite log_insert_keys. destruct (decide (s ∈ T.*1)); [done|]. apply NoDup_app. split_and!; [done|set_solver|apply NoDup_singleton].
  - rewrite log_insert_map, <- Hdi by done. f_equal. apply delete_id. rewrite Hdi.
    apply not_elem_of_list_to_map. intros [k Hk]%list_elem_of_lookup. apply (lrep_key l v T _ _ Hr) in Hk as [Hk1 Hk2].
    destruct (Hsu _ _ Hk2 Hk1). lia.
  - rewrite fn_lookup_insert_ne by lia. done.
Qed.

(** The writes of a commit: the header, the home blocks, the cleared header. *)
Definition head1 l v : block := hdr_block (bv_disk v (lg_start l)) (lh_n l) (lh_sector l).
Definition head0 l v : block := hdr_block (head1 l v) 0 (lh_sector l).

(** [map] over the log positions is the transaction itself. *)
Lemma lrep_positions l v T :
  lrep l v T -> map (fun i => (lh_sector l !!! Z.to_nat i, log_block l v i)) (upto (lh_n l)) = T.
Proof.
  intros Hr. unfold upto. rewrite (lr_n _ _ _ Hr), Nat2Z.id, map_map. apply list_eq. intros i.
  rewrite list_lookup_fmap. destruct (decide (i < length T)%nat) as [Hi|Hi].
  - rewrite lookup_seq_lt by done. destruct (lookup_lt_is_Some_2 _ _ Hi) as [[s x] E]. rewrite E. simpl.
    destruct (lr_T _ _ _ Hr i s x E) as (H1 & _ & H3). unfold log_block. rewrite Nat2Z.id, H3.
    by rewrite (list_lookup_total_correct _ _ _ H1).
  - rewrite lookup_seq_ge by lia. simpl. symmetry. apply lookup_ge_None. lia.
Qed.

Lemma lrep_installable l v T i s x :
  lrep l v T -> log_free l v -> (forall s, s ∈ T.*1 -> s ∉ held_sectors v) -> T !! i = Some (s, x) ->
  installable l v (Z.of_nat i) s.
Proof.
  intros Hr Hf Hh Hi. destruct (lr_T _ _ _ Hr i s x Hi) as (H1 & H2 & _). pose proof (lookup_lt_Some _ _ _ Hi) as Hlt.
  pose proof (lr_max _ _ _ Hr) as [_ Hm]. rewrite (lr_n _ _ _ Hr) in Hm. pose proof (lr_end _ _ _ Hr).
  assert (Hdom : forall s', s' ∈ dom (bv_dirty v) -> s' < lg_start l).
  { intros s'. rewrite (lr_dirty _ _ _ Hr), dom_list_to_map_L, elem_of_list_to_set. intros [k Hk]%list_elem_of_lookup.
    rewrite list_lookup_fmap in Hk. destruct (T !! k) as [[s2 y]|] eqn:E; [|done]. simpl in Hk. injection Hk as <-.
    destruct (lr_T _ _ _ Hr k s2 y E). lia. }
  split_and!; rewrite ?Nat2Z.id; try done; try lia.
  - apply Hf. lia.
  - intros Hx%Hdom. lia.
  - apply Hh. apply (list_elem_of_lookup_2 _ i). by rewrite list_lookup_fmap, Hi.
  - assert (Hsd : s ∈ dom (bv_dirty v)).
    { rewrite (lr_dirty _ _ _ Hr), dom_list_to_map_L, elem_of_list_to_set. apply (list_elem_of_lookup_2 _ i). by rewrite list_lookup_fmap, Hi. }
    etransitivity; [|exact (log_free_room l v (lg_start l + Z.of_nat i + 1) Hf)]. apply subseteq_size. set_solver.
Qed.

(** A write of a home block or of the header keeps the log usable. *)
Lemma log_free_writes l l' v ws : log_free l v -> lg_start l' = lg_start l -> log_free l' (bv_writes ws v).
Proof.
  intros [H1 H2] E. pose proof (held_same v (bv_writes ws v) (bv_writes_held ws v)) as Eh. split.
  - intros s Hs. rewrite Eh. apply H1. lia.
  - rewrite Eh. pose proof (bv_writes_dom ws v). assert (size (dom (bv_dirty (bv_writes ws v)) ∪ held_sectors v) <= size (dom (bv_dirty v) ∪ held_sectors v))%nat; [|lia].
    apply subseteq_size. set_solver.
Qed.

Lemma start_clean l v T : lrep l v T -> lg_start l ∉ dom (bv_dirty v).
Proof.
  intros Hr. rewrite (lr_dirty _ _ _ Hr), dom_list_to_map_L, elem_of_list_to_set. intros [k Hk]%list_elem_of_lookup.
  rewrite list_lookup_fmap in Hk. destruct (T !! k) as [[s2 y]|] eqn:E; [|done]. simpl in Hk. injection Hk as Hk.
  destruct (lr_T _ _ _ Hr k s2 y E) as (_ & ? & _). lia.
Qed.

Lemma commit_writes l v T :
  lrep l v T -> log_free l v -> (forall s, s ∈ T.*1 -> s ∉ held_sectors v) -> T <> [] ->
  exists c', commit_trans l = Ok tt (set_lg_busy false (set_bc c' (set_lh_n 0 l))) /\
    brep c' (bv_writes ([(lg_start l, head1 l v)] ++ T ++ [(lg_start l, head0 l v)]) v).
Proof.
  intros Hr Hf Hh HT. pose proof Hr as [Hb Hlk Hdv Hst Hend Hbig Hrm Hn [Hm1 Hm2] Hlen _ Hnd Hdi Hhd].
  assert (Hpos : 0 < lh_n l) by (destruct T; [done|]; simpl in Hn; lia).
  unfold commit_trans. mrun1. rewrite (proj2 (Z.ltb_lt _ _) Hpos). cbn [when].
  destruct (write_head_run l v Hb Hdv) as (c1 & E1 & Hb1); try done; try lia; [apply Hf; lia|by eapply start_clean|by eapply log_free_room|].
  fold (head1 l v) in Hb1. rewrite !bind_assoc_run. mstep E1. unfold install_trans. rewrite !bind_assoc_run. mrun1. l_simpl.
  assert (Hblk : forall i, 0 <= i -> log_block (set_bc c1 l) (bv_write (lg_start l) (head1 l v) v) i = log_block l v i).
  { intros i Hi. unfold log_block. l_simpl. apply fn_lookup_insert_ne. lia. }
  destruct (install_loop (set_bc c1 l) (bv_write (lg_start l) (head1 l v) v) (upto (lh_n l)) (fun i => lh_sector l !!! Z.to_nat i)) as (c2 & E2 & Hb2);
    [exact Hb1|exact Hdv| |].
  { apply Forall_forall. intros i Hi%upto_elem. destruct (lookup_lt_is_Some_2 T (Z.to_nat i)) as [[s x] Ei]; [lia|].
    destruct (lr_T _ _ _ Hr _ s x Ei) as (Hsi & Hsr & _). rewrite (list_lookup_total_correct _ _ _ Hsi).
    pose proof (lrep_installable l v T _ s x Hr Hf Hh Ei) as Hin. rewrite Z2Nat.id in Hin by lia.
    by apply (installable_write _ _ _ _ _ _ Hin). }
  rewrite (map_ext_in _ (fun i => (lh_sector l !!! Z.to_nat i, log_block l v i))), (lrep_positions l v T Hr) in Hb2.
  2:{ intros i Hi%list_elem_of_In%upto_elem. by rewrite Hblk by lia. }
  mstep E2. rewrite bind_assoc_run. mrun1. l_simpl.
  assert (Hdisk : bv_disk (bv_writes T (bv_write (lg_start l) (head1 l v) v)) (lg_start l) = head1 l v).
  { rewrite bv_writes_disk, apply_writes_other; [l_simpl; apply fn_lookup_insert|].
    intros [k Hk]%list_elem_of_lookup. apply (lrep_key l v T _ _ Hr) in Hk as [Hk1 Hk2].
    destruct (lookup_lt_is_Some_2 _ _ Hk1) as [[s x] Ek]. destruct (lr_T _ _ _ Hr k s x Ek) as (Hs1 & Hs2 & _).
    assert (lg_start l = s) by congruence. lia. }
  destruct (write_head_run (set_lh_n 0 (set_bc c2 l)) (bv_writes (([(lg_start l, head1 l v)] ++ T)) v)) as (c3 & E3 & Hb3).
  - exact Hb2.
  - done.
  - l_simpl. rewrite bv_writes_size. lia.
  - rewrite (held_same v _ (bv_writes_held _ v)). apply Hf. l_simpl. lia.
  - intros Hx%bv_writes_dom. by apply (start_clean l v T Hr).
  - eapply log_free_room, (log_free_writes l (set_bc c2 l)); [done|done].
  - l_simpl. unfold LOGSIZE. lia.
  - done.
  - l_simpl. cbn [set_lh_n set_bc lg_start lh_n lh_sector] in Hb3.
    rewrite bv_writes_app in Hb3. cbn [bv_writes foldl fst snd] in Hb3. fold (bv_writes T (bv_write (lg_start l) (head1 l v) v)) in Hb3.
    rewrite Hdisk in Hb3. fold (head0 l v) in Hb3. exists c3. split.
    + mstep E3. unfold l_acquire. mstep (acquire_ok lg_lock set_lg_lock (set_bc c3 (set_lh_n 0 (set_bc c2 l))) Hlk).
      mrun1. unfold l_release. rewrite (release_ok lg_lock set_lg_lock) by done. f_equal. unfold set_lg_busy, set_lg_lock. l_simpl. by rewrite Hlk.
    + rewrite !bv_writes_app. exact Hb3.
Qed.
End Transactions.

(** ** Crashes

    A crash keeps the blocks written so far: a prefix of the write history.
    [recovers d f]: on a disk [d], the header names the blocks whose committed
    contents are still in the log; with them installed the home blocks are [f]. *)
Section Crash.
Context (st sz : Z).

Record recovers (d f : Z -> block) : Prop := {
  rc_n : 0 <= hdr_n (d st) <= LOGSIZE /\ hdr_n (d st) < sz;
  rc_home : forall i, 0 <= i < hdr_n (d st) -> 0 <= hdr_sector (d st) i < st;
  rc_inj : forall i j, 0 <= i < hdr_n (d st) -> 0 <= j < hdr_n (d st) ->
    hdr_sector (d st) i = hdr_sector (d st) j -> i = j;
  rc_log : forall i, 0 <= i < hdr_n (d st) -> f (hdr_sector (d st) i) = d (st + i + 1);
  rc_rest : forall s, 0 <= s < st -> (forall i, 0 <= i < hdr_n (d st) -> hdr_sector (d st) i <> s) -> f s = d s;
}.

Lemma recovers_clean d f :
  hdr_n (d st) = 0 -> 0 < sz -> (forall s, 0 <= s < st -> f s = d s) -> recovers d f.
Proof. intros H0 Hsz Hf. split; try (intros; lia); [unfold LOGSIZE; lia|]. intros s Hs _. by apply Hf. Qed.

Lemma recovers_clean_inv d f : recovers d f -> hdr_n (d st) = 0 -> forall s, 0 <= s < st -> f s = d s.
Proof. intros Hr H0 s Hs. apply Hr; [done|]. intros. lia. Qed.

(** A write into the body of an empty log changes nothing. *)
Lemma recovers_body d f s x : recovers d f -> hdr_n (d st) = 0 -> st < s -> recovers (<[s := x]> d) f.
Proof.
  intros Hr H0 Hs. apply recovers_clean; [rewrite fn_lookup_insert_ne by lia; done|destruct (rc_n _ _ Hr); lia|].
  intros s' Hs'. rewrite fn_lookup_insert_ne by lia. by apply (recovers_clean_inv d).
Qed.

(** Installing a logged block does not change what will be recovered. *)
Lemma recovers_install d f i :
  recovers d f -> 0 <= i < hdr_n (d st) -> recovers (<[hdr_sector (d st) i := d (st + i + 1)]> d) f.
Proof.
  intros Hr Hi. pose proof (rc_home _ _ Hr i Hi) as Hs. set (s := hdr_sector (d st) i) in *.
  assert (E : forall s', st <= s' -> (<[s := d (st + i + 1)]> d) s' = d s') by (intros; apply fn_lookup_insert_ne; lia).
  split; rewrite (E st) by lia; try apply Hr.
  - intros j Hj. rewrite E by lia. by apply Hr.
  - intros s' Hs' Hn. rewrite fn_lookup_insert_ne; [by apply Hr|]. intros <-. by apply (Hn i).
Qed.

(** After the first [k] installs. *)
Lemma recovers_installs d f ks :
  recovers d f -> Forall (fun i => 0 <= i < hdr_n (d st)) ks ->
  let d' := apply_writes (map (fun i => (hdr_sector (d st) i, d (st + i + 1))) ks) d in
  recovers d' f /\ (forall s, st <= s -> d' s = d s) /\ (forall i, i ∈ ks -> d' (hdr_sector (d st) i) = d (st + i + 1)).
Proof.
  intros Hr Hks. cbv zeta. induction ks as [|k ks IH] using rev_ind; [split_and!; [done|done|set_solver]|].
  apply Forall_app in Hks as [Hks Hk]. rewrite Forall_singleton in Hk. destruct (IH Hks) as (IH1 & IH2 & IH3).
  rewrite map_app. unfold apply_writes. rewrite foldl_app. cbn [map foldl fst snd].
  fold (apply_writes (map (fun i => (hdr_sector (d st) i, d (st + i + 1))) ks) d).
  set (d' := apply_writes _ d) in *. pose proof (rc_home _ _ Hr k Hk) as Hs.
  rewrite <- (IH2 (st + k + 1)), <- (IH2 st) by lia. split_and!.
  - apply recovers_install; [done|]. by rewrite IH2 by lia.
  - intros s Hge. rewrite fn_lookup_insert_ne; [by apply IH2|]. rewrite IH2 by lia. lia.
  - intros i. rewrite elem_of_app, list_elem_of_singleton, IH2 by lia. intros Hi.
    destruct (decide (hdr_sector (d st) k = hdr_sector (d st) i)) as [E|Hne].
    + rewrite <- E, fn_lookup_insert, IH2 by lia. f_equal. destruct Hi as [Hi| ->]; [|done].
      rewrite Forall_forall in Hks. pose proof (rc_inj _ _ Hr k i Hk (Hks i Hi) E). lia.
    + rewrite fn_lookup_insert_ne by done. destruct Hi as [Hi| ->]; [by apply IH3|done].
Qed.

(** The writes that install the log and clear the header. *)
Definition installs (d : Z -> block) : list (Z * block) :=
  map (fun i => (hdr_sector (d st) i, d (st + i + 1))) (upto (hdr_n (d st))).

Lemma recovers_done d f h0 :
  recovers d f -> hdr_n h0 = 0 ->
  let d' := apply_writes (installs d ++ [(st, h0)]) d in
  hdr_n (d' st) = 0 /\ (forall s, 0 <= s < st -> d' s = f s) /\
  forall p, p `prefix_of` installs d ++ [(st, h0)] -> recovers (apply_writes p d) f.
Proof.
  intros Hr H0. cbv zeta. unfold apply_writes at 1 2. rewrite !foldl_app. fold (apply_writes (installs d) d). cbn [foldl fst snd].
  assert (Hall : Forall (fun i => 0 <= i < hdr_n (d st)) (upto (hdr_n (d st)))) by (apply Forall_forall; by intros i ?%upto_elem).
  destruct (recovers_installs d f _ Hr Hall) as (H1 & H2 & H3). fold (installs d) in H1, H2, H3.
  rewrite fn_lookup_insert.
  assert (Hhome : forall s, 0 <= s < st -> (<[st := h0]> (apply_writes (installs d) d)) s = f s).
  { intros s Hs. rewrite fn_lookup_insert_ne by lia.
    destruct (decide (Exists (fun i => hdr_sector (d st) i = s) (upto (hdr_n (d st))))) as [He|Hn].
    - apply Exists_exists in He as (i & Hi & <-). rewrite H3 by done. symmetry. apply Hr. by apply upto_elem.
    - symmetry. rewrite (apply_writes_other (installs d) d s).
      + apply Hr; [done|]. intros i Hi E. apply Hn. apply Exists_exists. exists i. by rewrite upto_elem.
      + intros Hin. apply Hn. apply Exists_exists. unfold installs in Hin. rewrite <- list_fmap_compose in Hin.
        apply list_elem_of_fmap in Hin as (i & -> & Hi). by exists i. }
  split_and!; [done|done|]. intros p [q Hp].
  destruct q as [|w q _] using rev_ind.
  - rewrite app_nil_r in Hp. subst p. unfold apply_writes. rewrite foldl_app. fold (apply_writes (installs d) d). cbn [foldl fst snd].
    apply recovers_clean; [by rewrite fn_lookup_insert|destruct (rc_n _ _ Hr); lia|]. intros s Hs. by rewrite Hhome.
  - rewrite app_assoc in Hp. apply app_inj_tail in Hp as [Hp _]. unfold installs in Hp.
    apply map_eq_app in Hp as (k1 & k2 & Hu & <- & _). rewrite Hu in Hall. apply Forall_app in Hall as [Hall _].
    by destruct (recovers_installs d f k1 Hr Hall).
Qed.
End Crash.

(** ** A transaction from begin to commit *)
Section Atomicity.
Context {C : Type} `{Buffers C}.
Implicit Types (l : log C) (v : bview).

(** The pattern of the comment over log_write: read, modify, log, release. *)
Definition update (w : Z * block) : M (log C) unit :=
  bp ← cache (bread ROOTDEV w.1);
  cache (set_bdata bp w.2);;
  log_write bp;;
  cache (brelse bp).
Definition transaction (ups : list (Z * block)) : M (log C) unit :=
  begin_trans;; mfor ups update;; commit_trans.

Lemma lrep_bc l v v' T c' :
  lrep l v T -> brep c' v' -> bv_disk v' = bv_disk v -> bv_dirty v' = bv_dirty v -> bv_size v' = bv_size v ->
  lrep (set_bc c' l) v' T.
Proof. intros [] Hb Ed Edi Es. split; l_simpl; rewrite ?Ed, ?Edi, ?Es; done. Qed.

Lemma lrep_busy l v T b : lrep l v T -> lrep (set_lg_busy b l) v T.
Proof. intros []. split; done. Qed.

Lemma lrep_dirty_size l v T : lrep l v T -> size (dom (bv_dirty v)) = length T.
Proof.
  intros Hr. rewrite (lr_dirty _ _ _ Hr), dom_list_to_map_L, size_list_to_set by apply Hr. apply length_fmap.
Qed.

Lemma begin_run l : lg_lock l = false -> lg_busy l = false -> begin_trans l = Ok tt (set_lg_busy true l).
Proof.
  intros Hl Hb. unfold begin_trans, l_acquire. mstep (acquire_ok lg_lock set_lg_lock l Hl). mrun1. l_simpl. rewrite Hb.
  mrun1. unfold l_release. rewrite (release_ok lg_lock set_lg_lock) by done. f_equal. unfold set_lg_busy, set_lg_lock. l_simpl. by rewrite Hl.
Qed.

(** A second transaction waits for the first. *)
Lemma begin_waits l : lg_lock l = false -> lg_busy l = true -> begin_trans l = Stop (SSleep 0) l.
Proof.
  intros Hl Hb. unfold begin_trans, l_acquire. mstep (acquire_ok lg_lock set_lg_lock l Hl). mrun1. l_simpl. rewrite Hb.
  unfold l_release. mstep (release_ok lg_lock set_lg_lock (set_lg_lock true l) eq_refl). unfold halt, set_lg_lock. l_simpl.
  destruct l. simpl in *. by subst.
Qed.

Definition idle v : Prop := bv_held v = ∅.

Lemma idle_held v : idle v -> held_sectors v = ∅.
Proof.
  intros Hi. apply set_eq. intros s. rewrite elem_of_held_sectors. split; [|set_solver]. intros (h & x & Hx). rewrite Hi, lookup_empty in Hx. done.
Qed.

Lemma update_run l v T s x :
  lrep l v T -> idle v -> lg_busy l = true -> 0 <= s < lg_start l -> length x = Z.to_nat BSIZE ->
  (length T < Z.to_nat LOGSIZE)%nat -> Z.of_nat (length T) < lg_size l - 1 -> (S (length T) < NBUF)%nat ->
  exists l' v' lb, update (s, x) l = Ok tt l' /\ lrep l' v' (log_insert T s x) /\ idle v' /\ lg_busy l' = true /\
    lg_start l' = lg_start l /\ lg_size l' = lg_size l /\ lg_start l < lb < lg_start l + lg_size l /\
    bv_hist v' = bv_hist v ++ [(lb, x)] /\ bv_disk v' = <[lb := x]> (bv_disk v) /\ bv_size v' = bv_size v.
Proof.
  intros Hr Hid Hbusy Hs Hx Hl1 Hl2 Hl3. pose proof (lr_rep _ _ _ Hr) as Hb. pose proof (idle_held v Hid) as Hhs.
  pose proof (lrep_dirty_size l v T Hr) as Hds. unfold update. cbn [fst snd].
  destruct (bread_spec _ _ s Hb) as (h & c1 & E1 & Hh & Hb1).
  { pose proof (lr_end _ _ _ Hr). pose proof (lr_room _ _ _ Hr). lia. } { set_solver. }
  { unfold buf_room. rewrite Hhs, union_empty_r_L. pose proof (size_union_alt (dom (bv_dirty v)) ({[s]} : gset Z)) as Eu.
    pose proof (subseteq_size ({[s]} ∖ dom (bv_dirty v)) ({[s]} : gset Z) ltac:(set_solver)). rewrite size_singleton in *. lia. }
  erewrite bind_ok by (apply cache_ok; exact E1).
  destruct (set_bdata_spec _ _ h s _ x Hb1 ltac:(l_simpl; by rewrite lookup_insert_eq) Hx) as (c2 & E2 & Hb2). rewrite hold_hold in Hb2.
  erewrite bind_ok by (apply cache_ok; exact E2).
  pose proof (lrep_bc l v _ T c2 Hr Hb2 eq_refl eq_refl eq_refl) as Hr2. pose proof (held_hold h s x v Hh) as Hhh.
  destruct (lrep_log_write (set_bc c2 l) _ T h s x Hr2) as (l3 & lb & E3 & Hlb & Hr3 & Es & Ez & Eb); try done.
  { split; [intros s' Hs'; rewrite Hhh; cbn [lg_start set_bc] in Hs'; set_solver by lia|].
    l_simpl. rewrite Hhh. assert (size (dom (bv_dirty v) ∪ ({[s]} ∪ held_sectors v)) <= size (dom (bv_dirty v)) + 1)%nat; [|lia].
    rewrite Hhs, union_empty_r_L, size_union_alt. pose proof (subseteq_size ({[s]} ∖ dom (bv_dirty v)) ({[s]} : gset Z) ltac:(set_solver)) as Hsz.
    rewrite size_singleton in Hsz. lia. }
  { l_simpl. by rewrite lookup_insert_eq. } { l_simpl. rewrite (lr_n _ _ _ Hr). unfold LOGSIZE in *. lia. }
  { l_simpl. rewrite (lr_n _ _ _ Hr). lia. }
  erewrite bind_ok by exact E3.
  destruct (brelse_spec _ _ h s x (lr_rep _ _ _ Hr3)) as (c4 & E4 & Hb4).
  { l_simpl. by rewrite lookup_insert_eq. } { unfold content. l_simpl. by rewrite lookup_insert_eq. }
  eexists (set_bc c4 l3), _, lb. split; [erewrite cache_ok by exact E4; done|].
  split; [by eapply lrep_bc|]. split_and!; try done; [|cbn [lg_start lg_size set_bc] in Hlb; lia..].
  unfold idle. l_simpl. rewrite delete_insert_id by done. exact Hid.
Qed.

Lemma log_insert_length T s x : (length (log_insert T s x) <= S (length T))%nat.
Proof. induction T as [|[s' y] T IH]; simpl; [lia|]. destruct (s' =? s); simpl; lia. Qed.

(** The updates of a transaction write the body of the log only. *)
Lemma updates_run ups l v T :
  lrep l v T -> idle v -> lg_busy l = true ->
  Forall (fun w => 0 <= w.1 < lg_start l /\ length w.2 = Z.to_nat BSIZE) ups ->
  (length T + length ups <= Z.to_nat LOGSIZE)%nat -> Z.of_nat (length T + length ups) <= lg_size l - 1 ->
  (length T + length ups < NBUF)%nat ->
  exists l' v' T' ws, mfor ups update l = Ok tt l' /\ lrep l' v' T' /\ idle v' /\ lg_busy l' = true /\
    lg_start l' = lg_start l /\ lg_size l' = lg_size l /\
    (length T' < NBUF)%nat /\ Forall (fun w => lg_start l < w.1) ws /\
    bv_hist v' = bv_hist v ++ ws /\ bv_disk v' = apply_writes ws (bv_disk v) /\ bv_size v' = bv_size v /\
    (list_to_map T' : gmap Z block) = foldl (fun m w => <[w.1 := w.2]> m) (list_to_map T) ups.
Proof.
  revert l v T. induction ups as [|[s x] ups IH]; intros l v T Hr Hid Hb Hups H1 H2 H3; cbn [mfor].
  - exists l, v, T, []. rewrite app_nil_r. simpl in H3. split_and!; try done. lia.
  - apply Forall_cons in Hups as [[Hs Hx] Hups]. simpl in Hs, Hx, H1, H2, H3.
    destruct (update_run l v T s x) as (l1 & v1 & lb & E1 & Hr1 & Hid1 & Hb1 & Es1 & Ez1 & Hlb & Eh1 & Ed1 & En1); try done; try lia.
    mstep E1. pose proof (log_insert_length T s x).
    destruct (IH l1 v1 (log_insert T s x)) as (l2 & v2 & T2 & ws & E2 & Hr2 & Hid2 & Hb2 & Es2 & Ez2 & Hl2 & Hws & Eh2 & Ed2 & En2 & Em);
      try done; try (rewrite ?Ez1; lia).
    { by rewrite Es1. }
    exists l2, v2, T2, ((lb, x) :: ws). rewrite Es1 in Hws. split_and!; try done; try congruence.
    + constructor; [simpl; lia|done].
    + by rewrite Eh2, Eh1, <- app_assoc.
    + by rewrite Ed2, Ed1.
    + rewrite Em. simpl. by rewrite log_insert_map by apply Hr.
Qed.

(** What is in the last version of the updates. *)
Lemma apply_updates (m : gmap Z block) (ups : list (Z * block)) (d : Z -> block) s :
  default (d s) (foldl (fun m w => <[w.1 := w.2]> m) m ups !! s) =
  apply_writes ups (fun s => default (d s) (m !! s)) s.
Proof.
  revert m s. induction ups as [|[s' x] ups IH]; intros m s; [done|]. simpl. rewrite IH.
  assert (Hext : forall ws (d1 d2 : Z -> block), (forall s, d1 s = d2 s) -> forall s, apply_writes ws d1 s = apply_writes ws d2 s).
  { clear. intros ws. induction ws as [|[a b] ws IH]; intros d1 d2 Hd s; [apply Hd|]. simpl. apply IH. intros s2.
    destruct (decide (a = s2)) as [->|Hne]; [by rewrite !fn_lookup_insert|]. by rewrite !fn_lookup_insert_ne. }
  apply Hext. intros s2. destruct (decide (s' = s2)) as [->|Hne].
  - by rewrite lookup_insert_eq, fn_lookup_insert.
  - by rewrite lookup_insert_ne, fn_lookup_insert_ne.
Qed.

Lemma updates_keys (ups : list (Z * block)) (m : gmap Z block) s :
  foldl (fun m w => <[w.1 := w.2]> m) m ups !! s <> None -> m !! s = None -> s ∈ ups.*1.
Proof.
  revert m. induction ups as [|[s' x] ups IH]; intros m Hx Hm; [done|]. simpl in *.
  destruct (decide (s = s')) as [->|Hne]; [apply elem_of_cons; by left|].
  apply elem_of_cons. right. apply (IH _ Hx). by rewrite lookup_insert_ne.
Qed.

(** Once the header is written, the disk recovers to the new contents. *)
Lemma recovers_committed l v T d f :
  lrep l v T -> (forall s, 0 <= s < lg_start l -> bv_disk v s = d s) ->
  (forall s, f s = default (d s) ((list_to_map T : gmap Z block) !! s)) ->
  let d1 := <[lg_start l := head1 l v]> (bv_disk v) in
  recovers (lg_start l) (lg_size l) d1 f /\ installs (lg_start l) d1 = T.
Proof.
  intros Hr Hd Hf. cbv zeta. pose proof Hr as [Hb Hlk Hdv Hst Hend Hbig Hrm Hn [Hm1 Hm2] Hlen HT Hnd Hdi Hhd].
  set (d1 := <[lg_start l := head1 l v]> (bv_disk v)). assert (E1 : d1 (lg_start l) = head1 l v) by apply fn_lookup_insert.
  assert (Hx : length (bv_disk v (lg_start l)) = Z.to_nat BSIZE).
  { replace (bv_disk v (lg_start l)) with (content v (lg_start l)); [apply (brep_length _ _ _ Hb); lia|].
    unfold content. pose proof (start_clean l v T Hr) as Hc. apply not_elem_of_dom in Hc. by rewrite Hc. }
  assert (En : hdr_n (d1 (lg_start l)) = lh_n l) by (rewrite E1; apply hdr_block_n; [done|lia]).
  assert (Hat : forall i, 0 <= i < lh_n l -> exists s x, T !! Z.to_nat i = Some (s, x) /\
    hdr_sector (d1 (lg_start l)) i = s /\ 0 <= s < lg_start l /\ d1 (lg_start l + i + 1) = x).
  { intros i Hi. destruct (lookup_lt_is_Some_2 T (Z.to_nat i)) as [[s x] E]; [lia|]. exists s, x.
    destruct (HT _ _ _ E) as (H1 & H2 & H3). rewrite Z2Nat.id in H3 by lia. split_and!; try done; try lia.
    - rewrite E1. unfold head1. apply hdr_block_sector; try done. lia.
    - unfold d1. rewrite fn_lookup_insert_ne by lia. done. }
  split; [split; rewrite En|].
  - lia.
  - intros i Hi. destruct (Hat i Hi) as (s & x & E & -> & ? & _). lia.
  - intros i j Hi Hj. destruct (Hat i Hi) as (s & x & E & -> & _). destruct (Hat j Hj) as (s' & x' & E' & -> & _). intros <-.
    cut (Z.to_nat i = Z.to_nat j); [lia|]. eapply (NoDup_lookup T.*1); [done|by rewrite list_lookup_fmap, E|by rewrite list_lookup_fmap, E'].
  - intros i Hi. destruct (Hat i Hi) as (s & x & E & -> & _ & ->). rewrite Hf.
    rewrite (elem_of_list_to_map_1 T s x Hnd); [done|]. by eapply list_elem_of_lookup_2.
  - intros s Hs Hni. rewrite Hf, (not_elem_of_list_to_map_1 T); [simpl; unfold d1; by rewrite fn_lookup_insert_ne, Hd by lia|].
    intros [k Hk]%list_elem_of_lookup. pose proof (lookup_lt_Some _ _ _ Hk) as Hlt. rewrite length_fmap in Hlt.
    destruct (Hat (Z.of_nat k) ltac:(lia)) as (s' & x & E & E' & _). rewrite Nat2Z.id in E.
    rewrite list_lookup_fmap, E in Hk. simpl in Hk. apply (Hni (Z.of_nat k)); [lia|congruence].
  - rewrite <- (lrep_positions l v T Hr). unfold installs. rewrite En. apply map_ext_in. intros i Hi%list_elem_of_In%upto_elem.
    destruct (Hat i Hi) as (s & x & E & -> & _ & ->). destruct (HT _ _ _ E) as (H1 & _ & H3). unfold log_block.
    rewrite (list_lookup_total_correct _ _ _ H1). rewrite Z2Nat.id in H3 by lia. by rewrite H3.
Qed.

Lemma prefix_app_case {A} (p a b : list A) :
  p `prefix_of` a ++ b -> p `prefix_of` a \/ exists p', p = a ++ p' /\ p' `prefix_of` b.
Proof.
  revert p. induction a as [|x a IH]; intros p Hp; [right; by exists p|].
  destruct p as [|y p]; [left; apply prefix_nil|]. simpl in Hp.
  pose proof (prefix_cons_inv_1 _ _ _ _ Hp) as ->. apply prefix_cons_inv_2 in Hp.
  destruct (IH p Hp) as [Hl|(p' & -> & Hp')]; [left; by apply prefix_cons|right; by exists p'].
Qed.

Lemma recovers_bodies st sz d f ws :
  recovers st sz d f -> hdr_n (d st) = 0 -> Forall (fun w => st < w.1) ws ->
  recovers st sz (apply_writes ws d) f /\ hdr_n (apply_writes ws d st) = 0.
Proof.
  intros Hr H0 Hws. revert d Hr H0. induction Hws as [|[s x] ws Hs Hws IH]; intros d Hr H0; [done|].
  simpl in *. apply IH; [by apply recovers_body|by rewrite fn_lookup_insert_ne by lia].
Qed.

Lemma apply_writes_app ws ws' d : apply_writes (ws ++ ws') d = apply_writes ws' (apply_writes ws d).
Proof. apply foldl_app. Qed.

(** The empty log of a view. *)
Lemma lrep_nil l v :
  brep (bc l) v -> lg_lock l = false -> lg_dev l = ROOTDEV -> 0 < lg_start l -> lg_start l + lg_size l <= bv_size v ->
  bv_size v <= 2 ^ 31 -> 0 < lg_size l -> lh_n l = 0 -> length (lh_sector l) = Z.to_nat LOGSIZE ->
  bv_dirty v = ∅ -> hdr_n (bv_disk v (lg_start l)) = 0 -> lrep l v [].
Proof. intros. split; try done; try (simpl; lia); [unfold LOGSIZE; lia|apply NoDup_nil_2]. Qed.

(** The commit leaves an empty log and the transaction's blocks at home. *)
Lemma commit_run l v T d f :
  lrep l v T -> idle v -> (length T < NBUF)%nat -> (forall s, 0 <= s < lg_start l -> bv_disk v s = d s) ->
  (forall s, f s = default (d s) ((list_to_map T : gmap Z block) !! s)) ->
  exists l' ws, commit_trans l = Ok tt l' /\ lrep l' (bv_writes ws v) [] /\ lg_busy l' = false /\
    (lg_start l' = lg_start l /\ lg_size l' = lg_size l) /\
    (forall s, 0 <= s < lg_start l -> bv_disk (bv_writes ws v) s = f s) /\
    (forall s, s ∈ ws.*1 -> s = lg_start l \/ s ∈ T.*1) /\
    forall p, p `prefix_of` ws -> p = [] \/ recovers (lg_start l) (lg_size l) (apply_writes p (bv_disk v)) f.
Proof.
  intros Hr Hid Hl Hd Hf. pose proof Hr as [Hb Hlk Hdv Hst Hend Hbig Hrm Hn [Hm1 Hm2] Hlen HT Hnd Hdi Hhd]. destruct (decide (T = [])) as [->|Hne].
  { exists (set_lg_busy false l), []. unfold commit_trans. mrun1. rewrite Hn. cbn [length when]. simpl (0 <? _). cbn iota.
    split_and!; [|by apply lrep_busy|done|done|done| |intros s Hs; inversion Hs|].
    - rewrite (bind_ok _ _ l tt l eq_refl). unfold l_acquire. mstep (acquire_ok lg_lock set_lg_lock l Hlk). mrun1. unfold l_release.
      rewrite (release_ok lg_lock set_lg_lock) by done. f_equal. unfold set_lg_busy, set_lg_lock. l_simpl. by rewrite Hlk.
    - intros s Hs. rewrite Hf. simpl. by apply Hd.
    - intros p Hp%prefix_nil_inv. by left. }
  assert (Hfree : log_free l v).
  { split; rewrite (idle_held v Hid); [set_solver|]. rewrite union_empty_r_L, (lrep_dirty_size l v T Hr). done. }
  destruct (commit_writes l v T Hr Hfree) as (c' & E & Hb'); [rewrite (idle_held v Hid); set_solver|done|].
  destruct (recovers_committed l v T d f Hr Hd Hf) as [Hrc Hin]. set (d1 := <[lg_start l := head1 l v]> (bv_disk v)) in *.
  assert (H0 : hdr_n (head0 l v) = 0).
  { apply hdr_block_n; [|unfold LOGSIZE; lia]. apply hdr_block_length; [|done].
    replace (bv_disk v (lg_start l)) with (content v (lg_start l)); [apply (brep_length _ _ _ Hb); lia|].
    unfold content. pose proof (start_clean l v T Hr) as Hc. apply not_elem_of_dom in Hc. by rewrite Hc. }
  destruct (recovers_done (lg_start l) (lg_size l) d1 f (head0 l v) Hrc H0) as (Hn0 & Hhome & Hpre). rewrite Hin in Hn0, Hhome, Hpre.
  set (ws := [(lg_start l, head1 l v)] ++ T ++ [(lg_start l, head0 l v)]) in *.
  assert (Ed : bv_disk (bv_writes ws v) = apply_writes (T ++ [(lg_start l, head0 l v)]) d1) by (rewrite bv_writes_disk; done).
  eexists _, ws. split; [exact E|]. split_and!; [|done|done|done| | |].
  - apply lrep_nil; l_simpl; rewrite ?bv_writes_size; try done; [|by rewrite Ed].
    apply map_eq. intros s. rewrite bv_writes_dirty, lookup_empty. destruct (decide (s ∈ ws.*1)) as [|Hs]; [done|].
    rewrite Hdi. apply not_elem_of_list_to_map. intros Hx. apply Hs. unfold ws. rewrite !fmap_app, !elem_of_app. auto.
  - intros s Hs. rewrite Ed. by apply Hhome.
  - intros s. unfold ws. rewrite !fmap_app, !elem_of_app. cbn [fmap list_fmap fst]. rewrite !list_elem_of_singleton. tauto.
  - intros [|w p] Hp; [by left|]. right. simpl in Hp. pose proof (prefix_cons_inv_1 _ _ _ _ Hp) as ->. apply prefix_cons_inv_2 in Hp.
    by apply Hpre.
Qed.

Lemma transaction_run ups l v :
  lrep l v [] -> idle v -> lg_busy l = false ->
  Forall (fun w => 0 <= w.1 < lg_start l /\ length w.2 = Z.to_nat BSIZE) ups ->
  (length ups <= Z.to_nat LOGSIZE)%nat -> Z.of_nat (length ups) <= lg_size l - 1 -> (length ups < NBUF)%nat ->
  exists l' v' ws, transaction ups l = Ok tt l' /\ lrep l' v' [] /\ idle v' /\ lg_busy l' = false /\
    bv_hist v' = bv_hist v ++ ws /\
    (forall s, 0 <= s < lg_start l -> bv_disk v' s = apply_writes ups (bv_disk v) s) /\
    (forall s, s ∈ ws.*1 -> lg_start l <= s \/ s ∈ ups.*1) /\
    forall p, p `prefix_of` ws ->
      recovers (lg_start l) (lg_size l) (apply_writes p (bv_disk v)) (bv_disk v) \/
      recovers (lg_start l) (lg_size l) (apply_writes p (bv_disk v)) (apply_writes ups (bv_disk v)).
Proof.
  intros Hr Hid Hb Hups H1 H2 H3. unfold transaction. mstep (begin_run l (lr_lock _ _ _ Hr) Hb).
  destruct (updates_run ups (set_lg_busy true l) v [] (lrep_busy _ _ _ true Hr)) as (l1 & v1 & T & ws & E1 & Hr1 & Hid1 & Hb1 & Es & Ez & Hl & Hws & Eh & Ed & En & Em);
    try done. mstep E1. cbn [lg_start lg_size set_lg_busy] in Es, Ez, Hws.
  assert (Hlog : forall s, s <= lg_start l -> apply_writes ws (bv_disk v) s = bv_disk v s).
  { intros s Hs. apply apply_writes_other. intros (w & -> & Hw)%list_elem_of_fmap. rewrite Forall_forall in Hws. specialize (Hws w Hw). lia. }
  assert (Hold : recovers (lg_start l) (lg_size l) (bv_disk v) (bv_disk v)) by (apply recovers_clean; [apply Hr|apply Hr|done]).
  destruct (commit_run l1 v1 T (bv_disk v) (apply_writes ups (bv_disk v))) as (l2 & ws2 & E2 & Hr2 & Hb2 & _ & Hhome & Hkeys & Hpre); try done.
  { intros s Hs. rewrite Ed. apply Hlog. lia. }
  { intros s. rewrite Em, apply_updates. done. }
  rewrite Es, ?Ez in *. exists l2, (bv_writes ws2 v1), (ws ++ ws2). split_and!; try done.
  - unfold idle. by rewrite bv_writes_held.
  - by rewrite bv_writes_hist, Eh, app_assoc.
  - intros s. rewrite fmap_app, elem_of_app. intros [(w & -> & Hw)%list_elem_of_fmap|Hs%Hkeys].
    + left. rewrite Forall_forall in Hws. specialize (Hws w Hw). simpl in Hws. lia.
    + destruct Hs as [->|Hs]; [left; lia|right]. apply (updates_keys ups (list_to_map []) s); [|done].
      intros Hx. apply (not_elem_of_list_to_map_2 (M:=gmap Z) T s); [|done]. rewrite Em. exact Hx.
  - assert (Hbody : forall p, p `prefix_of` ws -> recovers (lg_start l) (lg_size l) (apply_writes p (bv_disk v)) (bv_disk v)).
    { intros p [q Hq]. rewrite Hq in Hws. apply Forall_app in Hws as [Hws _]. apply recovers_bodies; [done|apply Hr|done]. }
    intros p [Hp|(p' & -> & Hp')]%prefix_app_case; [left; by apply Hbody|].
    rewrite apply_writes_app, <- Ed. destruct (Hpre p' Hp') as [->|Hx]; [|by right].
    left. simpl. rewrite Ed. by apply Hbody.
Qed.

(** Recovery on a freshly booted cache. *)
Lemma recover_run l v f :
  brep (bc l) v -> idle v -> bv_dirty v = ∅ -> lg_dev l = ROOTDEV -> lg_lock l = false -> 0 < lg_start l -> 0 < lg_size l ->
  lg_start l + lg_size l <= bv_size v -> bv_size v <= 2 ^ 31 -> length (lh_sector l) = Z.to_nat LOGSIZE ->
  recovers (lg_start l) (lg_size l) (bv_disk v) f ->
  exists l' ws, recover_from_log l = Ok tt l' /\ lrep l' (bv_writes ws v) [] /\
    lg_start l' = lg_start l /\ lg_size l' = lg_size l /\ lg_busy l' = lg_busy l /\
    (forall s, 0 <= s < lg_start l -> bv_disk (bv_writes ws v) s = f s) /\
    forall p, p `prefix_of` ws -> recovers (lg_start l) (lg_size l) (apply_writes p (bv_disk v)) f.
Proof.
  intros Hb Hid Hdi Hdv Hlk Hst Hsz Hend Hbig Hlen Hrc. pose proof (idle_held v Hid) as Hh. set (st := lg_start l) in *.
  set (x := bv_disk v st). assert (Hc : content v st = x) by (unfold content; by rewrite Hdi, lookup_empty).
  assert (Hroom : forall s s', (size (dom (bv_dirty v) ∪ held_sectors v ∪ {[s]} ∪ {[s']}) <= NBUF)%nat).
  { intros s s'. rewrite Hdi, Hh, dom_empty_L, union_empty_l_L, union_empty_l_L.
    pose proof (size_union_alt ({[s]} : gset Z) {[s']}) as Hu. pose proof (subseteq_size ({[s']} ∖ {[s]}) ({[s']} : gset Z) ltac:(set_solver)) as Hx.
    rewrite !size_singleton in *. unfold NBUF. lia. }
  assert (Hroom1 : forall s, buf_room v s) by (intros s; unfold buf_room; etransitivity; [|apply (Hroom s s)]; apply subseteq_size; set_solver).
  assert (Hclean : forall s, s ∉ dom (bv_dirty v)) by (intros s; rewrite Hdi, dom_empty_L; set_solver).
  assert (Hnh : forall s, s ∉ held_sectors v) by (intros s; rewrite Hh; set_solver).
  destruct (rc_n _ _ _ _ Hrc) as [Hn1 Hn2]. fold x in Hn1, Hn2. unfold recover_from_log.
  destruct (read_head_run l v Hb Hdv) as (c1 & secs & E1 & Hb1 & Hls & Hsecs); try done; [fold st; lia|fold st; rewrite Hc; lia|].
  fold st in E1, Hsecs. rewrite Hc in E1, Hsecs. mstep E1. unfold install_trans. rewrite bind_assoc_run. mrun1. l_simpl.
  set (l1 := set_bc c1 (set_lh_sector secs (set_lh_n (hdr_n x) l))) in *.
  destruct (install_loop l1 v (upto (hdr_n x)) (hdr_sector x) Hb1 Hdv) as (c2 & E2 & Hb2).
  { apply Forall_forall. intros i Hi%upto_elem. pose proof (rc_home _ _ _ _ Hrc i Hi) as Hhm. fold x in Hhm.
    split_and!; try done; try (unfold l1; l_simpl; fold st; lia); by (apply Hsecs || apply Hroom). }
  fold (installs st (bv_disk v)) in Hb2. mstep E2. mrun1. set (l2 := set_lh_n 0 (set_bc c2 l1)) in *.
  assert (Hinst : map (fun i => (hdr_sector x i, log_block l1 v i)) (upto (hdr_n x)) = installs st (bv_disk v)) by done.
  rewrite Hinst in Hb2. set (v2 := bv_writes (installs st (bv_disk v)) v) in *.
  assert (Hhd : bv_disk v2 st = x).
  { unfold v2. rewrite bv_writes_disk. apply apply_writes_other. unfold installs. rewrite <- list_fmap_compose.
    intros (i & Ei & Hi%upto_elem)%list_elem_of_fmap. simpl in Ei. pose proof (rc_home _ _ _ _ Hrc i Hi). lia. }
  destruct (write_head_run l2 v2) as (c3 & E3 & Hb3); try done; change (lg_start l2) with st; unfold v2; rewrite ?bv_writes_size; l_simpl.
  { lia. } { rewrite (held_same v _ (bv_writes_held _ v)). apply Hnh. } { intros Hx%bv_writes_dom. by apply Hclean in Hx. }
  { unfold buf_room. rewrite (held_same v _ (bv_writes_held _ v)). etransitivity; [|exact (Hroom1 st)]. apply subseteq_size.
    pose proof (bv_writes_dom (installs st (bv_disk v)) v). set_solver. }
  cbn [l2 l1 lg_start lh_n lh_sector set_lh_n set_bc set_lh_sector] in Hb3. fold st in Hb3. rewrite Hhd in Hb3.
  set (h0 := hdr_block x 0 secs) in *. exists (set_bc c3 l2), (installs st (bv_disk v) ++ [(st, h0)]).
  assert (Hxl : length x = Z.to_nat BSIZE) by (rewrite <- Hc; apply (brep_length _ _ _ Hb); lia).
  assert (H0 : hdr_n h0 = 0) by (apply hdr_block_n; [done|unfold LOGSIZE; lia]).
  destruct (recovers_done st (lg_size l) (bv_disk v) f h0 Hrc H0) as (Hz & Hhome & Hpre).
  split; [exact E3|]. split_and!; try done.
  - apply lrep_nil; try done; rewrite ?bv_writes_size; l_simpl; try done.
    + by rewrite bv_writes_app.
    + apply map_eq. intros s. rewrite bv_writes_dirty, Hdi. by case_decide.
    + fold st. rewrite bv_writes_disk. done.
  - intros s Hs. rewrite bv_writes_disk. by apply Hhome.
Qed.

Lemma readsb_run l v :
  brep (bc l) v -> idle v -> bv_dirty v = ∅ -> 1 < bv_size v ->
  let x := bv_disk v 1 in
  exists c', readsb ROOTDEV l = Ok (mkSb (get32 x 0) (get32 x 4) (get32 x 8) (get32 x 12)) (set_bc c' l) /\ brep c' v.
Proof.
  intros Hb Hid Hdi Hs x. unfold readsb. pose proof (idle_held v Hid) as Hh.
  destruct (bread_spec _ _ 1 Hb) as (h & c1 & E1 & Hn & Hb1).
  { lia. } { rewrite Hh. set_solver. }
  { unfold buf_room. rewrite Hdi, Hh, dom_empty_L, !union_empty_l_L, size_singleton. unfold NBUF. lia. }
  assert (Hc : content v 1 = x) by (unfold content; by rewrite Hdi, lookup_empty). rewrite Hc in Hb1.
  mstep (cache_ok _ _ _ _ E1). assert (Hx : bv_held (bv_hold h 1 x v) !! h = Some (1, x)) by (l_simpl; by rewrite lookup_insert_eq).
  erewrite bind_ok by (apply cache_ok; exact (bdata_spec _ _ _ _ _ Hb1 Hx)).
  destruct (brelse_spec _ _ h 1 x Hb1 Hx) as (c2 & E2 & Hb2); [by rewrite content_hold|]. rewrite drop_hold in Hb2 by done.
  erewrite bind_ok by (apply cache_ok; exact E2). exists c2. done.
Qed.

(** The disk of an xv6 file system of [size] blocks, [nlog] of them the log. *)
Definition log_place v (size nlog : Z) : Prop :=
  get32 (bv_disk v 1) 0 = size /\ get32 (bv_disk v 1) 12 = nlog /\
  0 < nlog /\ 1 < size - nlog /\ size <= bv_size v <= 2 ^ 31.

Lemma initlog_run l v f size nlog :
  brep (bc l) v -> idle v -> bv_dirty v = ∅ -> length (lh_sector l) = Z.to_nat LOGSIZE ->
  log_place v size nlog -> recovers (size - nlog) nlog (bv_disk v) f ->
  exists l' ws, initlog l = Ok tt l' /\ lrep l' (bv_writes ws v) [] /\
    lg_start l' = size - nlog /\ lg_size l' = nlog /\ lg_busy l' = lg_busy l /\
    (forall s, 0 <= s < size - nlog -> bv_disk (bv_writes ws v) s = f s) /\
    forall p, p `prefix_of` ws -> recovers (size - nlog) nlog (apply_writes p (bv_disk v)) f.
Proof.
  intros Hb Hid Hdi Hlen (H1 & H2 & H3 & H4 & H5 & H6) Hrc. unfold initlog. change (BSIZE <=? 4 + 4 * LOGSIZE) with false. cbn iota.
  rewrite (bind_ok _ _ l tt (set_lg_lock false l)) by done.
  destruct (readsb_run (set_lg_lock false l) v Hb Hid Hdi ltac:(lia)) as (c1 & E1 & Hb1). mstep E1. mrun1.
  cbn [sb_size sb_nlog]. rewrite H1, H2, (u32_id (size - nlog)) by lia.
  assert (E : forall n, 0 <= n < 2 ^ 31 -> i32 n = n) by (intros n Hn; rewrite <- (u32_id n) at 1 by lia; apply i32_u32; lia).
  rewrite !E by lia.
  destruct (recover_run (set_place (size - nlog) nlog (set_bc c1 (set_lg_lock false l))) v f) as (l' & ws & R); try done.
  { l_simpl. lia. } { l_simpl. lia. } exists l', ws. exact R.
Qed.
End Atomicity.
