(* ===== verification/Crash.v ===== *)
(** * Crash safety of the logged disk

    The theorems about src/log.c over any buffer cache ([Buffers]): what a
    transaction writes, what recovery restores, and their composition: a crash
    at any write of a transaction followed by initlog leaves the home blocks of
    either before or after the transaction.  The witnesses run on the buffer
    cache of src/bio.c. *)

From stdpp Require Import functions.
From S2P Require Import Prelude Bio Interfaces Spinlock Bytes Log.

Section Crash.
Context {C : Type} `{Buffers C}.
Implicit Types (l : log C) (v : bview).

(** A transaction of up to nine updates (begin_trans; bread, modify,
    log_write, brelse for each; commit_trans) succeeds, leaves the log empty and
    not busy, every buffer released and each home block at the last value the
    updates gave it.  At every moment in between, the disk (a prefix of the
    writes) is one from which recovery restores either all the old home blocks
    or all the new ones. *)
Theorem transaction_correct ups l v :
  lrep l v [] -> idle v -> lg_busy l = false ->
  Forall (fun w => 0 <= w.1 < lg_start l /\ length w.2 = Z.to_nat BSIZE) ups ->
  (length ups <= Z.to_nat LOGSIZE)%nat -> Z.of_nat (length ups) <= lg_size l - 1 -> (length ups < NBUF)%nat ->
  exists l' v' ws, transaction ups l = Ok tt l' /\ lrep l' v' [] /\ idle v' /\ lg_busy l' = false /\
    bv_hist v' = bv_hist v ++ ws /\
    (forall s, 0 <= s < lg_start l -> bv_disk v' s = apply_writes ups (bv_disk v) s) /\
    forall p, p `prefix_of` ws ->
      recovers (lg_start l) (lg_size l) (apply_writes p (bv_disk v)) (bv_disk v) \/
      recovers (lg_start l) (lg_size l) (apply_writes p (bv_disk v)) (apply_writes ups (bv_disk v)).
Proof.
  intros Hr Hid Hb Hu H1 H2 H3. destruct (transaction_run ups l v Hr Hid Hb Hu H1 H2 H3) as (l' & v' & ws & ? & ? & ? & ? & ? & ? & _ & ?).
  by exists l', v', ws.
Qed.

(** Initlog finds the log from the superblock, installs the committed blocks
    and clears the header: the home blocks become the ones the header committed
    to.  A crash during recovery changes nothing: after any prefix of its writes
    the disk still recovers to the same blocks. *)
Theorem initlog_correct l v f size nlog :
  brep (bc l) v -> idle v -> bv_dirty v = ∅ -> length (lh_sector l) = Z.to_nat LOGSIZE ->
  log_place v size nlog -> recovers (size - nlog) nlog (bv_disk v) f ->
  exists l' ws, initlog l = Ok tt l' /\ lrep l' (bv_writes ws v) [] /\
    lg_start l' = size - nlog /\ lg_size l' = nlog /\ lg_busy l' = lg_busy l /\
    (forall s, 0 <= s < size - nlog -> bv_disk (bv_writes ws v) s = f s) /\
    forall p, p `prefix_of` ws -> recovers (size - nlog) nlog (apply_writes p (bv_disk v)) f.
Proof. apply initlog_run. Qed.

(** A machine that has just booted on the disk [d]. *)
Definition booted l v (d : Z -> block) : Prop :=
  brep (bc l) v /\ idle v /\ bv_dirty v = ∅ /\ length (lh_sector l) = Z.to_nat LOGSIZE /\ bv_disk v = d.

(** C1: crash safety. Whatever write of the transaction the power fails after,
    the machine that boots on that disk and runs initlog has either every home
    block of before the transaction or every home block of after it. *)
Theorem crash_safe ups l v size nlog :
  lrep l v [] -> idle v -> lg_busy l = false -> log_place v size nlog -> lg_start l = size - nlog -> lg_size l = nlog ->
  Forall (fun w => 1 < w.1 < lg_start l /\ length w.2 = Z.to_nat BSIZE) ups ->
  (length ups <= Z.to_nat LOGSIZE)%nat -> Z.of_nat (length ups) <= nlog - 1 -> (length ups < NBUF)%nat ->
  exists l' v' ws, transaction ups l = Ok tt l' /\ bv_hist v' = bv_hist v ++ ws /\ brep (bc l') v' /\
    forall p l2 v2, p `prefix_of` ws -> booted l2 v2 (apply_writes p (bv_disk v)) -> bv_size v2 = bv_size v ->
      exists l3 v3, initlog l2 = Ok tt l3 /\ lrep l3 v3 [] /\
        ((forall s, 0 <= s < lg_start l -> bv_disk v3 s = bv_disk v s) \/
         (forall s, 0 <= s < lg_start l -> bv_disk v3 s = apply_writes ups (bv_disk v) s)).
Proof.
  intros Hr Hid Hb Hpl Es Ez Hu H1 H2 H3.
  destruct (transaction_run ups l v Hr Hid Hb) as (l' & v' & ws & E & Hr' & _ & _ & Eh & _ & Hk & Hp); try done; [|lia|].
  { eapply Forall_impl; [exact Hu|]. intros w [? ?]. split; [lia|done]. }
  exists l', v', ws. split_and!; [done|done|apply Hr'|].
  intros p l2 v2 Hpre (Hb2 & Hid2 & Hd2 & Hl2 & Ed2) En2.
  assert (Hsb : bv_disk v2 1 = bv_disk v 1).
  { rewrite Ed2. apply apply_writes_other. intros Hin. destruct Hpre as [q ->]. rewrite fmap_app in Hk.
    destruct (Hk 1) as [Hge|Hup]; [apply elem_of_app; by left| |].
    - destruct Hpl as (_ & _ & _ & ? & _). lia.
    - apply list_elem_of_fmap in Hup as (w & Ew & Hw). rewrite Forall_forall in Hu. specialize (Hu w Hw). lia. }
  assert (Hpl2 : log_place v2 size nlog) by (unfold log_place; by rewrite Hsb, En2).
  rewrite Es, Ez in Hp. rewrite Es. destruct (Hp p Hpre) as [Hrc|Hrc]; rewrite <- Ed2 in Hrc;
    destruct (initlog_run l2 v2 _ size nlog Hb2 Hid2 Hd2 Hl2 Hpl2 Hrc) as (l3 & ws3 & E3 & Hr3 & _ & _ & _ & Hhome & _);
    exists l3, (bv_writes ws3 v2); split_and!; try done; [left|right]; exact Hhome.
Qed.
End Crash.

(** ** A disk of 16 blocks, the last four of them the log *)

Definition sb_block : block := put32 (put32 (replicate 512 0) 0 16) 12 4.
Definition disk16 : bcache :=
  mkBcache false (fun _ => mkBuf 0 0 0 0 0 []) (fun s => if s =? 1 then sb_block else replicate 512 0) 16 [].

Lemma disk16_blocks s : 0 <= s < disksize disk16 -> length (memdisk disk16 s) = Z.to_nat BSIZE.
Proof. intros _. cbn [memdisk disk16]. by destruct (s =? 1). Qed.

Lemma disk16_place : log_place (fresh_view disk16) 16 4.
Proof. by split_and!; try (vm_compute; reflexivity). Qed.

Lemma disk16_clean : hdr_n (bv_disk (fresh_view disk16) 12) = 0.
Proof. vm_compute. reflexivity. Qed.

(** A fresh cache over it. *)
Lemma disk16_boots : exists c, binit disk16 = Ok tt c /\ brep c (fresh_view disk16).
Proof.
  destruct (binit_run disk16 ltac:(done) disk16_blocks) as (c & E & Hok). exists c. split; [exact E|]. by eexists.
Qed.

Definition log16 (c : bcache) : log bcache := mkLog false 12 4 false ROOTDEV 0 (replicate 10 0) c.

Lemma log16_rep c : brep c (fresh_view disk16) -> lrep (log16 c) (fresh_view disk16) [].
Proof. intros Hb. by apply lrep_nil. Qed.

Definition ups16 : list (Z * block) := [(3, replicate 512 7); (5, replicate 512 9); (3, replicate 512 8)].
Lemma ups16_ok : Forall (fun w : Z * block => 1 < w.1 < 12 /\ length w.2 = Z.to_nat BSIZE) ups16.
Proof. repeat constructor. Qed.

Lemma transaction_correct_witness :
  exists c l' v', transaction ups16 (log16 c) = Ok tt l' /\ lrep l' v' [] /\ bv_disk v' 3 = replicate 512 8.
Proof.
  destruct disk16_boots as (c & _ & Hb). exists c.
  destruct (transaction_correct ups16 (log16 c) (fresh_view disk16) (log16_rep c Hb)) as (l' & v' & ws & E & Hr & _ & _ & _ & Hd & _);
    [reflexivity|reflexivity| |vm_compute; lia|vm_compute; congruence|vm_compute; lia|].
  { eapply Forall_impl; [exact ups16_ok|]. intros [s x] [Hs Hx]. cbn in Hs. split; [cbn; lia|exact Hx]. }
  exists l', v'. split; [exact E|]. split; [exact Hr|]. rewrite Hd by (cbn; lia). vm_compute. reflexivity.
Defined.

Lemma initlog_correct_witness :
  exists c l' v', initlog (log16 c) = Ok tt l' /\ lrep l' v' [] /\ lg_start l' = 12.
Proof.
  destruct disk16_boots as (c & _ & Hb). exists c.
  destruct (initlog_correct (log16 c) (fresh_view disk16) (bv_disk (fresh_view disk16)) 16 4 Hb) as (l' & ws & E & Hr & Hs & _);
    [reflexivity|reflexivity|reflexivity|exact disk16_place|apply recovers_clean; [exact disk16_clean|lia|reflexivity]|].
  exists l', (bv_writes ws (fresh_view disk16)). split; [exact E|]. split; [exact Hr|exact Hs].
Defined.

Lemma crash_safe_witness :
  exists c l' v', transaction ups16 (log16 c) = Ok tt l' /\ brep (bc l') v'.
Proof.
  destruct disk16_boots as (c & _ & Hb). exists c.
  destruct (crash_safe ups16 (log16 c) (fresh_view disk16) 16 4 (log16_rep c Hb)) as (l' & v' & ws & E & _ & Hr & _);
    [reflexivity|reflexivity|exact disk16_place|reflexivity|reflexivity|exact ups16_ok|vm_compute; lia|vm_compute; congruence|vm_compute; lia|].
  exists l', v'. split; [exact E|exact Hr].
Defined.
