(* ===== verification/Sh.v ===== *)
(** * sh.c: the shell

    The command line [buf] is the C string gets has read, without its final
    NUL: [es] points at that NUL.  The parser's state is the pointer [*ps], an
    index into [buf].  A parsed command holds words as pairs (q, eq) of
    indices, the pointers that argv/eargv and file/efile hold until
    nulterminate writes the NULs.  The nodes are values: malloc is taken to
    succeed, as the code does.  panic() stops the parse.

    The second half gives the grammar the parser implements: tokens, how a
    line spells them, and the command each sentence denotes. *)

From Stdlib Require Import Ascii.
From S2P Require Import Prelude.
Import list_monad.list.

Definition ch (c : ascii) : Z := Z.of_N (N_of_ascii c).
Fixpoint str (s : string) : list Z :=
  match s with EmptyString => [] | String c s => ch c :: str s end.

Definition MAXARGS : nat := 10.
Definition O_RDONLY : Z := 0x000.
Definition O_WRONLY : Z := 0x001.
Definition O_RDWR : Z := 0x002.
Definition O_CREATE : Z := 0x200.

(** The nodes of a command over words of type [W]. *)
Inductive cmd (W : Type) : Type :=
| EXEC (argv : list W)
| REDIR (c : cmd W) (file : W) (mode fd : Z)
| PIPE (left right : cmd W)
| LIST (left right : cmd W)
| BACK (c : cmd W).
Arguments EXEC {W} argv.
Arguments REDIR {W} c file mode fd.
Arguments PIPE {W} left right.
Arguments LIST {W} left right.
Arguments BACK {W} c.

Fixpoint cmd_map {W V} (f : W -> V) (c : cmd W) : cmd V :=
  match c with
  | EXEC argv => EXEC (map f argv)
  | REDIR c file mode fd => REDIR (cmd_map f c) (f file) mode fd
  | PIPE l r => PIPE (cmd_map f l) (cmd_map f r)
  | LIST l r => LIST (cmd_map f l) (cmd_map f r)
  | BACK c => BACK (cmd_map f c)
  end.

(** [ret] and [cmd] of parseexec share the execcmd node: an assignment to
    cmd->argv is seen through the redircmd nodes [ret] has put around it. *)
Fixpoint assign_argv {W} (argv : list W) (ret : cmd W) : cmd W :=
  match ret with
  | EXEC _ => EXEC argv
  | REDIR c file mode fd => REDIR (assign_argv argv c) file mode fd
  | c => c
  end.

Definition whitespace : list Z := [32; 9; 13; 10; 11].
Definition symbols : list Z := str "<|>&;()".

(** strchr(s, c) != 0: the NUL of [s] is not found. *)
Definition strchr (s : list Z) (c : Z) : bool := existsb (Z.eqb c) s.

(** How far a scan [while (s < es && f( *s )) s++] runs over [l]. *)
Fixpoint span (f : Z -> bool) (l : list Z) : nat :=
  match l with
  | c :: l => if f c then S (span f l) else O
  | [] => O
  end.

Section Parser.
Context (buf : list Z).
Implicit Types (p : nat).

Definition char_at p : Z := default 0 (buf !! p).
Definition skip_white p : nat := (p + span (strchr whitespace) (drop p buf))%nat.
Definition word_char (c : Z) : bool := negb (strchr whitespace c) && negb (strchr symbols c).

(** The token's code and the pointers [*q], [*eq]. *)
Definition gettoken : M nat (Z * (nat * nat)) := fun p =>
  let q := skip_white p in
  let c := char_at q in
  let '(ret, eq) :=
    if c =? 0 then (0, q)
    else if strchr (str "|();&<") c then (c, S q)
    else if c =? ch ">" then (if char_at (S q) =? ch ">" then (ch "+", S (S q)) else (ch ">", S q))
    else (ch "a", (q + span word_char (drop q buf))%nat) in
  Ok (ret, (q, eq)) (skip_white eq).

Definition peek (toks : list Z) : M nat bool := fun p =>
  let s := skip_white p in
  Ok (truth (char_at s) && strchr toks (char_at s)) s.

(** Every turn of a loop of the parser moves [*ps]. *)
Definition turns : nat := S (length buf).

Fixpoint parseredirs_loop (fuel : nat) (c : cmd (nat * nat)) : M nat (cmd (nat * nat)) :=
  match fuel with
  | O => halt SFuel
  | S fuel =>
      b ← peek (str "<>");
      if b : bool then
        tok ← gettoken;
        a ← gettoken;
        if negb (a.1 =? ch "a") then panic "missing file for redirection"
        else
          let c' := if tok.1 =? ch "<" then REDIR c a.2 O_RDONLY 0
                    else if tok.1 =? ch ">" then REDIR c a.2 (Z.lor O_WRONLY O_CREATE) 1
                    else if tok.1 =? ch "+" then REDIR c a.2 (Z.lor O_WRONLY O_CREATE) 1
                    else c in
          parseredirs_loop fuel c'
      else mret c
  end.
Definition parseredirs (c : cmd (nat * nat)) : M nat (cmd (nat * nat)) := parseredirs_loop turns c.

Fixpoint parseargs (fuel : nat) (argv : list (nat * nat)) (ret : cmd (nat * nat)) : M nat (cmd (nat * nat)) :=
  match fuel with
  | O => halt SFuel
  | S fuel =>
      b ← peek (str "|)&;");
      if b : bool then mret (assign_argv argv ret)
      else
        t ← gettoken;
        if t.1 =? 0 then mret (assign_argv argv ret)
        else if negb (t.1 =? ch "a") then panic "syntax"
        else
          let argv := argv ++ [t.2] in
          if (MAXARGS <=? length argv)%nat then panic "too many args"
          else ret ← parseredirs (assign_argv argv ret); parseargs fuel argv ret
  end.

Fixpoint parseback (fuel : nat) (c : cmd (nat * nat)) : M nat (cmd (nat * nat)) :=
  match fuel with
  | O => halt SFuel
  | S fuel =>
      b ← peek (str "&");
      if b : bool then gettoken;; parseback fuel (BACK c) else mret c
  end.

Fixpoint parseline (fuel : nat) : M nat (cmd (nat * nat)) :=
  match fuel with
  | O => halt SFuel
  | S fuel =>
      c ← parsepipe fuel;
      c ← parseback turns c;
      b ← peek (str ";");
      if b : bool then gettoken;; r ← parseline fuel; mret (LIST c r) else mret c
  end
with parsepipe (fuel : nat) : M nat (cmd (nat * nat)) :=
  match fuel with
  | O => halt SFuel
  | S fuel =>
      c ← parseexec fuel;
      b ← peek (str "|");
      if b : bool then gettoken;; r ← parsepipe fuel; mret (PIPE c r) else mret c
  end
with parseexec (fuel : nat) : M nat (cmd (nat * nat)) :=
  match fuel with
  | O => halt SFuel
  | S fuel =>
      b ← peek (str "(");
      if b : bool then parseblock fuel
      else ret ← parseredirs (EXEC []); parseargs turns [] ret
  end
with parseblock (fuel : nat) : M nat (cmd (nat * nat)) :=
  match fuel with
  | O => halt SFuel
  | S fuel =>
      b ← peek (str "(");
      if negb b then panic "parseblock"
      else
        gettoken;;
        c ← parseline fuel;
        b ← peek (str ")");
        if negb b then panic "syntax - missing )"
        else gettoken;; parseredirs c
  end.
End Parser.

(** NULs written at the ends of the words, in the code's order. *)
Fixpoint nulterminate (c : cmd (nat * nat)) (b : list Z) : list Z :=
  match c with
  | EXEC argv => foldl (fun b w => <[w.2 := 0]> b) b argv
  | REDIR c file _ _ => <[file.2 := 0]> (nulterminate c b)
  | PIPE l r => nulterminate r (nulterminate l b)
  | LIST l r => nulterminate r (nulterminate l b)
  | BACK c => nulterminate c b
  end.

(** Fuel for the recursion: a line nests at most once per character. *)
Definition parse_fuel (buf : list Z) : nat := (4 * length buf + 4)%nat.

(** The command, with the buffer [nulterminate] leaves ([buf] and its NUL). *)
Definition parsecmd (buf : list Z) : M nat (cmd (nat * nat) * list Z) :=
  c ← parseline buf (parse_fuel buf);
  peek buf [];;
  s ← get;
  if negb (s =? length buf)%nat then panic "syntax"
  else mret (c, nulterminate c (buf ++ [0])).

(** The C string at [q] of a buffer. *)
Definition cstring (b : list Z) (q : nat) : list Z := take (span (fun c => negb (c =? 0)) (drop q b)) (drop q b).

(** ** The language of command lines *)

Inductive tok : Type :=
| TSym (c : Z)           (** one of [|();&<] *)
| TGt                    (** [>] *)
| TApp                   (** [>>] *)
| TWord (w : list Z).

Definition text (t : tok) : list Z :=
  match t with TSym c => [c] | TGt => str ">" | TApp => str ">>" | TWord w => w end.
(** The code gettoken returns. *)
Definition code (t : tok) : Z :=
  match t with TSym c => c | TGt => ch ">" | TApp => ch "+" | TWord _ => ch "a" end.
Definition letter (c : Z) : bool := word_char c && negb (c =? 0).
Definition tok_ok (t : tok) : Prop :=
  match t with
  | TSym c => strchr (str "|();&<") c = true
  | TWord w => w <> [] /\ Forall (fun c => letter c = true) w
  | _ => True
  end.
(** The token ends where [rest] begins. *)
Definition ends (t : tok) (rest : list Z) : Prop :=
  match t, rest with
  | TGt, c :: _ => c <> ch ">"
  | TWord _, c :: _ => word_char c = false
  | _, _ => True
  end.
Definition white (ws : list Z) : Prop := Forall (fun c => strchr whitespace c = true) ws.

(** [spells l ts]: the text [l] is the tokens [ts], with any white space around. *)
Inductive spells : list Z -> list tok -> Prop :=
| sp_end ws : white ws -> spells ws []
| sp_tok ws t rest ts : white ws -> tok_ok t -> ends t rest -> spells rest ts -> spells (ws ++ text t ++ rest) (t :: ts).

Inductive rkind : Type := RIn | ROut | RApp.
(** line := pipe {&} [; line];  pipe := exec [| pipe];
    exec := {redir} {word {redir}}  or  ( line ) {redir} *)
Inductive line : Type :=
| LEnd (p : pipeline) (nback : nat)
| LSeq (p : pipeline) (nback : nat) (l : line)
with pipeline : Type :=
| PEnd (e : exec)
| PBar (e : exec) (p : pipeline)
with exec : Type :=
| Simple (rs : list (rkind * list Z)) (args : list (list Z * list (rkind * list Z)))
| Block (l : line) (rs : list (rkind * list Z)).

Scheme line_mut := Induction for line Sort Prop
with pipeline_mut := Induction for pipeline Sort Prop
with exec_mut := Induction for exec Sort Prop.
Combined Scheme grammar_ind from line_mut, pipeline_mut, exec_mut.

Definition rtok (k : rkind) : tok := match k with RIn => TSym (ch "<") | ROut => TGt | RApp => TApp end.
Definition toks_redirs (rs : list (rkind * list Z)) : list tok := concat (map (fun r => [rtok r.1; TWord r.2]) rs).
Definition toks_args (args : list (list Z * list (rkind * list Z))) : list tok :=
  concat (map (fun a => TWord a.1 :: toks_redirs a.2) args).
Fixpoint toks_line (l : line) : list tok :=
  match l with
  | LEnd p n => toks_pipe p ++ replicate n (TSym (ch "&"))
  | LSeq p n l => toks_pipe p ++ replicate n (TSym (ch "&")) ++ TSym (ch ";") :: toks_line l
  end
with toks_pipe (p : pipeline) : list tok :=
  match p with
  | PEnd e => toks_exec e
  | PBar e p => toks_exec e ++ TSym (ch "|") :: toks_pipe p
  end
with toks_exec (e : exec) : list tok :=
  match e with
  | Simple rs args => toks_redirs rs ++ toks_args args
  | Block l rs => TSym (ch "(") :: toks_line l ++ TSym (ch ")") :: toks_redirs rs
  end.

(** What a sentence means: the redirections wrap the command in their order,
    the last one outermost. *)
Definition redir {W} (c : cmd W) (r : rkind * W) : cmd W :=
  match r.1 with
  | RIn => REDIR c r.2 O_RDONLY 0
  | _ => REDIR c r.2 (Z.lor O_WRONLY O_CREATE) 1
  end.
Fixpoint den_line (l : line) : cmd (list Z) :=
  match l with
  | LEnd p n => Nat.iter n BACK (den_pipe p)
  | LSeq p n l => LIST (Nat.iter n BACK (den_pipe p)) (den_line l)
  end
with den_pipe (p : pipeline) : cmd (list Z) :=
  match p with
  | PEnd e => den_exec e
  | PBar e p => PIPE (den_exec e) (den_pipe p)
  end
with den_exec (e : exec) : cmd (list Z) :=
  match e with
  | Simple rs args => foldl redir (EXEC args.*1) (rs ++ concat args.*2)
  | Block l rs => foldl redir (den_line l) rs
  end.

(** Simple commands have fewer than MAXARGS words. *)
Fixpoint short_line (l : line) : Prop :=
  match l with
  | LEnd p _ => short_pipe p
  | LSeq p _ l => short_pipe p /\ short_line l
  end
with short_pipe (p : pipeline) : Prop :=
  match p with
  | PEnd e => short_exec e
  | PBar e p => short_exec e /\ short_pipe p
  end
with short_exec (e : exec) : Prop :=
  match e with
  | Simple _ args => (length args < MAXARGS)%nat
  | Block l _ => short_line l
  end.

(** ** Scanning *)

Lemma span_app f a b :
  Forall (fun c => f c = true) a -> (forall c, head b = Some c -> f c = false) -> span f (a ++ b) = length a.
Proof.
  intros Ha Hb. induction Ha as [|c a Hc Ha IH]; simpl.
  - destruct b as [|c b]; [done|]. simpl. by rewrite (Hb c).
  - by rewrite Hc, IH.
Qed.

Lemma span_le f l : (span f l <= length l)%nat.
Proof. induction l as [|c l IH]; simpl; [lia|]. destruct (f c); lia. Qed.

Lemma span_take f l : Forall (fun c => f c = true) (take (span f l) l).
Proof. induction l as [|x l IH]; simpl; [done|]. destruct (f x) eqn:E; [by constructor|done]. Qed.

Lemma span_stop f l : match drop (span f l) l with c :: _ => f c = false | [] => True end.
Proof. induction l as [|c l IH]; simpl; [done|]. destruct (f c) eqn:E; [exact IH|exact E]. Qed.

Lemma letter_inv c : letter c = true -> c <> 0 /\ strchr whitespace c = false /\ strchr symbols c = false.
Proof.
  unfold letter, word_char. rewrite !andb_true_iff, !negb_true_iff, Z.eqb_neq. tauto.
Qed.

(** A symbol is neither white space nor the NUL. *)
Lemma symbol_inv c : strchr (str "|();&<>") c = true -> c <> 0 /\ strchr whitespace c = false.
Proof.
  unfold strchr. rewrite existsb_exists. intros (x & Hx & E). apply Z.eqb_eq in E. subst x.
  cbn in Hx. repeat (destruct Hx as [<-|Hx]; [by vm_compute|]). done.
Qed.

Lemma text_head t : tok_ok t -> exists c l, text t = c :: l /\ c <> 0 /\ strchr whitespace c = false.
Proof.
  destruct t as [c| | |w]; simpl; intros Hok.
  - exists c, []. split; [done|]. apply symbol_inv. simpl. rewrite !orb_true_iff in *. tauto.
  - by exists 62, [].
  - by exists 62, [62].
  - destruct Hok as [Hne Hw]. destruct w as [|c w]; [done|]. apply Forall_cons in Hw as [(? & ? & _)%letter_inv _]. by exists c, w.
Qed.

(** White space in front does not change the tokens. *)
Lemma spells_skip l ts : spells l ts -> spells (drop (span (strchr whitespace) l) l) ts.
Proof.
  intros Hs. destruct Hs as [ws Hws|ws t rest ts Hws Hok He Hs].
  - rewrite <- (app_nil_r ws), span_app, drop_app_length by done. by apply sp_end, Forall_nil_2.
  - destruct (text_head t Hok) as (c & l & E & _ & Hc). rewrite span_app; [|done|].
    + rewrite drop_app_length. apply (sp_tok [] t rest ts); [apply Forall_nil_2|done..].
    + rewrite E. simpl. intros c' [= <-]. done.
Qed.

Section Correct.
Context (buf : list Z).

(** The tokens from the pointer on. *)
Definition at_toks (p : nat) (ts : list tok) : Prop := (p <= length buf)%nat /\ spells (drop p buf) ts.
Definition word (w : nat * nat) : list Z := take (w.2 - w.1) (drop w.1 buf).
(** A maximal run of letters. *)
Definition maxword (w : nat * nat) : Prop :=
  (w.1 < w.2 <= length buf)%nat /\ Forall (fun c => letter c = true) (word w) /\
  match drop w.2 buf with c :: _ => word_char c = false | [] => True end.

Lemma skip_white_toks p ts : at_toks p ts -> at_toks (skip_white buf p) ts /\ (p <= skip_white buf p)%nat.
Proof.
  intros [Hp Hs]. unfold at_toks, skip_white. pose proof (span_le (strchr whitespace) (drop p buf)) as Hl.
  rewrite length_drop in Hl. split; [|lia]. split; [lia|]. rewrite <- drop_drop. by apply spells_skip.
Qed.

Lemma char_at_drop p c l : drop p buf = c :: l -> char_at buf p = c.
Proof. intros E. unfold char_at. by rewrite <- (Nat.add_0_r p), <- lookup_drop, E. Qed.

(** What skip_white finds: the end, or the first character of a token. *)
Lemma skip_white_end p : at_toks p [] -> drop (skip_white buf p) buf = [].
Proof.
  intros [_ Hs]. inversion Hs as [ws Hws E|]; subst. unfold skip_white. rewrite <- drop_drop.
  rewrite <- (app_nil_r (drop p buf)) at 1. rewrite span_app by done. by rewrite drop_all.
Qed.

Lemma skip_white_tok p t ts :
  at_toks p (t :: ts) ->
  exists rest, drop (skip_white buf p) buf = text t ++ rest /\ tok_ok t /\ ends t rest /\ spells rest ts.
Proof.
  intros [_ Hs]. inversion Hs as [|ws t' rest ts' Hws Hok He Hr E]; subst.
  exists rest. unfold skip_white. rewrite <- drop_drop, <- E. destruct (text_head t Hok) as (c & l & Et & _ & Hc).
  rewrite span_app, drop_app_length; [done|done|]. rewrite Et. by intros c' [= <-].
Qed.

Lemma drop_app_next p a rest : drop p buf = a ++ rest -> drop (p + length a) buf = rest.
Proof. intros E. rewrite <- drop_drop, E. apply drop_app_length. Qed.

(** The scan of gettoken ends after the token's text. *)
Lemma gettoken_text p t ts rest :
  let q := skip_white buf p in
  drop q buf = text t ++ rest -> tok_ok t -> ends t rest -> spells rest ts ->
  gettoken buf p = Ok (code t, (q, (q + length (text t))%nat)) (skip_white buf (q + length (text t))%nat).
Proof.
  intros q E Hok He Hr. unfold gettoken. fold q. destruct (text_head t Hok) as (c & l & Et & Hc0 & Hcw).
  rewrite Et in E. pose proof (char_at_drop q c (l ++ rest) E) as Hc. rewrite Hc, (proj2 (Z.eqb_neq _ _) Hc0).
  destruct t as [s| | |w]; cbn [text] in Et; cbn [code].
  - injection Et as -> <-. cbn [tok_ok] in Hok. rewrite Hok. cbn [text length]. by rewrite Nat.add_1_r.
  - injection Et as <- <-. change (strchr (str "|();&<") (ch ">")) with false. cbn iota. rewrite Z.eqb_refl.
    assert (Hn : (char_at buf (S q) =? ch ">") = false).
    { apply Z.eqb_neq. destruct rest as [|c rest]; cbn in E.
      - unfold char_at. rewrite <- Nat.add_1_r, <- lookup_drop, E. done.
      - rewrite (char_at_drop (S q) c rest); [done|]. rewrite <- Nat.add_1_r. by apply (drop_app_next q [62]). }
    rewrite Hn. cbn [text length str]. by rewrite Nat.add_1_r.
  - injection Et as <- <-. change (strchr (str "|();&<") (ch ">")) with false. cbn iota. rewrite Z.eqb_refl.
    rewrite (char_at_drop (S q) (ch ">") rest), Z.eqb_refl.
    + cbn [text length str]. by rewrite <- plus_n_Sm, Nat.add_1_r.
    + rewrite <- Nat.add_1_r. by apply (drop_app_next q [62]).
  - subst w. destruct Hok as [_ Hw]. pose proof (Forall_inv Hw) as (_ & _ & Hsym)%letter_inv. simpl in Hsym.
    rewrite !orb_false_iff in Hsym. destruct Hsym as (H1 & H2 & H3 & H4 & H5 & H6 & H7 & _).
    assert (Hs : strchr (str "|();&<") c = false) by (simpl; by rewrite H1, H2, H4, H5, H6, H7).
    rewrite Hs. change ((c =? ch ">") = false) in H3. rewrite H3, E. cbn iota. change (c :: l ++ rest) with ((c :: l) ++ rest).
    rewrite span_app; [done| |].
    + eapply Forall_impl; [exact Hw|]. intros x Hx. unfold letter in Hx. by apply andb_true_iff in Hx as [Hx _].
    + intros x Hx. destruct rest as [|y rest]; [done|]. simpl in Hx, He. congruence.
Qed.

Lemma gettoken_tok p t ts :
  at_toks p (t :: ts) ->
  exists w p', gettoken buf p = Ok (code t, w) p' /\ at_toks p' ts /\ (forall x, t = TWord x -> word w = x /\ maxword w).
Proof.
  intros Ht. destruct (skip_white_tok p t ts Ht) as (rest & E & Hok & He & Hr). set (q := skip_white buf p) in *.
  set (eq := (q + length (text t))%nat).
  assert (Eeq : drop eq buf = rest) by (by apply drop_app_next). 
  assert (Hlen : (eq <= length buf)%nat).
  { pose proof (f_equal length E) as Hl. rewrite length_drop, length_app in Hl. unfold eq.
    destruct (decide (q <= length buf)%nat); [lia|]. destruct (text_head t Hok) as (c & l & Et & _). rewrite Et in Hl. simpl in Hl. lia. }
  exists (q, eq), (skip_white buf eq). split; [by eapply gettoken_text|]. split.
  - apply skip_white_toks. split; [done|]. by rewrite Eeq.
  - intros x ->. assert (Ew : word (q, eq) = x).
    { unfold word. cbn [fst snd]. rewrite E. cbn [text]. unfold eq. cbn [text].
      replace (q + length x - q)%nat with (length x) by lia. apply take_app_length. }
    split; [done|]. unfold maxword. rewrite Ew. cbn [fst snd]. destruct Hok as [Hne Hx]. split_and!; try done.
    + unfold eq. cbn [text]. destruct x; [done|]. simpl. lia.
    + rewrite Eeq. by destruct rest.
Qed.

Lemma gettoken_end p : at_toks p [] -> exists w p', gettoken buf p = Ok (0, w) p' /\ at_toks p' [].
Proof.
  intros Ht. pose proof (skip_white_end p Ht) as E. unfold gettoken.
  assert (Hc : char_at buf (skip_white buf p) = 0) by (unfold char_at; by rewrite <- (Nat.add_0_r (skip_white buf p)), <- lookup_drop, E).
  rewrite Hc. simpl. eexists _, _. split; [done|]. by apply skip_white_toks, skip_white_toks.
Qed.

(** The character peek looks at. *)
Definition first (ts : list tok) : Z := match ts with [] => 0 | t :: _ => default 0 (head (text t)) end.
Definition sees (set : list Z) (ts : list tok) : bool := truth (first ts) && strchr set (first ts).

Lemma peek_toks p ts set : at_toks p ts -> exists p', peek buf set p = Ok (sees set ts) p' /\ at_toks p' ts.
Proof.
  intros Ht. exists (skip_white buf p). split; [|by apply skip_white_toks]. unfold peek, sees.
  assert (Hc : char_at buf (skip_white buf p) = first ts); [|by rewrite Hc].
  destruct ts as [|t ts]; simpl.
  - apply skip_white_end in Ht. unfold char_at. by rewrite <- (Nat.add_0_r (skip_white buf p)), <- lookup_drop, Ht.
  - destruct (skip_white_tok p t ts Ht) as (rest & E & Hok & _). destruct (text_head t Hok) as (c & l & Et & _).
    rewrite Et in *. simpl. by eapply char_at_drop.
Qed.

Lemma spells_length l ts : spells l ts -> (length ts <= length l)%nat.
Proof.
  induction 1 as [|ws t rest ts Hws Hok He Hs IH]; simpl; [lia|]. rewrite !length_app.
  destruct (text_head t Hok) as (c & l & -> & _). simpl. lia.
Qed.

Lemma toks_turns p ts : at_toks p ts -> (length ts < turns buf)%nat.
Proof. intros [Hp Hs%spells_length]. rewrite length_drop in Hs. unfold turns. lia. Qed.

Lemma toks_ok p ts t : at_toks p ts -> t ∈ ts -> tok_ok t.
Proof.
  intros [_ Hs]. revert t. induction Hs as [|ws t rest ts _ Hok _ _ IH]; intros t'; [by intros ?%not_elem_of_nil|].
  intros [->|Hin]%elem_of_cons; auto.
Qed.

Lemma sees_word set w k : tok_ok (TWord w) -> incl set symbols -> sees set (TWord w :: k) = false.
Proof.
  intros [Hne Hl] Hi. unfold sees, first. simpl. destruct w as [|c w]; [done|]. simpl.
  apply Forall_inv, letter_inv in Hl as (_ & _ & Hs). apply andb_false_intro2. apply not_true_is_false. intros E.
  unfold strchr in *. apply existsb_exists in E as (x & Hx & Ex). rewrite <- not_true_iff_false in Hs. apply Hs.
  apply existsb_exists. exists x. split; [by apply Hi|done].
Qed.

(** A token that cannot continue what is before it. *)
Definition follow (set : list Z) (k : list tok) : bool :=
  match k with [] => true | TSym c :: _ => strchr set c | _ => false end.

Lemma follow_weaken s1 s2 k : incl s1 s2 -> follow s1 k = true -> follow s2 k = true.
Proof.
  intros Hi. destruct k as [|[c| | |w] k]; simpl; try done. unfold strchr. rewrite !existsb_exists.
  intros (x & Hx & E). exists x. split; [by apply Hi|done].
Qed.

Lemma follow_sees set set' k :
  follow set k = true -> (forall c, In c set -> strchr set' c = false) -> sees set' k = false.
Proof.
  intros Hf Hs. unfold sees, first. destruct k as [|[c| | |w] k]; try done. simpl in *. unfold strchr in Hf.
  apply existsb_exists in Hf as (x & Hx & E). apply Z.eqb_eq in E. subst x. by rewrite Hs, andb_false_r.
Qed.
Lemma follow_seen set k : follow set k = true -> k = [] \/ (sees set k = true \/ exists k', k = TSym 0 :: k').
Proof.
  intros Hf. destruct k as [|[c| | |w] k]; try done; [by left|right]. unfold sees. simpl in *. rewrite Hf, andb_true_r.
  unfold truth. destruct (Z.eqb_spec c 0) as [->|]; [right; by eexists|by left].
Qed.

Fixpoint cmd_words {W} (c : cmd W) : list W :=
  match c with
  | EXEC argv => argv
  | REDIR c file _ _ => cmd_words c ++ [file]
  | PIPE l r => cmd_words l ++ cmd_words r
  | LIST l r => cmd_words l ++ cmd_words r
  | BACK c => cmd_words c
  end.

Lemma redirs_words {W} (c : cmd W) rs : cmd_words (foldl redir c rs) = cmd_words c ++ rs.*2.
Proof.
  revert c. induction rs as [|[k w] rs IH]; intros c; simpl; [by rewrite app_nil_r|]. rewrite IH.
  destruct k; simpl; by rewrite <- app_assoc.
Qed.
Lemma redirs_map {W V} (f : W -> V) c rs :
  cmd_map f (foldl redir c rs) = foldl redir (cmd_map f c) (map (fun r => (r.1, f r.2)) rs).
Proof. revert c. induction rs as [|[k w] rs IH]; intros c; simpl; [done|]. rewrite IH. by destruct k. Qed.
Lemma redirs_argv {W} (argv argv' : list W) rs : assign_argv argv' (foldl redir (EXEC argv) rs) = foldl redir (EXEC argv') rs.
Proof.
  induction rs as [|[k w] rs IH] using rev_ind; [done|]. rewrite !foldl_app. simpl. destruct k; simpl; by rewrite IH.
Qed.

Definition names (rs : list (rkind * (nat * nat))) : list (rkind * list Z) := map (fun r => (r.1, word r.2)) rs.

Lemma parseredirs_toks rs k p c fuel :
  at_toks p (toks_redirs rs ++ k) -> sees (str "<>") k = false -> (length rs < fuel)%nat ->
  exists rs' p', parseredirs_loop buf fuel c p = Ok (foldl redir c rs') p' /\ at_toks p' k /\
    names rs' = rs /\ Forall maxword rs'.*2.
Proof.
  revert p c fuel. induction rs as [|[r w] rs IH]; intros p c fuel Ht Hk Hf; (destruct fuel as [|fuel]; [simpl in Hf; lia|]); cbn [parseredirs_loop].
  - destruct (peek_toks p _ (str "<>") Ht) as (p1 & E1 & H1). mstep E1. cbn [toks_redirs map concat app]. rewrite Hk.
    exists [], p1. by split_and!; try apply Forall_nil_2.
  - destruct (peek_toks p _ (str "<>") Ht) as (p1 & E1 & H1). mstep E1.
    cbn [toks_redirs map concat app fst snd] in H1 |- *. fold (toks_redirs rs) in H1 |- *.
    replace (sees (str "<>") (rtok r :: TWord w :: toks_redirs rs ++ k)) with true by (by destruct r).
    destruct (gettoken_tok _ _ _ H1) as (w2 & p2 & E2 & H2 & _). mstep E2.
    destruct (gettoken_tok _ _ _ H2) as (w3 & p3 & E3 & H3 & Hw). mstep E3. destruct (Hw w eq_refl) as [Ew Hmw].
    cbn [code fst snd]. rewrite Z.eqb_refl. cbn [negb].
    destruct (IH p3 (redir c (r, w3)) fuel H3 Hk ltac:(simpl in Hf; lia)) as (rs' & p' & E & H4 & En & Hm).
    exists ((r, w3) :: rs'), p'. split; [by destruct r; exact E|]. split_and!; [done| |by constructor].
    simpl. by rewrite Ew, En.
Qed.

Lemma toks_redirs_length rs : length (toks_redirs rs) = (2 * length rs)%nat.
Proof. induction rs as [|r rs IH]; [done|]. unfold toks_redirs in *. simpl. rewrite IH. lia. Qed.

Lemma parseargs_toks args k p argv rs0 fuel :
  at_toks p (toks_args args ++ k) -> follow (str "|)&;") k = true -> (length argv + length args < MAXARGS)%nat ->
  (length args < fuel)%nat ->
  exists argv' rs' p', parseargs buf fuel argv (foldl redir (EXEC argv) rs0) p =
      Ok (foldl redir (EXEC (argv ++ argv')) (rs0 ++ rs')) p' /\
    at_toks p' k /\ map word argv' = args.*1 /\ names rs' = concat args.*2 /\ Forall maxword argv' /\ Forall maxword rs'.*2.
Proof.
  revert p argv rs0 fuel. induction args as [|[w rs] args IH]; intros p argv rs0 fuel Ht Hk Hn Hf; (destruct fuel as [|fuel]; [simpl in Hf; lia|]); cbn [parseargs];
    destruct (peek_toks p _ (str "|)&;") Ht) as (p1 & E1 & H1); mstep E1.
  - cbn [toks_args map concat app] in H1 |- *. exists [], []. rewrite !app_nil_r.
    destruct (sees (str "|)&;") k) eqn:Es.
    + exists p1. rewrite redirs_argv. by split_and!; try apply Forall_nil_2.
    + assert (k = []) as ->.
      { destruct (follow_seen _ _ Hk) as [->|[?|(k' & ->)]]; [done|congruence|]. done. }
      destruct (gettoken_end _ H1) as (w & p2 & E2 & H2). mstep E2. exists p2. cbn [fst]. rewrite redirs_argv.
      by split_and!; try apply Forall_nil_2.
  - cbn [toks_args map concat app fst snd] in H1 |- *. fold (toks_args args) in H1 |- *. rewrite <- app_assoc in H1 |- *.
    destruct (gettoken_tok _ _ _ H1) as (w2 & p2 & E2 & H2 & Hw). destruct (Hw w eq_refl) as [Ew Hmw].
    assert (Hsees : sees (str "|)&;") (TWord w :: toks_redirs rs ++ toks_args args ++ k) = false).
    { apply sees_word; [|by vm_compute; tauto]. apply (toks_ok _ _ _ H1). by apply elem_of_cons; left. }
    rewrite Hsees. mstep E2. cbn [code fst snd]. rewrite Z.eqb_refl. change (ch "a" =? 0) with false. cbn [negb].
    rewrite (proj2 (Nat.leb_gt _ _)) by (rewrite length_app; simpl in *; lia).
    rewrite redirs_argv. unfold parseredirs.
    pose proof (toks_turns _ _ H2) as Hturns. rewrite !length_app in Hturns.
    assert (Hlr : (length rs < turns buf)%nat).
    { pose proof (toks_redirs_length rs). lia. }
    assert (Hk2 : sees (str "<>") (toks_args args ++ k) = false).
    { destruct args as [|[w' rs'] args]; [by apply (follow_sees _ _ _ Hk); cbn; intros ? [<-|[<-|[<-|[<-|[]]]]]|].
      cbn [toks_args map concat app fst]. apply sees_word; [|by vm_compute; tauto].
      apply (toks_ok _ _ _ H2). apply elem_of_app. right. by apply elem_of_cons; left. }
    destruct (parseredirs_toks rs _ p2 (foldl redir (EXEC (argv ++ [w2])) rs0) (turns buf) H2 Hk2 Hlr) as (rs1 & p3 & E3 & H3 & En1 & Hm1).
    mstep E3. rewrite <- foldl_app.
    destruct (IH p3 (argv ++ [w2]) (rs0 ++ rs1) fuel H3 Hk) as (argv' & rs' & p' & E & H4 & Ea & En & Hma & Hmr); [rewrite length_app; simpl in *; lia|simpl in Hf; lia|].
    exists (w2 :: argv'), (rs1 ++ rs'), p'. rewrite E, <- !app_assoc. split_and!; [done|done| | |by constructor|rewrite fmap_app; by apply Forall_app].
    + simpl. by rewrite Ew, Ea.
    + unfold names. rewrite map_app. fold (names rs1) (names rs'). by rewrite En1, En.
Qed.

Lemma parseback_toks n k p c fuel :
  at_toks p (replicate n (TSym (ch "&")) ++ k) -> sees (str "&") k = false -> (n < fuel)%nat ->
  exists p', parseback buf fuel c p = Ok (Nat.iter n BACK c) p' /\ at_toks p' k.
Proof.
  revert p c fuel. induction n as [|n IH]; intros p c fuel Ht Hk Hf; (destruct fuel as [|fuel]; [lia|]); cbn [parseback];
    destruct (peek_toks p _ (str "&") Ht) as (p1 & E1 & H1); mstep E1.
  - cbn [replicate app]. rewrite Hk. by exists p1.
  - cbn [replicate app] in H1 |- *. change (sees (str "&") (TSym (ch "&") :: _)) with true. cbn iota.
    destruct (gettoken_tok _ _ _ H1) as (w & p2 & E2 & H2 & _). mstep E2.
    destruct (IH p2 (BACK c) fuel H2 Hk ltac:(lia)) as (p' & E & H3). exists p'. by rewrite E, Nat.iter_swap.
Qed.

(** [m] parses the tokens in front of [k] as the command [d]. *)
Definition parses (m : M nat (cmd (nat * nat))) (p : nat) (d : cmd (list Z)) (k : list tok) : Prop :=
  exists c p', m p = Ok c p' /\ at_toks p' k /\ cmd_map word c = d /\ Forall maxword (cmd_words c).

Lemma parses_simple rs args k p fuel :
  at_toks p ((toks_redirs rs ++ toks_args args) ++ k) -> follow (str "|)&;") k = true -> (length args < MAXARGS)%nat -> (0 < fuel)%nat ->
  parses (parseexec buf fuel) p (den_exec (Simple rs args)) k.
Proof.
  intros Ht Hk Hl Hf. destruct fuel as [|fuel]; [lia|]. cbn [parseexec].
  destruct (peek_toks p _ (str "(") Ht) as (p1 & E1 & H1). unfold parses. rewrite <- app_assoc in Ht, H1.
  assert (Hk2 : forall set, incl set symbols -> (forall c, In c (str "|)&;") -> strchr set c = false) -> sees set (toks_args args ++ k) = false).
  { intros set Hi Hs. destruct args as [|[w rs'] args]; [by apply (follow_sees _ _ _ Hk)|].
    cbn [toks_args map concat app fst]. apply sees_word; [|done].
    apply (toks_ok _ _ _ Ht). apply elem_of_app. right. by apply elem_of_cons; left. }
  assert (Hp : sees (str "(") (toks_redirs rs ++ toks_args args ++ k) = false).
  { destruct rs as [|[r w] rs]; [apply Hk2; [by vm_compute; tauto|by cbn; intros ? [<-|[<-|[<-|[<-|[]]]]]]|]. by destruct r. }
  rewrite <- app_assoc in E1. rewrite Hp in E1. mstep E1. unfold parseredirs.
  pose proof (toks_turns _ _ H1) as Hturns. rewrite !length_app, toks_redirs_length in Hturns.
  destruct (parseredirs_toks rs _ p1 (EXEC []) (turns buf) H1) as (rs1 & p2 & E2 & H2 & En & Hm).
  { apply Hk2; [by vm_compute; tauto|by cbn; intros ? [<-|[<-|[<-|[<-|[]]]]]]. } { lia. }
  mstep E2. destruct (parseargs_toks args k p2 [] rs1 (turns buf) H2 Hk) as (argv & rs2 & p3 & E3 & H3 & Ea & Er & Hma & Hmr); [done| |].
  { assert (length args <= length (toks_args args))%nat; [|lia]. clear. induction args as [|a args IH]; [done|].
    unfold toks_args in *. simpl. rewrite length_app. lia. }
  eexists _, p3. split; [exact E3|]. split; [done|]. rewrite redirs_map, redirs_words. cbn [cmd_map cmd_words app]. split.
  - rewrite Ea, map_app. fold (names rs1) (names rs2). by rewrite En, Er.
  - rewrite fmap_app. by rewrite !Forall_app.
Qed.

Lemma follow_weak set k : incl set (str "|)&;") -> follow set k = true -> follow (str "|)&;") k = true.
Proof. apply follow_weaken. Qed.

(** The parsers of the three levels read every sentence of theirs that is
    followed by nothing they could continue with. *)
Definition line_ok (l : line) : Prop := forall k p fuel,
  short_line l -> follow (str ")") k = true -> at_toks p (toks_line l ++ k) ->
  (4 * length (toks_line l) + 3 <= fuel)%nat -> parses (parseline buf fuel) p (den_line l) k.
Definition pipe_ok (l : pipeline) : Prop := forall k p fuel,
  short_pipe l -> follow (str "&;)") k = true -> at_toks p (toks_pipe l ++ k) ->
  (4 * length (toks_pipe l) + 2 <= fuel)%nat -> parses (parsepipe buf fuel) p (den_pipe l) k.
Definition exec_ok (e : exec) : Prop := forall k p fuel,
  short_exec e -> follow (str "|)&;") k = true -> at_toks p (toks_exec e ++ k) ->
  (4 * length (toks_exec e) + 1 <= fuel)%nat -> parses (parseexec buf fuel) p (den_exec e) k.

Lemma parses_back pl n k p fuel :
  pipe_ok pl -> short_pipe pl -> follow (str ";)") k = true -> at_toks p (toks_pipe pl ++ replicate n (TSym (ch "&")) ++ k) ->
  (4 * length (toks_pipe pl) + 2 <= fuel)%nat ->
  parses (c ← parsepipe buf fuel; parseback buf (turns buf) c) p (Nat.iter n BACK (den_pipe pl)) k.
Proof.
  intros IH Hs Hk Ht Hf. destruct (IH (replicate n (TSym (ch "&")) ++ k) p fuel Hs) as (c & p1 & E1 & H1 & Ec & Hw); [|done|done|].
  { destruct n; [|done]. revert Hk. apply follow_weaken. by vm_compute; tauto. }
  pose proof (toks_turns _ _ H1) as Hturns. rewrite length_app, length_replicate in Hturns.
  destruct (parseback_toks n k p1 c (turns buf) H1) as (p2 & E2 & H2); [|lia|].
  { apply (follow_sees _ _ _ Hk). by cbn; intros ? [<-|[<-|[]]]. }
  exists (Nat.iter n BACK c), p2. split; [by mstep E1|]. split; [done|]. clear -Ec Hw. subst.
  induction n as [|n [IH1 IH2]]; [done|]. simpl. by rewrite IH1.
Qed.

Lemma parses_block l rs : line_ok l -> exec_ok (Block l rs).
Proof.
  intros IH k p fuel Hs Hk Ht Hf. cbn [toks_exec app] in Ht, Hf. simpl in Hf. rewrite length_app in Hf. simpl in Hf.
  destruct fuel as [|fuel]; [lia|]. cbn [parseexec den_exec]. destruct (peek_toks p _ (str "(") Ht) as (p1 & E1 & H1).
  unfold parses. rewrite (bind_ok _ _ _ _ _ E1). change (sees (str "(") _) with true. cbn iota.
  destruct fuel as [|fuel]; [lia|]. cbn [parseblock]. destruct (peek_toks p1 _ (str "(") H1) as (p2 & E2 & H2).
  mstep E2. change (sees (str "(") _) with true. cbn [negb]. destruct (gettoken_tok _ _ _ H2) as (w & p3 & E3 & H3 & _). mstep E3.
  change (at_toks p3 ((toks_line l ++ TSym (ch ")") :: toks_redirs rs) ++ k)) in H3. rewrite <- app_assoc in H3. destruct (IH ((TSym (ch ")") :: toks_redirs rs) ++ k) p3 fuel Hs) as (c & p4 & E4 & H4 & Ec & Hw); [done|done|lia|].
  mstep E4. destruct (peek_toks p4 _ (str ")") H4) as (p5 & E5 & H5). mstep E5. change (sees (str ")") _) with true. cbn [negb].
  destruct (gettoken_tok _ _ _ H5) as (w6 & p6 & E6 & H6 & _). mstep E6. unfold parseredirs.
  pose proof (toks_turns _ _ H6) as Hturns. rewrite length_app, toks_redirs_length in Hturns.
  destruct (parseredirs_toks rs k p6 c (turns buf) H6) as (rs' & p7 & E7 & H7 & En & Hm).
  { apply (follow_sees _ _ _ Hk). by cbn; intros ? [<-|[<-|[<-|[<-|[]]]]]. } { lia. }
  exists (foldl redir c rs'), p7. split; [exact E7|]. split; [done|]. rewrite redirs_map, redirs_words, Ec. fold (names rs'). rewrite En.
  split; [done|]. by apply Forall_app.
Qed.

Lemma grammar_parses : (forall l, line_ok l) /\ (forall l, pipe_ok l) /\ (forall e, exec_ok e).
Proof.
  apply grammar_ind.
  - intros pl IH n k p fuel Hs Hk Ht Hf. cbn [toks_line] in Ht, Hf. rewrite <- app_assoc in Ht. rewrite length_app in Hf.
    destruct fuel as [|fuel]; [lia|]. cbn [parseline den_line].
    destruct (parses_back pl n k p fuel IH Hs) as (c & p2 & E & H2 & Ec & Hw); [|done|lia|].
    { revert Hk. apply follow_weaken. by vm_compute; tauto. }
    destruct (peek_toks p2 k (str ";") H2) as (p3 & E3 & H3).
    assert (Hse : sees (str ";") k = false) by (by apply (follow_sees _ _ _ Hk); cbn; intros ? [<-|[]]).
    exists c, p3. split; [|done]. rewrite <- bind_assoc_run, (bind_ok _ _ _ _ _ E), (bind_ok _ _ _ _ _ E3), Hse. done.
  - intros pl IHp n l IHl k p fuel [Hs Hsl] Hk Ht Hf. cbn [toks_line] in Ht, Hf. rewrite <- !app_assoc in Ht. rewrite !length_app in Hf. simpl in Hf.
    destruct fuel as [|fuel]; [lia|]. cbn [parseline den_line].
    destruct (parses_back pl n ((TSym (ch ";") :: toks_line l) ++ k) p fuel IHp Hs) as (c & p2 & E & H2 & Ec & Hw); [done|done|lia|].
    destruct (peek_toks p2 _ (str ";") H2) as (p3 & E3 & H3).
    destruct (gettoken_tok _ _ _ H3) as (w & p4 & E4 & H4 & _).
    destruct (IHl k p4 fuel Hsl Hk H4 ltac:(lia)) as (r & p5 & E5 & H5 & Er & Hwr).
    exists (LIST c r), p5. split; [|split; [done|split; [simpl; by rewrite Ec, Er|by apply Forall_app]]].
    rewrite <- bind_assoc_run, (bind_ok _ _ _ _ _ E), (bind_ok _ _ _ _ _ E3).
    change (sees (str ";") _) with true. cbn iota. rewrite (bind_ok _ _ _ _ _ E4), (bind_ok _ _ _ _ _ E5). done.
  - intros e IH k p fuel Hs Hk Ht Hf. cbn [toks_pipe] in Ht, Hf. destruct fuel as [|fuel]; [lia|]. cbn [parsepipe den_pipe].
    destruct (IH k p fuel Hs) as (c & p1 & E1 & H1 & Ec & Hw); [|done|lia|].
    { revert Hk. apply follow_weaken. by vm_compute; tauto. }
    destruct (peek_toks p1 k (str "|") H1) as (p2 & E2 & H2).
    assert (Hse : sees (str "|") k = false) by (by apply (follow_sees _ _ _ Hk); cbn; intros ? [<-|[<-|[<-|[]]]]).
    exists c, p2. split; [|done]. rewrite (bind_ok _ _ _ _ _ E1), (bind_ok _ _ _ _ _ E2), Hse. done.
  - intros e IHe pl IHp k p fuel [Hse Hsp] Hk Ht Hf. cbn [toks_pipe] in Ht, Hf. rewrite <- app_assoc in Ht. rewrite length_app in Hf. simpl in Hf.
    destruct fuel as [|fuel]; [lia|]. cbn [parsepipe den_pipe].
    destruct (IHe ((TSym (ch "|") :: toks_pipe pl) ++ k) p fuel Hse) as (c & p1 & E1 & H1 & Ec & Hw); [done|done|lia|].
    destruct (peek_toks p1 _ (str "|") H1) as (p2 & E2 & H2). destruct (gettoken_tok _ _ _ H2) as (w & p3 & E3 & H3 & _).
    destruct (IHp k p3 fuel Hsp Hk H3 ltac:(lia)) as (r & p5 & E5 & H5 & Er & Hwr).
    exists (PIPE c r), p5. split; [|split; [done|split; [simpl; by rewrite Ec, Er|by apply Forall_app]]].
    rewrite (bind_ok _ _ _ _ _ E1), (bind_ok _ _ _ _ _ E2). change (sees (str "|") _) with true. cbn iota.
    rewrite (bind_ok _ _ _ _ _ E3), (bind_ok _ _ _ _ _ E5). done.
  - intros rs args k p fuel Hs Hk Ht Hf. cbn [toks_exec] in Ht. apply parses_simple; try done. lia.
  - intros l IH rs. by apply parses_block.
Qed.

(** *** The other direction: what is parsed is a sentence *)

Definition panics {A} (m : M nat A) (p : nat) : Prop := exists msg p', m p = Stop (SPanic msg) p'.

Lemma panics_bind {A B} (m : M nat A) (f : A -> M nat B) p : panics m p -> panics (m ≫= f) p.
Proof. intros (msg & p' & E). exists msg, p'. by apply bind_stop. Qed.
Lemma panics_step {A B} (m : M nat A) (f : A -> M nat B) p a p' : m p = Ok a p' -> panics (f a) p' -> panics (m ≫= f) p.
Proof. intros E (msg & p2 & E2). exists msg, p2. by rewrite (bind_ok _ _ _ _ _ E). Qed.

(** The next token, or the end of the line. *)
Lemma gettoken_next p ts :
  at_toks p ts ->
  (ts = [] /\ exists w p', gettoken buf p = Ok (0, w) p' /\ at_toks p' []) \/
  exists t ts' w p', ts = t :: ts' /\ gettoken buf p = Ok (code t, w) p' /\ at_toks p' ts' /\ tok_ok t /\
    (forall x, t = TWord x -> word w = x /\ maxword w).
Proof.
  intros Ht. destruct ts as [|t ts]; [left; split; [done|by apply gettoken_end]|right].
  destruct (gettoken_tok p t ts Ht) as (w & p' & E & H' & Hw). exists t, ts, w, p'. split_and!; try done.
  apply (toks_ok _ _ _ Ht). by apply elem_of_cons; left.
Qed.

Lemma code_word t : tok_ok t -> code t = ch "a" -> exists w, t = TWord w.
Proof. destruct t as [c| | |w]; try done; [|by exists w]. cbn [code tok_ok]. by intros Hok ->. Qed.

Lemma sees_redir t ts : tok_ok t -> sees (str "<>") (t :: ts) = true -> exists r, t = rtok r.
Proof.
  intros Hok Hs. destruct t as [c| | |w]; [|by exists ROut|by exists RApp|by rewrite sees_word in Hs by (done || (vm_compute; tauto))].
  unfold sees in Hs. apply andb_true_iff in Hs as [_ Hs]. simpl in Hs, Hok. rewrite !orb_true_iff, !Z.eqb_eq in Hs.
  destruct Hs as [->|[->|Hs]]; [by exists RIn|done|done].
Qed.

Lemma parseredirs_sound p ts c fuel :
  at_toks p ts -> (length ts < fuel)%nat ->
  panics (parseredirs_loop buf fuel c) p \/
  exists rs k rs' p', ts = toks_redirs rs ++ k /\ sees (str "<>") k = false /\
    parseredirs_loop buf fuel c p = Ok (foldl redir c rs') p' /\ at_toks p' k /\ names rs' = rs /\ Forall maxword rs'.*2.
Proof.
  revert p ts c. induction fuel as [|fuel IH]; intros p ts c Ht Hf; [lia|]. cbn [parseredirs_loop].
  destruct (peek_toks p _ (str "<>") Ht) as (p1 & E1 & H1).
  destruct (sees (str "<>") ts) eqn:Es.
  2:{ right. exists [], ts, [], p1. mstep E1. by split_and!; try apply Forall_nil_2. }
  destruct (gettoken_next p1 ts H1) as [[-> _]|(t & ts2 & w2 & p2 & -> & E2 & H2 & Hok & _)]; [done|].
  destruct (sees_redir t ts2 Hok Es) as [r ->].
  destruct (gettoken_next p2 ts2 H2) as [[-> (w3 & p3 & E3 & _)]|(t3 & ts3 & w3 & p3 & -> & E3 & H3 & Hok3 & Hw)].
  { left. apply (panics_step _ _ _ _ _ E1), (panics_step _ _ _ _ _ E2), (panics_step _ _ _ _ _ E3). by eexists _, _. }
  destruct (decide (code t3 = ch "a")) as [Hc|Hc].
  2:{ left. apply (panics_step _ _ _ _ _ E1), (panics_step _ _ _ _ _ E2), (panics_step _ _ _ _ _ E3). cbn [fst].
      rewrite (proj2 (Z.eqb_neq _ _) Hc). by eexists _, _. }
  destruct (code_word t3 Hok3 Hc) as [w ->]. destruct (Hw w eq_refl) as [Ew Hm].
  destruct (IH p3 ts3 (redir c (r, w3)) H3 ltac:(simpl in Hf; lia)) as [Hp|(rs & k & rs' & p' & -> & Hk & E & H4 & En & Hms)].
  - left. apply (panics_step _ _ _ _ _ E1), (panics_step _ _ _ _ _ E2), (panics_step _ _ _ _ _ E3). by destruct r; exact Hp.
  - right. exists ((r, w) :: rs), k, ((r, w3) :: rs'), p'. split_and!; [done|done| |done|simpl; by rewrite Ew, En|by constructor].
    mstep E1. mstep E2. mstep E3. by destruct r; exact E.
Qed.

Lemma sees_ends ts : Forall tok_ok ts -> sees (str "|)&;") ts = true -> follow (str "|)&;") ts = true.
Proof.
  intros Hok Hs. destruct ts as [|[c| | |w] ts]; try done; [|by rewrite sees_word in Hs by (apply (Forall_inv Hok) || (vm_compute; tauto))].
  unfold sees in Hs. apply andb_true_iff in Hs as [_ Hs]. exact Hs.
Qed.

Lemma at_toks_ok p ts : at_toks p ts -> Forall tok_ok ts.
Proof. intros Ht. apply Forall_forall. intros t. by apply (toks_ok p). Qed.

Lemma parseargs_sound p ts argv rs0 fuel :
  at_toks p ts -> (length ts < fuel)%nat -> (length argv < MAXARGS)%nat -> sees (str "<>") ts = false ->
  panics (parseargs buf fuel argv (foldl redir (EXEC argv) rs0)) p \/
  exists args k argv' rs' p', ts = toks_args args ++ k /\ follow (str "|)&;") k = true /\ (length argv + length args < MAXARGS)%nat /\
    parseargs buf fuel argv (foldl redir (EXEC argv) rs0) p = Ok (foldl redir (EXEC (argv ++ argv')) (rs0 ++ rs')) p' /\
    at_toks p' k /\ map word argv' = args.*1 /\ names rs' = concat args.*2 /\ Forall maxword argv' /\ Forall maxword rs'.*2.
Proof.
  revert p ts argv rs0. induction fuel as [|fuel IH]; intros p ts argv rs0 Ht Hf Hn Hre; [lia|]. cbn [parseargs].
  destruct (peek_toks p _ (str "|)&;") Ht) as (p1 & E1 & H1).
  destruct (sees (str "|)&;") ts) eqn:Es.
  { right. exists [], ts, [], [], p1. rewrite !app_nil_r. mstep E1. rewrite redirs_argv.
    split_and!; try done; try apply Forall_nil_2; [|simpl; lia]. by apply sees_ends, Es; eapply at_toks_ok. }
  destruct (gettoken_next p1 ts H1) as [[-> (w2 & p2 & E2 & H2)]|(t & ts2 & w2 & p2 & -> & E2 & H2 & Hok & Hw)].
  { right. exists [], [], [], [], p2. rewrite !app_nil_r. mstep E1. mstep E2. cbn [fst]. rewrite Z.eqb_refl, redirs_argv.
    split_and!; try done; try apply Forall_nil_2. simpl. lia. }
  assert (Hc0 : (code t =? 0) = false).
  { destruct t as [c| | |w]; try done. cbn [code tok_ok] in *. apply Z.eqb_neq. by intros ->. }
  destruct (decide (code t = ch "a")) as [Hc|Hc].
  2:{ left. apply (panics_step _ _ _ _ _ E1), (panics_step _ _ _ _ _ E2). cbn [fst].
      rewrite Hc0, (proj2 (Z.eqb_neq _ _) Hc). by eexists _, _. }
  destruct (code_word t Hok Hc) as [w ->]. destruct (Hw w eq_refl) as [Ew Hm]. clear Hw Hc0.
  destruct (decide (MAXARGS <= length (argv ++ [w2]))%nat) as [Hmax|Hmax].
  { left. apply (panics_step _ _ _ _ _ E1), (panics_step _ _ _ _ _ E2). cbn [fst snd code]. rewrite Z.eqb_refl.
    change (ch "a" =? 0) with false. cbn [negb]. rewrite (proj2 (Nat.leb_le _ _) Hmax). by eexists _, _. }
  destruct (parseredirs_sound p2 ts2 (foldl redir (EXEC (argv ++ [w2])) rs0) (turns buf) H2 (toks_turns _ _ H2)) as [Hp|(rs & k & rs' & p3 & -> & Hk & E3 & H3 & En & Hms)].
  { left. apply (panics_step _ _ _ _ _ E1), (panics_step _ _ _ _ _ E2). cbn [fst snd code]. rewrite Z.eqb_refl.
    change (ch "a" =? 0) with false. cbn [negb]. rewrite (proj2 (Nat.leb_gt _ _)), redirs_argv by lia. by apply panics_bind. }
  simpl in Hf. rewrite length_app in Hf.
  destruct (IH p3 k (argv ++ [w2]) (rs0 ++ rs') H3 ltac:(lia) ltac:(lia) Hk) as [Hp|(args & k' & argv' & rs2 & p' & -> & Hk' & Hn' & E & H4 & Ea & Er & Hma & Hmr)].
  { left. apply (panics_step _ _ _ _ _ E1), (panics_step _ _ _ _ _ E2). cbn [fst snd code]. rewrite Z.eqb_refl.
    change (ch "a" =? 0) with false. cbn [negb]. rewrite (proj2 (Nat.leb_gt _ _)), redirs_argv by lia.
    apply (panics_step _ _ _ _ _ E3). by rewrite <- foldl_app. }
  right. exists ((w, rs) :: args), k', (w2 :: argv'), (rs' ++ rs2), p'. rewrite length_app in Hn'. simpl in Hn'.
  split_and!; [by unfold toks_args; simpl; rewrite <- app_assoc|done|simpl; lia| |done|simpl; by rewrite Ew, Ea| |by constructor|by rewrite fmap_app, Forall_app].
  - mstep E1. mstep E2. cbn [fst snd code]. rewrite Z.eqb_refl. change (ch "a" =? 0) with false. cbn [negb].
    rewrite (proj2 (Nat.leb_gt _ _)), redirs_argv by lia. mstep E3. by rewrite <- foldl_app, E, <- !app_assoc.
  - unfold names. rewrite map_app. fold (names rs') (names rs2). by rewrite En, Er.
Qed.

Lemma sees_sym c p ts : at_toks p ts -> In c (str "|();&") -> sees [c] ts = true -> exists ts', ts = TSym c :: ts'.
Proof.
  intros Ht Hc Hs. pose proof (at_toks_ok p ts Ht) as Hok. destruct ts as [|t ts]; [done|]. apply Forall_inv in Hok.
  assert (Hi : incl [c] symbols) by (intros x [<-|[]]; cbn in Hc |- *; tauto).
  destruct t as [c'| | |w]; [|unfold sees in Hs; cbn in Hc, Hs; repeat (destruct Hc as [<-|Hc]; [done|]); done..|by rewrite sees_word in Hs].
  exists ts. unfold sees in Hs. apply andb_true_iff in Hs as [_ Hs]. simpl in Hs. rewrite orb_false_r, Z.eqb_eq in Hs. by subst.
Qed.

Lemma parseback_sound p ts c fuel :
  at_toks p ts -> (length ts < fuel)%nat ->
  exists n k p', ts = replicate n (TSym (ch "&")) ++ k /\ parseback buf fuel c p = Ok (Nat.iter n BACK c) p' /\ at_toks p' k.
Proof.
  revert p ts c. induction fuel as [|fuel IH]; intros p ts c Ht Hf; [lia|]. cbn [parseback].
  destruct (peek_toks p _ (str "&") Ht) as (p1 & E1 & H1).
  destruct (sees (str "&") ts) eqn:Es; [|by exists 0%nat, ts, p1; mstep E1].
  destruct (sees_sym (ch "&") p ts Ht ltac:(cbn; tauto) Es) as [ts' ->].
  destruct (gettoken_tok _ _ _ H1) as (w & p2 & E2 & H2 & _).
  destruct (IH p2 ts' (BACK c) H2 ltac:(simpl in Hf; lia)) as (n & k & p' & -> & E & H3).
  exists (S n), k, p'. split_and!; [done| |done]. mstep E1. mstep E2. by rewrite E, Nat.iter_swap.
Qed.

(** [m] panics, or reads a sentence: [toks x] with the meaning [den x]. *)
Definition reads {X} (toks : X -> list tok) (short : X -> Prop) (den : X -> cmd (list Z))
    (m : M nat (cmd (nat * nat))) (p : nat) (ts : list tok) : Prop :=
  panics m p \/ exists x k, ts = toks x ++ k /\ short x /\ parses m p (den x) k.

Definition line_reads fuel := forall p ts, at_toks p ts -> (4 * length ts + 3 <= fuel)%nat ->
  reads toks_line short_line den_line (parseline buf fuel) p ts.
Definition pipe_reads fuel := forall p ts, at_toks p ts -> (4 * length ts + 2 <= fuel)%nat ->
  reads toks_pipe short_pipe den_pipe (parsepipe buf fuel) p ts.
Definition exec_reads fuel := forall p ts, at_toks p ts -> (4 * length ts + 1 <= fuel)%nat ->
  reads toks_exec short_exec den_exec (parseexec buf fuel) p ts.

Lemma simple_reads fuel p ts :
  at_toks p ts -> sees (str "(") ts = false -> reads toks_exec short_exec den_exec (parseexec buf (S fuel)) p ts.
Proof.
  intros Ht Hs. cbn [parseexec]. destruct (peek_toks p _ (str "(") Ht) as (p1 & E1 & H1). rewrite Hs in E1.
  destruct (parseredirs_sound p1 ts (EXEC []) (turns buf) H1 (toks_turns _ _ H1)) as [Hp|(rs & k & rs' & p2 & -> & Hk & E2 & H2 & En & Hm)].
  { left. apply (panics_step _ _ _ _ _ E1). by apply panics_bind. }
  destruct (parseargs_sound p2 k [] rs' (turns buf) H2 (toks_turns _ _ H2) ltac:(unfold MAXARGS; simpl; lia) Hk)
    as [Hp|(args & k' & argv & rs2 & p3 & -> & Hk' & Hn & E3 & H3 & Ea & Er & Hma & Hmr)].
  { left. apply (panics_step _ _ _ _ _ E1), (panics_step _ _ _ _ _ E2). exact Hp. }
  right. exists (Simple rs args), k'. split; [by cbn [toks_exec]; rewrite <- app_assoc|]. split; [exact Hn|].
  eexists _, p3. split; [mstep E1; unfold parseredirs; mstep E2; exact E3|]. split; [done|]. rewrite redirs_map, redirs_words. cbn [cmd_map cmd_words app]. split.
  - rewrite Ea, map_app. fold (names rs') (names rs2). by rewrite En, Er.
  - rewrite fmap_app. by rewrite !Forall_app.
Qed.

Lemma block_reads fuel p ts :
  line_reads fuel -> at_toks p ts -> sees (str "(") ts = true -> (4 * length ts <= S fuel)%nat ->
  reads toks_exec short_exec den_exec (parseexec buf (S (S fuel))) p ts.
Proof.
  intros IH Ht Hs Hf. cbn [parseexec parseblock]. destruct (peek_toks p _ (str "(") Ht) as (p1 & E1 & H1). rewrite Hs in E1.
  destruct (peek_toks p1 _ (str "(") H1) as (p2 & E2 & H2). rewrite Hs in E2.
  destruct (sees_sym (ch "(") p ts Ht ltac:(cbn; tauto) Hs) as [ts' ->]. destruct (gettoken_tok _ _ _ H2) as (w & p3 & E3 & H3 & _).
  destruct (IH p3 ts' H3 ltac:(simpl in Hf; lia)) as [Hp|(l & k & -> & Hsl & c & p4 & E4 & H4 & Ec & Hw)].
  { left. apply (panics_step _ _ _ _ _ E1), (panics_step _ _ _ _ _ E2), (panics_step _ _ _ _ _ E3). by apply panics_bind. }
  destruct (peek_toks p4 _ (str ")") H4) as (p5 & E5 & H5). destruct (sees (str ")") k) eqn:Es.
  2:{ left. apply (panics_step _ _ _ _ _ E1), (panics_step _ _ _ _ _ E2), (panics_step _ _ _ _ _ E3), (panics_step _ _ _ _ _ E4), (panics_step _ _ _ _ _ E5).
      by eexists _, _. }
  destruct (sees_sym (ch ")") _ k H4 ltac:(cbn; tauto) Es) as [k' ->]. destruct (gettoken_tok _ _ _ H5) as (w6 & p6 & E6 & H6 & _).
  destruct (parseredirs_sound p6 k' c (turns buf) H6 (toks_turns _ _ H6)) as [Hp|(rs & k2 & rs' & p7 & -> & Hk & E7 & H7 & En & Hm)].
  { left. apply (panics_step _ _ _ _ _ E1), (panics_step _ _ _ _ _ E2), (panics_step _ _ _ _ _ E3), (panics_step _ _ _ _ _ E4), (panics_step _ _ _ _ _ E5).
    by apply (panics_step _ _ _ _ _ E6). }
  right. exists (Block l rs), k2. split; [cbn [toks_exec app]; by rewrite <- app_assoc|]. split; [exact Hsl|].
  exists (foldl redir c rs'), p7. split; [by mstep E1; mstep E2; cbn [negb]; mstep E3; mstep E4; mstep E5; cbn [negb]; mstep E6; exact E7|].
  split; [done|]. rewrite redirs_map, redirs_words, Ec. fold (names rs'). rewrite En. split; [done|]. by apply Forall_app.
Qed.

Lemma pipe_reads_S fuel : exec_reads fuel -> pipe_reads fuel -> pipe_reads (S fuel).
Proof.
  intros IHe IHp p ts Ht Hf. cbn [parsepipe].
  destruct (IHe p ts Ht ltac:(lia)) as [Hp|(e & k & -> & Hse & c & p1 & E1 & H1 & Ec & Hw)]; [left; by apply panics_bind|].
  destruct (peek_toks p1 _ (str "|") H1) as (p2 & E2 & H2). destruct (sees (str "|") k) eqn:Es.
  2:{ right. exists (PEnd e), k. split_and!; [done|done|]. exists c, p2. by mstep E1; mstep E2. }
  destruct (sees_sym (ch "|") _ k H1 ltac:(cbn; tauto) Es) as [k' ->]. destruct (gettoken_tok _ _ _ H2) as (w & p3 & E3 & H3 & _).
  rewrite length_app in Hf. simpl in Hf.
  destruct (IHp p3 k' H3 ltac:(lia)) as [Hp|(pl & k2 & -> & Hsp & r & p4 & E4 & H4 & Er & Hwr)].
  { left. apply (panics_step _ _ _ _ _ E1), (panics_step _ _ _ _ _ E2), (panics_step _ _ _ _ _ E3). by apply panics_bind. }
  right. exists (PBar e pl), k2. split; [cbn [toks_pipe]; by rewrite <- app_assoc|]. split; [done|]. exists (PIPE c r), p4.
  split; [by mstep E1; mstep E2; mstep E3; mstep E4|]. split; [done|]. split; [simpl; by rewrite Ec, Er|by apply Forall_app].
Qed.

Lemma back_map n (c : cmd (nat * nat)) : cmd_map word (Nat.iter n BACK c) = Nat.iter n BACK (cmd_map word c).
Proof. induction n as [|n IH]; [done|]. simpl. by rewrite IH. Qed.
Lemma back_words n (c : cmd (nat * nat)) : cmd_words (Nat.iter n BACK c) = cmd_words c.
Proof. by induction n. Qed.

Lemma line_reads_S fuel : pipe_reads fuel -> line_reads fuel -> line_reads (S fuel).
Proof.
  intros IHp IHl p ts Ht Hf. cbn [parseline].
  destruct (IHp p ts Ht ltac:(lia)) as [Hp|(pl & k & -> & Hsp & c & p1 & E1 & H1 & Ec & Hw)]; [left; by apply panics_bind|].
  destruct (parseback_sound p1 k c (turns buf) H1 (toks_turns _ _ H1)) as (n & k1 & p2 & -> & E2 & H2).
  destruct (peek_toks p2 _ (str ";") H2) as (p3 & E3 & H3). rewrite !length_app in Hf. destruct (sees (str ";") k1) eqn:Es.
  2:{ right. exists (LEnd pl n), k1. split; [cbn [toks_line]; by rewrite <- app_assoc|]. split; [done|].
      exists (Nat.iter n BACK c), p3. split; [by mstep E1; mstep E2; mstep E3|]. cbn [den_line]. by rewrite back_map, back_words, Ec. }
  destruct (sees_sym (ch ";") _ k1 H2 ltac:(cbn; tauto) Es) as [k' ->]. destruct (gettoken_tok _ _ _ H3) as (w & p4 & E4 & H4 & _).
  simpl in Hf. destruct (IHl p4 k' H4 ltac:(lia)) as [Hp|(l & k2 & -> & Hsl & r & p5 & E5 & H5 & Er & Hwr)].
  { left. apply (panics_step _ _ _ _ _ E1), (panics_step _ _ _ _ _ E2), (panics_step _ _ _ _ _ E3), (panics_step _ _ _ _ _ E4). by apply panics_bind. }
  right. exists (LSeq pl n l), k2. split; [cbn [toks_line app]; by rewrite <- !app_assoc|]. split; [done|].
  exists (LIST (Nat.iter n BACK c) r), p5. split; [by mstep E1; mstep E2; mstep E3; mstep E4; mstep E5|]. split; [done|].
  cbn [cmd_map den_line cmd_words]. rewrite back_map, back_words, Ec, Er. split; [done|]. by apply Forall_app.
Qed.

Lemma all_read fuel : line_reads fuel /\ pipe_reads fuel /\ exec_reads fuel.
Proof.
  induction fuel as [fuel IH] using lt_wf_ind. destruct fuel as [|fuel]; [split_and!; intros p ts _ Hf; lia|].
  destruct (IH fuel ltac:(lia)) as (IHl & IHp & IHe). split_and!; [by apply line_reads_S|by apply pipe_reads_S|].
  intros p ts Ht Hf. destruct (sees (str "(") ts) eqn:Es; [|by apply simple_reads].
  destruct fuel as [|fuel]; [destruct ts; [done|simpl in Hf; lia]|].
  apply block_reads; [apply IH; lia|done|done|lia].
Qed.

(** Every line without a NUL is made of tokens. *)
Lemma token_first c l :
  c <> 0 -> strchr whitespace c = false -> Forall (fun c => c <> 0) l ->
  exists t rest, c :: l = text t ++ rest /\ tok_ok t /\ ends t rest /\ (length rest <= length l)%nat /\ Forall (fun c => c <> 0) rest.
Proof.
  intros Hc Hw Hl. destruct (strchr (str "|();&<") c) eqn:Es; [by exists (TSym c), l|].
  destruct (decide (c = ch ">")) as [->|Hgt].
  - destruct l as [|c' l]; [by exists TGt, []|]. destruct (decide (c' = ch ">")) as [->|Hne]; [|by exists TGt, (c' :: l)].
    exists TApp, l. apply Forall_cons in Hl as [_ Hl]. split_and!; try done. simpl. lia.
  - set (n := span word_char (c :: l)). exists (TWord (take n (c :: l))), (drop n (c :: l)).
    assert (Hwc : word_char c = true).
    { unfold word_char. rewrite Hw. apply andb_true_iff. split; [done|]. apply negb_true_iff, not_true_is_false. intros Hx.
      unfold strchr in *. apply existsb_exists in Hx as (x & Hx & Ex). rewrite <- not_true_iff_false in Es. apply Es.
      apply existsb_exists. exists x. split; [|done]. apply Z.eqb_eq in Ex. cbn in Hx |- *. subst x. intuition congruence. }
    assert (Hn : n = S (span word_char l)) by (unfold n; simpl; by rewrite Hwc).
    split_and!; [cbn [text]; by rewrite take_drop| | | |].
    + split; [by rewrite Hn|]. assert (Hz : Forall (fun c => c <> 0) (take n (c :: l))) by (by apply Forall_take; constructor).
      assert (Hs : Forall (fun c => word_char c = true) (take n (c :: l))).
      { apply span_take. }
      clearbody n. induction (take n (c :: l)) as [|x k IH]; [done|]. apply Forall_cons in Hz as [? ?]. apply Forall_cons in Hs as [? ?].
      constructor; [|auto]. unfold letter. apply andb_true_iff. split; [done|]. by apply negb_true_iff, Z.eqb_neq.
    + pose proof (span_stop word_char (c :: l)) as Hst. fold n in Hst. simpl. by destruct (drop n (c :: l)).
    + rewrite length_drop, Hn. simpl. lia.
    + by apply Forall_drop; constructor.
Qed.

Lemma spells_total n l : (length l <= n)%nat -> Forall (fun c => c <> 0) l -> exists ts, spells l ts.
Proof.
  revert l. induction n as [|n IH]; intros l Hn Hl.
  { exists []. destruct l; [|simpl in Hn; lia]. apply sp_end, Forall_nil_2. }
  set (k := span (strchr whitespace) l). rewrite <- (take_drop k l). assert (Hw : white (take k l)).
  { apply span_take. }
  pose proof (span_stop (strchr whitespace) l) as Hst. fold k in Hst. pose proof (length_drop l k) as Hd.
  assert (Hz : Forall (fun c => c <> 0) (drop k l)) by (by apply Forall_drop).
  destruct (drop k l) as [|c r]; [exists []; rewrite app_nil_r; by apply sp_end|]. simpl in Hd. apply Forall_cons in Hz as [Hc Hz].
  destruct (token_first c r Hc Hst Hz) as (t & rest & -> & Hok & He & Hlen & Hr).
  destruct (IH rest ltac:(lia) Hr) as (ts & Hs). exists (t :: ts). by constructor.
Qed.

(** *** The NULs *)

Lemma nul_fold (ws : list (nat * nat)) (b : list Z) :
  length (foldl (fun b w => <[w.2 := 0]> b) b ws) = length b /\
  forall i, (i < length b)%nat -> foldl (fun b w => <[w.2 := 0]> b) b ws !! i = if decide (i ∈ ws.*2) then Some 0 else b !! i.
Proof.
  revert b. induction ws as [|[q e] ws IH]; intros b; [done|]. cbn [foldl fmap list_fmap snd].
  destruct (IH (<[e := 0]> b)) as [IH1 IH2]. rewrite length_insert in IH1, IH2. split; [done|]. intros i Hi. rewrite IH2 by done.
  destruct (decide (i = e)) as [->|Hne].
  - rewrite list_lookup_insert_eq by done. destruct (decide (e ∈ ws.*2)); by rewrite decide_True by (apply elem_of_cons; auto).
  - rewrite list_lookup_insert_ne by done. destruct (decide (i ∈ ws.*2)).
    + by rewrite decide_True by (apply elem_of_cons; auto).
    + rewrite decide_False; [done|]. intros [?|?]%elem_of_cons; done.
Qed.

Lemma nulterminate_fold c b : nulterminate c b = foldl (fun b w => <[w.2 := 0]> b) b (cmd_words c).
Proof.
  revert b. induction c as [argv|c IH file m fd|l IHl r IHr|l IHl r IHr|c IH]; intros b; simpl; try done.
  - by rewrite foldl_app, IH.
  - by rewrite foldl_app, IHl, IHr.
  - by rewrite foldl_app, IHl, IHr.
Qed.

(** No word ends inside of another one. *)
Lemma maxword_end w w' i : maxword w -> maxword w' -> (w.1 <= i < w.2)%nat -> i <> w'.2.
Proof.
  intros (Hw & Hl & _) (Hw' & _ & He) Hi ->. destruct (drop w'.2 buf) as [|c r] eqn:E.
  { apply (f_equal length) in E. rewrite length_drop in E. simpl in E. lia. }
  assert (Hc : word w !! (w'.2 - w.1)%nat = Some c).
  { unfold word. rewrite lookup_take_lt, lookup_drop by lia. replace (w.1 + (w'.2 - w.1))%nat with (w'.2 + 0)%nat by lia.
    by rewrite <- lookup_drop, E. }
  rewrite Forall_lookup in Hl. specialize (Hl _ _ Hc). unfold letter in Hl. rewrite He in Hl. done.
Qed.

Lemma nulterminate_strings c :
  Forall maxword (cmd_words c) ->
  forall w, w ∈ cmd_words c -> cstring (nulterminate c (buf ++ [0])) w.1 = word w.
Proof.
  intros Hm w Hw. rewrite nulterminate_fold. destruct (nul_fold (cmd_words c) (buf ++ [0])) as [Hlen Hlk].
  set (b := foldl _ _ _) in *. rewrite length_app in Hlen, Hlk. simpl in Hlen, Hlk. rewrite Forall_forall in Hm.
  pose proof (Hm w Hw) as (Hq & Hl & _). destruct w as [q e]. cbn [fst snd] in *.
  assert (Hpre : take (e - q) (drop q b) = word (q, e)).
  { unfold word. cbn [fst snd]. apply list_eq. intros i. destruct (decide (i < e - q)%nat) as [Hi|Hi]; [|rewrite !lookup_take_ge by lia; done].
    rewrite !lookup_take_lt, !lookup_drop, Hlk by lia. rewrite decide_False.
    - by rewrite lookup_app_l by lia.
    - intros (w' & E' & Hw')%list_elem_of_fmap. apply (maxword_end (q, e) w' (q + i)); [by apply Hm|by apply Hm|simpl; lia|done]. }
  assert (He : b !! e = Some 0).
  { rewrite Hlk, decide_True; [done| |lia]. apply list_elem_of_fmap. by exists (q, e). }
  unfold cstring. rewrite <- (take_drop (e - q) (drop q b)) at 1. rewrite Hpre, drop_drop.
  replace (q + (e - q))%nat with e by lia. rewrite (drop_S b 0 e He), span_app.
  - unfold word at 1. cbn [fst snd]. rewrite length_take, length_drop. replace (Nat.min (e - q) (length buf - q)) with (e - q)%nat by lia. done.
  - eapply Forall_impl; [exact Hl|]. intros x (Hx & _)%letter_inv. by apply negb_true_iff, Z.eqb_neq.
  - intros x [= <-]. done.
Qed.

Lemma cmd_map_ext {W V} (f g : W -> V) c : (forall w, w ∈ cmd_words c -> f w = g w) -> cmd_map f c = cmd_map g c.
Proof.
  induction c as [argv|c IH file m fd|l IHl r IHr|l IHl r IHr|c IH]; simpl; intros Hf.
  - f_equal. apply map_ext_in. intros w Hw. apply Hf. by apply list_elem_of_In.
  - rewrite IH by (intros; apply Hf, elem_of_app; by left). rewrite Hf; [done|]. apply elem_of_app. right. by apply list_elem_of_singleton.
  - rewrite IHl by (intros; apply Hf, elem_of_app; by left). by rewrite IHr by (intros; apply Hf, elem_of_app; by right).
  - rewrite IHl by (intros; apply Hf, elem_of_app; by left). by rewrite IHr by (intros; apply Hf, elem_of_app; by right).
  - by rewrite IH.
Qed.

Lemma parsecmd_of_line d :
  parses (parseline buf (parse_fuel buf)) 0%nat d [] ->
  exists c b p, parsecmd buf 0%nat = Ok (c, b) p /\ cmd_map (fun w => cstring b w.1) c = d.
Proof.
  intros (c & p1 & E1 & H1 & Ec & Hm). exists c, (nulterminate c (buf ++ [0])), (length buf). split.
  - unfold parsecmd. mstep E1.
    assert (Hsk : skip_white buf p1 = length buf).
    { apply skip_white_end in H1 as Hd. apply (f_equal length) in Hd. rewrite length_drop in Hd. simpl in Hd.
      destruct (skip_white_toks p1 [] H1) as [[Hle _] _]. lia. }
    assert (Epk : exists b, peek buf [] p1 = Ok b (length buf)) by (unfold peek; rewrite Hsk; by eexists). destruct Epk as [b Epk].
    mstep Epk. mrun1. by rewrite Nat.eqb_refl.
  - rewrite <- Ec. apply cmd_map_ext. intros w Hw. by apply nulterminate_strings.
Qed.

Lemma parsecmd_ends d k :
  parses (parseline buf (parse_fuel buf)) 0%nat d k -> k = [] \/ panics (parsecmd buf) 0%nat.
Proof.
  intros (c & p1 & E1 & H1 & _ & _). destruct (peek_toks p1 k [] H1) as (p2 & E2 & H2).
  destruct (decide (p2 = length buf)) as [->|Hne].
  - left. destruct H2 as [_ Hs%spells_length]. rewrite drop_all in Hs. destruct k; [done|simpl in Hs; lia].
  - right. unfold parsecmd. apply (panics_step _ _ _ _ _ E1), (panics_step _ _ _ _ _ E2), (panics_step _ _ _ _ _ (get_ok p2)).
    rewrite (proj2 (Nat.eqb_neq _ _) Hne). by eexists _, _.
Qed.
End Correct.

(** C36: every command line of the grammar, with any white space between its
    tokens, is parsed into its command: the tree has the words of the line as
    the C strings left by nulterminate, redirections in their order, pipes and
    lists associated to the right. *)
Theorem parsecmd_roundtrip buf l :
  spells buf (toks_line l) -> short_line l ->
  exists c b p, parsecmd buf 0%nat = Ok (c, b) p /\ cmd_map (fun w => cstring b w.1) c = den_line l.
Proof.
  intros Hs Hsh. apply parsecmd_of_line. apply grammar_parses; [done|done| |].
  - rewrite app_nil_r. split; [lia|done].
  - pose proof (spells_length _ _ Hs). unfold parse_fuel. lia.
Qed.

(** The parser ends on every line: it panics, or the line is a sentence of
    the grammar whose simple commands have fewer than MAXARGS words, and the
    command it returns is the meaning of that sentence. *)
Theorem parsecmd_sound buf :
  Forall (fun c => c <> 0) buf ->
  (exists msg p, parsecmd buf 0%nat = Stop (SPanic msg) p) \/
  exists l c b p, spells buf (toks_line l) /\ short_line l /\
    parsecmd buf 0%nat = Ok (c, b) p /\ cmd_map (fun w => cstring b w.1) c = den_line l.
Proof.
  intros Hz. destruct (spells_total (length buf) buf (le_n _) Hz) as [ts Hs].
  assert (Ht : at_toks buf 0%nat ts) by (split; [lia|done]). pose proof (spells_length _ _ Hs).
  destruct (all_read buf (parse_fuel buf)) as (Hl & _). destruct (Hl 0%nat ts Ht) as [Hp|(l & k & -> & Hsh & Hpar)].
  - unfold parse_fuel. lia.
  - left. destruct (panics_bind _ (fun c => peek buf [];; s ← get; if negb (s =? length buf)%nat then panic "syntax" else mret (c, nulterminate c (buf ++ [0]))) _ Hp) as (msg & p & E).
    exists msg, p. exact E.
  - destruct (parsecmd_ends buf _ _ Hpar) as [->|Hp]; [|by left]. right. rewrite app_nil_r in Hs. exists l.
    destruct (parsecmd_of_line buf _ Hpar) as (c & b & p & E & Ec). by exists c, b, p.
Qed.

Definition line1 : list Z := str "ls >f | (wc)&".
Definition sentence1 : line :=
  LEnd (PBar (Simple [] [(str "ls", [(ROut, str "f")])]) (PEnd (Block (LEnd (PEnd (Simple [] [(str "wc", [])])) 0) []))) 1.

Lemma spells_step (ws : list Z) t l ts :
  white ws -> tok_ok t -> take (length (ws ++ text t)) l = ws ++ text t -> ends t (drop (length (ws ++ text t)) l) ->
  spells (drop (length (ws ++ text t)) l) ts -> spells l (t :: ts).
Proof.
  intros Hw Hok Ht He Hs. rewrite <- (take_drop (length (ws ++ text t)) l), Ht, <- app_assoc. by constructor.
Qed.

Lemma line1_spells : spells line1 (toks_line sentence1).
Proof.
  repeat first
    [ eapply (spells_step []); [apply Forall_nil_2|vm_compute; repeat constructor; discriminate|vm_compute; reflexivity|by vm_compute|cbn [length app text str drop]]
    | eapply (spells_step [32]); [by repeat constructor|vm_compute; repeat constructor; discriminate|vm_compute; reflexivity|by vm_compute|cbn [length app text str drop]]
    | apply sp_end, Forall_nil_2 ].
Qed.

Lemma parsecmd_roundtrip_witness :
  exists c b p, parsecmd line1 0%nat = Ok (c, b) p /\
    cmd_map (fun w => cstring b w.1) c = BACK (PIPE (REDIR (EXEC [str "ls"]) (str "f") 513 1) (EXEC [str "wc"])).
Proof. apply (parsecmd_roundtrip line1 sentence1 line1_spells). vm_compute. repeat constructor. Defined.

Lemma parsecmd_sound_witness :
  exists msg p, parsecmd (str "ls |) x") 0%nat = Stop (SPanic msg) p.
Proof.
  destruct (parsecmd_sound (str "ls |) x")) as [(msg & p & E)|(l & c & b & p & _ & _ & E & _)].
  - repeat constructor; discriminate.
  - exists msg, p. exact E.
  - exfalso. vm_compute in E. discriminate.
Defined.

(** ** Running commands

    runcmd is the program of system calls it makes, a tree whose branches are
    the kernel's answers. *)

Section Run.
Context {W : Type}.

Inductive prog : Type :=
| Exit
| Exec (path : W) (argv : list W) (k : prog)        (** [k] runs when exec fails *)
| Printf (msg : string) (arg : option W) (k : prog) (** printf(2, msg, arg) *)
| Close (fd : nat) (k : prog)
| Open (file : W) (mode : Z) (k : Z -> prog)
| Fork (k : Z -> prog)
| Wait (k : prog)
| Pipe (k : option (nat * nat) -> prog)             (** the two descriptors, or -1 *)
| Dup (fd : nat) (k : prog).

Definition panic1 (s : string) : prog := Printf s None Exit.
Definition fork1 (k : Z -> prog) : prog := Fork (fun pid => if pid =? -1 then panic1 "fork" else k pid).

Fixpoint runcmd (c : cmd W) : prog :=
  match c with
  | EXEC argv =>
      match argv with
      | [] => Exit
      | path :: _ => Exec path argv (Printf "exec %s failed" (Some path) Exit)
      end
  | REDIR c file mode fd =>
      Close (Z.to_nat fd) (Open file mode (fun r =>
        if r <? 0 then Printf "open %s failed" (Some file) Exit else runcmd c))
  | LIST l r => fork1 (fun pid => if pid =? 0 then runcmd l else Wait (runcmd r))
  | PIPE l r =>
      Pipe (fun o =>
        match o with
        | None => panic1 "pipe"
        | Some (p0, p1) =>
            fork1 (fun pid =>
              if pid =? 0 then Close 1 (Dup p1 (Close p0 (Close p1 (runcmd l))))
              else fork1 (fun pid =>
                if pid =? 0 then Close 0 (Dup p0 (Close p0 (Close p1 (runcmd r))))
                else Close p0 (Close p1 (Wait (Wait Exit)))))
        end)
  | BACK c => fork1 (fun pid => if pid =? 0 then runcmd c else Exit)
  end.

(** *** A kernel that grants forks and pipes

    A descriptor table of NOFILE entries; open, dup and pipe take the lowest
    free one.  [launch] is what a process does, in its order: the program it
    becomes, with the descriptors it has then; its children, each with what it
    does in turn; the waits for them; and its messages.  [opens] tells which
    files can be opened and [n] numbers the pipes. *)
Inductive endpoint : Type :=
| EFile (file : W) (mode : Z)
| ERead (pipe : nat)
| EWrite (pipe : nat)
| EOther (id : nat).

Inductive event (D : Type) : Type :=
| Becomes (path : W) (argv : list W) (d : D)
| Child (l : list (event D))
| Waits
| Prints (msg : string) (arg : option W).
Arguments Becomes {D}. Arguments Child {D}. Arguments Waits {D}. Arguments Prints {D}.
Fixpoint ev_map {D E} (f : D -> E) (e : event D) : event E :=
  match e with
  | Becomes path argv d => Becomes path argv (f d)
  | Child l => Child (map (ev_map f) l)
  | Waits => Waits
  | Prints msg arg => Prints msg arg
  end.

Definition NOFILE : nat := 16.
Definition fdtable : Type := list (option endpoint).
Fixpoint lowest (t : fdtable) : option nat :=
  match t with
  | [] => None
  | None :: _ => Some O
  | Some _ :: t => S <$> lowest t
  end.
Definition install (e : endpoint) (t : fdtable) : option (nat * fdtable) :=
  i ← lowest t; Some (i, <[i := Some e]> t).

Context (opens : W -> Z -> bool).

Fixpoint launch (p : prog) (t : fdtable) (n : nat) : list (event fdtable) * nat :=
  match p with
  | Exit => ([], n)
  | Exec path argv _ => ([Becomes path argv t], n)
  | Printf msg arg k => let (l, n) := launch k t n in (Prints msg arg :: l, n)
  | Close fd k => launch k (<[fd := None]> t) n
  | Open file mode k =>
      match (if opens file mode then install (EFile file mode) t else None) with
      | Some (fd, t') => launch (k (Z.of_nat fd)) t' n
      | None => launch (k (-1)) t n
      end
  | Fork k =>
      let (child, n) := launch (k 0) t n in
      let (parent, n) := launch (k 1) t n in
      (Child child :: parent, n)
  | Wait k => let (l, n) := launch k t n in (Waits :: l, n)
  | Pipe k =>
      match (a ← install (ERead n) t; b ← install (EWrite n) a.2; Some (a.1, b.1, b.2)) with
      | Some (p0, p1, t') => launch (k (Some (p0, p1))) t' (S n)
      | None => launch (k None) t n
      end
  | Dup fd k =>
      match t !! fd with
      | Some (Some e) => match install e t with Some (_, t') => launch k t' n | None => launch k t n end
      | _ => launch k t n
      end
  end.

(** What a command is meant to do, given standard input, output and error: the
    processes of a list run one after the other, those of a pipeline together,
    and both ends of it are waited for; a command in the background is not. *)
Definition std : Type := endpoint * endpoint * endpoint.
Definition table (s : std) : fdtable := [Some s.1.1; Some s.1.2; Some s.2] ++ replicate 13 None.
Definition set_in (e : endpoint) (s : std) : std := (e, s.1.2, s.2).
Definition set_out (e : endpoint) (s : std) : std := (s.1.1, e, s.2).

Fixpoint meant (c : cmd W) (s : std) (n : nat) : list (event std) * nat :=
  match c with
  | EXEC argv => (match argv with [] => [] | path :: _ => [Becomes path argv s] end, n)
  | REDIR c file mode fd =>
      if opens file mode then meant c ((if fd =? 0 then set_in else set_out) (EFile file mode) s) n
      else ([Prints "open %s failed" (Some file)], n)
  | LIST l r => let (a, n) := meant l s n in let (b, n) := meant r s n in (Child a :: Waits :: b, n)
  | PIPE l r =>
      let (a, m) := meant l (set_out (EWrite n) s) (S n) in
      let (b, m) := meant r (set_in (ERead n) s) m in
      ([Child a; Child b; Waits; Waits], m)
  | BACK c => let (a, n) := meant c s n in ([Child a], n)
  end.

(** The parser only redirects descriptors 0 and 1. *)
Fixpoint redirs_std (c : cmd W) : Prop :=
  match c with
  | EXEC _ => True
  | REDIR c _ _ fd => (fd = 0 \/ fd = 1) /\ redirs_std c
  | PIPE l r => redirs_std l /\ redirs_std r
  | LIST l r => redirs_std l /\ redirs_std r
  | BACK c => redirs_std c
  end.

Definition with_table (r : list (event std) * nat) : list (event fdtable) * nat := (map (ev_map table) r.1, r.2).

Lemma launch_meant c s n : redirs_std c -> launch (runcmd c) (table s) n = with_table (meant c s n).
Proof.
  revert s n. induction c as [argv|c IH file mode fd|l IHl r IHr|l IHl r IHr|c IH]; intros [[i o] e] n Hc; cbn [runcmd meant].
  - by destruct argv.
  - destruct Hc as [[->| ->] Hc]; cbn [launch Z.to_nat]; destruct (opens file mode) eqn:E; try done.
    + apply (IH (EFile file mode, o, e) n Hc).
    + apply (IH (i, EFile file mode, e) n Hc).
  - destruct Hc as [Hl Hr]. cbn -[meant with_table runcmd]. unfold with_table in IHl, IHr.
    pose proof (IHl (i, EWrite n, e) (S n) Hl) as El. pose proof (fun m => IHr (ERead n, o, e) m Hr) as Er.
    unfold table in El, Er. cbn [app fst snd replicate] in El, Er. rewrite El. unfold set_out, set_in. cbn [fst snd].
    destruct (meant l (i, EWrite n, e) (S n)) as [a m]. cbn [fst snd]. rewrite Er. by destruct (meant r (ERead n, o, e) m) as [b k].
  - destruct Hc as [Hl Hr]. cbn -[meant with_table runcmd table]. rewrite IHl by done. destruct (meant l (i, o, e) n) as [a m]. cbn [with_table fst snd].
    rewrite IHr by done. by destruct (meant r (i, o, e) m) as [b k].
  - cbn -[meant with_table runcmd table]. rewrite IH by done. by destruct (meant c (i, o, e) n) as [a m].
Qed.
End Run.
Arguments Becomes {W D}. Arguments Child {W D}. Arguments Waits {W D}. Arguments Prints {W D}.

Lemma back_std {W} n (c : cmd W) : redirs_std c -> redirs_std (Nat.iter n BACK c).
Proof. intros Hc. by induction n. Qed.

Lemma redirs_den l : redirs_std (den_line l).
Proof.
  assert (Hr : forall rs (c : cmd (list Z)), redirs_std c -> redirs_std (foldl redir c rs)).
  { intros rs. induction rs as [|[k w] rs IH]; intros c Hc; [done|]. apply IH. destruct k; simpl; auto. }
  revert l. apply (line_mut (fun l => redirs_std (den_line l)) (fun p => redirs_std (den_pipe p)) (fun e => redirs_std (den_exec e)));
    cbn [den_line den_pipe den_exec redirs_std]; auto.
  - intros pl Hpl n. by apply back_std.
  - intros pl Hpl n l Hl. split; [by apply back_std|done].
  - intros rs args. by apply Hr.
Qed.

(** C17: from the text of a command line to its processes.  With standard input,
    output and error open and a kernel that grants forks and pipes, the shell
    starts the programs of the line, each with exactly the standard descriptors
    its redirections and pipes give it: no end of a pipe is left open in a
    program that does not use it, and in place of a command behind a file that
    cannot be opened there is the message about it.  The shell waits for the left
    side of a list before it goes on with the right one and for both sides of a
    pipe; it does not wait for a command in the background. *)
Theorem shell_runs_line opens buf l s n :
  spells buf (toks_line l) -> short_line l ->
  exists c b p, parsecmd buf 0%nat = Ok (c, b) p /\
    launch opens (runcmd (cmd_map (fun w => cstring b w.1) c)) (table s) n = with_table (meant opens (den_line l) s n).
Proof.
  intros Hs Hsh. assert (Hp : parses buf (parseline buf (parse_fuel buf)) 0%nat (den_line l) []).
  { apply grammar_parses; [done|done|rewrite app_nil_r; split; [lia|done]|]. pose proof (spells_length _ _ Hs). unfold parse_fuel. lia. }
  destruct (parsecmd_of_line buf _ Hp) as (c & b & p & E & Ec). exists c, b, p. split; [done|]. rewrite Ec. apply launch_meant, redirs_den.
Qed.

Lemma shell_runs_line_witness :
  exists c b p, parsecmd line1 0%nat = Ok (c, b) p /\
    launch (fun _ _ => true) (runcmd (cmd_map (fun w => cstring b w.1) c)) (table (EOther 0, EOther 0, EOther 0)) 0 =
    ([Child [Child [Becomes (str "ls") [str "ls"] (table (EOther 0, EFile (str "f") 513, EOther 0))];
             Child [Becomes (str "wc") [str "wc"] (table (ERead 0, EOther 0, EOther 0))]; Waits; Waits]], 1%nat).
Proof. apply (shell_runs_line (fun _ _ => true) line1 sentence1 (EOther 0, EOther 0, EOther 0) 0 line1_spells). vm_compute. repeat constructor. Defined.
