(* ===== verification/Disk.v ===== *)
(** * The transactional disk that fs.c works on

    fs.c reads a block with bread, changes bp->data, records it with log_write
    and lets it go with brelse, inside a transaction.  [ldisk] is what this
    looks like to it: the contents of the home blocks as the current
    transaction sees them, the buffers the process holds (named by their
    sector), and the sectors the transaction has logged.  The operations stop
    the way bio.c and log.c do when the buffers or the log run out.

    [sim] and the lemmas on it show that log.c over any [Buffers] implements
    this disk. *)

From stdpp Require Import functions.
From S2P Require Import Prelude Bio Interfaces Spinlock Bytes Log Crash.

Record ldisk := mkLdisk {
  ld_size : Z;             (** home blocks: the log starts here *)
  ld_nlog : Z;             (** blocks of the log *)
  ld_blk : Z -> block;
  ld_buf : gmap Z block;   (** busy buffers *)
  ld_log : list Z;         (** sectors of the transaction, in log order *)
  ld_busy : bool;          (** a transaction is active *)
}.
Definition set_blk f d := mkLdisk (ld_size d) (ld_nlog d) f (ld_buf d) (ld_log d) (ld_busy d).
Definition set_buf f d := mkLdisk (ld_size d) (ld_nlog d) (ld_blk d) f (ld_log d) (ld_busy d).
Definition set_log f d := mkLdisk (ld_size d) (ld_nlog d) (ld_blk d) (ld_buf d) f (ld_busy d).
Definition set_busy f d := mkLdisk (ld_size d) (ld_nlog d) (ld_blk d) (ld_buf d) (ld_log d) f.

(** The buffers that cannot be recycled. *)
Definition ld_pinned d : gset Z := list_to_set (ld_log d) ∪ dom (ld_buf d).

Definition bread (dev s : Z) : M ldisk Z :=
  d ← get;
  if bool_decide (s ∈ dom (ld_buf d)) then halt (SSleep s)
  else if bool_decide (NBUF < size (ld_pinned d ∪ {[s]}))%nat then panic "bget: no buffers"
  else if negb (dev =? ROOTDEV) then panic "iderw: request not for disk 1"
  else if negb ((0 <=? s) && (s <? ld_size d)) then undef "block outside of the file system"
  else put (set_buf (<[s := ld_blk d s]> (ld_buf d)) d);; mret s.
Definition bdata (s : Z) : M ldisk block := d ← get; deref "bp->data" (ld_buf d !! s).
Definition set_bdata (s : Z) (x : block) : M ldisk unit :=
  d ← get;
  if bool_decide (s ∈ dom (ld_buf d)) then put (set_buf (<[s := x]> (ld_buf d)) d) else undef "bp->data".
Definition log_write (s : Z) : M ldisk unit :=
  d ← get;
  if (LOGSIZE <=? Z.of_nat (length (ld_log d))) || (ld_nlog d - 1 <=? Z.of_nat (length (ld_log d))) then panic "too big a transaction"
  else if negb (ld_busy d) then panic "write outside of trans"
  else
    x ← bdata s;
    if bool_decide (NBUF <= size (ld_pinned d))%nat then panic "bget: no buffers"
    else
      put (set_blk (<[s := x]> (ld_blk d))
             (set_log (if bool_decide (s ∈ ld_log d) then ld_log d else ld_log d ++ [s]) d)).
(** A buffer is let go with the contents the disk has of it. *)
Definition brelse (s : Z) : M ldisk unit :=
  d ← get;
  x ← bdata s;
  if bool_decide (x = ld_blk d s) then put (set_buf (delete s (ld_buf d)) d) else undef "modified buffer released".

Definition begin_trans : M ldisk unit :=
  d ← get; if ld_busy d then halt (SSleep 0) else put (set_busy true d).
Definition commit_trans : M ldisk unit :=
  d ← get;
  if negb (bool_decide (dom (ld_buf d) = ∅)) then undef "commit with busy buffers"
  else if bool_decide (NBUF <= length (ld_log d))%nat then panic "bget: no buffers"
  else put (set_busy false (set_log [] d)).

Lemma bdata_some s d x d' : bdata s d = Ok x d' -> ld_buf d !! s = Some x /\ d' = d.
Proof.
  intros E. unfold bdata in E. minv E d1 d2 E1. injection E1 as -> ->. destruct (ld_buf d2 !! s); [|done]. by injection E as -> ->.
Qed.

Ltac d_simpl := cbn [ld_size ld_nlog ld_blk ld_buf ld_log ld_busy set_blk set_buf set_log set_busy].

(** ** log.c implements it *)

Section Sim.
Context {C : Type} `{Buffers C}.
Implicit Types (l : log C) (v : bview) (d : ldisk).

Record sim l d v (T : list (Z * block)) : Prop := {
  sm_rep : lrep l v T;
  sm_start : lg_start l = ld_size d;
  sm_size : lg_size l = ld_nlog d;
  sm_busy : lg_busy l = ld_busy d;
  sm_log : T.*1 = ld_log d;
  sm_blk : forall s, 0 <= s < ld_size d -> content v s = ld_blk d s;
  sm_buf : forall s x, ld_buf d !! s = Some x <-> exists h, bv_held v !! h = Some (s, x);
  sm_home : forall s, s ∈ dom (ld_buf d) -> 0 <= s < ld_size d;
}.

Lemma sim_held l d v T : sim l d v T -> held_sectors v = dom (ld_buf d).
Proof.
  intros Hs. apply set_eq. intros s. rewrite elem_of_held_sectors, elem_of_dom. split.
  - intros (h & x & Hx). exists x. apply (sm_buf _ _ _ _ Hs). eauto.
  - intros [x (h & Hx)%(sm_buf _ _ _ _ Hs)]. eauto.
Qed.
Lemma sim_dirty l d v T : sim l d v T -> dom (bv_dirty v) = list_to_set (ld_log d).
Proof. intros Hs. rewrite (lr_dirty _ _ _ (sm_rep _ _ _ _ Hs)), dom_list_to_map_L. by rewrite (sm_log _ _ _ _ Hs). Qed.
Lemma sim_pinned l d v T : sim l d v T -> dom (bv_dirty v) ∪ held_sectors v = ld_pinned d.
Proof. intros Hs. unfold ld_pinned. by rewrite (sim_held _ _ _ _ Hs), (sim_dirty _ _ _ _ Hs). Qed.

(** Only one buffer holds a sector. *)
Lemma sim_handle l d v T h h' s x x' :
  sim l d v T -> bv_held v !! h = Some (s, x) -> bv_held v !! h' = Some (s, x') -> h = h'.
Proof.
  intros Hs Hh Hh'. destruct (brep_held _ _ _ _ _ (lr_rep _ _ _ (sm_rep _ _ _ _ Hs)) Hh) as (_ & _ & Hu).
  symmetry. by eapply Hu.
Qed.

Lemma bread_sim l d d' v T s :
  sim l d v T -> bread ROOTDEV s d = Ok s d' ->
  exists h l' v', cache (Interfaces.bread ROOTDEV s) l = Ok h l' /\ sim l' d' v' T /\ bv_held v' = <[h := (s, ld_blk d s)]> (bv_held v).
Proof.
  intros Hs E. unfold bread in E. minv E d0 d1 E1. injection E1 as -> ->. case_bool_decide as Hn; [done|].
  case_bool_decide as Hr; [done|]. cbn [negb] in E. change (ROOTDEV =? ROOTDEV) with true in E. cbn [negb] in E.
  destruct ((0 <=? s) && (s <? ld_size d1)) eqn:Hrange; [|done]. cbn [negb] in E. injection E as <-.
  apply andb_true_iff in Hrange as [Hr1%Z.leb_le Hr2%Z.ltb_lt]. pose proof (sm_rep _ _ _ _ Hs) as Hl.
  destruct (bread_spec (bc l) v s (lr_rep _ _ _ Hl)) as (h & c' & Eb & Hh & Hb).
  - pose proof (lr_end _ _ _ Hl). pose proof (lr_room _ _ _ Hl). rewrite (sm_start _ _ _ _ Hs) in *. lia.
  - by rewrite (sim_held _ _ _ _ Hs).
  - unfold buf_room. rewrite (sim_pinned _ _ _ _ Hs). lia.
  - rewrite (sm_blk _ _ _ _ Hs) in Hb by lia. exists h, (set_bc c' l), (bv_hold h s (ld_blk d1 s) v). split; [by apply cache_ok|]. split; [|done].
    destruct Hs. split; d_simpl; l_simpl; try done; [by eapply lrep_bc| |].
    + intros s' x. destruct (decide (s' = s)) as [->|Hne].
      * rewrite lookup_insert_eq. split.
        -- intros [= <-]. exists h. by rewrite lookup_insert_eq.
        -- intros (h' & Hh'). destruct (decide (h' = h)) as [->|Hne]; [rewrite lookup_insert_eq in Hh'; congruence|].
           rewrite lookup_insert_ne in Hh' by done. exfalso. apply Hn. apply elem_of_dom. exists x. apply sm_buf0. eauto.
      * rewrite lookup_insert_ne by done. rewrite sm_buf0. split; intros (h' & Hh'); exists h'.
        -- rewrite lookup_insert_ne; [done|]. intros ->. congruence.
        -- destruct (decide (h' = h)) as [->|Hne']; [rewrite lookup_insert_eq in Hh'; congruence|by rewrite lookup_insert_ne in Hh'].
    + intros s'. rewrite dom_insert_L, elem_of_union, elem_of_singleton. intros [->|Hs']; [lia|by apply sm_home0].
Qed.

Lemma sim_data l d v T s x :
  sim l d v T -> ld_buf d !! s = Some x ->
  exists h, bv_held v !! h = Some (s, x) /\ forall h' x', bv_held v !! h' = Some (s, x') -> h' = h.
Proof.
  intros Hs (h & Hh)%(sm_buf _ _ _ _ Hs). exists h. split; [done|]. intros h' x' Hh'. by eapply sim_handle.
Qed.

Lemma bdata_sim l d v T h s x : sim l d v T -> bv_held v !! h = Some (s, x) ->
  cache (Interfaces.bdata h) l = Ok x l /\ bdata s d = Ok x d.
Proof.
  intros Hs Hh. split.
  - rewrite (cache_ok _ l x (bc l)); [by destruct l|]. eapply bdata_spec; [apply Hs|exact Hh].
  - unfold bdata. mrun1. by rewrite (proj2 (sm_buf _ _ _ _ Hs s x)) by eauto.
Qed.

Lemma set_bdata_sim l d v T h s x y :
  sim l d v T -> bv_held v !! h = Some (s, x) -> length y = Z.to_nat BSIZE ->
  exists l' d' v', cache (Interfaces.set_bdata h y) l = Ok tt l' /\ set_bdata s y d = Ok tt d' /\ sim l' d' v' T /\
    bv_held v' = <[h := (s, y)]> (bv_held v).
Proof.
  intros Hs Hh Hy. destruct (set_bdata_spec (bc l) v h s x y (lr_rep _ _ _ (sm_rep _ _ _ _ Hs)) Hh Hy) as (c' & E & Hb).
  assert (Hd : ld_buf d !! s = Some x) by (apply (sm_buf _ _ _ _ Hs); eauto).
  assert (Hdom : s ∈ dom (ld_buf d)) by (apply elem_of_dom; eauto).
  exists (set_bc c' l), (set_buf (<[s := y]> (ld_buf d)) d), (bv_hold h s y v). split_and!; [by apply cache_ok| | |done].
  { unfold set_bdata. mrun1. by rewrite bool_decide_true. }
  pose proof (fun h' x' => sim_handle l d v T h h' s x x' Hs Hh) as Hu.
  destruct Hs. split; d_simpl; l_simpl; try done; [by eapply lrep_bc| |].
  - intros s' z. destruct (decide (s' = s)) as [->|Hne].
    + rewrite lookup_insert_eq. split; [intros [= <-]; exists h; by rewrite lookup_insert_eq|].
      intros (h' & Hh'). destruct (decide (h' = h)) as [->|Hne]; [rewrite lookup_insert_eq in Hh'; congruence|].
      rewrite lookup_insert_ne in Hh' by done. by rewrite (Hu h' z Hh') in Hne.
    + rewrite lookup_insert_ne by done. rewrite sm_buf0. split; intros (h' & Hh'); exists h'.
      * rewrite lookup_insert_ne; [done|]. intros ->. congruence.
      * destruct (decide (h' = h)) as [->|Hne']; [rewrite lookup_insert_eq in Hh'; congruence|by rewrite lookup_insert_ne in Hh'].
  - intros s'. rewrite dom_insert_L, elem_of_union, elem_of_singleton. intros [->|Hs']; by apply sm_home0.
Qed.

Lemma brelse_sim l d d' v T h s x :
  sim l d v T -> bv_held v !! h = Some (s, x) -> brelse s d = Ok tt d' ->
  exists l' v', cache (Interfaces.brelse h) l = Ok tt l' /\ sim l' d' v' T /\ bv_held v' = delete h (bv_held v).
Proof.
  intros Hs Hh E. unfold brelse in E. minv E d0 d1 E1. injection E1 as -> ->. minv E x0 d0 E1.
  rewrite (proj2 (bdata_sim _ _ _ _ _ _ _ Hs Hh)) in E1. injection E1 as <- <-. case_bool_decide as Hx; [|done]. injection E as <-.
  assert (Hd : ld_buf d1 !! s = Some x) by (apply (sm_buf _ _ _ _ Hs); eauto).
  assert (Hr : 0 <= s < ld_size d1) by (apply (sm_home _ _ _ _ Hs); apply elem_of_dom; eauto).
  destruct (brelse_spec (bc l) v h s x (lr_rep _ _ _ (sm_rep _ _ _ _ Hs)) Hh) as (c' & E & Hb); [by rewrite (sm_blk _ _ _ _ Hs)|].
  exists (set_bc c' l), (bv_drop h v). split; [by apply cache_ok|]. split; [|done].
  pose proof (fun h' x' => sim_handle l d1 v T h h' s x x' Hs Hh) as Hu.
  destruct Hs. split; d_simpl; l_simpl; try done; [by eapply lrep_bc| |].
  - intros s' z. destruct (decide (s' = s)) as [->|Hne].
    + rewrite lookup_delete_eq. split; [done|]. intros (h' & Hh'). destruct (decide (h' = h)) as [->|Hne]; [by rewrite lookup_delete_eq in Hh'|].
      rewrite lookup_delete_ne in Hh' by done. by rewrite (Hu h' z Hh') in Hne.
    + rewrite lookup_delete_ne by done. rewrite sm_buf0. split; intros (h' & Hh'); exists h'.
      * rewrite lookup_delete_ne; [done|]. intros ->. congruence.
      * destruct (decide (h' = h)) as [->|Hne']; [by rewrite lookup_delete_eq in Hh'|by rewrite lookup_delete_ne in Hh'].
  - intros s'. rewrite dom_delete_L, elem_of_difference. intros [Hs' _]. by apply sm_home0.
Qed.

Lemma log_write_sim l d d' v T h s x :
  sim l d v T -> bv_held v !! h = Some (s, x) -> log_write s d = Ok tt d' ->
  exists l' v' T', Log.log_write h l = Ok tt l' /\ sim l' d' v' T' /\ bv_held v' = bv_held v.
Proof.
  intros Hs Hh E. unfold log_write in E. minv E d0 d1 E1. injection E1 as -> ->.
  destruct ((LOGSIZE <=? _) || _) eqn:Hb; [done|]. apply orb_false_iff in Hb as [Hb1%Z.leb_gt Hb2%Z.leb_gt].
  destruct (ld_busy d1) eqn:Hbusy; [|done]. cbn [negb] in E. minv E x0 d0 E1.
  rewrite (proj2 (bdata_sim _ _ _ _ _ _ _ Hs Hh)) in E1. injection E1 as <- <-. case_bool_decide as Hroom; [done|]. injection E as <-.
  assert (Hr : 0 <= s < ld_size d1) by (apply (sm_home _ _ _ _ Hs); apply elem_of_dom; exists x; apply (sm_buf _ _ _ _ Hs); eauto).
  pose proof (sm_rep _ _ _ _ Hs) as Hl. pose proof (lr_n _ _ _ Hl) as Hn. pose proof (f_equal length (sm_log _ _ _ _ Hs)) as HlT. rewrite length_fmap in HlT.
  destruct (lrep_log_write l v T h s x Hl) as (l' & lb & E & Hlb & Hl' & Es & Ez & Eb); try done.
  { split.
    - intros s' Hs' Hin. rewrite (sim_held _ _ _ _ Hs) in Hin. apply (sm_home _ _ _ _ Hs) in Hin. rewrite (sm_start _ _ _ _ Hs) in Hs'. lia.
    - rewrite (sim_pinned _ _ _ _ Hs). lia. }
  { by rewrite (sm_busy _ _ _ _ Hs). } { by rewrite (sm_start _ _ _ _ Hs). } { lia. } { rewrite (sm_size _ _ _ _ Hs). lia. }
  exists l', (bv_mark s x (bv_write lb x v)), (log_insert T s x). split; [done|]. split; [|done].
  rewrite (sm_start _ _ _ _ Hs) in Hlb. destruct Hs. split; d_simpl; l_simpl; try done; try congruence.
  - rewrite log_insert_keys, sm_log0. destruct (decide (s ∈ ld_log d1)); [by rewrite bool_decide_true|by rewrite bool_decide_false].
  - intros s' Hs'. unfold content. l_simpl. destruct (decide (s' = s)) as [->|Hne].
    + by rewrite lookup_insert_eq, fn_lookup_insert.
    + rewrite lookup_insert_ne, lookup_delete_ne by (done || lia). rewrite (fn_lookup_insert_ne (bv_disk v)) by lia.
      rewrite fn_lookup_insert_ne by done. symmetry. by rewrite <- sm_blk0.
Qed.

Lemma begin_sim l d d' v T :
  sim l d v T -> begin_trans d = Ok tt d' -> exists l', Log.begin_trans l = Ok tt l' /\ sim l' d' v T.
Proof.
  intros Hs E. unfold begin_trans in E. minv E d0 d1 E1. injection E1 as -> ->. destruct (ld_busy d1) eqn:Hb; [done|]. injection E as <-.
  exists (set_lg_busy true l). split; [apply begin_run; [apply Hs|by rewrite (sm_busy _ _ _ _ Hs)]|].
  destruct Hs. split; d_simpl; l_simpl; try done. by apply lrep_busy.
Qed.

Lemma commit_sim l d d' v T :
  sim l d v T -> commit_trans d = Ok tt d' -> exists l' v', Log.commit_trans l = Ok tt l' /\ sim l' d' v' [].
Proof.
  intros Hs E. unfold commit_trans in E. minv E d0 d1 E1. injection E1 as -> ->. case_bool_decide as Hbuf; [|done]. cbn [negb] in E.
  case_bool_decide as Hlen; [done|]. injection E as <-. pose proof (sm_rep _ _ _ _ Hs) as Hl.
  assert (Hnb : forall h p, bv_held v !! h <> Some p).
  { intros h [s x] Hh. assert (Hx : ld_buf d1 !! s = Some x) by (apply (sm_buf _ _ _ _ Hs); eauto).
    apply elem_of_dom_2 in Hx. rewrite Hbuf in Hx. by apply not_elem_of_empty in Hx. }
  assert (Hid : idle v).
  { apply map_eq. intros h. rewrite lookup_empty. destruct (bv_held v !! h) as [p|] eqn:E; [by apply Hnb in E|done]. }
  pose proof (f_equal length (sm_log _ _ _ _ Hs)) as HlT. rewrite length_fmap in HlT.
  destruct (commit_run l v T (bv_disk v) (content v) Hl Hid ltac:(lia)) as (l' & ws & E & Hl' & Hb & [Es Ez] & Hhome & _); [done| |].
  { intros s. unfold content. by rewrite (lr_dirty _ _ _ Hl). }
  exists l', (bv_writes ws v). split; [done|].
  rewrite (sm_start _ _ _ _ Hs) in Hhome.
  destruct Hs. split; d_simpl; try done; try congruence.
  - intros s Hx. unfold content at 1. rewrite (lr_dirty _ _ _ Hl'). simpl. rewrite lookup_empty. simpl. rewrite Hhome by lia. by apply sm_blk0.
  - intros s x. rewrite bv_writes_held. apply sm_buf0.
Qed.

(** ** Sequences of operations

    What a client does with the disk, and what it sees: the data it reads. *)
Inductive dop : Type :=
| DBegin | DCommit
| DBread (s : Z) | DData (s : Z) | DSet (s : Z) (x : block) | DLogWrite (s : Z) | DBrelse (s : Z).

Definition run_op (o : dop) : M ldisk (list block) :=
  match o with
  | DBegin => begin_trans;; mret []
  | DCommit => commit_trans;; mret []
  | DBread s => bread ROOTDEV s;; mret []
  | DData s => x ← bdata s; mret [x]
  | DSet s x => set_bdata s x;; mret []
  | DLogWrite s => log_write s;; mret []
  | DBrelse s => brelse s;; mret []
  end.
Fixpoint run_ops (os : list dop) : M ldisk (list block) :=
  match os with
  | [] => mret []
  | o :: os => a ← run_op o; b ← run_ops os; mret (a ++ b)
  end.

(** The same client on log.c and bio.c; [hs] are the buffers it has got. *)
Definition log_op (o : dop) : M (log C * gmap Z nat) (list block) :=
  let on {A} (m : M (log C) A) : M (log C * gmap Z nat) A := zoom fst (fun l p => (l, p.2)) m in
  let with_ {A} s (k : nat -> M (log C) A) : M (log C * gmap Z nat) A := p ← get; h ← deref "no buffer" (p.2 !! s); on (k h) in
  match o with
  | DBegin => on Log.begin_trans;; mret []
  | DCommit => on Log.commit_trans;; mret []
  | DBread s => h ← on (cache (Interfaces.bread ROOTDEV s)); modify (fun p => (p.1, <[s := h]> p.2));; mret []
  | DData s => x ← with_ s (fun h => cache (Interfaces.bdata h)); mret [x]
  | DSet s x => with_ s (fun h => cache (Interfaces.set_bdata h x));; mret []
  | DLogWrite s => with_ s Log.log_write;; mret []
  | DBrelse s => with_ s (fun h => cache (Interfaces.brelse h));; mret []
  end.
Fixpoint log_ops (os : list dop) : M (log C * gmap Z nat) (list block) :=
  match os with
  | [] => mret []
  | o :: os => a ← log_op o; b ← log_ops os; mret (a ++ b)
  end.

(** The client's buffers are the busy ones. *)
Definition handles (v : bview) (hs : gmap Z nat) : Prop :=
  forall h s x, bv_held v !! h = Some (s, x) -> hs !! s = Some h.

Definition op_ok (o : dop) : Prop := match o with DSet _ x => length x = Z.to_nat BSIZE | _ => True end.

Lemma handles_empty l d v T hs : sim l d v T -> ld_buf d = ∅ -> handles v hs.
Proof.
  intros Hs He h s x Hh. assert (Hx : ld_buf d !! s = Some x) by (apply (sm_buf _ _ _ _ Hs); eauto). by rewrite He, lookup_empty in Hx.
Qed.

Lemma handles_with {A} (hs : gmap Z nat) l v s h x (k : nat -> M (log C) A) a l' :
  handles v hs -> bv_held v !! h = Some (s, x) -> k h l = Ok a l' ->
  (p ← get; h ← deref "no buffer" (p.2 !! s); zoom fst (fun l p => (l, p.2)) (k h)) (l, hs) = Ok a (l', hs).
Proof.
  intros Hh Hx E. mrun1. cbn [snd]. rewrite (Hh _ _ _ Hx). cbn [deref]. mrun1. unfold zoom. cbn [fst]. by rewrite E.
Qed.

Lemma op_sim o l d d' v T hs out :
  sim l d v T -> handles v hs -> op_ok o -> run_op o d = Ok out d' ->
  exists l' v' T' hs', log_op o (l, hs) = Ok out (l', hs') /\ sim l' d' v' T' /\ handles v' hs'.
Proof.
  intros Hs Hh Hok E.
  destruct o as [| |s|s|s x|s|s]; cbn [run_op log_op] in *; minv E a d1 E1; injection E as <- <-.
  - destruct a. destruct (begin_sim l d d1 v T Hs E1) as (l' & E & Hs'). exists l', v, T, hs. split; [|done].
    unfold zoom, mbind, M_bind. cbn [fst]. by rewrite E.
  - destruct a. destruct (commit_sim l d d1 v T Hs E1) as (l' & v' & E & Hs'). exists l', v', [], hs. split_and!; [|done|].
    + unfold zoom, mbind, M_bind. cbn [fst]. by rewrite E.
    + apply (handles_empty l' d1 v' [] hs Hs'). unfold commit_trans in E1. minv E1 d2 d3 E2. injection E2 as -> ->.
      case_bool_decide as Hb; [|done]. cbn [negb] in E1. case_bool_decide; [done|]. injection E1 as <-. d_simpl. by apply dom_empty_inv_L.
  - assert (a = s) as ->.
    { unfold bread in E1. minv E1 d2 d3 E2. repeat case_bool_decide; try done. repeat destruct (negb _); try done. minv E1 u d4 E3. by injection E1. }
    destruct (bread_sim l d d1 v T s Hs E1) as (h & l' & v' & E & Hs' & Ev). exists l', v', T, (<[s := h]> hs). split_and!; [|done|].
    + unfold zoom, mbind, M_bind. cbn [fst]. by rewrite E.
    + intros h' s' x' Hx. rewrite Ev in Hx. destruct (decide (h' = h)) as [->|Hne].
      * rewrite lookup_insert_eq in Hx. injection Hx as <- _. by rewrite lookup_insert_eq.
      * rewrite lookup_insert_ne in Hx by done. destruct (decide (s' = s)) as [->|Hne']; [|rewrite lookup_insert_ne by done; by eapply Hh].
        exfalso. apply Hne. eapply (sim_handle l' d1 v' T); [done|rewrite Ev; by rewrite lookup_insert_ne|rewrite Ev; by rewrite lookup_insert_eq].
  - apply bdata_some in E1 as [Hx ->]. destruct (sim_data l d v T s a Hs Hx) as (h & Hhx & _).
    destruct (bdata_sim l d v T h s a Hs Hhx) as [E2 E3].
    exists l, v, T, hs. split; [|done]. by rewrite (bind_ok _ _ _ _ _ (handles_with hs l v s h a _ _ _ Hh Hhx E2)).
  - destruct a. assert (Hx : is_Some (ld_buf d !! s)).
    { unfold set_bdata in E1. minv E1 d2 d3 E2. injection E2 as -> ->. case_bool_decide as Hd; [by apply elem_of_dom|done]. }
    destruct Hx as [x0 Hx]. destruct (sim_data l d v T s x0 Hs Hx) as (h & Hhx & _).
    destruct (set_bdata_sim l d v T h s x0 x Hs Hhx Hok) as (l' & d2 & v' & E2 & E3 & Hs' & Ev). rewrite E3 in E1. injection E1 as <-.
    exists l', v', T, hs. split_and!; [by rewrite (bind_ok _ _ _ _ _ (handles_with hs l v s h x0 _ _ _ Hh Hhx E2))|done|].
    intros h' s' x' Hx'. rewrite Ev in Hx'. destruct (decide (h' = h)) as [->|Hne]; [|rewrite lookup_insert_ne in Hx' by done; by eapply Hh].
    rewrite lookup_insert_eq in Hx'. injection Hx' as <- _. by eapply Hh.
  - destruct a. assert (Hx : is_Some (ld_buf d !! s)).
    { unfold log_write in E1. minv E1 d2 d3 E2. injection E2 as -> ->. destruct (_ || _); [done|]. destruct (negb _); [done|]. minv E1 x d4 E2.
      apply bdata_some in E2 as [E2 _]. by exists x. }
    destruct Hx as [x0 Hx]. destruct (sim_data l d v T s x0 Hs Hx) as (h & Hhx & _).
    destruct (log_write_sim l d d1 v T h s x0 Hs Hhx E1) as (l' & v' & T' & E2 & Hs' & Ev).
    exists l', v', T', hs. split_and!; [by rewrite (bind_ok _ _ _ _ _ (handles_with hs l v s h x0 _ _ _ Hh Hhx E2))|done|].
    intros h' s' x'. rewrite Ev. apply Hh.
  - destruct a. assert (Hx : is_Some (ld_buf d !! s)).
    { unfold brelse in E1. minv E1 d2 d3 E2. injection E2 as -> ->. minv E1 x d4 E2.
      apply bdata_some in E2 as [E2 _]. by exists x. }
    destruct Hx as [x0 Hx]. destruct (sim_data l d v T s x0 Hs Hx) as (h & Hhx & _).
    destruct (brelse_sim l d d1 v T h s x0 Hs Hhx E1) as (l' & v' & E2 & Hs' & Ev).
    exists l', v', T, hs. split_and!; [by rewrite (bind_ok _ _ _ _ _ (handles_with hs l v s h x0 _ _ _ Hh Hhx E2))|done|].
    intros h' s' x' Hx'. rewrite Ev in Hx'. apply lookup_delete_Some in Hx' as [_ Hx']. by eapply Hh.
Qed.

Lemma ops_sim os l d d' v T hs out :
  sim l d v T -> handles v hs -> Forall op_ok os -> run_ops os d = Ok out d' ->
  exists l' v' T' hs', log_ops os (l, hs) = Ok out (l', hs') /\ sim l' d' v' T' /\ handles v' hs'.
Proof.
  intros Hs Hh Hok. revert l d v T hs out Hs Hh. induction Hok as [|o os Ho Hos IH]; intros l d v T hs out Hs Hh E; cbn [run_ops log_ops] in *.
  - injection E as <- <-. by exists l, v, T, hs.
  - minv E a d1 E1. minv E b d2 E2. injection E as <- <-.
    destruct (op_sim o l d d1 v T hs a Hs Hh Ho E1) as (l1 & v1 & T1 & hs1 & L1 & Hs1 & Hh1).
    destruct (IH l1 d1 v1 T1 hs1 b Hs1 Hh1 E2) as (l2 & v2 & T2 & hs2 & L2 & Hs2 & Hh2).
    exists l2, v2, T2, hs2. split; [|done]. mstep L1. mstep L2. done.
Qed.
End Sim.

(** The disk of a log between transactions. *)
Definition disk_of {C} (l : log C) (v : bview) : ldisk := mkLdisk (lg_start l) (lg_size l) (content v) ∅ [] false.

Lemma sim_start {C} `{Buffers C} (l : log C) v : lrep l v [] -> idle v -> lg_busy l = false -> sim l (disk_of l v) v [].
Proof.
  intros Hr Hid Hb. split; unfold disk_of; d_simpl; try done.
  - intros s x. rewrite lookup_empty, Hid. split; [done|]. intros (h & Hh). by rewrite lookup_empty in Hh.
Qed.

(** C2: log.c and bio.c implement the transactional disk. A client that begins
    transactions, reads, changes, logs and releases blocks and commits, in any
    order, and for which the disk of this file neither waits nor stops, sees the
    same data from log.c over any buffer cache, and leaves it in a state that
    represents the same blocks, busy buffers and logged sectors. *)
Theorem disk_refines {C} `{Buffers C} (os : list dop) (l : log C) v out d' :
  lrep l v [] -> idle v -> lg_busy l = false -> Forall op_ok os -> run_ops os (disk_of l v) = Ok out d' ->
  exists l' hs v' T, log_ops os (l, ∅) = Ok out (l', hs) /\ sim l' d' v' T.
Proof.
  intros Hr Hid Hb Hok E. pose proof (sim_start l v Hr Hid Hb) as Hs.
  destruct (ops_sim os l _ d' v [] ∅ out Hs (handles_empty _ _ _ _ _ Hs eq_refl) Hok E) as (l' & v' & T' & hs' & L & Hs' & _).
  by exists l', hs', v', T'.
Qed.

Definition ops16 : list dop :=
  [DBegin; DBread 3; DSet 3 (replicate 512 7); DLogWrite 3; DBrelse 3; DBread 5; DBrelse 5; DCommit; DBread 3; DData 3].

Lemma disk_refines_witness :
  exists c l' hs, log_ops ops16 (log16 c, ∅) = Ok [replicate 512 7] (l', hs).
Proof.
  destruct disk16_boots as (c & _ & Hb). exists c.
  assert (E : exists d', run_ops ops16 (disk_of (log16 c) (fresh_view disk16)) = Ok [replicate 512 7] d') by (eexists; vm_compute; reflexivity).
  destruct E as [d' E].
  destruct (disk_refines ops16 (log16 c) (fresh_view disk16) [replicate 512 7] d') as (l' & hs & v' & T & L & _);
    [exact (log16_rep c Hb)|reflexivity|reflexivity|repeat constructor|exact E|]. exists l', hs. exact L.
Defined.
