(* ===== verification/Fs.v ===== *)
(** * fs.c: blocks, inodes, directories and paths

    The file system of src/fs.c over the transactional disk of Disk.v.  An
    in-memory inode is an entry of icache, a pointer to it an index.  On-disk
    inodes, bitmap blocks and directory entries are bytes of blocks, read and
    written at the offsets the C structures have.  wakeup(ip) has no effect on
    this state; a process that finds an inode busy stops with [SSleep].  The
    device switch is the parameter [devsw]. *)

From stdpp Require Import functions.
From S2P Require Import Prelude Str Interfaces Spinlock Bytes Log Disk.

Definition i16 (x : Z) : Z := (x + 2 ^ 15) mod 2 ^ 16 - 2 ^ 15.

Definition NINODE : nat := 50.
Definition NDEV : Z := 10.
Definition ROOTINO : Z := 1.
Definition NDIRECT : Z := 12.
Definition NINDIRECT : Z := 128.
Definition MAXFILE : Z := NDIRECT + NINDIRECT.
Definition IPB : Z := 8.
Definition IBLOCK (i : Z) : Z := i / IPB + 2.
Definition BPB : Z := 4096.
Definition BBLOCK (b ninodes : Z) : Z := b / BPB + ninodes / IPB + 3.
Definition DIRSIZ : nat := 14.
Definition T_DIR : Z := 1.
Definition T_FILE : Z := 2.
Definition T_DEV : Z := 3.
Definition I_BUSY : Z := 1.
Definition I_VALID : Z := 2.

Record inode := mkInode {
  i_dev : Z; i_inum : Z; i_ref : Z; i_flags : Z;
  i_type : Z; i_major : Z; i_minor : Z; i_nlink : Z; i_size : Z;
  i_addrs : list Z;      (** NDIRECT + 1 of them *)
}.
Definition set_id dev inum ip := mkInode dev inum (i_ref ip) (i_flags ip) (i_type ip) (i_major ip) (i_minor ip) (i_nlink ip) (i_size ip) (i_addrs ip).
Definition set_ref v ip := mkInode (i_dev ip) (i_inum ip) v (i_flags ip) (i_type ip) (i_major ip) (i_minor ip) (i_nlink ip) (i_size ip) (i_addrs ip).
Definition set_iflags v ip := mkInode (i_dev ip) (i_inum ip) (i_ref ip) v (i_type ip) (i_major ip) (i_minor ip) (i_nlink ip) (i_size ip) (i_addrs ip).
Definition set_type v ip := mkInode (i_dev ip) (i_inum ip) (i_ref ip) (i_flags ip) v (i_major ip) (i_minor ip) (i_nlink ip) (i_size ip) (i_addrs ip).
Definition set_size v ip := mkInode (i_dev ip) (i_inum ip) (i_ref ip) (i_flags ip) (i_type ip) (i_major ip) (i_minor ip) (i_nlink ip) v (i_addrs ip).
Definition set_addrs v ip := mkInode (i_dev ip) (i_inum ip) (i_ref ip) (i_flags ip) (i_type ip) (i_major ip) (i_minor ip) (i_nlink ip) (i_size ip) v.
Definition set_meta type major minor nlink size addrs ip :=
  mkInode (i_dev ip) (i_inum ip) (i_ref ip) (i_flags ip) type major minor nlink size addrs.
Definition set_nlink v ip := mkInode (i_dev ip) (i_inum ip) (i_ref ip) (i_flags ip) (i_type ip) (i_major ip) (i_minor ip) v (i_size ip) (i_addrs ip).

Record fsys := mkFsys {
  ic_lock : bool;
  icache : list inode;   (** NINODE entries *)
  dsk : ldisk;
}.
Definition set_ic_lock b s := mkFsys b (icache s) (dsk s).
Definition set_icache c s := mkFsys (ic_lock s) c (dsk s).
Definition set_dsk d s := mkFsys (ic_lock s) (icache s) d.

Definition disk {A} (m : M ldisk A) : M fsys A := zoom dsk set_dsk m.
Definition ic_acquire : M fsys unit := acquire ic_lock set_ic_lock.
Definition ic_release : M fsys unit := release ic_lock set_ic_lock.
(** [*ip] and an assignment to fields of it. *)
Definition inode_at (ip : nat) : M fsys inode := s ← get; deref "ip" (icache s !! ip).
Definition upd_inode (ip : nat) (f : inode -> inode) : M fsys unit :=
  i ← inode_at ip; modify (fun s => set_icache (<[ip := f i]> (icache s)) s).

Definition iinit : M fsys unit := modify (set_ic_lock false).

(** ** Blocks *)

Definition readsb (dev : Z) : M fsys superblock :=
  bp ← disk (bread dev 1);
  x ← disk (bdata bp);
  disk (brelse bp);;
  mret (mkSb (get32 x 0) (get32 x 4) (get32 x 8) (get32 x 12)).

Definition bzero (dev bno : Z) : M fsys unit :=
  bp ← disk (bread dev bno);
  disk (set_bdata bp (replicate (Z.to_nat BSIZE) 0));;
  disk (log_write bp);;
  disk (brelse bp).

Definition bit_mask (bi : Z) : Z := Z.shiftl 1 (bi mod 8).
Definition byte_at (x : block) (i : Z) : Z := default 0 (x !! Z.to_nat i).
Definition set_byte (x : block) (i v : Z) : block := <[Z.to_nat i := v]> x.

(** The inner loop of balloc from [bi] on: the first clear bit. *)
Fixpoint balloc_scan (fuel : nat) (x : block) (b bi size : Z) : option Z :=
  match fuel with
  | O => None
  | S fuel =>
      if (bi <? BPB) && (b + bi <? size) then
        if Z.land (byte_at x (bi / 8)) (bit_mask bi) =? 0 then Some bi
        else balloc_scan fuel x b (bi + 1) size
      else None
  end.
Fixpoint balloc_loop (fuel : nat) (dev : Z) (sb : superblock) (b : Z) : M fsys Z :=
  match fuel with
  | O => halt SFuel
  | S fuel =>
      if b <? sb_size sb then
        bp ← disk (bread dev (BBLOCK b (sb_ninodes sb)));
        x ← disk (bdata bp);
        match balloc_scan (Z.to_nat BPB) x b 0 (sb_size sb) with
        | Some bi =>
            disk (set_bdata bp (set_byte x (bi / 8) (Z.lor (byte_at x (bi / 8)) (bit_mask bi))));;
            disk (log_write bp);;
            disk (brelse bp);;
            bzero dev (b + bi);;
            mret (b + bi)
        | None => disk (brelse bp);; balloc_loop fuel dev sb (b + BPB)
        end
      else panic "balloc: out of blocks"
  end.
Definition balloc (dev : Z) : M fsys Z :=
  sb ← readsb dev; balloc_loop (S (Z.to_nat (sb_size sb))) dev sb 0.

Definition bfree (dev b : Z) : M fsys unit :=
  sb ← readsb dev;
  bp ← disk (bread dev (BBLOCK b (sb_ninodes sb)));
  let bi := b mod BPB in
  x ← disk (bdata bp);
  if Z.land (byte_at x (bi / 8)) (bit_mask bi) =? 0 then panic "freeing free block"
  else
    disk (set_bdata bp (set_byte x (bi / 8) (Z.land (byte_at x (bi / 8)) (Z.lnot (bit_mask bi)))));;
    disk (log_write bp);;
    disk (brelse bp).

(** ** Inodes *)

(** The offset of inode [inum] in its block. *)
Definition dip_off (inum : Z) : nat := (64 * Z.to_nat (inum mod IPB))%nat.
Definition dip_type (x : block) (o : nat) : Z := i16 (get16 x o).
Definition dip_addrs (x : block) (o : nat) : list Z := map (fun k => get32 x (o + 12 + 4 * k)%nat) (seq 0 13).
(** [dip->... = ip->...;] *)
Definition dip_store (x : block) (o : nat) (ip : inode) : block :=
  let x := put16 x o (u16 (i_type ip)) in
  let x := put16 x (o + 2) (u16 (i_major ip)) in
  let x := put16 x (o + 4) (u16 (i_minor ip)) in
  let x := put16 x (o + 6) (u16 (i_nlink ip)) in
  let x := put32 x (o + 8) (i_size ip) in
  splice x (o + 12) (concat (map (le_bytes 4) (i_addrs ip))).
(** [ip->... = dip->...;] *)
Definition dip_load (x : block) (o : nat) (ip : inode) : inode :=
  set_meta (dip_type x o) (i16 (get16 x (o + 2))) (i16 (get16 x (o + 4))) (i16 (get16 x (o + 6))) (get32 x (o + 8)) (dip_addrs x o) ip.

Definition iupdate (ip : nat) : M fsys unit :=
  i ← inode_at ip;
  bp ← disk (bread (i_dev i) (IBLOCK (i_inum i)));
  x ← disk (bdata bp);
  disk (set_bdata bp (dip_store x (dip_off (i_inum i)) i));;
  disk (log_write bp);;
  disk (brelse bp).

(** The search of iget: a cached entry, else the first free one. *)
Fixpoint iget_scan (l : list inode) (k : nat) (dev inum : Z) (empty : option nat) : nat + option nat :=
  match l with
  | [] => inr empty
  | i :: l =>
      if (0 <? i_ref i) && (i_dev i =? dev) && (i_inum i =? inum) then inl k
      else iget_scan l (S k) dev inum (match empty with None => if i_ref i =? 0 then Some k else None | e => e end)
  end.
Definition iget (dev inum : Z) : M fsys nat :=
  ic_acquire;;
  s ← get;
  match iget_scan (icache s) 0 dev inum None with
  | inl ip => upd_inode ip (fun i => set_ref (i_ref i + 1) i);; ic_release;; mret ip
  | inr None => panic "iget: no inodes"
  | inr (Some ip) => upd_inode ip (fun i => set_iflags 0 (set_ref 1 (set_id dev inum i)));; ic_release;; mret ip
  end.

Fixpoint ialloc_loop (fuel : nat) (dev type inum ninodes : Z) : M fsys nat :=
  match fuel with
  | O => halt SFuel
  | S fuel =>
      if inum <? ninodes then
        bp ← disk (bread dev (IBLOCK inum));
        x ← disk (bdata bp);
        if dip_type x (dip_off inum) =? 0 then
          disk (set_bdata bp (put16 (splice x (dip_off inum) (replicate 64 0)) (dip_off inum) (u16 type)));;
          disk (log_write bp);;
          disk (brelse bp);;
          iget dev inum
        else disk (brelse bp);; ialloc_loop fuel dev type (inum + 1) ninodes
      else panic "ialloc: no inodes"
  end.
Definition ialloc (dev type : Z) : M fsys nat :=
  sb ← readsb dev; ialloc_loop (S (Z.to_nat (sb_ninodes sb))) dev type 1 (sb_ninodes sb).

Definition idup (ip : nat) : M fsys nat :=
  ic_acquire;; upd_inode ip (fun i => set_ref (i_ref i + 1) i);; ic_release;; mret ip.

Definition flag (i : inode) (mask : Z) : bool := truth (Z.land (i_flags i) mask).

Definition ilock (ip : nat) : M fsys unit :=
  i ← inode_at ip;
  if i_ref i <? 1 then panic "ilock" else
  ic_acquire;;
  i ← inode_at ip;
  if flag i I_BUSY then ic_release;; halt (SSleep (Z.of_nat ip)) else
  upd_inode ip (fun i => set_iflags (Z.lor (i_flags i) I_BUSY) i);;
  ic_release;;
  i ← inode_at ip;
  when (negb (flag i I_VALID))
    (bp ← disk (bread (i_dev i) (IBLOCK (i_inum i)));
     x ← disk (bdata bp);
     upd_inode ip (dip_load x (dip_off (i_inum i)));;
     disk (brelse bp);;
     upd_inode ip (fun i => set_iflags (Z.lor (i_flags i) I_VALID) i);;
     i ← inode_at ip;
     when (i_type i =? 0) (panic "ilock: no type")).

Definition iunlock (ip : nat) : M fsys unit :=
  i ← inode_at ip;
  if negb (flag i I_BUSY) || (i_ref i <? 1) then panic "iunlock" else
  ic_acquire;;
  upd_inode ip (fun i => set_iflags (Z.land (i_flags i) (Z.lnot I_BUSY)) i);;
  ic_release.

(** ** Inode content *)

Definition addr_at (i : inode) (k : Z) : Z := default 0 (i_addrs i !! Z.to_nat k).
Definition set_addr (k a : Z) (i : inode) : inode := set_addrs (<[Z.to_nat k := a]> (i_addrs i)) i.

(** [if ((addr = ip->addrs[k]) == 0) ip->addrs[k] = addr = balloc(ip->dev);] *)
Definition addr_or_alloc (ip : nat) (k : Z) : M fsys Z :=
  i ← inode_at ip;
  if addr_at i k =? 0 then
    a ← balloc (i_dev i);
    upd_inode ip (set_addr k a);;
    mret a
  else mret (addr_at i k).

Definition bmap (ip : nat) (bn : Z) : M fsys Z :=
  if bn <? NDIRECT then addr_or_alloc ip bn
  else
    let bn := bn - NDIRECT in
    if bn <? NINDIRECT then
      addr ← addr_or_alloc ip NDIRECT;
      i ← inode_at ip;
      bp ← disk (bread (i_dev i) addr);
      a ← disk (bdata bp);
      let addr := get32 a (4 * Z.to_nat bn)%nat in
      if addr =? 0 then
        addr ← balloc (i_dev i);
        disk (set_bdata bp (put32 a (4 * Z.to_nat bn)%nat addr));;
        disk (log_write bp);;
        disk (brelse bp);;
        mret addr
      else disk (brelse bp);; mret addr
    else panic "bmap: out of range".

Definition free_direct (ip : nat) (k : Z) : M fsys unit :=
  i ← inode_at ip;
  when (truth (addr_at i k)) (bfree (i_dev i) (addr_at i k);; upd_inode ip (set_addr k 0)).

Definition itrunc (ip : nat) : M fsys unit :=
  mfor (upto NDIRECT) (free_direct ip);;
  i ← inode_at ip;
  when (truth (addr_at i NDIRECT))
    (bp ← disk (bread (i_dev i) (addr_at i NDIRECT));
     a ← disk (bdata bp);
     mfor (upto NINDIRECT) (fun j =>
       let b := get32 a (4 * Z.to_nat j)%nat in when (truth b) (bfree (i_dev i) b));;
     disk (brelse bp);;
     bfree (i_dev i) (addr_at i NDIRECT);;
     upd_inode ip (set_addr NDIRECT 0));;
  upd_inode ip (set_size 0);;
  iupdate ip.

Definition iput (ip : nat) : M fsys unit :=
  ic_acquire;;
  i ← inode_at ip;
  when ((i_ref i =? 1) && flag i I_VALID && (i_nlink i =? 0))
    (if flag i I_BUSY then panic "iput busy" else
     upd_inode ip (fun i => set_iflags (Z.lor (i_flags i) I_BUSY) i);;
     ic_release;;
     itrunc ip;;
     upd_inode ip (set_type 0);;
     iupdate ip;;
     ic_acquire;;
     upd_inode ip (set_iflags 0));;
  upd_inode ip (fun i => set_ref (i_ref i - 1) i);;
  ic_release.

Definition iunlockput (ip : nat) : M fsys unit := iunlock ip;; iput ip.

Record stat := mkStat { st_type : Z; st_dev : Z; st_ino : Z; st_nlink : Z; st_size : Z }.
Definition stati (ip : nat) : M fsys stat :=
  i ← inode_at ip; mret (mkStat (i_type i) (i_dev i) (i_inum i) (i_nlink i) (i_size i)).

Section Devices.
(** devsw[major].read and .write: a read returns a count and the bytes. *)
Context (devsw : Z -> option ((nat -> Z -> M fsys (Z * list Z)) * (nat -> list Z -> M fsys Z))).

Definition device (i : inode) :=
  if (i_major i <? 0) || (NDEV <=? i_major i) then None else devsw (i_major i).

Fixpoint readi_loop (fuel : nat) (ip : nat) (tot off n : Z) (dst : list Z) : M fsys (Z * list Z) :=
  match fuel with
  | O => halt SFuel
  | S fuel =>
      if tot <? n then
        i ← inode_at ip;
        b ← bmap ip (off / BSIZE);
        bp ← disk (bread (i_dev i) b);
        let m := Z.min (n - tot) (BSIZE - off mod BSIZE) in
        x ← disk (bdata bp);
        let dst := dst ++ slice x (Z.to_nat (off mod BSIZE)) (Z.to_nat m) in
        disk (brelse bp);;
        readi_loop fuel ip (tot + m) (off ⊕ m) n dst
      else mret (n, dst)
  end.
Definition readi (ip : nat) (off n : Z) : M fsys (Z * list Z) :=
  i ← inode_at ip;
  if i_type i =? T_DEV then
    match device i with None => mret (-1, []) | Some d => d.1 ip n end
  else if (i_size i <? off) || (off ⊕ n <? off) then mret (-1, [])
  else
    let n := if i_size i <? off ⊕ n then i_size i ⊖ off else n in
    readi_loop (S (Z.to_nat n)) ip 0 off n [].

(** The final value of [off] is returned. *)
Fixpoint writei_loop (fuel : nat) (ip : nat) (tot off n : Z) (src : list Z) : M fsys Z :=
  match fuel with
  | O => halt SFuel
  | S fuel =>
      if tot <? n then
        i ← inode_at ip;
        b ← bmap ip (off / BSIZE);
        bp ← disk (bread (i_dev i) b);
        let m := Z.min (n - tot) (BSIZE - off mod BSIZE) in
        x ← disk (bdata bp);
        disk (set_bdata bp (splice x (Z.to_nat (off mod BSIZE)) (take (Z.to_nat m) src)));;
        disk (log_write bp);;
        disk (brelse bp);;
        writei_loop fuel ip (tot + m) (off ⊕ m) n (drop (Z.to_nat m) src)
      else mret off
  end.
(** [src] are the [n] bytes at the source address. *)
Definition writei (ip : nat) (src : list Z) (off n : Z) : M fsys Z :=
  i ← inode_at ip;
  if i_type i =? T_DEV then
    match device i with None => mret (-1) | Some d => d.2 ip src end
  else if (i_size i <? off) || (off ⊕ n <? off) then mret (-1)
  else if MAXFILE * BSIZE <? off ⊕ n then mret (-1)
  else
    off ← writei_loop (S (Z.to_nat n)) ip 0 off n src;
    i ← inode_at ip;
    when ((0 <? n) && (i_size i <? off)) (upd_inode ip (set_size off);; iupdate ip);;
    mret n.

(** ** Directories *)

Definition namecmp (s t : cstr) : Z := strncmp s t DIRSIZ.
Definition de_inum (de : list Z) : Z := get16 de 0.
Definition de_name (de : list Z) : cstr := of_list (slice de 2 DIRSIZ).
Definition sizeof_de : Z := 16.

Fixpoint dirlookup_loop (fuel : nat) (dp : nat) (name : cstr) (off : Z) : M fsys (option (nat * Z)) :=
  match fuel with
  | O => halt SFuel
  | S fuel =>
      i ← inode_at dp;
      if off <? i_size i then
        r ← readi dp off sizeof_de;
        if negb (r.1 =? sizeof_de) then panic "dirlink read"
        else if de_inum r.2 =? 0 then dirlookup_loop fuel dp name (off ⊕ sizeof_de)
        else if namecmp name (de_name r.2) =? 0 then ip ← iget (i_dev i) (de_inum r.2); mret (Some (ip, off))
        else dirlookup_loop fuel dp name (off ⊕ sizeof_de)
      else mret None
  end.
(** The inode and [*poff], or null. *)
Definition dirlookup (dp : nat) (name : cstr) : M fsys (option (nat * Z)) :=
  i ← inode_at dp;
  if negb (i_type i =? T_DIR) then panic "dirlookup not DIR"
  else dirlookup_loop (S (Z.to_nat (i_size i))) dp name 0.

Fixpoint dirlink_scan (fuel : nat) (dp : nat) (off : Z) : M fsys Z :=
  match fuel with
  | O => halt SFuel
  | S fuel =>
      i ← inode_at dp;
      if off <? i_size i then
        r ← readi dp off sizeof_de;
        if negb (r.1 =? sizeof_de) then panic "dirlink read"
        else if de_inum r.2 =? 0 then mret off
        else dirlink_scan fuel dp (off + sizeof_de)
      else mret off
  end.
Definition dirlink (dp : nat) (name : cstr) (inum : Z) : M fsys Z :=
  o ← dirlookup dp name;
  match o with
  | Some (ip, _) => iput ip;; mret (-1)
  | None =>
      i ← inode_at dp;
      off ← dirlink_scan (S (Z.to_nat (i_size i))) dp 0;
      r ← writei dp (le_bytes 2 (u16 inum) ++ strncpy_bytes name DIRSIZ) off sizeof_de;
      if negb (r =? sizeof_de) then panic "dirlink" else mret 0
  end.

(** ** Paths *)

Definition slash : Z := 47.
Fixpoint skip_slashes (path : list Z) : list Z :=
  match path with c :: path' => if c =? slash then skip_slashes path' else path | [] => [] end.
(** The characters up to the next slash, and the rest. *)
Fixpoint path_elem (path : list Z) : list Z * list Z :=
  match path with
  | c :: path' => if c =? slash then ([], path) else let (e, r) := path_elem path' in (c :: e, r)
  | [] => ([], [])
  end.
(** [name] is the DIRSIZ-byte buffer. *)
Definition skipelem (path name : list Z) : option (list Z * list Z) :=
  match skip_slashes path with
  | [] => None
  | path =>
      let (s, path) := path_elem path in
      let name := if (DIRSIZ <=? length s)%nat then splice name 0 (take DIRSIZ s) else splice name 0 (s ++ [0]) in
      Some (skip_slashes path, name)
  end.

Fixpoint namex_loop (fuel : nat) (ip : nat) (path name : list Z) (parent : bool) : M fsys (option nat * list Z) :=
  match fuel with
  | O => halt SFuel
  | S fuel =>
      match skipelem path name with
      | Some (path, name) =>
          ilock ip;;
          i ← inode_at ip;
          if negb (i_type i =? T_DIR) then iunlockput ip;; mret (None, name)
          else if parent && bool_decide (path = []) then iunlock ip;; mret (Some ip, name)
          else
            next ← dirlookup ip (of_list name);
            match next with
            | None => iunlockput ip;; mret (None, name)
            | Some (next, _) => iunlockput ip;; namex_loop fuel next path name parent
            end
      | None => if parent then iput ip;; mret (None, name) else mret (Some ip, name)
      end
  end.
(** [cwd] is proc->cwd. *)
Definition namex (cwd : nat) (path : list Z) (parent : bool) (name : list Z) : M fsys (option nat * list Z) :=
  ip ← (if bool_decide (head path = Some slash) then iget ROOTDEV ROOTINO else idup cwd);
  namex_loop (S (length path)) ip path name parent.

Definition namei (cwd : nat) (path : list Z) : M fsys (option nat) :=
  r ← namex cwd path false (replicate DIRSIZ 0); mret r.1.
Definition nameiparent (cwd : nat) (path name : list Z) : M fsys (option nat * list Z) := namex cwd path true name.
End Devices.
