(* ===== verification/Fsblk.v ===== *)
(** * Blocks: how fs.c uses the transactional disk

    Runs of the block operations of Fs.v, with the resources they need: [rbud]
    bounds the buffers that are pinned in the cache, [wbud] also the room left
    in the log.  [W] collects the sectors a transaction has written and may
    still write: as long as it is small nothing panics. *)

From stdpp Require Import functions.
From S2P Require Import Prelude Str Interfaces Spinlock Bytes Log Disk Fs.

Definition blocks_ok (d : ldisk) : Prop := forall s, 0 <= s < ld_size d -> length (ld_blk d s) = 512%nat.

Record rbud (d : ldisk) (W : gset Z) : Prop := {
  rb_nodup : NoDup (ld_log d);
  rb_pinned : ld_pinned d ⊆ W;
  rb_room : (size W < NBUF)%nat;
}.
Record wbud (d : ldisk) (W : gset Z) : Prop := {
  wb_rbud : rbud d W;
  wb_nlog : Z.of_nat (size W) < ld_nlog d - 1;
  wb_busy : ld_busy d = true;
}.

(** The disk after a block was changed in the transaction. *)
Definition logged (s : Z) (x : block) (d : ldisk) : ldisk :=
  set_blk (<[s := x]> (ld_blk d)) (set_log (if bool_decide (s ∈ ld_log d) then ld_log d else ld_log d ++ [s]) d).

Lemma logged_nodup s x d : NoDup (ld_log d) -> NoDup (ld_log (logged s x d)).
Proof.
  intros Hn. unfold logged. d_simpl. case_bool_decide as Hs; [done|]. apply NoDup_app. split_and!; [done| |by apply NoDup_singleton].
  intros y Hy ->%list_elem_of_singleton. done.
Qed.
Lemma logged_pinned s x d : ld_pinned (logged s x d) = ld_pinned d ∪ {[s]}.
Proof.
  unfold ld_pinned, logged. d_simpl. apply set_eq. intros y. case_bool_decide as Hs.
  - rewrite !elem_of_union, elem_of_singleton, elem_of_list_to_set. split; [tauto|]. intros [?| ->]; [done|by left].
  - rewrite !elem_of_union, elem_of_singleton, !elem_of_list_to_set, elem_of_app, list_elem_of_singleton. tauto.
Qed.
Lemma rbud_logged s x d W : rbud d W -> s ∈ W -> rbud (logged s x d) W.
Proof.
  intros [Hn Hp Hr] Hs. split; [by apply logged_nodup| |done]. rewrite logged_pinned. intros y [?| ->%elem_of_singleton]%elem_of_union; [by apply Hp|done].
Qed.
Lemma wbud_logged s x d W : wbud d W -> s ∈ W -> wbud (logged s x d) W.
Proof. intros [Hr Hn Hb] Hs. split; [by apply rbud_logged|done|done]. Qed.
Lemma wbud_mono d W W' : wbud d W -> W ⊆ W' -> (size W' < NBUF)%nat -> Z.of_nat (size W') < ld_nlog d - 1 -> wbud d W'.
Proof. intros [[Hn Hp Hr] Hl Hb] Hs H1 H2. split; [split|..]; try done. by etrans. Qed.

Lemma rbud_size d W (V : gset Z) : rbud d W -> V ⊆ ld_pinned d -> (size V < NBUF)%nat.
Proof. intros [_ Hp Hr] HV. pose proof (subseteq_size V W ltac:(by etrans)). lia. Qed.

(** ** The primitive operations *)

Section Prim.
Implicit Types (d : ldisk) (f : fsys).

Lemma fs_bread f s W :
  rbud (dsk f) W -> s ∉ dom (ld_buf (dsk f)) -> 0 <= s < ld_size (dsk f) ->
  disk (bread ROOTDEV s) f = Ok s (set_dsk (set_buf (<[s := ld_blk (dsk f) s]> (ld_buf (dsk f))) (dsk f)) f).
Proof.
  intros Hb Hs Hr. unfold disk, zoom, bread. mrun1. rewrite bool_decide_false by done. rewrite bool_decide_false.
  - change (negb (ROOTDEV =? ROOTDEV)) with false. cbn iota. rewrite (proj2 (Z.leb_le 0 s)), (proj2 (Z.ltb_lt _ _)) by lia. done.
  - pose proof (size_union_alt (ld_pinned (dsk f)) {[s]}) as E. pose proof (rbud_size _ _ (ld_pinned (dsk f)) Hb ltac:(done)) as Hz.
    assert (Hd : (size (({[s]} : gset Z) ∖ ld_pinned (dsk f)) <= 1)%nat).
    { rewrite <- (size_singleton (C := gset Z) s). apply subseteq_size. set_solver. }
    lia.
Qed.

Lemma bdata_run f s x : ld_buf (dsk f) !! s = Some x -> disk (bdata s) f = Ok x f.
Proof. intros Hx. unfold disk, zoom, bdata. mrun1. rewrite Hx. cbn. by destruct f. Qed.

Lemma fs_brelse f s : ld_buf (dsk f) !! s = Some (ld_blk (dsk f) s) -> disk (brelse s) f = Ok tt (set_dsk (set_buf (delete s (ld_buf (dsk f))) (dsk f)) f).
Proof. intros Hx. unfold disk, zoom, brelse, bdata. mrun1. rewrite bind_assoc_run. mrun1. rewrite Hx. cbn [deref]. mrun1. by rewrite bool_decide_true. Qed.

Lemma set_bdata_run f s x y : ld_buf (dsk f) !! s = Some x -> disk (set_bdata s y) f = Ok tt (set_dsk (set_buf (<[s := y]> (ld_buf (dsk f))) (dsk f)) f).
Proof. intros Hx. unfold disk, zoom, set_bdata. mrun1. by rewrite bool_decide_true by (by apply elem_of_dom_2 in Hx). Qed.

Lemma fs_log_write f s x W :
  wbud (dsk f) W -> ld_buf (dsk f) !! s = Some x -> disk (log_write s) f = Ok tt (set_dsk (logged s x (dsk f)) f).
Proof.
  intros [Hb Hn Hbu] Hx. unfold disk, zoom, log_write. mrun1.
  assert (Hlen : (length (ld_log (dsk f)) < NBUF)%nat /\ Z.of_nat (length (ld_log (dsk f))) < ld_nlog (dsk f) - 1).
  { pose proof (rb_nodup _ _ Hb) as Hnd. rewrite <- (size_list_to_set (C := gset Z) _ Hnd).
    assert (Hs : (list_to_set (ld_log (dsk f)) : gset Z) ⊆ W) by (etrans; [|apply (rb_pinned _ _ Hb)]; unfold ld_pinned; set_solver).
    apply subseteq_size in Hs. pose proof (rb_room _ _ Hb). lia. }
  unfold LOGSIZE. rewrite (proj2 (Z.leb_gt _ _)) by (unfold NBUF in *; lia). rewrite (proj2 (Z.leb_gt _ _)) by lia. rewrite Hbu. cbn [orb negb].
  unfold bdata. rewrite bind_assoc_run. mrun1. rewrite Hx. cbn [deref]. mrun1. rewrite bool_decide_false; [done|].
  pose proof (rbud_size _ _ (ld_pinned (dsk f)) Hb ltac:(done)). lia.
Qed.
End Prim.

(** ** Reading and changing a block *)

Lemma buf_cycle f s x : s ∉ dom (ld_buf (dsk f)) -> set_dsk (set_buf (delete s (<[s := x]> (ld_buf (dsk f)))) (dsk f)) f = f.
Proof. intros Hs. rewrite delete_insert_id by (by apply not_elem_of_dom). destruct f as [? ? []]. done. Qed.

(** A block is read and let go. *)
Lemma read_run {A} f s W (g : block -> M fsys A) :
  rbud (dsk f) W -> s ∉ dom (ld_buf (dsk f)) -> 0 <= s < ld_size (dsk f) ->
  (bp ← disk (bread ROOTDEV s); x ← disk (bdata bp); disk (brelse bp);; g x) f = g (ld_blk (dsk f) s) f.
Proof.
  intros Hb Hs Hr. mstep (fs_bread f s W Hb Hs Hr). erewrite bind_ok; [|apply bdata_run; cbn; apply lookup_insert_eq].
  erewrite bind_ok; [|apply fs_brelse; cbn; apply lookup_insert_eq]. cbn [dsk set_dsk ld_buf set_buf]. f_equal.
  change (set_dsk (set_buf (delete s (<[s := ld_blk (dsk f) s]> (ld_buf (dsk f)))) (dsk f)) f = f). by apply buf_cycle.
Qed.

(** A block in a held buffer is changed and let go. *)
Lemma change_end f s x y W :
  wbud (dsk f) W -> ld_buf (dsk f) !! s = Some x ->
  (disk (set_bdata s y);; disk (log_write s);; disk (brelse s)) f = Ok tt (set_dsk (set_buf (delete s (ld_buf (dsk f))) (logged s y (dsk f))) f).
Proof.
  intros Hb Hx. mstep (set_bdata_run f s x y Hx). set (f1 := set_dsk _ f).
  assert (Hb1 : wbud (dsk f1) W).
  { destruct Hb as [[Hn Hp Hr] Hl Hbu]. split; [split|..]; try done. unfold ld_pinned in *. cbn. rewrite dom_insert_L.
    apply elem_of_dom_2 in Hx. replace ({[s]} ∪ dom (ld_buf (dsk f))) with (dom (ld_buf (dsk f))) by set_solver. done. }
  assert (Hy : ld_buf (dsk f1) !! s = Some y) by apply lookup_insert_eq. mstep (fs_log_write f1 s y W Hb1 Hy). set (f2 := set_dsk _ f1).
  assert (Hy2 : ld_buf (dsk f2) !! s = Some (ld_blk (dsk f2) s)) by (cbn; by rewrite lookup_insert_eq, fn_lookup_insert).
  rewrite (fs_brelse f2 s Hy2). f_equal. unfold f2, f1, logged, set_dsk, set_buf. cbn. by rewrite delete_insert_eq.
Qed.
Lemma bind_last {S A} (m1 m2 m3 : M S unit) (g : M S A) (s : S) :
  (m1;; m2;; m3;; g) s = ((m1;; m2;; m3);; g) s.
Proof. rewrite !bind_assoc_run. unfold mbind, M_bind. destruct (m1 s); [|done]. by destruct (m2 s0). Qed.
Lemma change_run {A} f s x y W (g : M fsys A) :
  wbud (dsk f) W -> ld_buf (dsk f) !! s = Some x ->
  (disk (set_bdata s y);; disk (log_write s);; disk (brelse s);; g) f = g (set_dsk (set_buf (delete s (ld_buf (dsk f))) (logged s y (dsk f))) f).
Proof. intros Hb Hx. rewrite bind_last. by mstep (change_end f s x y W Hb Hx). Qed.

(** Holding one more of the sectors counted. *)
Lemma wbud_hold d W s x : wbud d W -> s ∈ W -> wbud (set_buf (<[s := x]> (ld_buf d)) d) W.
Proof.
  intros [[Hn Hp Hr] Hl Hbu] Hs. split; [split|..]; try done. unfold ld_pinned in *. d_simpl. rewrite dom_insert_L.
  intros y [?|[->%elem_of_singleton|?]%elem_of_union]%elem_of_union; [|done|]; apply Hp; rewrite elem_of_union; auto.
Qed.
Lemma buf_back d s x y : s ∉ dom (ld_buf d) -> set_buf (delete s (<[s := x]> (ld_buf d))) (logged s y (set_buf (<[s := x]> (ld_buf d)) d)) = logged s y d.
Proof. intros Hs. unfold logged, set_buf. cbn. by rewrite delete_insert_id by (by apply not_elem_of_dom). Qed.

(** bread, change, log_write, brelse. *)
Lemma fs_update {A} f s (h : block -> block) W (g : M fsys A) :
  wbud (dsk f) W -> s ∈ W -> s ∉ dom (ld_buf (dsk f)) -> 0 <= s < ld_size (dsk f) ->
  (bp ← disk (bread ROOTDEV s); x ← disk (bdata bp); disk (set_bdata bp (h x));; disk (log_write bp);; disk (brelse bp);; g) f =
  g (set_dsk (logged s (h (ld_blk (dsk f) s)) (dsk f)) f).
Proof.
  intros Hb HsW Hs Hr. mstep (fs_bread f s W (wb_rbud _ _ Hb) Hs Hr). set (f1 := set_dsk _ f).
  assert (Hx : ld_buf (dsk f1) !! s = Some (ld_blk (dsk f) s)) by apply lookup_insert_eq. mstep (bdata_run f1 s _ Hx).
  rewrite (change_run f1 s _ _ W g (wbud_hold _ _ _ _ Hb HsW) Hx). cbn [f1 dsk set_dsk]. f_equal.
  change (set_dsk (set_buf (delete s (<[s := ld_blk (dsk f) s]> (ld_buf (dsk f)))) (logged s (h (ld_blk (dsk f) s)) (set_buf (<[s := ld_blk (dsk f) s]> (ld_buf (dsk f))) (dsk f)))) f = set_dsk (logged s (h (ld_blk (dsk f) s)) (dsk f)) f).
  by rewrite buf_back.
Qed.

(** ** The bitmap *)

Definition bit (x : block) (b : Z) : bool := Z.testbit (byte_at x (b / 8)) (b mod 8).
Definition set_bit (x : block) (b : Z) : block := set_byte x (b / 8) (Z.lor (byte_at x (b / 8)) (bit_mask b)).
Definition clear_bit (x : block) (b : Z) : block := set_byte x (b / 8) (Z.land (byte_at x (b / 8)) (Z.lnot (bit_mask b))).

Lemma mask_bit b n : 0 <= n -> Z.testbit (bit_mask b) n = (n =? b mod 8).
Proof.
  intros Hn. pose proof (Z.mod_pos_bound b 8 ltac:(lia)). unfold bit_mask. rewrite Z.shiftl_1_l, Z.pow2_bits_eqb by lia. apply Z.eqb_sym.
Qed.

Lemma mask_test w b : (Z.land w (bit_mask b) =? 0) = negb (Z.testbit w (b mod 8)).
Proof.
  pose proof (Z.mod_pos_bound b 8 ltac:(lia)). destruct (Z.testbit w (b mod 8)) eqn:E; cbn [negb].
  - apply Z.eqb_neq. intros H0. assert (Hb : Z.testbit (Z.land w (bit_mask b)) (b mod 8) = true); [|by rewrite H0, Z.bits_0 in Hb].
    rewrite Z.land_spec, E, mask_bit by lia. apply Z.eqb_refl.
  - apply Z.eqb_eq, Z.bits_inj'. intros n Hn. rewrite Z.land_spec, mask_bit, Z.bits_0 by lia. destruct (Z.eqb_spec n (b mod 8)) as [->|]; [by rewrite E|by rewrite andb_false_r].
Qed.

Lemma byte_set x i v j : 0 <= i -> 0 <= j -> (Z.to_nat i < length x)%nat -> byte_at (set_byte x i v) j = if j =? i then v else byte_at x j.
Proof.
  intros Hi Hj Hl. unfold byte_at, set_byte, block in *. destruct (Z.eqb_spec j i) as [->|Hne]; [by rewrite list_lookup_insert_eq|]. rewrite list_lookup_insert_ne by lia. done.
Qed.

Lemma bit_set x b c : 0 <= b < BPB -> 0 <= c < BPB -> length x = 512%nat -> bit (set_bit x b) c = (c =? b) || bit x c.
Proof.
  intros Hb Hc Hl. unfold BPB in *. unfold bit, set_bit. rewrite byte_set by (Z.to_euclidean_division_equations; lia).
  destruct (Z.eqb_spec (c / 8) (b / 8)) as [E|Hne].
  - rewrite Z.lor_spec, mask_bit, E by (apply Z.mod_pos_bound; lia). rewrite orb_comm. f_equal.
    destruct (Z.eqb_spec (c mod 8) (b mod 8)), (Z.eqb_spec c b); try done; exfalso; Z.to_euclidean_division_equations; lia.
  - destruct (Z.eqb_spec c b) as [->|]; [done|done].
Qed.
Lemma bit_clear x b c : 0 <= b < BPB -> 0 <= c < BPB -> length x = 512%nat -> bit (clear_bit x b) c = negb (c =? b) && bit x c.
Proof.
  intros Hb Hc Hl. unfold BPB in *. unfold bit, clear_bit. rewrite byte_set by (Z.to_euclidean_division_equations; lia).
  destruct (Z.eqb_spec (c / 8) (b / 8)) as [E|Hne].
  - pose proof (Z.mod_pos_bound c 8 ltac:(lia)). rewrite Z.land_spec, Z.lnot_spec, mask_bit, E by lia. rewrite andb_comm. f_equal. f_equal.
    destruct (Z.eqb_spec (c mod 8) (b mod 8)), (Z.eqb_spec c b); try done; exfalso; Z.to_euclidean_division_equations; lia.
  - destruct (Z.eqb_spec c b) as [->|]; [done|done].
Qed.
Lemma set_bit_length x b : length (set_bit x b) = length x.
Proof. apply length_insert. Qed.
Lemma clear_bit_length x b : length (clear_bit x b) = length x.
Proof. apply length_insert. Qed.

(** The inner loop of balloc finds the first clear bit. *)
Lemma bits_some fuel x b bi size c :
  (Z.to_nat (c - bi) < fuel)%nat -> bi <= c < BPB -> b + c < size -> bit x c = false -> (forall k, bi <= k < c -> bit x k = true) -> 0 <= bi ->
  balloc_scan fuel x b bi size = Some c.
Proof.
  revert bi. induction fuel as [|fuel IH]; intros bi Hf Hc Hs Hbc Hlow H0; [lia|]. cbn [balloc_scan].
  rewrite (proj2 (Z.ltb_lt bi BPB)), (proj2 (Z.ltb_lt (b + bi) size)) by lia. cbn [andb]. rewrite mask_test. fold (bit x bi).
  destruct (decide (bi = c)) as [->|Hne]; [by rewrite Hbc|]. rewrite Hlow by lia. cbn [negb]. apply IH; try done; try lia. intros k Hk. apply Hlow. lia.
Qed.
Lemma bits_none fuel x b bi size :
  (forall k, bi <= k < BPB -> b + k < size -> bit x k = true) -> balloc_scan fuel x b bi size = None.
Proof.
  revert bi. induction fuel as [|fuel IH]; intros bi Hlow; [done|]. cbn [balloc_scan]. destruct (Z.ltb_spec bi BPB), (Z.ltb_spec (b + bi) size); cbn [andb]; try done.
  rewrite mask_test. fold (bit x bi). rewrite Hlow by lia. cbn [negb]. apply IH. intros k Hk. apply Hlow. lia.
Qed.

(** ** balloc and bfree *)

(** The superblock: a file system of [size] blocks with one bitmap block [bm]. *)
Record geom (d : ldisk) (size bm : Z) : Prop := {
  ge_size : get32 (ld_blk d 1) 0 = size;
  ge_bm : BBLOCK 0 (get32 (ld_blk d 1) 8) = bm;
  ge_one : size <= BPB;
  ge_range : 1 < bm < ld_size d;
}.

Lemma geom_bm d size bm b : geom d size bm -> 0 <= b < BPB -> BBLOCK b (get32 (ld_blk d 1) 8) = bm.
Proof. intros Hg Hb. rewrite <- (ge_bm _ _ _ Hg). unfold BBLOCK, BPB in *. by rewrite (Z.div_small b) by lia. Qed.

Lemma geom_logged d size bm s x : geom d size bm -> s <> 1 -> geom (logged s x d) size bm.
Proof. intros [H1 H2 H3 H4] Hs. split; try done; unfold logged; d_simpl; by rewrite fn_lookup_insert_ne. Qed.

Lemma fs_readsb f W :
  rbud (dsk f) W -> 1 ∉ dom (ld_buf (dsk f)) -> 1 < ld_size (dsk f) ->
  readsb ROOTDEV f = Ok (mkSb (get32 (ld_blk (dsk f) 1) 0) (get32 (ld_blk (dsk f) 1) 4) (get32 (ld_blk (dsk f) 1) 8) (get32 (ld_blk (dsk f) 1) 12)) f.
Proof. intros Hb H1 Hs. unfold readsb. by rewrite (read_run f 1 W) by (done || lia). Qed.

Definition zeros : block := replicate (Z.to_nat BSIZE) 0.

Lemma bzero_run f b W :
  wbud (dsk f) W -> b ∈ W -> b ∉ dom (ld_buf (dsk f)) -> 0 <= b < ld_size (dsk f) ->
  bzero ROOTDEV b f = Ok tt (set_dsk (logged b zeros (dsk f)) f).
Proof.
  intros Hb HbW Hn Hr. unfold bzero. mstep (fs_bread f b W (wb_rbud _ _ Hb) Hn Hr). set (f1 := set_dsk _ f).
  assert (Hx : ld_buf (dsk f1) !! b = Some (ld_blk (dsk f) b)) by apply lookup_insert_eq. fold zeros.
  rewrite (change_end f1 b _ zeros W (wbud_hold _ _ _ _ Hb HbW) Hx). f_equal. cbn [f1 dsk set_dsk ic_lock icache].
  change (ld_buf (set_buf ?x _)) with x. unfold set_dsk. cbn. f_equal. by apply buf_back.
Qed.

(** balloc takes the first clear block [b], marks it and zeroes it. *)
Lemma balloc_run f W size bm b :
  geom (dsk f) size bm -> wbud (dsk f) W -> blocks_ok (dsk f) -> bm ∈ W -> b ∈ W ->
  1 ∉ dom (ld_buf (dsk f)) -> bm ∉ dom (ld_buf (dsk f)) -> b ∉ dom (ld_buf (dsk f)) ->
  0 <= b < size -> b < ld_size (dsk f) -> bit (ld_blk (dsk f) bm) b = false -> (forall k, 0 <= k < b -> bit (ld_blk (dsk f) bm) k = true) ->
  balloc ROOTDEV f = Ok b (set_dsk (logged b zeros (logged bm (set_bit (ld_blk (dsk f) bm) b) (dsk f))) f).
Proof.
  intros Hg Hb Hok HbmW HbW H1 Hbm Hnb Hbs Hbl Hbit Hlow. pose proof (ge_range _ _ _ Hg) as Hbr. pose proof (ge_one _ _ _ Hg) as Hone.
  unfold balloc. erewrite bind_ok by (apply (fs_readsb f W); [apply Hb|done|lia]). cbn [sb_size sb_ninodes].
  rewrite (ge_size _ _ _ Hg). cbn [balloc_loop sb_size sb_ninodes]. rewrite (proj2 (Z.ltb_lt 0 size)) by lia.
  rewrite (ge_bm _ _ _ Hg). mstep (fs_bread f bm W (wb_rbud _ _ Hb) Hbm ltac:(lia)). set (f1 := set_dsk _ f).
  assert (Hx : ld_buf (dsk f1) !! bm = Some (ld_blk (dsk f) bm)) by apply lookup_insert_eq. mstep (bdata_run f1 bm _ Hx).
  rewrite (bits_some _ _ _ _ _ b) by (done || (unfold BPB in *; lia)).
  pose proof (wbud_hold _ _ bm (ld_blk (dsk f) bm) Hb HbmW) as Hb1.
  fold (set_bit (ld_blk (dsk f) bm) b). rewrite (change_run f1 bm _ _ W _ Hb1 Hx). set (f2 := set_dsk _ f1).
  assert (E2 : f2 = set_dsk (logged bm (set_bit (ld_blk (dsk f) bm) b) (dsk f)) f).
  { unfold f2, f1, set_dsk. cbn. f_equal. by apply buf_back. }
  rewrite E2. cbn [Z.add]. erewrite bind_ok by (apply (bzero_run _ b W); cbn [dsk set_dsk]; [by apply wbud_logged|done|done|cbn; lia]). done.
Qed.

(** bfree clears the bit of a block that is in use. *)
Lemma bfree_run f W size bm b :
  geom (dsk f) size bm -> wbud (dsk f) W -> bm ∈ W -> 1 ∉ dom (ld_buf (dsk f)) -> bm ∉ dom (ld_buf (dsk f)) -> 0 <= b < BPB ->
  bfree ROOTDEV b f = if bit (ld_blk (dsk f) bm) b then Ok tt (set_dsk (logged bm (clear_bit (ld_blk (dsk f) bm) b) (dsk f)) f)
                      else Stop (SPanic "freeing free block") (set_dsk (set_buf (<[bm := ld_blk (dsk f) bm]> (ld_buf (dsk f))) (dsk f)) f).
Proof.
  intros Hg Hb HbmW H1 Hbm Hbs. pose proof (ge_range _ _ _ Hg) as Hbr.
  unfold bfree. erewrite bind_ok by (apply (fs_readsb f W); [apply Hb|done|lia]). cbn [sb_size sb_ninodes].
  rewrite (geom_bm _ _ _ b Hg Hbs), (Z.mod_small b BPB) by lia. mstep (fs_bread f bm W (wb_rbud _ _ Hb) Hbm ltac:(lia)). set (f1 := set_dsk _ f).
  assert (Hx : ld_buf (dsk f1) !! bm = Some (ld_blk (dsk f) bm)) by apply lookup_insert_eq. mstep (bdata_run f1 bm _ Hx).
  rewrite mask_test. fold (bit (ld_blk (dsk f) bm) b). destruct (bit (ld_blk (dsk f) bm) b); cbn [negb]; [|done].
  pose proof (wbud_hold _ _ bm (ld_blk (dsk f) bm) Hb HbmW) as Hb1.
  fold (clear_bit (ld_blk (dsk f) bm) b). rewrite (change_end f1 bm _ _ W Hb1 Hx). f_equal. unfold f1, set_dsk. cbn. f_equal. by apply buf_back.
Qed.
