(* ===== verification/Fsfile.v ===== *)
(** * Files: the blocks of an inode and their contents

    What readi and writei of fs.c do to a file.  [imap d i A] says that the
    inode [i] maps its blocks to [A] in order, directly and through the
    indirect block, and that they are data blocks marked in the bitmap;
    [contents] are the bytes of the file.  [wrote] is the frame of a write:
    nothing changes but the file's own blocks, its inode's block, and blocks
    that were free. *)

From stdpp Require Import functions.
From S2P Require Import Prelude Str Interfaces Spinlock Bytes Log Disk Fs Fsblk.

(** The [k]-th block of an inode, 0 when there is none. *)
Definition fblock (d : ldisk) (i : inode) (k : Z) : Z :=
  if k <? NDIRECT then addr_at i k
  else if addr_at i NDIRECT =? 0 then 0
  else get32 (ld_blk d (addr_at i NDIRECT)) (4 * Z.to_nat (k - NDIRECT)).
Definition indirect (i : inode) : list Z := if addr_at i NDIRECT =? 0 then [] else [addr_at i NDIRECT].
Definition footprint (i : inode) (A : list Z) : list Z := A ++ indirect i.

Definition fbytes (d : ldisk) (A : list Z) : list Z := concat (ld_blk d <$> A).
Definition contents (d : ldisk) (i : inode) (A : list Z) : list Z := take (Z.to_nat (i_size i)) (fbytes d A).
(** Blocks that hold [n] bytes. *)
Definition nblk (n : Z) : Z := (n + (BSIZE - 1)) / BSIZE.

Section Volume.
Context (fsz bm : Z).

(** A disk whose bitmap marks the boot block, the superblock, the inode
    blocks and the bitmap itself. *)
Record vol (d : ldisk) : Prop := {
  vo_geom : geom d fsz bm;
  vo_blocks : blocks_ok d;
  vo_meta : forall b, 0 <= b <= bm -> bit (ld_blk d bm) b = true;
  vo_home : ld_size d <= fsz;
}.
Definition free (d : ldisk) : list Z := filter (fun b => bit (ld_blk d bm) b = false) (seqZ 0 (ld_size d)).
Definition data_block (d : ldisk) (b : Z) : Prop := bm < b < ld_size d /\ bit (ld_blk d bm) b = true.

Record imap (d : ldisk) (i : inode) (A : list Z) : Prop := {
  im_dev : i_dev i = ROOTDEV;
  im_addrs : length (i_addrs i) = 13%nat;
  im_len : Z.of_nat (length A) <= MAXFILE;
  im_map : forall k, 0 <= k < MAXFILE -> fblock d i k = default 0 (A !! Z.to_nat k);
  im_ind : addr_at i NDIRECT = 0 -> Z.of_nat (length A) <= NDIRECT;
  im_nodup : NoDup (footprint i A);
  im_data : Forall (data_block d) (footprint i A);
}.

Lemma elem_of_free d b : b ∈ free d <-> 0 <= b < ld_size d /\ bit (ld_blk d bm) b = false.
Proof. unfold free. rewrite list_elem_of_filter, elem_of_seqZ. naive_solver lia. Qed.

Lemma seqZ_split m n b : m <= b < m + n -> seqZ m n = seqZ m (b - m) ++ b :: seqZ (b + 1) (m + n - b - 1).
Proof.
  intros Hb. replace n with ((b - m) + (1 + (m + n - b - 1))) at 1 by lia. rewrite seqZ_app by lia. f_equal.
  replace (m + (b - m)) with b by lia. rewrite seqZ_app by lia. done.
Qed.

(** The first free block, as balloc finds it. *)
Lemma free_first d b fr : vol d -> free d = b :: fr ->
  bm < b < ld_size d /\ bit (ld_blk d bm) b = false /\ (forall k, 0 <= k < b -> bit (ld_blk d bm) k = true).
Proof.
  intros Hv E. assert (Hb : b ∈ free d) by (rewrite E; by left). apply elem_of_free in Hb as [Hr Hb].
  assert (Hl : forall k, 0 <= k < b -> bit (ld_blk d bm) k = true).
  { intros k Hk. destruct (bit (ld_blk d bm) k) eqn:Ek; [done|]. exfalso. unfold free in E. rewrite (seqZ_split 0 _ b) in E by lia.
    rewrite filter_app in E. assert (Hin : k ∈ filter (fun b => bit (ld_blk d bm) b = false) (seqZ 0 (b - 0))) by (rewrite list_elem_of_filter, elem_of_seqZ; split; [done|lia]).
    destruct (filter _ (seqZ 0 (b - 0))) as [|c l] eqn:Ef; [by apply elem_of_nil in Hin|]. injection E as -> _.
    assert (Hc : b ∈ filter (fun b => bit (ld_blk d bm) b = false) (seqZ 0 (b - 0))) by (rewrite Ef; by left). rewrite list_elem_of_filter, elem_of_seqZ in Hc. lia. }
  split_and!; [|lia|done|done]. destruct (decide (bm < b)) as [|Hn]; [done|]. rewrite (vo_meta _ Hv) in Hb by lia. done.
Qed.

(** ** The disk after balloc *)

Definition alloced (b : Z) (d : ldisk) : ldisk := logged b zeros (logged bm (set_bit (ld_blk d bm) b) d).

Lemma alloced_blk b d s : b <> bm -> ld_blk (alloced b d) s = if s =? b then zeros else if s =? bm then set_bit (ld_blk d bm) b else ld_blk d s.
Proof.
  intros Hb. unfold alloced, logged. d_simpl. destruct (Z.eqb_spec s b) as [->|]; [by rewrite fn_lookup_insert|]. rewrite fn_lookup_insert_ne by done.
  destruct (Z.eqb_spec s bm) as [->|]; [by rewrite fn_lookup_insert|by rewrite fn_lookup_insert_ne by done].
Qed.

Lemma alloced_bits b d c : vol d -> bm < b < ld_size d -> 0 <= c < fsz -> bit (ld_blk (alloced b d) bm) c = (c =? b) || bit (ld_blk d bm) c.
Proof.
  intros Hv Hb Hc. pose proof (ge_one _ _ _ (vo_geom _ Hv)). pose proof (vo_home _ Hv). pose proof (ge_range _ _ _ (vo_geom _ Hv)). rewrite alloced_blk by lia.
  rewrite (proj2 (Z.eqb_neq bm b)), Z.eqb_refl by lia. apply bit_set; [lia..|]. apply (vo_blocks _ Hv). lia.
Qed.

Lemma blocks_ok_logged d s x : blocks_ok d -> length x = 512%nat -> blocks_ok (logged s x d).
Proof. intros Hb Hx t Ht. unfold logged. d_simpl. destruct (decide (s = t)) as [->|]; [by rewrite fn_lookup_insert|]. rewrite fn_lookup_insert_ne by done. by apply Hb. Qed.

Lemma vol_logged d s x : vol d -> s <> 1 -> s <> bm -> length x = 512%nat -> vol (logged s x d).
Proof.
  intros [Hg Hb Hm Hh] H1 Hs Hx. split; [by apply geom_logged|by apply blocks_ok_logged| |done].
  unfold logged. d_simpl. by rewrite fn_lookup_insert_ne.
Qed.
Lemma vol_bits d x : vol d -> length x = 512%nat -> (forall b, 0 <= b <= bm -> bit x b = true) -> vol (logged bm x d).
Proof.
  intros [Hg Hb Hm Hh] Hx Hbits. pose proof (ge_range _ _ _ Hg). split; [apply geom_logged; [done|lia]|by apply blocks_ok_logged| |done].
  unfold logged. d_simpl. by rewrite fn_lookup_insert.
Qed.
Lemma vol_bitmap d : vol d -> length (ld_blk d bm) = 512%nat.
Proof. intros Hv. apply (vo_blocks _ Hv). pose proof (ge_range _ _ _ (vo_geom _ Hv)). lia. Qed.

Lemma vol_alloced b d : vol d -> bm < b < ld_size d -> vol (alloced b d).
Proof.
  intros Hv Hb. pose proof (ge_range _ _ _ (vo_geom _ Hv)). pose proof (vo_home _ Hv). pose proof (ge_one _ _ _ (vo_geom _ Hv)).
  pose proof (vol_bitmap _ Hv) as Hl. apply vol_logged; [|lia|lia|done]. apply vol_bits; [done|by rewrite set_bit_length|].
  intros c Hc. rewrite bit_set by (done || lia). rewrite (vo_meta _ Hv) by done. apply orb_true_r.
Qed.

Lemma filter_agree (P Q : Z -> Prop) `{!forall x, Decision (P x), !forall x, Decision (Q x)} (l : list Z) :
  (forall x, x ∈ l -> P x <-> Q x) -> filter P l = filter Q l.
Proof.
  induction l as [|y l IH]; intros HPQ; [done|]. rewrite !filter_cons, (decide_ext (P y) (Q y)) by (apply HPQ; by left).
  rewrite IH by (intros x Hx; apply HPQ; by right). done.
Qed.
Lemma filter_tail (P Q : Z -> Prop) `{!forall x, Decision (P x), !forall x, Decision (Q x)} (l : list Z) b fr :
  NoDup l -> filter P l = b :: fr -> (forall x, x ∈ l -> Q x <-> P x /\ x <> b) -> filter Q l = fr.
Proof.
  revert fr. induction l as [|y l IH]; intros fr Hn E HQ; [done|]. apply NoDup_cons in Hn as [Hy Hn]. rewrite filter_cons in *.
  destruct (decide (P y)) as [HP|HP].
  - injection E as -> E. rewrite decide_False by (rewrite HQ by (by left); tauto). rewrite <- E. apply filter_agree. intros x Hx. rewrite HQ by (by right). split; [tauto|]. intros ?. split; [done|]. by intros ->.
  - rewrite decide_False by (rewrite HQ by (by left); tauto). apply IH; [done..|]. intros x Hx. apply HQ. by right.
Qed.

Lemma free_alloced d b fr : vol d -> free d = b :: fr -> free (alloced b d) = fr.
Proof.
  intros Hv E. destruct (free_first _ _ _ Hv E) as (Hb & _ & _). pose proof (vo_home _ Hv). unfold free in *.
  eapply filter_tail; [apply NoDup_seqZ|exact E|]. intros x [Hx0 Hx1]%elem_of_seqZ. cbn in Hx1. rewrite alloced_bits by (done || lia).
  rewrite orb_false_iff, Z.eqb_neq. tauto.
Qed.

Lemma balloc_free f W b fr :
  vol (dsk f) -> free (dsk f) = b :: fr -> wbud (dsk f) W -> bm ∈ W -> b ∈ W ->
  1 ∉ dom (ld_buf (dsk f)) -> bm ∉ dom (ld_buf (dsk f)) -> b ∉ dom (ld_buf (dsk f)) ->
  balloc ROOTDEV f = Ok b (set_dsk (alloced b (dsk f)) f).
Proof.
  intros Hv E Hb HbmW HbW H1 Hbm Hnb. destruct (free_first _ _ _ Hv E) as (Hr & Hbit & Hlow). pose proof (ge_range _ _ _ (vo_geom _ Hv)). pose proof (vo_home _ Hv).
  apply (balloc_run f W fsz bm b); try done; try lia; apply Hv.
Qed.

(** ** Frames *)

Record wrote (S : list Z) (d d' : ldisk) : Prop := {
  wr_size : ld_size d' = ld_size d;
  wr_nlog : ld_nlog d' = ld_nlog d;
  wr_busy : ld_busy d' = ld_busy d;
  wr_buf : ld_buf d' = ld_buf d;
  wr_blk : forall s, s ∉ S -> s ∉ free d -> s <> bm -> ld_blk d' s = ld_blk d s;
  wr_bits : forall b, 0 <= b < ld_size d -> bit (ld_blk d bm) b = true -> bit (ld_blk d' bm) b = true;
}.

Lemma wrote_refl S d : wrote S d d.
Proof. by split. Qed.
Lemma wrote_free S d d' s : wrote S d d' -> s ∈ free d' -> s ∈ free d.
Proof.
  intros Hw. rewrite !elem_of_free, (wr_size _ _ _ Hw). intros [Hr Hb]. split; [done|].
  destruct (bit (ld_blk d bm) s) eqn:E; [|done]. rewrite (wr_bits _ _ _ Hw s) in Hb by done. done.
Qed.
Lemma wrote_trans S S' d d' d'' : wrote S d d' -> wrote S' d' d'' -> (forall s, s ∈ S' -> s ∈ S \/ s ∈ free d) -> wrote S d d''.
Proof.
  intros Hw Hw' HS. split; [rewrite (wr_size _ _ _ Hw')|rewrite (wr_nlog _ _ _ Hw')|rewrite (wr_busy _ _ _ Hw')|rewrite (wr_buf _ _ _ Hw')|..]; try apply Hw.
  - intros s Hs Hf Hb. rewrite (wr_blk _ _ _ Hw'); [by apply Hw| |intros ?; by eapply Hf, wrote_free|done]. intros Hin. destruct (HS _ Hin); done.
  - intros b Hb E. apply Hw'; [by rewrite (wr_size _ _ _ Hw)|]. by apply Hw.
Qed.
Lemma wrote_mono S S' d d' : wrote S d d' -> S ⊆ S' -> wrote S' d d'.
Proof. intros [? ? ? ? Hb ?] HS. split; try done. intros s Hs. apply Hb. by intros ?%HS. Qed.
Lemma wrote_logged S d s x : s ∈ S -> s <> bm -> wrote S d (logged s x d).
Proof.
  intros Hs Hb. split; try done; unfold logged; d_simpl.
  - intros t Ht _ _. rewrite fn_lookup_insert_ne; [done|]. by intros ->.
  - intros b _. by rewrite fn_lookup_insert_ne.
Qed.
Lemma wrote_alloced S d b fr : vol d -> free d = b :: fr -> wrote S d (alloced b d).
Proof.
  intros Hv E. destruct (free_first _ _ _ Hv E) as (Hb & _ & _). pose proof (vo_home _ Hv). split; try done.
  - intros s _ Hs Hbm. rewrite alloced_blk by lia. rewrite (proj2 (Z.eqb_neq s bm)) by done. destruct (Z.eqb_spec s b) as [->|]; [|done]. destruct Hs. rewrite E. by left.
  - intros c Hc Hbit. rewrite alloced_bits by (done || lia). by rewrite Hbit, orb_true_r.
Qed.

(** A write elsewhere keeps a file. *)
Lemma data_block_wrote S d d' b : wrote S d d' -> data_block d b -> 0 <= bm -> data_block d' b.
Proof. intros Hw [Hr Hb] H0. split; [by rewrite (wr_size _ _ _ Hw)|]. apply (wr_bits _ _ _ Hw); [lia|done]. Qed.
Lemma data_not_free d b : data_block d b -> b ∉ free d.
Proof. intros [_ Hb] [_ Hf]%elem_of_free. by rewrite Hb in Hf. Qed.
Lemma wrote_data S d d' b : wrote S d d' -> data_block d b -> b ∉ S -> ld_blk d' b = ld_blk d b.
Proof. intros Hw Hd Hs. apply (wr_blk _ _ _ Hw); [done|by apply data_not_free|destruct Hd; lia]. Qed.

Lemma in_indirect i s : s ∈ indirect i <-> s = addr_at i NDIRECT /\ s <> 0.
Proof.
  unfold indirect. destruct (Z.eqb_spec (addr_at i NDIRECT) 0) as [E|E]; [|rewrite list_elem_of_singleton; naive_solver].
  rewrite elem_of_nil. naive_solver.
Qed.
Lemma imap_ind d i A : imap d i A -> addr_at i NDIRECT <> 0 -> addr_at i NDIRECT ∈ footprint i A.
Proof. intros _ Hi. apply elem_of_app. right. by apply in_indirect. Qed.
Lemma imap_data d i A s : imap d i A -> s ∈ footprint i A -> data_block d s.
Proof. intros Hm Hs. eapply Forall_forall; [apply (im_data _ _ _ Hm)|done]. Qed.
Lemma imap_in d i A k b : A !! k = Some b -> imap d i A -> data_block d b /\ b ∈ footprint i A.
Proof.
  intros Hk Hm. assert (Hb : b ∈ footprint i A) by (apply elem_of_app; left; by eapply list_elem_of_lookup_2).
  split; [|done]. by eapply imap_data.
Qed.

Lemma imap_frame S d d' i A :
  0 <= bm -> wrote S d d' -> imap d i A -> (forall s, s ∈ footprint i A -> s ∉ S) -> imap d' i A /\ fbytes d' A = fbytes d A.
Proof.
  intros H0 Hw Hm HS. split.
  - destruct Hm as [H1 H2 H3 H4 H5 H6 H7]. split; try done.
    + intros k Hk. rewrite <- H4 by done. unfold fblock. destruct (k <? NDIRECT); [done|]. destruct (Z.eqb_spec (addr_at i NDIRECT) 0) as [|Hi]; [done|].
      assert (Hin : addr_at i NDIRECT ∈ footprint i A) by (apply elem_of_app; right; by apply in_indirect).
      rewrite (wrote_data _ _ _ _ Hw); [done| |by apply HS]. rewrite Forall_forall in H7. by apply H7.
    + eapply Forall_impl; [exact H7|]. intros b Hb. by eapply data_block_wrote.
  - unfold fbytes. f_equal. apply list_fmap_ext. intros k b Hk. destruct (imap_in _ _ _ _ _ Hk Hm) as [Hd Hb]. eapply wrote_data; [done..|by apply HS].
Qed.

(** ** Growing a file *)

Lemma addr_set i k a j : 0 <= k < 13 -> 0 <= j -> length (i_addrs i) = 13%nat -> addr_at (set_addr k a i) j = if j =? k then a else addr_at i j.
Proof.
  intros Hk Hj Hl. unfold addr_at, set_addr. cbn. destruct (Z.eqb_spec j k) as [->|Hne]; [by rewrite list_lookup_insert_eq by lia|].
  by rewrite list_lookup_insert_ne by lia.
Qed.

Lemma fresh_block d i A b fr : vol d -> imap d i A -> free d = b :: fr -> (b ∉ footprint i A) /\ data_block (alloced b d) b.
Proof.
  intros Hv Hm E. destruct (free_first _ _ _ Hv E) as (Hr & Hb & _). pose proof (vo_home _ Hv). split.
  - intros [_ Hd]%(imap_data _ _ _ _ Hm). by rewrite Hb in Hd.
  - split; [done|]. rewrite alloced_bits by (done || (pose proof (ge_range _ _ _ (vo_geom _ Hv)); lia)). by rewrite Z.eqb_refl.
Qed.
Lemma vol_bm d : vol d -> 0 <= bm.
Proof. intros Hv. pose proof (ge_range _ _ _ (vo_geom _ Hv)). lia. Qed.

Lemma imap_alloced d i A b fr : vol d -> imap d i A -> free d = b :: fr -> imap (alloced b d) i A /\ fbytes (alloced b d) A = fbytes d A.
Proof. intros Hv Hm E. eapply (imap_frame []); [by eapply vol_bm|by eapply wrote_alloced|done|]. intros ? _. by apply not_elem_of_nil. Qed.

Lemma app_lookup_end (A : list Z) b k : 0 <= k -> default 0 ((A ++ [b]) !! Z.to_nat k) = if k =? Z.of_nat (length A) then b else default 0 (A !! Z.to_nat k).
Proof.
  intros Hk. destruct (Z.eqb_spec k (Z.of_nat (length A))) as [->|Hne].
  - rewrite Nat2Z.id, list_lookup_middle by done. done.
  - destruct (decide (k < Z.of_nat (length A))).
    + by rewrite lookup_app_l by lia.
    + rewrite !lookup_ge_None_2; [done|lia|rewrite length_app; cbn; lia].
Qed.

Lemma imap_direct d i A b : imap d i A -> b ∉ footprint i A -> data_block d b -> Z.of_nat (length A) < NDIRECT ->
  imap d (set_addr (Z.of_nat (length A)) b i) (A ++ [b]).
Proof.
  intros [H1 H2 H3 H4 H5 H6 H7] Hb Hd Hl. unfold MAXFILE, NDIRECT, NINDIRECT in *.
  assert (Hi : addr_at (set_addr (Z.of_nat (length A)) b i) 12 = addr_at i 12) by (rewrite addr_set by (done || lia); by rewrite (proj2 (Z.eqb_neq _ _)) by lia).
  assert (Hfp : footprint (set_addr (Z.of_nat (length A)) b i) (A ++ [b]) ≡ₚ b :: footprint i A).
  { unfold footprint, indirect, NDIRECT. rewrite Hi. rewrite <- app_assoc. symmetry. apply Permutation_middle. }
  split; [done|cbn; by rewrite length_insert|rewrite length_app; unfold MAXFILE, NDIRECT, NINDIRECT; cbn; lia| |rewrite length_app; unfold NDIRECT; rewrite Hi; cbn; lia|..].
  - intros k Hk. unfold MAXFILE, NDIRECT, NINDIRECT in Hk. rewrite app_lookup_end by lia. rewrite <- H4 by lia. unfold fblock, NDIRECT. rewrite Hi. destruct (Z.ltb_spec k 12).
    + by rewrite addr_set by (done || lia).
    + by rewrite (proj2 (Z.eqb_neq k (Z.of_nat (length A)))) by lia.
  - rewrite Hfp. by apply NoDup_cons.
  - rewrite Hfp. by constructor.
Qed.

Lemma get32_zeros k : get32 zeros k = 0.
Proof.
  unfold get32, slice. assert (Hz : Forall (eq 0) (take 4 (drop k zeros))) by (apply Forall_take, Forall_drop, Forall_replicate; done).
  induction Hz as [|? l <- Hl IH]; [done|]. cbn [le_value]. by rewrite IH.
Qed.

Lemma imap_indirect d i A x : imap d i A -> x ∉ footprint i A -> data_block d x -> 0 < x -> addr_at i NDIRECT = 0 -> ld_blk d x = zeros ->
  imap d (set_addr NDIRECT x i) A /\ addr_at (set_addr NDIRECT x i) NDIRECT = x.
Proof.
  intros [H1 H2 H3 H4 H5 H6 H7] Hx Hd H0 Hi Hz. specialize (H5 Hi). unfold MAXFILE, NDIRECT, NINDIRECT in *.
  assert (Hi' : addr_at (set_addr 12 x i) 12 = x) by (by rewrite addr_set, Z.eqb_refl by (done || lia)). split; [|done].
  assert (Hfp : footprint (set_addr 12 x i) A ≡ₚ x :: footprint i A).
  { unfold footprint, indirect, NDIRECT. rewrite Hi', Hi, (proj2 (Z.eqb_neq x 0)) by lia. rewrite app_nil_r. symmetry. apply Permutation_cons_append. }
  split; [done|cbn; by rewrite length_insert|unfold MAXFILE, NDIRECT, NINDIRECT; lia| |unfold NDIRECT; rewrite Hi'; lia|..].
  - intros k Hk. unfold MAXFILE, NDIRECT, NINDIRECT in Hk. rewrite <- H4 by done. unfold fblock, NDIRECT. rewrite Hi', Hi, Hz, get32_zeros. destruct (Z.ltb_spec k 12).
    + rewrite addr_set by (done || lia). by rewrite (proj2 (Z.eqb_neq _ _)) by lia.
    + by destruct (x =? 0).
  - rewrite Hfp. by apply NoDup_cons.
  - rewrite Hfp. by constructor.
Qed.

Lemma logged_same s x d : ld_blk (logged s x d) s = x.
Proof. unfold logged. d_simpl. by rewrite fn_lookup_insert. Qed.
Lemma logged_other s x d t : t <> s -> ld_blk (logged s x d) t = ld_blk d t.
Proof. intros Hn. unfold logged. d_simpl. by rewrite fn_lookup_insert_ne. Qed.
Lemma data_block_logged s x d b : s <> bm -> data_block d b -> data_block (logged s x d) b.
Proof. intros Hs [Hr Hb]. split; [done|]. by rewrite logged_other. Qed.

Lemma get_entry x k j b : length x = 512%nat -> 0 <= k < NINDIRECT -> 0 <= j < NINDIRECT -> 0 <= b < 2 ^ 32 ->
  get32 (put32 x (4 * Z.to_nat k) b) (4 * Z.to_nat j) = if j =? k then b else get32 x (4 * Z.to_nat j).
Proof.
  intros Hl Hk Hj Hb. unfold NINDIRECT in *. destruct (Z.eqb_spec j k) as [->|]; [apply get32_put32; [lia|done]|apply get32_put32_other; lia].
Qed.

Lemma indirect_not_data d i A : imap d i A -> addr_at i NDIRECT <> 0 -> addr_at i NDIRECT ∉ A.
Proof.
  intros Hm Hx Hin. pose proof (im_nodup _ _ _ Hm) as Hn. unfold footprint in Hn. apply NoDup_app in Hn as (_ & Hd & _).
  apply (Hd _ Hin). by apply in_indirect.
Qed.

Lemma imap_entry d i A b (x := addr_at i NDIRECT) (k := Z.of_nat (length A) - NDIRECT) (y := put32 (ld_blk d x) (4 * Z.to_nat k) b) :
  vol d -> imap d i A -> x <> 0 -> b ∉ footprint i A -> data_block d b -> NDIRECT <= Z.of_nat (length A) < MAXFILE ->
  imap (logged x y d) i (A ++ [b]) /\ fbytes (logged x y d) A = fbytes d A.
Proof.
  intros Hv Hm Hx Hb Hd Hl. pose proof (imap_data _ _ _ _ Hm (imap_ind _ _ _ Hm Hx)) as Hdx. pose proof (indirect_not_data _ _ _ Hm Hx) as HxA.
  pose proof (vo_home _ Hv). pose proof (ge_one _ _ _ (vo_geom _ Hv)) as Hone. pose proof (vol_bm _ Hv). fold x in Hdx, HxA. unfold MAXFILE, NDIRECT, NINDIRECT, BPB in *. split.
  - destruct Hm as [H1 H2 H3 H4 H5 H6 H7]. unfold MAXFILE, NDIRECT, NINDIRECT in H4. assert (Hfp : footprint i (A ++ [b]) ≡ₚ b :: footprint i A) by (unfold footprint; rewrite <- app_assoc; symmetry; apply Permutation_middle).
    split; [done|done|rewrite length_app; unfold MAXFILE, NDIRECT, NINDIRECT; cbn; lia| |by intros ?|..].
    + intros j Hj. unfold MAXFILE, NDIRECT, NINDIRECT in Hj. rewrite app_lookup_end by lia. rewrite <- H4 by lia. unfold fblock. fold x. unfold NDIRECT. destruct (Z.ltb_spec j 12).
      * by rewrite (proj2 (Z.eqb_neq j (Z.of_nat (length A)))) by lia.
      * fold x. rewrite (proj2 (Z.eqb_neq x 0)) by done. rewrite logged_same. unfold y, k. rewrite get_entry.
        -- by destruct (Z.eqb_spec (j - 12) (Z.of_nat (length A) - 12)), (Z.eqb_spec j (Z.of_nat (length A))); try lia.
        -- apply (vo_blocks _ Hv). destruct Hdx; lia.
        -- unfold NINDIRECT. lia.
        -- unfold NINDIRECT. lia.
        -- destruct Hd. lia.
    + rewrite Hfp. by apply NoDup_cons.
    + rewrite Hfp. constructor; [apply data_block_logged; [destruct Hdx; lia|done]|]. eapply Forall_impl; [exact H7|]. intros c Hc. apply data_block_logged; [destruct Hdx; lia|done].
  - unfold fbytes. f_equal. apply list_fmap_ext. intros j c Hc. apply logged_other. intros ->. apply HxA. by eapply list_elem_of_lookup_2.
Qed.

(** ** The budget of a write

    [P] are sectors pinned by other work, [m] the blocks still to be written. *)

Definition ws (P : gset Z) (ib : Z) (i : inode) : gset Z := P ∪ {[bm; ib]} ∪ list_to_set (indirect i).
Record room (d : ldisk) (P : gset Z) (ib : Z) (i : inode) (m : nat) : Prop := {
  ro_nodup : NoDup (ld_log d);
  ro_pinned : ld_pinned d ⊆ ws P ib i;
  ro_room : (size P + m + 3 < NBUF)%nat;
  ro_nlog : Z.of_nat (size P + m + 3) < ld_nlog d - 1;
  ro_busy : ld_busy d = true;
}.

Lemma size_union_le (X Y : gset Z) : (size (X ∪ Y) <= size X + size Y)%nat.
Proof. rewrite size_union_alt. assert (size (Y ∖ X) <= size Y)%nat by (apply subseteq_size; set_solver). lia. Qed.
Lemma ws_size P ib i : (size (ws P ib i) <= size P + 2 + length (indirect i))%nat.
Proof.
  unfold ws. pose proof (size_union_le (P ∪ {[bm; ib]}) (list_to_set (indirect i))) as H1. pose proof (size_union_le P {[bm; ib]}) as H2.
  pose proof (size_union_le {[bm]} {[ib]}) as H3. rewrite !size_singleton in H3.
  assert (size (list_to_set (indirect i) : gset Z) <= length (indirect i))%nat.
  { unfold indirect. destruct (_ =? 0); [done|]. cbn. rewrite union_empty_r_L, size_singleton. done. }
  lia.
Qed.
Lemma ws_pin X P ib i i' b : X ⊆ ws P ib i -> indirect i ⊆ indirect i' -> X ∪ {[bm]} ∪ {[b]} ⊆ ws (P ∪ {[b]}) ib i'.
Proof. unfold ws. intros HX Hi s. specialize (HX s). specialize (Hi s). rewrite !elem_of_union, elem_of_list_to_set in *. tauto. Qed.
Lemma ws_ind X P ib i x : X ⊆ ws P ib i -> x ∈ indirect i -> X ∪ {[x]} ⊆ ws P ib i.
Proof. intros HX Hi s [Hs| ->%elem_of_singleton]%elem_of_union; [by apply HX|]. unfold ws. rewrite !elem_of_union, elem_of_list_to_set. tauto. Qed.
Lemma ws_bm P ib i V : bm ∈ ws P ib i ∪ V.
Proof. unfold ws. rewrite !elem_of_union, !elem_of_singleton. tauto. Qed.
Lemma ws_new P ib i b : b ∈ ws P ib i ∪ {[b]}.
Proof. rewrite elem_of_union, elem_of_singleton. tauto. Qed.
Lemma indirect_length i : (length (indirect i) <= 1)%nat.
Proof. unfold indirect. destruct (_ =? 0); cbn; lia. Qed.
Lemma room_wbud d P ib i m (V : gset Z) : room d P ib i m -> (size V + length (indirect i) <= m + 1)%nat -> wbud d (ws P ib i ∪ V).
Proof.
  intros [H1 H2 H3 H4 H5] HV. pose proof (size_union_le (ws P ib i) V). pose proof (ws_size P ib i). split; [split|..]; try done; [set_solver|lia..].
Qed.

(** The free blocks there are for data: one is set aside for the indirect
    block until there is one. *)
Definition spare (d : ldisk) (i : inode) : Z := Z.of_nat (length (free d)) - (if addr_at i NDIRECT =? 0 then 1 else 0).

(** The file [A] of [ip] has become [A']. *)
Record grown (f f' : fsys) (ip : nat) (i i' : inode) (A A' : list Z) : Prop := {
  gr_lock : ic_lock f' = ic_lock f;
  gr_cache : icache f' = <[ip := i']> (icache f);
  gr_meta : i' = set_addrs (i_addrs i') i;
  gr_vol : vol (dsk f');
  gr_map : imap (dsk f') i' A';
  gr_bytes : fbytes (dsk f') A = fbytes (dsk f) A;
  gr_wrote : wrote (footprint i A) (dsk f) (dsk f');
  gr_new : forall s, s ∈ footprint i' A' -> s ∈ footprint i A \/ s ∈ free (dsk f);
}.

Lemma grown_trans f f1 f2 ip i i1 i2 A A2 : grown f f1 ip i i1 A A -> grown f1 f2 ip i1 i2 A A2 -> grown f f2 ip i i2 A A2.
Proof.
  intros [H1 H2 H3 H4 H5 H6 H7 H8] [G1 G2 G3 G4 G5 G6 G7 G8]. split; [by rewrite G1| |rewrite G3, H3; by destruct i|done|done|by rewrite G6|by eapply wrote_trans|].
  - rewrite G2, H2. apply list_insert_insert_eq.
  - intros s [Hs|Hs]%G8; [auto|]. right. by eapply wrote_free.
Qed.

Section Bmap.
Context (f : fsys) (ip : nat) (i : inode) (A : list Z) (P : gset Z) (ib : Z).
Hypothesis (Hv : vol (dsk f)) (Hm : imap (dsk f) i A) (Hip : icache f !! ip = Some i) (Hidle : ld_buf (dsk f) = ∅).

Lemma inode_at_run : inode_at ip f = Ok i f.
Proof. unfold inode_at. mrun1. by rewrite Hip. Qed.

Lemma addr_mapped k : addr_at i k <> 0 -> addr_or_alloc ip k f = Ok (addr_at i k) f.
Proof. intros Hk. unfold addr_or_alloc. mstep inode_at_run. by rewrite (proj2 (Z.eqb_neq _ _)). Qed.

Lemma addr_alloc k b fr W : addr_at i k = 0 -> free (dsk f) = b :: fr -> wbud (dsk f) W -> bm ∈ W -> b ∈ W ->
  addr_or_alloc ip k f = Ok b (set_icache (<[ip := set_addr k b i]> (icache f)) (set_dsk (alloced b (dsk f)) f)).
Proof.
  intros Hk Hf HW Hbm Hb. unfold addr_or_alloc. mstep inode_at_run. rewrite Hk, (im_dev _ _ _ Hm). cbn [Z.eqb].
  erewrite bind_ok by (eapply balloc_free; [done..| | |]; rewrite Hidle; set_solver).
  unfold upd_inode, inode_at. rewrite !bind_assoc_run. mrun1. cbn. by rewrite Hip.
Qed.

Lemma bmap_mapped W k b : rbud (dsk f) W -> A !! Z.to_nat k = Some b -> 0 <= k -> bmap ip k f = Ok b f.
Proof.
  intros HW Hk H0. pose proof (im_len _ _ _ Hm) as Hl. pose proof (lookup_lt_Some _ _ _ Hk). destruct (imap_in _ _ _ _ _ Hk Hm) as [[Hr _] _]. pose proof (vol_bm _ Hv) as H0bm.
  pose proof (im_map _ _ _ Hm k ltac:(lia)) as E. rewrite Hk in E. cbn in E. unfold fblock in E. unfold bmap. destruct (Z.ltb_spec k NDIRECT).
  { rewrite addr_mapped by lia. by rewrite E. }
  destruct (Z.eqb_spec (addr_at i NDIRECT) 0) as [E0|E0]; [lia|]. unfold MAXFILE in Hl. rewrite (proj2 (Z.ltb_lt _ _)) by lia.
  erewrite bind_ok by (by apply addr_mapped). mstep inode_at_run. rewrite (im_dev _ _ _ Hm).
  destruct (imap_data _ _ _ _ Hm (imap_ind _ _ _ Hm E0)) as [Hx _].
  assert (Hn : addr_at i NDIRECT ∉ dom (ld_buf (dsk f))) by (rewrite Hidle; set_solver).
  mstep (fs_bread f _ W HW Hn ltac:(lia)). erewrite bind_ok by (apply bdata_run; cbn; apply lookup_insert_eq). rewrite E.
  rewrite (proj2 (Z.eqb_neq b 0)) by lia. erewrite bind_ok by (apply fs_brelse; cbn; apply lookup_insert_eq).
  cbn [dsk set_dsk ld_buf set_buf]. unfold mret, M_ret. f_equal. exact (buf_cycle f _ (ld_blk (dsk f) (addr_at i NDIRECT)) Hn).
Qed.

Lemma room_step d d' P' i' m m' :
  room d P ib i m -> NoDup (ld_log d') -> ld_pinned d' ⊆ ws P' ib i' -> (size P' + m' <= size P + m)%nat -> ld_nlog d' = ld_nlog d -> ld_busy d' = ld_busy d ->
  room d' P' ib i' m'.
Proof. intros [H1 H2 H3 H4 H5] Hn Hp Hs Hl Hb. split; [done|done|lia|rewrite Hl; lia|by rewrite Hb]. Qed.
Lemma alloced_pinned b d : ld_pinned (alloced b d) = ld_pinned d ∪ {[bm]} ∪ {[b]}.
Proof. unfold alloced. by rewrite !logged_pinned. Qed.
Lemma alloced_nodup b d : NoDup (ld_log d) -> NoDup (ld_log (alloced b d)).
Proof. intros ?. by do 2 apply logged_nodup. Qed.
Lemma spare_free d j : 1 <= spare d j -> exists b fr, free d = b :: fr.
Proof. unfold spare. destruct (free d) as [|b fr]; [|by eauto]. cbn. destruct (_ =? 0); lia. Qed.

Lemma grown_cache f' (i' : inode) A' : grown f f' ip i i' A A' -> icache f' !! ip = Some i'.
Proof. intros Hg. rewrite (gr_cache _ _ _ _ _ _ _ Hg), list_lookup_insert_eq; [done|]. by eapply lookup_lt_Some. Qed.

(** What bmap does for the block after the last. *)
Record appended (m : nat) (f' : fsys) (i' : inode) (b : Z) : Prop := {
  ap_grown : grown f f' ip i i' A (A ++ [b]);
  ap_zero : ld_blk (dsk f') b = zeros;
  ap_room : room (dsk f') (P ∪ {[b]}) ib i' m;
  ap_spare : spare (dsk f') i' = spare (dsk f) i - 1;
}.

Lemma size_add (b : Z) : (size (P ∪ {[b]}) <= size P + 1)%nat.
Proof. pose proof (size_union_le P {[b]}) as H. by rewrite size_singleton in H. Qed.

Lemma set_addr_meta k a j : set_addr k a j = set_addrs (i_addrs (set_addr k a j)) j.
Proof. by destruct j. Qed.

Lemma bmap_direct m : Z.of_nat (length A) < NDIRECT -> 1 <= spare (dsk f) i -> room (dsk f) P ib i (S m) ->
  exists b f' i', bmap ip (Z.of_nat (length A)) f = Ok b f' /\ appended m f' i' b.
Proof.
  intros Hl Hsp Hr. destruct (spare_free _ _ Hsp) as (b & fr & Hf). destruct (free_first _ _ _ Hv Hf) as (Hb & _ & _). pose proof (vol_bm _ Hv).
  destruct (fresh_block _ _ _ _ _ Hv Hm Hf) as [Hbf Hbd]. destruct (imap_alloced _ _ _ _ _ Hv Hm Hf) as [Hm1 Hfb].
  assert (E0 : addr_at i (Z.of_nat (length A)) = 0).
  { pose proof (im_map _ _ _ Hm (Z.of_nat (length A)) ltac:(unfold MAXFILE, NINDIRECT; lia)) as E. unfold fblock in E. rewrite (proj2 (Z.ltb_lt _ _)) in E by done.
    by rewrite E, Nat2Z.id, lookup_ge_None_2. }
  pose proof (room_wbud _ _ _ _ _ {[b]} Hr) as HW. rewrite size_singleton in HW. specialize (HW ltac:(pose proof (indirect_length i); lia)).
  unfold bmap. rewrite (proj2 (Z.ltb_lt _ NDIRECT)) by done. rewrite (addr_alloc _ _ _ _ E0 Hf HW) by (apply ws_bm || apply ws_new). do 3 eexists. split; [done|].
  assert (Hi : indirect (set_addr (Z.of_nat (length A)) b i) = indirect i).
  { unfold indirect. rewrite addr_set by (apply Hm || (unfold NDIRECT in *; lia)). by rewrite (proj2 (Z.eqb_neq NDIRECT _)) by lia. }
  split.
  - split; [done|done|apply set_addr_meta|by apply vol_alloced|by apply imap_direct|done|by eapply wrote_alloced|].
    unfold footprint. rewrite Hi, Hf. intros s. rewrite !elem_of_app, list_elem_of_singleton, elem_of_cons. tauto.
  - cbn [dsk set_icache set_dsk]. rewrite alloced_blk by lia. by rewrite Z.eqb_refl.
  - eapply room_step; [exact Hr|apply alloced_nodup, Hr| |pose proof (size_add b); lia|done|done]. cbn [dsk set_icache set_dsk]. rewrite alloced_pinned. eapply ws_pin; [apply Hr|by rewrite Hi].
  - unfold spare. cbn [dsk set_icache set_dsk]. rewrite (free_alloced _ _ _ Hv Hf), Hf. cbn [length].
    rewrite addr_set by (apply Hm || (unfold NDIRECT in *; lia)). rewrite (proj2 (Z.eqb_neq NDIRECT _)) by lia. lia.
Qed.

(** The indirect block, made when there is none. *)
Lemma indirect_run m : 1 <= spare (dsk f) i -> room (dsk f) P ib i (S m) ->
  exists f' i', addr_or_alloc ip NDIRECT f = Ok (addr_at i' NDIRECT) f' /\ addr_at i' NDIRECT <> 0 /\
    grown f f' ip i i' A A /\ room (dsk f') P ib i' (S m) /\ spare (dsk f') i' = spare (dsk f) i.
Proof.
  intros Hsp Hr. destruct (decide (addr_at i NDIRECT = 0)) as [E0|E0].
  2:{ exists f, i. rewrite addr_mapped by done. split_and!; try done. split; [done|by rewrite list_insert_id|by destruct i|done|done|done|apply wrote_refl|auto]. }
  destruct (spare_free _ _ Hsp) as (b & fr & Hf). destruct (free_first _ _ _ Hv Hf) as (Hb & _ & _). pose proof (vol_bm _ Hv).
  destruct (fresh_block _ _ _ _ _ Hv Hm Hf) as [Hbf Hbd]. destruct (imap_alloced _ _ _ _ _ Hv Hm Hf) as [Hm1 Hfb].
  assert (Hi : indirect i = []) by (unfold indirect; by rewrite E0).
  pose proof (room_wbud _ _ _ _ _ {[b]} Hr) as HW. rewrite size_singleton, Hi in HW. specialize (HW ltac:(cbn; lia)).
  assert (Hz : ld_blk (alloced b (dsk f)) b = zeros) by (rewrite alloced_blk, Z.eqb_refl by lia; done).
  destruct (imap_indirect _ _ _ b Hm1 Hbf Hbd ltac:(lia) E0 Hz) as [Hm2 Ha].
  rewrite (addr_alloc _ _ _ _ E0 Hf HW) by (apply ws_bm || apply ws_new). eexists _, (set_addr NDIRECT b i). rewrite Ha. split; [reflexivity|]. split_and!; [lia|..].
  - split; [done|done|apply set_addr_meta|by apply vol_alloced|done|done|by eapply wrote_alloced|].
    unfold footprint. rewrite Hf. intros s. rewrite !elem_of_app, in_indirect, Ha, elem_of_cons. tauto.
  - eapply room_step; [exact Hr|apply alloced_nodup, Hr| |lia|done|done]. cbn [dsk set_icache set_dsk]. rewrite alloced_pinned. pose proof (ro_pinned _ _ _ _ _ Hr) as Hp. unfold ws in *. rewrite Hi in Hp.
    assert (b ∈ indirect (set_addr NDIRECT b i)) by (apply in_indirect; rewrite Ha; split; [done|lia]). set_solver.
  - unfold spare. cbn [dsk set_icache set_dsk]. rewrite (free_alloced _ _ _ Hv Hf), Hf, Ha, E0. cbn [length Z.eqb]. rewrite (proj2 (Z.eqb_neq b 0)) by lia. lia.
Qed.

(** The entry of the indirect block. *)
Definition bmap_entry (addr bn : Z) : M fsys Z :=
  j ← inode_at ip;
  bp ← disk (bread (i_dev j) addr);
  a ← disk (bdata bp);
  if get32 a (4 * Z.to_nat bn) =? 0 then
    addr ← balloc (i_dev j);
    disk (set_bdata bp (put32 a (4 * Z.to_nat bn) addr));; disk (log_write bp);; disk (brelse bp);; mret addr
  else disk (brelse bp);; mret (get32 a (4 * Z.to_nat bn)).

Lemma vol_buf d B : vol d -> vol (set_buf B d).
Proof. by intros [[] ? ? ?]. Qed.

Lemma entry_run m (x := addr_at i NDIRECT) : NDIRECT <= Z.of_nat (length A) < MAXFILE -> x <> 0 -> 1 <= spare (dsk f) i -> room (dsk f) P ib i (S m) ->
  exists b f' i', bmap_entry x (Z.of_nat (length A) - NDIRECT) f = Ok b f' /\ appended m f' i' b.
Proof.
  intros Hl Hx Hsp Hr. destruct (spare_free _ _ Hsp) as (b & fr & Hf). destruct (free_first _ _ _ Hv Hf) as (Hb & _ & _). pose proof (vol_bm _ Hv).
  destruct (fresh_block _ _ _ _ _ Hv Hm Hf) as [Hbf Hbd]. destruct (imap_alloced _ _ _ _ _ Hv Hm Hf) as [Hm1 Hfb].
  pose proof (imap_ind _ _ _ Hm Hx) as Hxin. fold x in Hxin. destruct (imap_data _ _ _ _ Hm Hxin) as [Hxr Hxb].
  assert (Hne1 : x <> 1 /\ 1 < bm) by (pose proof (ge_range _ _ _ (vo_geom _ Hv)); lia). assert (Hxne : x <> b) by (intros ->; done). assert (Hxd : ld_blk (alloced b (dsk f)) x = ld_blk (dsk f) x).
  { rewrite alloced_blk by lia. by rewrite (proj2 (Z.eqb_neq x b)), (proj2 (Z.eqb_neq x bm)) by lia. }
  pose proof (room_wbud _ _ _ _ _ {[b]} Hr) as HW. rewrite size_singleton in HW. specialize (HW ltac:(pose proof (indirect_length i); lia)). set (W := ws P ib i ∪ {[b]}) in HW.
  assert (HxW : x ∈ W) by (unfold W, ws; rewrite !elem_of_union, elem_of_list_to_set, in_indirect; tauto).
  pose proof (ws_bm P ib i {[b]}) as HbmW. pose proof (ws_new P ib i b) as HbW. fold W in HbmW, HbW.
  assert (Hn : x ∉ dom (ld_buf (dsk f))) by (rewrite Hidle; set_solver).
  unfold bmap_entry. mstep inode_at_run. rewrite (im_dev _ _ _ Hm). mstep (fs_bread f x W (wb_rbud _ _ HW) Hn ltac:(lia)). set (f1 := set_dsk _ f).
  assert (Hd1 : ld_buf (dsk f1) !! x = Some (ld_blk (dsk f) x)) by apply lookup_insert_eq. mstep (bdata_run f1 x _ Hd1).
  assert (E0 : get32 (ld_blk (dsk f) x) (4 * Z.to_nat (Z.of_nat (length A) - NDIRECT)) = 0).
  { pose proof (im_map _ _ _ Hm (Z.of_nat (length A)) ltac:(lia)) as E. unfold fblock in E. rewrite (proj2 (Z.ltb_ge _ _)) in E by lia. fold x in E.
    rewrite (proj2 (Z.eqb_neq x 0)) in E by done. by rewrite E, Nat2Z.id, lookup_ge_None_2. }
  rewrite E0. cbn [Z.eqb]. pose proof (wbud_hold _ _ x (ld_blk (dsk f) x) HW HxW) as HW1.
  erewrite bind_ok by (eapply (balloc_free f1 W b fr); [by apply vol_buf|done|exact HW1|done|done|..]; cbn; rewrite dom_insert_L, Hidle, dom_empty_L, union_empty_r_L, elem_of_singleton; lia).
  set (y := put32 _ _ b). erewrite change_run; [|apply (wbud_logged b _ _ W); [apply (wbud_logged bm _ _ W); [exact HW1|done]|done]|exact Hd1].
  set (f3 := set_dsk _ (set_dsk _ f1)). assert (Ef : f3 = set_dsk (logged x y (alloced b (dsk f))) f).
  { unfold f3, f1, set_dsk. cbn. f_equal. unfold alloced, logged, set_buf. cbn. by rewrite delete_insert_id by (by apply not_elem_of_dom). }
  exists b, f3, i. split; [done|]. rewrite Ef.
  destruct (imap_entry (alloced b (dsk f)) i A b) as [Hm2 Hfb2]; [by apply vol_alloced|done..|]. fold x in Hm2, Hfb2. rewrite Hxd in Hm2, Hfb2. fold y in Hm2, Hfb2.
  assert (Hly : length y = 512%nat).
  { unfold y. rewrite put32_length; [|unfold MAXFILE, NDIRECT, NINDIRECT in *]; rewrite (vo_blocks _ Hv) by lia; [done|lia]. }
  split.
  - split; [done|cbn; by rewrite list_insert_id|by destruct i|apply vol_logged; [by apply vol_alloced|lia|lia|done]|done|cbn [dsk set_dsk]; by rewrite Hfb2| |].
    + eapply wrote_trans; [by eapply wrote_alloced|by apply (wrote_logged [x]); [left|lia]|]. intros s ->%list_elem_of_singleton. auto.
    + unfold footprint. rewrite Hf. intros s. rewrite !elem_of_app, list_elem_of_singleton, elem_of_cons. tauto.
  - cbn [dsk set_dsk]. rewrite logged_other by done. rewrite alloced_blk by lia. by rewrite Z.eqb_refl.
  - eapply room_step; [exact Hr|apply logged_nodup, alloced_nodup, Hr| |pose proof (size_add b); lia|done|done]. cbn [dsk set_dsk]. rewrite logged_pinned, alloced_pinned.
    apply ws_ind; [|by apply in_indirect]. eapply ws_pin; [apply Hr|done].
  - unfold spare. cbn [dsk set_dsk]. replace (free (logged x y (alloced b (dsk f)))) with (free (alloced b (dsk f))).
    + rewrite (free_alloced _ _ _ Hv Hf), Hf. cbn [length]. destruct (_ =? 0); lia.
    + unfold free. by rewrite logged_other by lia.
Qed.
End Bmap.

Lemma bmap_append f ip i A P ib m :
  vol (dsk f) -> imap (dsk f) i A -> icache f !! ip = Some i -> ld_buf (dsk f) = ∅ ->
  Z.of_nat (length A) < MAXFILE -> 1 <= spare (dsk f) i -> room (dsk f) P ib i (S m) ->
  exists b f' i', bmap ip (Z.of_nat (length A)) f = Ok b f' /\ appended f ip i A P ib m f' i' b.
Proof.
  intros Hv Hm Hip Hidle Hl Hsp Hr. destruct (decide (Z.of_nat (length A) < NDIRECT)) as [Hlt|Hge]; [by apply bmap_direct|].
  destruct (indirect_run f ip i A P ib Hv Hm Hip Hidle m Hsp Hr) as (f1 & i1 & E1 & Hx & Hg & Hr1 & Hs1).
  assert (Hip1 : icache f1 !! ip = Some i1) by (by eapply grown_cache). assert (Hid1 : ld_buf (dsk f1) = ∅) by (by rewrite (wr_buf _ _ _ (gr_wrote _ _ _ _ _ _ _ Hg))).
  destruct (entry_run f1 ip i1 A P ib (gr_vol _ _ _ _ _ _ _ Hg) (gr_map _ _ _ _ _ _ _ Hg) Hip1 Hid1 m) as (b & f2 & i2 & E2 & [Ha Hz Hr2 Hs2]); [lia|done|lia|done|].
  exists b, f2, i2. split.
  - unfold bmap. rewrite (proj2 (Z.ltb_ge _ NDIRECT)), (proj2 (Z.ltb_lt _ NINDIRECT)) by (unfold MAXFILE in *; lia). by mstep E1.
  - split; [by eapply grown_trans|done|done|lia].
Qed.

(** ** Contents *)

Lemma fbytes_blocks d i A : vol d -> imap d i A -> Forall (fun x => length x = 512%nat) (ld_blk d <$> A).
Proof.
  intros Hv Hm. apply Forall_fmap, Forall_forall. intros b Hb. apply (vo_blocks _ Hv). pose proof (vol_bm _ Hv).
  assert (Hin : b ∈ footprint i A) by (apply elem_of_app; auto). destruct (imap_data _ _ _ _ Hm Hin). lia.
Qed.
Lemma fbytes_length d i A : vol d -> imap d i A -> length (fbytes d A) = (512 * length A)%nat.
Proof. intros Hv Hm. unfold fbytes. rewrite (concat_blocks_length (B := 512)) by (by eapply fbytes_blocks). by rewrite length_fmap. Qed.

(** The part of the request in the block of [off]. *)
Lemma block_part off tot n : 0 <= off -> tot < n ->
  let m := Z.min (n - tot) (BSIZE - off mod BSIZE) in 0 < m /\ m <= n - tot /\ off mod BSIZE + m <= BSIZE /\ 0 <= off mod BSIZE < BSIZE /\ off = BSIZE * (off / BSIZE) + off mod BSIZE.
Proof. intros H0 Ht. unfold BSIZE. pose proof (Z.mod_pos_bound off 512 ltac:(lia)). pose proof (Z.div_mod off 512 ltac:(lia)). lia. Qed.
Lemma byte_index off : 0 <= off -> Z.to_nat off = (512 * Z.to_nat (off / BSIZE) + Z.to_nat (off mod BSIZE))%nat.
Proof. intros H0. unfold BSIZE. pose proof (Z.mod_pos_bound off 512 ltac:(lia)). pose proof (Z.div_mod off 512 ltac:(lia)). pose proof (Z.div_pos off 512 ltac:(lia)). lia. Qed.

Section Readi.
Context (f : fsys) (ip : nat) (i : inode) (A : list Z) (W : gset Z).
Hypothesis (Hv : vol (dsk f)) (Hm : imap (dsk f) i A) (Hip : icache f !! ip = Some i) (Hidle : ld_buf (dsk f) = ∅) (HW : rbud (dsk f) W).

Lemma readi_loop_run fuel tot off n dst :
  (Z.to_nat (n - tot) < fuel)%nat -> 0 <= off -> tot <= n -> off + (n - tot) <= 512 * Z.of_nat (length A) ->
  readi_loop fuel ip tot off n dst f = Ok (n, dst ++ slice (fbytes (dsk f) A) (Z.to_nat off) (Z.to_nat (n - tot))) f.
Proof.
  revert tot off dst. induction fuel as [|fuel IH]; intros tot off dst Hf H0 Ht Hend; [lia|]. cbn [readi_loop]. destruct (Z.ltb_spec tot n) as [Hlt|].
  2:{ replace (n - tot) with 0 by lia. by rewrite app_nil_r. }
  destruct (block_part off tot n H0 Hlt) as (Hm0 & Hm1 & Hm2 & Hm3 & Hm4). set (m := Z.min _ _) in *. set (o := off mod BSIZE) in *. set (k := off / BSIZE) in *.
  assert (Hk0 : 0 <= k) by (apply Z.div_pos; unfold BSIZE; lia). pose proof (im_len _ _ _ Hm) as Hlen. unfold BSIZE in Hm2, Hm3, Hm4. fold o in Hm3, Hm4.
  destruct (lookup_lt_is_Some_2 A (Z.to_nat k)) as [b Hb]; [lia|]. destruct (imap_in _ _ _ _ _ Hb Hm) as [[Hbr _] _]. pose proof (vol_bm _ Hv).
  mstep (inode_at_run f ip i Hip). erewrite bind_ok by (by eapply bmap_mapped). rewrite (im_dev _ _ _ Hm).
  assert (Hn : b ∉ dom (ld_buf (dsk f))) by (rewrite Hidle; set_solver).
  etrans; [exact (read_run f b W (fun x => readi_loop fuel ip (tot + m) (off ⊕ m) n (dst ++ slice x (Z.to_nat o) (Z.to_nat m))) HW Hn ltac:(lia))|].
  unfold MAXFILE, NDIRECT, NINDIRECT in Hlen. rewrite u32_id by lia. rewrite IH by lia. do 2 f_equal. rewrite <- app_assoc. f_equal.
  replace (Z.to_nat (n - tot)) with (Z.to_nat m + Z.to_nat (n - (tot + m)))%nat by lia. rewrite slice_app.
  replace (Z.to_nat (off + m)) with (Z.to_nat off + Z.to_nat m)%nat by lia. f_equal. rewrite (byte_index off H0). fold k o. unfold fbytes. symmetry.
  apply slice_concat; [by eapply fbytes_blocks|by rewrite list_lookup_fmap, Hb|lia].
Qed.

Lemma readi_run devsw off n :
  i_type i <> T_DEV -> 0 <= i_size i <= 512 * Z.of_nat (length A) -> 0 <= off < 2 ^ 32 -> 0 <= n < 2 ^ 32 ->
  readi devsw ip off n f =
    Ok (if (i_size i <? off) || (2 ^ 32 <=? off + n) then (-1, [])
        else let r := Z.min n (i_size i - off) in (r, slice (contents (dsk f) i A) (Z.to_nat off) (Z.to_nat r))) f.
Proof.
  intros Hty Hsz Hoff Hn. unfold readi. mstep (inode_at_run f ip i Hip). rewrite (proj2 (Z.eqb_neq _ _)) by done.
  assert (Eov : (off ⊕ n <? off) = (2 ^ 32 <=? off + n)).
  { unfold u32. destruct (Z.leb_spec (2 ^ 32) (off + n)) as [Hge|Hlt].
    - apply Z.ltb_lt. replace ((off + n) mod 2 ^ 32) with (off + n - 2 ^ 32); [lia|]. rewrite <- (Z.mod_small (off + n - 2 ^ 32) (2 ^ 32)) by lia.
      rewrite <- Zminus_mod_idemp_r, Z.mod_same, Z.sub_0_r by lia. done.
    - apply Z.ltb_ge. rewrite Z.mod_small by lia. lia. }
  rewrite Eov. destruct (Z.ltb_spec (i_size i) off) as [|Hso]; [done|]. destruct (Z.leb_spec (2 ^ 32) (off + n)) as [|Hnov]; [done|]. cbn [orb].
  rewrite (u32_id (off + n)) by lia. pose proof (im_len _ _ _ Hm) as Hlen. unfold MAXFILE, NDIRECT, NINDIRECT in Hlen. rewrite u32_id by lia. set (r := Z.min n (i_size i - off)).
  replace (if i_size i <? off + n then i_size i - off else n) with r by (unfold r; destruct (Z.ltb_spec (i_size i) (off + n)); lia).
  rewrite readi_loop_run by lia. rewrite Z.sub_0_r. cbn [app]. do 2 f_equal. unfold contents, slice. rewrite skipn_firstn_comm, take_take. f_equal. lia.
Qed.
End Readi.
End Volume.
