(* ===== verification/Fswrite.v ===== *)
(** * Writing files

    writei and iupdate of fs.c: the bytes of the file after a write, the inode
    on the disk, and what stays as it was.  [filed] collects the effect of a
    piece of a write on the file of [ip], whose bytes become [X]. *)

From stdpp Require Import functions.
From S2P Require Import Prelude Str Interfaces Spinlock Bytes Log Disk Fs Fsblk Fsfile.

(** ** The inode on the disk *)

(** The 64 bytes of a dinode. *)
Definition dinode_bytes (i : inode) : list Z :=
  le_bytes 2 (u16 (i_type i)) ++ le_bytes 2 (u16 (i_major i)) ++ le_bytes 2 (u16 (i_minor i)) ++ le_bytes 2 (u16 (i_nlink i)) ++
  le_bytes 4 (i_size i) ++ concat (map (le_bytes 4) (i_addrs i)).
Definition short (x : Z) : Prop := - 2 ^ 15 <= x < 2 ^ 15.
Definition word (x : Z) : Prop := 0 <= x < 2 ^ 32.
(** The fields are in the range of their C types. *)
Record inode_ok (i : inode) : Prop := {
  io_type : short (i_type i);
  io_major : short (i_major i);
  io_minor : short (i_minor i);
  io_nlink : short (i_nlink i);
  io_size : word (i_size i);
  io_words : Forall word (i_addrs i);
  io_addrs : length (i_addrs i) = 13%nat;
}.

Lemma addrs_length l : length (concat (map (le_bytes 4) l)) = (4 * length l)%nat.
Proof. rewrite (concat_blocks_length (B := 4)), length_map; [done|]. apply Forall_forall. intros y (? & -> & _)%list_elem_of_fmap. apply le_bytes_length. Qed.
Lemma dinode_length i : length (i_addrs i) = 13%nat -> length (dinode_bytes i) = 64%nat.
Proof. intros H. unfold dinode_bytes. rewrite !length_app, addrs_length, H, !le_bytes_length. done. Qed.

Lemma dip_store_splice x o i : (o + 64 <= length x)%nat -> dip_store x o i = splice x o (dinode_bytes i).
Proof.
  intros Ho. unfold dip_store, put16, put32, dinode_bytes.
  assert (H : forall k a n b, (o + length a + n <= length x)%nat -> k = length a -> splice (splice x o a) (o + k) b = splice x o (a ++ b)).
  { intros k a n b Hl ->. apply splice_splice. lia. }
  rewrite (H 2%nat _ 2%nat); [|rewrite le_bytes_length; lia|by rewrite le_bytes_length].
  rewrite (H 4%nat _ 2%nat); [|rewrite length_app, !le_bytes_length; lia|by rewrite length_app, !le_bytes_length].
  rewrite (H 6%nat _ 2%nat); [|rewrite !length_app, !le_bytes_length; lia|by rewrite !length_app, !le_bytes_length].
  rewrite (H 8%nat _ 4%nat); [|rewrite !length_app, !le_bytes_length; lia|by rewrite !length_app, !le_bytes_length].
  rewrite (H 12%nat _ 52%nat); [|rewrite !length_app, !le_bytes_length; lia|by rewrite !length_app, !le_bytes_length].
  by rewrite <- !app_assoc.
Qed.

Lemma i16_u16 v : short v -> i16 (u16 v) = v.
Proof. unfold short. intros Hv. unfold i16, u16. rewrite Zplus_mod_idemp_l, Z.mod_small by lia. lia. Qed.
Lemma le_value_u16 v : le_value (le_bytes 2 (u16 v)) = u16 v.
Proof. apply le_value_bytes. unfold u16. apply Z.mod_pos_bound. lia. Qed.

(** What ilock loads is what iupdate stored. *)
Lemma dip_load_store x o i j : (o + 64 <= length x)%nat -> inode_ok i ->
  dip_load (dip_store x o i) o j = set_meta (i_type i) (i_major i) (i_minor i) (i_nlink i) (i_size i) (i_addrs i) j.
Proof.
  intros Ho [H1 H2 H3 H4 H5 H6 H7]. pose proof (dinode_length i H7) as Hd. rewrite dip_store_splice by done. set (y := dinode_bytes i) in *.
  assert (Hs : forall k n, (k + n <= 64)%nat -> slice (splice x o y) (o + k) n = slice y k n) by (intros; apply slice_splice_in; lia).
  set (t := le_bytes 2 (u16 (i_type i))). set (ma := le_bytes 2 (u16 (i_major i))). set (mi := le_bytes 2 (u16 (i_minor i))). set (nl := le_bytes 2 (u16 (i_nlink i))).
  set (sz := le_bytes 4 (i_size i)). set (ad := concat (map (le_bytes 4) (i_addrs i))).
  assert (E0 : get16 (splice x o y) o = u16 (i_type i)).
  { unfold get16. rewrite <- (Nat.add_0_r o) at 2. rewrite Hs by lia. transitivity (le_value t); [|apply le_value_u16]. apply (f_equal le_value). apply (slice_mid [] t). }
  assert (E2 : get16 (splice x o y) (o + 2) = u16 (i_major i)).
  { unfold get16. rewrite Hs by lia. transitivity (le_value ma); [|apply le_value_u16]. apply (f_equal le_value). apply (slice_mid t ma). }
  assert (E4 : get16 (splice x o y) (o + 4) = u16 (i_minor i)).
  { unfold get16. rewrite Hs by lia. transitivity (le_value mi); [|apply le_value_u16]. apply (f_equal le_value). unfold y, dinode_bytes. rewrite app_assoc. apply (slice_mid (t ++ ma) mi). }
  assert (E6 : get16 (splice x o y) (o + 6) = u16 (i_nlink i)).
  { unfold get16. rewrite Hs by lia. transitivity (le_value nl); [|apply le_value_u16]. apply (f_equal le_value). unfold y, dinode_bytes. rewrite !app_assoc, <- 2 app_assoc. apply (slice_mid ((t ++ ma) ++ mi) nl). }
  assert (E8 : get32 (splice x o y) (o + 8) = i_size i).
  { unfold get32. rewrite Hs by lia. transitivity (le_value sz); [|by apply le_value_bytes]. apply (f_equal le_value). unfold y, dinode_bytes. rewrite !app_assoc, <- app_assoc. apply (slice_mid (((t ++ ma) ++ mi) ++ nl) sz). }
  unfold dip_load, dip_type. rewrite E0, E2, E4, E6, E8, !i16_u16 by done. f_equal. unfold dip_addrs. apply list_eq. intros k. rewrite list_lookup_fmap.
  destruct (decide (k < 13)%nat) as [Hk|Hk].
  2:{ rewrite lookup_seq_ge by lia. symmetry. apply lookup_ge_None_2. lia. }
  rewrite lookup_seq_lt by done. destruct (lookup_lt_is_Some_2 (i_addrs i) k) as [a Ha]; [lia|]. rewrite Ha. apply (f_equal Some). unfold get32. rewrite <- Nat.add_assoc, Hs by lia.
  assert (Ew : 0 <= a < 256 ^ Z.of_nat 4) by (by eapply Forall_lookup_1 in Ha; [|exact H6]). rewrite <- (le_value_bytes 4 a Ew). apply (f_equal le_value).
  assert (Ey : y = (t ++ ma ++ mi ++ nl ++ sz) ++ ad) by (unfold y, dinode_bytes; by rewrite <- !app_assoc).
  rewrite Ey, Nat.add_0_l. unfold slice. rewrite <- drop_drop. change 12%nat with (length (t ++ ma ++ mi ++ nl ++ sz)). rewrite drop_app_length. fold (slice ad (4 * k) 4). rewrite <- (Nat.add_0_r (4 * k)).
  unfold ad. rewrite (slice_concat (B := 4) _ _ (le_bytes 4 a)); [by unfold slice|..|done].
  - apply Forall_forall. intros z (? & -> & _)%list_elem_of_fmap. apply le_bytes_length.
  - by rewrite list_lookup_fmap, Ha.
Qed.

Section Write.
Context (fsz bm : Z).
Notation vol := (vol fsz bm).
Notation imap := (imap bm).
Notation wrote := (wrote bm).
Notation free := (free bm).
Notation room := (room bm).
Notation spare := (spare bm).
Notation ws := (ws bm).

Record filed (f f' : fsys) (ip : nat) (i i' : inode) (A A' : list Z) (X : list Z) : Prop := {
  fd_lock : ic_lock f' = ic_lock f;
  fd_cache : icache f' = <[ip := i']> (icache f);
  fd_meta : i' = set_addrs (i_addrs i') i;
  fd_vol : vol (dsk f');
  fd_map : imap (dsk f') i' A';
  fd_bytes : fbytes (dsk f') A' = X;
  fd_wrote : wrote (footprint i A) (dsk f) (dsk f');
  fd_new : forall s, s ∈ footprint i' A' -> s ∈ footprint i A \/ s ∈ free (dsk f);
}.

Lemma filed_refl f ip i A : icache f !! ip = Some i -> vol (dsk f) -> imap (dsk f) i A -> filed f f ip i i A A (fbytes (dsk f) A).
Proof. intros Hip Hv Hm. split; [done|by rewrite list_insert_id|by destruct i|done|done|done|apply wrote_refl|auto]. Qed.
Lemma filed_trans f f1 f2 ip i i1 i2 A A1 A2 X Y :
  filed f f1 ip i i1 A A1 X -> filed f1 f2 ip i1 i2 A1 A2 Y -> filed f f2 ip i i2 A A2 Y.
Proof.
  intros [H1 H2 H3 H4 H5 H6 H7 H8] [G1 G2 G3 G4 G5 G6 G7 G8]. split; [by rewrite G1| |rewrite G3, H3; by destruct i|done|done|done|by eapply wrote_trans|].
  - rewrite G2, H2. apply list_insert_insert_eq.
  - intros s [Hs|Hs]%G8; [auto|]. right. by eapply wrote_free.
Qed.
Lemma filed_cache f f' ip i i' A A' X : icache f !! ip = Some i -> filed f f' ip i i' A A' X -> icache f' !! ip = Some i'.
Proof. intros Hip Hf. rewrite (fd_cache _ _ _ _ _ _ _ _ Hf), list_lookup_insert_eq; [done|]. by eapply lookup_lt_Some. Qed.
Lemma filed_idle f f' ip i i' A A' X : ld_buf (dsk f) = ∅ -> filed f f' ip i i' A A' X -> ld_buf (dsk f') = ∅.
Proof. intros Hi Hf. by rewrite (wr_buf _ _ _ _ (fd_wrote _ _ _ _ _ _ _ _ Hf)). Qed.

(** The block of [off] for writing: it exists or is the next one. *)
Lemma bmap_run f ip i A P ib m k :
  vol (dsk f) -> imap (dsk f) i A -> icache f !! ip = Some i -> ld_buf (dsk f) = ∅ -> room (dsk f) P ib i (S m) ->
  0 <= k <= Z.of_nat (length A) -> k < MAXFILE -> (k = Z.of_nat (length A) -> 1 <= spare (dsk f) i) ->
  exists b f' i' A' zs, bmap ip k f = Ok b f' /\ filed f f' ip i i' A A' (fbytes (dsk f) A ++ zs) /\ A' !! Z.to_nat k = Some b /\
    room (dsk f') (P ∪ {[b]}) ib i' m /\ Z.of_nat (length A') = Z.max (Z.of_nat (length A)) (k + 1) /\
    spare (dsk f') i' = spare (dsk f) i - (Z.of_nat (length A') - Z.of_nat (length A)).
Proof.
  intros Hv Hm Hip Hid Hr Hk Hmax Hsp. destruct (decide (k = Z.of_nat (length A))) as [->|Hne].
  - destruct (bmap_append fsz bm f ip i A P ib m) as (b & f' & i' & E & [Hg Hz Hr' Hs]); try done; [auto|]. destruct Hg as [G1 G2 G3 G4 G5 G6 G7 G8].
    exists b, f', i', (A ++ [b]), zeros. rewrite length_app. cbn [length]. split_and!; [done| |by rewrite Nat2Z.id, list_lookup_middle|done|lia|lia].
    split; try done. unfold fbytes in *. rewrite fmap_app, concat_app, G6. cbn. by rewrite Hz, app_nil_r.
  - destruct (lookup_lt_is_Some_2 A (Z.to_nat k)) as [b Hb]; [lia|]. exists b, f, i, A, []. rewrite app_nil_r. split_and!; [| |done| |lia|lia].
    + assert (HW := room_wbud _ _ _ _ _ _ ∅ Hr). rewrite size_empty in HW. specialize (HW ltac:(pose proof (indirect_length i); lia)).
      eapply bmap_mapped; [done..|apply HW|done|lia].
    + by apply filed_refl.
    + eapply room_step; [exact Hr|apply Hr| |pose proof (size_add P b); lia|done|done]. etrans; [apply Hr|]. unfold Fsfile.ws. set_solver.
Qed.

(** A part of a block is written. *)
Lemma filed_write f ip i A k b o y :
  icache f !! ip = Some i -> vol (dsk f) -> imap (dsk f) i A -> A !! k = Some b -> (o + length y <= 512)%nat ->
  filed f (set_dsk (logged b (splice (ld_blk (dsk f) b) o y) (dsk f)) f) ip i i A A (splice (fbytes (dsk f) A) (512 * k + o) y).
Proof.
  intros Hip Hv Hm Hk Ho. destruct (imap_in _ _ _ _ _ _ Hk Hm) as [[Hbr Hbb] Hbf]. pose proof (ge_range _ _ _ (vo_geom _ _ _ Hv)). set (x' := splice _ _ _).
  assert (Hl : length x' = 512%nat) by (unfold x'; rewrite splice_length; rewrite (vo_blocks _ _ _ Hv); lia).
  assert (Hn : NoDup A) by (pose proof (im_nodup _ _ _ _ Hm) as Hn; by apply NoDup_app in Hn as (? & _ & _)).
  assert (Hind : addr_at i NDIRECT <> 0 -> addr_at i NDIRECT <> b).
  { intros Hx Hxb. pose proof (indirect_not_data _ _ _ _ Hm Hx) as Hni. apply Hni. rewrite Hxb. by eapply list_elem_of_lookup_2. }
  split; [done|cbn; by rewrite list_insert_id|by destruct i|apply vol_logged; try done; lia| | |apply wrote_logged; [done|lia]|auto].
  - destruct Hm as [H1 H2 H3 H4 H5 H6 H7]. split; try done.
    + intros j Hj. rewrite <- H4 by done. unfold fblock. destruct (j <? NDIRECT); [done|]. destruct (Z.eqb_spec (addr_at i NDIRECT) 0); [done|]. cbn [dsk set_dsk].
      rewrite logged_other by auto. done.
    + eapply Forall_impl; [exact H7|]. intros c Hc. apply data_block_logged; [lia|done].
  - cbn [dsk set_dsk]. unfold fbytes. rewrite <- (concat_splice (B := 512) _ _ (ld_blk (dsk f) b)); [|by eapply fbytes_blocks|by rewrite list_lookup_fmap, Hk|done].
    f_equal. fold x'. apply list_eq. intros j. rewrite list_lookup_fmap. destruct (decide (j = k)) as [->|Hne].
    + rewrite Hk. rewrite list_lookup_insert_eq by (rewrite length_fmap; by eapply lookup_lt_Some). exact (f_equal Some (logged_same b x' (dsk f))).
    + rewrite list_lookup_insert_ne, list_lookup_fmap by done. destruct (A !! j) as [c|] eqn:Ej; [|done]. apply (f_equal Some), logged_other. intros ->. by destruct (Hne (NoDup_lookup _ _ _ _ Hn Ej Hk)).
Qed.

Lemma nblk_step off r (m := Z.min r (BSIZE - off mod BSIZE)) :
  0 <= off -> 0 < r -> off / BSIZE + 1 <= nblk (off + r) /\ off + m <= 512 * (off / BSIZE + 1) /\ (m < r -> (off + m) / BSIZE = off / BSIZE + 1).
Proof. intros H0 Hr. unfold m, nblk, BSIZE. split_and!; intros; Z.to_euclidean_division_equations; lia. Qed.

Lemma write_bytes F zs1 zs2 off s1 s2 : (off + length s1 <= length (F ++ zs1))%nat ->
  splice (splice (F ++ zs1) off s1 ++ zs2) (off + length s1) s2 = splice (F ++ (zs1 ++ zs2)) off (s1 ++ s2).
Proof. intros H. rewrite splice_app_l, <- app_assoc by done. apply splice_splice. rewrite !length_app in *. lia. Qed.

(** One turn of the loop of writei. *)
Lemma writei_turn {B} f ip i A P ib m off r src (g : M fsys B) (n1 := Z.min r (BSIZE - off mod BSIZE)) :
  vol (dsk f) -> imap (dsk f) i A -> icache f !! ip = Some i -> ld_buf (dsk f) = ∅ -> room (dsk f) P ib i (S m) ->
  0 <= off <= 512 * Z.of_nat (length A) -> 0 < r -> off + r <= MAXFILE * BSIZE -> length src = Z.to_nat r ->
  nblk (off + r) - Z.of_nat (length A) <= spare (dsk f) i ->
  exists f' i' A' P' zs,
    (j ← inode_at ip; b ← bmap ip (off / BSIZE); bp ← disk (bread (i_dev j) b); x ← disk (bdata bp);
     disk (set_bdata bp (splice x (Z.to_nat (off mod BSIZE)) (take (Z.to_nat n1) src)));; disk (log_write bp);; disk (brelse bp);; g) f = g f' /\
    filed f f' ip i i' A A' (splice (fbytes (dsk f) A ++ zs) (Z.to_nat off) (take (Z.to_nat n1) src)) /\ room (dsk f') P' ib i' m /\
    Z.of_nat (length A') = Z.max (Z.of_nat (length A)) (off / BSIZE + 1) /\ length (fbytes (dsk f) A ++ zs) = (512 * length A')%nat /\
    spare (dsk f') i' = spare (dsk f) i - (Z.of_nat (length A') - Z.of_nat (length A)).
Proof.
  intros Hv Hm Hip Hid Hr Hoff Hr0 Hmax Hsrc Hsp. destruct (nblk_step off r ltac:(lia) Hr0) as (Hn1 & Hn2 & _). fold n1 in Hn2.
  destruct (block_part off 0 r ltac:(lia) Hr0) as (Hp0 & Hp1 & Hp2 & Hp3 & Hp4). rewrite Z.sub_0_r in *. fold n1 in Hp0, Hp1, Hp2.
  set (k := off / BSIZE) in *. set (o := off mod BSIZE) in *. unfold BSIZE in Hp2, Hp3, Hp4, Hmax.
  destruct (bmap_run f ip i A P ib m k) as (b & f1 & i1 & A1 & zs & E & Hf1 & Hb & Hr1 & Hl1 & Hs1); [done|done|done|done|done|lia|lia|lia|].
  mstep (inode_at_run f ip i Hip). mstep E. rewrite (im_dev _ _ _ _ Hm).
  pose proof (filed_cache _ _ _ _ _ _ _ _ Hip Hf1) as Hip1. pose proof (filed_idle _ _ _ _ _ _ _ _ Hid Hf1) as Hid1. pose proof (fd_vol _ _ _ _ _ _ _ _ Hf1) as Hv1. pose proof (fd_map _ _ _ _ _ _ _ _ Hf1) as Hm1.
  destruct (imap_in _ _ _ _ _ _ Hb Hm1) as [[Hbr Hbb] _]. pose proof (ge_range _ _ _ (vo_geom _ _ _ Hv1)).
  assert (HW := room_wbud _ _ _ _ _ _ ∅ Hr1). rewrite size_empty in HW. specialize (HW ltac:(pose proof (indirect_length i1); lia)).
  assert (HbW : b ∈ ws (P ∪ {[b]}) ib i1 ∪ ∅) by (unfold Fsfile.ws; rewrite !elem_of_union, !elem_of_singleton; tauto).
  assert (Hlen : (Z.to_nat o + length (take (Z.to_nat n1) src) <= 512)%nat) by (rewrite length_take; lia).
  pose proof (filed_write f1 ip i1 A1 _ b _ _ Hip1 Hv1 Hm1 Hb Hlen) as Hf2. rewrite (fd_bytes _ _ _ _ _ _ _ _ Hf1) in Hf2. unfold k, o in Hf2. rewrite <- byte_index in Hf2 by lia. fold o in Hf2.
  eexists _, i1, A1, _, zs. split; [apply (fs_update f1 b (fun x => splice x (Z.to_nat o) (take (Z.to_nat n1) src)) _ g HW HbW); [rewrite Hid1; set_solver|lia]|].
  split; [by eapply filed_trans|]. split_and!; [|done| |].
  - eapply room_step; [exact Hr1|apply logged_nodup, Hr1| |done|done|done]. cbn [dsk set_dsk]. rewrite logged_pinned. intros s [?| ->%elem_of_singleton]%elem_of_union; [by apply Hr1|].
    unfold Fsfile.ws. rewrite !elem_of_union, !elem_of_singleton. tauto.
  - rewrite <- (fd_bytes _ _ _ _ _ _ _ _ Hf1). by eapply fbytes_length.
  - rewrite <- Hs1. unfold Fsfile.spare, Fsfile.free. cbn [dsk set_dsk]. rewrite logged_other by lia. done.
Qed.

Lemma writei_loop_run ip ib n fuel : forall f i A P m tot off src,
  vol (dsk f) -> imap (dsk f) i A -> icache f !! ip = Some i -> ld_buf (dsk f) = ∅ -> room (dsk f) P ib i m ->
  (Z.to_nat (n - tot) < fuel)%nat -> tot <= n -> length src = Z.to_nat (n - tot) -> 0 <= off <= 512 * Z.of_nat (length A) ->
  off + (n - tot) <= MAXFILE * BSIZE -> (tot < n -> nblk (off + (n - tot)) - off / BSIZE <= Z.of_nat m) ->
  nblk (off + (n - tot)) - Z.of_nat (length A) <= spare (dsk f) i ->
  exists f' i' A' P' m' zs, writei_loop fuel ip tot off n src f = Ok (off + (n - tot)) f' /\
    filed f f' ip i i' A A' (splice (fbytes (dsk f) A ++ zs) (Z.to_nat off) src) /\ room (dsk f') P' ib i' m' /\
    Z.of_nat (length A') = Z.max (Z.of_nat (length A)) (nblk (off + (n - tot))) /\ length (fbytes (dsk f) A ++ zs) = (512 * length A')%nat /\
    spare (dsk f') i' = spare (dsk f) i - (Z.of_nat (length A') - Z.of_nat (length A)).
Proof.
  induction fuel as [|fuel IH]; intros f i A P m tot off src Hv Hm Hip Hid Hr Hfu Ht Hsrc Hoff Hmax Hroom Hsp; [lia|]. cbn [writei_loop]. destruct (Z.ltb_spec tot n) as [Hlt|].
  2:{ assert (src = []) as -> by (destruct src; [done|cbn in Hsrc; lia]). exists f, i, A, P, m, []. rewrite app_nil_r, splice_nil. replace (n - tot) with 0 by lia. rewrite Z.add_0_r.
      split_and!; [done|by apply filed_refl|done| |by eapply fbytes_length|lia]. unfold nblk, BSIZE. Z.to_euclidean_division_equations; lia. }
  specialize (Hroom Hlt). destruct (nblk_step off (n - tot) ltac:(lia) ltac:(lia)) as (Hn1 & Hn2 & Hn3). set (n1 := Z.min (n - tot) (BSIZE - off mod BSIZE)) in *.
  destruct (block_part off tot n ltac:(lia) Hlt) as (Hp0 & Hp1 & _). fold n1 in Hp0, Hp1. destruct m as [|m]; [lia|].
  destruct (writei_turn f ip i A P ib m off (n - tot) src (writei_loop fuel ip (tot + n1) (off ⊕ n1) n (drop (Z.to_nat n1) src)))
    as (f1 & i1 & A1 & P1 & zs1 & E1 & Hf1 & Hr1 & Hl1 & Hz1 & Hs1); [done|done|done|done|done|lia|lia|lia|lia|lia|]. fold n1 in E1, Hf1.
  unfold MAXFILE, NDIRECT, NINDIRECT, BSIZE in Hmax. assert (Eu : off ⊕ n1 = off + n1) by (apply u32_id; lia).
  assert (Hlen : length (take (Z.to_nat n1) src) = Z.to_nat n1) by (rewrite length_take; lia).
  destruct (IH f1 i1 A1 P1 m (tot + n1) (off + n1) (drop (Z.to_nat n1) src)) as (f2 & i2 & A2 & P2 & m2 & zs2 & E2 & Hf2 & Hr2 & Hl2 & Hz2 & Hs2).
  { apply Hf1. } { apply Hf1. } { by eapply filed_cache. } { by eapply filed_idle. } { done. } { lia. } { lia. } { rewrite length_drop. lia. } { lia. }
  { unfold MAXFILE, NDIRECT, NINDIRECT, BSIZE. lia. } { intros. rewrite Hn3 by lia. replace (off + n1 + (n - (tot + n1))) with (off + (n - tot)) by lia. lia. }
  { replace (off + n1 + (n - (tot + n1))) with (off + (n - tot)) by lia. lia. }
  rewrite (fd_bytes _ _ _ _ _ _ _ _ Hf1) in Hf2, Hz2. replace (off + n1 + (n - (tot + n1))) with (off + (n - tot)) in E2, Hl2 by lia.
  replace (Z.to_nat (off + n1)) with (Z.to_nat off + length (take (Z.to_nat n1) src))%nat in Hf2 by lia. rewrite write_bytes, take_drop in Hf2 by lia.
  exists f2, i2, A2, P2, m2, (zs1 ++ zs2). split_and!; [etrans; [exact E1|by rewrite Eu]|by eapply filed_trans|done|lia| |lia]. rewrite length_app, splice_length, length_app in Hz2 by lia. rewrite !length_app. lia.
Qed.

(** ** iupdate *)

Lemma dip_off_range inum : (dip_off inum + 64 <= 512)%nat.
Proof. unfold dip_off, IPB. pose proof (Z.mod_pos_bound inum 8 ltac:(lia)). lia. Qed.

Definition stored (d : ldisk) (i : inode) : block := dip_store (ld_blk d (IBLOCK (i_inum i))) (dip_off (i_inum i)) i.

Lemma stored_length d i : vol d -> 2 <= IBLOCK (i_inum i) < bm -> length (i_addrs i) = 13%nat -> length (stored d i) = 512%nat.
Proof.
  intros Hv Hib Ha. pose proof (ge_range _ _ _ (vo_geom _ _ _ Hv)). pose proof (dip_off_range (i_inum i)). pose proof (vo_blocks _ _ _ Hv (IBLOCK (i_inum i)) ltac:(lia)) as Hl.
  unfold stored. rewrite dip_store_splice by (rewrite Hl; done). rewrite splice_length; rewrite Hl; [done|]. by rewrite dinode_length.
Qed.

Lemma iupdate_run f ip i W :
  icache f !! ip = Some i -> i_dev i = ROOTDEV -> ld_buf (dsk f) = ∅ -> wbud (dsk f) W -> IBLOCK (i_inum i) ∈ W -> 0 <= IBLOCK (i_inum i) < ld_size (dsk f) ->
  iupdate ip f = Ok tt (set_dsk (logged (IBLOCK (i_inum i)) (stored (dsk f) i) (dsk f)) f).
Proof.
  intros Hip Hdev Hid HW Hib Hr. unfold iupdate. mstep (inode_at_run f ip i Hip). rewrite Hdev.
  assert (Hn : IBLOCK (i_inum i) ∉ dom (ld_buf (dsk f))) by (rewrite Hid; set_solver).
  mstep (fs_bread f _ W (wb_rbud _ _ HW) Hn Hr). set (f1 := set_dsk _ f).
  assert (Hx : ld_buf (dsk f1) !! IBLOCK (i_inum i) = Some (ld_blk (dsk f) (IBLOCK (i_inum i)))) by apply lookup_insert_eq. mstep (bdata_run f1 _ _ Hx).
  rewrite (change_end f1 _ _ _ W (wbud_hold _ _ _ _ HW Hib) Hx). f_equal. unfold f1, set_dsk. cbn. f_equal. by apply buf_back.
Qed.

(** Storing an inode touches no file. *)
Lemma imap_stored d s x i A : vol d -> s < bm -> imap d i A -> imap (logged s x d) i A /\ fbytes (logged s x d) A = fbytes d A.
Proof.
  intros Hv Hs Hm. eapply (imap_frame _ [s]); [by eapply vol_bm|apply wrote_logged; [by left|lia]|done|].
  intros t [Ht _]%(imap_data _ _ _ _ _ Hm) ->%list_elem_of_singleton. lia.
Qed.
Lemma imap_meta d i j A : imap d i A -> i_dev j = i_dev i -> i_addrs j = i_addrs i -> imap d j A /\ footprint j A = footprint i A.
Proof.
  intros [H1 H2 H3 H4 H5 H6 H7] Hd Ha. assert (E : forall k, addr_at j k = addr_at i k) by (intros; unfold addr_at; by rewrite Ha).
  assert (Ef : footprint j A = footprint i A) by (unfold footprint, indirect; by rewrite !E). split; [|done].
  split; [by rewrite Hd|by rewrite Ha|done| |by rewrite E|by rewrite Ef|by rewrite Ef]. intros k Hk. rewrite <- H4 by done. unfold fblock. by rewrite !E.
Qed.

(** ** writei *)

(** The file of [ip]: its blocks are just those its size needs. *)
Record ifile (f : fsys) (ip : nat) (i : inode) (A : list Z) : Prop := {
  if_cache : icache f !! ip = Some i;
  if_map : imap (dsk f) i A;
  if_size : 0 <= i_size i;
  if_len : nblk (i_size i) = Z.of_nat (length A);
  if_block : 2 <= IBLOCK (i_inum i) < bm;
  if_type : i_type i <> T_DEV;
}.
Lemma if_bound f ip i A : ifile f ip i A -> i_size i <= 512 * Z.of_nat (length A).
Proof. intros Hf. rewrite <- (if_len _ _ _ _ Hf). unfold nblk, BSIZE. Z.to_euclidean_division_equations; lia. Qed.

(** The inode after a write that ends at [e]. *)
Definition resized (e : Z) (a : list Z) (i : inode) : inode := set_size (Z.max (i_size i) e) (set_addrs a i).

(** The blocks before the bitmap are nobody's. *)
Lemma wrote_low S d d' s : wrote S d d' -> vol d -> 0 <= s < bm -> s ∉ S -> ld_blk d' s = ld_blk d s.
Proof. intros Hw Hv Hs HS. apply (wr_blk _ _ _ _ Hw); [done| |lia]. intros [_ Hb]%elem_of_free. rewrite (vo_meta _ _ _ Hv) in Hb by lia. done. Qed.
Lemma low_footprint d i A s : imap d i A -> s < bm -> s ∉ footprint i A.
Proof. intros Hm Hs Hin. destruct (imap_data _ _ _ _ _ Hm Hin). lia. Qed.
Lemma nblk_max a b : nblk (Z.max a b) = Z.max (nblk a) (nblk b).
Proof. unfold nblk, BSIZE. Z.to_euclidean_division_equations; lia. Qed.

(** The bytes of the grown file, cut to its new size. *)
Lemma contents_resized F zs (sz off : Z) src :
  0 <= off <= sz -> sz <= Z.of_nat (length F) -> off + Z.of_nat (length src) <= Z.of_nat (length (F ++ zs)) ->
  take (Z.to_nat (Z.max sz (off + Z.of_nat (length src)))) (splice (F ++ zs) (Z.to_nat off) src) = splice (take (Z.to_nat sz) F) (Z.to_nat off) src.
Proof.
  intros Hoff Hsz Hend. rewrite <- (take_splice F zs) by lia. f_equal. lia.
Qed.

Section Writei.
Context (devsw : Z -> option ((nat -> Z -> M fsys (Z * list Z)) * (nat -> list Z -> M fsys Z))).
Context (f : fsys) (ip : nat) (i : inode) (A : list Z) (P : gset Z) (m : nat) (off : Z) (src : list Z).
Let n := Z.of_nat (length src).
Hypothesis (Hv : vol (dsk f)) (Hf : ifile f ip i A) (Hid : ld_buf (dsk f) = ∅) (Hr : room (dsk f) P (IBLOCK (i_inum i)) i m).
Hypothesis (Hoff : 0 <= off <= i_size i) (Hmax : off + n <= MAXFILE * BSIZE).
Hypothesis (Hm : nblk (off + n) - off / BSIZE <= Z.of_nat m) (Hsp : nblk (off + n) - Z.of_nat (length A) <= spare (dsk f) i).

Lemma writei_guards : (i_size i <? off) || (off ⊕ n <? off) = false /\ (MAXFILE * BSIZE <? off ⊕ n) = false.
Proof.
  unfold MAXFILE, NDIRECT, NINDIRECT, BSIZE in *. assert (0 <= n) by lia. rewrite u32_id by lia.
  rewrite (proj2 (Z.ltb_ge _ _)), (proj2 (Z.ltb_ge _ off)), (proj2 (Z.ltb_ge _ (off + n))) by lia. done.
Qed.

Lemma writei_full :
  exists f' i' A', writei devsw ip src off n f = Ok n f' /\ ifile f' ip i' A' /\ vol (dsk f') /\ ic_lock f' = ic_lock f /\
    icache f' = <[ip := i']> (icache f) /\ i' = resized (off + n) (i_addrs i') i /\
    contents (dsk f') i' A' = splice (contents (dsk f) i A) (Z.to_nat off) src /\
    wrote (IBLOCK (i_inum i) :: footprint i A) (dsk f) (dsk f') /\
    (i_size i < off + n -> ld_blk (dsk f') (IBLOCK (i_inum i)) = stored (dsk f) i') /\
    spare (dsk f') i' = spare (dsk f) i - (Z.of_nat (length A') - Z.of_nat (length A)) /\ (exists P' m', room (dsk f') P' (IBLOCK (i_inum i)) i' m') /\
    forall s, s ∈ footprint i' A' -> s ∈ footprint i A \/ s ∈ free (dsk f).
Proof.
  destruct Hf as [Hip Him Hsz Hlen Hib Hty]. pose proof (if_bound _ _ _ _ Hf) as Hbound. pose proof (ge_range _ _ _ (vo_geom _ _ _ Hv)) as Hge.
  destruct writei_guards as [Eg1 Eg2]. unfold writei. mstep (inode_at_run f ip i Hip). rewrite (proj2 (Z.eqb_neq _ _)) by done. rewrite Eg1, Eg2.
  destruct (writei_loop_run ip (IBLOCK (i_inum i)) n (S (Z.to_nat n)) f i A P m 0 off src) as (f1 & i1 & A1 & P1 & m1 & zs & E1 & Hf1 & Hr1 & Hl1 & Hz1 & Hs1);
    rewrite ?Z.sub_0_r; try done; try lia.
  rewrite Z.sub_0_r in E1, Hl1. mstep E1. pose proof (filed_cache _ _ _ _ _ _ _ _ Hip Hf1) as Hip1. mstep (inode_at_run f1 ip i1 Hip1).
  pose proof (filed_idle _ _ _ _ _ _ _ _ Hid Hf1) as Hid1. destruct Hf1 as [G1 G2 G3 G4 G5 G6 G7 G8].
  assert (Esz : i_size i1 = i_size i) by (by rewrite G3). assert (Einum : i_inum i1 = i_inum i) by (by rewrite G3).
  assert (Hfl : length (fbytes (dsk f) A) = (512 * length A)%nat) by (by eapply fbytes_length).
  assert (Hend : off + n <= 512 * Z.of_nat (length A1)) by (rewrite Hl1; unfold nblk, BSIZE; Z.to_euclidean_division_equations; lia).
  assert (Econt : take (Z.to_nat (Z.max (i_size i) (off + n))) (fbytes (dsk f1) A1) = splice (contents (dsk f) i A) (Z.to_nat off) src).
  { rewrite G6. apply contents_resized; lia. }
  assert (Elen : nblk (Z.max (i_size i) (off + n)) = Z.of_nat (length A1)) by (rewrite nblk_max, Hl1; lia).
  rewrite Esz. destruct (Z.ltb_spec (i_size i) (off + n)) as [Hgr|Hgr].
  - rewrite (proj2 (Z.ltb_lt 0 n)) by lia. cbn [andb]. cbn [when]. rewrite Z.max_r in Econt, Elen by lia.
    set (i2 := set_size (off + n) i1). set (f2 := set_icache (<[ip := i2]> (icache f1)) f1).
    assert (Eupd : upd_inode ip (set_size (off + n)) f1 = Ok tt f2) by (unfold upd_inode; mstep (inode_at_run f1 ip i1 Hip1); done). rewrite bind_assoc_run. mstep Eupd.
    assert (Hip2 : icache f2 !! ip = Some i2) by (cbn; rewrite list_lookup_insert_eq; [done|by eapply lookup_lt_Some]).
    destruct (imap_meta _ _ i2 _ G5) as [Him2 Hfp2]; [done..|]. assert (HW := room_wbud _ _ _ _ _ _ ∅ Hr1). rewrite size_empty in HW. specialize (HW ltac:(pose proof (indirect_length i1); lia)).
    pose proof (ge_range _ _ _ (vo_geom _ _ _ G4)) as Hge1. assert (Eib : IBLOCK (i_inum i2) = IBLOCK (i_inum i)) by (cbn; by rewrite Einum).
    erewrite bind_ok by (eapply (iupdate_run f2 ip i2 _ Hip2 (im_dev _ _ _ _ Him2) Hid1 HW); rewrite Eib; [unfold Fsfile.ws; rewrite !elem_of_union, !elem_of_singleton; tauto|cbn; lia]).
    cbn [dsk f2 set_icache]. rewrite Eib. destruct (imap_stored _ (IBLOCK (i_inum i)) (stored (dsk f1) i2) _ _ G4 ltac:(lia) Him2) as [Him3 Hfb3].
    eexists _, i2, A1. split; [done|]. cbn [dsk set_dsk]. split_and!.
    + split; [done|done|cbn; lia|cbn; done|cbn; by rewrite Einum|cbn; by rewrite G3].
    + apply vol_logged; [done|lia|lia|]. apply stored_length; [done|by rewrite Eib|apply Him2].
    + done.
    + cbn. rewrite G2. apply list_insert_insert_eq.
    + unfold i2, resized. rewrite G3. cbn. by rewrite Z.max_r by lia.
    + unfold contents at 1. rewrite Hfb3. exact Econt.
    + eapply wrote_trans; [eapply wrote_mono; [exact G7|set_solver]|apply (wrote_logged _ [IBLOCK (i_inum i)]); [by left|lia]|]. intros s ->%list_elem_of_singleton. left. by left.
    + intros _. rewrite logged_same. unfold stored. rewrite Eib. f_equal. eapply wrote_low; [exact G7|done|lia|]. eapply low_footprint; [done|lia].
    + rewrite <- Hs1. unfold Fsfile.spare, Fsfile.free. rewrite logged_other by lia. done.
    + exists P1, m1. eapply room_step; [exact Hr1|apply logged_nodup, Hr1| |done|done|done]. rewrite logged_pinned. intros s [Hs| ->%elem_of_singleton]%elem_of_union; [by apply Hr1|].
      unfold Fsfile.ws. rewrite !elem_of_union, !elem_of_singleton. tauto.
    + rewrite Hfp2. exact G8.
  - rewrite andb_false_r. cbn [when]. rewrite Z.max_l in Econt, Elen by lia. exists f1, i1, A1. split; [done|]. split_and!; try done.
    + split; [done|done|lia|by rewrite Esz|by rewrite Einum|by rewrite G3].
    + unfold resized. rewrite Z.max_l, G3 by lia. by destruct i.
    + unfold contents at 1. by rewrite Esz.
    + eapply wrote_mono; [exact G7|set_solver].
    + lia.
    + by exists P1, m1.
Qed.

Lemma writei_run :
  exists f' i' A', writei devsw ip src off n f = Ok n f' /\ ifile f' ip i' A' /\ vol (dsk f') /\ ic_lock f' = ic_lock f /\
    icache f' = <[ip := i']> (icache f) /\ i' = resized (off + n) (i_addrs i') i /\
    contents (dsk f') i' A' = splice (contents (dsk f) i A) (Z.to_nat off) src /\
    wrote (IBLOCK (i_inum i) :: footprint i A) (dsk f) (dsk f') /\
    (i_size i < off + n -> ld_blk (dsk f') (IBLOCK (i_inum i)) = stored (dsk f) i').
Proof. destruct writei_full as (f' & i' & A' & H). exists f', i', A'. tauto. Qed.
End Writei.
End Write.

(** A file apart from the one that was written keeps its blocks and bytes. *)
Lemma other_kept fsz bm d d' ib i A j B :
  vol fsz bm d -> ib < bm -> wrote bm (ib :: footprint i A) d d' -> imap bm d j B -> footprint j B ## footprint i A ->
  imap bm d' j B /\ fbytes d' B = fbytes d B.
Proof.
  intros Hv Hib Hw Hj Hdisj. eapply (imap_frame bm _ d); [by eapply vol_bm|exact Hw|done|]. intros s Hin [->|Hs']%elem_of_cons.
  - destruct (imap_data _ _ _ _ _ Hj Hin). lia.
  - by apply (Hdisj s).
Qed.

(** ** What readi and writei do *)

Section Claims.
Context (fsz bm : Z) (devsw : Z -> option ((nat -> Z -> M fsys (Z * list Z)) * (nat -> list Z -> M fsys Z))).

(** C39: Readi on a file that is not a device returns -1 past the end of the
    file or when off + n overflows, else the bytes of the file from off on, as
    many as are asked for and there are; it changes nothing, and gets the blocks
    beyond the twelfth through the indirect block. *)
Theorem readi_correct f ip i A off n :
  vol fsz bm (dsk f) -> ifile bm f ip i A -> ld_buf (dsk f) = ∅ -> NoDup (ld_log (dsk f)) -> (length (ld_log (dsk f)) < NBUF)%nat ->
  0 <= off < 2 ^ 32 -> 0 <= n < 2 ^ 32 ->
  readi devsw ip off n f =
    Ok (if (i_size i <? off) || (2 ^ 32 <=? off + n) then (-1, [])
        else let r := Z.min n (i_size i - off) in (r, slice (contents (dsk f) i A) (Z.to_nat off) (Z.to_nat r))) f.
Proof.
  intros Hv Hf Hid Hn Hl Hoff Hn0. apply (readi_run fsz bm f ip i A (list_to_set (ld_log (dsk f)))); try done; try apply Hf.
  - split; [done|unfold ld_pinned; rewrite Hid; set_solver|by rewrite size_list_to_set].
  - split; [apply Hf|by eapply if_bound].
Qed.

Lemma writei_rejected f ip i src off (n := Z.of_nat (length src)) :
  icache f !! ip = Some i -> i_type i <> T_DEV -> 0 <= off < 2 ^ 32 -> n < 2 ^ 32 -> (i_size i < off \/ MAXFILE * BSIZE < off + n) ->
  writei devsw ip src off n f = Ok (-1) f.
Proof.
  intros Hip Hty Hoff Hn Hbad. unfold writei. mstep (inode_at_run f ip i Hip). rewrite (proj2 (Z.eqb_neq _ _)) by done.
  destruct (Z.ltb_spec (i_size i) off); [done|]. cbn [orb]. destruct Hbad as [Hbad|Hbad]; [lia|].
  destruct (Z.ltb_spec (off ⊕ n) off) as [|Hge]; [done|]. rewrite (proj2 (Z.ltb_lt _ _)); [done|]. unfold u32 in *.
  destruct (decide (off + n < 2 ^ 32)) as [Hlt|Hov]; [by rewrite Z.mod_small by lia|]. exfalso.
  replace ((off + n) mod 2 ^ 32) with (off + n - 2 ^ 32) in Hge; [lia|]. apply Z.mod_unique_pos with 1; lia.
Qed.

(** C3: writei puts the bytes at off into the file, which grows as needed, and
    stores the inode when its size has changed; the bitmap still marks all
    blocks of the file; every other file keeps its blocks and its bytes.
    Enough room is that for the blocks written, the bitmap, the inode's block
    and the indirect block; enough space the new blocks and one for the
    indirect block.  A write from beyond the end, or past the largest file,
    returns -1 and changes nothing. *)
Theorem writei_correct f ip i A P m off src (n := Z.of_nat (length src)) :
  vol fsz bm (dsk f) -> ifile bm f ip i A -> ld_buf (dsk f) = ∅ -> 0 <= off < 2 ^ 32 -> n < 2 ^ 32 ->
  (i_size i < off \/ MAXFILE * BSIZE < off + n -> writei devsw ip src off n f = Ok (-1) f) /\
  (off <= i_size i -> off + n <= MAXFILE * BSIZE ->
   room bm (dsk f) P (IBLOCK (i_inum i)) i m -> nblk (off + n) - off / BSIZE <= Z.of_nat m -> nblk (off + n) - Z.of_nat (length A) <= spare bm (dsk f) i ->
   exists f' i' A',
     writei devsw ip src off n f = Ok n f' /\ ifile bm f' ip i' A' /\ vol fsz bm (dsk f') /\ icache f' = <[ip := i']> (icache f) /\
     i' = set_size (Z.max (i_size i) (off + n)) (set_addrs (i_addrs i') i) /\
     contents (dsk f') i' A' = splice (contents (dsk f) i A) (Z.to_nat off) src /\
     (i_size i < off + n -> ld_blk (dsk f') (IBLOCK (i_inum i)) = dip_store (ld_blk (dsk f) (IBLOCK (i_inum i))) (dip_off (i_inum i)) i') /\
     (forall j B, imap bm (dsk f) j B -> footprint j B ## footprint i A -> imap bm (dsk f') j B /\ fbytes (dsk f') B = fbytes (dsk f) B)).
Proof.
  intros Hv Hf Hid Hoff Hn. split; [intros Hbad; apply (writei_rejected f ip i); (done || apply Hf)|]. intros Hsz Hmax Hr Hm Hsp.
  destruct (writei_run fsz bm devsw f ip i A P m off src) as (f' & i' & A' & E & Hf' & Hv' & _ & Hc & Hi & Hb & Hw & Hs); try done; try lia.
  exists f', i', A'. split_and!; try done.
  - intros Hgr. rewrite Hs by done. unfold stored. by rewrite Hi.
  - intros j B. eapply other_kept; [done|apply (if_block _ _ _ _ _ Hf)|done].
Qed.
End Claims.

(** ** A small file system *)

Definition pad (x : block) : block := x ++ replicate (512 - length x) 0.
(** 40 home blocks and a log of 10, 8 inodes, the bitmap in block 4; the file
    of inode 3 has block 5. *)
Definition demo_blk (s : Z) : block :=
  if s =? 1 then pad (le_bytes 4 50 ++ le_bytes 4 35 ++ le_bytes 4 8 ++ le_bytes 4 10)
  else if s =? 4 then pad [63]
  else if s =? 5 then pad [104; 101; 108; 108; 111]
  else zeros.
Definition demo_disk : ldisk := mkLdisk 40 10 demo_blk ∅ [] true.
Definition demo_inode : inode := mkInode ROOTDEV 3 1 3 T_FILE 0 0 1 5 (5 :: replicate 12 0).
Definition demo_fs : fsys := mkFsys false [demo_inode] demo_disk.

Lemma all_below (P : Z -> bool) n : forallb P (seqZ 0 n) = true -> forall k, 0 <= k < n -> P k = true.
Proof. intros H k Hk. rewrite forallb_forall in H. apply H, list_elem_of_In, elem_of_seqZ. lia. Qed.

Lemma demo_vol : vol 50 4 demo_disk.
Proof.
  split; [by split| | |done].
  - intros s Hs. pose proof (all_below (fun s => length (demo_blk s) =? 512)%nat 40 ltac:(vm_compute; reflexivity) s Hs) as H. by apply Nat.eqb_eq.
  - intros b Hb. apply (all_below (fun b => bit (ld_blk demo_disk 4) b) 5); [vm_compute; reflexivity|lia].
Qed.
Lemma demo_ifile : ifile 4 demo_fs 0 demo_inode [5].
Proof.
  split; [done| |done|vm_compute; reflexivity|by vm_compute|done]. split; [done|done|done| |by vm_compute|apply NoDup_singleton|].
  - intros k Hk. apply Z.eqb_eq. revert k Hk. apply (all_below (fun k => fblock demo_disk demo_inode k =? default 0 ([5] !! Z.to_nat k))). vm_compute. reflexivity.
  - repeat constructor; vm_compute; done.
Qed.
Lemma demo_room : room 4 demo_disk ∅ 2 demo_inode 1.
Proof. split; [constructor|set_solver|vm_compute; lia|vm_compute; done|done]. Qed.

Lemma readi_correct_witness : readi (fun _ => None) 0 1 100 demo_fs = Ok (4, [101; 108; 108; 111]) demo_fs.
Proof.
  rewrite (readi_correct 50 4 (fun _ => None) demo_fs 0 demo_inode [5] 1 100 demo_vol demo_ifile); [vm_compute; reflexivity|done|constructor|vm_compute; lia|lia|lia].
Defined.
(** The write appends to the file. *)
Lemma writei_correct_witness :
  exists f' i' A', writei (fun _ => None) 0 [33; 10] 5 2 demo_fs = Ok 2 f' /\ ifile 4 f' 0 i' A' /\ contents (dsk f') i' A' = [104; 101; 108; 108; 111; 33; 10].
Proof.
  destruct (writei_correct 50 4 (fun _ => None) demo_fs 0 demo_inode [5] ∅ 1 5 [33; 10] demo_vol demo_ifile) as [_ H]; [done|lia|done|].
  destruct H as (f' & i' & A' & E & Hf & _ & _ & _ & Hc & _); [by vm_compute|by vm_compute|exact demo_room|by vm_compute|vm_compute; done|].
  exists f', i', A'. split; [exact E|]. split; [exact Hf|]. rewrite Hc. vm_compute. reflexivity.
Defined.
