(* ===== verification/Fsdir.v ===== *)
(** * Directories

    dirlookup and dirlink of fs.c.  A directory is a file whose contents are
    entries of 16 bytes, an inode number and a name padded with zeros to
    DIRSIZ bytes; an entry with inode number 0 is unused. *)

From stdpp Require Import functions.
From S2P Require Import Prelude Str Interfaces Spinlock Bytes Log Disk Fs Fsblk Fsfile Fswrite.

(** The entries that dirlookup takes for [name]. *)
Definition names (name : cstr) (de : list Z) : Prop := de_inum de <> 0 /\ namecmp name (de_name de) = 0.
Global Instance names_dec name de : Decision (names name de).
Proof. unfold names. apply _. Defined.
Definition unused (de : list Z) : Prop := de_inum de = 0.
Global Instance unused_dec de : Decision (unused de).
Proof. unfold unused. apply _. Defined.

(** The first entry for a name, with its index. *)
Definition dir_find (name : cstr) (E : list (list Z)) : option (nat * list Z) := list_find (names name) E.
(** The slot dirlink takes: the first unused one or the end. *)
Definition dir_slot (E : list (list Z)) : nat := match list_find unused E with Some (k, _) => k | None => length E end.
Definition dirent (inum : Z) (name : cstr) : list Z := le_bytes 2 (u16 inum) ++ strncpy_bytes name DIRSIZ.
Definition dir_set (k : nat) (de : list Z) (E : list (list Z)) : list (list Z) := if decide (k < length E)%nat then <[k := de]> E else E ++ [de].

(** ** Entries *)

Lemma dirent_length inum name : length (dirent inum name) = 16%nat.
Proof. unfold dirent. by rewrite length_app, le_bytes_length, strncpy_bytes_length. Qed.
Lemma dirent_inum inum name : de_inum (dirent inum name) = u16 inum.
Proof. unfold de_inum, get16. rewrite <- (le_value_u16 inum). apply (f_equal le_value), (slice_mid [] (le_bytes 2 (u16 inum)) (strncpy_bytes name DIRSIZ)). Qed.
Lemma dirent_name inum name : de_name (dirent inum name) = of_list (strncpy_bytes name DIRSIZ).
Proof. unfold de_name, dirent, slice. f_equal. change 2%nat with (length (le_bytes 2 (u16 inum))). rewrite drop_app_length. apply take_ge. by rewrite strncpy_bytes_length. Qed.

Lemma of_list_zeros n i : of_list (replicate n 0) i = 0.
Proof. unfold of_list. revert i. induction n as [|n IH]; intros [|i]; cbn; auto. Qed.
Lemma strncmp_padded p t n : strncmp p (of_list (strncpy_bytes t n)) n = strncmp p t n.
Proof.
  revert p t. induction n as [|n IH]; intros p t; [done|]. cbn [strncmp strncpy_bytes]. destruct (truth (t O)) eqn:Et.
  - change (of_list (t O :: strncpy_bytes (fun i => t (S i)) n) O) with (t O). destruct (_ && _); [|done].
    etrans; [|apply IH]. apply strncmp_ext; done.
  - unfold truth in Et. apply negb_false_iff, Z.eqb_eq in Et. rewrite of_list_zeros, Et. unfold truth. destruct (Z.eqb_spec (p O) 0); done.
Qed.
Lemma strncmp_refl p n : strncmp p p n = 0.
Proof. revert p. induction n as [|n IH]; intros p; [done|]. cbn [strncmp]. rewrite Z.eqb_refl, andb_true_r. destruct (truth (p O)); [apply IH|lia]. Qed.

Lemma names_dirent name' inum name : u16 inum <> 0 -> names name' (dirent inum name) <-> namecmp name' name = 0.
Proof. intros Hi. unfold names. rewrite dirent_inum, dirent_name. unfold namecmp. rewrite strncmp_padded. tauto. Qed.

(** ** The entries after dirlink *)

Lemma find_insert_out (P : list Z -> Prop) `{!forall x, Decision (P x)} l k x y :
  l !! k = Some x -> ~ P x -> ~ P y -> list_find P (<[k := y]> l) = list_find P l.
Proof.
  revert k. induction l as [|z l IH]; intros [|k] Hk Hx Hy; simplify_eq/=; [by rewrite !decide_False|]. destruct (decide (P z)); [done|]. by rewrite IH.
Qed.
Lemma find_insert_in (P : list Z -> Prop) `{!forall x, Decision (P x)} l k y :
  (k < length l)%nat -> list_find P l = None -> P y -> list_find P (<[k := y]> l) = Some (k, y).
Proof.
  revert k. induction l as [|z l IH]; intros [|k] Hk Hn Hy; cbn in *; [lia|lia|by rewrite decide_True|]. destruct (decide (P z)); [done|].
  rewrite IH; [done|lia| |done]. by destruct (list_find P l).
Qed.

Lemma dir_slot_le E : (dir_slot E <= length E)%nat.
Proof. unfold dir_slot. destruct (list_find _ E) as [[k de]|] eqn:Ef; [|done]. apply list_find_Some in Ef as (Hk%lookup_lt_Some & _ & _). lia. Qed.

Lemma dir_slot_unused E : (dir_slot E < length E)%nat -> exists x, E !! dir_slot E = Some x /\ unused x.
Proof.
  unfold dir_slot. destruct (list_find unused E) as [[k x]|] eqn:Ef; [|lia]. intros _. apply list_find_Some in Ef as (Hk & Hx & _). by exists x.
Qed.

(** The name leads to the new entry. *)
Lemma dir_find_new E inum name :
  u16 inum <> 0 -> dir_find name E = None -> dir_find name (dir_set (dir_slot E) (dirent inum name) E) = Some (dir_slot E, dirent inum name).
Proof.
  intros Hi Hn. unfold dir_find, dir_set in *. pose proof (dir_slot_le E). assert (Hd : names name (dirent inum name)) by (apply names_dirent; [done|apply strncmp_refl]).
  case_decide; [by apply find_insert_in|]. replace (dir_slot E) with (length E) by lia. rewrite list_find_app_r by done. cbn. rewrite decide_True by done. cbn. by rewrite ?Nat.add_0_r.
Qed.
(** Other names lead to what they led to. *)
Lemma dir_find_other E inum name name' :
  u16 inum <> 0 -> namecmp name' name <> 0 -> dir_find name' (dir_set (dir_slot E) (dirent inum name) E) = dir_find name' E.
Proof.
  intros Hi Hn. unfold dir_find, dir_set. assert (Hd : ~ names name' (dirent inum name)) by (by rewrite names_dirent).
  case_decide as Hlt.
  - destruct (dir_slot_unused E Hlt) as (x & Hx & Hu). eapply find_insert_out; [done| |done]. by intros [? _].
  - destruct (list_find (names name') E) as [r|] eqn:Ef.
    + destruct r; by apply list_find_app_l.
    + rewrite list_find_app_r by done. cbn. by rewrite decide_False.
Qed.

(** The contents of the directory after a write of the entry. *)
Lemma dir_set_bytes E k de :
  Forall (fun x => length x = 16%nat) E -> length de = 16%nat -> (k <= length E)%nat -> splice (concat E) (16 * k) de = concat (dir_set k de E).
Proof.
  intros HE Hde Hk. unfold dir_set. case_decide as Hlt.
  - destruct (lookup_lt_is_Some_2 E k Hlt) as [x Hx]. rewrite <- (Nat.add_0_r (16 * k)), <- (concat_splice (B := 16) _ _ x); [|done|done|lia].
    do 2 f_equal. unfold splice. rewrite Hde, drop_ge; [by rewrite app_nil_r|]. eapply Forall_lookup_1 in Hx; [|done]. cbn in Hx. lia.
  - assert (k = length E) as -> by lia. rewrite concat_app. change (concat [de]) with (de ++ []). rewrite app_nil_r. unfold splice. pose proof (concat_blocks_length E HE) as Hl. rewrite <- Hl.
    rewrite take_ge, drop_ge by lia. by rewrite app_nil_r.
Qed.
Lemma dir_set_sizes E k de : Forall (fun x => length x = 16%nat) E -> length de = 16%nat -> Forall (fun x => length x = 16%nat) (dir_set k de E).
Proof. intros HE Hde. unfold dir_set. case_decide; [by apply Forall_insert|]. apply Forall_app. split; [done|by apply Forall_singleton]. Qed.

(** ** Runs *)

Section Dir.
Context (fsz bm : Z) (devsw : Z -> option ((nat -> Z -> M fsys (Z * list Z)) * (nat -> list Z -> M fsys Z))).

(** The directory of [dp] with the entries [E]. *)
Record dirfile (f : fsys) (dp : nat) (i : inode) (A : list Z) (E : list (list Z)) : Prop := {
  df_file : ifile bm f dp i A;
  df_type : i_type i = T_DIR;
  df_bytes : contents (dsk f) i A = concat E;
  df_sizes : Forall (fun x => length x = 16%nat) E;
}.

Section Lookup.
Context (f : fsys) (dp : nat) (i : inode) (A : list Z) (E : list (list Z)) (W : gset Z).
Hypothesis (Hv : vol fsz bm (dsk f)) (Hd : dirfile f dp i A E) (Hid : ld_buf (dsk f) = ∅) (HW : rbud (dsk f) W).

Lemma dir_size : i_size i = 16 * Z.of_nat (length E) /\ i_size i <= MAXFILE * BSIZE.
Proof.
  destruct Hd as [Hf _ Hb Hs]. pose proof (concat_blocks_length E Hs) as Hl. rewrite <- Hb in Hl. unfold contents in Hl.
  pose proof (if_bound _ _ _ _ _ Hf) as Hbd. pose proof (if_size _ _ _ _ _ Hf). pose proof (im_len _ _ _ _ (if_map _ _ _ _ _ Hf)) as Hlen.
  rewrite length_take, (fbytes_length _ _ _ _ _ Hv (if_map _ _ _ _ _ Hf)) in Hl. unfold BSIZE. lia.
Qed.

(** The read of one entry. *)
Lemma read_entry k de : E !! k = Some de -> readi devsw dp (16 * Z.of_nat k) sizeof_de f = Ok (sizeof_de, de) f.
Proof.
  intros Hk. destruct dir_size as [Hsz Hmax]. unfold MAXFILE, NDIRECT, NINDIRECT, BSIZE in Hmax. pose proof (lookup_lt_Some _ _ _ Hk). destruct Hd as [Hf Hty Hb Hs].
  rewrite (readi_run fsz bm f dp i A W); try done; try apply Hf; try (unfold sizeof_de; lia).
  2:{ split; [apply Hf|by eapply if_bound]. }
  rewrite (proj2 (Z.ltb_ge _ _)), (proj2 (Z.leb_gt _ _)) by (unfold sizeof_de; lia). cbn [orb]. replace (Z.min sizeof_de (i_size i - 16 * Z.of_nat k)) with 16 by (unfold sizeof_de; lia).
  do 2 f_equal. rewrite Hb. replace (Z.to_nat (16 * Z.of_nat k)) with (16 * k + 0)%nat by lia. rewrite (slice_concat (B := 16) _ _ de) by done.
  unfold slice. rewrite drop_0. apply take_ge. eapply Forall_lookup_1 in Hk; [|done]. cbn in Hk. lia.
Qed.

Lemma dirlookup_loop_run name fuel k : (length E - k < fuel)%nat -> (k <= length E)%nat ->
  dirlookup_loop devsw fuel dp name (16 * Z.of_nat k) f =
    match list_find (names name) (drop k E) with
    | Some (j, de) => (ip ← iget ROOTDEV (de_inum de); mret (Some (ip, 16 * Z.of_nat (k + j)))) f
    | None => Ok None f
    end.
Proof.
  destruct dir_size as [Hsz Hmax]. unfold MAXFILE, NDIRECT, NINDIRECT, BSIZE in Hmax. pose proof (if_map _ _ _ _ _ (df_file _ _ _ _ _ Hd)) as Hm.
  revert k. induction fuel as [|fuel IH]; intros k Hfu Hk; [lia|]. cbn [dirlookup_loop]. mstep (inode_at_run f dp i (if_cache _ _ _ _ _ (df_file _ _ _ _ _ Hd))).
  destruct (Z.ltb_spec (16 * Z.of_nat k) (i_size i)) as [Hlt|]; [|by rewrite drop_ge by lia].
  destruct (lookup_lt_is_Some_2 E k) as [de Hde]; [lia|]. rewrite (drop_S _ _ _ Hde). cbn [list_find]. mstep (read_entry k de Hde). cbn [fst snd]. change (sizeof_de =? sizeof_de) with true. cbn [negb].
  assert (Enext : dirlookup_loop devsw fuel dp name (16 * Z.of_nat k ⊕ sizeof_de) f =
    match prod_map S id <$> list_find (names name) (drop (S k) E) with
    | Some (j, de) => (ip ← iget ROOTDEV (de_inum de); mret (Some (ip, 16 * Z.of_nat (k + j)))) f | None => Ok None f end).
  { rewrite u32_id by (unfold sizeof_de; lia). replace (16 * Z.of_nat k + sizeof_de) with (16 * Z.of_nat (S k)) by (unfold sizeof_de; lia). rewrite IH by lia.
    destruct (list_find _ _) as [[j x]|]; [|done]. cbn. by rewrite <- Nat.add_succ_comm. }
  destruct (Z.eqb_spec (de_inum de) 0) as [E0|E0]; [by rewrite (decide_False (P := names name de)) by (by intros [? _])|].
  destruct (Z.eqb_spec (namecmp name (de_name de)) 0) as [E1|E1]; [|by rewrite (decide_False (P := names name de)) by (by intros [_ ?])].
  rewrite (decide_True (P := names name de)) by done. cbn. rewrite (im_dev _ _ _ _ Hm), Nat.add_0_r. done.
Qed.

Lemma dirlookup_run name :
  dirlookup devsw dp name f =
    match dir_find name E with
    | Some (k, de) => (ip ← iget ROOTDEV (de_inum de); mret (Some (ip, 16 * Z.of_nat k))) f
    | None => Ok None f
    end.
Proof.
  unfold dirlookup. mstep (inode_at_run f dp i (if_cache _ _ _ _ _ (df_file _ _ _ _ _ Hd))). rewrite (df_type _ _ _ _ _ Hd). cbn [negb T_DIR Z.eqb Pos.eqb].
  destruct dir_size as [Hsz _]. rewrite (dirlookup_loop_run name _ 0) by lia. by rewrite drop_0.
Qed.

Lemma dirlink_scan_run fuel k : (length E - k < fuel)%nat -> (k <= length E)%nat ->
  dirlink_scan devsw fuel dp (16 * Z.of_nat k) f = Ok (16 * Z.of_nat (k + dir_slot (drop k E))) f.
Proof.
  destruct dir_size as [Hsz _]. revert k. induction fuel as [|fuel IH]; intros k Hfu Hk; [lia|]. cbn [dirlink_scan]. mstep (inode_at_run f dp i (if_cache _ _ _ _ _ (df_file _ _ _ _ _ Hd))).
  destruct (Z.ltb_spec (16 * Z.of_nat k) (i_size i)) as [Hlt|].
  2:{ rewrite drop_ge by lia. unfold dir_slot. cbn. by rewrite Nat.add_0_r. }
  destruct (lookup_lt_is_Some_2 E k) as [de Hde]; [lia|]. rewrite (drop_S _ _ _ Hde). mstep (read_entry k de Hde). cbn [fst snd]. change (sizeof_de =? sizeof_de) with true. cbn [negb].
  unfold dir_slot. cbn [list_find]. unfold unused at 1. destruct (Z.eqb_spec (de_inum de) 0) as [E0|E0].
  - rewrite decide_True by done. by rewrite Nat.add_0_r.
  - rewrite decide_False by done. replace (16 * Z.of_nat k + sizeof_de) with (16 * Z.of_nat (S k)) by (unfold sizeof_de; lia). rewrite IH by lia. unfold dir_slot.
    destruct (list_find _ (drop (S k) E)) as [[j x]|]; cbn [fmap option_fmap option_map prod_map fst snd length]; by rewrite Nat.add_succ_r.
Qed.
End Lookup.

Lemma slot_blocks k a : 0 <= k -> 16 * k <= 512 * a -> nblk (16 * k + 16) - 16 * k / BSIZE <= 1 /\ nblk (16 * k + 16) <= a + 1.
Proof. intros Hk Ha. unfold nblk, BSIZE. split; Z.to_euclidean_division_equations; lia. Qed.

Lemma dirlink_run f dp i A E P m name inum (E' := dir_set (dir_slot E) (dirent inum name) E) :
  vol fsz bm (dsk f) -> dirfile f dp i A E -> ld_buf (dsk f) = ∅ -> room bm (dsk f) P (IBLOCK (i_inum i)) i (S m) -> 1 <= spare bm (dsk f) i ->
  i_size i < MAXFILE * BSIZE -> dir_find name E = None ->
  exists f' i' A', dirlink devsw dp name inum f = Ok 0 f' /\ dirfile f' dp i' A' E' /\ vol fsz bm (dsk f') /\
    wrote bm (IBLOCK (i_inum i) :: footprint i A) (dsk f) (dsk f').
Proof.
  intros Hv Hd Hid Hr Hsp Hmax Hn. assert (HW := room_wbud _ _ _ _ _ _ ∅ Hr). rewrite size_empty in HW. specialize (HW ltac:(pose proof (indirect_length i); lia)). apply wb_rbud in HW.
  destruct (dir_size f dp i A E Hv Hd) as [Hsz _]. pose proof (dir_slot_le E) as Hsl. destruct Hd as [Hf Hty Hb Hs] eqn:EHd. clear EHd. pose proof (if_bound _ _ _ _ _ Hf) as Hbd.
  unfold dirlink. erewrite bind_ok by (rewrite (dirlookup_run f dp i A E _ Hv Hd Hid HW), Hn; done). cbn beta iota. mstep (inode_at_run f dp i (if_cache _ _ _ _ _ Hf)).
  pose proof (dirlink_scan_run f dp i A E _ Hv Hd Hid HW (S (Z.to_nat (i_size i))) 0 ltac:(lia) ltac:(lia)) as Es. rewrite drop_0 in Es. mstep Es. cbn [Nat.add].
  set (off := 16 * Z.of_nat (dir_slot E)). fold (dirent inum name). assert (Hl : Z.of_nat (length (dirent inum name)) = sizeof_de) by (by rewrite dirent_length).
  destruct (slot_blocks (Z.of_nat (dir_slot E)) (Z.of_nat (length A)) ltac:(lia) ltac:(lia)) as [Hb1 Hb2]. fold off in Hb1, Hb2.
  destruct (writei_run fsz bm devsw f dp i A P (S m) off (dirent inum name)) as (f' & i' & A' & Ew & Hf' & Hv' & _ & _ & Hi & Hc & Hw & _); rewrite ?Hl; unfold sizeof_de; try done; try lia.
  { unfold MAXFILE, NDIRECT, NINDIRECT, BSIZE in *. lia. }
  rewrite Hl in Ew. mstep Ew. change (sizeof_de =? sizeof_de) with true. cbn [negb]. exists f', i', A'. split; [done|]. split_and!; [|done|done]. split; [done|by rewrite Hi| |by apply dir_set_sizes, dirent_length].
  rewrite Hc, Hb. replace (Z.to_nat off) with (16 * dir_slot E)%nat by lia. by apply dir_set_bytes, dir_slot_le; [|apply dirent_length].
Qed.

(** Dirlookup in a directory finds the first used entry with the name, as
    far as the first DIRSIZ characters go, and returns its inode, with a
    reference taken by iget, and its offset; without one it returns null and
    changes nothing. *)
Theorem dirlookup_correct f dp i A E name :
  vol fsz bm (dsk f) -> dirfile f dp i A E -> ld_buf (dsk f) = ∅ -> NoDup (ld_log (dsk f)) -> (length (ld_log (dsk f)) < NBUF)%nat ->
  match dir_find name E with
  | Some (k, de) => E !! k = Some de /\ de_inum de <> 0 /\ namecmp name (de_name de) = 0 /\
      dirlookup devsw dp name f = (ip ← iget ROOTDEV (de_inum de); mret (Some (ip, 16 * Z.of_nat k))) f
  | None => dirlookup devsw dp name f = Ok None f /\ forall de, de ∈ E -> de_inum de = 0 \/ namecmp name (de_name de) <> 0
  end.
Proof.
  intros Hv Hd Hid Hn Hl. rewrite (dirlookup_run f dp i A E (list_to_set (ld_log (dsk f)))); try done.
  2:{ split; [done|unfold ld_pinned; rewrite Hid; set_solver|by rewrite size_list_to_set]. }
  unfold dir_find. destruct (list_find (names name) E) as [[k de]|] eqn:Ef.
  - apply list_find_Some in Ef as (Hk & [H1 H2] & _). done.
  - split; [done|]. intros de Hde. apply list_find_None in Ef. rewrite Forall_forall in Ef. specialize (Ef _ Hde). unfold names in Ef. destruct (decide (de_inum de = 0)); tauto.
Qed.

(** C16: dirlink of a name that the directory has not makes it lead to the
    inode, in the first unused entry or a new one at the end, and leaves what
    all other names lead to and all other files; for a name it has, it drops
    the reference dirlookup took and returns -1. *)
Theorem dirlink_correct f dp i A E P m name inum :
  vol fsz bm (dsk f) -> dirfile f dp i A E -> ld_buf (dsk f) = ∅ -> room bm (dsk f) P (IBLOCK (i_inum i)) i (S m) -> 1 <= spare bm (dsk f) i ->
  i_size i < MAXFILE * BSIZE -> 0 < inum < 2 ^ 16 ->
  match dir_find name E with
  | Some (k, de) => dirlink devsw dp name inum f = (ip ← iget ROOTDEV (de_inum de); iput ip;; mret (-1)) f
  | None => exists f' i' A' E',
      dirlink devsw dp name inum f = Ok 0 f' /\ vol fsz bm (dsk f') /\ dirfile f' dp i' A' E' /\
      (exists k de, dir_find name E' = Some (k, de) /\ de_inum de = inum) /\
      (forall name', namecmp name' name <> 0 -> dir_find name' E' = dir_find name' E) /\
      (forall j B, imap bm (dsk f) j B -> footprint j B ## footprint i A -> imap bm (dsk f') j B /\ fbytes (dsk f') B = fbytes (dsk f) B)
  end.
Proof.
  intros Hv Hd Hid Hr Hsp Hmax Hi. assert (Hu : u16 inum = inum) by (apply Z.mod_small; lia). destruct (dir_find name E) as [[k de]|] eqn:Ef.
  - assert (HW := room_wbud _ _ _ _ _ _ ∅ Hr). rewrite size_empty in HW. specialize (HW ltac:(pose proof (indirect_length i); lia)). apply wb_rbud in HW.
    unfold dirlink. assert (E1 := dirlookup_run f dp i A E _ Hv Hd Hid HW name). rewrite Ef in E1. unfold mbind at 1, M_bind at 1. rewrite E1. unfold mbind, M_bind. by destruct (iget _ _ _).
  - destruct (dirlink_run f dp i A E P m name inum) as (f' & i' & A' & E1 & Hd' & Hv' & Hw); try done.
    exists f', i', A', (dir_set (dir_slot E) (dirent inum name) E). split_and!; [done|done|done| | |].
    + exists (dir_slot E), (dirent inum name). split; [apply dir_find_new; [lia|done]|by rewrite dirent_inum].
    + intros name' Hne. apply dir_find_other; [lia|done].
    + intros j B. eapply other_kept; [done|apply (if_block _ _ _ _ _ (df_file _ _ _ _ _ Hd))|done].
Qed.
End Dir.

(** A directory of the small file system: inode 1 with block 6, an entry for
    the directory itself and an unused one. *)
Definition demo_dirents : list (list Z) := [dirent 1 (of_list [46]); dirent 0 (of_list [])].
Definition demo_dir_disk : ldisk :=
  mkLdisk 40 10 (fun s => if s =? 4 then pad [127] else if s =? 6 then pad (concat demo_dirents) else demo_blk s) ∅ [] true.
Definition demo_dir : inode := mkInode ROOTDEV 1 1 3 T_DIR 0 0 1 32 (6 :: replicate 12 0).
Definition demo_dir_fs : fsys := mkFsys false (demo_dir :: replicate 3 (mkInode 0 0 0 0 0 0 0 0 0 [])) demo_dir_disk.

Lemma demo_dir_vol : vol 50 4 demo_dir_disk.
Proof.
  split; [by split| | |done].
  - intros s Hs. apply Nat.eqb_eq. revert s Hs. apply (all_below (fun s => length (ld_blk demo_dir_disk s) =? 512)%nat). vm_compute. reflexivity.
  - intros b Hb. apply (all_below (fun b => bit (ld_blk demo_dir_disk 4) b) 5); [vm_compute; reflexivity|lia].
Qed.
Lemma demo_dirfile : dirfile 4 demo_dir_fs 0 demo_dir [6] demo_dirents.
Proof.
  split; [|done|vm_compute; reflexivity|repeat constructor; by rewrite dirent_length].
  split; [done| |done|vm_compute; reflexivity|by vm_compute|done]. split; [done|done|done| |by vm_compute|apply NoDup_singleton|].
  - intros k Hk. apply Z.eqb_eq. revert k Hk. apply (all_below (fun k => fblock demo_dir_disk demo_dir k =? default 0 ([6] !! Z.to_nat k))). vm_compute. reflexivity.
  - repeat constructor; vm_compute; done.
Qed.

Lemma dirlookup_correct_witness :
  dirlookup (fun _ => None) 0 (of_list [46]) demo_dir_fs = (ip ← iget ROOTDEV 1; mret (Some (ip, 0))) demo_dir_fs /\
  dirlookup (fun _ => None) 0 (of_list [120]) demo_dir_fs = Ok None demo_dir_fs.
Proof.
  pose proof (dirlookup_correct 50 4 (fun _ => None) demo_dir_fs 0 demo_dir [6] demo_dirents (of_list [46]) demo_dir_vol demo_dirfile eq_refl ltac:(constructor) ltac:(vm_compute; lia)) as H1.
  pose proof (dirlookup_correct 50 4 (fun _ => None) demo_dir_fs 0 demo_dir [6] demo_dirents (of_list [120]) demo_dir_vol demo_dirfile eq_refl ltac:(constructor) ltac:(vm_compute; lia)) as H2.
  split; [exact (proj2 (proj2 (proj2 H1)))|exact (proj1 H2)].
Defined.
Lemma dirlink_correct_witness :
  exists f' i' A' E', dirlink (fun _ => None) 0 (of_list [120]) 3 demo_dir_fs = Ok 0 f' /\ dirfile 4 f' 0 i' A' E' /\
    (exists k de, dir_find (of_list [120]) E' = Some (k, de) /\ de_inum de = 3).
Proof.
  destruct (dirlink_correct 50 4 (fun _ => None) demo_dir_fs 0 demo_dir [6] demo_dirents ∅ 0 (of_list [120]) 3 demo_dir_vol demo_dirfile eq_refl) as (f' & i' & A' & E' & H1 & _ & H2 & H3 & _).
  - split; [constructor|set_solver|vm_compute; lia|vm_compute; done|done].
  - vm_compute. done.
  - vm_compute. done.
  - lia.
  - exists f', i', A', E'. split; [exact H1|]. split; [exact H2|exact H3].
Defined.
