(* ===== verification/Fspath.v ===== *)
(** * Paths and the inode cache

    iget, idup, ilock, iunlock, iput and namei of fs.c on a coherent inode
    cache: every entry with references has an inode number of its own, and what
    is marked valid is what the disk has.  [refs] counts the references to an
    inode.

    A path is the list of its elements; [walks] is what they lead to in the
    directories on the disk.  [namei_correct] is path resolution. *)

From stdpp Require Import functions.
From S2P Require Import Prelude Str Interfaces Spinlock Bytes Log Disk Fs Fsblk Fsfile Fswrite Fsdir.

(** ** Elements of a path *)

Fixpoint elems_from (cur path : list Z) : list (list Z) :=
  match path with
  | [] => if bool_decide (cur = []) then [] else [cur]
  | c :: path =>
      if c =? slash then if bool_decide (cur = []) then elems_from [] path else cur :: elems_from [] path
      else elems_from (cur ++ [c]) path
  end.
(** What lies between slashes, as far as DIRSIZ characters. *)
Definition elems (path : list Z) : list (list Z) := take DIRSIZ <$> elems_from [] path.

Lemma elems_skip path : elems_from [] (skip_slashes path) = elems_from [] path.
Proof. induction path as [|c path IH]; [done|]. cbn [skip_slashes]. destruct (c =? slash) eqn:Ec; [|done]. cbn [elems_from]. rewrite Ec. by rewrite bool_decide_true. Qed.
Lemma elems_elem path : forall cur s rest, path_elem path = (s, rest) -> cur ++ s <> [] -> elems_from cur path = (cur ++ s) :: elems_from [] rest.
Proof.
  induction path as [|c path IH]; intros cur s rest E Hne; cbn in E.
  - injection E as <- <-. rewrite app_nil_r in *. cbn. by rewrite bool_decide_false.
  - cbn. destruct (c =? slash) eqn:Ec.
    + injection E as <- <-. rewrite app_nil_r in *. rewrite bool_decide_false by done. cbn. rewrite Ec. done.
    + destruct (path_elem path) as [s' rest'] eqn:Ep. injection E as <- <-. rewrite (IH (cur ++ [c]) s' rest' eq_refl); [by rewrite <- app_assoc|]. by destruct cur.
Qed.
Lemma path_elem_app path s rest : path_elem path = (s, rest) -> path = s ++ rest.
Proof.
  revert s rest. induction path as [|c path IH]; intros s rest E; cbn in E; [by injection E as <- <-|].
  destruct (c =? slash); [by injection E as <- <-|]. destruct (path_elem path) as [s' r']. injection E as <- <-. cbn. by rewrite <- (IH s' r').
Qed.
Lemma skip_slashes_suffix path : exists l, path = l ++ skip_slashes path.
Proof. induction path as [|c path [l IH]]; [by exists []|]. cbn. destruct (c =? slash); [exists (c :: l); cbn; by f_equal|by exists []]. Qed.

(** A name in the buffer that skipelem fills counts as the element. *)
Lemma strncmp_cut n : forall s rest t, 0 ∉ s -> strncmp (of_list (s ++ 0 :: rest)) t n = strncmp (of_list s) t n.
Proof.
  induction n as [|n IH]; intros s rest t Hs; [done|]. destruct s as [|c s]; [done|]. cbn [strncmp app].
  change (of_list (c :: s ++ 0 :: rest) O) with c. change (of_list (c :: s) O) with c. destruct (_ && _); [|done].
  etrans; [apply strncmp_ext|etrans; [apply (IH s rest (fun i => t (S i)))|apply strncmp_ext]]; done || set_solver.
Qed.
Lemma strncmp_take n s t : strncmp (of_list (take n s)) t n = strncmp (of_list s) t n.
Proof. apply strncmp_ext; [|done]. intros i Hi. unfold of_list. by rewrite !nth_lookup, lookup_take_lt. Qed.

Lemma skipelem_none path name : skipelem path name = None -> elems path = [].
Proof. unfold skipelem, elems. rewrite <- elems_skip. destruct (skip_slashes path) as [|c p]; [done|]. by destruct (path_elem (c :: p)). Qed.

Lemma skipelem_some path name path' name' : 0 ∉ path -> (DIRSIZ <= length name)%nat -> skipelem path name = Some (path', name') ->
  exists e, elems path = e :: elems path' /\ (forall t, namecmp (of_list name') t = namecmp (of_list e) t) /\ (0 ∉ path') /\ (length path' < length path)%nat /\ (DIRSIZ <= length name')%nat.
Proof.
  unfold skipelem. intros H0 Hn. destruct (skip_slashes_suffix path) as [l Hl]. pose proof (elems_skip path) as Hsk. destruct (skip_slashes path) as [|c p] eqn:Es; [done|].
  destruct (path_elem (c :: p)) as [s rest] eqn:Ep. intros E.
  assert (path' = skip_slashes rest /\ name' = if (DIRSIZ <=? length s)%nat then splice name 0 (take DIRSIZ s) else splice name 0 (s ++ [0])) as [-> ->] by (by inversion E). clear E.
  pose proof (path_elem_app _ _ _ Ep) as Happ.
  assert (Hs : s <> []). { intros ->. cbn in Ep. destruct (c =? slash) eqn:Ec; [|by destruct (path_elem p)]. clear - Es Ec. revert Es. induction path as [|d path IH]; [done|]. cbn. destruct (d =? slash) eqn:Ed; [auto|]. intros [= -> ->]. congruence. }
  destruct (skip_slashes_suffix rest) as [l' Hl']. assert (H0s : 0 ∉ s) by (rewrite Hl, Happ in H0; set_solver).
  exists (take DIRSIZ s). split_and!.
  - unfold elems. rewrite <- Hsk, (elems_elem _ [] s rest Ep) by done. cbn. by rewrite elems_skip.
  - intros t. unfold namecmp. rewrite strncmp_take. destruct (DIRSIZ <=? length s)%nat eqn:Ed; unfold splice; rewrite take_0, app_nil_l.
    + apply Nat.leb_le in Ed. etrans; [|apply strncmp_take]. apply strncmp_ext; [|done]. intros i Hi. unfold of_list. by rewrite !nth_lookup, lookup_app_l by (rewrite length_take; lia).
    + rewrite <- app_assoc. cbn [app]. by apply strncmp_cut.
  - rewrite Hl, Happ, Hl' in H0. set_solver.
  - apply (f_equal length) in Hl, Happ, Hl'. rewrite !length_app in *. destruct s; [done|]. cbn in *. lia.
  - destruct (DIRSIZ <=? length s)%nat eqn:Ed; unfold splice; rewrite take_0, app_nil_l, !length_app, length_drop, ?length_take; [apply Nat.leb_le in Ed|apply Nat.leb_gt in Ed]; cbn [length]; lia.
Qed.

(** ** The inode cache *)

(** Inode [n] of the disk in memory, with [r] references. *)
Definition copy (d : ldisk) (n r fl : Z) : inode := dip_load (ld_blk d (IBLOCK n)) (dip_off n) (mkInode ROOTDEV n r fl 0 0 0 0 0 []).
Definition sumZ {A} (g : A -> Z) (l : list A) : Z := foldr (fun x r => g x + r) 0 l.
Definition refs (f : fsys) (n : Z) : Z := sumZ (fun i => if i_inum i =? n then i_ref i else 0) (icache f).
(** The entries that iget can take. *)
Definition nfree (f : fsys) : Z := sumZ (fun i => if i_ref i =? 0 then 1 else 0) (icache f).

Lemma sumZ_insert {A} (g : A -> Z) l k x y : l !! k = Some x -> sumZ g (<[k := y]> l) = sumZ g l - g x + g y.
Proof. revert k. induction l as [|z l IH]; intros [|k] Hk; simplify_eq/=; [lia|]. rewrite (IH k Hk). lia. Qed.
Lemma sumZ_only {A} (g : A -> Z) l k x : l !! k = Some x -> (forall j y, j <> k -> l !! j = Some y -> g y = 0) -> sumZ g l = g x.
Proof.
  revert k. induction l as [|z l IH]; intros k Hk Ho; [done|]. change (sumZ g (z :: l)) with (g z + sumZ g l). destruct k as [|k]; simplify_eq/=.
  - assert (sumZ g l = 0); [|lia]. clear IH. assert (Hl : forall j y, l !! j = Some y -> g y = 0) by (intros j y; apply (Ho (S j)); lia). clear Ho.
    induction l as [|y l IH]; [done|]. change (sumZ g (y :: l)) with (g y + sumZ g l). rewrite (Hl 0%nat y eq_refl), IH; [done|]. intros j. apply (Hl (S j)).
  - rewrite (Ho 0%nat z) by done. rewrite (IH k Hk); [lia|]. intros j y Hj. apply (Ho (S j)). lia.
Qed.
Lemma sumZ_zero {A} (g : A -> Z) l : (forall j y, l !! j = Some y -> g y = 0) -> sumZ g l = 0.
Proof. induction l as [|y l IH]; intros Hl; [done|]. change (sumZ g (y :: l)) with (g y + sumZ g l). rewrite (Hl 0%nat y eq_refl), IH; [done|]. intros j. apply (Hl (S j)). Qed.
Lemma sumZ_nonneg {A} (g : A -> Z) l : (forall j y, l !! j = Some y -> 0 <= g y) -> 0 <= sumZ g l.
Proof.
  induction l as [|y l IH]; intros Hl; [done|]. change (sumZ g (y :: l)) with (g y + sumZ g l). pose proof (Hl 0%nat y eq_refl). assert (0 <= sumZ g l); [|lia]. apply IH. intros j. apply (Hl (S j)).
Qed.
Lemma nfree_pos f : 0 < nfree f -> exists k i, icache f !! k = Some i /\ i_ref i = 0.
Proof.
  unfold nfree. generalize (icache f). induction l as [|i l IH]; [done|]. unfold sumZ in *. cbn [foldr]. destruct (Z.eqb_spec (i_ref i) 0); [by exists 0%nat, i|]. intros H. destruct IH as (k & j & Hk & Hj); [lia|]. by exists (S k), j.
Qed.

(** One entry changes. *)
Definition with_entry (k : nat) (i : inode) (f : fsys) : fsys := set_icache (<[k := i]> (icache f)) f.
Lemma with_entry_at k i i' f : icache f !! k = Some i' -> icache (with_entry k i f) !! k = Some i.
Proof. intros Hk. apply list_lookup_insert_eq. by eapply lookup_lt_Some. Qed.
Lemma with_entry_twice k i j f : with_entry k j (with_entry k i f) = with_entry k j f.
Proof. unfold with_entry, set_icache. cbn. by rewrite list_insert_insert_eq. Qed.
Lemma with_entry_same k i f : icache f !! k = Some i -> with_entry k i f = f.
Proof. intros Hk. unfold with_entry. rewrite list_insert_id by done. by destruct f. Qed.

(** From [f] to [f'] the references to inode [n] change by [c]; what is
    referenced stays where it is. *)
Record moved (n c : Z) (f f' : fsys) : Prop := {
  mv_dsk : dsk f' = dsk f;
  mv_refs : forall m, refs f' m = refs f m + (if m =? n then c else 0);
  mv_free : nfree f' + (if refs f n =? 0 then 1 else 0) = nfree f + (if refs f' n =? 0 then 1 else 0);
  mv_kept : forall k i, icache f !! k = Some i -> 0 < i_ref i -> 0 < refs f' (i_inum i) -> exists i', icache f' !! k = Some i' /\ i_inum i' = i_inum i /\ 0 < i_ref i';
}.
Lemma moved_entry f k i j : icache f !! k = Some i -> refs f (i_inum j) = i_ref i -> i_ref i = 0 \/ i_inum i = i_inum j -> moved (i_inum j) (i_ref j - i_ref i) f (with_entry k j f).
Proof.
  intros Hk Hr Hc.
  assert (Hrefs : forall m, refs (with_entry k j f) m = refs f m + (if m =? i_inum j then i_ref j - i_ref i else 0)).
  { intros m. unfold refs, with_entry. cbn [icache set_icache]. rewrite (sumZ_insert _ _ _ _ _ Hk). destruct (Z.eqb_spec m (i_inum j)), (Z.eqb_spec (i_inum i) m), (Z.eqb_spec (i_inum j) m); lia. }
  split; [done|done| |].
  - rewrite Hrefs, Hr, Z.eqb_refl. unfold nfree, with_entry. cbn [icache set_icache]. rewrite (sumZ_insert _ _ _ _ _ Hk). replace (i_ref i + (i_ref j - i_ref i)) with (i_ref j) by lia. lia.
  - intros k' i' Hk' Hi' Hp. destruct (decide (k' = k)) as [->|Hne].
    + simplify_eq. exists j. rewrite (with_entry_at _ _ _ _ Hk). rewrite Hrefs in Hp. destruct Hc as [|Hc]; [lia|]. rewrite Hc, Z.eqb_refl in Hp. split_and!; [done|done|lia].
    + exists i'. split_and!; [|done|done]. unfold with_entry. cbn. by rewrite list_lookup_insert_ne.
Qed.

Section Cache.
Context (fsz bm : Z).

(** [held] is the inode locked by this process. *)
Record entry_ok (d : ldisk) (held : Prop) (i : inode) : Prop := {
  eo_ref : 0 <= i_ref i;
  eo_held : held -> i_flags i = 3 /\ 0 < i_ref i;
  eo_idle : ~ held -> i_flags i = 0 \/ i_flags i = 2;
  eo_dev : 0 < i_ref i -> i_dev i = ROOTDEV;
  eo_copy : 0 < i_ref i -> i_flags i <> 0 -> i = copy d (i_inum i) (i_ref i) (i_flags i);
}.
Record coherent (held : option nat) (f : fsys) : Prop := {
  co_lock : ic_lock f = false;
  co_vol : vol fsz bm (dsk f);
  co_buf : ld_buf (dsk f) = ∅;
  co_log : NoDup (ld_log (dsk f)) /\ (length (ld_log (dsk f)) < NBUF)%nat;
  co_entry : forall k i, icache f !! k = Some i -> entry_ok (dsk f) (held = Some k) i;
  co_unique : forall k k' i i', icache f !! k = Some i -> icache f !! k' = Some i' -> 0 < i_ref i -> 0 < i_ref i' -> i_inum i = i_inum i' -> k = k';
}.
Lemma co_rbud f h : coherent h f -> rbud (dsk f) (list_to_set (ld_log (dsk f))).
Proof. intros H. destruct (co_log _ _ H). split; [done|unfold ld_pinned; rewrite (co_buf _ _ H); set_solver|by rewrite size_list_to_set]. Qed.

Lemma refs_entry h f k i : coherent h f -> icache f !! k = Some i -> 0 < i_ref i -> refs f (i_inum i) = i_ref i.
Proof.
  intros H Hk Hi. unfold refs. rewrite (sumZ_only _ _ k i Hk); [by rewrite Z.eqb_refl|]. intros j y Hj Hy. destruct (Z.eqb_spec (i_inum y) (i_inum i)) as [E|]; [|done].
  destruct (decide (0 < i_ref y)) as [Hp|]; [by destruct Hj; eapply (co_unique _ _ H)|]. pose proof (eo_ref _ _ _ (co_entry _ _ H _ _ Hy)). lia.
Qed.
Lemma refs_none h f n : coherent h f -> (forall k i, icache f !! k = Some i -> 0 < i_ref i -> i_inum i <> n) -> refs f n = 0.
Proof.
  intros H Hn. apply sumZ_zero. intros j y Hy. destruct (Z.eqb_spec (i_inum y) n); [|done]. destruct (decide (0 < i_ref y)); [by destruct (Hn j y)|]. pose proof (eo_ref _ _ _ (co_entry _ _ H _ _ Hy)). lia.
Qed.

Lemma coherent_entry h h' f k i j : coherent h f -> icache f !! k = Some i -> (forall k', k' <> k -> (h' = Some k' <-> h = Some k')) -> entry_ok (dsk f) (h' = Some k) j ->
  (0 < i_ref j -> refs f (i_inum j) = 0 \/ 0 < i_ref i /\ i_inum j = i_inum i) -> coherent h' (with_entry k j f).
Proof.
  intros H Hk Hh Hj Hu. assert (Hothers : 0 < i_ref j -> forall k' i', k' <> k -> icache f !! k' = Some i' -> 0 < i_ref i' -> i_inum i' <> i_inum j).
  { intros Hp k' i' Hne Hk' Hi' E. destruct (Hu Hp) as [Hz|[Hi Ei]]; [rewrite <- E, (refs_entry _ _ _ _ H Hk' Hi') in Hz; lia|]. apply Hne. eapply (co_unique _ _ H); [done|done|done|done|congruence]. }
  destruct H as [H1 H2 H3 H4 H5 H6]. split; try done; unfold with_entry; cbn [icache set_icache dsk].
  - intros k' i' [(<- & <- & _)|(Hne & Hi')]%list_lookup_insert_Some; [done|]. destruct (H5 _ _ Hi') as [? ? ? ? ?]. assert (Hne' : k' <> k) by done. specialize (Hh k' Hne'). split; tauto.
  - intros k1 k2 i1 i2 [(<- & <- & _)|(Hn1 & Hi1)]%list_lookup_insert_Some [(<- & <- & _)|(Hn2 & Hi2)]%list_lookup_insert_Some Hr1 Hr2 E; [done| | |by eapply H6].
    + by destruct (Hothers Hr1 k2 i2).
    + by destruct (Hothers Hr2 k1 i1).
Qed.

(** *** The operations *)

Lemma upd_run f k i g : icache f !! k = Some i -> upd_inode k g f = Ok tt (with_entry k (g i) f).
Proof. intros Hk. unfold upd_inode. mstep (inode_at_run f k i Hk). done. Qed.
Lemma acquire_run f : ic_lock f = false -> ic_acquire f = Ok tt (set_ic_lock true f).
Proof. apply acquire_ok. Qed.
Lemma release_run f : ic_lock f = true -> ic_release f = Ok tt (set_ic_lock false f).
Proof. apply release_ok. Qed.
(** An entry is changed under icache.lock. *)
Lemma locked_run f k i g : ic_lock f = false -> icache f !! k = Some i -> (ic_acquire;; upd_inode k g;; ic_release) f = Ok tt (with_entry k (g i) f).
Proof. intros Hl Hk. mstep (acquire_run f Hl). mstep (upd_run (set_ic_lock true f) k i g Hk). rewrite release_run by done. unfold with_entry. cbn. by destruct f; cbn in *; subst. Qed.
Lemma locked_steps f k i g : ic_lock f = false -> icache f !! k = Some i ->
  exists f1, upd_inode k g (set_ic_lock true f) = Ok tt f1 /\ ic_release f1 = Ok tt (with_entry k (g i) f).
Proof. intros Hl Hk. pose proof (locked_run f k i g Hl Hk) as E. rewrite (bind_ok _ _ _ _ _ (acquire_run f Hl)) in E. apply bind_inv in E as ([] & f1 & E1 & E2). by exists f1. Qed.
Lemma copy_of d i r fl : i_dev i = ROOTDEV -> i_ref i = r -> i_flags i = fl -> dip_load (ld_blk d (IBLOCK (i_inum i))) (dip_off (i_inum i)) i = copy d (i_inum i) r fl.
Proof. intros H <- <-. unfold copy, dip_load, set_meta. cbn. by rewrite H. Qed.

Record live (d : ldisk) (n : Z) : Prop := { li_block : 2 <= IBLOCK n < bm; li_type : i_type (copy d n 1 3) <> 0; li_nlink : i_nlink (copy d n 1 3) <> 0 }.

Lemma iput_run f k i : ic_lock f = false -> icache f !! k = Some i -> (i_ref i =? 1) && flag i I_VALID && (i_nlink i =? 0) = false -> iput k f = Ok tt (with_entry k (set_ref (i_ref i - 1) i) f).
Proof.
  intros Hl Hk Hn. destruct (locked_steps f k i (fun i => set_ref (i_ref i - 1) i) Hl Hk) as (f1 & E1 & E2). unfold iput. mstep (acquire_run f Hl). mstep (inode_at_run (set_ic_lock true f) k i Hk).
  rewrite Hn. unfold when. mrun1. mstep E1. done.
Qed.
Lemma iunlock_run f k d n r : ic_lock f = false -> 0 < r -> icache f !! k = Some (copy d n r 3) -> iunlock k f = Ok tt (with_entry k (copy d n r 2) f).
Proof. intros Hl Hr Hk. unfold iunlock. mstep (inode_at_run f k _ Hk). change (i_ref (copy d n r 3)) with r. rewrite (proj2 (Z.ltb_ge _ _)) by lia. change (flag (copy d n r 3) I_BUSY) with true. cbn [orb negb]. by rewrite (locked_run f k _ _ Hl Hk). Qed.
Lemma iunlockput_run f k d n r : ic_lock f = false -> 0 < r -> icache f !! k = Some (copy d n r 3) -> i_nlink (copy d n 1 3) <> 0 -> iunlockput k f = Ok tt (with_entry k (copy d n (r - 1) 2) f).
Proof.
  intros Hl Hr Hk Hn. unfold iunlockput. mstep (iunlock_run f k d n r Hl Hr Hk). rewrite (iput_run _ k (copy d n r 2)); [|done|by eapply with_entry_at|].
  - by rewrite with_entry_twice.
  - apply andb_false_iff. right. by apply Z.eqb_neq.
Qed.
(** The inode is read from the disk. *)
Lemma iload_run f k i W (d := dsk f) (n := i_inum i) : vol fsz bm d -> ld_buf d = ∅ -> rbud d W -> icache f !! k = Some i -> i_dev i = ROOTDEV -> i_flags i = 1 -> 2 <= IBLOCK n < bm -> i_type (copy d n 1 3) <> 0 ->
  (bp ← disk (bread (i_dev i) (IBLOCK n)); x ← disk (bdata bp); upd_inode k (dip_load x (dip_off n));; disk (brelse bp);;
   upd_inode k (fun i => set_iflags (Z.lor (i_flags i) I_VALID) i);; i ← inode_at k; when (i_type i =? 0) (panic "ilock: no type")) f = Ok tt (with_entry k (copy d n (i_ref i) 3) f).
Proof.
  intros Hv Hbuf HW Hk Hd Hf Hb Ht. rewrite Hd. pose proof (ge_range _ _ _ (vo_geom _ _ _ Hv)) as Hbm. rewrite (bind_ok _ _ _ _ _ (fs_bread f (IBLOCK n) _ HW ltac:(fold d; rewrite Hbuf; set_solver) ltac:(fold d; lia))).
  erewrite bind_ok; [|apply bdata_run; cbn; apply lookup_insert_eq].
  match goal with |- context [set_dsk ?x f] => set (f1 := set_dsk x f) end. mstep (upd_run f1 k i (dip_load (ld_blk d (IBLOCK n)) (dip_off n)) Hk). 
  assert (Ec : dip_load (ld_blk d (IBLOCK n)) (dip_off n) i = copy d n (i_ref i) 1) by (by apply copy_of). rewrite Ec.
  rewrite (bind_ok _ _ _ _ _ (fs_brelse (with_entry k (copy d n (i_ref i) 1) f1) (IBLOCK n) ltac:(cbn; apply lookup_insert_eq))).
  match goal with |- (_ ≫= _) ?x = _ => assert (x = with_entry k (copy d n (i_ref i) 1) f) as -> end.
  { unfold with_entry, f1, set_icache, set_dsk. cbn. f_equal. pose proof (buf_cycle f (IBLOCK n) (ld_blk d (IBLOCK n)) ltac:(fold d; rewrite Hbuf; set_solver)) as E. by apply (f_equal dsk) in E. }
  rewrite (bind_ok _ _ _ _ _ (upd_run _ k _ _ (with_entry_at k _ i f Hk))), with_entry_twice. rewrite (bind_ok _ _ _ _ _ (inode_at_run _ k _ (with_entry_at k _ i f Hk))).
  rewrite (proj2 (Z.eqb_neq _ _)) by exact Ht. done.
Qed.
Lemma ilock_run f k i (d := dsk f) (n := i_inum i) : coherent None f -> icache f !! k = Some i -> 0 < i_ref i -> live d n -> ilock k f = Ok tt (with_entry k (copy d n (i_ref i) 3) f).
Proof.
  intros H Hk Hr [Hb Ht _]. pose proof (co_entry _ _ H _ _ Hk) as He.
  assert (Hl := co_lock _ _ H). unfold ilock. mstep (inode_at_run f k i Hk). rewrite (proj2 (Z.ltb_ge _ _)) by lia. mstep (acquire_run f Hl). mstep (inode_at_run (set_ic_lock true f) k i Hk).
  destruct (locked_steps f k i (fun i => set_iflags (Z.lor (i_flags i) I_BUSY) i) Hl Hk) as (f1 & E1 & E2).
  pose proof (with_entry_at k (set_iflags (Z.lor (i_flags i) I_BUSY) i) i f Hk) as Hk1.
  destruct (eo_idle _ _ _ He ltac:(done)) as [Ef|Ef]; unfold flag at 1; rewrite Ef in *.
  - change (truth (Z.land 0 I_BUSY)) with false. cbn iota. mstep E1. mstep E2. mstep (inode_at_run _ k _ Hk1). cbn [set_iflags flag i_flags]. change (truth (Z.land (Z.lor 0 I_BUSY) I_VALID)) with false. cbn [negb when].
    etrans; [apply (iload_run (with_entry k (set_iflags (Z.lor 0 I_BUSY) i) f) k (set_iflags (Z.lor 0 I_BUSY) i) _ (co_vol _ _ H) (co_buf _ _ H) (co_rbud _ _ H)); try done; by apply (eo_dev _ _ _ He)|]. by rewrite with_entry_twice.
  - change (truth (Z.land 2 I_BUSY)) with false. cbn iota. mstep E1. mstep E2. mstep (inode_at_run _ k _ Hk1). cbn [set_iflags flag i_flags]. change (truth (Z.land (Z.lor 2 I_BUSY) I_VALID)) with true. cbn [negb when].
    do 2 f_equal. rewrite (eo_copy _ _ _ He Hr) by lia. by rewrite Ef.
Qed.

Lemma iget_scan_spec n : forall l s e, 
  match iget_scan l s ROOTDEV n e with
  | inl k => exists j i, k = (s + j)%nat /\ l !! j = Some i /\ 0 < i_ref i /\ i_inum i = n
  | inr r => (forall j i, l !! j = Some i -> 0 < i_ref i -> i_dev i = ROOTDEV -> i_inum i <> n) /\
      (r = e \/ e = None /\ exists j i, r = Some (s + j)%nat /\ l !! j = Some i /\ i_ref i = 0) /\
      (r = None -> e = None /\ forall j i, l !! j = Some i -> i_ref i <> 0)
  end.
Proof.
  induction l as [|i l IH]; intros s e; cbn; [by split; [|split; [left|]]|].
  destruct ((0 <? i_ref i) && (i_dev i =? ROOTDEV) && (i_inum i =? n)) eqn:Eh.
  { exists 0%nat, i. rewrite Nat.add_0_r. apply andb_true_iff in Eh as [[?%Z.ltb_lt _]%andb_true_iff ?%Z.eqb_eq]. done. }
  set (e' := match e with None => _ | Some _ => e end). specialize (IH (S s) e'). destruct (iget_scan l (S s) ROOTDEV n e') as [k|r].
  { destruct IH as (j & x & -> & H). exists (S j), x. split; [lia|done]. }
  destruct IH as (H1 & H2 & H3). split_and!.
  - intros [|j] x Hx; [|by apply (H1 j)]. simplify_eq/=. intros Hr Hd Hi. rewrite (proj2 (Z.ltb_lt _ _)), (proj2 (Z.eqb_eq _ _)), (proj2 (Z.eqb_eq _ _)) in Eh by done. done.
  - destruct H2 as [->|(He & j & x & -> & Hj & Hx)].
    + subst e'. destruct e as [e|]; [by left|]. destruct (Z.eqb_spec (i_ref i) 0); [|by left]. right. split; [done|]. exists 0%nat, i. by rewrite Nat.add_0_r.
    + right. split; [by destruct e; subst e'|]. exists (S j), x. by rewrite Nat.add_succ_r.
  - intros Hr. destruct (H3 Hr) as [He Hj]. subst e'. destruct e as [e|]; [done|]. split; [done|]. intros [|j] x Hx; [|by apply (Hj j)]. simplify_eq/=. by destruct (Z.eqb_spec (i_ref x) 0).
Qed.
Lemma more_refs h f k i : coherent h f -> icache f !! k = Some i -> 0 < i_ref i ->
  coherent h (with_entry k (set_ref (i_ref i + 1) i) f) /\ moved (i_inum i) 1 f (with_entry k (set_ref (i_ref i + 1) i) f).
Proof.
  intros H Hk Hr. destruct (co_entry _ _ H _ _ Hk) as [He1 He2 He3 He4 He5]. split.
  - eapply coherent_entry; [done|done|done| |intros _; by right]. split; cbn; [lia|intros Hh; split; [by apply He2|lia]|done|auto|]. intros _ Hf. exact (f_equal (set_ref (i_ref i + 1)) (He5 Hr Hf)).
  - pose proof (moved_entry f k i (set_ref (i_ref i + 1) i) Hk) as Hm. cbn in Hm. replace (i_ref i + 1 - i_ref i) with 1 in Hm by lia. apply Hm; [by eapply refs_entry|by right].
Qed.
Lemma iget_run h f n : coherent h f -> refs f n <> 0 \/ 0 < nfree f ->
  exists k f' i, iget ROOTDEV n f = Ok k f' /\ coherent h f' /\ moved n 1 f f' /\ icache f' !! k = Some i /\ i_inum i = n /\ 0 < i_ref i.
Proof.
  intros H Hroom. assert (Hl := co_lock _ _ H). unfold iget. mstep (acquire_run f Hl). mrun1. cbn [icache set_ic_lock].
  pose proof (iget_scan_spec n (icache f) 0 None) as Hs. destruct (iget_scan (icache f) 0 ROOTDEV n None) as [k|r].
  - destruct Hs as (j & i & -> & Hk & Hr & Hn). cbn [Nat.add]. destruct (locked_steps f j i (fun i => set_ref (i_ref i + 1) i) Hl Hk) as (f1 & E1 & E2). mstep E1. mstep E2.
    destruct (more_refs h f j i H Hk Hr) as [Hc Hm]. rewrite Hn in Hm. eexists j, _, _. split_and!; [done|done|done|by eapply with_entry_at|done|cbn; lia].
  - destruct Hs as (Hno & Hr & Hfull). assert (Hz : refs f n = 0). { eapply refs_none; [done|]. intros k i Hk Hi. apply (Hno k i Hk Hi). by apply (eo_dev _ _ _ (co_entry _ _ H _ _ Hk)). }
    destruct r as [k|]; [|exfalso; destruct (nfree_pos f) as (k & i & Hk & Hi); [lia|by destruct (proj2 (Hfull eq_refl) k i)]].
    destruct Hr as [?|(_ & j & i & [= ->] & Hk & Hi)]; [done|]. cbn [Nat.add]. destruct (locked_steps f j i (fun i => set_iflags 0 (set_ref 1 (set_id ROOTDEV n i))) Hl Hk) as (f1 & E1 & E2). mstep E1. mstep E2.
    assert (Hh : h <> Some j). { intros Hh. destruct (eo_held _ _ _ (co_entry _ _ H _ _ Hk) Hh). lia. }
    eexists j, _, _. split_and!; [done| | |by eapply with_entry_at|done|done].
    + eapply coherent_entry; [done|done|done| |intros _; by left]. by split; cbn; auto.
    + pose proof (moved_entry f j i (set_iflags 0 (set_ref 1 (set_id ROOTDEV n i))) Hk) as Hm. cbn in Hm. rewrite Hi in Hm. apply Hm; [done|by left].
Qed.
Lemma idup_run h f k i : coherent h f -> icache f !! k = Some i -> 0 < i_ref i ->
  exists f', idup k f = Ok k f' /\ coherent h f' /\ moved (i_inum i) 1 f f' /\ icache f' !! k = Some (set_ref (i_ref i + 1) i).
Proof.
  intros H Hk Hr. assert (Hl := co_lock _ _ H). unfold idup. mstep (acquire_run f Hl). destruct (locked_steps f k i (fun i => set_ref (i_ref i + 1) i) Hl Hk) as (f1 & E1 & E2). mstep E1. mstep E2.
  destruct (more_refs h f k i H Hk Hr) as [Hc Hm]. eexists. split_and!; [done|done|done|by eapply with_entry_at].
Qed.

(** ilock and iunlockput keep coherence; the reference goes with the latter. *)
Lemma ilock_coherent f k i : coherent None f -> icache f !! k = Some i -> 0 < i_ref i ->
  let f1 := with_entry k (copy (dsk f) (i_inum i) (i_ref i) 3) f in coherent (Some k) f1 /\ moved (i_inum i) 0 f f1.
Proof.
  intros H Hk Hr f1. split.
  - eapply coherent_entry; [done|done| | |intros _; by right].
    + intros k' Hne. split; [intros [=]; congruence|done].
    + split; try done; cbn; lia.
  - replace 0 with (i_ref (copy (dsk f) (i_inum i) (i_ref i) 3) - i_ref i) by (cbn; lia). apply (moved_entry f k i (copy (dsk f) (i_inum i) (i_ref i) 3) Hk); [exact (refs_entry None f k i H Hk Hr)|by right].
Qed.
Lemma iunlockput_coherent f k n r : coherent (Some k) f -> icache f !! k = Some (copy (dsk f) n r 3) ->
  let f1 := with_entry k (copy (dsk f) n (r - 1) 2) f in coherent None f1 /\ moved n (-1) f f1.
Proof.
  intros H Hk f1. assert (Hr : 0 < r) by (by apply (eo_held _ _ _ (co_entry _ _ H _ _ Hk))). split.
  - eapply coherent_entry; [done|done| | |intros _; by right].
    + intros k' Hne. split; [done|intros [=]; congruence].
    + split; try done; cbn; [lia|by right].
  - replace (-1) with (i_ref (copy (dsk f) n (r - 1) 2) - i_ref (copy (dsk f) n r 3)) by (cbn; lia). apply (moved_entry f k _ (copy (dsk f) n (r - 1) 2) Hk); [|by right]. by apply (refs_entry (Some k) f k _ H Hk).
Qed.

(** ** Walks *)

(** Inode [n] of the disk is a directory with the entries [E]. *)
Record isdir (d : ldisk) (n : Z) (A : list Z) (E : list (list Z)) : Prop := {
  id_live : live d n;
  id_map : forall r fl, imap bm d (copy d n r fl) A;
  id_size : 0 <= i_size (copy d n 1 3);
  id_len : nblk (i_size (copy d n 1 3)) = Z.of_nat (length A);
  id_type : i_type (copy d n 1 3) = T_DIR;
  id_bytes : contents d (copy d n 1 3) A = concat E;
  id_sizes : Forall (fun x => length x = 16%nat) E;
}.
(** Inode [n] of the disk is a file with the contents [img]. *)
Record isfile (d : ldisk) (n : Z) (A img : list Z) : Prop := {
  if_live : live d n;
  if_imap : forall r fl, imap bm d (copy d n r fl) A;
  if_sz : 0 <= i_size (copy d n 1 3) <= 512 * Z.of_nat (length A);
  if_nodev : i_type (copy d n 1 3) <> T_DEV;
  if_bytes : contents d (copy d n 1 3) A = img;
}.
(** The elements lead from inode [n] to an inode, or nowhere: an element is
    looked up in something that is not a directory, or in one that has not its
    name. *)
Inductive walks (d : ldisk) : Z -> list (list Z) -> option Z -> Prop :=
  | walk_done n : walks d n [] (Some n)
  | walk_file n e es : live d n -> i_type (copy d n 1 3) <> T_DIR -> walks d n (e :: es) None
  | walk_missing n e es A E : isdir d n A E -> dir_find (of_list e) E = None -> walks d n (e :: es) None
  | walk_step n e es A E k de r : isdir d n A E -> dir_find (of_list e) E = Some (k, de) -> walks d (de_inum de) es r -> walks d n (e :: es) r.

Lemma isdir_dirfile f k d n r A E : isdir d n A E -> dsk f = d -> icache f !! k = Some (copy d n r 3) -> dirfile bm f k (copy d n r 3) A E.
Proof.
  intros [Hli Hm Hs Hl Ht Hb Hz] <- Hk. split; [|done|done|done]. split; [done|apply Hm|done|done|apply Hli|]. change (i_type (copy (dsk f) n 1 3) <> T_DEV). by rewrite Ht.
Qed.
Lemma names_ext s t de : (forall u, namecmp s u = namecmp t u) -> names s de <-> names t de.
Proof. intros H. unfold names. by rewrite H. Qed.
Lemma dir_find_ext s t E : (forall u, namecmp s u = namecmp t u) -> dir_find s E = dir_find t E.
Proof.
  intros H. unfold dir_find. induction E as [|de E IH]; [done|]. cbn. destruct (decide (names s de)) as [Hn|Hn]; rewrite (names_ext s t de H) in Hn; [by rewrite decide_True|]. rewrite decide_False by done. by rewrite IH.
Qed.

Lemma refs_nonneg h f n : coherent h f -> 0 <= refs f n.
Proof. intros H. apply sumZ_nonneg. intros k i Hk. pose proof (eo_ref _ _ _ (co_entry _ _ H _ _ Hk)). destruct (_ =? _); lia. Qed.
Lemma moved_comp h n a b f g f' : coherent h f -> 0 <= a -> moved n a f g -> moved n b g f' -> moved n (a + b) f f'.
Proof.
  intros H Ha [H1 H2 H3 H4] [G1 G2 G3 G4]. split; [congruence| |destruct (refs f n =? 0), (refs g n =? 0), (refs f' n =? 0); lia|].
  - intros m. rewrite G2, H2. destruct (m =? n); lia.
  - intros k i Hk Hi Hp. destruct (H4 k i Hk Hi) as (j & Hj & En & Hr).
    + rewrite H2, (refs_entry h f k i H Hk Hi). destruct (i_inum i =? n); lia.
    + destruct (G4 k j Hj Hr) as (j' & Hj' & En' & Hr'); [by rewrite En|]. exists j'. split_and!; congruence.
Qed.
(** A reference to [n] becomes one to [m]. *)
Lemma moved_swap h n m f f1 f2 f3 : coherent h f -> moved n 1 f f1 -> moved m 1 f1 f2 -> moved n (-1) f2 f3 -> moved m 1 f f3.
Proof.
  intros H [H1 H2 H3 H4] [G1 G2 G3 G4] [K1 K2 K3 K4]. pose proof (refs_nonneg h f n H). pose proof (refs_nonneg h f m H).
  assert (Hrefs : forall x, refs f3 x = refs f x + (if x =? m then 1 else 0)). { intros x. rewrite K2, G2, H2. destruct (x =? n), (x =? m); lia. }
  split; [congruence|done| |].
  - revert H3 G3 K3. rewrite !Hrefs, !G2, !H2, !Z.eqb_refl, (Z.eqb_sym n m). destruct (Z.eqb_spec m n) as [->|]; repeat (case_match; try lia).
  - intros k i Hk Hi _. pose proof (refs_entry h f k i H Hk Hi) as Er.
    destruct (H4 k i Hk Hi) as (j & Hj & En & Hr); [rewrite H2; destruct (i_inum i =? n); lia|].
    destruct (G4 k j Hj Hr) as (j2 & Hj2 & En2 & Hr2); [rewrite En, G2, H2; destruct (i_inum i =? n), (i_inum i =? m); lia|].
    destruct (K4 k j2 Hj2 Hr2) as (j3 & Hj3 & En3 & Hr3); [rewrite En2, En, Hrefs; destruct (i_inum i =? m); lia|]. exists j3. split_and!; congruence.
Qed.

(** ** Path resolution *)

Section Walk.
Context (devsw : Z -> option ((nat -> Z -> M fsys (Z * list Z)) * (nat -> list Z -> M fsys Z))).

(** [f] is [f0] with one more reference, to inode [n], by entry [k]. *)
Record gained (f0 : fsys) (k : nat) (n : Z) (f : fsys) : Prop := {
  ga_coherent : coherent None f;
  ga_moved : moved n 1 f0 f;
  ga_at : exists i, icache f !! k = Some i /\ i_inum i = n /\ 0 < i_ref i;
}.
(** [f] is [f0] with the references as they were. *)
Definition settled (f0 f : fsys) : Prop := coherent None f /\ exists n, moved n 0 f0 f.

Definition resolved (f0 : fsys) (r : option Z) (o : option nat) (f : fsys) : Prop :=
  match r, o with
  | Some n, Some k => gained f0 k n f
  | None, None => settled f0 f
  | _, _ => False
  end.

Context (f0 : fsys) (H0 : coherent None f0) (Hroom : 2 <= nfree f0).

(** The inode is locked and let go. *)
Lemma visit_run f k n : gained f0 k n f -> live (dsk f0) n ->
  exists f1 r, ilock k f = Ok tt f1 /\ coherent (Some k) f1 /\ moved n 1 f0 f1 /\ icache f1 !! k = Some (copy (dsk f0) n r 3).
Proof.
  intros [Hc Hm (i & Hk & Hn & Hr)] Hl. rewrite <- (mv_dsk _ _ _ _ Hm) in *. subst n. destruct (ilock_coherent f k i Hc Hk Hr) as [Hc1 Hm1].
  eexists _, _. split_and!; [by apply ilock_run|done|by apply (moved_comp None _ 1 0 f0 f _ H0 ltac:(done) Hm)|by eapply with_entry_at].
Qed.
Lemma leave_run f k n r : coherent (Some k) f -> moved n 1 f0 f -> icache f !! k = Some (copy (dsk f0) n r 3) -> live (dsk f0) n ->
  exists f', iunlockput k f = Ok tt f' /\ settled f0 f'.
Proof.
  intros Hc Hm Hk Hl. rewrite <- (mv_dsk _ _ _ _ Hm) in *. destruct (iunlockput_coherent f k n r Hc Hk) as [Hc1 Hm1]. destruct (eo_held _ _ _ (co_entry _ _ Hc _ _ Hk) eq_refl) as [_ Hr].
  eexists. split; [apply iunlockput_run; [apply Hc|exact Hr|done|apply Hl]|]. split; [done|]. exists n. by apply (moved_comp None _ 1 (-1) f0 f _ H0 ltac:(done) Hm).
Qed.
Lemma step_run f k n r m : coherent (Some k) f -> moved n 1 f0 f -> icache f !! k = Some (copy (dsk f0) n r 3) -> live (dsk f0) n ->
  exists f' k' f'', iget ROOTDEV m f = Ok k' f' /\ iunlockput k f' = Ok tt f'' /\ gained f0 k' m f''.
Proof.
  intros Hc Hm Hk Hl. pose proof (mv_dsk _ _ _ _ Hm) as Hd. destruct (iget_run (Some k) f m Hc) as (k' & f' & i & E1 & Hc' & Hm' & Hk' & Hi & Hr).
  { pose proof (mv_free _ _ _ _ Hm) as Hf. right. destruct (refs f0 n =? 0), (refs f n =? 0); lia. }
  assert (Hi0 : 0 < refs f' (i_inum (copy (dsk f0) n r 3))). { rewrite (mv_refs _ _ _ _ Hm'), (refs_entry _ f k _ Hc Hk); [|by apply (eo_held _ _ _ (co_entry _ _ Hc _ _ Hk))]. destruct (eo_held _ _ _ (co_entry _ _ Hc _ _ Hk) eq_refl). destruct (_ =? _); lia. }
  destruct (mv_kept _ _ _ _ Hm' k _ Hk) as (j & Hj & Hn & Hjr); [by apply (eo_held _ _ _ (co_entry _ _ Hc _ _ Hk))|done|]. pose proof (co_entry _ _ Hc' _ _ Hj) as Hjo. destruct (eo_held _ _ _ Hjo eq_refl) as [Hj3 _].
  pose proof (eo_copy _ _ _ Hjo Hjr ltac:(lia)) as Ej. rewrite Hj3, Hn in Ej. change (i_inum (copy (dsk f0) n r 3)) with n in Ej. rewrite Ej in Hj. pose proof (mv_dsk _ _ _ _ Hm') as Hd'.
  destruct (iunlockput_coherent f' k n (i_ref j) Hc' Hj) as [Hc2 Hm2]. eexists f', k', _. split; [done|]. split; [apply iunlockput_run; [apply Hc'|done|done|rewrite Hd', Hd; apply Hl]|].
  pose proof (moved_swap None n m f0 f f' _ H0 Hm Hm' Hm2) as Hm3. split; [done|done|].
  destruct (mv_kept _ _ _ _ Hm2 k' i Hk' Hr) as (i' & ? & ? & ?); [|by exists i'; rewrite <- Hi]. pose proof (refs_nonneg _ _ m H0). rewrite (mv_refs _ _ _ _ Hm3), Hi, Z.eqb_refl. lia.
Qed.

Lemma namex_loop_run n es r : walks (dsk f0) n es r -> forall fuel path name f k, elems path = es -> 0 ∉ path -> (DIRSIZ <= length name)%nat -> (length path < fuel)%nat -> gained f0 k n f ->
  exists o name' f', namex_loop devsw fuel k path name false f = Ok (o, name') f' /\ resolved f0 r o f'.
Proof.
  induction 1 as [n|n e es Hl Ht|n e es A E Hd Hf|n e es A E j de r Hd Hf Hw IH]; intros fuel path name f k Hes H00 Hname Hfuel Hg; (destruct fuel as [|fuel]; [lia|]); cbn [namex_loop].
  - destruct (skipelem path name) as [[path' name']|] eqn:Es; [|by eexists _, _, _].
    destruct (skipelem_some _ _ _ _ H00 Hname Es) as (e & He & _). congruence.
  - destruct (skipelem path name) as [[path' name']|] eqn:Es; [|apply skipelem_none in Es; congruence].
    destruct (visit_run f k n Hg Hl) as (f1 & r & E1 & Hc1 & Hm1 & Hk1). mstep E1. mstep (inode_at_run f1 k _ Hk1). change (i_type (copy (dsk f0) n r 3)) with (i_type (copy (dsk f0) n 1 3)). rewrite (proj2 (Z.eqb_neq _ _) Ht). cbn [negb].
    destruct (leave_run f1 k n r Hc1 Hm1 Hk1 Hl) as (f2 & E2 & Hs). mstep E2. by eexists _, _, _.
  - destruct (skipelem path name) as [[path' name']|] eqn:Es; [|apply skipelem_none in Es; congruence]. pose proof (id_live _ _ _ _ Hd) as Hl.
    destruct (skipelem_some _ _ _ _ H00 Hname Es) as (e' & He & Hcmp & _). assert (e' = e) as -> by congruence.
    destruct (visit_run f k n Hg Hl) as (f1 & r & E1 & Hc1 & Hm1 & Hk1). mstep E1. mstep (inode_at_run f1 k _ Hk1). change (i_type (copy (dsk f0) n r 3)) with (i_type (copy (dsk f0) n 1 3)). rewrite (id_type _ _ _ _ Hd). cbn [negb T_DIR Z.eqb Pos.eqb andb].
    pose proof (dirlookup_run fsz bm devsw f1 k _ A E _ (co_vol _ _ Hc1) (isdir_dirfile f1 k _ n r A E Hd (mv_dsk _ _ _ _ Hm1) Hk1) (co_buf _ _ Hc1) (co_rbud _ _ Hc1) (of_list name')) as El. rewrite (dir_find_ext _ _ E Hcmp), Hf in El. mstep El.
    destruct (leave_run f1 k n r Hc1 Hm1 Hk1 Hl) as (f2 & E2 & Hs). mstep E2. by eexists _, _, _.
  - destruct (skipelem path name) as [[path' name']|] eqn:Es; [|apply skipelem_none in Es; congruence]. pose proof (id_live _ _ _ _ Hd) as Hl.
    destruct (skipelem_some _ _ _ _ H00 Hname Es) as (e' & He & Hcmp & H00' & Hlen & Hname'). assert (e' = e) as -> by congruence.
    destruct (visit_run f k n Hg Hl) as (f1 & r' & E1 & Hc1 & Hm1 & Hk1). mstep E1. mstep (inode_at_run f1 k _ Hk1). change (i_type (copy (dsk f0) n r' 3)) with (i_type (copy (dsk f0) n 1 3)). rewrite (id_type _ _ _ _ Hd). cbn [negb T_DIR Z.eqb Pos.eqb andb].
    pose proof (dirlookup_run fsz bm devsw f1 k _ A E _ (co_vol _ _ Hc1) (isdir_dirfile f1 k _ n r' A E Hd (mv_dsk _ _ _ _ Hm1) Hk1) (co_buf _ _ Hc1) (co_rbud _ _ Hc1) (of_list name')) as El. rewrite (dir_find_ext _ _ E Hcmp), Hf in El.
    destruct (step_run f1 k n r' (de_inum de) Hc1 Hm1 Hk1 Hl) as (f2 & k2 & f3 & Eg & Eu & Hg3). rewrite (bind_ok _ _ _ _ _ Eg) in El. mstep El. mstep Eu. apply IH; [congruence|done|done|lia|done].
Qed.

Lemma namei_run k i path r : icache f0 !! k = Some i -> 0 < i_ref i -> 0 ∉ path -> walks (dsk f0) (if bool_decide (head path = Some slash) then ROOTINO else i_inum i) (elems path) r ->
  exists o f', namei devsw k path f0 = Ok o f' /\ resolved f0 r o f'.
Proof.
  intros Hk Hi Hp Hw. assert (Hstart : exists k' f', (if bool_decide (head path = Some slash) then iget ROOTDEV ROOTINO else idup k) f0 = Ok k' f' /\ gained f0 k' (if bool_decide (head path = Some slash) then ROOTINO else i_inum i) f').
  { case_bool_decide.
    - destruct (iget_run None f0 ROOTINO H0) as (k' & f' & j & E & Hc & Hm & Hj); [lia|]. exists k', f'. split; [done|]. split; [done|done|by exists j].
    - destruct (idup_run None f0 k i H0 Hk Hi) as (f' & E & Hc & Hm & Hj). exists k, f'. split; [done|]. split; [done|done|]. eexists. split; [done|]. split; [done|cbn; lia]. }
  destruct Hstart as (k' & f' & E & Hg). unfold namei, namex. rewrite bind_assoc_run. mstep E. destruct (namex_loop_run _ _ _ Hw (S (length path)) path (replicate DIRSIZ 0) f' k') as (o & nm & f2 & E2 & Hr); [done|done|done|lia|done|].
  mstep E2. by exists o, f2.
Qed.
End Walk.
End Cache.

(** C15: namei resolves a path.  The path starts at the root inode if its first
    character is a slash and at the current directory otherwise, and its
    elements are what stands between slashes, as far as DIRSIZ characters go.
    If they lead to an inode through the directories on the disk, namei returns
    that inode with one more reference; if an element is missing or is looked
    up in a file, it returns null with all references as they were.  The disk
    and what every other reference points to are unchanged.  Two free entries
    of the inode cache are enough for a path of any length. *)
Theorem namei_correct fsz bm devsw f cwd ci path r :
  coherent fsz bm None f -> 2 <= nfree f -> icache f !! cwd = Some ci -> 0 < i_ref ci -> 0 ∉ path ->
  walks bm (dsk f) (if bool_decide (head path = Some slash) then ROOTINO else i_inum ci) (elems path) r ->
  exists o f', namei devsw cwd path f = Ok o f' /\ coherent fsz bm None f' /\ dsk f' = dsk f /\
    match r, o with
    | Some n, Some k => (exists i, icache f' !! k = Some i /\ i_inum i = n) /\ forall m, refs f' m = refs f m + if m =? n then 1 else 0
    | None, None => forall m, refs f' m = refs f m
    | _, _ => False
    end /\
    forall k i, icache f !! k = Some i -> 0 < i_ref i -> exists i', icache f' !! k = Some i' /\ i_inum i' = i_inum i /\ 0 < i_ref i'.
Proof.
  intros H Hroom Hk Hi Hp Hw. destruct (namei_run fsz bm devsw f H Hroom cwd ci path r Hk Hi Hp Hw) as (o & f' & E & Hr). exists o, f'. split; [done|]. pose proof (refs_entry fsz bm None f) as Hre.
  destruct r as [n|], o as [k|]; try done.
  - destruct Hr as [Hc [H1 H2 H3 H4] (j & ? & ? & ?)]. split_and!; [done|done|by exists j|done|]. intros k' i' Hk' Hi'. apply H4; [done|done|]. rewrite H2, (Hre k' i' H Hk' Hi'). destruct (i_inum i' =? n); lia.
  - destruct Hr as [Hc [n [H1 H2 H3 H4]]]. assert (Hsame : forall m, refs f' m = refs f m) by (intros m; rewrite H2; destruct (m =? n); lia).
    split_and!; [done|done|done|]. intros k' i' Hk' Hi'. apply H4; [done|done|]. by rewrite Hsame, (Hre k' i' H Hk' Hi').
Qed.

(** A volume with the directories "/" (inode 1) and "/d" (inode 2) and the file
    "/d/f" (inode 3); the current directory is "/d". *)
Definition tree_inodes : block :=
  let x := dip_store zeros (dip_off 1) (mkInode ROOTDEV 1 1 0 T_DIR 0 0 1 32 (6 :: replicate 12 0)) in
  let x := dip_store x (dip_off 2) (mkInode ROOTDEV 2 1 0 T_DIR 0 0 1 32 (7 :: replicate 12 0)) in
  dip_store x (dip_off 3) (mkInode ROOTDEV 3 1 0 T_FILE 0 0 1 5 (5 :: replicate 12 0)).
Definition root_ents : list (list Z) := [dirent 1 (of_list [46]); dirent 2 (of_list [100])].
Definition d_ents : list (list Z) := [dirent 1 (of_list [46; 46]); dirent 3 (of_list [102])].
Definition tree_blk (s : Z) : block :=
  if s =? 2 then tree_inodes else if s =? 4 then pad [255] else if s =? 6 then pad (concat root_ents) else if s =? 7 then pad (concat d_ents) else demo_blk s.
Definition tree_disk : ldisk := mkLdisk 40 10 tree_blk ∅ [] true.
Definition tree_fs : fsys := mkFsys false (mkInode ROOTDEV 2 1 0 0 0 0 0 0 [] :: replicate 3 (mkInode 0 0 0 0 0 0 0 0 0 [])) tree_disk.

Lemma tree_vol : vol 50 4 tree_disk.
Proof.
  split; [by split| | |done].
  - intros s Hs. apply Nat.eqb_eq. revert s Hs. apply (all_below (fun s => length (ld_blk tree_disk s) =? 512)%nat). vm_compute. reflexivity.
  - intros b Hb. apply (all_below (fun b => bit (ld_blk tree_disk 4) b) 5); [vm_compute; reflexivity|lia].
Qed.
Lemma tree_isdir n b E : (n, b, E) ∈ [(1, 6, root_ents); (2, 7, d_ents)] -> isdir 4 tree_disk n [b] E.
Proof.
  intros Hn. assert ((n = 1 /\ b = 6 /\ E = root_ents) \/ (n = 2 /\ b = 7 /\ E = d_ents)) as [(-> & -> & ->)|(-> & -> & ->)] by set_solver; clear Hn.
  all: split; [by split; vm_compute| |by vm_compute|by vm_compute|by vm_compute|by vm_compute|repeat constructor; by rewrite dirent_length].
  all: intros r fl; split; [done|done|done| |by vm_compute|apply NoDup_singleton|repeat constructor; vm_compute; done].
  - intros k Hk. apply Z.eqb_eq. revert k Hk. apply (all_below (fun k => fblock tree_disk (copy tree_disk 1 r fl) k =? default 0 ([6] !! Z.to_nat k))). vm_compute. reflexivity.
  - intros k Hk. apply Z.eqb_eq. revert k Hk. apply (all_below (fun k => fblock tree_disk (copy tree_disk 2 r fl) k =? default 0 ([7] !! Z.to_nat k))). vm_compute. reflexivity.
Qed.
Lemma tree_coherent : coherent 50 4 None tree_fs.
Proof.
  split; [done|apply tree_vol|done|split; [constructor|vm_compute; lia]| |].
  - intros k i Hk. assert (i = mkInode ROOTDEV 2 1 0 0 0 0 0 0 [] \/ i = mkInode 0 0 0 0 0 0 0 0 0 []) as [->| ->] by (do 4 (destruct k as [|k]; [injection Hk as <-; auto|]); done); split; cbn; auto; lia || done.
  - intros k k' i i' Hk Hk' Hr Hr'. assert (Hz : forall k i, icache tree_fs !! k = Some i -> 0 < i_ref i -> k = 0%nat) by (intros j x Hx ?; do 4 (destruct j as [|j]; [by injection Hx as <-|]); done).
    by rewrite (Hz k i), (Hz k' i').
Qed.
(** "/d/f", with slashes to spare, is inode 3, and "../d/f/x" is nothing. *)
Lemma namei_correct_witness :
  (exists k f' i, namei (fun _ => None) 0 [47; 47; 100; 47; 102; 47] tree_fs = Ok (Some k) f' /\ icache f' !! k = Some i /\ i_inum i = 3) /\
  (exists f', namei (fun _ => None) 0 [46; 46; 47; 100; 47; 102; 47; 120] tree_fs = Ok None f' /\ refs f' 2 = 1).
Proof.
  assert (W1 : walks 4 tree_disk 2 [[102]] (Some 3)) by (eapply walk_step; [apply tree_isdir; right; left|vm_compute; reflexivity|apply walk_done]).
  split.
  - destruct (namei_correct 50 4 (fun _ => None) tree_fs 0 (mkInode ROOTDEV 2 1 0 0 0 0 0 0 []) [47; 47; 100; 47; 102; 47] (Some 3) tree_coherent) as (o & f' & E & _ & _ & Hr & _).
    1,2,3: vm_compute; done. { set_solver. }
    { eapply walk_step; [apply tree_isdir; left|vm_compute; reflexivity|exact W1]. }
    destruct o as [k|]; [|destruct Hr]. destruct Hr as [(i & Hk & Hi) _]. exists k, f', i. split; [exact E|]. split; [exact Hk|exact Hi].
  - destruct (namei_correct 50 4 (fun _ => None) tree_fs 0 (mkInode ROOTDEV 2 1 0 0 0 0 0 0 []) [46; 46; 47; 100; 47; 102; 47; 120] None tree_coherent) as (o & f' & E & _ & _ & Hr & _).
    1,2,3: vm_compute; done. { set_solver. }
    { eapply walk_step; [apply tree_isdir; right; left|vm_compute; reflexivity|]. eapply walk_step; [apply tree_isdir; left|vm_compute; reflexivity|]. eapply walk_step; [apply tree_isdir; right; left|vm_compute; reflexivity|].
      apply walk_file; [by split; vm_compute|by vm_compute]. }
    destruct o as [k|]; [destruct Hr|]. exists f'. split; [exact E|]. rewrite Hr. vm_compute. reflexivity.
Defined.
