(* ===== verification/Mkfs.v ===== *)
(** * mkfs.c: the disk image

    The program of src/mkfs.c, which runs on the host and writes the disk that
    xv6 boots from.  Its state is the image file, sector by sector, and the
    counters of the program.  Structures on the host are lists of bytes; the
    host's byte order is the parameter [be], so that xshort and xint do what
    they are for.  The host answers an open of an input file with the chunks
    its reads return, and refuses to let the image grow beyond [quota]
    sectors.  exit(1) is [SExit]; the messages on the terminal are left out.

    [mkfs_correct] says what is on the image, [mkfs_kernel_reads] that the
    kernel of Fs.v finds the files there by name and reads them back. *)

From stdpp Require Import functions.
From S2P Require Import Prelude Str Interfaces Spinlock Bytes Log Disk Fs Fsblk Fsfile Fswrite Fsdir Fspath.

Definition nblocks : Z := 985.
Definition nlog : Z := LOGSIZE.
Definition ninodes : Z := 200.
Definition size_ : Z := 1024.

Record mkfs := mkMkfs {
  m_nsect : Z;            (** sectors of the image file *)
  m_sect : Z -> block;
  m_freeblock : Z;
  m_usedblocks : Z;
  m_freeinode : Z;
}.
Definition set_nsect v s := mkMkfs v (m_sect s) (m_freeblock s) (m_usedblocks s) (m_freeinode s).
Definition set_sect v s := mkMkfs (m_nsect s) v (m_freeblock s) (m_usedblocks s) (m_freeinode s).
Definition set_freeblock v s := mkMkfs (m_nsect s) (m_sect s) v (m_usedblocks s) (m_freeinode s).
Definition set_usedblocks v s := mkMkfs (m_nsect s) (m_sect s) (m_freeblock s) v (m_freeinode s).
Definition set_freeinode v s := mkMkfs (m_nsect s) (m_sect s) (m_freeblock s) (m_usedblocks s) v.
(** The program starts with an image that has no sectors yet. *)
Definition mkfs0 : mkfs := mkMkfs 0 (fun _ => zeros) 0 0 1.

Section Host.
Context (be : bool) (quota : Z).

(** Integers in the memory of the host. *)
Definition host_int (l : list Z) : Z := le_value (if be then rev l else l).
Definition host_bytes (n : nat) (x : Z) : list Z := if be then rev (le_bytes n x) else le_bytes n x.
Definition ld32 (l : list Z) (k : nat) : Z := host_int (slice l k 4).
Definition st32 (l : list Z) (k : nat) (x : Z) : list Z := splice l k (host_bytes 4 x).
Definition st16 (l : list Z) (k : nat) (x : Z) : list Z := splice l k (host_bytes 2 x).

Definition xshort (x : Z) : Z := host_int (le_bytes 2 x).
Definition xint (x : Z) : Z := host_int (le_bytes 4 x).

(** Sectors that are skipped read as zeros. *)
Definition wsect (sec : Z) (buf : block) : M mkfs unit :=
  s ← get;
  if quota <? sec + 1 then halt SExit
  else put (set_nsect (Z.max (m_nsect s) (sec + 1)) (set_sect (<[sec := buf]> (m_sect s)) s)).
Definition rsect (sec : Z) : M mkfs block :=
  s ← get;
  if sec <? m_nsect s then mret (m_sect s sec) else halt SExit.

Definition i2b (inum : Z) : Z := inum / IPB + 2.
Definition winode (inum : Z) (ip : list Z) : M mkfs unit :=
  buf ← rsect (i2b inum); wsect (i2b inum) (splice buf (dip_off inum) ip).
Definition rinode (inum : Z) : M mkfs (list Z) :=
  buf ← rsect (i2b inum); mret (slice buf (dip_off inum) 64).

Definition ialloc (type : Z) : M mkfs Z :=
  inum ← gets m_freeinode;
  modify (set_freeinode (inum ⊕ 1));;
  let din := replicate 64 0 in
  let din := st16 din 0 (xshort type) in
  let din := st16 din 6 (xshort 1) in
  let din := st32 din 8 (xint 0) in
  winode inum din;;
  mret inum.

(** The bitmap of the first [used] blocks. *)
Fixpoint used_bits (used : nat) : block :=
  match used with
  | O => zeros
  | S i => set_bit (used_bits i) (Z.of_nat i)
  end.
Definition balloc (used : Z) : M mkfs unit :=
  if negb (used <? 512 * 8) then panic "assert"
  else wsect (ninodes / IPB + 3) (used_bits (Z.to_nat used)).

(** [freeblock++; usedblocks++;] *)
Definition new_block : M mkfs Z :=
  b ← gets m_freeblock;
  u ← gets m_usedblocks;
  modify (set_freeblock (b ⊕ 1));;
  modify (set_usedblocks (u ⊕ 1));;
  mret b.
(** The offset of addrs[k] in struct dinode. *)
Definition o_addr (k : Z) : nat := (12 + 4 * Z.to_nat k)%nat.
(** The block for block [fbn] of the file, with the dinode that has it. *)
Definition iappend_direct (din : list Z) (fbn : Z) : M mkfs (list Z * Z) :=
  din ← (if xint (ld32 din (o_addr fbn)) =? 0 then b ← new_block; mret (st32 din (o_addr fbn) (xint b)) else mret din);
  mret (din, xint (ld32 din (o_addr fbn))).
Definition iappend_indirect (din : list Z) (fbn : Z) : M mkfs (list Z * Z) :=
  din ← (if xint (ld32 din (o_addr NDIRECT)) =? 0 then b ← new_block; mret (st32 din (o_addr NDIRECT) (xint b)) else mret din);
  let k := (4 * Z.to_nat (fbn - NDIRECT))%nat in
  indirect ← rsect (xint (ld32 din (o_addr NDIRECT)));
  indirect ← (if ld32 indirect k =? 0 then
                b ← new_block;
                let indirect := st32 indirect k (xint b) in
                wsect (xint (ld32 din (o_addr NDIRECT))) indirect;;
                mret indirect
              else mret indirect);
  mret (din, xint (ld32 indirect k)).
(** The loop, for the bytes [p] that are left. *)
Fixpoint iappend_loop (fuel : nat) (din : list Z) (off : Z) (p : list Z) : M mkfs (list Z * Z) :=
  match fuel with
  | O => halt SFuel
  | S fuel =>
      if 0 <? Z.of_nat (length p) then
        let fbn := off / 512 in
        if negb (fbn <? MAXFILE) then panic "assert"
        else
          '(din, x) ← (if fbn <? NDIRECT then iappend_direct din fbn else iappend_indirect din fbn);
          let n1 := Z.min (Z.of_nat (length p)) ((fbn + 1) * 512 - off) in
          buf ← rsect x;
          wsect x (splice buf (Z.to_nat (off - fbn * 512)) (take (Z.to_nat n1) p));;
          iappend_loop fuel din (off ⊕ n1) (drop (Z.to_nat n1) p)
      else mret (din, off)
  end.
Definition iappend (inum : Z) (p : list Z) : M mkfs unit :=
  din ← rinode inum;
  '(din, off) ← iappend_loop (S (length p)) din (xint (ld32 din 8)) p;
  winode inum (st32 din 8 (xint off)).

(** [bzero(&de, ..); de.inum = xshort(inum); strncpy(de.name, name, DIRSIZ);] *)
Definition de_bytes (inum : Z) (name : cstr) : list Z :=
  splice (st16 (replicate 16 0) 0 (xshort inum)) 2 (strncpy_bytes name DIRSIZ).

(** What the host has under a name: nothing, or the chunks that read returns. *)
Context (host_open : list Z -> option (list (list Z))).

Definition skip_underscore (name : list Z) : list Z :=
  match name with 95 :: name' => name' | _ => name end.
(** The body of the loop over the input files. *)
Definition add_file (rootino : Z) (arg : list Z) : M mkfs unit :=
  if bool_decide (slash ∈ arg) then panic "assert"
  else
    match host_open arg with
    | None => halt SExit
    | Some chunks =>
        inum ← ialloc T_FILE;
        iappend rootino (de_bytes inum (of_list (skip_underscore arg)));;
        mfor chunks (iappend inum)
    end.

Definition super : list Z :=
  concat (map (fun x => host_bytes 4 (xint x)) [size_; nblocks; ninodes; nlog]).

(** [main(argc, argv)] with [out]: argv[1] could be opened; Ok is exit(0). *)
Definition main (argv : list (list Z)) (out : bool) : M mkfs unit :=
  if Z.of_nat (length argv) <? 2 then halt SExit
  else if negb out then halt SExit
  else
    let bitblocks := size_ / (512 * 8) + 1 in
    let used := ninodes / IPB + 3 + bitblocks in
    modify (set_usedblocks used);;
    modify (set_freeblock used);;
    if negb (nblocks + used + nlog =? size_) then panic "assert"
    else
      mfor (seqZ 0 (nblocks + used + nlog)) (fun i => wsect i zeros);;
      wsect 1 (splice zeros 0 super);;
      rootino ← ialloc T_DIR;
      if negb (rootino =? ROOTINO) then panic "assert"
      else
        iappend rootino (de_bytes rootino (of_list [46]));;
        iappend rootino (de_bytes rootino (of_list [46; 46]));;
        mfor (drop 2 argv) (add_file rootino);;
        din ← rinode rootino;
        let off := xint (ld32 din 8) in
        let off := u32 ((off / BSIZE + 1) * BSIZE) in
        winode rootino (st32 din 8 (xint off));;
        used ← gets m_usedblocks;
        balloc used.
End Host.

(** ** Byte order *)

Definition octets (l : list Z) : Prop := Forall (fun b => 0 <= b < 256) l.
Create HintDb octets.
Lemma octets_le n x : octets (le_bytes n x).
Proof. revert x. induction n as [|n IH]; intros x; cbn; constructor; [apply Z.mod_pos_bound; lia|apply IH]. Qed.
Lemma octets_slice l k n : octets l -> octets (slice l k n).
Proof. intros H. by apply Forall_take, Forall_drop. Qed.
Lemma octets_splice l k y : octets l -> octets y -> octets (splice l k y).
Proof. intros H1 H2. unfold splice. apply Forall_app. split; [by apply Forall_take|]. apply Forall_app. split; [done|by apply Forall_drop]. Qed.
Lemma octets_zeros n : octets (replicate n 0).
Proof. apply Forall_replicate. lia. Qed.
Lemma octets_take n l : octets l -> octets (take n l).
Proof. apply Forall_take. Qed.
Lemma octets_drop n l : octets l -> octets (drop n l).
Proof. apply Forall_drop. Qed.
Lemma octets_app l l' : octets l -> octets l' -> octets (l ++ l').
Proof. intros. by apply Forall_app. Qed.
Lemma octets_put32 l k x : octets l -> octets (put32 l k x).
Proof. intros. apply octets_splice; [done|apply octets_le]. Qed.
Lemma octets_put16 l k x : octets l -> octets (put16 l k x).
Proof. intros. apply octets_splice; [done|apply octets_le]. Qed.
#[export] Hint Resolve octets_le octets_slice octets_splice octets_zeros octets_take octets_drop octets_app octets_put32 octets_put16 : octets.

Lemma le_bytes_inv l n : octets l -> length l = n -> le_bytes n (le_value l) = l.
Proof. intros H <-. by apply le_bytes_value. Qed.
Lemma le_value_rev0 l : octets l -> (le_value (rev l) =? 0) = (le_value l =? 0).
Proof.
  assert (Hz : forall l, octets l -> le_value l = 0 <-> Forall (eq 0) l).
  { clear. intros l H. induction H as [|b l Hb Hl IH]; [done|]. cbn. rewrite Forall_cons, <- IH. pose proof (le_value_range l Hl). lia. }
  intros H. apply eq_true_iff_eq. rewrite !Z.eqb_eq, !Hz; [|done|by apply Forall_rev]. split; intros G; [rewrite <- rev_involutive; by apply Forall_rev|by apply Forall_rev].
Qed.

Section Order.
Context (be : bool).
Lemma host_bytes_int l n : octets l -> length l = n -> host_bytes be n (host_int be l) = l.
Proof. intros H Hl. unfold host_bytes, host_int. destruct be; [rewrite le_bytes_inv|by apply le_bytes_inv]; [by rewrite rev_involutive|by apply Forall_rev|by rewrite length_rev]. Qed.
Lemma host_int_bytes l n : octets l -> length l = n -> host_int be (le_bytes n (host_int be l)) = le_value l.
Proof. intros H Hl. unfold host_int. destruct be; [rewrite le_bytes_inv|by rewrite le_bytes_inv]; [by rewrite rev_involutive|by apply Forall_rev|by rewrite length_rev]. Qed.
Lemma st32_xint l k x : st32 be l k (xint be x) = put32 l k x.
Proof. unfold st32, put32, xint. rewrite host_bytes_int; [done|auto with octets|apply le_bytes_length]. Qed.
Lemma st16_xshort l k x : st16 be l k (xshort be x) = put16 l k x.
Proof. unfold st16, put16, xshort. rewrite host_bytes_int; [done|auto with octets|apply le_bytes_length]. Qed.
Lemma xint_ld32 l k : octets l -> (k + 4 <= length l)%nat -> xint be (ld32 be l k) = get32 l k.
Proof. intros H Hk. unfold xint, ld32, get32. apply host_int_bytes; [auto with octets|by apply slice_length]. Qed.
Lemma ld32_null l k : octets l -> (ld32 be l k =? 0) = (get32 l k =? 0).
Proof. intros H. unfold ld32, get32, host_int. destruct be; [apply le_value_rev0|]; auto with octets. Qed.
End Order.

(** ** The image as the kernel sees it

    The bitmap is written last; until then [full] is the disk with every block
    marked in it. *)

Definition bmb : Z := ninodes / IPB + 3.
Definition home : Z := size_ - nlog.
Definition full (f : Z -> block) : ldisk := mkLdisk home nlog (<[bmb := replicate 512 255]> f) ∅ [] false.
Definition ino (din : list Z) : inode := dip_load din 0 (mkInode ROOTDEV 0 0 0 0 0 0 0 0 []).

Lemma imap_ext d d' i i' A : ld_size d' = ld_size d -> (forall b, ld_blk d' b = ld_blk d b) -> i_dev i' = i_dev i -> i_addrs i' = i_addrs i -> imap bmb d i A -> imap bmb d' i' A.
Proof.
  intros Es Eb Ed Ea [H1 H2 H3 H4 H5 H6 H7].
  assert (Eat : forall k, addr_at i' k = addr_at i k) by (intros k; unfold addr_at; by rewrite Ea).
  assert (Efp : footprint i' A = footprint i A) by (unfold footprint, indirect; by rewrite Eat).
  split; [congruence|congruence|done| |by rewrite Eat|by rewrite Efp|].
  - intros k Hk. rewrite <- H4 by done. unfold fblock. by rewrite !Eat, Eb.
  - rewrite Efp. eapply Forall_impl; [exact H7|]. intros b [? ?]. split; [by rewrite Es|by rewrite Eb].
Qed.
Lemma full_write f b x c : b <> bmb -> ld_blk (full (<[b := x]> f)) c = ld_blk (logged b x (full f)) c.
Proof.
  intros Hb. unfold full, logged. d_simpl. destruct (decide (c = bmb)) as [->|]; [by rewrite fn_lookup_insert, fn_lookup_insert_ne, fn_lookup_insert by done|].
  rewrite fn_lookup_insert_ne by done. destruct (decide (c = b)) as [->|]; [by rewrite !fn_lookup_insert|by rewrite !fn_lookup_insert_ne].
Qed.
Lemma full_blk f b : b <> bmb -> ld_blk (full f) b = f b.
Proof. intros. unfold full. cbn. by rewrite fn_lookup_insert_ne. Qed.
Lemma full_bit f b : 0 <= b < 4096 -> bit (ld_blk (full f) bmb) b = true.
Proof.
  intros Hb. unfold full. cbn [ld_blk]. rewrite fn_lookup_insert. unfold bit. assert (E : byte_at (replicate 512 255) (b / 8) = 255).
  { assert (b / 8 < 512) by (apply Z.div_lt_upper_bound; lia). unfold byte_at. assert (E : replicate 512 255 !! Z.to_nat (b / 8) = Some 255) by (apply lookup_replicate_2; lia). exact (f_equal (default 0) E). }
  rewrite E. clear E.
  assert (b mod 8 ∈ seqZ 0 8) as Hin by (apply elem_of_seqZ; pose proof (Z.mod_pos_bound b 8 ltac:(lia)); lia). revert Hin. generalize (b mod 8). intros c Hc.
  change (seqZ 0 8) with [0; 1; 2; 3; 4; 5; 6; 7] in Hc. repeat (apply elem_of_cons in Hc as [->|Hc]; [done|]). by apply not_elem_of_nil in Hc.
Qed.

Lemma ino_addr din k : 0 <= k < 13 -> addr_at (ino din) k = get32 din (o_addr k).
Proof.
  intros Hk. unfold addr_at, ino, dip_load, dip_addrs, o_addr. cbn [i_addrs set_meta]. rewrite list_lookup_fmap, lookup_seq_lt by lia. cbn. f_equal.
Qed.
Lemma ino_put din k b : length din = 64%nat -> 0 <= k < 13 -> 0 <= b < 2 ^ 32 -> i_addrs (ino (put32 din (o_addr k) b)) = i_addrs (set_addr k b (ino din)).
Proof.
  intros Hl Hk Hb. apply list_eq. intros j. unfold set_addr, ino, dip_load, dip_addrs. cbn [i_addrs set_meta set_addrs]. destruct (decide (j < 13)%nat) as [Hj|Hj].
  2:{ rewrite !lookup_ge_None_2; [done|rewrite ?length_insert, ?length_map, ?length_fmap, length_seq; lia..]. }
  rewrite list_lookup_fmap, lookup_seq_lt by lia. cbn [fmap option_fmap option_map]. destruct (decide (j = Z.to_nat k)) as [->|Hne].
  - rewrite list_lookup_insert_eq by (rewrite ?length_insert, ?length_map, ?length_fmap, length_seq; lia). f_equal. apply get32_put32; unfold o_addr; lia.
  - rewrite list_lookup_insert_ne, list_lookup_fmap, lookup_seq_lt by lia. cbn. f_equal. apply get32_put32_other; unfold o_addr; lia.
Qed.

(** ** The state while the image is built *)

Ltac geo := unfold full in *; cbn [ld_size] in *; change bmb with 28 in *; change home with 1014 in *; change size_ with 1024 in *; lia.

Record base (s : mkfs) : Prop := {
  ba_nsect : m_nsect s = size_;
  ba_len : forall b, length (m_sect s b) = 512%nat;
  ba_oct : forall b, octets (m_sect s b);
  ba_super : m_sect s 1 = splice zeros 0 (concat (map (le_bytes 4) [size_; nblocks; ninodes; nlog]));
  ba_used : m_usedblocks s = m_freeblock s;
  ba_free : bmb < m_freeblock s <= home;
  ba_zero : forall b, m_freeblock s <= b -> m_sect s b = zeros;
}.
Lemma base_vol s : base s -> vol size_ bmb (full (m_sect s)).
Proof.
  intros [H1 H2 H3 H4 H5 H6 H7]. split.
  - split; [|..].
    + rewrite full_blk, H4 by done. by vm_compute.
    + rewrite full_blk, H4 by done. by vm_compute.
    + by vm_compute.
    + by vm_compute.
  - intros b Hb. destruct (decide (b = bmb)) as [->|Hn]; [unfold full; cbn [ld_blk]; by rewrite fn_lookup_insert|by rewrite full_blk].
  - intros b Hb. apply full_bit. geo.
  - by vm_compute.
Qed.

(** Inode [i] of the image has the contents [C] in the blocks [A], the rest of
    which is zero. *)
Record file (s : mkfs) (i : inode) (A C : list Z) : Prop := {
  fi_map : imap bmb (full (m_sect s)) i A;
  fi_below : Forall (fun b => b < m_freeblock s) (footprint i A);
  fi_ind : addr_at i NDIRECT <> 0 -> NDIRECT < Z.of_nat (length A);
  fi_bytes : fbytes (full (m_sect s)) A = C ++ replicate (512 * length A - length C) 0;
}.
(** Blocks that a file of [n] bytes takes. *)
Definition cost (n : Z) : Z := nblk n + (if NDIRECT <? nblk n then 1 else 0).

(** A step in which a file grows. *)
Record grew (s : mkfs) (din A : list Z) (s' : mkfs) (din' A' : list Z) : Prop := {
  gr_base : base s';
  gr_len : length din' = 64%nat;
  gr_oct : octets din';
  gr_head : forall k, (k < 12)%nat -> din' !! k = din !! k;
  gr_inodes : m_freeinode s' = m_freeinode s;
  gr_mono : m_freeblock s <= m_freeblock s';
  gr_kept : forall b, b < m_freeblock s -> b ∉ footprint (ino din) A -> m_sect s' b = m_sect s b;
  gr_fp : forall b, b ∈ footprint (ino din') A' -> b ∈ footprint (ino din) A \/ m_freeblock s <= b < m_freeblock s';
}.
Lemma grew_trans s din A s1 din1 A1 s2 din2 A2 : grew s din A s1 din1 A1 -> grew s1 din1 A1 s2 din2 A2 -> grew s din A s2 din2 A2.
Proof.
  intros [G1 G2 G3 G4 G5 G6 G7 G8] [H1 H2 H3 H4 H5 H6 H7 H8]. split; try done; try lia.
  - intros k Hk. by rewrite H4, G4.
  - intros b Hb Hn. rewrite H7; [by apply G7|lia|]. intros [|]%G8; [done|lia].
  - intros b [|]%H8; [|lia]. destruct (G8 b); [done|by left|lia].
Qed.

Lemma file_frame s s' i i' A C : file s i A C -> i_dev i' = i_dev i -> i_addrs i' = i_addrs i -> m_freeblock s <= m_freeblock s' ->
  (forall b, b ∈ footprint i A -> m_sect s' b = m_sect s b) -> file s' i' A C.
Proof.
  intros [Hm Hb Hi Hc] Ed Ea Hle Hk.
  assert (Eat : forall k, addr_at i' k = addr_at i k) by (intros k; unfold addr_at; by rewrite Ea).
  assert (Efp : footprint i' A = footprint i A) by (unfold footprint, indirect; by rewrite Eat).
  assert (Hblk : forall b, b ∈ footprint i A -> ld_blk (full (m_sect s')) b = ld_blk (full (m_sect s)) b).
  { intros b Hin. pose proof (imap_data _ _ _ _ _ Hm Hin) as [[Hr _] _]. rewrite !full_blk by geo. by apply Hk. }
  split.
  - destruct Hm as [H1 H2 H3 H4 H5 H6 H7]. split; [congruence|congruence|done| |by rewrite Eat|by rewrite Efp|].
    + intros k Hr. rewrite <- H4 by done. unfold fblock. rewrite !Eat. destruct (k <? NDIRECT); [done|]. destruct (Z.eqb_spec (addr_at i NDIRECT) 0); [done|].
      rewrite Hblk; [done|]. apply elem_of_app. right. by apply in_indirect.
    + rewrite Efp. eapply Forall_impl; [exact H7|]. intros b [Hr _]. split; [done|]. apply full_bit. geo.
  - rewrite Efp. eapply Forall_impl; [exact Hb|]. cbn. lia.
  - by rewrite Eat.
  - rewrite <- Hc. unfold fbytes. f_equal. apply list_fmap_ext. intros k b Hkb. apply Hblk, elem_of_app. left. by eapply list_elem_of_lookup_2.
Qed.
Lemma file_block s i A C b : file s i A C -> b ∈ footprint i A -> bmb < b < m_freeblock s.
Proof. intros Hf Hb. pose proof (imap_data _ _ _ _ _ (fi_map _ _ _ _ Hf) Hb) as [[Hr _] _]. pose proof (proj1 (Forall_forall _ _) (fi_below _ _ _ _ Hf) b Hb). cbn in *. lia. Qed.

(** ** Sectors and new blocks *)

Section Build.
Context (be : bool) (quota : Z) (Hq : size_ <= quota).

Lemma wsect_ok s b x : b < size_ -> wsect quota b x s = Ok tt (set_nsect (Z.max (m_nsect s) (b + 1)) (set_sect (<[b := x]> (m_sect s)) s)).
Proof. intros Hb. unfold wsect. mrun1. by rewrite (proj2 (Z.ltb_ge _ _)) by lia. Qed.
Lemma wsect_run s b x : base s -> 0 <= b < size_ -> wsect quota b x s = Ok tt (set_sect (<[b := x]> (m_sect s)) s).
Proof.
  intros [H1 _ _ _ _ _ _] Hb. rewrite wsect_ok by lia. rewrite Z.max_l by lia. by destruct s.
Qed.
Lemma rsect_run s b : base s -> b < size_ -> rsect b s = Ok (m_sect s b) s.
Proof. intros [H1 _ _ _ _ _ _] Hb. unfold rsect. mrun1. by rewrite (proj2 (Z.ltb_lt _ _)) by lia. Qed.
Lemma base_write s b x : base s -> b <> 1 -> b < m_freeblock s -> length x = 512%nat -> octets x -> base (set_sect (<[b := x]> (m_sect s)) s).
Proof.
  intros [H1 H2 H3 H4 H5 H6 H7] Hb Hf Hl Ho. split; try done; cbn [m_sect set_sect m_freeblock].
  - intros c. destruct (decide (c = b)) as [->|]; [by rewrite fn_lookup_insert|by rewrite fn_lookup_insert_ne].
  - intros c. destruct (decide (c = b)) as [->|]; [by rewrite fn_lookup_insert|by rewrite fn_lookup_insert_ne].
  - by rewrite fn_lookup_insert_ne.
  - intros c Hc. rewrite fn_lookup_insert_ne by lia. by apply H7.
Qed.
Definition taken (s : mkfs) : mkfs := set_usedblocks (m_freeblock s + 1) (set_freeblock (m_freeblock s + 1) s).
Lemma new_block_run s : base s -> m_freeblock s < home -> new_block s = Ok (m_freeblock s) (taken s) /\ base (taken s).
Proof.
  intros [H1 H2 H3 H4 H5 H6 H7] Hf. split.
  - unfold new_block. do 2 mrun1. rewrite H5, !u32_id by geo. done.
  - split; try done; cbn [taken m_freeblock set_usedblocks set_freeblock m_sect]; [geo|]. intros b Hb. apply H7. geo.
Qed.

(** [xint(din.addrs[k])], and its assignment. *)
Lemma addr_read din k : length din = 64%nat -> octets din -> 0 <= k < 13 -> xint be (ld32 be din (o_addr k)) = addr_at (ino din) k.
Proof. intros Hl Ho Hk. rewrite ino_addr by done. apply xint_ld32; [done|]. unfold o_addr. lia. Qed.
Lemma addr_write din k b (din' := put32 din (o_addr k) b) : length din = 64%nat -> octets din -> 0 <= k < 13 -> 0 <= b < 2 ^ 32 ->
  st32 be din (o_addr k) (xint be b) = din' /\ length din' = 64%nat /\ octets din' /\ i_addrs (ino din') = i_addrs (set_addr k b (ino din)) /\ xint be (ld32 be din' (o_addr k)) = b /\ forall j, (j < 12)%nat -> din' !! j = din !! j.
Proof.
  intros Hl Ho Hk Hb. assert (Hl' : length din' = 64%nat) by (unfold din'; rewrite put32_length; unfold o_addr; lia). assert (Ho' : octets din') by (unfold din'; auto with octets).
  split_and!; [apply st32_xint|done|done|by apply ino_put| |].
  - rewrite xint_ld32 by (done || unfold o_addr; lia). apply get32_put32; [unfold o_addr; lia|done].
  - intros j Hj. apply splice_lookup_out; rewrite le_bytes_length; unfold o_addr; lia.
Qed.

(** ** The block for the next byte *)

Definition place (din : list Z) (fbn : Z) : M mkfs (list Z * Z) := if fbn <? NDIRECT then iappend_direct be din fbn else iappend_indirect be quota din fbn.

Lemma grew_refl s din A : base s -> length din = 64%nat -> octets din -> grew s din A s din A.
Proof. intros. split; try done. intros. by left. Qed.
Lemma addr_zero s i A C : file s i A C -> 0 <= Z.of_nat (length A) < NDIRECT -> addr_at i (Z.of_nat (length A)) = 0.
Proof.
  intros Hf Hl. pose proof (im_map _ _ _ _ (fi_map _ _ _ _ Hf) (Z.of_nat (length A))) as H. unfold MAXFILE, NDIRECT, NINDIRECT, fblock in *. rewrite (proj2 (Z.ltb_lt _ _)) in H by (unfold NDIRECT; lia).
  rewrite H by lia. by rewrite Nat2Z.id, lookup_ge_None_2.
Qed.
Lemma fresh_ok s i A C : base s -> file s i A C -> m_freeblock s < home -> (m_freeblock s ∉ footprint i A) /\ data_block bmb (full (m_sect s)) (m_freeblock s).
Proof.
  intros Hb Hf Hfr. pose proof (ba_free _ Hb). split.
  - intros Hin. pose proof (file_block _ _ _ _ _ Hf Hin). lia.
  - split; [geo|]. apply full_bit. geo.
Qed.
(** The file with one more block of zeros. *)
Lemma fbytes_more d A b C : fbytes d A = C ++ replicate (512 * length A - length C) 0 -> (length C <= 512 * length A)%nat -> ld_blk d b = zeros ->
  fbytes d (A ++ [b]) = C ++ replicate (512 * length (A ++ [b]) - length C) 0.
Proof.
  intros H Hl Hz. unfold fbytes in *. rewrite fmap_app, concat_app, H. cbn [fmap list_fmap concat]. rewrite Hz, app_nil_r, <- app_assoc. f_equal. unfold zeros. rewrite <- replicate_add. f_equal.
  rewrite length_app. cbn [length]. unfold BSIZE. lia.
Qed.

Section Place.
Context (s : mkfs) (din A C : list Z) (Hb : base s) (Hf : file s (ino din) A C) (Hl : length din = 64%nat) (Ho : octets din).
Local Notation n := (Z.of_nat (length C)).
Local Notation fbn := (n / 512).
Definition placed (s1 : mkfs) (din1 : list Z) (x : Z) : Prop := exists A1, grew s din A s1 din1 A1 /\ file s1 (ino din1) A1 C /\
  A1 !! Z.to_nat fbn = Some x /\ Z.of_nat (length A1) = fbn + 1.

Lemma place_mapped : Z.of_nat (length A) = fbn + 1 -> (n < 512 * MAXFILE) -> exists x, place din fbn s = Ok (din, x) s /\ placed s din x.
Proof.
  intros HA Hmax. assert (Hk : 0 <= fbn < MAXFILE) by (unfold MAXFILE, NDIRECT, NINDIRECT in *; Z.to_euclidean_division_equations; lia). pose proof (fi_map _ _ _ _ Hf) as Hm.
  destruct (lookup_lt_is_Some_2 A (Z.to_nat fbn)) as [x Hx]; [lia|]. destruct (imap_in _ _ _ _ _ _ Hx Hm) as [[[Hr _] _] _].
  pose proof (im_map _ _ _ _ Hm _ Hk) as Hfb. rewrite Hx in Hfb. change (default 0 (Some x)) with x in Hfb. exists x. split.
  2:{ exists A. split_and!; try done. by apply grew_refl. }
  revert Hfb. unfold place, fblock. destruct (Z.ltb_spec fbn NDIRECT) as [Hlt|Hge]; intros Hfb.
  - unfold iappend_direct. rewrite addr_read, Hfb by (done || unfold NDIRECT in *; lia). rewrite (proj2 (Z.eqb_neq x 0)) by geo. mrun1. rewrite addr_read, Hfb by (done || unfold NDIRECT in *; lia). done.
  - unfold iappend_indirect. rewrite !addr_read by (done || unfold NDIRECT in *; lia). destruct (Z.eqb_spec (addr_at (ino din) NDIRECT) 0) as [|Hi]; [geo|]. mrun1. rewrite !addr_read by (done || unfold NDIRECT in *; lia).
    pose proof (file_block _ _ _ _ _ Hf (imap_ind _ _ _ _ Hm Hi)) as Hxr. pose proof (ba_free _ Hb). rewrite full_blk in Hfb by geo.
    mstep (rsect_run s (addr_at (ino din) NDIRECT) Hb ltac:(geo)). pose proof (ba_len _ Hb (addr_at (ino din) NDIRECT)) as Hbl. pose proof (ba_oct _ Hb (addr_at (ino din) NDIRECT)) as Hbo.
    rewrite ld32_null, Hfb by done. rewrite (proj2 (Z.eqb_neq x 0)) by geo. mrun1. rewrite xint_ld32 by (done || unfold MAXFILE, NDIRECT, NINDIRECT in *; lia). by rewrite Hfb.
Qed.

Hypothesis (HA : Z.of_nat (length A) = fbn) (Hn : n = 512 * fbn).
Lemma place_direct : fbn < NDIRECT -> m_freeblock s < home -> exists din1 x, place din fbn s = Ok (din1, x) (taken s) /\ placed (taken s) din1 x.
Proof.
  intros Hk Hfr. assert (Hk0 : 0 <= fbn) by lia. set (b := m_freeblock s). pose proof (ba_free _ Hb) as Hfb. destruct (fresh_ok _ _ _ _ Hb Hf Hfr) as [Hnew Hdb]. fold b in Hnew, Hdb.
  destruct (addr_write din fbn b Hl Ho ltac:(unfold NDIRECT in *; lia) ltac:(geo)) as (Ew & Hl1 & Ho1 & Ea & Er & Hh). set (din1 := put32 din (o_addr fbn) b) in *. exists din1, b. split.
  - unfold place, iappend_direct. rewrite (proj2 (Z.ltb_lt _ _)) by done. rewrite addr_read by (done || unfold NDIRECT in *; lia). rewrite <- HA at 1. rewrite (addr_zero _ _ _ _ Hf) by lia. rewrite Z.eqb_refl.
    rewrite bind_assoc_run. mstep (proj1 (new_block_run s Hb Hfr)). mrun1. fold b. rewrite Ew, Er. done.
  - pose proof (imap_direct _ _ _ _ b (fi_map _ _ _ _ Hf) Hnew Hdb ltac:(lia)) as Hm. rewrite HA in Hm.
    assert (Hfp : forall c, c ∈ footprint (ino din1) (A ++ [b]) <-> c ∈ footprint (ino din) A \/ c = b).
    { intros c. assert (Ei : addr_at (ino din1) NDIRECT = addr_at (ino din) NDIRECT) by (unfold addr_at at 1; rewrite Ea; change (addr_at (set_addr fbn b (ino din)) NDIRECT = addr_at (ino din) NDIRECT); rewrite addr_set by (done || unfold NDIRECT in *; lia); by rewrite (proj2 (Z.eqb_neq _ _)) by (unfold NDIRECT in *; lia)).
      unfold footprint, indirect. rewrite Ei. rewrite !elem_of_app, list_elem_of_singleton. tauto. }
    assert (Hf1 : file (taken s) (ino din1) (A ++ [b]) C).
    { split.
      - eapply imap_ext; [done|done| |exact Ea|exact Hm]. done.
      - apply Forall_forall. intros c [Hc| ->]%Hfp; cbn; [pose proof (file_block _ _ _ _ _ Hf Hc); lia|lia].
      - unfold addr_at. rewrite Ea. change (addr_at (set_addr fbn b (ino din)) NDIRECT <> 0 -> NDIRECT < Z.of_nat (length (A ++ [b]))). rewrite addr_set by (done || unfold NDIRECT in *; lia). rewrite (proj2 (Z.eqb_neq _ _)) by (unfold NDIRECT in *; lia).
        intros Hi. pose proof (fi_ind _ _ _ _ Hf Hi). rewrite length_app. lia.
      - apply fbytes_more; [apply (fi_bytes _ _ _ _ Hf)|lia|]. cbn [m_sect taken set_usedblocks set_freeblock]. rewrite full_blk by geo. apply (ba_zero _ Hb). geo. }
    exists (A ++ [b]). split_and!; [|done| |rewrite length_app; cbn; lia].
    + split; try done; [by apply new_block_run|cbn; lia|]. intros c [Hc| ->]%Hfp; [by left|right; cbn; lia].
    + rewrite lookup_app_r by lia. by replace (Z.to_nat fbn - length A)%nat with 0%nat by lia.
Qed.

(** The indirect block is there. *)
Record indirect_ready (s0 : mkfs) (din0 : list Z) : Prop := {
  ir_grew : grew s din A s0 din0 A;
  ir_map : imap bmb (full (m_sect s0)) (ino din0) A;
  ir_addr : addr_at (ino din0) NDIRECT <> 0;
  ir_below : Forall (fun b => b < m_freeblock s0) (footprint (ino din0) A);
  ir_same : m_sect s0 = m_sect s;
  ir_free : m_freeblock s0 = m_freeblock s + (if fbn =? NDIRECT then 1 else 0);
}.
Lemma indirect_step : NDIRECT <= fbn -> m_freeblock s < home -> exists s0 din0,
  (if xint be (ld32 be din (o_addr NDIRECT)) =? 0 then b ← new_block; mret (st32 be din (o_addr NDIRECT) (xint be b)) else mret din) s = Ok din0 s0 /\ indirect_ready s0 din0.
Proof.
  intros Hk Hfr. rewrite addr_read by (done || unfold NDIRECT; lia). destruct (Z.eqb_spec (addr_at (ino din) NDIRECT) 0) as [Hi|Hi].
  - pose proof (im_ind _ _ _ _ (fi_map _ _ _ _ Hf) Hi). set (b := m_freeblock s). pose proof (ba_free _ Hb) as Hfb. destruct (fresh_ok _ _ _ _ Hb Hf Hfr) as [Hnew Hdb]. fold b in Hnew, Hdb.
    destruct (addr_write din NDIRECT b Hl Ho ltac:(unfold NDIRECT in *; lia) ltac:(geo)) as (Ew & Hl1 & Ho1 & Ea & Er & Hh). set (din1 := put32 din (o_addr NDIRECT) b) in *. exists (taken s), din1.
    split; [rewrite (bind_ok _ _ _ _ _ (proj1 (new_block_run s Hb Hfr))); fold b; by rewrite Ew|].
    assert (Hz : ld_blk (full (m_sect s)) b = zeros) by (rewrite full_blk by geo; apply (ba_zero _ Hb); geo).
    destruct (imap_indirect _ _ _ _ b (fi_map _ _ _ _ Hf) Hnew Hdb ltac:(geo) Hi Hz) as [Hm Ei]. assert (Ei1 : addr_at (ino din1) NDIRECT = b) by (rewrite <- Ei; unfold addr_at; by rewrite Ea).
    assert (Hfp : forall c, c ∈ footprint (ino din1) A <-> c ∈ footprint (ino din) A \/ c = b).
    { intros c. unfold footprint, indirect. rewrite Ei1, Hi, Z.eqb_refl, (proj2 (Z.eqb_neq b 0)) by geo. rewrite !elem_of_app, list_elem_of_singleton. set_solver. }
    split; [| |rewrite Ei1; geo| |done|cbn; rewrite (proj2 (Z.eqb_eq _ _)) by lia; lia].
    + split; try done; [by apply new_block_run|cbn; lia|]. intros c [Hc| ->]%Hfp; [by left|right; cbn; lia].
    + eapply imap_ext; [done|done| |exact Ea|exact Hm]. done.
    + apply Forall_forall. intros c [Hc| ->]%Hfp; cbn; [pose proof (file_block _ _ _ _ _ Hf Hc); lia|lia].
  - exists s, din. split; [done|]. pose proof (fi_ind _ _ _ _ Hf Hi). split; [by apply grew_refl|apply Hf|done|apply Hf|done|]. rewrite (proj2 (Z.eqb_neq _ _)) by lia. lia.
Qed.
Lemma place_indirect : NDIRECT <= fbn < MAXFILE -> m_freeblock s + (if fbn =? NDIRECT then 1 else 0) < home ->
  exists s1 din1 x, place din fbn s = Ok (din1, x) s1 /\ placed s1 din1 x /\ m_freeblock s1 = m_freeblock s + (if fbn =? NDIRECT then 1 else 0) + 1.
Proof.
  intros Hk Hfr. destruct (indirect_step ltac:(lia) ltac:(destruct (fbn =? NDIRECT); lia)) as (s0 & din0 & E0 & [Hg Hm Hx Hbe Hs Hfr0]). set (x := addr_at (ino din0) NDIRECT) in *. rewrite <- Hfr0 in Hfr |- *.
  destruct Hg as [Gb Gl Go Gh Gi Gm Gk Gf]. pose proof (imap_ind _ _ _ _ Hm Hx) as Hxin. pose proof (imap_data _ _ _ _ _ Hm Hxin) as [[Hxr _] _]. pose proof (proj1 (Forall_forall _ _) Hbe _ Hxin) as Hxb. cbn in Hxb. fold x in Hxr, Hxb.
  pose proof (ba_free _ Gb) as Hfb. set (b := m_freeblock s0) in *. set (o := (4 * Z.to_nat (fbn - NDIRECT))%nat). pose proof (ba_len _ Gb x) as Hbl. pose proof (ba_oct _ Gb x) as Hbo.
  assert (Hz : get32 (m_sect s0 x) o = 0).
  { pose proof (im_map _ _ _ _ Hm fbn ltac:(unfold NDIRECT in *; lia)) as H. unfold fblock in H. fold x in H. rewrite (proj2 (Z.ltb_ge _ _)), (proj2 (Z.eqb_neq x 0)), full_blk, lookup_ge_None_2 in H by (done || geo). exact H. }
  assert (Hox : (o + 4 <= 512)%nat) by (unfold o, MAXFILE, NDIRECT, NINDIRECT in *; lia). set (y := put32 (m_sect s0 x) o b).
  assert (Hyl : length y = 512%nat) by (unfold y; rewrite put32_length; lia). assert (Hyo : octets y) by (unfold y; auto with octets).
  destruct (new_block_run s0 Gb Hfr) as [E1 Hb1]. fold b in E1. set (s1 := set_sect (<[x := y]> (m_sect (taken s0))) (taken s0)). assert (Hb2 : base s1) by (apply base_write; try done; [geo|cbn; lia]).
  exists s1, din0, b. split; [|split; [|done]].
  - unfold place, iappend_indirect. rewrite (proj2 (Z.ltb_ge _ _)) by lia. mstep E0. rewrite !addr_read by (done || unfold NDIRECT; lia). fold x o. mstep (rsect_run s0 x Gb ltac:(geo)). rewrite ld32_null, Hz, Z.eqb_refl by done.
    rewrite bind_assoc_run. mstep E1. cbv zeta. rewrite st32_xint. fold y. rewrite bind_assoc_run. mstep (wsect_run (taken s0) x y Hb1 ltac:(geo)). mrun1. fold s1. rewrite xint_ld32 by (done || lia). unfold y. rewrite get32_put32 by (lia || geo). done.
  - assert (Hnew : b ∉ footprint (ino din0) A) by (intros Hin; pose proof (proj1 (Forall_forall _ _) Hbe _ Hin); cbn in *; lia). assert (Hdb : data_block bmb (full (m_sect s0)) b) by (split; [geo|apply full_bit; geo]).
    destruct (imap_entry _ _ _ (ino din0) A b (base_vol _ Gb) Hm Hx Hnew Hdb) as [Hm1 Hb1']; [lia|]. fold x in Hm1, Hb1'. rewrite full_blk in Hm1, Hb1' by geo. rewrite HA in Hm1, Hb1'. fold o y in Hm1, Hb1'.
    assert (Hblk : forall c, ld_blk (full (m_sect s1)) c = ld_blk (logged x y (full (m_sect s0))) c) by (intros c; apply full_write; geo).
    assert (Hfp : forall c, c ∈ footprint (ino din0) (A ++ [b]) <-> c ∈ footprint (ino din0) A \/ c = b) by (intros c; unfold footprint; rewrite !elem_of_app, list_elem_of_singleton; tauto).
    assert (HAx : fbytes (full (m_sect s1)) A = fbytes (full (m_sect s0)) A) by (rewrite <- Hb1'; unfold fbytes; f_equal; apply list_fmap_ext; intros; apply Hblk).
    exists (A ++ [b]). split_and!; [|split| |rewrite length_app; cbn; lia].
    + split; try done; [cbn; lia| |].
      * intros c Hc Hn'. cbn [m_sect s1 set_sect]. destruct (decide (c = x)) as [->|]; [|rewrite fn_lookup_insert_ne by done; by apply Gk]. destruct (Gf x Hxin); [done|lia].
      * intros c [Hc| ->]%Hfp; [destruct (Gf c Hc); [by left|right; cbn; lia]|right; cbn; lia].
    + apply (imap_ext (logged x y (full (m_sect s0))) _ (ino din0) _ (A ++ [b])); done.
    + apply Forall_forall. intros c [Hc| ->]%Hfp; cbn; [pose proof (proj1 (Forall_forall _ _) Hbe _ Hc); cbn in *; lia|lia].
    + intros _. rewrite length_app. cbn. unfold NDIRECT in *. lia.
    + apply fbytes_more; [rewrite HAx, Hs; apply Hf|lia|]. rewrite full_blk by geo. cbn [m_sect s1 set_sect]. rewrite fn_lookup_insert_ne by lia. apply (ba_zero _ Gb). geo.
    + rewrite lookup_app_r by lia. by replace (Z.to_nat fbn - length A)%nat with 0%nat by lia.
Qed.
End Place.

Lemma place_run s din A C (n := Z.of_nat (length C)) : base s -> file s (ino din) A C -> length din = 64%nat -> octets din -> Z.of_nat (length A) = nblk n -> n < 512 * MAXFILE ->
  m_freeblock s + cost (n + 1) - cost n <= home ->
  exists s1 din1 x, place din (n / 512) s = Ok (din1, x) s1 /\ placed s din A C s1 din1 x /\ m_freeblock s1 = m_freeblock s + cost (n + 1) - cost n.
Proof.
  intros Hb Hf Hl Ho HA Hmax Hroom. unfold cost, nblk, BSIZE in *. assert (0 <= n) by lia. destruct (decide (n mod 512 = 0)) as [Hm|Hm].
  - assert (E0 : (n + (512 - 1)) / 512 = n / 512) by (Z.to_euclidean_division_equations; lia). assert (E1 : (n + 1 + (512 - 1)) / 512 = n / 512 + 1) by (Z.to_euclidean_division_equations; lia). assert (E2 : n = 512 * (n / 512)) by (Z.to_euclidean_division_equations; lia).
    rewrite E0, E1 in *. destruct (Z.ltb_spec (n / 512) NDIRECT) as [Hk|Hk].
    + rewrite (proj2 (Z.ltb_ge _ _)), (proj2 (Z.ltb_ge _ _)) in Hroom |- * by lia. destruct (place_direct s din A C Hb Hf Hl Ho HA E2 Hk ltac:(lia)) as (din1 & x & E & Hp). exists (taken s), din1, x. split_and!; [done|done|cbn; lia].
    + assert (Ec : (n / 512 + 1 + (if NDIRECT <? n / 512 + 1 then 1 else 0)) - (n / 512 + (if NDIRECT <? n / 512 then 1 else 0)) = (if n / 512 =? NDIRECT then 1 else 0) + 1)
        by (destruct (Z.ltb_spec NDIRECT (n / 512 + 1)), (Z.ltb_spec NDIRECT (n / 512)), (Z.eqb_spec (n / 512) NDIRECT); lia).
      destruct (place_indirect s din A C Hb Hf Hl Ho HA E2) as (s1 & din1 & x & E & Hp & Hfr); [unfold n in *; lia|unfold n in *; lia|]. exists s1, din1, x. split_and!; [done|done|unfold n in *; lia].
  - assert (E0 : (n + (512 - 1)) / 512 = n / 512 + 1) by (Z.to_euclidean_division_equations; lia). assert (E1 : (n + 1 + (512 - 1)) / 512 = n / 512 + 1) by (Z.to_euclidean_division_equations; lia).
    rewrite E0, E1 in *. destruct (place_mapped s din A C Hb Hf Hl Ho HA Hmax) as (x & E & Hp). exists s, din, x. split_and!; [done|done|lia].
Qed.

(** The bytes of one block. *)
Lemma iappend_run1 s din A C x q (n := Z.of_nat (length C)) (k := n / 512) (s' := set_sect (<[x := splice (m_sect s x) (Z.to_nat (n - k * 512)) q]> (m_sect s)) s) :
  base s -> file s (ino din) A C -> length din = 64%nat -> octets din -> octets q -> A !! Z.to_nat k = Some x -> Z.of_nat (length A) = k + 1 -> n + Z.of_nat (length q) <= 512 * (k + 1) ->
  base s' /\ file s' (ino din) A (C ++ q) /\ grew s din A s' din A.
Proof.
  intros Hb Hf Hl Ho Hoq Hx HA Hfit. assert (Hin : x ∈ footprint (ino din) A) by (apply elem_of_app; left; by eapply list_elem_of_lookup_2).
  pose proof (file_block _ _ _ _ _ Hf Hin) as Hxr. pose proof (ba_len _ Hb x) as Hbl. assert (Hk : 0 <= n - k * 512 < 512 /\ 0 <= k) by (unfold k, n in *; Z.to_euclidean_division_equations; lia). set (o := Z.to_nat (n - k * 512)) in *.
  assert (Hspl : length (splice (m_sect s x) o q) = 512%nat) by (rewrite splice_length; lia).
  assert (Hb' : base s') by (apply base_write; try done; [geo|lia|apply octets_splice; [apply (ba_oct _ Hb)|done]]).
  assert (Hblk : forall c, ld_blk (full (m_sect s')) c = ld_blk (logged x (splice (m_sect s x) o q) (full (m_sect s))) c) by (intros c; apply full_write; geo).
  pose proof (fi_map _ _ _ _ Hf) as Hm. rewrite <- (full_blk (m_sect s)) in Hblk by geo.
  destruct (filed_write size_ bmb (mkFsys false [ino din] (full (m_sect s))) 0 (ino din) A (Z.to_nat k) x o q eq_refl (base_vol _ Hb) Hm Hx ltac:(lia)) as [_ _ _ _ Hm1 Hbs _ _]. cbn [dsk set_dsk] in Hm1, Hbs.
  split; [done|split].
  - split; [by apply (imap_ext (logged x (splice (ld_blk (full (m_sect s)) x) o q) (full (m_sect s))) _ (ino din))|apply Hf|apply Hf|].
    etrans; [unfold fbytes; apply (f_equal (@concat Z)), list_fmap_ext; intros; apply Hblk|]. etrans; [exact Hbs|]. rewrite (fi_bytes _ _ _ _ Hf). replace (512 * Z.to_nat k + o)%nat with (length C) by lia.
    unfold splice. rewrite take_app_length, drop_app_add, drop_replicate, <- app_assoc, length_app. do 3 f_equal. lia.
  - split; try done; [|intros; by left]. intros c Hc Hn. cbn [m_sect s' set_sect]. rewrite fn_lookup_insert_ne; [done|congruence].
Qed.

Lemma cost_mono a b : a <= b -> cost a <= cost b.
Proof.
  intros H. unfold cost. assert (nblk a <= nblk b) by (unfold nblk, BSIZE; apply Z.div_le_mono; lia). destruct (Z.ltb_spec NDIRECT (nblk a)), (Z.ltb_spec NDIRECT (nblk b)); lia.
Qed.
Lemma cost_block n m : 0 <= n -> 0 < m -> n + m <= 512 * (n / 512 + 1) -> nblk (n + m) = n / 512 + 1 /\ cost (n + m) = cost (n + 1).
Proof.
  intros Hn Hm Hle. assert (E1 : nblk (n + m) = n / 512 + 1) by (unfold nblk, BSIZE; Z.to_euclidean_division_equations; lia). assert (E2 : nblk (n + 1) = n / 512 + 1) by (unfold nblk, BSIZE; Z.to_euclidean_division_equations; lia).
  split; [done|]. unfold cost. by rewrite E1, E2.
Qed.

Lemma iappend_loop_run fuel : forall p s din A C (n := Z.of_nat (length C)) (m := n + Z.of_nat (length p)), base s -> file s (ino din) A C -> length din = 64%nat -> octets din -> octets p ->
  Z.of_nat (length A) = nblk n -> m <= 512 * MAXFILE -> m_freeblock s + cost m - cost n <= home -> (length p < fuel)%nat ->
  exists s' din' A', iappend_loop be quota fuel din n p s = Ok (din', m) s' /\ file s' (ino din') A' (C ++ p) /\ Z.of_nat (length A') = nblk m /\ grew s din A s' din' A' /\ m_freeblock s' = m_freeblock s + cost m - cost n.
Proof.
  induction fuel as [|fuel IH]; intros p s din A C n m Hb Hf Hl Ho Hp HA Hmax Hroom Hfu; [lia|]. cbn [iappend_loop]. destruct (Z.ltb_spec 0 (Z.of_nat (length p))) as [Hlt|Hge].
  2:{ assert (p = []) as -> by (destruct p; [done|cbn in Hge; lia]). exists s, din, A. assert (m = n) as -> by (unfold m; cbn; lia). rewrite app_nil_r. split_and!; try done; [by apply grew_refl|lia]. }
  assert (Hn0 : 0 <= n) by lia. assert (Hk : 0 <= n / 512 < MAXFILE /\ 0 <= n - n / 512 * 512 < 512) by (unfold MAXFILE, NDIRECT, NINDIRECT in *; Z.to_euclidean_division_equations; lia). rewrite (proj2 (Z.ltb_lt (n / 512) MAXFILE)) by lia. cbn [negb].
  set (n1 := Z.min (Z.of_nat (length p)) ((n / 512 + 1) * 512 - n)). assert (Hn1 : 0 < n1 /\ n1 <= Z.of_nat (length p) /\ n + n1 <= 512 * (n / 512 + 1)) by lia. set (q := take (Z.to_nat n1) p).
  assert (Hq1 : Z.of_nat (length q) = n1) by (unfold q; rewrite length_take; lia). destruct (cost_block n n1) as [En Ec]; [lia..|]. assert (Hc1 : cost (n + n1) <= cost m) by (apply cost_mono; lia).
  destruct (place_run s din A C Hb Hf Hl Ho HA) as (s1 & din1 & x & E1 & (A1 & Hg1 & Hf1 & Hx & HA1) & Hfr1); [fold n; lia|fold n; lia|]. fold n in Hfr1, Hx, HA1, E1.
  fold (place din (n / 512)). mstep E1. pose proof Hg1 as [Gb Gl Go _ _ _ _ _].
  assert (Hxr : bmb < x < m_freeblock s1) by (eapply file_block; [exact Hf1|]; apply elem_of_app; left; by eapply list_elem_of_lookup_2). pose proof (ba_free _ Gb).
  mstep (rsect_run s1 x Gb ltac:(geo)). fold n1 q. mstep (wsect_run s1 x (splice (m_sect s1 x) (Z.to_nat (n - n / 512 * 512)) q) Gb ltac:(geo)).
  destruct (iappend_run1 s1 din1 A1 C x q Gb Hf1 Gl Go (octets_take _ _ Hp) Hx HA1) as (Hb2 & Hf2 & Hg2); [fold n; lia|]. fold n in Hb2, Hf2, Hg2. set (s2 := set_sect _ s1) in *.
  rewrite u32_id by (unfold MAXFILE, NDIRECT, NINDIRECT in *; lia). assert (E2 : n + n1 = Z.of_nat (length (C ++ q))) by (rewrite length_app; lia). rewrite E2 in En, Ec, Hc1 |- *.
  assert (E3 : m = Z.of_nat (length (C ++ q)) + Z.of_nat (length (drop (Z.to_nat n1) p))) by (rewrite length_drop; unfold m; lia).
  assert (Hfr2 : m_freeblock s2 = m_freeblock s1) by done.
  destruct (IH (drop (Z.to_nat n1) p) s2 din1 A1 (C ++ q)) as (s' & din' & A' & E & Hf' & HA' & Hg' & Hfr'); try done; [auto with octets|lia|lia|rewrite <- E3; lia|rewrite length_drop; lia|].
  rewrite <- E3 in E, HA', Hfr'. rewrite <- app_assoc in Hf'. unfold q in Hf' at 1. rewrite take_drop in Hf'. exists s', din', A'. split_and!; try done; [|lia].
  eapply grew_trans; [exact Hg1|]. by eapply grew_trans.
Qed.

(** ** Inodes *)

Definition din_of (s : mkfs) (inum : Z) : list Z := slice (m_sect s (i2b inum)) (dip_off inum) 64.

Lemma i2b_range inum : 0 <= inum < ninodes -> 2 <= i2b inum < bmb /\ i2b inum = IBLOCK inum.
Proof. intros H. unfold i2b, IBLOCK, IPB. change bmb with 28. unfold ninodes in H. split; [|done]. Z.to_euclidean_division_equations; lia. Qed.
Lemma get32_slice x o k m : (k + 4 <= m)%nat -> get32 (slice x o m) k = get32 x (o + k).
Proof. intros H. unfold get32. by rewrite slice_slice. Qed.
Lemma get16_slice x o k m : (k + 2 <= m)%nat -> get16 (slice x o m) k = get16 x (o + k).
Proof. intros H. unfold get16. by rewrite slice_slice. Qed.

(** The kernel's copy of an inode is made of the bytes mkfs wrote. *)
Lemma copy_din f n r fl : 0 <= n < ninodes -> copy (full f) n r fl = dip_load (slice (f (i2b n)) (dip_off n) 64) 0 (mkInode ROOTDEV n r fl 0 0 0 0 0 []).
Proof.
  intros Hn. unfold copy, dip_load, dip_type, dip_addrs. destruct (i2b_range n Hn) as [Hr E]. rewrite <- E, full_blk by geo. rewrite !get16_slice, get32_slice by lia. rewrite !Nat.add_0_r, Nat.add_0_l. f_equal.
  apply list_fmap_ext. intros i k Hk%lookup_seq. rewrite get32_slice by lia. f_equal. lia.
Qed.

Lemma rinode_run s inum : base s -> 0 <= inum < ninodes -> rinode inum s = Ok (din_of s inum) s.
Proof. intros Hb Hi. destruct (i2b_range inum Hi) as [Hr _]. unfold rinode. mstep (rsect_run s (i2b inum) Hb ltac:(geo)). done. Qed.
Lemma din_length s inum : base s -> length (din_of s inum) = 64%nat.
Proof. intros Hb. unfold din_of. rewrite slice_length; [done|]. rewrite (ba_len _ Hb). apply dip_off_range. Qed.
Lemma din_octets s inum : base s -> octets (din_of s inum).
Proof. intros Hb. apply octets_slice, (ba_oct _ Hb). Qed.

Lemma dip_off_apart n m : 0 <= n -> 0 <= m -> n <> m -> i2b n = i2b m -> (dip_off n + 64 <= dip_off m \/ dip_off m + 64 <= dip_off n)%nat.
Proof. intros Hn Hm Hne E. unfold i2b, dip_off, IPB in *. Z.to_euclidean_division_equations; lia. Qed.

Definition wrote_inode (inum : Z) (din : list Z) (s : mkfs) : mkfs := set_sect (<[i2b inum := splice (m_sect s (i2b inum)) (dip_off inum) din]> (m_sect s)) s.
Lemma winode_run s inum din (s' := wrote_inode inum din s) : base s -> 0 <= inum < ninodes -> length din = 64%nat -> octets din ->
  winode quota inum din s = Ok tt s' /\ base s' /\ din_of s' inum = din /\ (forall n, 0 <= n -> n <> inum -> din_of s' n = din_of s n) /\ forall b, bmb <= b -> m_sect s' b = m_sect s b.
Proof.
  intros Hb Hi Hl Ho. destruct (i2b_range inum Hi) as [Hr _]. pose proof (ba_free _ Hb). pose proof (dip_off_range inum) as Hd. pose proof (ba_len _ Hb (i2b inum)) as Hbl.
  split_and!.
  - unfold winode. mstep (rsect_run s (i2b inum) Hb ltac:(geo)). rewrite wsect_run by (done || geo). done.
  - apply base_write; try done; [lia|geo|rewrite splice_length; lia|apply octets_splice; [apply (ba_oct _ Hb)|done]].
  - unfold din_of, s', wrote_inode. cbn [m_sect set_sect]. rewrite fn_lookup_insert, <- Hl. apply slice_splice_same. lia.
  - intros n Hn Hne. unfold din_of, s', wrote_inode. cbn [m_sect set_sect]. destruct (decide (i2b n = i2b inum)) as [E|E]; [|by rewrite fn_lookup_insert_ne]. rewrite E, fn_lookup_insert.
    pose proof (dip_off_range n). apply slice_splice_other; [lia|lia|]. rewrite Hl. destruct (dip_off_apart n inum) as [|]; [lia..|by left|by right].
  - intros b Hbb. unfold s', wrote_inode. cbn [m_sect set_sect]. rewrite fn_lookup_insert_ne by lia. done.
Qed.

(** ** The files on the image

    Inode [k + 1] is [F !! k]: its type, its blocks and its contents. *)

Record inode_is (s : mkfs) (inum t : Z) (A C : list Z) : Prop := {
  ii_type : get16 (din_of s inum) 0 = t;
  ii_nlink : get16 (din_of s inum) 6 = 1;
  ii_size : get32 (din_of s inum) 8 = Z.of_nat (length C);
  ii_file : file s (ino (din_of s inum)) A C;
  ii_blocks : Z.of_nat (length A) = nblk (Z.of_nat (length C));
}.
Definition blocks_of (s : mkfs) (inum : Z) (A : list Z) : list Z := footprint (ino (din_of s inum)) A.
Record laid (s : mkfs) (F : list (Z * list Z * list Z)) : Prop := {
  la_base : base s;
  la_count : m_freeinode s = Z.of_nat (length F) + 1;
  la_max : Z.of_nat (length F) < ninodes;
  la_inode : forall k t A C, F !! k = Some (t, A, C) -> inode_is s (Z.of_nat k + 1) t A C;
  la_apart : forall j k t A C t' A' C' b, F !! j = Some (t, A, C) -> F !! k = Some (t', A', C') -> j <> k -> b ∈ blocks_of s (Z.of_nat j + 1) A -> b ∉ blocks_of s (Z.of_nat k + 1) A';
}.

Lemma inode_frame s s' inum t A C : inode_is s inum t A C -> din_of s' inum = din_of s inum -> m_freeblock s <= m_freeblock s' -> (forall b, b ∈ blocks_of s inum A -> m_sect s' b = m_sect s b) -> inode_is s' inum t A C.
Proof. intros [H1 H2 H3 H4 H5] E Hf Hk. split; rewrite ?E; try done. by eapply file_frame. Qed.
(** One inode changes, in blocks of its own or new ones. *)
Lemma laid_change s s' F k t A C t' A' C' : laid s F -> F !! k = Some (t, A, C) -> base s' -> m_freeinode s' = m_freeinode s -> inode_is s' (Z.of_nat k + 1) t' A' C' ->
  (forall n, 0 <= n < ninodes -> n <> Z.of_nat k + 1 -> din_of s' n = din_of s n) -> m_freeblock s <= m_freeblock s' ->
  (forall b, bmb < b < m_freeblock s -> b ∉ blocks_of s (Z.of_nat k + 1) A -> m_sect s' b = m_sect s b) ->
  (forall b, b ∈ blocks_of s' (Z.of_nat k + 1) A' -> b ∈ blocks_of s (Z.of_nat k + 1) A \/ m_freeblock s <= b) -> laid s' (<[k := (t', A', C')]> F).
Proof.
  intros [Hb Hc Hx Hi Ha] Hk Hb' Hfi Hin Hd Hfr Hkeep Hnew. assert (Hlt : (k < length F)%nat) by (by eapply lookup_lt_Some).
  assert (Hold : forall j t0 A0 C0 b, j <> k -> F !! j = Some (t0, A0, C0) -> b ∈ blocks_of s (Z.of_nat j + 1) A0 -> bmb < b < m_freeblock s) by (intros j t0 A0 C0 b _ Hj Hin'; eapply file_block; [apply (Hi _ _ _ _ Hj)|exact Hin']).
  assert (Hbl : forall j A0 x, F !! j = Some x -> j <> k -> blocks_of s' (Z.of_nat j + 1) A0 = blocks_of s (Z.of_nat j + 1) A0) by (intros j A0 x Hj%lookup_lt_Some Hjk; unfold blocks_of; by rewrite Hd by lia).
  split; [done|rewrite length_insert; lia|by rewrite length_insert| |].
  - intros j t0 A0 C0 Hj. destruct (decide (j = k)) as [->|Hne]; [rewrite list_lookup_insert_eq in Hj by done; by injection Hj as <- <- <-|]. rewrite list_lookup_insert_ne in Hj by done.
    eapply inode_frame; [by apply Hi|apply Hd; apply lookup_lt_Some in Hj; lia|done|]. intros b Hbb. apply Hkeep; [by eapply Hold|]. by eapply Ha.
  - intros j l t0 A0 C0 t1 A1 C1 b Hj Hl Hjl Hbj Hbl'. destruct (decide (j = k)) as [->|Hj']; [|destruct (decide (l = k)) as [->|Hl']].
    + rewrite list_lookup_insert_eq in Hj by done. rewrite list_lookup_insert_ne in Hl by done. injection Hj as <- <- <-. erewrite Hbl in Hbl' by done.
      destruct (Hnew b Hbj) as [Hb0|Hb0]; [by eapply (Ha k l)|]. pose proof (Hold l _ _ _ b ltac:(done) Hl Hbl'). lia.
    + rewrite list_lookup_insert_eq in Hl by done. rewrite list_lookup_insert_ne in Hj by done. injection Hl as <- <- <-. erewrite Hbl in Hbj by done.
      destruct (Hnew b Hbl') as [Hb0|Hb0]; [by eapply (Ha j k)|]. pose proof (Hold j _ _ _ b ltac:(done) Hj Hbj). lia.
    + rewrite list_lookup_insert_ne in Hj, Hl by done. erewrite Hbl in Hbj by done. erewrite Hbl in Hbl' by done. by eapply (Ha j l).
Qed.

Lemma head_get din din' k w : (forall j, (j < 12)%nat -> din' !! j = din !! j) -> length din = 64%nat -> length din' = 64%nat -> (k + w <= 12)%nat -> slice din' k w = slice din k w.
Proof. intros H Hl Hl' Hk. apply slice_eq; [lia|lia|]. intros i Hi. apply H. lia. Qed.

Lemma iappend_run s F k t A C p (n := Z.of_nat (length C)) (m := n + Z.of_nat (length p)) : laid s F -> F !! k = Some (t, A, C) -> octets p -> m <= 512 * MAXFILE -> m_freeblock s + cost m - cost n <= home ->
  exists s' A', iappend be quota (Z.of_nat k + 1) p s = Ok tt s' /\ laid s' (<[k := (t, A', C ++ p)]> F) /\ m_freeblock s' = m_freeblock s + cost m - cost n.
Proof.
  intros Hla Hk Hp Hmax Hroom. pose proof (la_base _ _ Hla) as Hb. destruct (la_inode _ _ Hla _ _ _ _ Hk) as [I1 I2 I3 I4 I5]. assert (Hlt : (k < length F)%nat) by (by eapply lookup_lt_Some). pose proof (la_max _ _ Hla) as Hx.
  set (inum := Z.of_nat k + 1) in *. assert (Hin : 0 <= inum < ninodes) by lia. unfold iappend. mstep (rinode_run s inum Hb Hin). pose proof (din_length s inum Hb) as Hl. pose proof (din_octets s inum Hb) as Ho. set (din := din_of s inum) in *.
  rewrite xint_ld32, I3 by (done || lia). destruct (iappend_loop_run (S (length p)) p s din A C Hb I4 Hl Ho Hp I5 Hmax Hroom ltac:(lia)) as (s1 & din1 & A1 & E1 & Hf1 & HA1 & Hg1 & Hfr1). fold n m in E1, Hf1, HA1, Hfr1. mstep E1. rewrite st32_xint.
  destruct Hg1 as [Gb Gl Go Gh Gi Gm Gk Gf]. set (din2 := put32 din1 8 m). assert (Hl2 : length din2 = 64%nat) by (unfold din2; rewrite put32_length; lia). assert (Ho2 : octets din2) by (unfold din2; auto with octets).
  destruct (winode_run s1 inum din2 Gb Hin Hl2 Ho2) as (E2 & Hb2 & D1 & D2 & Hk2). set (s2 := wrote_inode inum din2 s1) in *. exists s2, A1. split; [exact E2|]. split; [|exact Hfr1].
  assert (Hwin : 0 <= m < 2 ^ 32) by (unfold m, n, MAXFILE, NDIRECT, NINDIRECT in *; lia).
  assert (Ea : i_addrs (ino din2) = i_addrs (ino din1)) by (unfold ino, dip_load, dip_addrs; cbn [i_addrs set_meta]; apply list_fmap_ext; intros i j Hj%lookup_seq; unfold din2; apply get32_put32_other; lia).
  assert (Efp : footprint (ino din2) A1 = footprint (ino din1) A1) by (unfold footprint, indirect, addr_at; by rewrite Ea).
  assert (Hold : forall b, b < m_freeblock s -> b <> i2b inum -> b ∉ footprint (ino din) A -> m_sect s2 b = m_sect s b).
  { intros b Hb0 Hb1 Hb3. rewrite <- (Gk b Hb0 Hb3). unfold s2, wrote_inode. cbn [m_sect set_sect]. by rewrite fn_lookup_insert_ne. }
  assert (Hfb : forall b, b ∈ footprint (ino din) A -> bmb < b) by (intros b Hb0; pose proof (file_block _ _ _ _ _ I4 Hb0); lia).
  assert (Hslot : forall w o, (o + w <= 8)%nat -> slice din2 o w = slice din o w).
  { intros w o Hw. unfold din2, put32. rewrite slice_splice_other; [|rewrite le_bytes_length; lia|lia|left; lia]. apply (head_get din din1); [done|done|done|lia]. }
  eapply laid_change; [exact Hla|exact Hk|done|done| | |done| |].
  - fold inum. split; rewrite ?D1.
    + rewrite <- I1. unfold get16. by rewrite Hslot by lia.
    + rewrite <- I2. unfold get16. by rewrite Hslot by lia.
    + unfold din2. rewrite get32_put32 by (lia || done). unfold m, n. rewrite length_app. lia.
    + eapply file_frame; [exact Hf1|done|exact Ea|done|]. intros b Hb0. apply Hk2. pose proof (file_block _ _ _ _ _ Hf1 Hb0). lia.
    + rewrite HA1. f_equal. unfold m, n. rewrite length_app. lia.
  - intros j Hj0 Hj. fold inum in Hj. rewrite D2 by lia. unfold din_of. destruct (i2b_range j Hj0) as [Hr _]. rewrite Gk; [done|pose proof (ba_free _ Hb); geo|]. intros Hf%Hfb. lia.
  - intros b Hr Hn. fold inum din in Hn. apply Hold; [lia| |done]. destruct (i2b_range inum Hin). lia.
  - intros b Hb0. unfold blocks_of in Hb0. fold inum in Hb0. rewrite D1, Efp in Hb0. fold inum din. destruct (Gf b Hb0); [by left|right; lia].
Qed.

Lemma file_empty s i : i_dev i = ROOTDEV -> i_addrs i = replicate 13 0 -> file s i [] [].
Proof.
  intros Hd Ha. assert (Hat : forall k, addr_at i k = 0) by (intros k; unfold addr_at; rewrite Ha; destruct (replicate 13 0 !! Z.to_nat k) as [x|] eqn:E; [by apply lookup_replicate in E as [-> _]|done]).
  assert (Efp : footprint i [] = []) by (unfold footprint, indirect; by rewrite Hat). split; [|rewrite Efp; by constructor|by rewrite Hat|done].
  split; [done|by rewrite Ha|done| |done|rewrite Efp; apply NoDup_nil_2|rewrite Efp; by constructor]. intros k Hk. unfold fblock. rewrite !Hat. cbn. by destruct (k <? NDIRECT).
Qed.
Lemma ialloc_run s F t : laid s F -> Z.of_nat (length F) + 1 < ninodes -> t = T_DIR \/ t = T_FILE ->
  exists s', ialloc be quota t s = Ok (Z.of_nat (length F) + 1) s' /\ laid s' (F ++ [(t, [], [])]) /\ m_freeblock s' = m_freeblock s.
Proof.
  intros [Hb Hc Hx Hi Ha] Hmax Ht. set (inum := Z.of_nat (length F) + 1) in *. unfold ialloc. mrun1. rewrite Hc, (u32_id (inum + 1)) by (unfold ninodes in Hmax; lia). mrun1.
  set (s0 := set_freeinode (inum + 1) s). assert (Hb0 : base s0) by (destruct Hb; by split). cbv zeta. rewrite !st16_xshort, st32_xint.
  set (din := put32 (put16 (put16 (replicate 64 0) 0 t) 6 1) 8 0).
  assert (Hdin : length din = 64%nat /\ get16 din 0 = t /\ get16 din 6 = 1 /\ get32 din 8 = 0 /\ i_addrs (ino din) = replicate 13 0) by (destruct Ht as [-> | ->]; by vm_compute). destruct Hdin as (Hl & T1 & T2 & T3 & T4).
  assert (Ho : octets din) by (unfold din; auto 6 with octets).
  destruct (winode_run s0 inum din Hb0 ltac:(lia) Hl Ho) as (E & Hb1 & D1 & D2 & Hk). set (s1 := wrote_inode inum din s0) in *. exists s1. mstep E. split; [done|]. split; [|done].
  assert (Hlast : forall k x, (F ++ [(t, [], [])]) !! k = Some x -> F !! k = Some x /\ (k < length F)%nat \/ k = length F /\ x = (t, [], [])).
  { intros k x [Hkx|[Hge Hkx]]%lookup_app_Some; [left; split; [done|by eapply lookup_lt_Some]|]. right. apply list_lookup_singleton_Some in Hkx as [? <-]. split; [lia|done]. }
  assert (Hfp : blocks_of s1 inum [] = []) by (unfold blocks_of, footprint, indirect, addr_at; rewrite D1, T4; done).
  assert (Hold : forall k A, (k < length F)%nat -> blocks_of s1 (Z.of_nat k + 1) A = blocks_of s (Z.of_nat k + 1) A) by (intros k A Hkl; unfold blocks_of; by rewrite D2 by lia).
  split; [done|rewrite length_app; cbn; lia|rewrite length_app; cbn; lia| |].
  - intros k t0 A C [[Hk0 Hkl]|[-> [= -> -> ->]]]%Hlast.
    + eapply inode_frame; [by apply Hi|by rewrite D2 by lia|done|]. intros b Hbb. rewrite Hk; [done|]. pose proof (file_block _ _ _ _ _ (ii_file _ _ _ _ _ (Hi _ _ _ _ Hk0)) Hbb). lia.
    + fold inum. split; rewrite ?D1; try done. by apply file_empty.
  - intros j k t0 A C t' A' C' b [[Hj Hjl]|[-> [= -> -> ->]]]%Hlast [[Hk' Hkl]|[-> [= -> -> ->]]]%Hlast Hne Hbj; [| | |lia].
    + rewrite Hold in Hbj |- * by done. exact (Ha j k t0 A C t' A' C' b Hj Hk' Hne Hbj).
    + fold inum. rewrite Hfp. apply not_elem_of_nil.
    + fold inum in Hbj. rewrite Hfp in Hbj. by apply not_elem_of_nil in Hbj.
Qed.

Lemma chunks_run chunks : forall s F k t A C (n := Z.of_nat (length C)) (m := n + Z.of_nat (length (concat chunks))), laid s F -> F !! k = Some (t, A, C) -> Forall octets chunks -> m <= 512 * MAXFILE ->
  m_freeblock s + cost m - cost n <= home ->
  exists s' A', mfor chunks (iappend be quota (Z.of_nat k + 1)) s = Ok tt s' /\ laid s' (<[k := (t, A', C ++ concat chunks)]> F) /\ m_freeblock s' = m_freeblock s + cost m - cost n.
Proof.
  induction chunks as [|c chunks IH]; intros s F k t A C n m Hla Hk Ho Hmax Hroom; cbn [mfor concat].
  { exists s, A. rewrite app_nil_r, list_insert_id by done. assert (m = n) as -> by (unfold m; cbn; lia). split_and!; [done|done|lia]. }
  apply Forall_cons in Ho as [Hc Ho]. unfold m in *. cbn [concat] in *. rewrite length_app in Hmax, Hroom |- *. pose proof (cost_mono (n + Z.of_nat (length c)) (n + Z.of_nat (length c + length (concat chunks))) ltac:(lia)).
  destruct (iappend_run s F k t A C c Hla Hk Hc) as (s1 & A1 & E1 & Hla1 & Hfr1); [fold n; lia|fold n; lia|]. fold n in Hfr1. mstep E1.
  assert (En : Z.of_nat (length (C ++ c)) = n + Z.of_nat (length c)) by (rewrite length_app; lia).
  destruct (IH s1 (<[k := (t, A1, C ++ c)]> F) k t A1 (C ++ c)) as (s' & A' & E & Hla' & Hfr'); try done.
  - apply list_lookup_insert_eq. by eapply lookup_lt_Some.
  - rewrite En. lia.
  - rewrite En, <- Z.add_assoc, <- Nat2Z.inj_add. lia.
  - rewrite En, <- Z.add_assoc, <- Nat2Z.inj_add in Hfr'. rewrite list_insert_insert_eq, <- app_assoc in Hla'. exists s', A'. split_and!; [done|done|lia].
Qed.

(** ** The input files *)

Lemma le_bytes_u16 x : le_bytes 2 (u16 x) = le_bytes 2 x.
Proof. cbn [le_bytes]. unfold u16. change (2 ^ 16) with (256 * 256). rewrite Z.rem_mul_r by lia. f_equal; [|f_equal]; Z.to_euclidean_division_equations; lia. Qed.
Lemma de_bytes_eq inum name : de_bytes be inum name = dirent inum name.
Proof.
  unfold de_bytes, dirent. rewrite st16_xshort, le_bytes_u16. unfold put16, splice. rewrite !le_bytes_length, strncpy_bytes_length. cbn [take]. rewrite app_nil_l.
  rewrite take_app_le, take_ge by (rewrite le_bytes_length; lia). rewrite drop_ge by (rewrite length_app, le_bytes_length, length_drop, length_replicate; unfold DIRSIZ; lia). by rewrite app_nil_r.
Qed.
Lemma octets_strncpy l n : octets l -> octets (strncpy_bytes (of_list l) n).
Proof.
  assert (H : forall n t, (forall i, 0 <= t i < 256) -> octets (strncpy_bytes t n)).
  { clear. induction n as [|n IH]; intros t Ht; cbn [strncpy_bytes]; [constructor|]. destruct (truth (t O)); [|apply octets_zeros]. constructor; [apply Ht|apply IH; intros; apply Ht]. }
  intros Hl. apply H. intros i. unfold of_list. destruct (decide (i < length l)%nat) as [Hi|Hi]; [apply (proj1 (List.Forall_forall _ _) Hl), nth_In, Hi|rewrite nth_overflow by lia; lia].
Qed.
Lemma octets_dirent inum l : octets l -> octets (dirent inum (of_list l)).
Proof. intros Hl. apply octets_app; [apply octets_le|by apply octets_strncpy]. Qed.
Lemma octets_skip l : octets l -> octets (skip_underscore l).
Proof. intros Hl. unfold skip_underscore. destruct l as [|c l]; [done|]. apply Forall_cons in Hl as H0. destruct H0. repeat case_match; done. Qed.

Context (host_open : list Z -> option (list (list Z))).
(** A name on the command line and the chunks the host reads from the file. *)
Record input (a : list Z * list (list Z)) : Prop := {
  in_open : host_open a.1 = Some a.2;
  in_name : slash ∉ a.1;
  in_octets : octets a.1 /\ Forall octets a.2;
  in_size : Z.of_nat (length (concat a.2)) <= 512 * MAXFILE;
}.
Fixpoint entries (inum : Z) (args : list (list Z * list (list Z))) : list (list Z) :=
  match args with
  | [] => []
  | a :: args => dirent inum (of_list (skip_underscore a.1)) :: entries (inum + 1) args
  end.
Definition total (args : list (list Z * list (list Z))) : Z := foldr (fun a z => cost (Z.of_nat (length (concat a.2))) + z) 0 args.
Definition holds_input (a : list Z * list (list Z)) (f : Z * list Z * list Z) : Prop := exists A, f = (T_FILE, A, concat a.2).
Lemma cost_nonneg n : 0 <= n -> 0 <= cost n.
Proof. intros Hn. unfold cost, nblk, BSIZE. assert (0 <= (n + (512 - 1)) / 512) by (apply Z.div_pos; lia). destruct (_ <? _); lia. Qed.
Lemma total_nonneg args : 0 <= total args.
Proof. induction args as [|a args IH]; cbn; [lia|]. pose proof (cost_nonneg (Z.of_nat (length (concat a.2))) ltac:(lia)). unfold total in IH. lia. Qed.

Lemma add_file_run s A0 D rest a (n := Z.of_nat (length D)) : laid s ((T_DIR, A0, D) :: rest) -> input a -> Z.of_nat (length rest) + 2 < ninodes -> n + 16 <= 512 * MAXFILE ->
  m_freeblock s + (cost (n + 16) - cost n) + cost (Z.of_nat (length (concat a.2))) <= home ->
  exists s' A0' f, add_file be quota host_open 1 a.1 s = Ok tt s' /\ holds_input a f /\
    laid s' ((T_DIR, A0', D ++ dirent (Z.of_nat (length rest) + 2) (of_list (skip_underscore a.1))) :: rest ++ [f]) /\
    m_freeblock s' = m_freeblock s + (cost (n + 16) - cost n) + cost (Z.of_nat (length (concat a.2))).
Proof.
  intros Hla [Hop Hsl [Ho1 Ho2] Hsz] Hmax HD Hroom. unfold add_file. rewrite bool_decide_false, Hop by done. pose proof (cost_nonneg (Z.of_nat (length (concat a.2))) ltac:(lia)) as Hc0.
  destruct (ialloc_run s _ T_FILE Hla) as (s1 & E1 & Hla1 & Hfr1); [cbn [length]; lia|by right|]. mstep E1. cbn [length app] in *. replace (Z.of_nat (S (length rest)) + 1) with (Z.of_nat (length rest) + 2) by lia. rewrite de_bytes_eq.
  set (de := dirent _ _). assert (Hde : length de = 16%nat) by apply dirent_length.
  destruct (iappend_run s1 _ 0 T_DIR A0 D de Hla1 eq_refl) as (s2 & A0' & E2 & Hla2 & Hfr2); [by apply octets_dirent, octets_skip|rewrite Hde; fold n; lia|rewrite Hde; fold n; change (Z.of_nat 16) with 16; lia|]. change (Z.of_nat 0 + 1) with 1 in E2. mstep E2. rewrite Hde in Hfr2. fold n in Hfr2. cbn [insert list_insert] in Hla2.
  destruct (chunks_run a.2 s2 _ (S (length rest)) T_FILE [] [] Hla2) as (s3 & A & E3 & Hla3 & Hfr3).
  - exact (list_lookup_middle rest [] (T_FILE, [], []) (length rest) eq_refl).
  - done.
  - cbn. lia.
  - cbn [length]. change (cost (Z.of_nat 0)) with 0. rewrite Z.add_0_l. change (Z.of_nat 16) with 16 in Hfr2. lia.
  - replace (Z.of_nat (S (length rest)) + 1) with (Z.of_nat (length rest) + 2) in E3 by lia. exists s3, A0', (T_FILE, A, concat a.2). split; [exact E3|]. split; [by exists A|]. split.
    + assert (El : <[length rest := (T_FILE, A, concat a.2)]> (rest ++ [(T_FILE, [], [])]) = rest ++ [(T_FILE, A, concat a.2)]) by (by rewrite insert_app_r_alt, Nat.sub_diag by lia). rewrite <- El. exact Hla3.
    + cbn [length] in Hfr3. change (cost (Z.of_nat 0)) with 0 in Hfr3. rewrite Z.add_0_l in Hfr3. change (Z.of_nat 16) with 16 in Hfr2. lia.
Qed.

Lemma files_run args : forall s A0 D rest (n := Z.of_nat (length D)) (m := n + 16 * Z.of_nat (length args)), laid s ((T_DIR, A0, D) :: rest) -> Forall input args -> Z.of_nat (length rest + length args) + 1 < ninodes -> m <= 512 * MAXFILE ->
  m_freeblock s + (cost m - cost n) + total args <= home ->
  exists s' A0' fs, mfor args.*1 (add_file be quota host_open 1) s = Ok tt s' /\ Forall2 holds_input args fs /\
    laid s' ((T_DIR, A0', D ++ concat (entries (Z.of_nat (length rest) + 2) args)) :: rest ++ fs) /\ m_freeblock s' = m_freeblock s + (cost m - cost n) + total args.
Proof.
  induction args as [|a args IH]; intros s A0 D rest n m Hla Hin Hmax HD Hroom; cbn [fmap list_fmap mfor entries concat].
  { exists s, A0, []. rewrite !app_nil_r. assert (m = n) as -> by (unfold m; cbn; lia). split_and!; [done|constructor|done|cbn; lia]. }
  apply Forall_cons in Hin as [Ha Hin]. unfold m in *. cbn [length total foldr] in *. fold (total args) in *. pose proof (total_nonneg args). pose proof (cost_mono (n + 16) (n + 16 * Z.of_nat (S (length args))) ltac:(lia)).
  destruct (add_file_run s A0 D rest a Hla Ha) as (s1 & A1 & f & E1 & Hf & Hla1 & Hfr1); [lia|fold n; lia|fold n; lia|]. fold n in Hfr1. mstep E1. set (de := dirent _ _) in *.
  assert (En : Z.of_nat (length (D ++ de)) = n + 16) by (rewrite length_app; unfold de; rewrite dirent_length; lia). assert (Er : Z.of_nat (length (rest ++ [f])) = Z.of_nat (length rest) + 1) by (rewrite length_app; cbn; lia).
  destruct (IH s1 A1 (D ++ de) (rest ++ [f]) Hla1 Hin) as (s' & A' & fs & E & Hfs & Hla' & Hfr').
  - rewrite Nat2Z.inj_add, Er. lia.
  - rewrite En. lia.
  - rewrite En. replace (n + 16 + 16 * Z.of_nat (length args)) with (n + 16 * Z.of_nat (S (length args))) by lia. lia.
  - rewrite En in Hfr'. replace (n + 16 + 16 * Z.of_nat (length args)) with (n + 16 * Z.of_nat (S (length args))) in Hfr' by lia. rewrite Er, <- !app_assoc in Hla'. exists s', A', (f :: fs). split_and!; [exact E|by constructor| |lia].
    replace (Z.of_nat (length rest) + 2 + 1) with (Z.of_nat (length rest) + 1 + 2) by lia. done.
Qed.

(** ** The start and the end of main *)

Lemma zero_run n : forall i s, 0 <= i -> m_nsect s = i -> (forall b, m_sect s b = zeros) -> i + Z.of_nat n <= size_ ->
  exists s', mfor (seqZ i (Z.of_nat n)) (fun i => wsect quota i zeros) s = Ok tt s' /\ m_nsect s' = i + Z.of_nat n /\ (forall b, m_sect s' b = zeros) /\
    m_freeblock s' = m_freeblock s /\ m_usedblocks s' = m_usedblocks s /\ m_freeinode s' = m_freeinode s.
Proof.
  induction n as [|n IH]; intros i s Hi Hs Hz Hn; [exists s; split_and!; try done; lia|]. rewrite seqZ_cons by lia. cbn [mfor]. mstep (wsect_ok s i zeros ltac:(lia)).
  replace (Z.pred (Z.of_nat (S n))) with (Z.of_nat n) by lia. set (s1 := set_nsect _ _). destruct (IH (Z.succ i) s1) as (s' & E & H1 & H2 & H3); [lia|unfold s1; cbn; lia| |lia|exists s'; split_and!; try done; [lia|apply H3..]].
  intros b. unfold s1. cbn [m_sect set_nsect set_sect]. destruct (decide (b = i)) as [->|]; [by rewrite fn_lookup_insert|by rewrite fn_lookup_insert_ne].
Qed.
Lemma super_eq : super be = concat (map (le_bytes 4) [size_; nblocks; ninodes; nlog]).
Proof. unfold super. f_equal. apply map_ext. intros x. apply host_bytes_int; [auto with octets|apply le_bytes_length]. Qed.

Lemma byte_zeros i : byte_at zeros i = 0.
Proof. assert (H : forall (n k : nat), default 0 (replicate n 0 !! k) = 0) by (intros n k; destruct (replicate n 0 !! k) as [x|] eqn:E; [by apply lookup_replicate in E as [-> _]|done]). exact (H _ _). Qed.
Lemma used_bits_spec n : (n <= 4096)%nat -> length (used_bits n) = 512%nat /\ forall c, 0 <= c < 4096 -> bit (used_bits n) c = (c <? Z.of_nat n).
Proof.
  induction n as [|n IH]; intros Hn; cbn [used_bits].
  - split; [done|]. intros c Hc. rewrite (proj2 (Z.ltb_ge _ _)) by lia. unfold bit. by rewrite byte_zeros, Z.bits_0.
  - destruct IH as [Hl Hb]; [lia|]. split; [by rewrite set_bit_length|]. intros c Hc. rewrite bit_set by (done || unfold BPB; lia). rewrite Hb by done.
    destruct (Z.eqb_spec c (Z.of_nat n)), (Z.ltb_spec c (Z.of_nat n)), (Z.ltb_spec c (Z.of_nat (S n))); try done; lia.
Qed.

(** The blocks of the inodes from [n] on, [As] being those of their data. *)
Fixpoint file_blocks (d : ldisk) (n : Z) (As : list (list Z)) : list Z :=
  match As with [] => [] | A :: As => footprint (copy d n 1 3) A ++ file_blocks d (n + 1) As end.
Definition image (s : mkfs) : ldisk := mkLdisk home nlog (m_sect s) ∅ [] false.
Definition mapped_image (s : mkfs) : mkfs := set_sect (<[bmb := used_bits (Z.to_nat (m_freeblock s))]> (m_sect s)) s.
Section Final.
Context (s : mkfs) (F : list (Z * list Z * list Z)) (Hla : laid s F).
Lemma image_other b : b <> bmb -> ld_blk (image (mapped_image s)) b = ld_blk (full (m_sect s)) b.
Proof. intros Hn. rewrite full_blk by done. unfold image, mapped_image. cbn. by rewrite fn_lookup_insert_ne. Qed.
Lemma image_bits b : 0 <= b < m_freeblock s -> bit (ld_blk (image (mapped_image s)) bmb) b = true.
Proof.
  intros Hb. pose proof (ba_free _ (la_base _ _ Hla)). unfold image, mapped_image. cbn [ld_blk m_sect set_sect]. rewrite fn_lookup_insert.
  rewrite (proj2 (used_bits_spec (Z.to_nat (m_freeblock s)) ltac:(geo))) by geo. apply Z.ltb_lt. lia.
Qed.
Lemma image_vol : vol size_ bmb (image (mapped_image s)).
Proof.
  pose proof (ba_free _ (la_base _ _ Hla)). destruct (base_vol _ (la_base _ _ Hla)) as [[G1 G2 G3 G4] V2 V3 V4]. split; [split; [by rewrite image_other by done|by rewrite image_other by done|done|done]| | |done].
  - intros b Hb. destruct (decide (b = bmb)) as [->|]; [|by rewrite image_other by done; apply V2]. unfold image, mapped_image. cbn [ld_blk m_sect set_sect]. rewrite fn_lookup_insert. apply used_bits_spec. geo.
  - intros b Hb. apply image_bits. geo.
Qed.
Lemma image_copy n r fl : 0 <= n < ninodes -> copy (image (mapped_image s)) n r fl = dip_load (din_of s n) 0 (mkInode ROOTDEV n r fl 0 0 0 0 0 []).
Proof. intros Hn. unfold din_of. rewrite <- (copy_din (m_sect s) n r fl Hn). unfold copy. by rewrite image_other by (destruct (i2b_range n Hn) as [? <-]; lia). Qed.

Lemma image_inode k t A C (n := Z.of_nat k + 1) (d := image (mapped_image s)) : F !! k = Some (t, A, C) -> t = T_DIR \/ t = T_FILE ->
  live bmb d n /\ i_type (copy d n 1 3) = t /\ i_size (copy d n 1 3) = Z.of_nat (length C) /\ (forall r fl, imap bmb d (copy d n r fl) A) /\ Z.of_nat (length A) = nblk (Z.of_nat (length C)) /\ contents d (copy d n 1 3) A = C.
Proof.
  intros Hk Ht. destruct (la_inode _ _ Hla _ _ _ _ Hk) as [I1 I2 I3 I4 I5]. fold n in I1, I2, I3, I4. assert (Hn : 0 <= n < ninodes) by (apply lookup_lt_Some in Hk; pose proof (la_max _ _ Hla); lia).
  assert (Ec : forall r fl, copy d n r fl = dip_load (din_of s n) 0 (mkInode ROOTDEV n r fl 0 0 0 0 0 [])) by (intros; by apply image_copy).
  assert (Et : i_type (copy d n 1 3) = t) by (rewrite Ec; unfold dip_load, dip_type; cbn [i_type set_meta]; rewrite I1; by destruct Ht as [-> | ->]).
  assert (Es : i_size (copy d n 1 3) = Z.of_nat (length C)) by (rewrite Ec; exact I3).
  assert (Efb : fbytes d A = fbytes (full (m_sect s)) A).
  { unfold fbytes. f_equal. apply list_fmap_ext. intros j b Hj. apply image_other. assert (Hin : b ∈ footprint (ino (din_of s n)) A) by (apply elem_of_app; left; by eapply list_elem_of_lookup_2). pose proof (file_block _ _ _ _ _ I4 Hin). lia. }
  assert (HCA : (length C <= 512 * length A)%nat) by (clear - I5; unfold nblk, BSIZE in I5; Z.to_euclidean_division_equations; lia).
  split_and!; [|done|done| |done|].
  - split; [|rewrite Et; by destruct Ht as [-> | ->]|rewrite Ec; unfold dip_load; cbn [i_nlink set_meta]; by rewrite Nat.add_0_l, I2]. destruct (i2b_range n Hn) as [? <-]. lia.
  - intros r fl. destruct (fi_map _ _ _ _ I4) as [M1 M2 M3 M4 M5 M6 M7]. assert (Ea : i_addrs (copy d n r fl) = i_addrs (ino (din_of s n))) by (by rewrite Ec).
    assert (Eat : forall j, addr_at (copy d n r fl) j = addr_at (ino (din_of s n)) j) by (intros j; unfold addr_at; by rewrite Ea).
    assert (Efp : footprint (copy d n r fl) A = footprint (ino (din_of s n)) A) by (unfold footprint, indirect; by rewrite Eat).
    split; [by rewrite Ec|by rewrite Ea|done| |by rewrite Eat|by rewrite Efp|].
    + intros j Hj. rewrite <- M4 by done. unfold fblock. rewrite !Eat. destruct (j <? NDIRECT); [done|]. destruct (Z.eqb_spec (addr_at (ino (din_of s n)) NDIRECT) 0) as [|Hne]; [done|].
      unfold d. rewrite image_other; [done|]. pose proof (file_block _ _ _ _ _ I4 (imap_ind _ _ _ _ (fi_map _ _ _ _ I4) Hne)). lia.
    + rewrite Efp. apply Forall_forall. intros b Hb. pose proof (file_block _ _ _ _ _ I4 Hb). pose proof (ba_free _ (la_base _ _ Hla)). split; [cbn; geo|]. apply image_bits. geo.
  - unfold contents. rewrite Es, Efb, (fi_bytes _ _ _ _ I4), Nat2Z.id. apply take_app_length.
Qed.

(** Every block in use past the bitmap belongs to one file. *)
Lemma footprint_length k t A C : F !! k = Some (t, A, C) -> Z.of_nat (length (blocks_of s (Z.of_nat k + 1) A)) = cost (Z.of_nat (length C)).
Proof.
  intros Hk. destruct (la_inode _ _ Hla _ _ _ _ Hk) as [_ _ _ I4 I5]. unfold blocks_of, footprint, indirect, cost. rewrite length_app, Nat2Z.inj_add, I5. f_equal.
  pose proof (fi_ind _ _ _ _ I4) as H1. pose proof (im_ind _ _ _ _ (fi_map _ _ _ _ I4)) as H2. rewrite I5 in H1, H2.
  destruct (Z.eqb_spec (addr_at (ino (din_of s (Z.of_nat k + 1))) NDIRECT) 0) as [E|E], (Z.ltb_spec NDIRECT (nblk (Z.of_nat (length C)))); cbn; try done; [specialize (H2 E)|specialize (H1 E)]; lia.
Qed.
Lemma image_footprint k t A C : F !! k = Some (t, A, C) -> footprint (copy (image (mapped_image s)) (Z.of_nat k + 1) 1 3) A = blocks_of s (Z.of_nat k + 1) A.
Proof. intros Hk%lookup_lt_Some. pose proof (la_max _ _ Hla). unfold blocks_of, footprint, indirect, addr_at. by rewrite image_copy by lia. Qed.
Lemma files_blocks : forall G k, drop k F = G ->
  let L := file_blocks (image (mapped_image s)) (Z.of_nat k + 1) ((fun f => f.1.2) <$> G) in
  NoDup L /\ (forall b, b ∈ L -> exists j t A C, (k <= j)%nat /\ F !! j = Some (t, A, C) /\ b ∈ blocks_of s (Z.of_nat j + 1) A) /\
  Z.of_nat (length L) = foldr (fun f z => cost (Z.of_nat (length f.2)) + z) 0 G.
Proof.
  induction G as [|[[t A] C] G IH]; intros k HG; cbn [fmap list_fmap file_blocks]; [split_and!; [apply NoDup_nil_2|intros b H; by apply not_elem_of_nil in H|done]|].
  assert (Hk : F !! k = Some (t, A, C)) by (rewrite <- (Nat.add_0_r k), <- lookup_drop, HG; done).
  destruct (IH (S k)) as (N & I & L); [by rewrite <- (drop_drop F k 1), Nat.add_comm, HG || (rewrite <- Nat.add_1_r, <- drop_drop, HG)|].
  replace (Z.of_nat (S k) + 1) with (Z.of_nat k + 1 + 1) in N, I, L by lia. cbn [fst snd]. rewrite (image_footprint k t A C Hk). split_and!.
  - apply NoDup_app. split_and!; [apply (im_nodup _ _ _ _ (fi_map _ _ _ _ (ii_file _ _ _ _ _ (la_inode _ _ Hla _ _ _ _ Hk))))| |done].
    intros b Hb (j & t' & A' & C' & Hj & Hj' & Hin)%I. exact (la_apart _ _ Hla k j _ _ _ _ _ _ b Hk Hj' ltac:(lia) Hb Hin).
  - intros b [Hb|Hb]%elem_of_app; [by exists k, t, A, C|]. destruct (I b Hb) as (j & t' & A' & C' & Hj & H). exists j, t', A', C'. split; [lia|done].
  - rewrite length_app, Nat2Z.inj_add, (footprint_length k t A C Hk). cbn [foldr snd]. lia.
Qed.
Lemma image_blocks : m_freeblock s = bmb + 1 + foldr (fun f z => cost (Z.of_nat (length f.2)) + z) 0 F ->
  file_blocks (image (mapped_image s)) 1 ((fun f => f.1.2) <$> F) ≡ₚ seqZ (bmb + 1) (m_freeblock s - (bmb + 1)).
Proof.
  intros Hfr. destruct (files_blocks F 0 eq_refl) as (N & I & L). change (Z.of_nat 0 + 1) with 1 in *. apply submseteq_length_Permutation; [|rewrite length_seqZ; lia].
  apply NoDup_submseteq; [done|]. intros b (j & t & A & C & _ & Hj & Hb)%I. pose proof (file_block _ _ _ _ _ (ii_file _ _ _ _ _ (la_inode _ _ Hla _ _ _ _ Hj)) Hb). apply elem_of_seqZ. lia.
Qed.
Lemma image_bitmap b : 0 <= b < BPB -> bit (ld_blk (image (mapped_image s)) bmb) b = (b <? m_freeblock s).
Proof.
  intros Hb. pose proof (ba_free _ (la_base _ _ Hla)). unfold image, mapped_image. cbn [ld_blk m_sect set_sect]. rewrite fn_lookup_insert.
  rewrite (proj2 (used_bits_spec (Z.to_nat (m_freeblock s)) ltac:(geo))) by done. by rewrite Z2Nat.id by geo.
Qed.
End Final.

(** The size of the root directory is rounded up to the end of its last block. *)
Lemma round_run s A0 D rest (sz := Z.of_nat (length D)) (D' := D ++ replicate (512 * length A0 - length D) 0) : laid s ((T_DIR, A0, D) :: rest) -> sz mod 512 <> 0 -> sz <= 512 * MAXFILE ->
  Z.of_nat (length A0) = sz / 512 + 1 /\
  exists s', winode quota 1 (st32 be (din_of s 1) 8 (xint be (u32 ((sz / BSIZE + 1) * BSIZE)))) s = Ok tt s' /\ laid s' ((T_DIR, A0, D') :: rest) /\ m_freeblock s' = m_freeblock s.
Proof.
  intros Hla Hmod Hmax. pose proof (la_base _ _ Hla) as Hb. destruct (la_inode _ _ Hla 0%nat _ _ _ eq_refl) as [I1 I2 I3 I4 I5]. change (Z.of_nat 0 + 1) with 1 in *. fold sz in I3, I5.
  assert (HA : Z.of_nat (length A0) = sz / 512 + 1) by (rewrite I5; unfold nblk, BSIZE; Z.to_euclidean_division_equations; lia). split; [done|].
  assert (Hsz : sz <= 512 * Z.of_nat (length A0) /\ 0 <= sz) by (rewrite HA; Z.to_euclidean_division_equations; lia). pose proof (im_len _ _ _ _ (fi_map _ _ _ _ I4)) as HAm. unfold MAXFILE, NDIRECT, NINDIRECT, BSIZE in *.
  replace ((sz / 512 + 1) * 512) with (512 * Z.of_nat (length A0)) by lia. rewrite u32_id, st32_xint by lia. pose proof (din_length s 1 Hb) as Hl. pose proof (din_octets s 1 Hb) as Ho. set (din := din_of s 1) in *. set (din' := put32 din 8 _).
  assert (Hl' : length din' = 64%nat) by (unfold din'; rewrite put32_length; lia). assert (Ho' : octets din') by (unfold din'; auto with octets).
  destruct (winode_run s 1 din' Hb ltac:(done) Hl' Ho') as (E & Hb' & D1 & D2 & Hk). set (s' := wrote_inode 1 din' s) in *. exists s'. split; [exact E|]. split; [|done].
  assert (Ea : i_addrs (ino din') = i_addrs (ino din)) by (unfold ino, dip_load, dip_addrs; cbn [i_addrs set_meta]; apply list_fmap_ext; intros i j Hj%lookup_seq; unfold din'; apply get32_put32_other; lia).
  assert (Hslot : forall w o, (o + w <= 8)%nat -> slice din' o w = slice din o w) by (intros w o Hw; unfold din', put32; rewrite slice_splice_other; [done|rewrite le_bytes_length; lia|lia|left; lia]).
  assert (HD' : Z.of_nat (length D') = 512 * Z.of_nat (length A0)) by (unfold D'; rewrite length_app, length_replicate; lia).
  apply (laid_change s s' _ 0 T_DIR A0 D T_DIR A0 D' Hla eq_refl Hb'); change (Z.of_nat 0 + 1) with 1; try done.
  - split; rewrite ?D1.
    + rewrite <- I1. unfold get16. by rewrite Hslot by lia.
    + rewrite <- I2. unfold get16. by rewrite Hslot by lia.
    + unfold din'. rewrite get32_put32 by lia. done.
    + assert (Hf' : file s' (ino din') A0 D) by (eapply file_frame; [exact I4|done|exact Ea|done|]; intros b Hbb; apply Hk; pose proof (file_block _ _ _ _ _ I4 Hbb); lia).
      destruct Hf' as [F1 F2 F3 F4]. split; try done. rewrite F4. unfold D'. rewrite <- app_assoc, <- replicate_add. do 2 f_equal. rewrite length_app, length_replicate. lia.
    + rewrite HD'. unfold nblk, BSIZE. Z.to_euclidean_division_equations; lia.
  - intros n Hn. apply D2. lia.
  - intros b Hr Hn. apply Hk. lia.
  - intros b Hbb. left. unfold blocks_of in *. rewrite D1 in Hbb. unfold footprint, indirect, addr_at in *. by rewrite Ea in Hbb.
Qed.

Definition dots : list (list Z) := [dirent ROOTINO (of_list [46]); dirent ROOTINO (of_list [46; 46])].
Definition root_size (args : list (list Z * list (list Z))) : Z := 16 * (Z.of_nat (length args) + 2).
Lemma entries_length inum args : length (concat (entries inum args)) = (16 * length args)%nat.
Proof. revert inum. induction args as [|a args IH]; intros inum; [done|]. cbn [entries concat length]. rewrite length_app, dirent_length, IH. lia. Qed.

(** The disk before the first inode. *)
Lemma start_run : exists s, (modify (set_usedblocks 29);; modify (set_freeblock 29);; mfor (seqZ 0 1024) (fun i => wsect quota i zeros);; wsect quota 1 (splice zeros 0 (super be))) mkfs0 = Ok tt s /\ laid s [] /\ m_freeblock s = 29.
Proof.
  do 2 mrun1. set (s0 := set_freeblock _ _). destruct (zero_run 1024 0 s0) as (s1 & E1 & H1 & H2 & H3 & H4 & H5); [done|done|done|done|]. change (Z.of_nat 1024) with 1024 in E1. mstep E1. rewrite wsect_ok, super_eq by done. eexists. split; [done|].
  change (m_freeblock s1 = 29) in H3. change (m_usedblocks s1 = 29) in H4. change (m_freeinode s1 = 1) in H5.
  assert (Hx : forall b, m_sect (set_sect (<[1 := splice zeros 0 (concat (map (le_bytes 4) [size_; nblocks; ninodes; nlog]))]> (m_sect s1)) s1) b = if decide (b = 1) then splice zeros 0 (concat (map (le_bytes 4) [size_; nblocks; ninodes; nlog])) else zeros).
  { intros b. cbn [m_sect set_sect]. destruct (decide (b = 1)) as [->|]; [by rewrite fn_lookup_insert|rewrite fn_lookup_insert_ne by done; apply H2]. }
  split; [|exact H3]. split; [split| | | |]; cbn [m_nsect m_sect m_usedblocks m_freeblock m_freeinode set_nsect set_sect] in *; try done.
  - rewrite H1. done.
  - intros b. rewrite Hx. by destruct (decide (b = 1)).
  - intros b. rewrite Hx. destruct (decide (b = 1)); [|apply octets_zeros]. apply octets_splice; [apply octets_zeros|]. cbn [map concat]. repeat apply octets_app; auto with octets. constructor.
  - lia.
  - rewrite H3. done.
  - intros b Hb. rewrite Hx. rewrite decide_False by lia. done.
Qed.

Lemma main_run args prog out (D := concat (dots ++ entries 2 args)) : Forall input args -> Z.of_nat (length args) + 1 < ninodes -> root_size args mod 512 <> 0 -> bmb + 1 + cost (root_size args) + total args <= home ->
  exists s A0 fs, main be quota host_open (prog :: out :: args.*1) true mkfs0 = Ok tt (mapped_image s) /\ Z.of_nat (length A0) = root_size args / 512 + 1 /\
    Forall2 holds_input args fs /\ laid s ((T_DIR, A0, D ++ replicate (512 * length A0 - length D) 0) :: fs) /\
    m_freeblock s = bmb + 1 + cost (root_size args) + total args.
Proof.
  intros Hin Hmax Hmod Hroom. destruct start_run as (s0 & E0 & Hla0 & Hfr0). change bmb with 28 in Hroom. change home with 1014 in Hroom. unfold ninodes in Hmax.
  assert (HD : Z.of_nat (length D) = root_size args) by (unfold D, root_size; rewrite concat_app, length_app, entries_length; change (length (concat dots)) with 32%nat; lia).
  assert (HD2 : Z.of_nat (length (concat dots)) = 32) by done. assert (Hrs : 32 <= root_size args <= 512 * MAXFILE /\ root_size args = 32 + 16 * Z.of_nat (length args)) by (unfold root_size, MAXFILE, NDIRECT, NINDIRECT; lia).
  pose proof (total_nonneg args) as Ht. pose proof (cost_mono 32 (root_size args) ltac:(lia)) as Hc. change (cost 32) with 1 in Hc.
  destruct (ialloc_run s0 [] T_DIR Hla0 ltac:(done) ltac:(by left)) as (s1 & E1 & Hla1 & Hfr1). cbn [app length] in *. change (Z.of_nat 0 + 1) with 1 in E1.
  destruct (iappend_run s1 _ 0 T_DIR [] [] (dirent ROOTINO (of_list [46])) Hla1 eq_refl) as (s2 & A2 & E2 & Hla2 & Hfr2); [by apply octets_dirent; repeat constructor|by vm_compute|rewrite Hfr1, Hfr0; by vm_compute|]. change (Z.of_nat 0 + 1) with 1 in E2. cbn [insert list_insert] in Hla2.
  destruct (iappend_run s2 _ 0 T_DIR A2 _ (dirent ROOTINO (of_list [46; 46])) Hla2 eq_refl) as (s3 & A3 & E3 & Hla3 & Hfr3); [by apply octets_dirent; repeat constructor|by vm_compute|rewrite Hfr2, Hfr1, Hfr0; by vm_compute|]. change (Z.of_nat 0 + 1) with 1 in E3. cbn [insert list_insert] in Hla3.
  assert (Hfr : m_freeblock s3 = 30) by (rewrite Hfr3, Hfr2, Hfr1, Hfr0; by vm_compute).
  assert (Hd : ([] ++ dirent ROOTINO (of_list [46])) ++ dirent ROOTINO (of_list [46; 46]) = concat dots) by (unfold dots; cbn [concat]; by rewrite app_nil_l, app_nil_r). rewrite Hd in Hla3.
  destruct (files_run args s3 A3 (concat dots) [] Hla3 Hin) as (s4 & A4 & fs & E4 & Hfs & Hla4 & Hfr4); [cbn; unfold ninodes; lia|rewrite HD2; lia|rewrite HD2, Hfr; replace (32 + 16 * Z.of_nat (length args)) with (root_size args) by lia; change (cost 32) with 1; geo|].
  cbn [length app] in Hla4. change (Z.of_nat 0 + 2) with 2 in Hla4. rewrite <- concat_app in Hla4. fold D in Hla4.
  destruct (round_run s4 A4 D fs Hla4) as (HA & s5 & E5 & Hla5 & Hfr5); [by rewrite HD|rewrite HD; lia|]. rewrite HD in HA, E5. exists s5, A4, fs.
  assert (Hfr6 : m_freeblock s5 = bmb + 1 + cost (root_size args) + total args).
  { rewrite Hfr5, Hfr4, Hfr, HD2. replace (32 + 16 * Z.of_nat (length args)) with (root_size args) by lia. change (cost 32) with 1. change bmb with 28. lia. }
  split; [|done].
  unfold main. rewrite (proj2 (Z.ltb_ge _ _)) by (cbn [length]; lia). cbn [negb]. change (size_ / (512 * 8) + 1) with 1. change (ninodes / IPB + 3 + 1) with 29. change (negb (nblocks + 29 + nlog =? size_)) with false. change (nblocks + 29 + nlog) with 1024. cbv zeta. cbn iota.
  minv E0 u1 r1 F1. mstep F1. minv E0 u2 r2 F2. mstep F2. minv E0 u3 r3 F3. mstep F3. mstep E0. mstep E1. change (negb (1 =? ROOTINO)) with false. cbn iota. rewrite !de_bytes_eq. change 1 with ROOTINO in E2, E3 at 1. mstep E2. mstep E3. cbn [drop]. mstep E4.
  pose proof (la_base _ _ Hla4) as Hb4. mstep (rinode_run s4 1 Hb4 ltac:(done)). pose proof (ii_size _ _ _ _ _ (la_inode _ _ Hla4 0%nat _ _ _ eq_refl)) as Hsz. change (Z.of_nat 0 + 1) with 1 in Hsz.
  rewrite xint_ld32, Hsz, HD by (by apply din_octets || (rewrite din_length by done; lia)). mstep E5. mrun1. rewrite (ba_used _ (la_base _ _ Hla5)). pose proof (ba_free _ (la_base _ _ Hla5)). unfold balloc. rewrite (proj2 (Z.ltb_lt _ _)) by geo. cbn [negb].
  apply (wsect_run s5 bmb _ (la_base _ _ Hla5)). done.
Qed.
End Build.

(** ** What mkfs makes *)

Definition free_entries (args : list (list Z * list (list Z))) : nat := Z.to_nat ((512 * (root_size args / 512 + 1) - root_size args) / 16).
Definition root_entries (args : list (list Z * list (list Z))) : list (list Z) := (dots ++ entries 2 args) ++ replicate (free_entries args) (replicate 16 0).

Lemma concat_blank n : concat (replicate n (replicate 16 0)) = replicate (16 * n) 0.
Proof. induction n as [|n IH]; [done|]. rewrite replicate_S. cbn [concat]. rewrite IH, <- replicate_add. f_equal. lia. Qed.
Lemma entries_sizes inum args : Forall (fun x => length x = 16%nat) (entries inum args).
Proof. revert inum. induction args as [|a args IH]; intros inum; cbn [entries]; constructor; [apply dirent_length|apply IH]. Qed.

(** Blocks in use: the metadata, the root directory and the files. *)
Definition used_blocks (args : list (list Z * list (list Z))) : Z := bmb + 1 + cost (root_size args) + total args.
Lemma inputs_cost args fs : Forall2 holds_input args fs -> foldr (fun f z => cost (Z.of_nat (length f.2)) + z) 0 fs = total args.
Proof. induction 1 as [|a f args fs (A & ->) _ IH]; [done|]. cbn [foldr total snd]. by rewrite IH. Qed.

Lemma mkfs_made be quota host_open args prog out : size_ <= quota -> Forall (input host_open) args -> Z.of_nat (length args) + 1 < ninodes ->
  root_size args mod 512 <> 0 -> used_blocks args <= home ->
  exists s A0 As, main be quota host_open (prog :: out :: args.*1) true mkfs0 = Ok tt s /\ vol size_ bmb (image s) /\
    isdir bmb (image s) ROOTINO A0 (root_entries args) /\
    Forall2 (fun ka A => isfile bmb (image s) (Z.of_nat ka.1 + 2) A (concat ka.2.2)) (zip (seq 0 (length args)) args) As /\
    m_sect s 1 = concat (map (le_bytes 4) [size_; nblocks; ninodes; nlog]) ++ replicate 496 0 /\
    (forall b, 0 <= b < BPB -> bit (m_sect s bmb) b = (b <? used_blocks args)) /\
    file_blocks (image s) ROOTINO (A0 :: As) ≡ₚ seqZ (bmb + 1) (used_blocks args - (bmb + 1)) /\
    forall b, home <= b -> m_sect s b = zeros.
Proof.
  intros Hq Hin Hmax Hmod Hroom. destruct (main_run be quota Hq host_open args prog out Hin Hmax Hmod Hroom) as (s & A0 & fs & E & HA & Hfs & Hla & Hfr). fold (used_blocks args) in Hfr. exists (mapped_image s), A0, ((fun f => f.1.2) <$> fs). split; [exact E|]. split; [by eapply image_vol|]. set (D := concat (dots ++ entries 2 args)) in *.
  assert (HD : Z.of_nat (length D) = root_size args) by (unfold D, root_size; rewrite concat_app, length_app, entries_length; change (length (concat dots)) with 32%nat; lia).
  assert (Hpad : (512 * length A0 - length D = 16 * free_entries args)%nat) by (unfold free_entries, root_size in *; Z.to_euclidean_division_equations; lia).
  split_and!.
  - destruct (image_inode s _ Hla 0%nat T_DIR A0 _ eq_refl ltac:(by left)) as (H1 & H2 & H3 & H4 & H5 & H6). change (Z.of_nat 0 + 1) with ROOTINO in *. split; try done.
    + rewrite H3. lia.
    + by rewrite H3.
    + rewrite H6. unfold root_entries. rewrite (concat_app (dots ++ entries 2 args)), concat_blank, <- Hpad. done.
    + unfold root_entries. apply Forall_app. split; [apply Forall_app; split; [repeat constructor|apply entries_sizes]|]. by apply Forall_replicate.
  - apply Forall2_same_length_lookup. pose proof (Forall2_length _ _ _ Hfs) as Hlen. split; [rewrite length_fmap, length_zip, length_seq; lia|]. intros k [k' a] A Hk HA'.
    apply lookup_zip_Some in Hk as [[-> _]%lookup_seq Hk]. cbn [Nat.add fst snd]. destruct (Forall2_lookup_l _ _ _ _ _ Hfs Hk) as (f & Hf & A' & ->). rewrite list_lookup_fmap, Hf in HA'. injection HA' as ->.
    destruct (image_inode s _ Hla (S k) T_FILE A _ Hf ltac:(by right)) as (H1 & H2 & H3 & H4 & H5 & H6). replace (Z.of_nat (S k) + 1) with (Z.of_nat k + 2) in * by lia. split; try done.
    + rewrite H3, H5. unfold nblk, BSIZE. Z.to_euclidean_division_equations; lia.
    + by rewrite H2.
  - unfold mapped_image. cbn [m_sect set_sect]. rewrite fn_lookup_insert_ne by done. rewrite (ba_super _ (la_base _ _ Hla)). by vm_compute.
  - intros b Hb. rewrite <- Hfr. by apply (image_bitmap s _ Hla).
  - rewrite <- Hfr. apply (image_blocks s _ Hla). rewrite Hfr. cbn [foldr snd]. rewrite (inputs_cost args fs Hfs). unfold used_blocks.
    assert (Ec : cost (Z.of_nat (length (D ++ replicate (512 * length A0 - length D) 0))) = cost (root_size args)); [|lia].
    unfold cost. assert (En : nblk (Z.of_nat (length (D ++ replicate (512 * length A0 - length D) 0))) = nblk (root_size args)); [|by rewrite En].
    rewrite length_app, length_replicate. unfold nblk, BSIZE. unfold root_size in *. Z.to_euclidean_division_equations; lia.
  - intros b Hb. unfold mapped_image. cbn [m_sect set_sect]. pose proof (ba_free _ (la_base _ _ Hla)). rewrite fn_lookup_insert_ne by geo. apply (ba_zero _ (la_base _ _ Hla)). lia.
Qed.

(** C25: Mkfs on files that fit on the disk, on a host of either byte order,
    ends with exit(0) and leaves a well-formed file system.  The superblock has
    the four numbers of the program and zeros.  In the bitmap exactly the first
    [used_blocks] bits are set: those of the metadata and of as many blocks as
    the root directory and the files need with their indirect blocks; each of
    the latter belongs to exactly one inode; the blocks of the log are not
    marked.  The root directory has "." and "..", the files under their names
    without a leading underscore, and unused entries up to the end of its
    block; inode k + 2 is the k-th file with its bytes; the log is empty. *)
Theorem mkfs_correct be quota host_open args prog out : size_ <= quota -> Forall (input host_open) args -> Z.of_nat (length args) + 1 < ninodes ->
  root_size args mod 512 <> 0 -> used_blocks args <= home ->
  exists s A0 As, main be quota host_open (prog :: out :: args.*1) true mkfs0 = Ok tt s /\ vol size_ bmb (image s) /\
    isdir bmb (image s) ROOTINO A0 (root_entries args) /\
    Forall2 (fun ka A => isfile bmb (image s) (Z.of_nat ka.1 + 2) A (concat ka.2.2)) (zip (seq 0 (length args)) args) As /\
    m_sect s 1 = concat (map (le_bytes 4) [size_; nblocks; ninodes; nlog]) ++ replicate 496 0 /\
    (forall b, 0 <= b < BPB -> bit (m_sect s bmb) b = (b <? used_blocks args)) /\
    file_blocks (image s) ROOTINO (A0 :: As) ≡ₚ seqZ (bmb + 1) (used_blocks args - (bmb + 1)) /\
    forall b, home <= b -> m_sect s b = zeros.
Proof. apply mkfs_made. Qed.
(** File [k] of [mkfs_made]. *)
Lemma made_file d (args : list (list Z * list (list Z))) As k a :
  Forall2 (fun ka A => isfile bmb d (Z.of_nat ka.1 + 2) A (concat ka.2.2)) (zip (seq 0 (length args)) args) As -> args !! k = Some a ->
  exists A, isfile bmb d (Z.of_nat k + 2) A (concat a.2).
Proof.
  intros H Hk. destruct (Forall2_lookup_l _ _ _ k (k, a) H) as (A & _ & HA); [|by exists A]. apply lookup_zip_Some. split; [|done]. apply lookup_seq. split; [done|]. by eapply lookup_lt_Some.
Qed.

(** ** The kernel on the image *)

Definition root_names (args : list (list Z * list (list Z))) : list (list Z) := [46] :: [46; 46] :: ((fun a => skip_underscore a.1) <$> args).

Lemma entries_lookup args : forall inum k, entries inum args !! k = (fun a => dirent (inum + Z.of_nat k) (of_list (skip_underscore a.1))) <$> (args !! k).
Proof. induction args as [|a args IH]; intros inum [|k]; cbn [entries lookup list_lookup]; [done|done|cbn; by rewrite Z.add_0_r|]. etrans; [apply IH|]. replace (inum + Z.of_nat (S k)) with (inum + 1 + Z.of_nat k) by lia. done. Qed.
(** The entries of the root directory have its names. *)
Lemma entry_name args j de : (dots ++ entries 2 args) !! j = Some de -> exists e n, root_names args !! j = Some e /\ de = dirent n (of_list e) /\ (1 <= n <= Z.of_nat (length args) + 1).
Proof.
  intros H. destruct j as [|[|j]]; [injection H as <-; exists [46], ROOTINO; split_and!; done || (unfold ROOTINO; lia)|injection H as <-; exists [46; 46], ROOTINO; split_and!; done || (unfold ROOTINO; lia)|].
  change (entries 2 args !! j = Some de) in H. rewrite entries_lookup in H. destruct (args !! j) as [a|] eqn:Ea; [|done]. injection H as <-. exists (skip_underscore a.1), (2 + Z.of_nat j). apply lookup_lt_Some in Ea as Hl. split_and!; [|done|lia|lia].
  change (((fun a => skip_underscore a.1) <$> args) !! j = Some (skip_underscore a.1)). by rewrite list_lookup_fmap, Ea.
Qed.
Lemma namecmp_take e t : namecmp (of_list (take DIRSIZ e)) t = namecmp (of_list e) t.
Proof. apply strncmp_ext; [|done]. intros i Hi. unfold of_list. rewrite !nth_lookup. by rewrite lookup_take_lt. Qed.
Lemma elems_name e : slash ∉ e -> e <> [] -> elems (slash :: e) = [take DIRSIZ e].
Proof.
  intros Hs He. unfold elems. cbn [elems_from]. rewrite Z.eqb_refl, bool_decide_true by done. assert (H : forall cur, cur ++ e <> [] -> elems_from cur e = [cur ++ e]); [|by rewrite (H [])].
  clear He. induction e as [|c e IH]; intros cur Hne; cbn [elems_from]; [rewrite app_nil_r in *; by rewrite bool_decide_false|]. apply not_elem_of_cons in Hs as [Hc Hs]. rewrite (proj2 (Z.eqb_neq c slash)) by done.
  rewrite IH, <- app_assoc by (done || by destruct cur). done.
Qed.
Lemma skip_no_slash l : slash ∉ l -> slash ∉ skip_underscore l.
Proof. intros H. unfold skip_underscore. destruct l as [|c l]; [done|]. apply not_elem_of_cons in H as [? ?]. repeat case_match; try done; apply not_elem_of_cons; done. Qed.

Lemma root_find args k a (e := skip_underscore a.1) : args !! k = Some a -> Z.of_nat (length args) + 1 < ninodes ->
  (forall j e', (j < k + 2)%nat -> root_names args !! j = Some e' -> namecmp (of_list e) (of_list e') <> 0) ->
  exists i de, dir_find (of_list (take DIRSIZ e)) (root_entries args) = Some (i, de) /\ de_inum de = Z.of_nat k + 2.
Proof.
  intros Hk Hmax Hfirst. unfold ninodes in Hmax. apply lookup_lt_Some in Hk as Hlt. exists (k + 2)%nat, (dirent (2 + Z.of_nat k) (of_list e)). rewrite (dir_find_ext _ (of_list e)) by (intros; apply namecmp_take).
  assert (Hu : forall n, 1 <= n <= Z.of_nat (length args) + 1 -> u16 n = n) by (intros; apply Z.mod_small; lia).
  assert (Hat : (dots ++ entries 2 args) !! (k + 2)%nat = Some (dirent (2 + Z.of_nat k) (of_list e))) by (rewrite Nat.add_comm; change (entries 2 args !! k = Some (dirent (2 + Z.of_nat k) (of_list e))); by rewrite entries_lookup, Hk).
  split; [|rewrite dirent_inum, Hu; lia]. apply list_find_Some. split_and!.
  - unfold root_entries. by apply lookup_app_l_Some.
  - apply names_dirent; [rewrite Hu; lia|apply strncmp_refl].
  - intros j de Hj Hjk Hn. unfold root_entries in Hj. rewrite lookup_app_l in Hj by (apply lookup_lt_Some in Hat; lia). destruct (entry_name args j de Hj) as (e' & n & He' & -> & Hn'). apply names_dirent in Hn; [|rewrite Hu; lia]. by apply (Hfirst j e').
Qed.

(** C14: The kernel reads what mkfs wrote: on the image of mkfs, namei finds every
    input file in the root directory under its name without the underscore,
    unless an earlier name agrees with it in its first 14 characters, and
    reading that inode gives the bytes the host read from the file. *)
Theorem mkfs_kernel_reads be quota host_open args prog out : size_ <= quota -> Forall (input host_open) args -> Z.of_nat (length args) + 1 < ninodes ->
  root_size args mod 512 <> 0 -> bmb + 1 + cost (root_size args) + total args <= home ->
  exists s, main be quota host_open (prog :: out :: args.*1) true mkfs0 = Ok tt s /\
    forall k a (e := skip_underscore a.1) (n := Z.of_nat (length (concat a.2))) devsw f cwd ci, args !! k = Some a -> e <> [] -> 0 ∉ e ->
      (forall j e', (j < k + 2)%nat -> root_names args !! j = Some e' -> namecmp (of_list e) (of_list e') <> 0) ->
      coherent size_ bmb None f -> dsk f = image s -> 2 <= nfree f -> icache f !! cwd = Some ci -> 0 < i_ref ci ->
      exists ip f1 f2, namei devsw cwd (slash :: e) f = Ok (Some ip) f1 /\ ilock ip f1 = Ok tt f2 /\ readi devsw ip 0 n f2 = Ok (n, concat a.2) f2.
Proof.
  intros Hq Hin Hmax Hmod Hroom. destruct (mkfs_made be quota host_open args prog out Hq Hin Hmax Hmod Hroom) as (s & A0 & As & E & _ & Hdir & Hfiles & _). exists s. split; [exact E|].
  intros k a e n devsw f cwd ci Hk Hne H0 Hfirst Hc Hd Hfree Hcwd Hci. destruct (made_file _ _ _ k a Hfiles Hk) as [A Hf]. destruct (root_find args k a Hk Hmax Hfirst) as (i & de & Hde & Hnum). pose proof (proj1 (Forall_forall _ _) Hin a ltac:(by eapply list_elem_of_lookup_2)) as [_ Hsl _ Hsz].
  destruct (namei_run size_ bmb devsw f Hc Hfree cwd ci (slash :: e) (Some (Z.of_nat k + 2)) Hcwd Hci) as (o & f1 & E1 & Hr).
  - apply not_elem_of_cons. done.
  - rewrite Hd, elems_name by (done || by apply skip_no_slash). rewrite bool_decide_true by done. eapply walk_step; [exact Hdir|exact Hde|]. rewrite Hnum. apply walk_done.
  - destruct o as [ip|]; [|done]. rewrite <- Hd in Hf. destruct (visit_run size_ bmb f Hc f1 ip _ Hr (if_live _ _ _ _ _ Hf)) as (f2 & r & E2 & Hc2 & Hm2 & Hk2). exists ip, f1, f2. split; [exact E1|]. split; [exact E2|].
    pose proof (mv_dsk _ _ _ _ Hm2) as Hd2. destruct Hf as [F1 F2 F3 F4 F5]. rewrite <- Hd2 in *. set (c := copy (dsk f2) (Z.of_nat k + 2) r 3) in *.
    assert (Hlen : i_size (copy (dsk f2) (Z.of_nat k + 2) 1 3) = n).
    { unfold n. rewrite <- F5. unfold contents. rewrite length_take, (fbytes_length size_ bmb (dsk f2) _ A (co_vol _ _ _ _ Hc2) (F2 1 3)). lia. }
    assert (Hnr : 0 <= n < 2 ^ 32) by (unfold n, MAXFILE, NDIRECT, NINDIRECT in *; lia).
    rewrite (readi_run size_ bmb f2 ip c A (list_to_set (ld_log (dsk f2))) (co_vol _ _ _ _ Hc2) (F2 r 3) Hk2 (co_buf _ _ _ _ Hc2) (co_rbud _ _ _ _ Hc2) devsw 0 n F4 F3) by lia.
    change (i_size c) with (i_size (copy (dsk f2) (Z.of_nat k + 2) 1 3)). rewrite Hlen, (proj2 (Z.ltb_ge _ _)), (proj2 (Z.leb_gt _ _)) by lia. cbn [orb]. cbv zeta. rewrite Z.sub_0_r, Z.min_id.
    change (contents (dsk f2) c A) with (contents (dsk f2) (copy (dsk f2) (Z.of_nat k + 2) 1 3) A). rewrite F5. unfold n, slice. by rewrite Nat2Z.id, take_ge.
Qed.

(** A big-endian host with one input file, "_c", read in two chunks. *)
Definition one_input : list (list Z * list (list Z)) := [([95; 99], [[65; 66]; [67]])].
Definition one_host (name : list Z) : option (list (list Z)) := if bool_decide (name = [95; 99]) then Some [[65; 66]; [67]] else None.
Lemma one_ok : Forall (input one_host) one_input.
Proof. constructor; [|constructor]. split; [done| |by split; repeat constructor|done]. apply not_elem_of_cons. split; [done|]. apply not_elem_of_cons. split; [done|apply not_elem_of_nil]. Qed.

Lemma mkfs_correct_witness : exists s A, main true 2000 one_host [[109]; [102]; [95; 99]] true mkfs0 = Ok tt s /\ isfile bmb (image s) 2 A [65; 66; 67].
Proof.
  destruct (mkfs_correct true 2000 one_host one_input [109] [102]) as (s & A0 & As & E & _ & _ & Hf & _); [done|exact one_ok|done|done|done|].
  destruct (made_file _ _ _ 0 _ Hf eq_refl) as [A HA]. exists s, A. split; [exact E|exact HA].
Defined.

Definition kernel_cache : list inode := mkInode ROOTDEV ROOTINO 1 0 0 0 0 0 0 [] :: replicate 3 (mkInode 0 0 0 0 0 0 0 0 0 []).
Lemma boot_coherent d : vol size_ bmb d -> ld_buf d = ∅ -> ld_log d = [] -> coherent size_ bmb None (mkFsys false kernel_cache d).
Proof.
  intros Hv Hb Hl. split; [done|done|done|cbn; rewrite Hl; split; [apply NoDup_nil_2|cbn; unfold NBUF; lia]| |].
  - intros k i Hk. assert (i = mkInode ROOTDEV ROOTINO 1 0 0 0 0 0 0 [] \/ i = mkInode 0 0 0 0 0 0 0 0 0 []) as [->| ->] by (do 4 (destruct k as [|k]; [injection Hk as <-; auto|]); done); split; cbn; auto; lia || done.
  - intros k k' i i' Hk Hk' Hr Hr'. assert (Hz : forall k i, kernel_cache !! k = Some i -> 0 < i_ref i -> k = 0%nat) by (intros j x Hx ?; do 4 (destruct j as [|j]; [by injection Hx as <-|]); done).
    by rewrite (Hz k i), (Hz k' i').
Qed.
Lemma mkfs_kernel_reads_witness : exists s ip f1 f2, main true 2000 one_host [[109]; [102]; [95; 99]] true mkfs0 = Ok tt s /\
  namei (fun _ => None) 0 [47; 99] (mkFsys false kernel_cache (image s)) = Ok (Some ip) f1 /\ ilock ip f1 = Ok tt f2 /\ readi (fun _ => None) ip 0 3 f2 = Ok (3, [65; 66; 67]) f2.
Proof.
  destruct (mkfs_kernel_reads true 2000 one_host one_input [109] [102]) as (s & E & H); [done|exact one_ok|done|done|done|].
  destruct (mkfs_made true 2000 one_host one_input [109] [102]) as (s' & A0 & As & E' & Hv & _); [done|exact one_ok|done|done|done|]. rewrite E in E'. injection E' as <-.
  destruct (H 0%nat _ (fun _ => None) (mkFsys false kernel_cache (image s)) 0%nat (mkInode ROOTDEV ROOTINO 1 0 0 0 0 0 0 []) eq_refl) as (ip & f1 & f2 & E1 & E2 & E3).
  - discriminate.
  - apply not_elem_of_cons. split; [discriminate|apply not_elem_of_nil].
  - intros [|[|j]] e' Hj He'; [injection He' as <-; vm_compute; discriminate|injection He' as <-; vm_compute; discriminate|lia].
  - by apply boot_coherent.
  - reflexivity.
  - vm_compute. discriminate.
  - reflexivity.
  - reflexivity.
  - exists s, ip, f1, f2. split; [exact E|]. split; [exact E1|]. split; [exact E2|exact E3].
Defined.

(** With 30 files the entries of the root directory fill its block exactly; the
    size is then rounded up to two blocks although there is no second one. *)
Lemma mkfs_full_directory : exists s, main false 2000 (fun _ => Some []) ([109] :: [102] :: map (fun k => [97 + Z.of_nat k]) (seq 0 30)) true mkfs0 = Ok tt s /\
  i_size (copy (image s) ROOTINO 1 3) = 1024 /\ fblock (image s) (copy (image s) ROOTINO 1 3) 1 = 0.
Proof.
  remember (main false 2000 (fun _ => Some []) ([109] :: [102] :: map (fun k => [97 + Z.of_nat k]) (seq 0 30)) true mkfs0) as r eqn:Er.
  assert (H : match r with Ok _ s => (i_size (copy (image s) ROOTINO 1 3) =? 1024) && (fblock (image s) (copy (image s) ROOTINO 1 3) 1 =? 0) | _ => false end = true) by (subst r; vm_compute; reflexivity).
  clear Er. destruct r as [[] s|]; [|discriminate H]. apply andb_true_iff in H as [H1%Z.eqb_eq H2%Z.eqb_eq]. exists s. split; [reflexivity|]. split; [exact H1|exact H2].
Qed.
