(* ===== verification/Proc.v ===== *)
(** * proc.c: processes

    The process table of src/proc.c.  A pointer to a process is its index in
    ptable.proc, the running process is the argument [me].  The services of the
    other components (pages, page tables, files, inodes) act on a state of
    their own: they are the operations of [Services].

    Code that holds ptable.lock is one operation in [M ptable].  A call of
    sched() ends the operation: the scheduler releases the lock, and when it
    picks the process again the code after sched() is the operation [resume].
    Code that runs without the lock is a [code]: a tree of actions, one for each
    assignment or call of another component.  [run] is such code without
    interruption; the machine below runs it action by action, and lets the
    process be preempted and other processes run between two actions.  [ncli] is
    the number of locks the processor holds. *)

From S2P Require Import Prelude Seg.

Inductive procstate : Type := UNUSED | EMBRYO | SLEEPING | RUNNABLE | RUNNING | ZOMBIE.
Global Instance procstate_eq : EqDecision procstate.
Proof. solve_decision. Defined.

(** What a process sleeps on: a process (in wait) or another address. *)
Inductive chan : Type := CProc (p : nat) | CAddr (a : Z).
Global Instance chan_eq : EqDecision chan.
Proof. solve_decision. Defined.

Definition NPROC : nat := 64.
Definition NOFILE : nat := 16.
Definition PGSIZE : Z := 4096.

(** The registers of a trap frame the code changes by name, and the others. *)
Record trapframe := mkTf { tf_eax : Z; tf_eip : Z; tf_esp : Z; tf_regs : list Z }.
Definition sizeof_tf : Z := 76.
Definition sizeof_context : Z := 20.

Record proc := mkProc {
  p_sz : Z; p_pgdir : Z; p_kstack : Z; p_state : procstate; p_pid : Z; p_parent : option nat;
  p_tf : trapframe; p_context : Z; p_eip : Z;       (** the context's address and its eip *)
  p_chan : option chan; p_killed : bool; p_ofile : list (option nat); p_cwd : option nat;
  p_name : list Z;                                   (** the C string in name[16] *)
}.
Definition set_sz v p := mkProc v (p_pgdir p) (p_kstack p) (p_state p) (p_pid p) (p_parent p) (p_tf p) (p_context p) (p_eip p) (p_chan p) (p_killed p) (p_ofile p) (p_cwd p) (p_name p).
Definition set_pgdir v p := mkProc (p_sz p) v (p_kstack p) (p_state p) (p_pid p) (p_parent p) (p_tf p) (p_context p) (p_eip p) (p_chan p) (p_killed p) (p_ofile p) (p_cwd p) (p_name p).
Definition set_kstack v p := mkProc (p_sz p) (p_pgdir p) v (p_state p) (p_pid p) (p_parent p) (p_tf p) (p_context p) (p_eip p) (p_chan p) (p_killed p) (p_ofile p) (p_cwd p) (p_name p).
Definition set_state v p := mkProc (p_sz p) (p_pgdir p) (p_kstack p) v (p_pid p) (p_parent p) (p_tf p) (p_context p) (p_eip p) (p_chan p) (p_killed p) (p_ofile p) (p_cwd p) (p_name p).
Definition set_pid v p := mkProc (p_sz p) (p_pgdir p) (p_kstack p) (p_state p) v (p_parent p) (p_tf p) (p_context p) (p_eip p) (p_chan p) (p_killed p) (p_ofile p) (p_cwd p) (p_name p).
Definition set_parent v p := mkProc (p_sz p) (p_pgdir p) (p_kstack p) (p_state p) (p_pid p) v (p_tf p) (p_context p) (p_eip p) (p_chan p) (p_killed p) (p_ofile p) (p_cwd p) (p_name p).
Definition set_tf v p := mkProc (p_sz p) (p_pgdir p) (p_kstack p) (p_state p) (p_pid p) (p_parent p) v (p_context p) (p_eip p) (p_chan p) (p_killed p) (p_ofile p) (p_cwd p) (p_name p).
Definition set_context v e p := mkProc (p_sz p) (p_pgdir p) (p_kstack p) (p_state p) (p_pid p) (p_parent p) (p_tf p) v e (p_chan p) (p_killed p) (p_ofile p) (p_cwd p) (p_name p).
Definition set_chan v p := mkProc (p_sz p) (p_pgdir p) (p_kstack p) (p_state p) (p_pid p) (p_parent p) (p_tf p) (p_context p) (p_eip p) v (p_killed p) (p_ofile p) (p_cwd p) (p_name p).
Definition set_killed v p := mkProc (p_sz p) (p_pgdir p) (p_kstack p) (p_state p) (p_pid p) (p_parent p) (p_tf p) (p_context p) (p_eip p) (p_chan p) v (p_ofile p) (p_cwd p) (p_name p).
Definition set_ofile v p := mkProc (p_sz p) (p_pgdir p) (p_kstack p) (p_state p) (p_pid p) (p_parent p) (p_tf p) (p_context p) (p_eip p) (p_chan p) (p_killed p) v (p_cwd p) (p_name p).
Definition set_cwd v p := mkProc (p_sz p) (p_pgdir p) (p_kstack p) (p_state p) (p_pid p) (p_parent p) (p_tf p) (p_context p) (p_eip p) (p_chan p) (p_killed p) (p_ofile p) v (p_name p).
Definition set_name v p := mkProc (p_sz p) (p_pgdir p) (p_kstack p) (p_state p) (p_pid p) (p_parent p) (p_tf p) (p_context p) (p_eip p) (p_chan p) (p_killed p) (p_ofile p) (p_cwd p) v.

(** What proc.c asks of the other components. *)
Record Services (K : Type) := {
  s_kalloc : M K Z;
  s_kfree : Z -> M K unit;
  s_setupkvm : M K Z;
  s_inituvm : Z -> M K unit;
  s_copyuvm : Z -> Z -> M K Z;
  s_freevm : Z -> M K unit;
  s_allocuvm : Z -> Z -> Z -> M K Z;
  s_deallocuvm : Z -> Z -> Z -> M K Z;
  s_filedup : nat -> M K nat;
  s_fileclose : nat -> M K unit;
  s_idup : nat -> M K nat;
  s_iput : nat -> M K unit;
  s_namei_root : M K (option nat);
  s_uva2ka : Z -> Z -> M K Z;
  s_store : Z -> Z -> M K unit;             (** a word at a kernel address *)
}.
Arguments s_kalloc {K}. Arguments s_kfree {K}. Arguments s_setupkvm {K}. Arguments s_inituvm {K}.
Arguments s_copyuvm {K}. Arguments s_freevm {K}. Arguments s_allocuvm {K}. Arguments s_deallocuvm {K}.
Arguments s_filedup {K}. Arguments s_fileclose {K}. Arguments s_idup {K}. Arguments s_iput {K}.
Arguments s_namei_root {K}. Arguments s_uva2ka {K}. Arguments s_store {K}.

Section Proc.
Context {K : Type} (srv : Services K) (forkret : Z).

Record ptable := mkPtable {
  pt_lock : bool;
  pt_proc : list proc;          (** NPROC entries *)
  pt_nextpid : Z;
  pt_init : option nat;         (** initproc *)
  pt_ncli : Z;
  pt_k : K;
}.
Definition set_pt_lock b n t := mkPtable b (pt_proc t) (pt_nextpid t) (pt_init t) n (pt_k t).
Definition set_procs l t := mkPtable (pt_lock t) l (pt_nextpid t) (pt_init t) (pt_ncli t) (pt_k t).
Definition set_nextpid n t := mkPtable (pt_lock t) (pt_proc t) n (pt_init t) (pt_ncli t) (pt_k t).
Definition set_init i t := mkPtable (pt_lock t) (pt_proc t) (pt_nextpid t) i (pt_ncli t) (pt_k t).
Definition set_k k t := mkPtable (pt_lock t) (pt_proc t) (pt_nextpid t) (pt_init t) (pt_ncli t) k.

Definition service {A} (m : M K A) : M ptable A := zoom pt_k set_k m.
Definition pt_acquire : M ptable unit :=
  t ← get; if pt_lock t then panic "acquire" else put (set_pt_lock true (pt_ncli t + 1) t).
Definition pt_release : M ptable unit :=
  t ← get; if pt_lock t then put (set_pt_lock false (pt_ncli t - 1) t) else panic "release".
Definition proc_at (p : nat) : M ptable proc := t ← get; deref "proc" (pt_proc t !! p).
Definition upd_proc (p : nat) (f : proc -> proc) : M ptable unit :=
  x ← proc_at p; modify (fun t => set_procs (<[p := f x]> (pt_proc t)) t).

(** ** Code without the lock *)

#[local] Set Warnings "-register-all".
Inductive code (A : Type) : Type :=
| Done (a : A)
| Act (m : ptable -> res ptable (code A)).
Arguments Done {A}. Arguments Act {A}.
Fixpoint run {A} (c : code A) : M ptable A := fun t =>
  match c with
  | Done a => Ok a t
  | Act m => match m t with Ok c t => run c t | Stop o t => Stop o t end
  end.
Notation "x ⇐ m ; k" := (Act (x ← m; mret k)) (at level 20, m at level 100, k at level 200, only parsing).

Definition pinit : M ptable unit := modify (set_pt_lock false 0).

(** The first entry with the state, of the list from index [k] on. *)
Fixpoint find_state (st : procstate) (l : list proc) (k : nat) : option nat :=
  match l with
  | [] => None
  | p :: l => if decide (p_state p = st) then Some k else find_state st l (S k)
  end.

(** allocproc: the search for an entry, with the lock, and the rest without it. *)
Definition alloc_entry : M ptable (option nat) :=
  pt_acquire;;
  t ← get;
  match find_state UNUSED (pt_proc t) 0 with
  | None => pt_release;; mret None
  | Some p =>
      upd_proc p (fun x => set_pid (pt_nextpid t) (set_state EMBRYO x));;
      modify (set_nextpid (i32 (pt_nextpid t + 1)));;
      pt_release;;
      mret (Some p)
  end.
Definition alloc_stack {A} (p : nat) (k : option nat -> code A) : code A :=
  ks ⇐ service (s_kalloc srv);
  _ ⇐ upd_proc p (set_kstack ks);
  if ks =? 0 then _ ⇐ upd_proc p (set_state UNUSED); k None
  else _ ⇐ upd_proc p (set_context (ks + KSTACKSIZE - sizeof_tf - 4 - sizeof_context) forkret); k (Some p).
Definition allocproc : M ptable (option nat) :=
  o ← alloc_entry;
  match o with None => mret None | Some p => run (alloc_stack p Done) end.

Definition initname : list Z := [105; 110; 105; 116; 99; 111; 100; 101].
Definition FL_IF : Z := 0x200.
Definition user_cs : Z := Z.lor (Z.shiftl SEG_UCODE 3) DPL_USER.
Definition user_ds : Z := Z.lor (Z.shiftl SEG_UDATA 3) DPL_USER.
(** edi, esi, ebp, oesp, ebx, edx, ecx; gs, fs, es, ds; trapno, err, cs, eflags, ss *)
Definition init_regs : list Z := [0; 0; 0; 0; 0; 0; 0; 0; 0; user_ds; user_ds; 0; 0; user_cs; FL_IF; user_ds].
(** At boot, on one processor and before any process runs. *)
Definition userinit : M ptable unit :=
  o ← allocproc;
  p ← deref "userinit: p" o;
  modify (set_init (Some p));;
  pg ← service (s_setupkvm srv);
  upd_proc p (set_pgdir pg);;
  if pg =? 0 then panic "userinit: out of memory?" else
  service (s_inituvm srv pg);;
  upd_proc p (set_sz PGSIZE);;
  upd_proc p (set_tf (mkTf 0 0 PGSIZE init_regs));;
  upd_proc p (set_name initname);;
  c ← service (s_namei_root srv);
  upd_proc p (set_cwd c);;
  upd_proc p (set_state RUNNABLE).

(** switchuvm() at the end of growproc loads registers (Seg.v) and is not seen here. *)
Definition growproc_code (me : nat) (n : Z) : code Z :=
  sz ⇐ (x ← proc_at me;
        if 0 <? n then service (s_allocuvm srv (p_pgdir x) (p_sz x) (p_sz x ⊕ n))
        else if n <? 0 then service (s_deallocuvm srv (p_pgdir x) (p_sz x) (p_sz x ⊕ n))
        else mret (p_sz x));
  if negb (n =? 0) && (sz =? 0) then Done (-1)
  else _ ⇐ upd_proc me (set_sz sz); Done 0.
Definition growproc (me : nat) (n : Z) : M ptable Z := run (growproc_code me n).

(** [np->ofile[i] = filedup(proc->ofile[i])] for the [n] descriptors from [i] on. *)
Fixpoint dup_files {A} (me np i n : nat) (k : code A) : code A :=
  match n with
  | O => k
  | S n =>
      g ⇐ (x ← proc_at me;
           match mjoin (p_ofile x !! i) with
           | Some f => g ← service (s_filedup srv f); mret (Some g)
           | None => mret None
           end);
      match g with
      | Some g => _ ⇐ upd_proc np (fun y => set_ofile (<[i := Some g]> (p_ofile y)) y); dup_files me np (S i) n k
      | None => dup_files me np (S i) n k
      end
  end.

(** fork() after allocproc. *)
Definition fork_fill (me np : nat) : code Z :=
  pg ⇐ (x ← proc_at me; service (s_copyuvm srv (p_pgdir x) (p_sz x)));
  _ ⇐ upd_proc np (set_pgdir pg);
  if pg =? 0 then
    _ ⇐ (n ← proc_at np; service (s_kfree srv (p_kstack n)));
    _ ⇐ upd_proc np (set_kstack 0);
    _ ⇐ upd_proc np (set_state UNUSED);
    Done (-1)
  else
    _ ⇐ (x ← proc_at me; upd_proc np (set_sz (p_sz x)));
    _ ⇐ upd_proc np (set_parent (Some me));
    _ ⇐ (x ← proc_at me; upd_proc np (set_tf (p_tf x)));
    _ ⇐ upd_proc np (fun n => set_tf (mkTf 0 (tf_eip (p_tf n)) (tf_esp (p_tf n)) (tf_regs (p_tf n))) n);
    dup_files me np 0 NOFILE
      (c ⇐ (x ← proc_at me; cwd ← deref "proc->cwd" (p_cwd x); service (s_idup srv cwd));
       _ ⇐ upd_proc np (set_cwd (Some c));
       pid ⇐ (n ← proc_at np; mret (p_pid n));
       _ ⇐ upd_proc np (set_state RUNNABLE);
       _ ⇐ (x ← proc_at me; upd_proc np (set_name (take 15 (p_name x))));
       Done pid).
(** fork() after the search of allocproc. *)
Definition fork_rest (me : nat) (o : option nat) : code Z :=
  match o with
  | None => Done (-1)
  | Some np => alloc_stack np (fun o => match o with None => Done (-1) | Some np => fork_fill me np end)
  end.
Definition fork (me : nat) : M ptable Z := o ← alloc_entry; run (fork_rest me o).

(** wakeup1: every sleeper on the channel becomes runnable. *)
Definition wake (c : option chan) (p : proc) : proc :=
  if decide (p_state p = SLEEPING /\ p_chan p = c) then set_state RUNNABLE p else p.
Definition wakeup1 (c : option chan) : M ptable unit := modify (fun t => set_procs (wake c <$> pt_proc t) t).
Definition wakeup (c : chan) : M ptable unit := pt_acquire;; wakeup1 (Some c);; pt_release.

(** readeflags() & FL_IF: pushcli() turns interrupts off and popcli() turns them on
    only when ncli is 0 again (Spinlock.v). *)
Definition interruptible (t : ptable) : bool := pt_ncli t =? 0.
(** The checks of sched(); the scheduler then releases the lock. *)
Definition sched (me : nat) : M ptable unit :=
  t ← get;
  if negb (pt_lock t) then panic "sched ptable.lock"
  else if negb (pt_ncli t =? 1) then panic "sched locks"
  else
    x ← proc_at me;
    if decide (p_state x = RUNNING) then panic "sched running"
    else if interruptible t then panic "sched interruptible"
    else pt_release.

Fixpoint close_files {A} (me fd n : nat) (k : code A) : code A :=
  match n with
  | O => k
  | S n =>
      b ⇐ (x ← proc_at me;
           match mjoin (p_ofile x !! fd) with
           | Some f => service (s_fileclose srv f);; mret true
           | None => mret false
           end);
      if b : bool then _ ⇐ upd_proc me (fun x => set_ofile (<[fd := None]> (p_ofile x)) x); close_files me (S fd) n k
      else close_files me (S fd) n k
  end.

(** The loop that passes the children to init: each zombie wakes it. *)
Fixpoint abandon (me : nat) (i : nat) (n : nat) : M ptable unit :=
  match n with
  | O => mret tt
  | S n =>
      x ← proc_at i;
      when (bool_decide (p_parent x = Some me))
        (t ← get;
         upd_proc i (set_parent (pt_init t));;
         when (bool_decide (p_state x = ZOMBIE)) (wakeup1 (CProc <$> pt_init t)));;
      abandon me (S i) n
  end.

(** exit() up to acquire(&ptable.lock), and from there on. *)
Definition exit_check (me : nat) : M ptable unit :=
  t ← get; if bool_decide (pt_init t = Some me) then panic "init exiting" else mret tt.
Definition exit_files (me : nat) : code unit :=
  close_files me 0 NOFILE
    (_ ⇐ (x ← proc_at me; cwd ← deref "proc->cwd" (p_cwd x); service (s_iput srv cwd));
     _ ⇐ upd_proc me (set_cwd None);
     Done tt).
Definition exit_locked (me : nat) : M ptable unit :=
  pt_acquire;;
  x ← proc_at me;
  wakeup1 (CProc <$> p_parent x);;
  t ← get;
  abandon me 0 (length (pt_proc t));;
  upd_proc me (set_state ZOMBIE);;
  sched me.
Definition exit (me : nat) : M ptable unit := exit_check me;; run (exit_files me);; exit_locked me.

(** sleep up to sched(); [other] when [lk] is not ptable.lock. *)
Definition sleep (me : nat) (c : chan) (other : bool) : M ptable unit :=
  when other (pt_acquire;; modify (fun t => set_pt_lock (pt_lock t) (pt_ncli t - 1) t));;
  upd_proc me (set_chan (Some c));;
  upd_proc me (set_state SLEEPING);;
  sched me.

(** The scan of wait(): the first zombie child, or whether there are children. *)
Fixpoint wait_scan (me : nat) (l : list proc) (k : nat) (havekids : bool) : nat + bool :=
  match l with
  | [] => inr havekids
  | p :: l =>
      if decide (p_parent p = Some me) then
        if decide (p_state p = ZOMBIE) then inl k else wait_scan me l (S k) true
      else wait_scan me l (S k) havekids
  end.

(** None when the process went to sleep; it scans again when it is resumed. *)
Definition wait (me : nat) : M ptable (option Z) :=
  pt_acquire;;
  t ← get;
  match wait_scan me (pt_proc t) 0 false with
  | inl c =>
      x ← proc_at c;
      service (s_kfree srv (p_kstack x));;
      upd_proc c (set_kstack 0);;
      service (s_freevm srv (p_pgdir x));;
      upd_proc c (fun x => set_killed false (set_name [] (set_parent None (set_pid 0 (set_state UNUSED x)))));;
      pt_release;;
      mret (Some (p_pid x))
  | inr havekids =>
      x ← proc_at me;
      if negb havekids || p_killed x then pt_release;; mret (Some (-1))
      else sleep me (CProc me) false;; mret None
  end.

Definition handler_code (me : nat) (sighandler : Z) : code Z :=
  addr ⇐ (x ← proc_at me; service (s_uva2ka srv (p_pgdir x) (tf_esp (p_tf x))));
  _ ⇐ (x ← proc_at me;
       let tf := p_tf x in
       if Z.land (tf_esp tf) 0xFFF =? 0 then panic "esp_offset == 0"
       else service (s_store srv (addr ⊕ Z.land (tf_esp tf ⊖ 4) 0xFFF) (tf_eip tf)));
  _ ⇐ upd_proc me (fun x => let tf := p_tf x in set_tf (mkTf (tf_eax tf) (tf_eip tf) (tf_esp tf ⊖ 4) (tf_regs tf)) x);
  _ ⇐ upd_proc me (fun x => let tf := p_tf x in set_tf (mkTf (tf_eax tf) sighandler (tf_esp tf) (tf_regs tf)) x);
  Done 0.
Definition register_handler (me : nat) (sighandler : Z) : M ptable unit := run (handler_code me sighandler);; mret tt.

Definition yield (me : nat) : M ptable unit :=
  pt_acquire;; upd_proc me (set_state RUNNABLE);; sched me.

(** forkret() and its static [first]: the log is recovered by the first process that runs. *)
Definition forkret_run (initlog : M K unit) (first : bool) : M ptable bool :=
  pt_release;;
  when first (service initlog);;
  mret false.

Fixpoint kill_scan (pid : Z) (l : list proc) (k : nat) : option nat :=
  match l with
  | [] => None
  | p :: l => if p_pid p =? pid then Some k else kill_scan pid l (S k)
  end.
Definition kill (pid : Z) : M ptable Z :=
  pt_acquire;;
  t ← get;
  match kill_scan pid (pt_proc t) 0 with
  | Some p =>
      upd_proc p (fun x => let x := set_killed true x in if decide (p_state x = SLEEPING) then set_state RUNNABLE x else x);;
      pt_release;;
      mret 0
  | None => pt_release;; mret (-1)
  end.

(** One turn of scheduler()'s loop body for entry [p]: true when the process
    runs; it then releases the lock the scheduler has taken.  Its return to the
    scheduler is sched(). *)
Definition schedule (p : nat) : M ptable bool :=
  pt_acquire;;
  x ← proc_at p;
  if decide (p_state x = RUNNABLE) then upd_proc p (set_state RUNNING);; pt_release;; mret true
  else pt_release;; mret false.

(** The code after sched() in sleep(). *)
Definition resume (me : nat) : M ptable unit := upd_proc me (set_chan None).

(** ** The machine

    Processors, each running a process or its scheduler.  A process may be in the
    middle of kernel code: [todo] has what is left of it.  One step is one action
    of such code or one operation under ptable.lock, of any process that is on a
    processor; the timer may take it from its processor ([st_yield]) and it may
    sleep on a lock or buffer ([st_sleep]) between any two actions. *)
Inductive task : Type :=
| InCall (c : code Z)        (** fork, growproc or register_handler *)
| InExit (c : code unit)     (** before exit() takes ptable.lock *)
| InWait.                    (** asleep in wait(), or woken from there *)
Record sys := mkSys { tab : ptable; cur : list (option nat); todo : gmap nat task }.
Definition runs_on (s : sys) (c me : nat) : Prop := cur s !! c = Some (Some me).
Definition idle (s : sys) (me : nat) : Prop := todo s !! me = None.

(** The index of a step is 1 when a fork has looked for an entry. *)
Inductive step (s : sys) : nat -> sys -> Prop :=
| st_schedule c p t t' :
    cur s !! c = Some None -> schedule p (tab s) = Ok true t -> resume p t = Ok tt t' ->
    step s 0 (mkSys t' (<[c := Some p]> (cur s)) (todo s))
| st_yield c me t : runs_on s c me -> yield me (tab s) = Ok tt t -> step s 0 (mkSys t (<[c := None]> (cur s)) (todo s))
| st_sleep c me ch t :     (** holding one lock that is not ptable.lock *)
    runs_on s c me -> sleep me ch true (set_pt_lock (pt_lock (tab s)) 1 (tab s)) = Ok tt t ->
    step s 0 (mkSys t (<[c := None]> (cur s)) (todo s))
| st_fork c me o t :
    runs_on s c me -> idle s me -> alloc_entry (tab s) = Ok o t ->
    step s 1 (mkSys t (cur s) (<[me := InCall (fork_rest me o)]> (todo s)))
| st_grow c me n : runs_on s c me -> idle s me -> step s 0 (mkSys (tab s) (cur s) (<[me := InCall (growproc_code me n)]> (todo s)))
| st_handler c me h : runs_on s c me -> idle s me -> step s 0 (mkSys (tab s) (cur s) (<[me := InCall (handler_code me h)]> (todo s)))
| st_call c me m k t :
    runs_on s c me -> todo s !! me = Some (InCall (Act m)) -> m (tab s) = Ok k t ->
    step s 0 (mkSys t (cur s) (<[me := InCall k]> (todo s)))
| st_return c me r : runs_on s c me -> todo s !! me = Some (InCall (Done r)) -> step s 0 (mkSys (tab s) (cur s) (delete me (todo s)))
| st_exit c me t :
    runs_on s c me -> idle s me -> exit_check me (tab s) = Ok tt t ->
    step s 0 (mkSys t (cur s) (<[me := InExit (exit_files me)]> (todo s)))
| st_exit_files c me m k t :
    runs_on s c me -> todo s !! me = Some (InExit (Act m)) -> m (tab s) = Ok k t ->
    step s 0 (mkSys t (cur s) (<[me := InExit k]> (todo s)))
| st_exit_locked c me t :
    runs_on s c me -> todo s !! me = Some (InExit (Done tt)) -> exit_locked me (tab s) = Ok tt t ->
    step s 0 (mkSys t (<[c := None]> (cur s)) (delete me (todo s)))
| st_wait c me r t :
    runs_on s c me -> idle s me \/ todo s !! me = Some InWait -> wait me (tab s) = Ok (Some r) t ->
    step s 0 (mkSys t (cur s) (delete me (todo s)))
| st_wait_sleep c me t :
    runs_on s c me -> idle s me \/ todo s !! me = Some InWait -> wait me (tab s) = Ok None t ->
    step s 0 (mkSys t (<[c := None]> (cur s)) (<[me := InWait]> (todo s)))
| st_kill pid r t : kill pid (tab s) = Ok r t -> step s 0 (mkSys t (cur s) (todo s))
| st_wakeup ch t : wakeup ch (tab s) = Ok tt t -> step s 0 (mkSys t (cur s) (todo s)).

Definition zero_proc : proc := mkProc 0 0 0 UNUSED 0 None (mkTf 0 0 0 []) 0 0 None false (replicate NOFILE None) None [].
Definition boot (k : K) : ptable := mkPtable false (replicate NPROC zero_proc) 1 None 0 k.

(** After userinit, every processor in its scheduler; [n] forks have begun. *)
Inductive reachable : nat -> sys -> Prop :=
| r_boot k ncpu t : userinit (boot k) = Ok tt t -> reachable 0 (mkSys t (replicate ncpu None) ∅)
| r_step n s j s' : reachable n s -> step s j s' -> reachable (n + j) s'.

(** ** What matters for the table's invariant *)
Definition core : Type := procstate * Z * option nat * option chan.
Definition core_of (x : proc) : core := (p_state x, p_pid x, p_parent x, p_chan x).
Definition c_state (c : core) : procstate := c.1.1.1.
Definition c_pid (c : core) : Z := c.1.1.2.
Definition c_parent (c : core) : option nat := c.1.2.
Definition c_chan (c : core) : option chan := c.2.
Definition cores (t : ptable) : list core := core_of <$> pt_proc t.

Definition live (st : procstate) : Prop := st = SLEEPING \/ st = RUNNABLE \/ st = RUNNING.
Definition alive (cs : list core) (q : nat) : Prop := exists d, cs !! q = Some d /\ live (c_state d).

(** [making me] is the entry that the fork() of process [me] is filling, and
    whether it has the parent already. *)
Definition making := gmap nat (nat * bool).

Record inv (cs : list core) (init : nat) (cu : list (option nat)) (mk : making) : Prop := {
  iv_len : length cs = NPROC;
  iv_run : forall p c, cs !! p = Some c -> c_state c = RUNNING <-> exists i, cu !! i = Some (Some p);
  iv_cur : forall i j p, cu !! i = Some (Some p) -> cu !! j = Some (Some p) -> i = j;
  iv_in : forall i p, cu !! i = Some (Some p) -> (p < NPROC)%nat;
  iv_embryo : forall p c, cs !! p = Some c -> c_state c = EMBRYO -> exists me b, mk !! me = Some (p, b);
  iv_making : forall me p (b : bool), mk !! me = Some (p, b) -> alive cs me /\
    exists c, cs !! p = Some c /\ c_state c = EMBRYO /\ c_parent c = if b then Some me else None;
  iv_maker : forall me me' p b b', mk !! me = Some (p, b) -> mk !! me' = Some (p, b') -> me = me';
  iv_free : forall p c, cs !! p = Some c -> c_state c = UNUSED -> c_parent c = None;
  iv_parent : forall p c, cs !! p = Some c -> c_state c <> UNUSED -> c_state c <> EMBRYO -> p <> init -> c_parent c <> None;
  iv_orphan : forall p c q, cs !! p = Some c -> c_parent c = Some q -> alive cs q;
  iv_init : alive cs init;
  iv_chan : forall p c, cs !! p = Some c -> c_state c = SLEEPING -> c_chan c <> None;
}.

(** The pids of the entries in use. *)
Record pids (cs : list core) (nextpid : Z) : Prop := {
  pi_next : 0 < nextpid;
  pi_pid : forall p c, cs !! p = Some c -> c_pid c < nextpid /\ (c_state c <> UNUSED -> 0 < c_pid c);
  pi_uniq : forall p q c d, cs !! p = Some c -> cs !! q = Some d -> c_state c <> UNUSED -> c_state d <> UNUSED -> c_pid c = c_pid d -> p = q;
}.

(** *** Code that keeps the table in order

    What one action of process [me], which is making the entry [o], may do. *)
Inductive effect (me : nat) (cs : list core) : option (nat * bool) -> option (nat * bool) -> list core -> Prop :=
| ef_same o : effect me cs o o cs
| ef_parent np c : cs !! np = Some c ->
    effect me cs (Some (np, false)) (Some (np, true)) (<[np := (EMBRYO, c_pid c, Some me, c_chan c)]> cs)
| ef_drop np c : cs !! np = Some c ->
    effect me cs (Some (np, false)) None (<[np := (UNUSED, c_pid c, None, c_chan c)]> cs)
| ef_ready np c : cs !! np = Some c ->
    effect me cs (Some (np, true)) None (<[np := (RUNNABLE, c_pid c, Some me, c_chan c)]> cs).
Definition maker (me : nat) (o : option (nat * bool)) (cs : list core) : Prop :=
  match o with
  | None => True
  | Some (np, b) => exists c, cs !! np = Some c /\ c_state c = EMBRYO /\ c_parent c = if b then Some me else None
  end.
(** The lock and the counters do not change. *)
Definition same_rest (t t' : ptable) : Prop :=
  pt_lock t' = pt_lock t /\ pt_nextpid t' = pt_nextpid t /\ pt_init t' = pt_init t /\ pt_ncli t' = pt_ncli t.
(** Code that takes the table through such effects to its end. *)
Inductive orderly {A} (me : nat) : option (nat * bool) -> code A -> Prop :=
| or_done (a : A) : orderly me None (Done a)
| or_act o (m : ptable -> res ptable (code A)) :
    (forall t c t', maker me o (cores t) -> m t = Ok c t' -> same_rest t t' /\ exists o', effect me (cores t) o o' (cores t') /\ orderly me o' c) ->
    orderly me o (Act m).

(** What a process is in the middle of fits the entry it makes. *)
Definition task_ok (init me : nat) (o : option (nat * bool)) (k : option task) : Prop :=
  match k with
  | Some (InCall c) => orderly me o c
  | Some (InExit c) => o = None /\ me <> init /\ orderly me None c
  | Some InWait | None => o = None
  end.
Definition sys_inv (s : sys) : Prop :=
  pt_lock (tab s) = false /\
  exists i mk, pt_init (tab s) = Some i /\ inv (cores (tab s)) i (cur s) mk /\
    (forall me, task_ok i me (mk !! me) (todo s !! me)) /\
    forall me, is_Some (todo s !! me) -> alive (cores (tab s)) me.
Definition sys_pids (s : sys) : Prop := pids (cores (tab s)) (pt_nextpid (tab s)).

(** *** Transitions of the core that keep the invariant *)

Definition woken (c c' : core) : Prop := c_state c' = c_state c \/ (c_state c = SLEEPING /\ c_state c' = RUNNABLE).

Lemma woken_cases c c' : woken c c' ->
  (c_state c' = UNUSED <-> c_state c = UNUSED) /\ (c_state c' = RUNNING <-> c_state c = RUNNING) /\
  (c_state c' = EMBRYO <-> c_state c = EMBRYO) /\ (live (c_state c) -> live (c_state c')) /\ (c_state c' = SLEEPING -> c_state c = SLEEPING).
Proof. unfold live. intros [->|[-> ->]]; intuition congruence. Qed.

(** Sleepers become runnable, nothing else changes. *)
Definition wake_rel (cs cs' : list core) : Prop :=
  length cs' = length cs /\
  forall p c', cs' !! p = Some c' -> exists c, cs !! p = Some c /\ woken c c' /\ c_pid c' = c_pid c /\ c_parent c' = c_parent c /\ c_chan c' = c_chan c.

Lemma rel_fwd (cs cs' : list core) (R : nat -> core -> core -> Prop) :
  length cs' = length cs -> (forall p c', cs' !! p = Some c' -> exists c, cs !! p = Some c /\ R p c c') ->
  forall p c, cs !! p = Some c -> exists c', cs' !! p = Some c' /\ R p c c'.
Proof.
  intros Hl HR p c Hc. destruct (lookup_lt_is_Some_2 cs' p) as [c' Hc']; [rewrite Hl; by eapply lookup_lt_Some|].
  destruct (HR p c' Hc') as (d & Hd & HRd). exists c'. split; [done|]. by assert (d = c) as -> by congruence.
Qed.

Lemma wake_alive cs cs' q : wake_rel cs cs' -> alive cs q -> alive cs' q.
Proof.
  intros [Hl HR] (d & Hd & Hlv). destruct (rel_fwd cs cs' (fun _ c c' => woken c c' /\ c_pid c' = c_pid c /\ c_parent c' = c_parent c /\ c_chan c' = c_chan c) Hl HR q d Hd) as (d' & Hd' & Hw & _).
  exists d'. split; [done|]. by apply (woken_cases d d' Hw).
Qed.

Lemma inv_wake cs cs' init cu mk : wake_rel cs cs' -> inv cs init cu mk -> inv cs' init cu mk.
Proof.
  intros Hrel Hi. pose proof Hrel as [Hl HR]. pose proof (rel_fwd cs cs' (fun _ c c' => woken c c' /\ c_pid c' = c_pid c /\ c_parent c' = c_parent c /\ c_chan c' = c_chan c) Hl HR) as HF.
  split.
  - rewrite Hl. apply Hi.
  - intros p c' Hc'. destruct (HR p c' Hc') as (c & Hc & Hw & _). destruct (woken_cases c c' Hw) as (_ & -> & _). by apply Hi.
  - apply Hi.
  - apply Hi.
  - intros p c' Hc'. destruct (HR p c' Hc') as (c & Hc & Hw & _). destruct (woken_cases c c' Hw) as (_ & _ & -> & _). by eapply (iv_embryo _ _ _ _ Hi).
  - intros me p b Hm. destruct (iv_making _ _ _ _ Hi me p b Hm) as (Ha & c & Hc & Hs & Hp). split; [by eapply wake_alive|].
    destruct (HF p c Hc) as (c' & Hc' & Hw & _ & Ep & _). exists c'. split_and!; [done|by apply (woken_cases c c' Hw)|by rewrite Ep].
  - apply Hi.
  - intros p c' Hc'. destruct (HR p c' Hc') as (c & Hc & Hw & _ & -> & _). destruct (woken_cases c c' Hw) as (-> & _). by eapply Hi.
  - intros p c' Hc'. destruct (HR p c' Hc') as (c & Hc & Hw & _ & -> & _). destruct (woken_cases c c' Hw) as (-> & _ & -> & _). by eapply Hi.
  - intros p c' q Hc'. destruct (HR p c' Hc') as (c & Hc & Hw & _ & -> & _). intros E. eapply wake_alive; [done|]. by apply (iv_orphan _ _ _ _ Hi p c).
  - eapply wake_alive; [done|apply Hi].
  - intros p c' Hc'. destruct (HR p c' Hc') as (c & Hc & Hw & _ & _ & ->). intros Hs. eapply (iv_chan _ _ _ _ Hi p c Hc). by apply (woken_cases c c' Hw).
Qed.

Lemma insert_case (cs : list core) p c' : (p < length cs)%nat ->
  forall q d, <[p := c']> cs !! q = Some d -> (q = p /\ d = c') \/ (q <> p /\ cs !! q = Some d).
Proof.
  intros Hlt q d Hd. destruct (decide (q = p)) as [->|Hne]; [rewrite list_lookup_insert_eq in Hd by done; left; by simplify_eq|].
  rewrite list_lookup_insert_ne in Hd by done. by right.
Qed.
Lemma insert_alive cs p c c' q : cs !! p = Some c -> (live (c_state c) -> live (c_state c')) -> alive cs q -> alive (<[p := c']> cs) q.
Proof.
  intros Hp Hl (d & Hd & Hlv). destruct (decide (q = p)) as [->|Hne].
  - assert (d = c) as -> by congruence. exists c'. split; [by apply list_lookup_insert_eq, (lookup_lt_Some _ _ c)|auto].
  - exists d. by rewrite list_lookup_insert_ne.
Qed.

(** A live process changes between the live states. *)
Lemma inv_live cs init cu cu' mk p c c' :
  inv cs init cu mk -> cs !! p = Some c -> live (c_state c) -> live (c_state c') -> c_parent c' = c_parent c ->
  (c_state c' = SLEEPING -> c_chan c' <> None) ->
  (c_state c' = RUNNING <-> exists i, cu' !! i = Some (Some p)) ->
  (forall q, q <> p -> (exists i, cu' !! i = Some (Some q)) <-> (exists i, cu !! i = Some (Some q))) ->
  (forall i j q, cu' !! i = Some (Some q) -> cu' !! j = Some (Some q) -> i = j) ->
  inv (<[p := c']> cs) init cu' mk.
Proof.
  intros Hi Hp Hlc Hlc' Epar Hch Hrun Hoth Hinj. pose proof (lookup_lt_Some _ _ _ Hp) as Hlt. pose proof (insert_case cs p c' Hlt) as Hcase.
  assert (Hlive : forall q, alive cs q -> alive (<[p := c']> cs) q) by (intros q; by apply (insert_alive cs p c)).
  assert (Hst : c_state c <> UNUSED /\ c_state c <> EMBRYO /\ c_state c' <> UNUSED /\ c_state c' <> EMBRYO) by (unfold live in Hlc, Hlc'; intuition congruence).
  destruct Hst as (Hu & He & Hu' & He'). split.
  - rewrite length_insert. apply Hi.
  - intros q d [[-> ->]|[Hne Hd]]%Hcase; [done|]. rewrite (Hoth q Hne). by apply Hi.
  - apply Hinj.
  - intros i q Hq. destruct (decide (q = p)) as [->|Hne]; [rewrite <- (iv_len _ _ _ _ Hi); done|].
    destruct (proj1 (Hoth q Hne) ltac:(eauto)) as [j Hj]. by eapply Hi.
  - intros q d [[-> ->]|[Hne Hd]]%Hcase; [done|by eapply Hi].
  - intros me q b Hm. destruct (iv_making _ _ _ _ Hi me q b Hm) as (Ha & d & Hd & Hs & Hpar). split; [by apply Hlive|]. exists d.
    rewrite list_lookup_insert_ne; [done|]. intros <-. congruence.
  - apply Hi.
  - intros q d [[-> ->]|[Hne Hd]]%Hcase; [done|by eapply Hi].
  - intros q d [[-> ->]|[Hne Hd]]%Hcase Hs Hs' Hq; [rewrite Epar|]; by eapply (iv_parent _ _ _ _ Hi).
  - intros q d r [[-> ->]|[Hne Hd]]%Hcase E; apply Hlive; [rewrite Epar in E|]; by eapply (iv_orphan _ _ _ _ Hi).
  - apply Hlive, Hi.
  - intros q d [[-> ->]|[Hne Hd]]%Hcase; [done|by eapply Hi].
Qed.

(** exit: the children go to init, the process becomes a zombie. *)
Definition exit_rel (me init : nat) (cs cs' : list core) : Prop :=
  length cs' = length cs /\
  forall p c', cs' !! p = Some c' -> exists c, cs !! p = Some c /\ c_pid c' = c_pid c /\ c_chan c' = c_chan c /\
    c_parent c' = (if decide (c_parent c = Some me) then Some init else c_parent c) /\
    (if decide (p = me) then c_state c' = ZOMBIE else woken c c').

(** A processor goes back to its scheduler. *)
Lemma cur_leave (cu : list (option nat)) i me :
  cu !! i = Some (Some me) -> (forall i j p, cu !! i = Some (Some p) -> cu !! j = Some (Some p) -> i = j) ->
  (~ exists j, <[i := None]> cu !! j = Some (Some me)) /\
  (forall q, q <> me -> (exists j, <[i := None]> cu !! j = Some (Some q)) <-> (exists j, cu !! j = Some (Some q))) /\
  (forall j k p, <[i := None]> cu !! j = Some (Some p) -> <[i := None]> cu !! k = Some (Some p) -> j = k).
Proof.
  intros Hi Hinj. assert (Hin : forall j p, <[i := None]> cu !! j = Some (Some p) -> j <> i /\ cu !! j = Some (Some p)).
  { intros j p Hj. apply list_lookup_insert_Some in Hj as [(_ & E & _)|[? ?]]; [discriminate E|done]. }
  split_and!.
  - intros (j & [Hne Hj]%Hin). by apply Hne, (Hinj j i me).
  - intros q Hq. split; intros (j & Hj); exists j; [by apply Hin|]. rewrite list_lookup_insert_ne; [done|]. intros ->. congruence.
  - intros j k p [_ Hj]%Hin [_ Hk]%Hin. by eapply Hinj.
Qed.

Lemma exit_alive me init cs cs' q : exit_rel me init cs cs' -> q <> me -> alive cs q -> alive cs' q.
Proof.
  intros [Hl HR] Hq (d & Hd & Hlv). destruct (rel_fwd cs cs' (fun p c c' => c_pid c' = c_pid c /\ c_chan c' = c_chan c /\
    c_parent c' = (if decide (c_parent c = Some me) then Some init else c_parent c) /\ (if decide (p = me) then c_state c' = ZOMBIE else woken c c')) Hl HR q d Hd) as (d' & Hd' & _ & _ & _ & Hw).
  rewrite decide_False in Hw by done. exists d'. split; [done|]. by apply (woken_cases d d' Hw).
Qed.

Lemma inv_exit cs cs' init cu mk i me :
  inv cs init cu mk -> exit_rel me init cs cs' -> cu !! i = Some (Some me) -> me <> init -> mk !! me = None -> inv cs' init (<[i := None]> cu) mk.
Proof.
  intros Hi Hrel Hcu Hmi Hmk. pose proof Hrel as [Hl HR]. destruct (cur_leave cu i me Hcu (iv_cur _ _ _ _ Hi)) as (Hn & Ho & Hinj).
  pose proof (rel_fwd cs cs' (fun p c c' => c_pid c' = c_pid c /\ c_chan c' = c_chan c /\
    c_parent c' = (if decide (c_parent c = Some me) then Some init else c_parent c) /\ (if decide (p = me) then c_state c' = ZOMBIE else woken c c')) Hl HR) as HF.
  destruct (lookup_lt_is_Some_2 cs me) as [cme Hme]; [rewrite (iv_len _ _ _ _ Hi); by eapply Hi|].
  assert (Hrun : c_state cme = RUNNING) by (apply (iv_run _ _ _ _ Hi me cme Hme); eauto).
  assert (Hst : forall p c c', cs !! p = Some c -> (if decide (p = me) then c_state c' = ZOMBIE else woken c c') ->
    (c_state c' = UNUSED <-> c_state c = UNUSED) /\ (c_state c' = EMBRYO <-> c_state c = EMBRYO) /\ (c_state c' = SLEEPING -> c_state c = SLEEPING)).
  { intros p c c' Hc Hw. destruct (decide (p = me)) as [->|Hne].
    - assert (c = cme) as -> by congruence. rewrite Hw, Hrun. intuition congruence.
    - destruct (woken_cases c c' Hw) as (? & _ & ? & _ & ?). intuition congruence. }
  assert (Hlive : forall q, q <> me -> alive cs q -> alive cs' q) by (intros q; by apply (exit_alive me init)).
  split.
  - rewrite Hl. apply Hi.
  - intros p c' Hc'. destruct (HR p c' Hc') as (c & Hc & _ & _ & _ & Hw). destruct (decide (p = me)) as [->|Hne].
    + rewrite Hw. split; [done|]. intros He. by destruct Hn.
    + rewrite (Ho p Hne). destruct (woken_cases c c' Hw) as (_ & -> & _). by apply Hi.
  - apply Hinj.
  - intros j p Hj. apply list_lookup_insert_Some in Hj as [(_ & E & _)|[_ Hj]]; [discriminate E|by eapply Hi].
  - intros p c' Hc'. destruct (HR p c' Hc') as (c & Hc & _ & _ & _ & Hw). destruct (Hst p c c' Hc Hw) as (_ & -> & _). by eapply Hi.
  - intros m p b Hm. assert (Hne : m <> me) by congruence. destruct (iv_making _ _ _ _ Hi m p b Hm) as (Ha & c & Hc & Hs & Hpar). split; [by apply Hlive|].
    destruct (HF p c Hc) as (c' & Hc' & _ & _ & Ep & Hw). exists c'. split_and!; [done|by apply (Hst p c c' Hc Hw)|].
    rewrite Ep, decide_False; [done|]. rewrite Hpar. destruct b; congruence.
  - apply Hi.
  - intros p c' Hc'. destruct (HR p c' Hc') as (c & Hc & _ & _ & Ep & Hw). destruct (Hst p c c' Hc Hw) as [-> _]. intros Hu.
    rewrite Ep, (iv_free _ _ _ _ Hi p c Hc Hu). by rewrite decide_False.
  - intros p c' Hc'. destruct (HR p c' Hc') as (c & Hc & _ & _ & Ep & Hw). destruct (Hst p c c' Hc Hw) as (-> & -> & _). intros Hu He Hp.
    rewrite Ep. destruct (decide (c_parent c = Some me)); [done|]. by apply (iv_parent _ _ _ _ Hi p c).
  - intros p c' q Hc' Hq. destruct (HR p c' Hc') as (c & Hc & _ & _ & Ep & _). rewrite Ep in Hq. destruct (decide (c_parent c = Some me)) as [Hd|Hd].
    + injection Hq as <-. apply Hlive; [done|apply Hi].
    + apply Hlive; [congruence|]. by eapply (iv_orphan _ _ _ _ Hi).
  - apply Hlive; [done|apply Hi].
  - intros p c' Hc'. destruct (HR p c' Hc') as (c & Hc & _ & -> & _ & Hw). intros Hs. eapply (iv_chan _ _ _ _ Hi p c Hc). by apply (Hst p c c' Hc Hw).
Qed.

(** Replacing an entry that is not alive; [mk'] has the makers of the other entries. *)
Lemma inv_replace cs init cu mk mk' p c c' :
  inv cs init cu mk -> cs !! p = Some c -> c_state c = UNUSED \/ c_state c = ZOMBIE \/ c_state c = EMBRYO ->
  c_state c' = UNUSED /\ c_parent c' = None \/ c_state c' = EMBRYO \/ c_state c' = RUNNABLE /\ c_parent c' <> None ->
  (forall q, c_parent c' = Some q -> alive cs q) ->
  (forall me q b, q <> p -> mk' !! me = Some (q, b) <-> mk !! me = Some (q, b)) ->
  (forall me (b : bool), mk' !! me = Some (p, b) -> c_state c' = EMBRYO /\ alive cs me /\ c_parent c' = if b then Some me else None) ->
  (c_state c' = EMBRYO -> exists me b, mk' !! me = Some (p, b)) ->
  (forall me me' b b', mk' !! me = Some (p, b) -> mk' !! me' = Some (p, b') -> me = me') ->
  inv (<[p := c']> cs) init cu mk'.
Proof.
  intros Hi Hp Hc Hc' Hpar Hmk Hmk1 Hmk2 Hmk3. pose proof (lookup_lt_Some _ _ _ Hp) as Hlt. pose proof (insert_case cs p c' Hlt) as Hcase.
  assert (Hnl : ~ live (c_state c)) by (unfold live; intuition congruence).
  assert (Hlive : forall q, alive cs q -> alive (<[p := c']> cs) q) by (intros q; by apply (insert_alive cs p c)).
  assert (Hnorun : ~ exists i, cu !! i = Some (Some p)).
  { intros He. apply (iv_run _ _ _ _ Hi p c Hp) in He. intuition congruence. }
  assert (Hpi : p <> init).
  { intros ->. destruct (iv_init _ _ _ _ Hi) as (d & Hd & Hlv). assert (d = c) as -> by congruence. done. }
  split.
  - rewrite length_insert. apply Hi.
  - intros q d [[-> ->]|[Hne Hd]]%Hcase; [|by apply Hi]. split; [intros; intuition congruence|done].
  - apply Hi.
  - apply Hi.
  - intros q d [[-> ->]|[Hne Hd]]%Hcase Hs; [auto|]. destruct (iv_embryo _ _ _ _ Hi q d Hd Hs) as (me & b & Hm). exists me, b. by apply Hmk.
  - intros me q b Hm. destruct (decide (q = p)) as [->|Hne].
    + destruct (Hmk1 me b Hm) as (Hs & Ha & Epar). split; [by apply Hlive|]. exists c'. by rewrite list_lookup_insert_eq.
    + apply Hmk in Hm; [|done]. destruct (iv_making _ _ _ _ Hi me q b Hm) as (Ha & d & Hd). split; [by apply Hlive|]. exists d. by rewrite list_lookup_insert_ne.
  - intros me me' q b b' Hm Hm'. destruct (decide (q = p)) as [->|Hne]; [by eapply Hmk3|]. apply Hmk in Hm, Hm'; [|done..]. by eapply (iv_maker _ _ _ _ Hi).
  - intros q d [[-> ->]|[Hne Hd]]%Hcase; [intros; intuition congruence|by eapply Hi].
  - intros q d [[-> ->]|[Hne Hd]]%Hcase Hs Hs' Hq; [intuition congruence|by eapply (iv_parent _ _ _ _ Hi)].
  - intros q d r [[-> ->]|[Hne Hd]]%Hcase E; apply Hlive; [by apply Hpar|by eapply (iv_orphan _ _ _ _ Hi)].
  - apply Hlive, Hi.
  - intros q d [[-> ->]|[Hne Hd]]%Hcase; [intros; intuition congruence|by eapply Hi].
Qed.

(** Pids are kept by entries in use, and entries may be given up. *)
Lemma pids_keep cs cs' np : pids cs np ->
  (forall p c', cs' !! p = Some c' -> exists c, cs !! p = Some c /\ ((c_state c' = UNUSED /\ (c_pid c' = c_pid c \/ c_pid c' = 0)) \/ (c_state c <> UNUSED /\ c_pid c' = c_pid c))) ->
  pids cs' np.
Proof.
  intros [Hn Hp Hu] HR. split; [done| |].
  - intros p c' Hc'. destruct (HR p c' Hc') as (c & Hc & Hcase). destruct (Hp p c Hc) as [Hlt Hpos]. destruct Hcase as [[Hs Hc0]|[Hs ->]]; [|auto]. split; [destruct Hc0; lia|done].
  - intros p q c' d' Hc' Hd' Hs Hs' E. destruct (HR p c' Hc') as (c & Hc & [[? _]|[? Ec]]); [done|]. destruct (HR q d' Hd') as (d & Hd & [[? _]|[? Ed]]); [done|].
    apply (Hu p q c d Hc Hd); try done. congruence.
Qed.
Lemma pids_insert cs np p c c' : pids cs np -> cs !! p = Some c ->
  (c_state c' = UNUSED /\ (c_pid c' = c_pid c \/ c_pid c' = 0)) \/ (c_state c <> UNUSED /\ c_pid c' = c_pid c) -> pids (<[p := c']> cs) np.
Proof.
  intros Hp Hc Hcase. apply (pids_keep cs); [done|]. intros q d [[-> ->]|[_ Hd]]%insert_case; [by exists c| |by eapply lookup_lt_Some].
  exists d. split; [done|]. destruct (decide (c_state d = UNUSED)); [left|right]; auto.
Qed.
(** An unused entry takes the next pid. *)
Lemma pids_take cs np p c c' : pids cs np -> cs !! p = Some c -> c_pid c' = np -> pids (<[p := c']> cs) (np + 1).
Proof.
  intros [Hn Hp Hu] Hc E. pose proof (insert_case cs p c' (lookup_lt_Some _ _ _ Hc)) as Hcase. split; [lia| |].
  - intros q d [[-> ->]|[_ Hd]]%Hcase; [lia|]. destruct (Hp q d Hd). split; [lia|done].
  - intros q r d e [[-> ->]|[Hne Hd]]%Hcase [[-> ->]|[Hne' He]]%Hcase Hs Hs' Ep; try done.
    + destruct (Hp r e He). lia.
    + destruct (Hp q d Hd). lia.
    + by eapply Hu.
Qed.
Lemma pids_rel cs cs' np : pids cs np -> (forall p c', cs' !! p = Some c' -> exists c, cs !! p = Some c /\ c_pid c' = c_pid c /\ (c_state c' <> UNUSED -> c_state c <> UNUSED)) -> pids cs' np.
Proof.
  intros Hp HR. apply (pids_keep cs); [done|]. intros p c' Hc'. destruct (HR p c' Hc') as (c & Hc & E & Hu). exists c. split; [done|].
  destruct (decide (c_state c' = UNUSED)); auto.
Qed.

(** *** The operations on the core *)

Lemma service_inv {A} (m : M K A) t a t' : service m t = Ok a t' -> exists k, t' = set_k k t.
Proof. unfold service, zoom. destruct (m (pt_k t)); [|done]. intros [= <- <-]. eauto. Qed.
Lemma proc_at_inv p t x t' : proc_at p t = Ok x t' -> pt_proc t !! p = Some x /\ t' = t.
Proof.
  unfold proc_at. intros E. minv E t1 t2 E1. injection E1 as -> ->. destruct (pt_proc t2 !! p) eqn:Hp; [|done]. by injection E as -> ->.
Qed.
Lemma upd_inv p f t u t' :
  upd_proc p f t = Ok u t' -> exists x, pt_proc t !! p = Some x /\ t' = set_procs (<[p := f x]> (pt_proc t)) t.
Proof. unfold upd_proc. intros E. minv E x t1 E1. apply proc_at_inv in E1 as [Hx ->]. injection E as <- <-. by exists x. Qed.
Lemma acquire_inv t u t' : pt_acquire t = Ok u t' -> pt_lock t = false /\ t' = set_pt_lock true (pt_ncli t + 1) t.
Proof. unfold pt_acquire. intros E. minv E t1 t2 E1. injection E1 as -> ->. destruct (pt_lock t2); [done|]. by injection E as <- <-. Qed.
Lemma release_inv t u t' : pt_release t = Ok u t' -> pt_lock t = true /\ t' = set_pt_lock false (pt_ncli t - 1) t.
Proof. unfold pt_release. intros E. minv E t1 t2 E1. injection E1 as -> ->. destruct (pt_lock t2); [|done]. by injection E as <- <-. Qed.
Lemma sched_inv me t u t' :
  sched me t = Ok u t' -> pt_lock t = true /\ pt_ncli t = 1 /\ t' = set_pt_lock false 0 t /\ exists x, pt_proc t !! me = Some x /\ p_state x <> RUNNING.
Proof.
  unfold sched, interruptible. intros E. minv E t1 t2 E1. injection E1 as -> ->. destruct (pt_lock t2) eqn:El; [|done]. cbn [negb] in E.
  destruct (Z.eqb_spec (pt_ncli t2) 1) as [En|]; [|done]. cbn [negb] in E. minv E x t1 E1. apply proc_at_inv in E1 as [Hx ->].
  destruct (decide (p_state x = RUNNING)); [done|]. rewrite En in E. apply release_inv in E as [_ ->]. rewrite En. split_and!; try done. by exists x.
Qed.

(** The parts the invariant looks at do not change. *)
Definition frame (t t' : ptable) : Prop := same_rest t t' /\ cores t' = cores t.
Lemma same_rest_refl t : same_rest t t. Proof. done. Qed.
Lemma frame_refl t : frame t t. Proof. done. Qed.
Lemma frame_trans t1 t2 t3 : frame t1 t2 -> frame t2 t3 -> frame t1 t3.
Proof. intros [(? & ? & ? & ?) ?] [(? & ? & ? & ?) ?]. split; [split_and!|]; congruence. Qed.

Lemma cores_insert p x t : cores (set_procs (<[p := x]> (pt_proc t)) t) = <[p := core_of x]> (cores t).
Proof. unfold cores. cbn [pt_proc set_procs]. apply list_fmap_insert. Qed.
Lemma cores_lookup t p x : pt_proc t !! p = Some x -> cores t !! p = Some (core_of x).
Proof. intros Hx. unfold cores. by rewrite list_lookup_fmap, Hx. Qed.
Lemma frame_upd p t x y :
  pt_proc t !! p = Some x -> core_of y = core_of x -> frame t (set_procs (<[p := y]> (pt_proc t)) t).
Proof. intros Hx Ef. split; [done|]. rewrite cores_insert, Ef. apply list_insert_id. by apply cores_lookup. Qed.

(** Actions that keep the frame. *)
Definition quiet {A} (m : M ptable A) : Prop := forall t a t', m t = Ok a t' -> frame t t'.
Lemma quiet_mret {A} (a : A) : quiet (mret a).
Proof. intros t b t' [= <- <-]. apply frame_refl. Qed.
Lemma quiet_seq {A B} (m : M ptable A) (f : A -> M ptable B) : quiet m -> (forall a, quiet (f a)) -> quiet (m ≫= f).
Proof. intros Hm Hf t b t' E. minv E a t1 E1. eapply frame_trans; [by eapply Hm|by eapply Hf]. Qed.
Lemma quiet_service {A} (m : M K A) : quiet (service m).
Proof. intros t a t' [k ->]%service_inv. done. Qed.
Lemma quiet_proc_at p : quiet (proc_at p).
Proof. intros t x t' [_ ->]%proc_at_inv. apply frame_refl. Qed.
Lemma quiet_upd p f : (forall x, core_of (f x) = core_of x) -> quiet (upd_proc p f).
Proof. intros Hf t u t' (x & Hx & ->)%upd_inv. by apply (frame_upd p t x). Qed.
Lemma quiet_deref {A} e (o : option A) : quiet (deref e o).
Proof. intros t a t' E. destruct o; [|done]. injection E as <- <-. apply frame_refl. Qed.
Lemma quiet_panic {A} e : quiet (panic (A := A) e).
Proof. by intros t a t'. Qed.
Ltac quiet :=
  repeat first
    [progress (intros; cbv zeta) | apply quiet_mret | apply quiet_service | apply quiet_proc_at | apply quiet_deref | apply quiet_panic
    | apply quiet_upd; intros; reflexivity | apply quiet_seq | case_match].

Lemma orderly_quiet {A B} me o (m : M ptable A) (k : A -> code B) :
  quiet m -> (forall a, orderly me o (k a)) -> orderly me o (a ⇐ m; k a).
Proof.
  intros Hm Hk. constructor. intros t c t' _ E. minv E a t1 E1. injection E as <- <-. destruct (Hm _ _ _ E1) as [Hr Hc].
  split; [done|]. exists o. split; [|done]. rewrite Hc. constructor.
Qed.
(** An action that changes the state or parent of the entry in the making. *)
Lemma orderly_upd {B} me np (b : bool) o' f (k : unit -> code B) :
  (forall x, p_state x = EMBRYO -> p_parent x = (if b then Some me else None) ->
     forall cs, cs !! np = Some (core_of x) -> effect me cs (Some (np, b)) o' (<[np := core_of (f x)]> cs)) ->
  (forall u, orderly me o' (k u)) -> orderly me (Some (np, b)) (u ⇐ upd_proc np f; k u).
Proof.
  intros Hf Hk. constructor. intros t c t' (d & Hd & Hs & Hp) E. minv E u t1 E1. injection E as <- <-. apply upd_inv in E1 as (x & Hx & ->).
  pose proof (cores_lookup _ _ _ Hx) as Hx'. assert (d = core_of x) as -> by congruence. split; [done|]. exists o'. split; [|done]. rewrite cores_insert. by apply Hf.
Qed.

Lemma alloc_stack_orderly {A} me np (k : option nat -> code A) :
  orderly me None (k None) -> orderly me (Some (np, false)) (k (Some np)) -> orderly me (Some (np, false)) (alloc_stack np k).
Proof.
  intros H0 H1. unfold alloc_stack. apply orderly_quiet; [quiet|]. intros ks. apply orderly_quiet; [quiet|]. intros _. destruct (ks =? 0).
  - apply orderly_upd with (o' := None); [|done]. intros x Hs Hp cs Hc. pose proof (ef_drop me cs np (core_of x) Hc) as Hef. unfold core_of in *. cbn in *. by rewrite Hp.
  - apply orderly_quiet; [quiet|done].
Qed.
Lemma dup_files_orderly {A} me np o i n (k : code A) : orderly me o k -> orderly me o (dup_files me np i n k).
Proof.
  intros Hk. revert i. induction n as [|n IH]; intros i; cbn [dup_files]; [done|]. apply orderly_quiet; [quiet|]. intros [g|]; [|done].
  apply orderly_quiet; [quiet|done].
Qed.
Lemma fork_fill_orderly me np : orderly me (Some (np, false)) (fork_fill me np).
Proof.
  unfold fork_fill. apply orderly_quiet; [quiet|]. intros pg. apply orderly_quiet; [quiet|]. intros _. destruct (pg =? 0).
  - apply orderly_quiet; [quiet|]. intros _. apply orderly_quiet; [quiet|]. intros _.
    apply orderly_upd with (o' := None); [|intros; constructor]. intros x Hs Hp cs Hc. pose proof (ef_drop me cs np (core_of x) Hc) as Hef. unfold core_of in *. cbn in *. by rewrite Hp.
  - apply orderly_quiet; [quiet|]. intros _.
    apply orderly_upd with (o' := Some (np, true)).
    { intros x Hs Hp cs Hc. pose proof (ef_parent me cs np (core_of x) Hc) as Hef. unfold core_of in *. cbn in *. by rewrite Hs. }
    intros _. apply orderly_quiet; [quiet|]. intros _. apply orderly_quiet; [quiet|]. intros _.
    apply dup_files_orderly, orderly_quiet; [quiet|]. intros c. apply orderly_quiet; [quiet|]. intros _. apply orderly_quiet; [quiet|]. intros pid.
    apply orderly_upd with (o' := None).
    { intros x Hs Hp cs Hc. pose proof (ef_ready me cs np (core_of x) Hc) as Hef. unfold core_of in *. cbn in *. by rewrite Hp. }
    intros _. apply orderly_quiet; [quiet|]. constructor.
Qed.
Lemma fork_rest_orderly me o : orderly me ((fun np => (np, false)) <$> o) (fork_rest me o).
Proof. destruct o as [np|]; [|constructor]. apply (alloc_stack_orderly me np); [constructor|apply fork_fill_orderly]. Qed.
Lemma growproc_orderly me n : orderly me None (growproc_code me n).
Proof.
  apply orderly_quiet; [quiet|]. intros sz. destruct (negb (n =? 0) && (sz =? 0)); [constructor|].
  apply orderly_quiet; [quiet|]. constructor.
Qed.
Lemma handler_orderly me h : orderly me None (handler_code me h).
Proof.
  apply orderly_quiet; [quiet|]. intros a. apply orderly_quiet; [quiet|]. intros _.
  apply orderly_quiet; [quiet|]. intros _. apply orderly_quiet; [quiet|]. constructor.
Qed.
Lemma close_files_orderly {A} me i n (k : code A) : orderly me None k -> orderly me None (close_files me i n k).
Proof.
  intros Hk. revert i. induction n as [|n IH]; intros i; cbn [close_files]; [done|]. apply orderly_quiet; [quiet|]. intros [|]; [|done].
  apply orderly_quiet; [quiet|done].
Qed.
Lemma exit_files_orderly me : orderly me None (exit_files me).
Proof. apply close_files_orderly, orderly_quiet; [quiet|]. intros _. apply orderly_quiet; [quiet|]. constructor. Qed.

Lemma wake_rel_refl cs : wake_rel cs cs.
Proof. split; [done|]. intros p c Hc. exists c. split_and!; try done. by left. Qed.
Lemma wake_rel_trans cs1 cs2 cs3 : wake_rel cs1 cs2 -> wake_rel cs2 cs3 -> wake_rel cs1 cs3.
Proof.
  intros [Hl1 H1] [Hl2 H2]. split; [congruence|]. intros p c3 Hc3. destruct (H2 p c3 Hc3) as (c2 & Hc2 & Hw2 & ? & ? & ?).
  destruct (H1 p c2 Hc2) as (c1 & Hc1 & Hw1 & ? & ? & ?). exists c1. split_and!; try congruence.
  unfold woken in *. destruct Hw2 as [->|[E2 ->]]; [done|]. destruct Hw1 as [E1|[E1 E1']]; [right; split; [congruence|done]|congruence].
Qed.

Lemma wakeup1_cores ch t u t' :
  wakeup1 ch t = Ok u t' -> wake_rel (cores t) (cores t') /\ pt_lock t' = pt_lock t /\ pt_nextpid t' = pt_nextpid t /\ pt_init t' = pt_init t /\ pt_ncli t' = pt_ncli t.
Proof.
  unfold wakeup1. intros [= <- <-]. split; [|done]. unfold cores. cbn [pt_proc set_procs]. split; [by rewrite !length_fmap|].
  intros p c' Hc'. rewrite !list_lookup_fmap in Hc'. destruct (pt_proc t !! p) as [x|] eqn:Hx; [|done]. cbn in Hc'. injection Hc' as <-.
  exists (core_of x). split; [by rewrite list_lookup_fmap, Hx|]. unfold wake. case_decide as Hd; [|by split_and!; [left| | |]]. destruct Hd as [Hs _].
  split_and!; try done. right. cbn. done.
Qed.

(** What [abandon] leaves of the entries below [hi]. *)
Definition abandon_rel (me init lo hi : nat) (cs cs' : list core) : Prop :=
  length cs' = length cs /\
  forall p c', cs' !! p = Some c' -> exists c, cs !! p = Some c /\ woken c c' /\ c_pid c' = c_pid c /\ c_chan c' = c_chan c /\
    c_parent c' = (if decide ((lo <= p < hi)%nat /\ c_parent c = Some me) then Some init else c_parent c).

Lemma abandon_run me i n t u t' init :
  abandon me i n t = Ok u t' -> pt_init t = Some init -> me <> init ->
  abandon_rel me init i (i + n) (cores t) (cores t') /\ pt_lock t' = pt_lock t /\ pt_nextpid t' = pt_nextpid t /\ pt_init t' = pt_init t /\ pt_ncli t' = pt_ncli t.
Proof.
  intros E Hi Hmi. revert i t E Hi. induction n as [|n IH]; intros i t E Hi; cbn [abandon] in E.
  { injection E as <- <-. split; [|done]. split; [done|]. intros p c Hc. exists c. split_and!; try done; [by left|]. rewrite decide_False by lia. done. }
  minv E x t1 E1. apply proc_at_inv in E1 as [Hx ->]. minv E v t1 E1.
  assert (Hstep : abandon_rel me init i (S i) (cores t) (cores t1) /\ pt_lock t1 = pt_lock t /\ pt_nextpid t1 = pt_nextpid t /\ pt_init t1 = pt_init t /\ pt_ncli t1 = pt_ncli t).
  { case_bool_decide as Hp; cbn [when] in E1.
    - minv E1 t2 t3 E2. injection E2 as -> ->. minv E1 w t2 E2. apply upd_inv in E2 as (x' & Hx' & ->). assert (x' = x) as -> by congruence.
      assert (Hw : wake_rel (<[i := core_of (set_parent (pt_init t3) x)]> (cores t3)) (cores t1) /\ pt_lock t1 = pt_lock t3 /\ pt_nextpid t1 = pt_nextpid t3 /\ pt_init t1 = pt_init t3 /\ pt_ncli t1 = pt_ncli t3).
      { rewrite <- cores_insert. case_bool_decide; cbn [when] in E1; [by apply wakeup1_cores in E1|]. injection E1 as <- <-. split; [apply wake_rel_refl|done]. }
      destruct Hw as ([Hl Hw] & Hrest). split; [|done]. rewrite length_insert in Hl. split; [done|]. intros p c' Hc'.
      destruct (Hw p c' Hc') as (c & Hc & Hwk & E3 & E4 & E5). destruct (decide (p = i)) as [->|Hne].
      + rewrite list_lookup_insert_eq in Hc by (unfold cores; rewrite length_fmap; by eapply lookup_lt_Some). injection Hc as <-.
        exists (core_of x). split; [by apply cores_lookup|]. split_and!; try done. rewrite decide_True by (split; [lia|done]). by rewrite E4, <- Hi.
      + rewrite list_lookup_insert_ne in Hc by done. exists c. split_and!; try done. rewrite decide_False by lia. done.
    - injection E1 as <- <-. split; [|done]. split; [done|]. intros p c Hc. exists c. split_and!; try done; [by left|].
      rewrite decide_False; [done|]. intros [Hpi Hpar]. assert (p = i) as -> by lia. rewrite (cores_lookup t i x Hx) in Hc. injection Hc as <-. by apply Hp. }
  destruct Hstep as ([Hl1 H1] & El & En & Ei & Ec). destruct (IH (S i) t1 E ltac:(congruence)) as ([Hl2 H2] & El2 & En2 & Ei2 & Ec2).
  split; [|split_and!; congruence]. split; [congruence|]. intros p c' Hc'. destruct (H2 p c' Hc') as (c1 & Hc1 & Hw2 & Ep2 & Eh2 & Epar2).
  destruct (H1 p c1 Hc1) as (c & Hc & Hw1 & Ep1 & Eh1 & Epar1). exists c. split; [done|]. split_and!; try congruence.
  - unfold woken in *. destruct Hw2 as [->|[Es ->]]; [done|]. destruct Hw1 as [Es1|[Es1 Es1']]; [right; split; [congruence|done]|congruence].
  - rewrite Epar2. destruct (decide ((S i <= p < S i + n)%nat /\ c_parent c1 = Some me)) as [[Ha Hb]|Ha].
    + rewrite Epar1, decide_False in Hb by lia. by rewrite decide_True by (split; [lia|done]).
    + destruct (decide ((i <= p < S i)%nat /\ c_parent c = Some me)) as [[Hc1' Hd]|Hb].
      * rewrite Epar1, decide_True by (split; [lia|done]). done.
      * rewrite decide_False; [done|]. intros [Hr Hm]. destruct (decide (p = i)) as [->|Hne]; [apply Hb; split; [lia|done]|].
        apply Ha. split; [lia|]. by rewrite Epar1.
Qed.

Lemma find_state_spec st l k p :
  find_state st l k = Some p -> exists x, l !! (p - k)%nat = Some x /\ p_state x = st /\ (k <= p)%nat.
Proof.
  revert k. induction l as [|x l IH]; intros k E; [done|]. cbn [find_state] in E. destruct (decide (p_state x = st)) as [Es|Es].
  - injection E as <-. exists x. by rewrite Nat.sub_diag.
  - destruct (IH (S k) E) as (y & Hy & Hs & Hk). exists y. split_and!; [|done|lia]. by replace (p - k)%nat with (S (p - S k)) by lia.
Qed.

(** The search of allocproc. *)
Lemma alloc_entry_inv t o t' :
  alloc_entry t = Ok o t' ->
  pt_lock t = false /\ pt_init t' = pt_init t /\ pt_lock t' = false /\ pt_ncli t' = pt_ncli t /\
  match o with
  | None => cores t' = cores t /\ pt_nextpid t' = pt_nextpid t
  | Some p =>
      exists c, cores t !! p = Some c /\ c_state c = UNUSED /\ pt_nextpid t' = i32 (pt_nextpid t + 1) /\
        cores t' = <[p := (EMBRYO, pt_nextpid t, c_parent c, c_chan c)]> (cores t)
  end.
Proof.
  unfold alloc_entry. intros E. minv E u t1 E1. apply acquire_inv in E1 as [Hl ->]. minv E t1 t2 E1. injection E1 as <- <-. cbn [pt_proc pt_nextpid set_pt_lock] in E.
  destruct (find_state UNUSED (pt_proc t) 0) as [p|] eqn:Ef.
  2:{ minv E v t1 E1. apply release_inv in E1 as [_ ->]. injection E as <- <-. split_and!; try done. cbn. lia. }
  destruct (find_state_spec _ _ _ _ Ef) as (x & Hx & Hs & _). rewrite Nat.sub_0_r in Hx.
  minv E v t1 E1. apply upd_inv in E1 as (x1 & Hx1 & ->). cbn [pt_proc set_pt_lock] in Hx1. assert (x1 = x) as -> by congruence.
  minv E v1 t1 E1. injection E1 as <- <-. minv E v1 t1 E1. apply release_inv in E1 as [_ ->]. injection E as <- <-.
  split_and!; try done; [cbn; lia|]. exists (core_of x). split_and!; try done; [by apply cores_lookup|].
  unfold cores. cbn [pt_proc set_pt_lock set_nextpid set_procs]. by rewrite list_fmap_insert.
Qed.
Lemma run_seq {A B} (m : M ptable A) (k : A -> code B) t : run (a ⇐ m; k a) t = (m ≫= (fun a => run (k a))) t.
Proof. cbn [run]. unfold mbind, M_bind, mret, M_ret. by destruct (m t). Qed.
Lemma allocproc_some t p t' :
  allocproc t = Ok (Some p) t' ->
  pt_init t' = pt_init t /\ pt_lock t' = false /\ pt_ncli t' = pt_ncli t /\ pt_nextpid t' = i32 (pt_nextpid t + 1) /\
  exists c, cores t !! p = Some c /\ cores t' = <[p := (EMBRYO, pt_nextpid t, c_parent c, c_chan c)]> (cores t).
Proof.
  unfold allocproc, alloc_stack. intros E. minv E o t1 E1. apply alloc_entry_inv in E1 as (_ & I & L & N & Ho). destruct o as [p'|]; [|done].
  destruct Ho as (c & Hc & _ & Hn & Ec). rewrite run_seq in E. minv E ks t2 E2. apply quiet_service in E2 as F2. rewrite run_seq in E. minv E u t3 E3.
  apply quiet_upd in E3 as F3; [|done]. destruct (ks =? 0); rewrite run_seq in E; minv E v t4 E4; [by destruct (upd_proc p' _ t3)|].
  apply quiet_upd in E4 as F4; [|done]. injection E as <- <-. destruct (frame_trans _ _ _ (frame_trans _ _ _ F2 F3) F4) as [(R1 & R2 & R3 & R4) R5].
  split_and!; try congruence. exists c. split; [done|congruence].
Qed.

(** *** Steps of the machine *)

Definition set_mk (me : nat) (o : option (nat * bool)) (mk : making) : making := partial_alter (fun _ => o) me mk.
Lemma set_mk_eq me o mk : set_mk me o mk !! me = o.
Proof. apply lookup_partial_alter_eq. Qed.
Lemma set_mk_ne me o mk q : q <> me -> set_mk me o mk !! q = mk !! q.
Proof. intros. by apply lookup_partial_alter_ne. Qed.

Lemma inv_maker cs init cu mk me : inv cs init cu mk -> maker me (mk !! me) cs.
Proof. intros Hi. destruct (mk !! me) as [[p b]|] eqn:E; [|done]. by apply (iv_making _ _ _ _ Hi). Qed.
Lemma effect_alive me cs o o' cs' q : effect me cs o o' cs' -> maker me o cs -> alive cs q -> alive cs' q.
Proof.
  intros [o1|np c Hc|np c Hc|np c Hc]; [done|..]; intros (d & Hd & Hs & _); assert (d = c) as -> by congruence; apply insert_alive with (c := c); try done; rewrite Hs; unfold live; intuition congruence.
Qed.
Lemma effect_pids me cs o o' cs' np : effect me cs o o' cs' -> maker me o cs -> pids cs np -> pids cs' np.
Proof.
  intros [o1|p c Hc|p c Hc|p c Hc]; [done|..]; intros (d & Hd & Hs & _) Hp; assert (d = c) as -> by congruence; apply (pids_insert cs np p c); try done; [right|left|right]; (split; [congruence|]) || split; auto; congruence.
Qed.
(** [me] changes the entry it makes. *)
Lemma inv_made cs init cu mk me p b c c' o' :
  inv cs init cu mk -> mk !! me = Some (p, b) -> cs !! p = Some c -> alive cs me ->
  c_state c' = UNUSED /\ c_parent c' = None /\ o' = None \/ c_state c' = EMBRYO /\ c_parent c' = Some me /\ o' = Some (p, true) \/ c_state c' = RUNNABLE /\ c_parent c' = Some me /\ o' = None ->
  inv (<[p := c']> cs) init cu (set_mk me o' mk).
Proof.
  intros Hi Hm Hc Ha Hcase. destruct (iv_making _ _ _ _ Hi me p b Hm) as (_ & d & Hd & Hs & _). assert (d = c) as -> by congruence.
  assert (Hother : forall m q b', set_mk me o' mk !! m = Some (q, b') -> m <> me -> mk !! m = Some (q, b') /\ q <> p).
  { intros m q b' E Hne. rewrite set_mk_ne in E by done. split; [done|]. intros ->. apply Hne. by eapply (iv_maker _ _ _ _ Hi). }
  apply (inv_replace cs init cu mk _ p c); auto.
  - intuition congruence.
  - intros q Hq. assert (q = me) as -> by intuition congruence. done.
  - intros m q b' Hq. destruct (decide (m = me)) as [->|Hne]; [|by rewrite set_mk_ne]. rewrite set_mk_eq. split; [intros E; intuition congruence|congruence].
  - intros m b' E. destruct (decide (m = me)) as [->|Hne]; [|by apply Hother in E as [_ ?]]. rewrite set_mk_eq in E.
    destruct Hcase as [(_ & _ & ->)|[(? & ? & ->)|(_ & _ & ->)]]; [done| |done]. injection E as <-. done.
  - intros He. exists me, true. rewrite set_mk_eq. intuition congruence.
  - intros m m' b1 b2 E E'. destruct (decide (m = me)) as [->|Hne]; [|by apply Hother in E as [_ ?]]. destruct (decide (m' = me)) as [->|Hne]; [done|by apply Hother in E' as [_ ?]].
Qed.
Lemma inv_effect cs init cu mk me o' cs' :
  inv cs init cu mk -> alive cs me -> effect me cs (mk !! me) o' cs' -> inv cs' init cu (set_mk me o' mk).
Proof.
  intros Hi Ha He. remember (mk !! me) as o eqn:Eo. symmetry in Eo. destruct He as [o1|np c Hc|np c Hc|np c Hc].
  - assert (set_mk me o1 mk = mk) as ->; [|done]. apply map_eq. intros q. destruct (decide (q = me)) as [->|]; [by rewrite set_mk_eq|by rewrite set_mk_ne].
  - eapply inv_made; try done. right; left. done.
  - eapply inv_made; try done. by left.
  - eapply inv_made; try done. by right; right.
Qed.
(** [me] begins to make an entry. *)
Lemma inv_alloc cs init cu mk me p c pid ch :
  inv cs init cu mk -> mk !! me = None -> alive cs me -> cs !! p = Some c -> c_state c = UNUSED ->
  inv (<[p := (EMBRYO, pid, c_parent c, ch)]> cs) init cu (set_mk me (Some (p, false)) mk).
Proof.
  intros Hi Hm Ha Hc Hs. rewrite (iv_free _ _ _ _ Hi p c Hc Hs).
  assert (Hno : forall m b, mk !! m <> Some (p, b)).
  { intros m b E. destruct (iv_making _ _ _ _ Hi m p b E) as (_ & d & Hd & Hse & _). congruence. }
  assert (Hat : forall m b, set_mk me (Some (p, false)) mk !! m = Some (p, b) -> m = me /\ b = false).
  { intros m b E. destruct (decide (m = me)) as [->|Hne]; [rewrite set_mk_eq in E; by simplify_eq|]. rewrite set_mk_ne in E by done. by apply Hno in E. }
  apply (inv_replace cs init cu mk _ p c); auto; cbn.
  - done.
  - intros m q b Hq. destruct (decide (m = me)) as [->|Hne]; [|by rewrite set_mk_ne]. rewrite set_mk_eq. split; intros; congruence.
  - intros m b [-> ->]%Hat. done.
  - intros _. exists me, false. apply set_mk_eq.
  - by intros m m' b b' [-> _]%Hat [-> _]%Hat.
Qed.

(** Which process runs, and its entry. *)
Lemma inv_running cs i cu mk c me : inv cs i cu mk -> cu !! c = Some (Some me) -> exists x, cs !! me = Some x /\ c_state x = RUNNING.
Proof.
  intros Hi Hc. destruct (lookup_lt_is_Some_2 cs me) as [x Hx]; [rewrite (iv_len _ _ _ _ Hi); by eapply Hi|].
  exists x. split; [done|]. apply (iv_run _ _ _ _ Hi me x Hx). eauto.
Qed.
Lemma inv_running_alive cs i cu mk c me : inv cs i cu mk -> cu !! c = Some (Some me) -> alive cs me.
Proof. intros Hi Hc. destruct (inv_running _ _ _ _ _ _ Hi Hc) as (x & Hx & Hr). exists x. unfold live. auto. Qed.

Lemma step_leave cs i cu mk c me x c' :
  inv cs i cu mk -> cu !! c = Some (Some me) -> cs !! me = Some x -> live (c_state c') -> c_state c' <> RUNNING ->
  c_parent c' = c_parent x -> (c_state c' = SLEEPING -> c_chan c' <> None) ->
  inv (<[me := c']> cs) i (<[c := None]> cu) mk.
Proof.
  intros Hi Hc Hx Hlv Hnr Epar Hch. destruct (cur_leave cu c me Hc (iv_cur _ _ _ _ Hi)) as (Hn & Ho & Hinj).
  apply (inv_live cs i cu _ mk me x c'); try done.
  destruct (inv_running _ _ _ _ _ _ Hi Hc) as (x' & Hx' & Hr). assert (x' = x) as -> by congruence. unfold live. auto.
Qed.
Lemma inv_schedule cs i cu mk c p x :
  inv cs i cu mk -> cu !! c = Some None -> cs !! p = Some x -> c_state x = RUNNABLE ->
  inv (<[p := (RUNNING, c_pid x, c_parent x, None)]> cs) i (<[c := Some p]> cu) mk.
Proof.
  intros Hinv H Hx Hr. pose proof (lookup_lt_Some _ _ _ H) as Hc.
  assert (Hnp : forall j, cu !! j <> Some (Some p)).
  { intros j Hj. assert (c_state x = RUNNING) by (apply (iv_run _ _ _ _ Hinv p x Hx); eauto). congruence. }
  assert (Hin : forall j q, <[c := Some p]> cu !! j = Some (Some q) -> (j = c /\ q = p) \/ (j <> c /\ cu !! j = Some (Some q))).
  { intros j q Hj. apply list_lookup_insert_Some in Hj as [(-> & E & _)|[? ?]]; [left; split; [done|congruence]|by right]. }
  apply (inv_live cs i cu _ mk p x); try done; [unfold live; auto|unfold live; auto| | |].
  - split; [|done]. intros _. exists c. by rewrite list_lookup_insert_eq.
  - intros q Hq. split; intros (j & Hj).
    + apply Hin in Hj as [[_ ->]|[_ Hj]]; [done|eauto].
    + exists j. rewrite list_lookup_insert_ne; [done|]. intros ->. congruence.
  - intros j k q [[-> ->]|[Hj1 Hj]]%Hin [[-> Hq]|[Hk1 Hk]]%Hin; try done; [by apply Hnp in Hk|subst; by apply Hnp in Hj|by eapply Hinv].
Qed.

Lemma exit_locked_cores me t u t' init :
  exit_locked me t = Ok u t' -> pt_init t = Some init -> me <> init ->
  pt_lock t = false /\ pt_lock t' = false /\ pt_nextpid t' = pt_nextpid t /\ pt_init t' = pt_init t /\ exit_rel me init (cores t) (cores t').
Proof.
  unfold exit_locked. intros E Hi Hmi. minv E v4 t2 E3. apply acquire_inv in E3 as [Hl ->].
  minv E x5 t2 E3. apply proc_at_inv in E3 as [Hx5 ->]. minv E v6 t2 E3. apply wakeup1_cores in E3 as (Hw & W1 & W2 & W3 & W4).
  cbn [pt_lock pt_nextpid pt_init pt_ncli set_pt_lock] in W1, W2, W3, W4. minv E t3 t4 E4. injection E4 as <- <-.
  minv E v7 t3 E4. apply (abandon_run me _ _ _ _ _ init) in E4 as (Ha & A1 & A2 & A3 & A4); [|congruence|done].
  minv E v8 t4 E5. apply upd_inv in E5 as (z & Hz & ->). apply sched_inv in E as (_ & _ & -> & _).
  cbn [pt_lock pt_nextpid pt_init pt_ncli set_pt_lock set_procs]. split_and!; try done; try congruence.
  change (cores (set_pt_lock true (pt_ncli t + 1) t)) with (cores t) in Hw. destruct Hw as [Hl1 Hw]. destruct Ha as [Hl2 Ha].
  assert (Hlen : length (pt_proc t2) = length (cores t)) by (rewrite <- Hl1; unfold cores; by rewrite length_fmap).
  change (cores (set_pt_lock false 0 (set_procs (<[me := set_state ZOMBIE z]> (pt_proc t3)) t3))) with (cores (set_procs (<[me := set_state ZOMBIE z]> (pt_proc t3)) t3)).
  rewrite cores_insert. split; [rewrite length_insert; congruence|]. intros p c' Hc'.
  assert (Hcase : exists c3, cores t3 !! p = Some c3 /\ c_pid c' = c_pid c3 /\ c_chan c' = c_chan c3 /\ c_parent c' = c_parent c3 /\ (if decide (p = me) then c_state c' = ZOMBIE else c_state c' = c_state c3)).
  { destruct (decide (p = me)) as [->|Hne].
    - rewrite list_lookup_insert_eq in Hc' by (unfold cores; rewrite length_fmap; by eapply lookup_lt_Some). apply (inj Some) in Hc'. subst c'.
      exists (core_of z). by rewrite (cores_lookup t3 me z Hz).
    - rewrite list_lookup_insert_ne in Hc' by done. by exists c'. }
  destruct Hcase as (c3 & Hc3 & -> & -> & -> & Hst). destruct (Ha p c3 Hc3) as (c2 & Hc2 & Hw2 & -> & -> & ->). destruct (Hw p c2 Hc2) as (c1 & Hc1 & Hw1 & -> & Ep1 & ->).
  exists c1. split_and!; try done.
  - rewrite Ep1. assert (Hp : (p < length (pt_proc t2))%nat) by (rewrite Hlen; by eapply lookup_lt_Some).
    destruct (decide (c_parent c1 = Some me)) as [Em|Em]; [by rewrite decide_True by (split; [lia|done])|]. rewrite decide_False; [done|]. by intros [_ ?].
  - destruct (decide (p = me)); [done|]. unfold woken in *. rewrite Hst. destruct Hw2 as [->|[Es ->]]; [done|]. destruct Hw1 as [Es1|[Es1 Es1']]; [right; split; [congruence|done]|congruence].
Qed.

Lemma wait_scan_inl me l k h c :
  wait_scan me l k h = inl c -> exists x, l !! (c - k)%nat = Some x /\ (k <= c)%nat /\ p_parent x = Some me /\ p_state x = ZOMBIE.
Proof.
  revert k h. induction l as [|x l IH]; intros k h E; [done|]. cbn [wait_scan] in E.
  assert (Hrec : forall h', wait_scan me l (S k) h' = inl c -> exists x0, (x :: l) !! (c - k)%nat = Some x0 /\ (k <= c)%nat /\ p_parent x0 = Some me /\ p_state x0 = ZOMBIE).
  { intros h' E'. destruct (IH (S k) h' E') as (y & Hy & ? & ?). exists y. split_and!; try apply H0; [|lia]. by replace (c - k)%nat with (S (c - S k)) by lia. }
  destruct (decide (p_parent x = Some me)) as [Hp|Hp]; [|by eapply Hrec].
  destruct (decide (p_state x = ZOMBIE)) as [Hz|Hz]; [|by eapply Hrec]. injection E as <-. exists x. by rewrite Nat.sub_diag.
Qed.

Lemma sleep_inv me ch other t u t' :
  sleep me ch other t = Ok u t' ->
  pt_init t' = pt_init t /\ pt_lock t' = false /\ pt_nextpid t' = pt_nextpid t /\
  exists c, cores t !! me = Some c /\ cores t' = <[me := (SLEEPING, c_pid c, c_parent c, Some ch)]> (cores t).
Proof.
  unfold sleep. intros E. minv E v t1 E1.
  assert (Ht1 : pt_proc t1 = pt_proc t /\ pt_init t1 = pt_init t /\ pt_nextpid t1 = pt_nextpid t).
  { destruct other; cbn [when] in E1; [|by injection E1 as <- <-]. minv E1 w t2 E2. apply acquire_inv in E2 as [_ ->]. by injection E1 as <- <-. }
  destruct Ht1 as (Hp1 & Hi1 & Hn1). minv E v1 t2 E2. apply upd_inv in E2 as (x & Hx & ->). minv E v2 t2 E2. apply upd_inv in E2 as (y & Hy & ->).
  apply sched_inv in E as (_ & _ & -> & _). cbn [pt_proc set_procs] in Hy. rewrite list_lookup_insert_eq in Hy by (by eapply lookup_lt_Some). injection Hy as <-.
  split_and!; try done. exists (core_of x). rewrite Hp1 in Hx. split; [by apply cores_lookup|]. unfold cores. cbn [pt_proc set_procs set_pt_lock].
  by rewrite list_insert_insert_eq, list_fmap_insert, Hp1.
Qed.

Lemma wait_cores me t r t' :
  wait me t = Ok r t' ->
  pt_lock t = false /\ pt_lock t' = false /\ pt_init t' = pt_init t /\ pt_nextpid t' = pt_nextpid t /\
  match r with
  | Some r =>
      (r = -1 /\ cores t' = cores t) \/
      exists p c, cores t !! p = Some c /\ c_state c = ZOMBIE /\ c_parent c = Some me /\ r = c_pid c /\
        cores t' = <[p := (UNUSED, 0, None, c_chan c)]> (cores t)
  | None => exists c, cores t !! me = Some c /\ cores t' = <[me := (SLEEPING, c_pid c, c_parent c, Some (CProc me))]> (cores t)
  end.
Proof.
  unfold wait. intros E. minv E u t1 E1. apply acquire_inv in E1 as [Hl ->]. minv E t1 t2 E1. injection E1 as <- <-. cbn [pt_proc set_pt_lock] in E.
  destruct (wait_scan me (pt_proc t) 0 false) as [c|kids] eqn:Es.
  - destruct (wait_scan_inl _ _ _ _ _ Es) as (x & Hx & _ & Hpar & Hz). rewrite Nat.sub_0_r in Hx.
    minv E x1 t1 E1. apply proc_at_inv in E1 as [Hx1 ->]. cbn [pt_proc set_pt_lock] in Hx1. assert (x1 = x) as -> by congruence.
    minv E v t1 E1. apply service_inv in E1 as [k ->]. minv E v1 t1 E1. apply upd_inv in E1 as (y & Hy & ->). cbn [pt_proc set_k set_pt_lock] in Hy. assert (y = x) as -> by congruence.
    minv E v2 t1 E1. apply service_inv in E1 as [k2 ->]. minv E v3 t1 E1. apply upd_inv in E1 as (y & Hy2 & ->). minv E v4 t1 E1. apply release_inv in E1 as [_ ->]. injection E as <- <-.
    cbn [pt_proc set_k set_pt_lock set_procs] in Hy2. rewrite list_lookup_insert_eq in Hy2 by (by eapply lookup_lt_Some). injection Hy2 as <-.
    split_and!; try done. right. exists c, (core_of x). split_and!; try done; [by apply cores_lookup|].
    unfold cores. cbn [pt_proc set_k set_pt_lock set_procs]. by rewrite list_insert_insert_eq, list_fmap_insert.
  - minv E x t1 E1. apply proc_at_inv in E1 as [Hx ->]. destruct (negb kids || p_killed x).
    + minv E v t1 E1. apply release_inv in E1 as [_ ->]. injection E as <- <-. split_and!; try done. by left.
    + minv E v t1 E1. apply sleep_inv in E1 as (Hi & Hl' & Hn & c & Hc & Ec). injection E as <- <-. split_and!; try done. by exists c.
Qed.

Lemma kill_cores pid t r t' :
  kill pid t = Ok r t' -> pt_lock t = false /\ pt_lock t' = false /\ pt_init t' = pt_init t /\ pt_nextpid t' = pt_nextpid t /\ wake_rel (cores t) (cores t').
Proof.
  unfold kill. intros E. minv E u t1 E1. apply acquire_inv in E1 as [Hl ->]. minv E t1 t2 E1. injection E1 as <- <-. cbn [pt_proc set_pt_lock] in E.
  destruct (kill_scan pid (pt_proc t) 0) as [p|].
  - minv E v t1 E1. apply upd_inv in E1 as (x & Hx & ->). cbn [pt_proc set_pt_lock] in Hx. minv E v1 t1 E1. apply release_inv in E1 as [_ ->]. injection E as <- <-.
    split_and!; try done. unfold cores. cbn [pt_proc set_pt_lock set_procs]. rewrite list_fmap_insert. split; [by rewrite length_insert|]. intros q c' Hc'.
    destruct (decide (q = p)) as [->|Hne].
    + rewrite list_lookup_insert_eq in Hc' by (rewrite length_fmap; by eapply lookup_lt_Some). apply (inj Some) in Hc'. subst c'.
      exists (core_of x). split; [by rewrite list_lookup_fmap, Hx|]. cbv zeta. case_decide as Hd; [|by split_and!; [left| | |]]. split_and!; try done. right. done.
    + rewrite list_lookup_insert_ne in Hc' by done. exists c'. split_and!; try done. by left.
  - minv E v t1 E1. apply release_inv in E1 as [_ ->]. injection E as <- <-. split_and!; try done. apply wake_rel_refl.
Qed.

Lemma schedule_cores p t t1 t2 :
  schedule p t = Ok true t1 -> resume p t1 = Ok tt t2 ->
  pt_lock t = false /\ pt_lock t2 = false /\ pt_init t2 = pt_init t /\ pt_nextpid t2 = pt_nextpid t /\
  exists c, cores t !! p = Some c /\ c_state c = RUNNABLE /\ cores t2 = <[p := (RUNNING, c_pid c, c_parent c, None)]> (cores t).
Proof.
  unfold schedule, resume. intros E E2. minv E u t3 E1. apply acquire_inv in E1 as [Hl ->]. minv E x t3 E1. apply proc_at_inv in E1 as [Hx ->].
  cbn [pt_proc set_pt_lock] in Hx. destruct (decide (p_state x = RUNNABLE)) as [Hr|Hr]; [|minv E v t3 E1; done].
  minv E v t3 E1. apply upd_inv in E1 as (y & Hy & ->). cbn [pt_proc set_pt_lock] in Hy. assert (y = x) as -> by congruence.
  minv E v1 t3 E1. apply release_inv in E1 as [_ ->]. injection E as <-. apply upd_inv in E2 as (z & Hz & ->). cbn [pt_proc set_pt_lock set_procs] in Hz.
  rewrite list_lookup_insert_eq in Hz by (by eapply lookup_lt_Some). injection Hz as <-. split_and!; try done. exists (core_of x).
  split_and!; [by apply cores_lookup|done|]. unfold cores. cbn [pt_proc set_pt_lock set_procs]. by rewrite list_insert_insert_eq, list_fmap_insert.
Qed.

Lemma yield_cores me t u t' :
  yield me t = Ok u t' ->
  pt_lock t = false /\ pt_lock t' = false /\ pt_init t' = pt_init t /\ pt_nextpid t' = pt_nextpid t /\
  exists c, cores t !! me = Some c /\ cores t' = <[me := (RUNNABLE, c_pid c, c_parent c, c_chan c)]> (cores t).
Proof.
  unfold yield. intros E. minv E v t1 E1. apply acquire_inv in E1 as [Hl ->]. minv E v1 t1 E1. apply upd_inv in E1 as (x & Hx & ->).
  apply sched_inv in E as (_ & _ & -> & _). split_and!; try done. exists (core_of x). split; [by apply cores_lookup|].
  change (cores (set_procs (<[me := set_state RUNNABLE x]> (pt_proc (set_pt_lock true (pt_ncli t + 1) t))) (set_pt_lock true (pt_ncli t + 1) t)) = <[me := (RUNNABLE, p_pid x, p_parent x, p_chan x)]> (cores t)).
  by rewrite cores_insert.
Qed.

(** One process [me] goes on: its entry in the making is [o] and its task [k] now. *)
Lemma sys_go t td i mk t' cu' me o k :
  pt_lock t' = false -> pt_init t' = Some i -> inv (cores t') i cu' (set_mk me o mk) ->
  (forall q, task_ok i q (mk !! q) (td !! q)) -> (forall q, is_Some (td !! q) -> alive (cores t) q) ->
  (forall q, q <> me -> alive (cores t) q -> alive (cores t') q) -> task_ok i me o k -> (is_Some k -> alive (cores t') me) ->
  sys_inv (mkSys t' cu' (partial_alter (fun _ => k) me td)).
Proof.
  intros Hl Hi Hinv Htask Hal Hmono Hk Hme. split; [done|]. exists i, (set_mk me o mk). cbn [tab cur todo]. split_and!; try done.
  - intros q. destruct (decide (q = me)) as [->|Hne]; [by rewrite set_mk_eq, lookup_partial_alter_eq|]. rewrite set_mk_ne, lookup_partial_alter_ne by done. apply Htask.
  - intros q Hq. destruct (decide (q = me)) as [->|Hne]; [rewrite lookup_partial_alter_eq in Hq; auto|]. rewrite lookup_partial_alter_ne in Hq by done. auto.
Qed.
(** The tasks stay. *)
Lemma sys_stay t td i mk t' cu' :
  pt_lock t' = false -> pt_init t' = Some i -> inv (cores t') i cu' mk ->
  (forall q, task_ok i q (mk !! q) (td !! q)) -> (forall q, is_Some (td !! q) -> alive (cores t) q) ->
  (forall q, alive (cores t) q -> alive (cores t') q) -> sys_inv (mkSys t' cu' td).
Proof. intros Hl Hi Hinv Htask Hal Hmono. split; [done|]. exists i, mk. cbn [tab cur todo]. split_and!; auto. Qed.
Lemma set_mk_id me mk : set_mk me (mk !! me) mk = mk.
Proof. apply map_eq. intros q. destruct (decide (q = me)) as [->|]; [by rewrite set_mk_eq|by rewrite set_mk_ne]. Qed.
Lemma set_mk_none me (mk : making) : mk !! me = None -> set_mk me None mk = mk.
Proof. intros <-. apply set_mk_id. Qed.

(** What a step does to the pids. *)
Definition pids_step (s : sys) (j : nat) (s' : sys) : Prop :=
  sys_pids s -> (j = 1%nat -> pt_nextpid (tab s) < 2 ^ 31 - 1) -> sys_pids s' /\ pt_nextpid (tab s') <= pt_nextpid (tab s) + Z.of_nat j.
Lemma pids_step_same t cu td cu' td' t' : pt_nextpid t' = pt_nextpid t -> (pids (cores t) (pt_nextpid t) -> pids (cores t') (pt_nextpid t)) ->
  pids_step (mkSys t cu td) 0 (mkSys t' cu' td').
Proof. intros E Hp H _. unfold sys_pids in *. cbn [tab] in *. rewrite E. split; [auto|lia]. Qed.

Section Step.
Context (t : ptable) (cu : list (option nat)) (td : gmap nat task) (i : nat) (mk : making).
Context (Hl : pt_lock t = false) (Hi : pt_init t = Some i) (Hinv : inv (cores t) i cu mk).
Context (Htask : forall q, task_ok i q (mk !! q) (td !! q)) (Hal : forall q, is_Some (td !! q) -> alive (cores t) q).

(** An action of the code that [me] runs. *)
Lemma act_step {A} (C : code A -> task) c me o m k t' :
  cu !! c = Some (Some me) -> mk !! me = o -> orderly me o (Act m) -> m t = Ok k t' ->
  (forall o' k, orderly me o' k -> (o = None -> o' = None) -> task_ok i me o' (Some (C k))) ->
  sys_inv (mkSys t' cu (<[me := C k]> td)) /\ pids_step (mkSys t cu td) 0 (mkSys t' cu (<[me := C k]> td)).
Proof.
  intros Hc <- Hor E HC. inversion Hor as [|? ? Hm]; subst. pose proof (inv_maker _ _ _ _ me Hinv) as Hmk. destruct (Hm t k t' Hmk E) as ((R1 & R2 & R3 & R4) & o' & Hef & Hk).
  pose proof (inv_running_alive _ _ _ _ _ _ Hinv Hc) as Ha. split.
  - apply (sys_go t td i mk t' cu me o' (Some (C k))); try done; try congruence.
    + by apply inv_effect with (cs := cores t).
    + intros q _. by eapply effect_alive.
    + apply HC; [done|]. intros E0. rewrite E0 in Hef. by inversion Hef.
    + intros _. by eapply effect_alive.
  - apply pids_step_same; [done|]. by eapply effect_pids.
Qed.
(** [me] begins or ends a task without touching the table. *)
Lemma task_step c me k : cu !! c = Some (Some me) -> mk !! me = None -> task_ok i me None k ->
  sys_inv (mkSys t cu (partial_alter (fun _ => k) me td)) /\ pids_step (mkSys t cu td) 0 (mkSys t cu (partial_alter (fun _ => k) me td)).
Proof.
  intros Hc Hm Hk. split; [|by apply pids_step_same]. apply (sys_go t td i mk t cu me None k); try done.
  - by rewrite set_mk_none.
  - intros _. by eapply inv_running_alive.
Qed.
(** [me] leaves its processor alive. *)
Lemma leave_step c me x st ch t' :
  cu !! c = Some (Some me) -> cores t !! me = Some x -> st = SLEEPING /\ ch <> None \/ st = RUNNABLE ->
  pt_lock t' = false -> pt_init t' = pt_init t -> pt_nextpid t' = pt_nextpid t -> cores t' = <[me := (st, c_pid x, c_parent x, ch)]> (cores t) ->
  inv (cores t') i (<[c := None]> cu) mk /\ (forall q, alive (cores t) q -> alive (cores t') q) /\
  forall td', pids_step (mkSys t cu td) 0 (mkSys t' (<[c := None]> cu) td').
Proof.
  intros Hc Hx Hst L I N Ec. destruct (inv_running _ _ _ _ _ _ Hinv Hc) as (x' & Hx' & Hr). assert (x' = x) as -> by congruence.
  assert (Hlv : live st) by (unfold live; intuition congruence). rewrite Ec. split_and!.
  - apply (step_leave (cores t) i cu mk c me x); try done; cbn; intuition congruence.
  - intros q. by apply (insert_alive (cores t) me x).
  - intros td'. apply pids_step_same; [done|]. rewrite Ec. intros Hp. apply (pids_insert _ _ me x); [done|done|]. right. split; [congruence|done].
Qed.
Lemma fork_step c me o t' : cu !! c = Some (Some me) -> td !! me = None -> alloc_entry t = Ok o t' ->
  let s' := mkSys t' cu (<[me := InCall (fork_rest me o)]> td) in sys_inv s' /\ pids_step (mkSys t cu td) 1 s'.
Proof.
  intros Hc Hid E. pose proof (inv_running_alive _ _ _ _ _ _ Hinv Hc) as Ha. apply alloc_entry_inv in E as (_ & I & L & _ & Ho).
  pose proof (Htask me) as Hm. rewrite Hid in Hm. cbn in Hm. pose proof (fork_rest_orderly me o) as Hor. destruct o as [p|]; cbn [fmap option_fmap option_map] in Hor.
  - destruct Ho as (x & Hx & Hs & N & Ec). assert (Hal' : forall q, alive (cores t) q -> alive (cores t') q).
    { intros q. rewrite Ec. apply (insert_alive _ _ x); [done|]. rewrite Hs. unfold live. intuition congruence. }
    split.
    + apply (sys_go t td i mk t' cu me (Some (p, false)) (Some (InCall (fork_rest me (Some p))))); try done; auto; [congruence|]. rewrite Ec. by apply inv_alloc.
    + intros Hp Hlt. unfold sys_pids in *. cbn [tab] in *. specialize (Hlt eq_refl). rewrite N, Ec, i32_id by (destruct Hp; lia). split; [|lia]. by apply (pids_take _ _ p x).
  - destruct Ho as [Ec N]. split.
    + apply (sys_go t td i mk t' cu me None (Some (InCall (fork_rest me None)))); try done; rewrite ?Ec; try done; [congruence|by rewrite set_mk_none].
    + intros Hp _. unfold sys_pids in *. cbn [tab] in *. rewrite N, Ec. split; [done|lia].
Qed.
Lemma wait_step c me r t' : cu !! c = Some (Some me) -> mk !! me = None -> wait me t = Ok (Some r) t' ->
  let s' := mkSys t' cu (delete me td) in sys_inv s' /\ pids_step (mkSys t cu td) 0 s'.
Proof.
  intros Hc Hm E. apply wait_cores in E as (_ & L & I & N & Hr).
  assert (H : inv (cores t') i cu mk /\ (forall q, alive (cores t) q -> alive (cores t') q) /\ (pids (cores t) (pt_nextpid t) -> pids (cores t') (pt_nextpid t))).
  { destruct Hr as [[_ ->]|(p & x & Hx & Hz & Hp & _ & ->)]; [done|]. split_and!.
    - assert (Hno : forall m b, mk !! m <> Some (p, b)).
      { intros m b Em. destruct (iv_making _ _ _ _ Hinv m p b Em) as (_ & d & Hd & Hse & _). congruence. }
      apply (inv_replace (cores t) i cu mk mk p x); auto; cbn; intros; try done; exfalso; by eapply Hno.
    - intros q. apply (insert_alive _ _ x); [done|]. rewrite Hz. unfold live. intuition congruence.
    - intros Hpid. apply (pids_insert _ _ p x); [done..|]. left. auto. }
  destruct H as (H1 & H2 & H3). split; [|by apply pids_step_same].
  apply (sys_go t td i mk t' cu me None None); try done; auto; first [congruence | by rewrite set_mk_none | by intros [? ?]].
Qed.
Lemma exit_locked_step c me t' : cu !! c = Some (Some me) -> td !! me = Some (InExit (Done tt)) -> exit_locked me t = Ok tt t' ->
  let s' := mkSys t' (<[c := None]> cu) (delete me td) in sys_inv s' /\ pids_step (mkSys t cu td) 0 s'.
Proof.
  intros Hc Hk E. pose proof (Htask me) as Hm. rewrite Hk in Hm. destruct Hm as (Hm & Hmi & _).
  apply (exit_locked_cores me _ _ _ i) in E as (_ & L & N & I & Hrel); [|done..]. split.
  - apply (sys_go t td i mk t' _ me None None); try done; [congruence|rewrite set_mk_none by done; by eapply inv_exit|].
    intros q Hq. by eapply exit_alive.
  - apply pids_step_same; [done|]. intros Hp. apply (pids_rel (cores t)); [done|]. intros p c' Hc'. destruct (proj2 Hrel p c' Hc') as (x & Hx & Ep & _ & _ & Hw).
    exists x. split_and!; try done. destruct (decide (p = me)) as [->|].
    + intros _. destruct (inv_running _ _ _ _ _ _ Hinv Hc) as (x' & Hx' & Hr). congruence.
    + destruct (woken_cases _ _ Hw) as (-> & _). done.
Qed.
Lemma wake_step t' : pt_lock t' = false -> pt_init t' = pt_init t -> pt_nextpid t' = pt_nextpid t -> wake_rel (cores t) (cores t') ->
  sys_inv (mkSys t' cu td) /\ pids_step (mkSys t cu td) 0 (mkSys t' cu td).
Proof.
  intros L I N Hw. split.
  - apply (sys_stay t td i mk); try done; [congruence|by eapply inv_wake|]. intros q. by apply wake_alive.
  - apply pids_step_same; [done|]. intros Hp. apply (pids_rel (cores t)); [done|]. intros p c' Hc'. destruct (proj2 Hw p c' Hc') as (x & Hx & Hwk & Ep & _).
    exists x. split_and!; try done. destruct (woken_cases _ _ Hwk) as (-> & _). done.
Qed.
Lemma sched_step c p t1 t' : cu !! c = Some None -> schedule p t = Ok true t1 -> resume p t1 = Ok tt t' ->
  let s' := mkSys t' (<[c := Some p]> cu) td in sys_inv s' /\ pids_step (mkSys t cu td) 0 s'.
Proof.
  intros Hc E1 E2. destruct (schedule_cores p t t1 t' E1 E2) as (_ & L & I & N & x & Hx & Hr & Ec). split.
  - apply (sys_stay t td i mk); try done; rewrite ?Ec; [congruence|by apply inv_schedule|]. intros q. apply (insert_alive _ _ x); [done|]. unfold live. auto.
  - apply pids_step_same; [done|]. rewrite Ec. intros Hp. apply (pids_insert _ _ p x); [done..|]. right. split; [congruence|done].
Qed.
End Step.

Lemma sys_step_inv s j s' : step s j s' -> sys_inv s -> sys_inv s' /\ pids_step s j s'.
Proof.
  destruct s as [t cu td]. intros Hst (Hl & i & mk & Hi & Hinv & Htask & Hal). unfold runs_on, idle in Hst. destruct Hst; cbn [tab cur todo] in *.
  - by eapply sched_step.
  - destruct (yield_cores me t _ t0 H0) as (_ & L & I & N & x & Hx & Ec).
    destruct (leave_step t cu td i mk Hinv c me x RUNNABLE (c_chan x) t0) as (H1 & H2 & H3); auto. split; [|done]. by apply (sys_stay t td i mk); auto; congruence.
  - destruct (sleep_inv me ch true _ _ t0 H0) as (I & L & N & x & Hx & Ec). cbn [pt_init pt_nextpid set_pt_lock] in I, N.
    destruct (leave_step t cu td i mk Hinv c me x SLEEPING (Some ch) t0) as (H1 & H2 & H3); auto. split; [|done]. by apply (sys_stay t td i mk); auto; congruence.
  - by eapply fork_step.
  - pose proof (Htask me) as Hm. rewrite H0 in Hm. eapply (task_step t cu td i mk Hl Hi Hinv Htask Hal c me (Some _)); [done|done|]. apply growproc_orderly.
  - pose proof (Htask me) as Hm. rewrite H0 in Hm. eapply (task_step t cu td i mk Hl Hi Hinv Htask Hal c me (Some _)); [done|done|]. apply handler_orderly.
  - pose proof (Htask me) as Hm. rewrite H0 in Hm. by eapply (act_step t cu td i mk Hl Hi Hinv Htask Hal InCall).
  - pose proof (Htask me) as Hm. rewrite H0 in Hm. assert (Hn : mk !! me = None) by (by inversion Hm). by eapply (task_step t cu td i mk Hl Hi Hinv Htask Hal c me None).
  - pose proof (Htask me) as Hm. rewrite H0 in Hm. unfold exit_check in H1. minv H1 t1 t2 E1. injection E1 as -> ->. case_bool_decide as Hne; [done|]. injection H1 as ->.
    eapply (task_step t0 cu td i mk Hl Hi Hinv Htask Hal c me (Some _)); [done|done|]. split_and!; [done|congruence|apply exit_files_orderly].
  - pose proof (Htask me) as Hm. rewrite H0 in Hm. destruct Hm as (Hm & Hmi & Hor). eapply (act_step t cu td i mk Hl Hi Hinv Htask Hal InExit); try done.
    intros o' k' Hk' Ho. rewrite (Ho eq_refl) in *. done.
  - by eapply exit_locked_step.
  - pose proof (Htask me) as Hm. assert (Hn : mk !! me = None) by (destruct H0 as [E|E]; by rewrite E in Hm). by eapply wait_step.
  - pose proof (Htask me) as Hm. assert (Hn : mk !! me = None) by (destruct H0 as [E|E]; by rewrite E in Hm). destruct (wait_cores me t _ t0 H1) as (_ & L & I & N & x & Hx & Ec).
    destruct (leave_step t cu td i mk Hinv c me x SLEEPING (Some (CProc me)) t0) as (G1 & G2 & G3); auto. split; [|apply G3].
    apply (sys_go t td i mk t0 _ me None (Some InWait)); auto; [congruence|by rewrite set_mk_none|done|]. intros _. apply G2. by eapply inv_running_alive.
  - destruct (kill_cores pid t r t0 H) as (_ & L & I & N & Hw). by eapply wake_step.
  - unfold wakeup in H. minv H u t1 E1. apply acquire_inv in E1 as [_ ->]. minv H v t1 E1. apply wakeup1_cores in E1 as (Hw & W1 & W2 & W3 & _). apply release_inv in H as [_ ->].
    by eapply wake_step.
Qed.

Lemma boot_cores_inv p ncpu :
  (p < NPROC)%nat -> let cs := <[p := (RUNNABLE, 1, None, None)]> (replicate NPROC (UNUSED, 0, None, None)) in
  inv cs p (replicate ncpu None) ∅ /\ pids cs 2.
Proof.
  intros Hp cs.
  assert (Hcase : forall q c, cs !! q = Some c -> (q = p /\ c = (RUNNABLE, 1, None, None)) \/ (q <> p /\ c = (UNUSED, 0, None, None))).
  { intros q c Hc. apply list_lookup_insert_Some in Hc as [(-> & E & _)|[Hne Hc]]; [left; split; [done|congruence]|].
    apply lookup_replicate in Hc as [-> _]. right. split; [congruence|done]. }
  assert (Hcur : forall j q, (replicate ncpu None : list (option nat)) !! j <> Some (Some q)) by (intros j q [E _]%lookup_replicate; done).
  split; split.
  - unfold cs. by rewrite length_insert, length_replicate.
  - intros q c [[-> ->]|[_ ->]]%Hcase; (split; [done|]); intros (j & Hj); by apply Hcur in Hj.
  - intros j k q Hj. by apply Hcur in Hj.
  - intros j q Hj. by apply Hcur in Hj.
  - by intros q c [[-> ->]|[_ ->]]%Hcase.
  - done.
  - done.
  - intros q c [[-> ->]|[_ ->]]%Hcase; done.
  - intros q c [[-> ->]|[_ ->]]%Hcase; done.
  - intros q c r [[-> ->]|[_ ->]]%Hcase; done.
  - exists (RUNNABLE, 1, None, None). split; [|unfold live; auto]. unfold cs. by rewrite list_lookup_insert_eq by (by rewrite length_replicate).
  - intros q c [[-> ->]|[_ ->]]%Hcase; done.
  - lia.
  - intros q c [[-> ->]|[_ ->]]%Hcase; cbn; split; lia || done.
  - intros q r c d [[-> ->]|[_ ->]]%Hcase [[-> ->]|[_ ->]]%Hcase; done.
Qed.

Lemma boot_inv k ncpu t : userinit (boot k) = Ok tt t -> sys_inv (mkSys t (replicate ncpu None) ∅) /\ sys_pids (mkSys t (replicate ncpu None) ∅) /\ pt_nextpid t = 2.
Proof.
  unfold userinit. intros E. minv E o t1 E1. minv E p t2 E2. destruct o as [p0|]; [|done]. injection E2 as <- <-. apply allocproc_some in E1 as (I1 & L1 & _ & N1 & c & Hc & Ec).
  assert (Hcb : cores (boot k) = replicate NPROC (UNUSED, 0, None, None)) by (unfold cores, boot; cbn [pt_proc]; by rewrite fmap_replicate).
  rewrite Hcb in Hc, Ec. apply lookup_replicate in Hc as [-> Hp]. cbn [c_parent c_chan fst snd] in Ec. change (i32 (pt_nextpid (boot k) + 1)) with 2 in N1. change (pt_nextpid (boot k)) with 1 in Ec.
  minv E v1 t2 E1. injection E1 as <- <-. set (t2 := set_init (Some p0) t1) in E. minv E pg t3 E3. apply quiet_service in E3. minv E v4 t4 E4. apply quiet_upd in E4; [|done].
  destruct (pg =? 0); [done|]. minv E v5 t5 E5. apply quiet_service in E5. minv E v6 t6 E6. apply quiet_upd in E6; [|done]. minv E v7 t7 E7. apply quiet_upd in E7; [|done].
  minv E v8 t8 E8. apply quiet_upd in E8; [|done]. minv E cw t9 E9. apply quiet_service in E9. minv E v10 t10 E10. apply quiet_upd in E10; [|done].
  assert (F : frame t2 t10) by (repeat (eapply frame_trans; [eassumption|]); apply frame_refl). destruct F as [(R1 & R2 & R3 & _) R5].
  apply upd_inv in E as (x & Hx & ->). pose proof (cores_lookup _ _ _ Hx) as Hcx. rewrite R5 in Hcx. change (cores t2) with (cores t1) in Hcx, R5.
  rewrite Ec, list_lookup_insert_eq in Hcx by (by rewrite length_replicate). apply (inj Some) in Hcx. unfold core_of in Hcx. injection Hcx as D1 D2 D3 D4.
  assert (Ecs : cores (set_procs (<[p0 := set_state RUNNABLE x]> (pt_proc t10)) t10) = <[p0 := (RUNNABLE, 1, None, None)]> (replicate NPROC (UNUSED, 0, None, None))).
  { rewrite cores_insert, R5, Ec, list_insert_insert_eq. unfold core_of. cbn. by rewrite <- D2, <- D3, <- D4. }
  destruct (boot_cores_inv p0 ncpu Hp) as [Hinv Hpid]. unfold sys_pids. cbn [tab pt_nextpid set_procs]. rewrite Ecs, R2. change (pt_nextpid t2) with (pt_nextpid t1). rewrite N1.
  split_and!; [|done|done]. split; [cbn; by rewrite R1|]. exists p0, ∅. cbn [tab cur todo]. rewrite Ecs. split_and!; [by cbn; rewrite R3|done| |].
  - intros q. by rewrite !lookup_empty.
  - intros q. rewrite lookup_empty. by intros [? ?].
Qed.

Lemma sys_reachable_inv n s : reachable n s -> sys_inv s /\ (Z.of_nat n < 2 ^ 31 - 2 -> sys_pids s /\ pt_nextpid (tab s) <= Z.of_nat n + 2).
Proof.
  induction 1 as [k ncpu t E|n s j s' _ [IH1 IH2] Hst].
  - destruct (boot_inv k ncpu t E) as (H1 & H2 & H3). split; [done|]. intros _. cbn [tab]. split; [done|lia].
  - destruct (sys_step_inv _ _ _ Hst IH1) as [H1 H2]. split; [done|]. intros Hn. destruct IH2 as [Hp Hle]; [lia|]. destruct (H2 Hp) as [Hp' Hle']; [intros ->; lia|]. split; [done|lia].
Qed.

(** ** Claims *)

(** C4: in every state the machine of processors reaches from userinit, with the
    code of fork, exit, growproc and register_handler that holds no lock
    interleaved action by action with everything else, the process table is
    consistent: ptable.lock is free between operations; a process is RUNNING
    exactly when it is on one processor, and on no other; an EMBRYO entry is the
    one that the fork() of exactly one live process is filling, and has that
    process or nobody as its parent; an unused entry has no parent; every other
    process but init has a parent that is alive (its children pass to init when
    it exits), and init is alive for ever; a sleeping process has a channel.  As
    long as fewer than 2^31 - 2 forks have begun, so that nextpid has not
    wrapped around, the pids of the entries in use are positive, below nextpid
    and distinct. *)
Theorem proc_invariant n s : reachable n s -> sys_inv s /\ (Z.of_nat n < 2 ^ 31 - 2 -> sys_pids s).
Proof. intros H. destruct (sys_reachable_inv n s H) as [H1 H2]. split; [done|]. intros Hn. by apply H2. Qed.

(** Forward runs of the primitive operations. *)
Lemma proc_ok p x t : pt_proc t !! p = Some x -> proc_at p t = Ok x t.
Proof. intros Hx. unfold proc_at. mrun. by rewrite Hx. Qed.
Lemma upd_proc_ok p f x t : pt_proc t !! p = Some x -> upd_proc p f t = Ok tt (set_procs (<[p := f x]> (pt_proc t)) t).
Proof. intros Hx. unfold upd_proc. by rewrite (bind_ok _ _ _ _ _ (proc_ok p x t Hx)). Qed.
Lemma service_ok {A} (m : M K A) a k t : m (pt_k t) = Ok a k -> service m t = Ok a (set_k k t).
Proof. intros E. unfold service, zoom. by rewrite E. Qed.
Lemma pt_acquire_ok t : pt_lock t = false -> pt_acquire t = Ok tt (set_pt_lock true (pt_ncli t + 1) t).
Proof. intros E. unfold pt_acquire. mrun. by rewrite E. Qed.
Lemma pt_release_ok t : pt_lock t = true -> pt_release t = Ok tt (set_pt_lock false (pt_ncli t - 1) t).
Proof. intros E. unfold pt_release. mrun. by rewrite E. Qed.

Lemma sched_ok me x t :
  pt_lock t = true -> pt_ncli t = 1 -> pt_proc t !! me = Some x -> p_state x <> RUNNING ->
  sched me t = Ok tt (set_pt_lock false 0 t).
Proof.
  intros Hl Hn Hx Hs. unfold sched. mrun1. rewrite Hl, Hn. cbn [negb Z.eqb Pos.eqb]. mstep (proc_ok me x t Hx).
  rewrite decide_False by done. unfold interruptible. rewrite Hn. cbn [Z.eqb]. by rewrite (pt_release_ok t Hl), Hn.
Qed.
Lemma sleep_own_ok me c x t :
  pt_lock t = true -> pt_ncli t = 1 -> pt_proc t !! me = Some x ->
  sleep me c false t = Ok tt (set_pt_lock false 0 (set_procs (<[me := set_state SLEEPING (set_chan (Some c) x)]> (pt_proc t)) t)).
Proof.
  intros Hl Hn Hx. pose proof (lookup_lt_Some _ _ _ Hx) as Hlt. unfold sleep. cbn [when]. mrun1. mstep (upd_proc_ok me (set_chan (Some c)) x t Hx).
  set (t1 := set_procs _ _). assert (Hx1 : pt_proc t1 !! me = Some (set_chan (Some c) x)) by (by apply list_lookup_insert_eq).
  mstep (upd_proc_ok me (set_state SLEEPING) _ t1 Hx1). erewrite sched_ok; [|done|done|apply list_lookup_insert_eq; cbn [t1 pt_proc set_procs]; by rewrite length_insert|done].
  cbn [t1 pt_proc set_procs]. by rewrite list_insert_insert_eq.
Qed.

(** What wait() finds: [Some] zombie child, or whether there is any child. *)
Lemma wait_scan_inr me l k h b :
  wait_scan me l k h = inr b ->
  (forall x, x ∈ l -> p_parent x = Some me -> p_state x <> ZOMBIE) /\
  (b = true <-> h = true \/ exists x, x ∈ l /\ p_parent x = Some me).
Proof.
  revert k h. induction l as [|y l IH]; intros k h E; cbn [wait_scan] in E.
  - injection E as <-. split; [by intros x ?%elem_of_nil|]. split; [by left|]. intros [?|(x & []%elem_of_nil & _)]; done.
  - assert (Hrec : forall h', wait_scan me l (S k) h' = inr b -> (p_parent y = Some me -> p_state y <> ZOMBIE /\ h' = true) -> (p_parent y <> Some me -> h' = h) ->
      (forall x, x ∈ y :: l -> p_parent x = Some me -> p_state x <> ZOMBIE) /\ (b = true <-> h = true \/ exists x, x ∈ y :: l /\ p_parent x = Some me)).
    { intros h' E' Hy Hn. destruct (IH _ _ E') as [IH1 IH2]. split.
      - intros x [->|Hx]%elem_of_cons Hp; [by apply Hy|by apply IH1].
      - rewrite IH2. setoid_rewrite elem_of_cons. destruct (decide (p_parent y = Some me)) as [Hp|Hp].
        + destruct (Hy Hp) as [_ ->]. split; [intros _; right; exists y; auto|auto].
        + rewrite (Hn Hp). split; intros [?|(x & Hx & ?)]; eauto. destruct Hx as [->|?]; [done|eauto]. }
    destruct (decide (p_parent y = Some me)) as [Hp|Hp]; [|by apply (Hrec h)].
    destruct (decide (p_state y = ZOMBIE)) as [Hz|Hz]; [done|by apply (Hrec true)].
Qed.

(** C31: wait() in a consistent table, called by a running process that holds
    no lock, with a page allocator that takes pages back: with a zombie child
    it returns that child's pid, gives back its kernel stack and its address
    space, and frees its entry and nothing else; with no
    child, or when the caller was killed, it returns -1 and changes nothing;
    otherwise it sleeps on the caller's own channel, the one exit() wakes. *)
Theorem wait_correct me x t :
  (forall a k, exists k', s_kfree srv a k = Ok tt k') -> (forall a k, exists k', s_freevm srv a k = Ok tt k') ->
  pt_lock t = false -> pt_ncli t = 0 -> pt_proc t !! me = Some x ->
  let children := fun c => c ∈ pt_proc t /\ p_parent c = Some me in
  ((exists c y t', pt_proc t !! c = Some y /\ p_parent y = Some me /\ p_state y = ZOMBIE /\
      wait me t = Ok (Some (p_pid y)) t' /\ pt_lock t' = false /\ pt_ncli t' = 0 /\
      (exists k, s_kfree srv (p_kstack y) (pt_k t) = Ok tt k /\ s_freevm srv (p_pgdir y) k = Ok tt (pt_k t')) /\
      pt_proc t' = <[c := set_killed false (set_name [] (set_parent None (set_pid 0 (set_state UNUSED (set_kstack 0 y)))))]> (pt_proc t))
   \/ ((forall y, children y -> p_state y <> ZOMBIE) /\
       (p_killed x = true \/ forall y, ~ children y) /\ wait me t = Ok (Some (-1)) t)
   \/ ((forall y, children y -> p_state y <> ZOMBIE) /\ (exists y, children y) /\ p_killed x = false /\
       exists t', wait me t = Ok None t' /\ pt_lock t' = false /\
         pt_proc t' = <[me := set_state SLEEPING (set_chan (Some (CProc me)) x)]> (pt_proc t))).
Proof.
  intros Hkf Hfv Hl Hn Hx children. unfold wait. mstep (pt_acquire_ok t Hl). mrun1. set (t1 := set_pt_lock true _ t). cbn [pt_proc set_pt_lock t1].
  assert (Hback : set_pt_lock false (pt_ncli t1 - 1) t1 = t).
  { destruct t. cbn in *. unfold set_pt_lock, t1. cbn. subst. f_equal. }
  destruct (wait_scan me (pt_proc t) 0 false) as [c|kids] eqn:Es.
  - left. destruct (wait_scan_inl _ _ _ _ _ Es) as (y & Hy & _ & Hp & Hz). rewrite Nat.sub_0_r in Hy.
    pose proof (lookup_lt_Some _ _ _ Hy) as Hlt. destruct (Hkf (p_kstack y) (pt_k t)) as [k1 E1]. destruct (Hfv (p_pgdir y) k1) as [k2 E2].
    exists c, y. mstep (proc_ok c y t1 Hy). mstep (service_ok (s_kfree srv (p_kstack y)) tt k1 t1 E1).
    mstep (upd_proc_ok c (set_kstack 0) y (set_k k1 t1) Hy). set (t2 := set_procs _ _). mstep (service_ok (s_freevm srv (p_pgdir y)) tt k2 t2 E2).
    erewrite bind_ok; [|apply upd_proc_ok; cbn [pt_proc t2 set_procs set_k]; by apply list_lookup_insert_eq]. cbn beta.
    erewrite bind_ok; [|by apply pt_release_ok]. eexists. split_and!; try done; [cbn; lia|by exists k1|]. cbn [pt_proc t1 t2 set_procs set_k set_pt_lock]. by rewrite list_insert_insert_eq.
  - right. destruct (wait_scan_inr _ _ _ _ _ Es) as [Hnz Hk]. mstep (proc_ok me x t1 Hx).
    destruct (negb kids || p_killed x) eqn:Eb.
    + left. split; [by intros y []; apply Hnz|]. mstep (pt_release_ok t1 eq_refl). rewrite Hback. split; [|done].
      apply orb_true_iff in Eb as [Eb|Eb]; [right|by left]. intros y [Hy Hp]. destruct kids; [done|].
      assert (false = true) by (apply Hk; eauto). done.
    + right. apply orb_false_iff in Eb as [Eb Ek]. destruct kids; [|done]. split; [by intros y []; apply Hnz|].
      destruct (proj1 Hk eq_refl) as [?|(y & Hy)]; [done|]. split_and!; [eauto|done|]. erewrite bind_ok; [|apply (sleep_own_ok me (CProc me) x t1); [done|cbn; lia|done]].
      eexists. split_and!; done.
Qed.

(** The entries in use are the same. *)
Definition used_same (t t' : ptable) : Prop :=
  forall q y, pt_proc t !! q = Some y -> p_state y <> UNUSED -> pt_proc t' !! q = Some y.
Lemma used_same_insert p x y t t' :
  pt_proc t !! p = Some x -> p_state x = UNUSED -> pt_proc t' = <[p := y]> (pt_proc t) -> used_same t t'.
Proof. intros Hx Hs E q z Hz Hu. rewrite E, list_lookup_insert_ne; [done|]. intros ->. congruence. Qed.

Lemma find_state_none st l k : find_state st l k = None -> forall x, x ∈ l -> p_state x <> st.
Proof.
  revert k. induction l as [|y l IH]; intros k E x; [by intros ?%elem_of_nil|]. cbn [find_state] in E. destruct (decide (p_state y = st)); [done|].
  intros [->|Hx]%elem_of_cons; [done|by eapply IH].
Qed.
Lemma alloc_entry_run t :
  pt_lock t = false ->
  exists o t', alloc_entry t = Ok o t' /\ pt_lock t' = false /\ pt_ncli t' = pt_ncli t /\ pt_k t' = pt_k t /\
    match o with
    | None => pt_proc t' = pt_proc t /\ forall x, x ∈ pt_proc t -> p_state x <> UNUSED
    | Some p => exists y, pt_proc t !! p = Some y /\ p_state y = UNUSED /\
        pt_proc t' = <[p := set_pid (pt_nextpid t) (set_state EMBRYO y)]> (pt_proc t)
    end.
Proof.
  intros Hl. unfold alloc_entry. mstep (pt_acquire_ok t Hl). mrun1. cbn [pt_proc set_pt_lock].
  destruct (find_state UNUSED (pt_proc t) 0) as [p|] eqn:Ef.
  - apply find_state_spec in Ef as (y & Hy & Hs & _). rewrite Nat.sub_0_r in Hy.
    erewrite bind_ok by (by apply upd_proc_ok). mrun1. erewrite bind_ok by (by apply pt_release_ok).
    eexists (Some p), _. split_and!; try done; [cbn; lia|]. by exists y.
  - erewrite bind_ok by (by apply pt_release_ok). eexists None, _. split_and!; try done; [cbn; lia|]. by apply (find_state_none _ _ 0).
Qed.

(** The open files of a process, and a reference to each of them. *)
Definition open_files (x : proc) (i n : nat) : list nat := omap (fun i => mjoin (p_ofile x !! i)) (seq i n).
Definition dups (l : list nat) : M K unit := mfor l (fun f => s_filedup srv f;; mret tt).
(** The descriptors of the child after dup_files. *)
Fixpoint overlay (x : proc) (i n : nat) (o : list (option nat)) : list (option nat) :=
  match n with
  | O => o
  | S n => overlay x (S i) n (match mjoin (p_ofile x !! i) with Some f => <[i := Some f]> o | None => o end)
  end.
Lemma overlay_below x i n o j : (j < i)%nat -> overlay x i n o !! j = o !! j.
Proof.
  revert i o. induction n as [|n IH]; intros i o Hj; cbn [overlay]; [done|]. rewrite IH by lia. case_match; [|done]. apply list_lookup_insert_ne. lia.
Qed.
Lemma overlay_lookup x i n o j f :
  p_ofile x !! j = Some (Some f) -> (i <= j < i + n)%nat -> (j < length o)%nat -> overlay x i n o !! j = Some (Some f).
Proof.
  revert i o. induction n as [|n IH]; intros i o Hj Hr Hl; [lia|]. cbn [overlay]. destruct (decide (j = i)) as [->|Hne].
  - rewrite Hj. cbn. rewrite overlay_below by lia. by apply list_lookup_insert_eq.
  - apply IH; [done|lia|]. case_match; [by rewrite length_insert|done].
Qed.

(** The entries that a run of the code for [np] leaves. *)
Definition with_np (t0 : ptable) (np : nat) (n : proc) (k : K) (t : ptable) : Prop :=
  pt_proc t = <[np := n]> (pt_proc t0) /\ pt_k t = k /\ pt_lock t = false /\ pt_ncli t = pt_ncli t0.
Section Fill.
Context (t0 : ptable) (me np : nat) (x old : proc) (Hne : np <> me).
Context (Hx : pt_proc t0 !! me = Some x) (Hold : pt_proc t0 !! np = Some old).
Lemma np_at n k t : with_np t0 np n k t -> pt_proc t !! np = Some n.
Proof. intros (E & _). rewrite E. apply list_lookup_insert_eq. by eapply lookup_lt_Some. Qed.
Lemma me_at n k t : with_np t0 np n k t -> pt_proc t !! me = Some x.
Proof. intros (E & _). rewrite E. by rewrite list_lookup_insert_ne. Qed.
Lemma np_upd f n k t : with_np t0 np n k t -> exists t', upd_proc np f t = Ok tt t' /\ with_np t0 np (f n) k t'.
Proof.
  intros H. eexists. split; [by apply upd_proc_ok, (np_at n k)|]. destruct H as (E & Ek & El & En). split_and!; try done. cbn [pt_proc set_procs]. by rewrite E, list_insert_insert_eq.
Qed.
Lemma np_service {A} (m : M K A) a k' n k t : m k = Ok a k' -> with_np t0 np n k t -> exists t', service m t = Ok a t' /\ with_np t0 np n k' t'.
Proof. intros Em (E & Ek & El & En). eexists. split; [apply service_ok; by rewrite Ek|]. by split_and!. Qed.
(** One action of the code, on the entry or on another component. *)
Lemma run_upd f n k t : with_np t0 np n k t ->
  exists t', (forall A (c : unit -> code A), run (u ⇐ upd_proc np f; c u) t = run (c tt) t') /\ with_np t0 np (f n) k t'.
Proof. intros H. destruct (np_upd f n k t H) as (t' & E & H'). exists t'. split; [|done]. intros A c. rewrite run_seq. by mstep E. Qed.
Lemma run_upd_me f n k t : with_np t0 np n k t ->
  exists t', (forall A (c : unit -> code A), run (u ⇐ (y ← proc_at me; upd_proc np (f y)); c u) t = run (c tt) t') /\ with_np t0 np (f x n) k t'.
Proof.
  intros H. destruct (np_upd (f x) n k t H) as (t' & E & H'). exists t'. split; [|done]. intros A c. rewrite run_seq, bind_assoc_run. mstep (proc_ok me x t (me_at _ _ _ H)). by mstep E.
Qed.
Lemma run_service {B} (m : M K B) b k' n k t : m k = Ok b k' -> with_np t0 np n k t ->
  exists t', (forall A (c : B -> code A), run (u ⇐ service m; c u) t = run (c b) t') /\ with_np t0 np n k' t'.
Proof. intros Em H. destruct (np_service m b k' n k t Em H) as (t' & E & H'). exists t'. split; [|done]. intros A c. rewrite run_seq. by mstep E. Qed.
(** An action that looks at the parent or at the child first. *)
Lemma run_at {B} p y (m : proc -> M ptable B) t : pt_proc t !! p = Some y ->
  forall A (c : B -> code A), run (u ⇐ (z ← proc_at p; m z); c u) t = run (u ⇐ m y; c u) t.
Proof. intros Hy A c. rewrite !run_seq, bind_assoc_run. by mstep (proc_ok p y t Hy). Qed.

Lemma dup_files_run {A} i m (c : code A) n k t :
  (forall f k, exists k', s_filedup srv f k = Ok f k') -> with_np t0 np n k t ->
  exists t' k', run (dup_files me np i m c) t = run c t' /\ dups (open_files x i m) k = Ok tt k' /\
    with_np t0 np (set_ofile (overlay x i m (p_ofile n)) n) k' t'.
Proof.
  intros Hd. revert i n k t. induction m as [|m IH]; intros i n k t H; cbn [dup_files].
  { exists t, k. split_and!; try done. by destruct n. }
  unfold open_files. cbn [seq omap list_omap overlay]. fold (open_files x (S i) m). rewrite run_seq, bind_assoc_run. mstep (proc_ok me x t (me_at _ _ _ H)).
  destruct (mjoin (p_ofile x !! i)) as [f|].
  - destruct (Hd f k) as [k1 Ek]. destruct (np_service _ _ _ n k t Ek H) as (t1 & E1 & H1). rewrite bind_assoc_run. mstep E1. rewrite (bind_ok _ _ _ _ _ (mret_ok _ _)).
    destruct (run_upd (fun y => set_ofile (<[i := Some f]> (p_ofile y)) y) n k1 t1 H1) as (t2 & E2 & H2).
    destruct (IH (S i) _ k1 t2 H2) as (t3 & k3 & E3 & D3 & H3). exists t3, k3. split_and!; [by rewrite E2|unfold dups; cbn [mfor]|exact H3].
    rewrite bind_assoc_run. mstep Ek. rewrite (bind_ok _ _ _ _ _ (mret_ok _ _)). exact D3.
  - rewrite (bind_ok _ _ _ _ _ (mret_ok _ _)). by apply IH.
Qed.

Lemma fork_fill_fails n k t k2 k3 :
  with_np t0 np n k t -> s_copyuvm srv (p_pgdir x) (p_sz x) k = Ok 0 k2 -> s_kfree srv (p_kstack n) k2 = Ok tt k3 ->
  exists t' n', run (fork_fill me np) t = Ok (-1) t' /\ with_np t0 np n' k3 t'.
Proof.
  intros H Ec Ef. unfold fork_fill. rewrite (run_at me x) by (by eapply me_at). destruct (run_service _ _ _ _ _ _ Ec H) as (t1 & E1 & H1). rewrite E1. cbn [Z.eqb].
  destruct (run_upd (set_pgdir 0) _ _ _ H1) as (t2 & E2 & H2). rewrite E2. rewrite (run_at np _ _ _ (np_at _ _ _ H2)).
  destruct (run_service (s_kfree srv (p_kstack (set_pgdir 0 n))) _ _ _ _ _ Ef H2) as (t3 & E3 & H3). rewrite E3.
  destruct (run_upd (set_kstack 0) _ _ _ H3) as (t4 & E4 & H4). rewrite E4. destruct (run_upd (set_state UNUSED) _ _ _ H4) as (t5 & E5 & H5). rewrite E5. eauto.
Qed.
(** The child as fork() leaves it. *)
Definition child (pg : Z) (cwd : nat) (n : proc) : proc :=
  let tf := p_tf x in
  set_name (take 15 (p_name x)) (set_state RUNNABLE (set_cwd (Some cwd) (set_ofile (overlay x 0 NOFILE (p_ofile n))
    (set_tf (mkTf 0 (tf_eip tf) (tf_esp tf) (tf_regs tf)) (set_parent (Some me) (set_sz (p_sz x) (set_pgdir pg n))))))).
Lemma fork_fill_runs n k t pg k2 cwd :
  with_np t0 np n k t -> s_copyuvm srv (p_pgdir x) (p_sz x) k = Ok pg k2 -> pg <> 0 -> p_cwd x = Some cwd ->
  (forall f k, exists k', s_filedup srv f k = Ok f k') -> (forall i k, exists k', s_idup srv i k = Ok i k') ->
  exists t' k3 k4, run (fork_fill me np) t = Ok (p_pid n) t' /\ dups (open_files x 0 NOFILE) k2 = Ok tt k3 /\ s_idup srv cwd k3 = Ok cwd k4 /\
    with_np t0 np (child pg cwd n) k4 t'.
Proof.
  intros H Ec Hpg Hc Hfd Hid. unfold fork_fill. rewrite (run_at me x) by (by eapply me_at). destruct (run_service _ _ _ _ _ _ Ec H) as (t1 & E1 & H1). rewrite E1. rewrite (proj2 (Z.eqb_neq pg 0)) by done.
  destruct (run_upd (set_pgdir pg) _ _ _ H1) as (t2 & E2 & H2). rewrite E2. destruct (run_upd_me (fun x => set_sz (p_sz x)) _ _ _ H2) as (t3 & E3 & H3). rewrite E3.
  destruct (run_upd (set_parent (Some me)) _ _ _ H3) as (t4 & E4 & H4). rewrite E4. destruct (run_upd_me (fun x => set_tf (p_tf x)) _ _ _ H4) as (t5 & E5 & H5). rewrite E5.
  destruct (run_upd (fun n => set_tf (mkTf 0 (tf_eip (p_tf n)) (tf_esp (p_tf n)) (tf_regs (p_tf n))) n) _ _ _ H5) as (t6 & E6 & H6). rewrite E6.
  set (last := Act _). destruct (dup_files_run 0 NOFILE last _ _ t6 Hfd H6) as (t7 & k3 & E7 & D3 & H7). rewrite E7. unfold last. clear last E7.
  destruct (Hid cwd k3) as [k4 Ei]. rewrite (run_at me x) by (by eapply me_at). rewrite Hc. change (deref "proc->cwd" (Some cwd)) with (mret cwd : M ptable nat). rewrite run_seq, bind_assoc_run, (bind_ok _ _ _ _ _ (mret_ok _ _)), <- run_seq.
  destruct (run_service _ _ _ _ _ _ Ei H7) as (t8 & E8 & H8). rewrite E8. destruct (run_upd (set_cwd (Some cwd)) _ _ _ H8) as (t9 & E9 & H9). rewrite E9.
  rewrite (run_at np _ _ _ (np_at _ _ _ H9)), run_seq, (bind_ok _ _ _ _ _ (mret_ok _ _)).
  destruct (run_upd (set_state RUNNABLE) _ _ _ H9) as (t10 & E10 & H10). rewrite E10. destruct (run_upd_me (fun x => set_name (take 15 (p_name x))) _ _ _ H10) as (t11 & E11 & H11). rewrite E11.
  exists t11, k3, k4. split_and!; done.
Qed.
End Fill.

(** C30: fork() by a process with a current directory, with services that
    return: it returns.  Either it gives -1, for one of three reasons: no entry is
    unused, or there is no page for the kernel stack, or copyuvm fails, and then
    the stack is given back; no process has changed.  Or it
    has filled one unused entry: a runnable child with the next pid, which is
    the result, the caller as its parent, the page from kalloc as kernel stack
    and copyuvm's copy of the caller's address space, a context that starts in
    forkret, the caller's size, registers (but eax = 0), open files and
    directory with one more reference to each, and its name; no other entry
    changed. *)
Theorem fork_correct me x cwd t :
  (forall k, exists a k', s_kalloc srv k = Ok a k') -> (forall a k, exists k', s_kfree srv a k = Ok tt k') ->
  (forall d n k, exists a k', s_copyuvm srv d n k = Ok a k') -> (forall f k, exists k', s_filedup srv f k = Ok f k') ->
  (forall i k, exists k', s_idup srv i k = Ok i k') ->
  pt_lock t = false -> pt_proc t !! me = Some x -> p_state x <> UNUSED -> p_cwd x = Some cwd ->
  exists r t', fork me t = Ok r t' /\ pt_lock t' = false /\ pt_ncli t' = pt_ncli t /\
    ((r = -1 /\ used_same t t' /\
      ((forall y, y ∈ pt_proc t -> p_state y <> UNUSED) /\ pt_k t' = pt_k t \/
       s_kalloc srv (pt_k t) = Ok 0 (pt_k t') \/
       exists ks k1 k2, s_kalloc srv (pt_k t) = Ok ks k1 /\ s_copyuvm srv (p_pgdir x) (p_sz x) k1 = Ok 0 k2 /\ s_kfree srv ks k2 = Ok tt (pt_k t'))) \/
     exists np old n k1 k2 k3, r = pt_nextpid t /\ pt_proc t !! np = Some old /\ p_state old = UNUSED /\ pt_proc t' = <[np := n]> (pt_proc t) /\
       s_kalloc srv (pt_k t) = Ok (p_kstack n) k1 /\ s_copyuvm srv (p_pgdir x) (p_sz x) k1 = Ok (p_pgdir n) k2 /\
       dups (open_files x 0 NOFILE) k2 = Ok tt k3 /\ s_idup srv cwd k3 = Ok cwd (pt_k t') /\
       p_pid n = r /\ p_state n = RUNNABLE /\ p_parent n = Some me /\ p_kstack n <> 0 /\ p_pgdir n <> 0 /\ p_eip n = forkret /\
       p_sz n = p_sz x /\ p_tf n = mkTf 0 (tf_eip (p_tf x)) (tf_esp (p_tf x)) (tf_regs (p_tf x)) /\
       (forall fd f, (fd < NOFILE)%nat -> length (p_ofile x) = length (p_ofile old) -> p_ofile x !! fd = Some (Some f) -> p_ofile n !! fd = Some (Some f)) /\
       p_cwd n = Some cwd /\ p_name n = take 15 (p_name x)).
Proof.
  intros Hka Hkf Hcu Hfd Hid Hl Hx Hs Hc. unfold fork. destruct (alloc_entry_run t Hl) as (o & t1 & E1 & L1 & N1 & K1 & Ho). mstep E1.
  destruct o as [np|]; cbn [fork_rest].
  2:{ destruct Ho as [P1 Hno]. eexists _, t1. split_and!; try done. left. split_and!; [done| |by left]. intros q y Hq _. by rewrite P1. }
  destruct Ho as (y & Hy & Hu & P1). assert (Hne : np <> me) by (intros ->; congruence).
  assert (Hfail : forall n k t', with_np t np n k t' -> used_same t t') by (intros n k t' (E & _); by eapply used_same_insert).
  assert (H1 : with_np t np (set_pid (pt_nextpid t) (set_state EMBRYO y)) (pt_k t) t1) by done.
  unfold alloc_stack. destruct (Hka (pt_k t)) as (ks & k1 & Ek). destruct (run_service t np _ ks k1 _ _ _ Ek H1) as (t2 & E2 & H2). rewrite E2.
  destruct (run_upd t np y Hy (set_kstack ks) _ _ t2 H2) as (t3 & E3 & H3). rewrite E3. destruct (Z.eqb_spec ks 0) as [->|Hks].
  { destruct (run_upd t np y Hy (set_state UNUSED) _ _ t3 H3) as (t4 & E4 & H4). rewrite E4. eexists _, t4. split_and!; try done; try apply H4.
    left. split_and!; [done|by eapply Hfail|]. right; left. destruct H4 as (_ & -> & _). done. }
  destruct (run_upd t np y Hy (set_context (ks + KSTACKSIZE - sizeof_tf - 4 - sizeof_context) forkret) _ _ t3 H3) as (t4 & E4 & H4). rewrite E4.
  destruct (Hcu (p_pgdir x) (p_sz x) k1) as (pg & k2 & Ec). destruct (decide (pg = 0)) as [->|Hpg].
  - destruct (Hkf ks k2) as [k3 Ef]. destruct (fork_fill_fails t me np x y Hne Hx Hy _ _ _ _ _ H4 Ec Ef) as (t5 & n & E5 & H5). eexists _, t5. split_and!; try done; try apply H5.
    left. split_and!; [done|by eapply Hfail|]. right; right. destruct H5 as (_ & -> & _). by exists ks, k1, k2.
  - destruct (fork_fill_runs t me np x y Hne Hx Hy _ _ _ _ _ _ H4 Ec Hpg Hc Hfd Hid) as (t5 & k3 & k4 & E5 & D3 & Ei & P5 & K5 & L5 & N5). eexists _, t5. split_and!; try done.
    right. eexists np, y, _, k1, k2, k3. split_and!; try done; [by rewrite K5|]. intros fd f Hlt Hlen Hf. apply (overlay_lookup x 0 NOFILE (p_ofile y)); [done|lia|]. rewrite <- Hlen. by eapply lookup_lt_Some.
Qed.
End Proc.
#[global] Arguments Done {K A}. #[global] Arguments Act {K A}. #[global] Arguments InCall {K}. #[global] Arguments InExit {K}. #[global] Arguments InWait {K}.

(** ** Runs with concrete services

    A state that only counts the pages handed out. *)
Definition counting : Services Z := {|
  s_kalloc := fun k => Ok (k + 4096) (k + 4096);
  s_kfree _ := mret tt;
  s_setupkvm := fun k => Ok (k + 4096) (k + 4096);
  s_inituvm _ := mret tt;
  s_copyuvm _ _ := fun k => Ok (k + 4096) (k + 4096);
  s_freevm _ := mret tt;
  s_allocuvm _ _ newsz := mret newsz;
  s_deallocuvm _ _ newsz := mret newsz;
  s_filedup f := mret f;
  s_fileclose _ := mret tt;
  s_idup i := mret i;
  s_iput _ := mret tt;
  s_namei_root := mret (Some 0%nat);
  s_uva2ka _ va := mret (Z.land va (Z.lnot 0xfff));
  s_store _ _ := mret tt;
|}.

Definition final {S A} (m : M S A) (s : S) : S := match m s with Ok _ s' | Stop _ s' => s' end.

(** init after its boot, then the same with a child it has forked. *)
Definition boot1 : ptable := final (userinit counting 0) (boot 0).
Definition run1 : ptable := final (schedule 0;; resume 0) boot1.
Definition forked1 : ptable := final (fork counting 0 0) run1.
Definition exited1 : ptable := final (exit counting 1) (final (schedule 1;; resume 1) forked1).

(** The next action of the task of [me], if it has one left outside the lock. *)
Definition advance {K} (me : nat) (s : sys (K := K)) : sys :=
  match todo s !! me with
  | Some (InCall (Act m)) => match m (tab s) with Ok k t => mkSys t (cur s) (<[me := InCall k]> (todo s)) | Stop _ _ => s end
  | Some (InCall (Done _)) => mkSys (tab s) (cur s) (delete me (todo s))
  | Some (InExit (Act m)) => match m (tab s) with Ok k t => mkSys t (cur s) (<[me := InExit k]> (todo s)) | Stop _ _ => s end
  | _ => s
  end.
Lemma advance_reachable {K} (srv : Services K) forkret n c me s :
  runs_on s c me -> reachable srv forkret n s -> reachable srv forkret n (advance me s) /\ runs_on (advance me s) c me.
Proof.
  intros Hc Hr. assert (Hs : forall s', step srv forkret s 0 s' -> reachable srv forkret n s') by (intros s' H; rewrite <- (Nat.add_0_r n); by eapply r_step).
  unfold advance. destruct (todo s !! me) as [[[r|m]|[r|m]|]|] eqn:E; try done.
  - split; [apply Hs; by eapply st_return|done].
  - destruct (m (tab s)) as [k t|] eqn:Em; [|done]. split; [apply Hs; by eapply st_call|done].
  - destruct (m (tab s)) as [k t|] eqn:Em; [|done]. split; [apply Hs; by eapply st_exit_files|done].
Qed.
Lemma advances_reachable {K} (srv : Services K) forkret n c me k s :
  runs_on s c me -> reachable srv forkret n s -> reachable srv forkret n (Nat.iter k (advance me) s) /\ runs_on (Nat.iter k (advance me) s) c me.
Proof. intros Hc Hr. induction k as [|k [IH1 IH2]]; [done|]. cbn [Nat.iter]. by apply advance_reachable. Qed.

(** init on processor 0 has just taken an entry for its child; the fork
    returns; the child runs on processor 1, and exits. *)
Definition sys1 : sys := mkSys run1 [Some 0%nat; None] ∅.
Definition sys2 : sys := mkSys (final alloc_entry run1) [Some 0%nat; None] {[0%nat := InCall (fork_rest counting 0 0 (Some 1%nat))]}.
Definition sys3 : sys := Nat.iter 40 (advance 0) sys2.
Definition sys4 : sys := mkSys (final (schedule 1;; resume 1) (tab sys3)) [Some 0%nat; Some 1%nat] (todo sys3).
Definition sys5 : sys := Nat.iter 40 (advance 1) (mkSys (tab sys4) (cur sys4) (<[1%nat := InExit (exit_files counting 1)]> (todo sys4))).
Definition sys6 : sys := mkSys (final (exit_locked 1) (tab sys5)) [Some 0%nat; None] (delete 1%nat (todo sys5)).
Lemma sys2_reachable : reachable counting 0 1 sys2.
Proof.
  apply (r_step counting 0 0 sys1 1); [|by apply (st_fork counting 0 sys1 0 0 (Some 1%nat)); vm_compute].
  apply (r_step counting 0 0 (mkSys boot1 [None; None] ∅) 0); [by apply (r_boot counting 0 0 2); vm_compute|].
  by apply (st_schedule counting 0 (mkSys boot1 [None; None] ∅) 0 0 (final (schedule 0) boot1) run1); vm_compute.
Qed.
Lemma sys6_reachable : reachable counting 0 1 sys6.
Proof.
  apply (r_step counting 0 1 sys5 0); [|by apply (st_exit_locked counting 0 sys5 1 1); vm_compute].
  apply (advances_reachable counting 0 1 1); [by vm_compute|].
  apply (r_step counting 0 1 sys4 0); [|by apply (st_exit counting 0 sys4 1 1 (tab sys4)); vm_compute].
  apply (r_step counting 0 1 sys3 0); [|by apply (st_schedule counting 0 sys3 1 1 (final (schedule 1) (tab sys3))); vm_compute].
  apply (advances_reachable counting 0 1 0); [by vm_compute|]. apply sys2_reachable.
Qed.

(** Boot; init runs on processor 0 and is in the middle of fork; later its child has run on processor 1 and exited. *)
Lemma proc_invariant_witness :
  (sys_inv sys2 /\ sys_pids sys2 /\ (p_state <$> take 2 (pt_proc (tab sys2))) = [RUNNING; EMBRYO]) /\
  (sys_inv sys6 /\ sys_pids sys6 /\ (p_state <$> take 2 (pt_proc (tab sys6))) = [RUNNING; ZOMBIE]).
Proof.
  destruct (proc_invariant counting 0 1 sys2 sys2_reachable) as [H2 P2]. destruct (proc_invariant counting 0 1 sys6 sys6_reachable) as [H6 P6].
  refine (conj (conj H2 (conj (P2 _) _)) (conj H6 (conj (P6 _) _))); [lia|by vm_compute|lia|by vm_compute].
Defined.

Lemma ok_inj {S A} (a b : A) (s s' : S) : Ok a s = Ok b s' -> a = b /\ s = s'.
Proof. by intros [= -> ->]. Qed.

Lemma wait_correct_witness :
  exists t', wait counting 0 exited1 = Ok (Some 2) t' /\ p_state <$> pt_proc t' !! 1%nat = Some UNUSED.
Proof.
  destruct (pt_proc exited1 !! 0%nat) as [x|] eqn:Hx; [|by vm_compute in Hx].
  assert (H1 : forall (a : Z) (k : Z), exists k', s_kfree counting a k = Ok tt k') by (intros a k; by exists k).
  assert (H2 : forall (a : Z) (k : Z), exists k', s_freevm counting a k = Ok tt k') by (intros a k; by exists k).
  destruct (wait_correct counting 0 x exited1 H1 H2 eq_refl eq_refl Hx) as [(c & y & t' & _ & _ & _ & E & _)|[(Hz & _)|(Hz & _)]].
  - exists t'. assert (E2 : wait counting 0 exited1 = Ok (Some 2) (final (wait counting 0) exited1)) by (by vm_compute).
    destruct (ok_inj _ _ _ _ (eq_trans (eq_sym E2) E)) as [_ Et]. rewrite <- Et. split; [exact E2|by vm_compute].
  - exfalso. destruct (pt_proc exited1 !! 1%nat) as [z|] eqn:Hz1; [|by vm_compute in Hz1].
    apply (Hz z); [split; [by eapply list_elem_of_lookup_2|]|]; vm_compute in Hz1; by injection Hz1 as <-.
  - exfalso. destruct (pt_proc exited1 !! 1%nat) as [z|] eqn:Hz1; [|by vm_compute in Hz1].
    apply (Hz z); [split; [by eapply list_elem_of_lookup_2|]|]; vm_compute in Hz1; by injection Hz1 as <-.
Defined.

Lemma fork_correct_witness :
  exists r t', fork counting 0 0 run1 = Ok r t' /\ r = 2 /\ p_state <$> pt_proc t' !! 1%nat = Some RUNNABLE.
Proof.
  destruct (pt_proc run1 !! 0%nat) as [x|] eqn:Hx; [|by vm_compute in Hx].
  assert (Hs : p_state x <> UNUSED) by (assert (E : p_state <$> Some x = Some RUNNING) by (rewrite <- Hx; by vm_compute); cbn in E; congruence).
  assert (Hc : p_cwd x = Some 0%nat) by (assert (E : p_cwd <$> Some x = Some (Some 0%nat)) by (rewrite <- Hx; by vm_compute); cbn in E; congruence).
  assert (Hka : forall k, exists a k', s_kalloc counting k = Ok a k') by (intros k; by eexists _, _).
  assert (Hkf : forall a k, exists k', s_kfree counting a k = Ok tt k') by (intros a k; by eexists).
  assert (Hcu : forall d n k, exists a k', s_copyuvm counting d n k = Ok a k') by (intros d n k; by eexists _, _).
  assert (Hfd : forall f k, exists k', s_filedup counting f k = Ok f k') by (intros f k; by eexists).
  assert (Hid : forall i k, exists k', s_idup counting i k = Ok i k') by (intros i k; by eexists).
  destruct (fork_correct counting 0 0 x 0 run1 Hka Hkf Hcu Hfd Hid eq_refl Hx Hs Hc) as (r & t' & E & _).
  assert (E2 : fork counting 0 0 run1 = Ok 2 forked1) by (by vm_compute). destruct (ok_inj _ _ _ _ (eq_trans (eq_sym E2) E)) as [Er Et].
  exists r, t'. split; [exact E|]. split; [by rewrite <- Er|]. rewrite <- Et. by vm_compute.
Defined.

(** Kill() does not look at the state of the entry it finds: pid 0 names
    the first unused entry, the call returns 0 and leaves [killed] set there;
    allocproc and fork do not clear it, so the next child is born killed. *)
Theorem kill_marks_unused_entry :
  exists t, kill 0 run1 = Ok 0 t /\ p_state <$> pt_proc t !! 1%nat = Some UNUSED /\
    exists t', fork counting 0 0 t = Ok 2 t' /\ p_state <$> pt_proc t' !! 1%nat = Some RUNNABLE /\
      p_killed <$> pt_proc t' !! 1%nat = Some true.
Proof.
  exists (final (kill 0) run1). split_and!; [by vm_compute..|]. exists (final (fork counting 0 0) (final (kill 0) run1)). by vm_compute.
Qed.
