(* ===== verification/Asm.v ===== *)
(** * swtch.S, trapasm.S, vectors.pl: the assembly code between contexts

    The context switch of src/swtch.S and the trap entry and exit of
    src/trapasm.S and src/vectors.pl, instruction by instruction on the
    registers and the memory of a processor, with what the processor does on
    an interrupt and on iret.  [new_stack] is the part of allocproc (proc.c)
    that prepares the first switch to a process.

    [swtch_resumes] is the correctness of the switch: the call returns when its
    context is switched to again.  [trap_resumes] says that a trap is invisible
    to the interrupted code, [new_process_starts] that a new process enters user
    mode with the registers of its trap frame. *)

From S2P Require Import Prelude Str Interfaces Spinlock Kalloc Seg Proc.

Inductive reg : Type := EAX | ECX | EDX | EBX | ESP | EBP | ESI | EDI.
Inductive seg : Type := DS | ES | FS | GS.
Record regs := mkRegs { eax : Z; ecx : Z; edx : Z; ebx : Z; esp : Z; ebp : Z; esi : Z; edi : Z }.
Record segs := mkSegs { ds : Z; es : Z; fs : Z; gs : Z }.
Definition rget (g : regs) (r : reg) : Z :=
  match r with EAX => eax g | ECX => ecx g | EDX => edx g | EBX => ebx g | ESP => esp g | EBP => ebp g | ESI => esi g | EDI => edi g end.
Definition rset (r : reg) (v : Z) (g : regs) : regs :=
  let '(mkRegs a c d b sp bp si di) := g in
  match r with
  | EAX => mkRegs v c d b sp bp si di | ECX => mkRegs a v d b sp bp si di | EDX => mkRegs a c v b sp bp si di
  | EBX => mkRegs a c d v sp bp si di | ESP => mkRegs a c d b v bp si di | EBP => mkRegs a c d b sp v si di
  | ESI => mkRegs a c d b sp bp v di | EDI => mkRegs a c d b sp bp si v
  end.
Definition sget (g : segs) (r : seg) : Z := match r with DS => ds g | ES => es g | FS => fs g | GS => gs g end.
Definition sset (r : seg) (v : Z) (g : segs) : segs :=
  let '(mkSegs d e f h) := g in match r with DS => mkSegs v e f h | ES => mkSegs d v f h | FS => mkSegs d e v h | GS => mkSegs d e f v end.

(** A processor and its memory. *)
Record mach := mkMach { x_r : regs; x_seg : segs; x_eip : Z; x_cs : Z; x_eflags : Z; x_ss : Z; x_m : mem }.
Definition set_r (r : reg) (v : Z) (s : mach) : mach := mkMach (rset r v (x_r s)) (x_seg s) (x_eip s) (x_cs s) (x_eflags s) (x_ss s) (x_m s).
Definition set_seg (g : seg) (v : Z) (s : mach) : mach := mkMach (x_r s) (sset g v (x_seg s)) (x_eip s) (x_cs s) (x_eflags s) (x_ss s) (x_m s).
Definition set_eip (v : Z) (s : mach) : mach := mkMach (x_r s) (x_seg s) v (x_cs s) (x_eflags s) (x_ss s) (x_m s).
Definition set_cs (v : Z) (s : mach) : mach := mkMach (x_r s) (x_seg s) (x_eip s) v (x_eflags s) (x_ss s) (x_m s).
Definition set_eflags (v : Z) (s : mach) : mach := mkMach (x_r s) (x_seg s) (x_eip s) (x_cs s) v (x_ss s) (x_m s).
Definition set_ss (v : Z) (s : mach) : mach := mkMach (x_r s) (x_seg s) (x_eip s) (x_cs s) (x_eflags s) v (x_m s).
Definition set_m (v : mem) (s : mach) : mach := mkMach (x_r s) (x_seg s) (x_eip s) (x_cs s) (x_eflags s) (x_ss s) v.

Definition push (v : Z) (s : mach) : mach := let sp := esp (x_r s) ⊖ 4 in set_m (store32 (x_m s) sp v) (set_r ESP sp s).
Definition top (s : mach) : Z := load32 (x_m s) (esp (x_r s)).
Definition drop_words (n : Z) (s : mach) : mach := set_r ESP (esp (x_r s) ⊕ 4 * n) s.

Inductive instr : Type :=
| Load (off : Z) (base dst : reg)   (** movl off(%base), %dst *)
| Store (src base : reg)            (** movl %src, (%base) *)
| Mov (src dst : reg)               (** movl %src, %dst *)
| Push (r : reg)
| PushImm (v : Z)
| PushSeg (g : seg)
| Pop (r : reg)
| PopSeg (g : seg)
| PushAll                           (** pushal *)
| PopAll                            (** popal *)
| MovAx (v : Z)                     (** movw $v, %ax *)
| MovSeg (g : seg)                  (** movw %ax, %g *)
| AddEsp (n : Z)                    (** addl $n, %esp *)
| Ret
| Iret.

Definition pop_to (r : reg) (s : mach) : mach := let v := top s in set_r r v (drop_words 1 s).
Definition popal (s : mach) : mach :=
  let s := pop_to EDI s in let s := pop_to ESI s in let s := pop_to EBP s in let s := drop_words 1 s in
  let s := pop_to EBX s in let s := pop_to EDX s in let s := pop_to ECX s in pop_to EAX s.
Definition pushal (s : mach) : mach :=
  let sp := esp (x_r s) in
  let s := push (eax (x_r s)) s in let s := push (ecx (x_r s)) s in let s := push (edx (x_r s)) s in let s := push (ebx (x_r s)) s in
  let s := push sp s in let s := push (ebp (x_r s)) s in let s := push (esi (x_r s)) s in push (edi (x_r s)) s.
(** The return to an outer ring also restores the stack of that ring. *)
Definition iret (s : mach) : mach :=
  let s1 := drop_words 1 (set_eip (top s) s) in
  let s2 := drop_words 1 (set_cs (u16 (top s1)) s1) in
  let s3 := drop_words 1 (set_eflags (top s2) s2) in
  if Z.land (x_cs s) 3 =? Z.land (x_cs s3) 3 then s3
  else let sp := top s3 in let s4 := drop_words 1 s3 in set_r ESP sp (set_ss (u16 (top s4)) s4).

Definition exec1 (s : mach) (i : instr) : mach :=
  match i with
  | Load off base dst => set_r dst (load32 (x_m s) (rget (x_r s) base ⊕ off)) s
  | Store src base => set_m (store32 (x_m s) (rget (x_r s) base) (rget (x_r s) src)) s
  | Mov src dst => set_r dst (rget (x_r s) src) s
  | Push r => push (rget (x_r s) r) s
  | PushImm v => push v s
  | PushSeg g => push (sget (x_seg s) g) s
  | Pop r => pop_to r s
  | PopSeg g => drop_words 1 (set_seg g (u16 (top s)) s)
  | PushAll => pushal s
  | PopAll => popal s
  | MovAx v => set_r EAX (Z.lor (Z.land (eax (x_r s)) 0xffff0000) v) s
  | MovSeg g => set_seg g (u16 (eax (x_r s))) s
  | AddEsp n => set_r ESP (esp (x_r s) ⊕ n) s
  | Ret => drop_words 1 (set_eip (top s) s)
  | Iret => iret s
  end.
Definition run (code : list instr) (s : mach) : mach := foldl exec1 s code.

(** ** The code *)

Definition swtch : list instr :=
  [Load 4 ESP EAX; Load 8 ESP EDX;
   Push EBP; Push EBX; Push ESI; Push EDI;
   Store ESP EAX; Mov EDX ESP;
   Pop EDI; Pop ESI; Pop EBX; Pop EBP; Ret].

(** The vectors whose code does not push a zero in place of an error code. *)
Definition has_err (n : Z) : bool := (n =? 8) || ((10 <=? n) && (n <=? 14)) || (n =? 17).
Definition vector (n : Z) : list instr := (if negb (has_err n) then [PushImm 0] else []) ++ [PushImm n].
(** alltraps up to the call of trap, and after it. *)
Definition alltraps : list instr :=
  [PushSeg DS; PushSeg ES; PushSeg FS; PushSeg GS; PushAll;
   MovAx (Z.shiftl SEG_KDATA 3); MovSeg DS; MovSeg ES; MovAx (Z.shiftl SEG_KCPU 3); MovSeg FS; MovSeg GS;
   Push ESP].
Definition trapret : list instr := [PopAll; PopSeg GS; PopSeg FS; PopSeg ES; PopSeg DS; AddEsp 8; Iret].
(** The code of a vector with the C function [trap] it calls. *)
Definition handle (n : Z) (trap : mach -> mach) (s : mach) : mach := run (AddEsp 4 :: trapret) (trap (run (vector n ++ alltraps) s)).

(** The exceptions for which the processor pushes an error code: double fault,
    invalid TSS, segment not present, stack fault, general protection, page fault
    and alignment check. *)
Definition pushes_error (n : Z) : bool := existsb (Z.eqb n) [8; 10; 11; 12; 13; 14; 17].
(** What the processor does on an interrupt through a gate to ring 0: from an
    outer ring it takes the stack [ss0:esp0] of the task state. *)
Definition interrupt (ss0 esp0 cs0 n err : Z) (s : mach) : mach :=
  let s1 := if Z.land (x_cs s) 3 =? 0 then s else push (esp (x_r s)) (push (x_ss s) (set_ss ss0 (set_r ESP esp0 s))) in
  let s2 := push (x_eip s) (push (x_cs s) (push (x_eflags s) s1)) in
  let s3 := set_cs cs0 (set_eflags (Z.land (x_eflags s) (Z.lnot 0x200)) s2) in
  if pushes_error n then push err s3 else s3.

(** The kernel stack that allocproc prepares: room for the trap frame, the
    address of trapret, and a context that starts in forkret. *)
Definition new_stack (kstack trapret_at forkret_at : Z) (m : mem) : mem :=
  let sp := kstack + KSTACKSIZE - sizeof_tf in
  let sp := sp - 4 in
  let m := store32 m sp trapret_at in
  let sp := sp - sizeof_context in
  let m := memset m sp 0 sizeof_context in
  store32 m (sp + 16) forkret_at.

(** ** Reasoning about the code *)

Lemma run_cons i code s : run (i :: code) s = run code (exec1 s i).
Proof. reflexivity. Qed.
Lemma run_app c1 c2 s : run (c1 ++ c2) s = run c2 (run c1 s).
Proof. apply foldl_app. Qed.

Lemma load32_store32_ne m a b w : b + 4 <= a \/ a + 4 <= b -> load32 (store32 m a w) b = load32 m b.
Proof. intros H. apply load32_ext. intros x Hx. apply store32_other. lia. Qed.

Lemma load32_store32_eq m a b w : b = a -> 0 <= w < 2 ^ 32 -> load32 (store32 m a w) b = w.
Proof. intros ->. apply load32_store32. Qed.

(** [apart a n b k]: the [n] bytes at [a] and the [k] bytes at [b] do not meet. *)
Definition apart (a n b k : Z) : Prop := a + n <= b \/ b + k <= a.

Definition word (v : Z) : Prop := 0 <= v < 2 ^ 32.
Definition regs_ok (g : regs) : Prop :=
  word (eax g) /\ word (ecx g) /\ word (edx g) /\ word (ebx g) /\ word (esp g) /\ word (ebp g) /\ word (esi g) /\ word (edi g).
Definition segs_ok (g : segs) : Prop := 0 <= ds g < 2 ^ 16 /\ 0 <= es g < 2 ^ 16 /\ 0 <= fs g < 2 ^ 16 /\ 0 <= gs g < 2 ^ 16.

Lemma u32_plus a b c : a ⊕ b ⊕ c = a ⊕ (b + c).
Proof. unfold u32. rewrite Zplus_mod_idemp_l. f_equal. lia. Qed.
Lemma u32_minus a b c : a ⊖ b ⊖ c = a ⊖ (b + c).
Proof. unfold u32. rewrite Zminus_mod_idemp_l. f_equal. lia. Qed.

(** One instruction, with the arithmetic on the stack pointer and the loads
    from words that were stored before normalised. *)
Ltac spsimp H :=
  rewrite ?u32_plus, ?u32_minus in H; change (4 * 1) with 4 in H;
  repeat match type of H with context [Z.pos ?p + Z.pos ?q] => let v := eval cbv in (Z.pos p + Z.pos q) in change (Z.pos p + Z.pos q) with v in H end;
  repeat rewrite u32_id in H by (unfold word in *; lia);
  rewrite <- ?Z.add_assoc, <- ?Z.sub_add_distr in H;
  repeat match type of H with context [Z.pos ?p + Z.pos ?q] => let v := eval cbv in (Z.pos p + Z.pos q) in change (Z.pos p + Z.pos q) with v in H end.
Ltac memsimp H := repeat first
  [ rewrite load32_store32_eq in H by (unfold word in *; lia)
  | rewrite load32_store32_ne in H by (unfold apart in *; lia)
  | rewrite store32_other in H by (unfold apart in *; lia) ].
Tactic Notation "asm1" "in" hyp(H) :=
  rewrite run_cons in H;
  cbv beta iota zeta delta [exec1 iret push pushal popal pop_to top drop_words set_r set_seg set_eip set_cs set_eflags set_ss set_m rget rset sget sset
       x_r x_seg x_eip x_cs x_eflags x_ss x_m eax ecx edx ebx esp ebp esi edi ds es fs gs] in H;
  spsimp H; memsimp H.
Ltac memgoal := repeat first
  [ rewrite load32_store32_eq by (unfold word in *; lia)
  | rewrite load32_store32_ne by (unfold apart in *; lia)
  | rewrite store32_other by (unfold apart in *; lia) ].

Lemma u16_id v : 0 <= v < 2 ^ 16 -> u16 v = v.
Proof. intros. apply Z.mod_small. lia. Qed.
(** movw changes the low half of eax. *)
Lemma u16_ax a v : 0 <= v < 2 ^ 16 -> u16 (Z.lor (Z.land a 0xffff0000) v) = v.
Proof.
  intros Hv. unfold u16. rewrite <- Z.land_ones, Z.land_lor_distr_l, <- Z.land_assoc by lia.
  change (Z.land 0xffff0000 (Z.ones 16)) with 0. rewrite Z.land_0_r, Z.lor_0_l, Z.land_ones by lia. apply Z.mod_small. lia.
Qed.

#[local] Opaque u32 u16 load32 store32.

(** What a call swtch(&old, new) does, [sp] being the stack at its entry. *)
Lemma swtch_run s :
  let sp := esp (x_r s) in let m := x_m s in let old := load32 m (sp + 4) in let new := load32 m (sp + 8) in
  let s' := run swtch s in
  regs_ok (x_r s) -> 16 <= sp < 2 ^ 32 - 12 -> 0 <= new < 2 ^ 32 - 20 ->
  apart old 4 (sp - 16) 20 -> apart old 4 new 20 -> apart new 20 (sp - 16) 16 ->
  (edi (x_r s') = load32 m new /\ esi (x_r s') = load32 m (new + 4) /\ ebx (x_r s') = load32 m (new + 8) /\
   ebp (x_r s') = load32 m (new + 12) /\ x_eip s' = load32 m (new + 16) /\ esp (x_r s') = new + 20) /\
  (load32 (x_m s') old = sp - 16 /\ load32 (x_m s') (sp - 16) = edi (x_r s) /\ load32 (x_m s') (sp - 12) = esi (x_r s) /\
   load32 (x_m s') (sp - 8) = ebx (x_r s) /\ load32 (x_m s') (sp - 4) = ebp (x_r s) /\ load32 (x_m s') sp = load32 m sp) /\
  (forall x, ~ (sp - 16 <= x < sp) -> ~ (old <= x < old + 4) -> x_m s' x = m x) /\
  x_seg s' = x_seg s /\ x_cs s' = x_cs s /\ x_eflags s' = x_eflags s /\ x_ss s' = x_ss s.
Proof.
  destruct s as [[a c d b sp bp si di] g ip cs fl ss m].
  cbn [x_r x_m x_seg x_cs x_eflags x_ss esp edi esi ebx ebp].
  intros (? & ? & ? & ? & ? & ? & ? & ?) Hsp Hn Ho1 Ho2 Hns. cbn [eax ecx edx ebx esp ebp esi edi] in *.
  remember (run swtch _) as s' eqn:E. unfold swtch in E. asm1 in E. asm1 in E.
  remember (load32 m (sp + 4)) as old eqn:Eo. remember (load32 m (sp + 8)) as new eqn:En.
  do 11 asm1 in E. change (run [] ?s) with s in E. subst s'. cbn [x_r x_seg x_eip x_cs x_eflags x_ss x_m edi esi ebx ebp esp].
  split_and!; try reflexivity; try lia; try (memgoal; reflexivity || lia); try (f_equal; lia).
  intros x Hx1 Hx2. memgoal. reflexivity.
Qed.

(** A well-placed call of swtch: the words it reads and writes do not meet. *)
Definition swtch_ok (s : mach) : Prop :=
  let sp := esp (x_r s) in let old := load32 (x_m s) (sp + 4) in let new := load32 (x_m s) (sp + 8) in
  regs_ok (x_r s) /\ 16 <= sp < 2 ^ 32 - 12 /\ 0 <= new < 2 ^ 32 - 20 /\
  apart old 4 (sp - 16) 20 /\ apart old 4 new 20 /\ apart new 20 (sp - 16) 16.

(** The trap frame (x86.h) at [tf]: the saved registers [r] (but for esp, which
    popal ignores), the segments [g], the vector, the error code and what the
    processor pushed. *)
Definition trapframe_at (m : mem) (tf : Z) (r : regs) (g : segs) (trapno err eip cs eflags : Z) : Prop :=
  (load32 m tf = edi r /\ load32 m (tf + 4) = esi r /\ load32 m (tf + 8) = ebp r /\ load32 m (tf + 16) = ebx r /\
   load32 m (tf + 20) = edx r /\ load32 m (tf + 24) = ecx r /\ load32 m (tf + 28) = eax r) /\
  (u16 (load32 m (tf + 32)) = gs g /\ u16 (load32 m (tf + 36)) = fs g /\ u16 (load32 m (tf + 40)) = es g /\ u16 (load32 m (tf + 44)) = ds g) /\
  load32 m (tf + 48) = trapno /\ load32 m (tf + 52) = err /\
  load32 m (tf + 56) = eip /\ u16 (load32 m (tf + 60)) = cs /\ load32 m (tf + 64) = eflags.

Lemma trapframe_ext m m' tf r g no err eip cs fl :
  (forall x, tf <= x < tf + 68 -> m' x = m x) -> trapframe_at m tf r g no err eip cs fl -> trapframe_at m' tf r g no err eip cs fl.
Proof.
  intros H Hf.
  assert (forall k, 0 <= k <= 64 -> load32 m' (tf + k) = load32 m (tf + k)) as Hk by (intros; apply load32_ext; intros; apply H; lia).
  unfold trapframe_at in *. specialize (Hk 0) as H0. rewrite Z.add_0_r in H0. rewrite H0, !Hk by lia. exact Hf.
Qed.

(** trapret takes the registers back from the frame. *)
Lemma trapret_run s r g no err eip cs fl :
  let tf := esp (x_r s) in
  0 <= tf < 2 ^ 32 - 76 -> trapframe_at (x_m s) tf r g no err eip cs fl ->
  run trapret s =
    if Z.land (x_cs s) 3 =? Z.land cs 3
    then mkMach (rset ESP (tf + 68) r) g eip cs fl (x_ss s) (x_m s)
    else mkMach (rset ESP (load32 (x_m s) (tf + 68)) r) g eip cs fl (u16 (load32 (x_m s) (tf + 72))) (x_m s).
Proof.
  destruct s as [[a c d b sp bp si di] [w x y z] ip cs' fl' ss m], r as [ra rc rd rb rsp rbp rsi rdi], g as [g1 g2 g3 g4].
  cbv zeta. cbn [x_r x_m x_cs x_ss esp]. intros Htf ((Ha & Hb & Hc & Hd & He & Hf & Hg) & (Hh & Hi & Hj & Hk) & Hl & Hm & Hn & Ho & Hp).
  cbn [eax ecx edx ebx esp ebp esi edi ds es fs gs] in *.
  remember (run trapret _) as s' eqn:E. unfold trapret in E. do 7 asm1 in E. change (run [] ?s) with s in E.
  rewrite Ha, Hb, Hc, Hd, He, Hf, Hg, Hh, Hi, Hj, Hk, Hn, Ho, Hp in E. subst s'. destruct (_ =? _); reflexivity.
Qed.

(** The machine when the C function trap is called. *)
Definition at_trap (ss0 esp0 cs0 n err : Z) (s : mach) : mach := run (vector n ++ alltraps) (interrupt ss0 esp0 cs0 n err s).

(** The bottom of the trap frame: the stack of the task state from user mode,
    the current one in the kernel, below what the processor and the vector
    push. *)
Definition tf_base (esp0 : Z) (s : mach) : Z := if Z.land (x_cs s) 3 =? 0 then esp (x_r s) - 68 else esp0 - 76.

Definition mach_ok (s : mach) : Prop :=
  regs_ok (x_r s) /\ segs_ok (x_seg s) /\ word (x_eip s) /\ word (x_eflags s) /\ 0 <= x_cs s < 2 ^ 16 /\ 0 <= x_ss s < 2 ^ 16.

Lemma has_err_right n : has_err n = pushes_error n.
Proof. apply eq_true_iff_eq. unfold has_err, pushes_error. cbn [existsb]. lia. Qed.

Lemma at_trap_run ss0 esp0 cs0 n err s :
  mach_ok s -> 0 <= n < 256 -> word err -> word esp0 -> 4 <= tf_base esp0 s ->
  let e := at_trap ss0 esp0 cs0 n err s in let tf := tf_base esp0 s in
  esp (x_r e) = tf - 4 /\ load32 (x_m e) (tf - 4) = tf /\ x_cs e = cs0 /\ x_seg e = mkSegs 16 16 24 24 /\
  x_ss e = (if Z.land (x_cs s) 3 =? 0 then x_ss s else ss0) /\
  trapframe_at (x_m e) tf (x_r s) (x_seg s) n (if pushes_error n then err else 0) (x_eip s) (x_cs s) (x_eflags s) /\
  (Z.land (x_cs s) 3 <> 0 -> load32 (x_m e) (tf + 68) = esp (x_r s) /\ load32 (x_m e) (tf + 72) = x_ss s) /\
  (forall x, ~ (tf - 4 <= x < tf + (if Z.land (x_cs s) 3 =? 0 then 68 else 76)) -> x_m e x = x_m s x).
Proof.
  destruct s as [[a c d b sp bp si di] [w x y z] ip cs fl ss m]. unfold mach_ok, regs_ok, segs_ok, tf_base, at_trap.
  cbn [x_r x_seg x_eip x_eflags x_cs x_ss eax ecx edx ebx esp ebp esi edi ds es fs gs x_m]. intros Hok Hn He H0 Hb. destruct Hok as ((? & ? & ? & ? & ? & ? & ? & ?) & (? & ? & ? & ?) & ? & ? & ? & ?).
  destruct (Z.land cs 3 =? 0) eqn:Ecs, (pushes_error n) eqn:En.
  all: remember (run _ _) as e eqn:E; unfold interrupt, vector, alltraps in E; rewrite ?has_err_right, En in E;
    cbn [x_cs negb app] in E; rewrite Ecs in E; cbv beta iota zeta delta [push set_r set_m set_cs set_eflags set_ss x_cs x_eflags x_eip x_r x_seg x_m x_ss rset esp] in E.
  all: repeat (asm1 in E); change (run [] ?s) with s in E;
    rewrite !u16_ax in E by (cbv; split; congruence); subst e.
  all: cbn [x_r x_seg x_cs x_ss x_m esp]; unfold trapframe_at; cbn [eax ecx edx ebx esp ebp esi edi ds es fs gs].
  all: split_and!; try reflexivity; try lia; try (memgoal; rewrite ?u16_id by lia; lia).
  all: try (exfalso; lia). all: intros v Hv; memgoal; reflexivity.
Qed.

(** ** Correctness *)

(** C13: Switching to a saved context resumes the code that saved it: let the call
    of swtch in [s1] save its context, and let a later call in [s2], with the
    saved words unchanged, switch to it.  Then that call ends as the return of
    the first one: at its return address, with the stack it had and the
    callee-saved registers of [s1]. *)
Theorem swtch_resumes s1 s2 :
  let sp := esp (x_r s1) in let old := load32 (x_m s1) (sp + 4) in
  let m1 := x_m (run swtch s1) in let s' := run swtch s2 in
  swtch_ok s1 -> swtch_ok s2 ->
  load32 (x_m s2) (esp (x_r s2) + 8) = load32 m1 old ->
  (forall x, sp - 16 <= x < sp + 4 -> x_m s2 x = m1 x) ->
  x_eip s' = load32 (x_m s1) sp /\ esp (x_r s') = sp + 4 /\
  ebx (x_r s') = ebx (x_r s1) /\ esi (x_r s') = esi (x_r s1) /\ edi (x_r s') = edi (x_r s1) /\ ebp (x_r s') = ebp (x_r s1).
Proof.
  intros sp old m1 s' (? & ? & ? & ? & ? & ?) (? & ? & ? & ? & ? & ?) Hnew Hm.
  destruct (swtch_run s1) as (_ & (Ho & Hdi & Hsi & Hbx & Hbp & Hip) & _); [assumption..|].
  destruct (swtch_run s2) as ((Hdi' & Hsi' & Hbx' & Hbp' & Hip' & Hsp') & _); [assumption..|].
  fold sp m1 in Ho, Hdi, Hsi, Hbx, Hbp, Hip. fold old s' in Ho, Hdi', Hsi', Hbx', Hbp', Hip', Hsp'. rewrite Hnew, Ho in *.
  assert (forall k, 0 <= k <= 16 -> load32 (x_m s2) (sp - 16 + k) = load32 m1 (sp - 16 + k)) as Hk
    by (intros; apply load32_ext; intros; apply Hm; lia).
  rewrite Hip', Hsp', Hbx', Hsi', Hdi', Hbp', !Hk by lia. specialize (Hk 0). rewrite Z.add_0_r in Hk. rewrite Hk by lia.
  replace (sp - 16 + 16) with sp by lia. replace (sp - 16 + 4) with (sp - 12) by lia.
  replace (sp - 16 + 8) with (sp - 8) by lia. replace (sp - 16 + 12) with (sp - 4) by lia. split_and!; (assumption || lia).
Qed.

(** The processor has the registers of [s], whatever its memory. *)
Definition resumed (s : mach) (m : mem) : mach := mkMach (x_r s) (x_seg s) (x_eip s) (x_cs s) (x_eflags s) (x_ss s) m.

Lemma rset_esp r : rset ESP (esp r) r = r.
Proof. destruct r. reflexivity. Qed.

(** C12: A trap through vector [n], from user mode or from the kernel: trap is called
    with the address of a trap frame that has the vector, the error code and the
    registers of the interrupted code, the kernel's segments are loaded and no
    other byte of memory has changed; and when trap returns (on the stack it was
    called on, with the frame as it was) the interrupted code goes on with all
    its registers, segments, flags and its stack. *)
Theorem trap_resumes ss0 esp0 cs0 n err trap s :
  let e := at_trap ss0 esp0 cs0 n err s in let tf := tf_base esp0 s in
  mach_ok s -> 0 <= n < 256 -> word err -> word esp0 -> 4 <= tf < 2 ^ 32 - 76 -> Z.land cs0 3 = 0 ->
  esp (x_r (trap e)) = esp (x_r e) -> x_cs (trap e) = x_cs e -> x_ss (trap e) = x_ss e ->
  (forall x, tf <= x < tf + 76 -> x_m (trap e) x = x_m e x) ->
  (load32 (x_m e) (esp (x_r e)) = tf /\ x_seg e = mkSegs 16 16 24 24 /\
   trapframe_at (x_m e) tf (x_r s) (x_seg s) n (if pushes_error n then err else 0) (x_eip s) (x_cs s) (x_eflags s) /\
   (forall x, ~ (tf - 4 <= x < tf + 76) -> x_m e x = x_m s x)) /\
  handle n trap (interrupt ss0 esp0 cs0 n err s) = resumed s (x_m (trap e)).
Proof.
  intros e tf Hok Hn He H0 Hb Hc0 Hsp Hcs Hss Hm.
  destruct (at_trap_run ss0 esp0 cs0 n err s Hok Hn He H0 (proj1 Hb)) as (Esp & Earg & Ecs & Eseg & Ess & Ef & Eu & Eo).
  fold e tf in Esp, Earg, Ecs, Eseg, Ess, Ef, Eu, Eo. split.
  - rewrite Esp. split_and!; [assumption..|]. intros x Hx. apply Eo. destruct (_ =? 0); lia.
  - unfold handle. fold (at_trap ss0 esp0 cs0 n err s). fold e. rewrite run_cons. cbn [exec1].
    assert (esp (x_r (trap e)) ⊕ 4 = tf) as Etf by (rewrite Hsp, Esp, u32_id; lia). rewrite Etf.
    apply (trapframe_ext _ (x_m (trap e))) in Ef; [|intros; apply Hm; lia].
    set (u := set_r ESP tf (trap e)).
    assert (esp (x_r u) = tf) as Eu' by (unfold u, set_r; cbn [x_r]; destruct (x_r (trap e)); reflexivity).
    rewrite (trapret_run u (x_r s) (x_seg s) n (if pushes_error n then err else 0) (x_eip s) (x_cs s) (x_eflags s));
      [|rewrite Eu'; lia|rewrite Eu'; exact Ef]. rewrite Eu'. change (x_cs u) with (x_cs (trap e)). change (x_m u) with (x_m (trap e)).
    change (x_ss u) with (x_ss (trap e)). rewrite Hcs, Ecs, Hc0, Hss, Ess. unfold resumed.
    rewrite Z.eqb_sym. destruct (Z.land (x_cs s) 3 =? 0) eqn:Ek.
    + assert (tf + 68 = esp (x_r s)) as -> by (unfold tf, tf_base; rewrite Ek; lia). rewrite rset_esp. reflexivity.
    + destruct Eu as [E1 E2]; [lia|].
      rewrite !(load32_ext (x_m (trap e)) (x_m e)) by (intros; apply Hm; lia). rewrite E1, E2, rset_esp.
      destruct Hok as (_ & _ & _ & _ & _ & ?). rewrite u16_id by assumption. reflexivity.
Qed.

(** What the prepared stack holds: the context with eip forkret, and above it
    the address of trapret. *)
Lemma new_stack_words ks tr fk m :
  word tr -> word fk ->
  load32 (new_stack ks tr fk m) (ks + 3996 + 16) = fk /\ load32 (new_stack ks tr fk m) (ks + 4016) = tr.
Proof.
  intros Ht Hf. unfold new_stack, KSTACKSIZE, sizeof_tf, sizeof_context. cbv zeta. split.
  - apply load32_store32_eq; [lia|exact Hf].
  - rewrite load32_store32_ne by lia.
    rewrite (load32_ext _ (store32 m (ks + 4096 - 76 - 4) tr)); [apply load32_store32_eq; [lia|exact Ht]|].
    intros x Hx. rewrite memset_bytes by lia. replace (_ && _) with false by lia. reflexivity.
Qed.

(** C23: The first run of a process: the scheduler's swtch to the context that
    allocproc prepared enters forkret; forkret returns to trapret; and trapret
    enters user mode with the registers, the program counter and the stack of
    the process's trap frame. *)
Theorem new_process_starts s ks tr fk m0 forkret r g no err eip cs fl :
  let sp := esp (x_r s) in let old := load32 (x_m s) (sp + 4) in let tf := ks + KSTACKSIZE - sizeof_tf in
  let s1 := run swtch s in let s2 := forkret s1 in
  swtch_ok s -> word tr -> word fk -> 0 <= ks < 2 ^ 32 - 4096 -> Z.land (x_cs s) 3 = 0 ->
  load32 (x_m s) (sp + 8) = tf - 4 - sizeof_context ->
  (forall x, tf - 4 - sizeof_context <= x < tf -> x_m s x = new_stack ks tr fk m0 x) ->
  trapframe_at (x_m s) tf r g no err eip cs fl -> Z.land cs 3 = 3 ->
  apart old 4 (tf - 4) 80 -> apart (tf - 4) 80 (sp - 16) 16 ->
  x_eip s2 = load32 (x_m s1) (esp (x_r s1)) -> esp (x_r s2) = esp (x_r s1) + 4 -> x_cs s2 = x_cs s1 ->
  (forall x, tf <= x < tf + 76 -> x_m s2 x = x_m s1 x) ->
  x_eip s1 = fk /\ x_eip s2 = tr /\
  run trapret s2 = mkMach (rset ESP (load32 (x_m s) (tf + 68)) r) g eip cs fl (u16 (load32 (x_m s) (tf + 72))) (x_m s2).
Proof.
  intros sp old tf s1 s2 (? & ? & ? & ? & ? & ?) Ht Hf Hks Hc0 Hnew Hst Hfr Hc3 Ha1 Ha2 Hip2 Hsp2 Hcs2 Hm2.
  destruct (new_stack_words ks tr fk m0 Ht Hf) as [Wf Wt].
  assert (tf = ks + 4020) as Etf' by (unfold tf, KSTACKSIZE, sizeof_tf; lia). clearbody tf. unfold sizeof_context in *.
  destruct (swtch_run s) as ((_ & _ & _ & _ & Hip & Hsp) & _ & Hm & _ & Hcs & _); [assumption..|]. fold s1 sp in Hip, Hsp, Hm, Hcs. fold old in Hm.
  rewrite Hnew in Hip, Hsp.
  assert (forall x, tf - 4 <= x < tf + 76 -> x_m s1 x = x_m s x) as Hm1 by (intros; apply Hm; unfold apart in *; lia).
  assert (x_eip s1 = fk) as E1.
  { rewrite Hip, <- Wf, Etf'. replace (ks + 4020 - 4 - 20 + 16) with (ks + 3996 + 16) by lia. apply load32_ext. intros; apply Hst; lia. }
  assert (x_eip s2 = tr) as E2.
  { rewrite Hip2, Hsp, <- Wt, Etf'. replace (ks + 4020 - 4 - 20 + 20) with (ks + 4016) by lia. apply load32_ext.
    intros. rewrite Hm1, Hst by lia. reflexivity. }
  split; [exact E1|]. split; [exact E2|].
  assert (esp (x_r s2) = tf) as Esp by lia.
  rewrite (trapret_run s2 r g no err eip cs fl), Esp, Hcs2, Hcs, Hc0, Hc3; [|lia|].
  - rewrite !(load32_ext (x_m s2) (x_m s)) by (intros; rewrite Hm2, Hm1 by lia; reflexivity). reflexivity.
  - rewrite Esp. apply (trapframe_ext (x_m s)); [|exact Hfr]. intros. rewrite Hm2, Hm1 by lia. reflexivity.
Qed.

(** ** Witnesses *)

Lemma set_r_m r v s : x_m (set_r r v s) = x_m s.
Proof. reflexivity. Qed.
Lemma ret_m s : x_m (exec1 s Ret) = x_m s.
Proof. reflexivity. Qed.

#[local] Transparent u32 u16 load32 store32.

Definition words (l : list (Z * Z)) (m : mem) : mem := foldl (fun m '(a, v) => store32 m a v) m l.
Definition demo_regs (sp : Z) : regs := mkRegs 11 12 13 14 sp 15 16 17.
Definition demo_mach (sp cs ss : Z) (m : mem) : mach := mkMach (demo_regs sp) (mkSegs ss ss 0 0) 80 cs 0x202 ss m.

Ltac decide_words := vm_compute; repeat split; first [congruence | left; congruence | right; congruence].
(** Two threads of control that switch to each other: the first resumes. *)
Definition demo_s1 : mach := demo_mach 7000 8 16 (words [(7000, 77); (7004, 5000); (7008, 6000)] (fun _ => 0)).
Definition demo_s2 : mach := demo_mach 4000 8 16 (words [(4000, 99); (4004, 4500); (4008, 6984)] (x_m (run swtch demo_s1))).

Lemma swtch_resumes_witness : x_eip (run swtch demo_s2) = 77 /\ esp (x_r (run swtch demo_s2)) = 7004 /\ ebx (x_r (run swtch demo_s2)) = 14.
Proof.
  destruct (swtch_resumes demo_s1 demo_s2) as (Hip & Hsp & Hbx & _).
  - decide_words.
  - decide_words.
  - vm_compute. reflexivity.
  - intros x Hx. change (esp (x_r demo_s1)) with 7000 in Hx. unfold demo_s2, demo_mach, words. cbn [x_m foldl].
    rewrite !store32_other by lia. reflexivity.
  - rewrite Hip, Hsp, Hbx. split_and!; vm_compute; reflexivity.
Defined.

(** A timer interrupt (vector 32) of a user program. *)
Definition demo_user : mach := demo_mach 12000 35 43 (fun _ => 0).
Lemma trap_resumes_witness :
  handle 32 (set_r EAX 0) (interrupt 16 9000 8 32 0 demo_user) = resumed demo_user (x_m (at_trap 16 9000 8 32 0 demo_user)) /\
  load32 (x_m (at_trap 16 9000 8 32 0 demo_user)) (tf_base 9000 demo_user + 48) = 32.
Proof.
  destruct (trap_resumes 16 9000 8 32 0 (set_r EAX 0) demo_user) as ((_ & _ & (_ & _ & Hno & _) & _) & Hr).
  - decide_words.
  - lia.
  - decide_words.
  - decide_words.
  - decide_words.
  - reflexivity.
  - vm_compute. reflexivity.
  - vm_compute. reflexivity.
  - vm_compute. reflexivity.
  - intros x _. rewrite set_r_m. reflexivity.
  - rewrite set_r_m in Hr. exact (conj Hr Hno).
Defined.

(** The first process, with the trap frame that userinit fills. *)
Definition demo_tf : mem := words [(12212 + 40, 43); (12212 + 44, 43); (12212 + 60, 35); (12212 + 64, 0x200); (12212 + 68, 4096); (12212 + 72, 43)] (fun _ => 0).
Definition demo_sched : mach :=
  demo_mach 7000 8 16
    (words [(7004, 5000); (7008, 12188)]
       (new_stack 8192 50 60 demo_tf)).
Lemma new_process_starts_witness :
  let s1 := run swtch demo_sched in let s2 := exec1 s1 Ret in
  x_eip s1 = 60 /\ x_eip s2 = 50 /\
  run trapret s2 = mkMach (mkRegs 0 0 0 0 4096 0 0 0) (mkSegs 43 43 0 0) 0 35 0x200 43 (x_m s2).
Proof.
  destruct (new_process_starts demo_sched 8192 50 60 demo_tf (fun s => exec1 s Ret) (mkRegs 0 0 0 0 0 0 0 0) (mkSegs 43 43 0 0) 0 0 0 35 0x200)
    as (H1 & H2 & H3).
  - decide_words.
  - decide_words.
  - decide_words.
  - lia.
  - reflexivity.
  - vm_compute. reflexivity.
  - intros x Hx. change (8192 + KSTACKSIZE - sizeof_tf) with 12212 in Hx. unfold sizeof_context in Hx. unfold demo_sched, demo_mach. cbn [x_m words foldl].
    rewrite !(store32_other _ 7008), !(store32_other _ 7004) by lia. reflexivity.
  - decide_words.
  - reflexivity.
  - left. vm_compute. congruence.
  - right. vm_compute. congruence.
  - vm_compute. reflexivity.
  - vm_compute. reflexivity.
  - vm_compute. reflexivity.
  - intros x _. rewrite ret_m. reflexivity.
  - assert (load32 (x_m demo_sched) (8192 + KSTACKSIZE - sizeof_tf + 68) = 4096) as E1 by (vm_compute; reflexivity).
    assert (u16 (load32 (x_m demo_sched) (8192 + KSTACKSIZE - sizeof_tf + 72)) = 43) as E2 by (vm_compute; reflexivity).
    rewrite E1, E2 in H3. exact (conj H1 (conj H2 H3)).
Defined.
