(* ===== verification/Sleep.v ===== *)
(** * proc.c: sleep() and wakeup(), statement by statement

    Proc.v takes sleep() and wakeup() as one step each.  Here their lock
    operations are steps of their own, interleaved in any order by any number
    of processes on any number of processors.  Each process either waits for a
    condition, in the loop every caller of sleep() uses,

      acquire(lk); while(!cond) sleep(chan, lk); cond = 0; release(lk);

    or makes it true,

      acquire(lk); cond = 1; wakeup(chan); release(lk);

    again and again.  [lk] is the caller's lock and [pt] is ptable.lock; each
    is held by at most one process, which is what Spinlock.v shows of
    acquire() and release(). *)

From S2P Require Import Prelude.

(** Where a process is: before its next access to shared state. *)
Inductive pc : Type :=
| Idle                 (** in neither loop *)
| Test                 (** holds lk, reads cond *)
| SAcqPt               (** sleep: holds lk, about to acquire ptable.lock *)
| SRelLk               (** sleep: holds lk and ptable.lock, about to release lk *)
| SMark                (** sleep: holds ptable.lock, about to store SLEEPING *)
| SSched               (** sleep: SLEEPING, holds ptable.lock until the scheduler releases it *)
| Asleep               (** off the processor, SLEEPING on chan *)
| Woken                (** RUNNABLE: not yet scheduled *)
| STidy                (** sleep: scheduled, holds ptable.lock, about to release it *)
| SAcqLk               (** sleep: about to reacquire lk *)
| Took                 (** holds lk and has found cond, about to reset it *)
| Leave                (** holds lk, about to release it *)
| WSet                 (** waker: holds lk, about to set cond *)
| WAcqPt               (** wakeup: holds lk, about to acquire ptable.lock *)
| WWake                (** wakeup: holds both, about to run wakeup1 *)
| WRelPt.              (** wakeup: holds both, about to release ptable.lock *)
Global Instance pc_eq : EqDecision pc.
Proof. solve_decision. Defined.

Record state := mkState { lk : option nat; pt : option nat; cond : bool; at_ : nat -> pc }.

Definition goto (i : nat) (p : pc) (f : nat -> pc) : nat -> pc := fun j => if decide (j = i) then p else f j.

(** wakeup1(chan): every process whose state is SLEEPING; ptable.lock is held
    by the waker, so the processes in [SSched] have left it. *)
Definition wake_all (f : nat -> pc) : nat -> pc :=
  fun j => match f j with Asleep => Woken | p => p end.

Inductive move (i : nat) (s : state) : state -> Prop :=
| m_wait : at_ s i = Idle -> lk s = None -> move i s (mkState (Some i) (pt s) (cond s) (goto i Test (at_ s)))
| m_wake : at_ s i = Idle -> lk s = None -> move i s (mkState (Some i) (pt s) (cond s) (goto i WSet (at_ s)))
| m_test : at_ s i = Test -> move i s (mkState (lk s) (pt s) (cond s) (goto i (if cond s then Took else SAcqPt) (at_ s)))
| m_acqpt : at_ s i = SAcqPt -> pt s = None -> move i s (mkState (lk s) (Some i) (cond s) (goto i SRelLk (at_ s)))
| m_rellk : at_ s i = SRelLk -> move i s (mkState None (pt s) (cond s) (goto i SMark (at_ s)))
| m_mark : at_ s i = SMark -> move i s (mkState (lk s) (pt s) (cond s) (goto i SSched (at_ s)))
| m_sched : at_ s i = SSched -> move i s (mkState (lk s) None (cond s) (goto i Asleep (at_ s)))
| m_run : at_ s i = Woken -> pt s = None -> move i s (mkState (lk s) (Some i) (cond s) (goto i STidy (at_ s)))
| m_kill : at_ s i = Asleep -> pt s = None -> move i s (mkState (lk s) (pt s) (cond s) (goto i Woken (at_ s)))   (** kill() wakes any sleeper *)
| m_tidy : at_ s i = STidy -> move i s (mkState (lk s) None (cond s) (goto i SAcqLk (at_ s)))
| m_acqlk : at_ s i = SAcqLk -> lk s = None -> move i s (mkState (Some i) (pt s) (cond s) (goto i Test (at_ s)))
| m_took : at_ s i = Took -> move i s (mkState (lk s) (pt s) false (goto i Leave (at_ s)))
| m_set : at_ s i = WSet -> move i s (mkState (lk s) (pt s) true (goto i WAcqPt (at_ s)))
| m_wacq : at_ s i = WAcqPt -> pt s = None -> move i s (mkState (lk s) (Some i) (cond s) (goto i WWake (at_ s)))
| m_wwake : at_ s i = WWake -> move i s (mkState (lk s) (pt s) (cond s) (goto i WRelPt (wake_all (at_ s))))
| m_wrel : at_ s i = WRelPt -> move i s (mkState (lk s) None (cond s) (goto i Leave (at_ s)))
| m_leave : at_ s i = Leave -> move i s (mkState None (pt s) (cond s) (goto i Idle (at_ s))).

Inductive reached : state -> Prop :=
| rc_init c : reached (mkState None None c (fun _ => Idle))
| rc_move i s s' : reached s -> move i s s' -> reached s'.

(** Who holds which lock, by where it is. *)
Definition has_lk (p : pc) : bool :=
  match p with Test | SAcqPt | SRelLk | Took | Leave | WSet | WAcqPt | WWake | WRelPt => true | _ => false end.
Definition has_pt (p : pc) : bool :=
  match p with SRelLk | SMark | SSched | STidy | WWake | WRelPt => true | _ => false end.
(** In sleep() with the condition found false and not yet woken. *)
Definition committed (p : pc) : bool := match p with SMark | SSched | Asleep => true | _ => false end.
(** A wakeup() that has not yet run wakeup1. *)
Definition waking (p : pc) : bool := match p with WAcqPt | WWake => true | _ => false end.

Record sinv (s : state) : Prop := {
  si_lk : forall i, lk s = Some i <-> has_lk (at_ s i) = true;
  si_pt : forall i, pt s = Some i <-> has_pt (at_ s i) = true;
  si_false : forall i, at_ s i = SAcqPt \/ at_ s i = SRelLk -> cond s = false;
  si_wake : cond s = true -> forall i, committed (at_ s i) = true -> exists j, waking (at_ s j) = true;
}.

Lemma goto_eq i p f : goto i p f i = p.
Proof. unfold goto. by rewrite decide_True. Qed.
Lemma goto_ne i p f j : j <> i -> goto i p f j = f j.
Proof. unfold goto. intros. by rewrite decide_False. Qed.
Lemma wake_all_lk f j : has_lk (wake_all f j) = has_lk (f j).
Proof. unfold wake_all. by destruct (f j). Qed.
Lemma wake_all_pt f j : has_pt (wake_all f j) = has_pt (f j).
Proof. unfold wake_all. by destruct (f j). Qed.

(** A lock's holder after one process has moved: it took the lock when free,
    released it, or neither. *)
Lemma holder_move (h : pc -> bool) (o o' : option nat) f i p :
  (forall j, o = Some j <-> h (f j) = true) ->
  (h (f i) = h p /\ o' = o) \/ (o = None /\ h p = true /\ o' = Some i) \/ (h (f i) = true /\ h p = false /\ o' = None) ->
  forall j, o' = Some j <-> h (goto i p f j) = true.
Proof.
  intros Ho Hc j. destruct (decide (j = i)) as [->|Hne]; rewrite ?goto_eq, ?goto_ne by done.
  - pose proof (Ho i). destruct Hc as [[E ->]|[(-> & E & ->)|(E1 & E2 & ->)]]; [by rewrite <- E|by rewrite E|by rewrite E2].
  - destruct Hc as [[_ ->]|[(E & _ & ->)|(E1 & _ & ->)]]; [done| |].
    + rewrite <- Ho, E. split; [congruence|done].
    + rewrite <- Ho. apply Ho in E1. rewrite E1. split; [done|congruence].
Qed.

(** The moves that neither set the condition nor run wakeup1. *)
Lemma wake_frame s c' i p :
  sinv s -> (c' = true -> cond s = true) -> waking (at_ s i) = false \/ waking p = true ->
  (committed p = true -> committed (at_ s i) = true) ->
  c' = true -> forall j, committed (goto i p (at_ s) j) = true -> exists k, waking (goto i p (at_ s) k) = true.
Proof.
  intros Hs Hc Hw Hp E j Hj. assert (Hcj : committed (at_ s j) = true).
  { destruct (decide (j = i)) as [->|Hne]; [rewrite goto_eq in Hj; by apply Hp|by rewrite goto_ne in Hj]. }
  destruct (si_wake s Hs (Hc E) j Hcj) as (k & Hk). destruct (decide (k = i)) as [->|Hne].
  - destruct Hw as [Hw|Hw]; [congruence|]. exists i. by rewrite goto_eq.
  - exists k. by rewrite goto_ne.
Qed.

Lemma false_frame s i p (c' : bool) :
  sinv s -> (cond s = false -> c' = false) -> (p = SAcqPt \/ p = SRelLk -> c' = false) ->
  forall j, goto i p (at_ s) j = SAcqPt \/ goto i p (at_ s) j = SRelLk -> c' = false.
Proof.
  intros Hs Hc Hp j. destruct (decide (j = i)) as [->|Hne]; [by rewrite goto_eq|]. rewrite goto_ne by done. intros Hj. apply Hc. by apply (si_false s Hs j).
Qed.

Ltac sleep_move :=
  match goal with
  | Hs : sinv ?s, E : at_ ?s ?i = _ |- _ =>
      split; cbn [lk pt cond at_];
      [ apply (holder_move has_lk (lk s)); [apply Hs|rewrite E; cbn; first [by left|by right; left|by right; right]]
      | apply (holder_move has_pt (pt s)); [apply Hs|rewrite E; cbn; first [by left|by right; left|by right; right]]
      | apply false_frame; [done|done|]
      | apply wake_frame; [done|done|rewrite E; cbn; auto|rewrite E; cbn; auto] ]
  end.

Lemma move_inv i s s' : move i s s' -> sinv s -> sinv s'.
Proof.
  intros Hm Hs. destruct Hm as [E L|E L|E|E P|E|E|E|E P|E P|E|E L|E|E|E P|E|E|E].
  - sleep_move. by intros [|].
  - sleep_move. by intros [|].
  - destruct (cond s) eqn:Ec; rewrite <- Ec; sleep_move; [by intros [|]|by rewrite Ec].
  - sleep_move. intros _. apply (si_false s Hs i). auto.
  - assert (Ec : cond s = false) by (apply (si_false s Hs i); auto). split; cbn [lk pt cond at_].
    + apply (holder_move has_lk (lk s)); [apply Hs|rewrite E; by right; right].
    + apply (holder_move has_pt (pt s)); [apply Hs|rewrite E; by left].
    + by apply false_frame; [| |intros [|]].
    + by rewrite Ec.
  - sleep_move. by intros [|].
  - sleep_move. by intros [|].
  - sleep_move. by intros [|].
  - sleep_move. by intros [|].
  - sleep_move. by intros [|].
  - sleep_move. by intros [|].
  - sleep_move; try done.
  - assert (Hh : forall j, has_lk (at_ s j) = true -> j = i).
    { intros j Hj%(si_lk s Hs). assert (lk s = Some i) by (apply (si_lk s Hs); by rewrite E). congruence. }
    split; cbn [lk pt cond at_].
    + apply (holder_move has_lk (lk s)); [apply Hs|rewrite E; by left].
    + apply (holder_move has_pt (pt s)); [apply Hs|rewrite E; by left].
    + intros j. destruct (decide (j = i)) as [->|Hne]; [rewrite goto_eq; by intros [|]|]. rewrite goto_ne by done.
      intros [Ej|Ej]; destruct Hne; apply Hh; by rewrite Ej.
    + intros _ j _. exists i. by rewrite goto_eq.
  - sleep_move. by intros [|].
  - assert (Hh : forall j, has_pt (at_ s j) = true -> j = i).
    { intros j Hj%(si_pt s Hs). assert (pt s = Some i) by (apply (si_pt s Hs); by rewrite E). congruence. }
    split; cbn [lk pt cond at_].
    + apply (holder_move has_lk (lk s)); [intros j; rewrite wake_all_lk; apply Hs|rewrite wake_all_lk, E; by left].
    + apply (holder_move has_pt (pt s)); [intros j; rewrite wake_all_pt; apply Hs|rewrite wake_all_pt, E; by left].
    + intros j. destruct (decide (j = i)) as [->|Hne]; [rewrite goto_eq; by intros [|]|]. rewrite goto_ne by done.
      unfold wake_all. intros Hj. apply (si_false s Hs j). destruct (at_ s j); destruct Hj; done || auto.
    + intros _ j. destruct (decide (j = i)) as [->|Hne]; [by rewrite goto_eq|]. rewrite goto_ne by done. unfold wake_all.
      intros Hj. destruct (at_ s j) eqn:Ej; try done; destruct Hne; apply Hh; by rewrite Ej.
  - sleep_move. by intros [|].
  - sleep_move. by intros [|].
Qed.

Lemma reached_inv s : reached s -> sinv s.
Proof.
  induction 1 as [c|i s s' _ IH Hm]; [|by eapply move_inv]. split; cbn; try done. by intros i [|].
Qed.

(** C5: no wakeup is lost.  Whatever the interleaving, a process is asleep
    while the condition holds only when some process is inside wakeup() and has
    not yet run wakeup1, which will wake it; and no process is ever between
    its test and its sleep with the condition true unless such a wakeup is
    pending. *)
Theorem no_lost_wakeup s i :
  reached s -> cond s = true -> committed (at_ s i) = true ->
  exists j, waking (at_ s j) = true /\ lk s = Some j /\
    forall s', at_ s j = WWake -> move j s s' -> at_ s' i = Woken.
Proof.
  intros Hr Hc Hi. pose proof (reached_inv s Hr) as Hs. destruct (si_wake s Hs Hc i Hi) as (j & Hj). exists j. split; [done|].
  split; [apply (si_lk s Hs); by destruct (at_ s j)|]. intros s' Ej Hm. assert (Hne : i <> j) by (intros ->; by rewrite Ej in Hi).
  assert (Hp : pt s = Some j) by (apply (si_pt s Hs); by rewrite Ej).
  destruct Hm; try congruence. cbn [at_]. rewrite goto_ne by done. unfold wake_all.
  destruct (at_ s i) eqn:Ei; try done; exfalso; apply Hne; assert (pt s = Some i) by (apply (si_pt s Hs); by rewrite Ei); congruence.
Qed.

(** The race sleep() guards against: process 1 sets the condition between the
    test of process 0 and its sleep. *)
Lemma no_lost_wakeup_witness :
  exists s, reached s /\ cond s = true /\ at_ s 0%nat = Asleep /\ exists j, waking (at_ s j) = true.
Proof.
  pose proof (rc_init false) as R.
  eapply (rc_move 0) in R; [|by apply m_wait]. eapply (rc_move 0) in R; [|by apply m_test].
  eapply (rc_move 0) in R; [|by apply m_acqpt]. eapply (rc_move 0) in R; [|by apply m_rellk].
  eapply (rc_move 1) in R; [|by apply m_wake]. eapply (rc_move 1) in R; [|by apply m_set].
  eapply (rc_move 0) in R; [|by apply m_mark]. eapply (rc_move 0) in R; [|by apply m_sched].
  eexists. split; [exact R|]. split; [reflexivity|]. split; [reflexivity|].
  destruct (no_lost_wakeup _ 0 R eq_refl eq_refl) as (j & Hj & _). by exists j.
Defined.
