(* ===== verification/Console.v ===== *)
(** * console.c: the console

    src/console.c over the devices of Devices.v, and procdump of src/proc.c
    and getcallerpcs of src/spinlock.c, which it uses.  The input buffer is the
    ring with its three indices.  The memory of the screen is an array of
    16-bit cells.  consoleread and consolewrite release and take the lock of
    the inode in the file system of Fs.v.  A reader that must wait stops
    with what it has; [asleep] are the processes that sleep on input.r. *)

From stdpp Require Import functions.
From S2P Require Import Prelude Str Spinlock Kalloc Proc Fs Devices.

Record console {D : Type} := mkConsole {
  dev : dv D;
  panicked : bool;
  cons_lock : bool;
  locking : bool;
  crt : Z -> Z;          (** cells of the screen *)
  in_lock : bool;
  ibuf : list Z;         (** INPUT_BUF of them *)
  in_r : Z; in_w : Z; in_e : Z;
  asleep : list nat;
  fsy : fsys;
}.
Arguments console : clear implicits.

Definition INPUT_BUF : Z := 128.
Definition BACKSPACE : Z := 0x100.
Definition CRTPORT : Z := 0x3d4.
Definition C_ (x : Z) : Z := x - 64.

(** The bytes of a string literal. *)
Definition lit (s : string) : list Z := map (fun a => Z.of_nat (Ascii.nat_of_ascii a)) (String.list_ascii_of_string s).
Definition newline : list Z := [10].

(** ** getcallerpcs *)

Fixpoint callerpcs (m : mem) (n : nat) (ebp : Z) : list Z :=
  match n with
  | O => []
  | S n =>
      if (ebp =? 0) || (ebp <? 0x80000000) || (ebp =? 0xffffffff) then replicate (S n) 0
      else load32 m (ebp + 4) :: callerpcs m n (load32 m ebp)
  end.
Definition getcallerpcs (m : mem) (v : Z) : list Z := callerpcs m 10 (v - 8).

Section Console.
Context {D : Type} `{!Ports D}.
Notation console := (console D).
Definition set_dev v (s : console) : console := mkConsole _ v (panicked s) (cons_lock s) (locking s) (crt s) (in_lock s) (ibuf s) (in_r s) (in_w s) (in_e s) (asleep s) (fsy s).
Definition set_panicked v (s : console) : console := mkConsole _ (dev s) v (cons_lock s) (locking s) (crt s) (in_lock s) (ibuf s) (in_r s) (in_w s) (in_e s) (asleep s) (fsy s).
Definition set_cons_lock v (s : console) : console := mkConsole _ (dev s) (panicked s) v (locking s) (crt s) (in_lock s) (ibuf s) (in_r s) (in_w s) (in_e s) (asleep s) (fsy s).
Definition set_locking v (s : console) : console := mkConsole _ (dev s) (panicked s) (cons_lock s) v (crt s) (in_lock s) (ibuf s) (in_r s) (in_w s) (in_e s) (asleep s) (fsy s).
Definition set_crt v (s : console) : console := mkConsole _ (dev s) (panicked s) (cons_lock s) (locking s) v (in_lock s) (ibuf s) (in_r s) (in_w s) (in_e s) (asleep s) (fsy s).
Definition set_in_lock v (s : console) : console := mkConsole _ (dev s) (panicked s) (cons_lock s) (locking s) (crt s) v (ibuf s) (in_r s) (in_w s) (in_e s) (asleep s) (fsy s).
Definition set_ibuf v (s : console) : console := mkConsole _ (dev s) (panicked s) (cons_lock s) (locking s) (crt s) (in_lock s) v (in_r s) (in_w s) (in_e s) (asleep s) (fsy s).
Definition set_in_r v (s : console) : console := mkConsole _ (dev s) (panicked s) (cons_lock s) (locking s) (crt s) (in_lock s) (ibuf s) v (in_w s) (in_e s) (asleep s) (fsy s).
Definition set_in_w v (s : console) : console := mkConsole _ (dev s) (panicked s) (cons_lock s) (locking s) (crt s) (in_lock s) (ibuf s) (in_r s) v (in_e s) (asleep s) (fsy s).
Definition set_in_e v (s : console) : console := mkConsole _ (dev s) (panicked s) (cons_lock s) (locking s) (crt s) (in_lock s) (ibuf s) (in_r s) (in_w s) v (asleep s) (fsy s).
Definition set_asleep v (s : console) : console := mkConsole _ (dev s) (panicked s) (cons_lock s) (locking s) (crt s) (in_lock s) (ibuf s) (in_r s) (in_w s) (in_e s) v (fsy s).
Definition set_fsy v (s : console) : console := mkConsole _ (dev s) (panicked s) (cons_lock s) (locking s) (crt s) (in_lock s) (ibuf s) (in_r s) (in_w s) (in_e s) (asleep s) v.

Definition device {A} (m : M (dv D) A) : M console A := zoom dev set_dev m.
Definition cons_acquire : M console unit := acquire cons_lock set_cons_lock.
Definition cons_release : M console unit := release cons_lock set_cons_lock.
Definition in_acquire : M console unit := acquire in_lock set_in_lock.
Definition in_release : M console unit := release in_lock set_in_lock.

(** ** Output *)

Definition put_cell (pos v : Z) : M console unit := modify (fun s => set_crt (<[pos := v]> (crt s)) s).
(** [memmove(crt, crt+80, sizeof(crt[0])*23*80)] and
    [memset(crt+pos, 0, sizeof(crt[0])*(24*80 - pos))] *)
Definition scrolled (f : Z -> Z) : Z -> Z := fun k => if (0 <=? k) && (k <? 23 * 80) then f (k + 80) else f k.
Definition blanked (pos : Z) (f : Z -> Z) : Z -> Z :=
  fun k => if (pos <=? k) && (k <? pos + u32 (2 * (24 * 80 - pos)) / 2) then 0 else f k.
Definition cgaputc (c : Z) : M console unit :=
  device (outb CRTPORT 14);;
  hi ← device (inb (CRTPORT + 1));
  device (outb CRTPORT 15);;
  lo ← device (inb (CRTPORT + 1));
  let pos := Z.lor (Z.shiftl hi 8) lo in
  pos ← (if c =? 10 then mret (pos + (80 - pos mod 80))
         else if c =? BACKSPACE then mret (if 0 <? pos then pos - 1 else pos)
         else put_cell pos (Z.lor (Z.land c 0xff) 0x0700);; mret (pos + 1));
  pos ← (if 24 <=? pos / 80 then
           modify (fun s => set_crt (blanked (pos - 80) (scrolled (crt s))) s);; mret (pos - 80)
         else mret pos);
  device (outb CRTPORT 14);;
  device (outb (CRTPORT + 1) (Z.shiftr pos 8));;
  device (outb CRTPORT 15);;
  device (outb (CRTPORT + 1) pos);;
  put_cell pos (Z.lor 32 0x0700).
Definition consputc (c : Z) : M console unit :=
  p ← gets panicked;
  if (p : bool) then halt (SPanic "frozen")
  else
    (if c =? BACKSPACE then device (uartputc 8);; device (uartputc 32);; device (uartputc 8)
     else device (uartputc c));;
    cgaputc c.

Definition digits : list Z := [48; 49; 50; 51; 52; 53; 54; 55; 56; 57; 97; 98; 99; 100; 101; 102].
(** The do-while loop: the digits, least significant first. *)
Fixpoint digits_of (fuel : nat) (x base : Z) : list Z :=
  match fuel with
  | O => []
  | S fuel => nth (Z.to_nat (x mod base)) digits 0 :: (if x / base =? 0 then [] else digits_of fuel (x / base) base)
  end.
Definition printint (xx base : Z) (sign : bool) : M console unit :=
  let neg := sign && (xx <? 0) in
  let x := u32 (if neg then - xx else xx) in
  let buf := digits_of 32 x base ++ (if neg then [45] else []) in
  mfor (rev buf) consputc.

(** The words after the format: numbers, and pointers to strings. *)
Inductive karg : Type := KInt (x : Z) | KStr (s : option (list Z)).
Definition null_str : list Z := [40; 110; 117; 108; 108; 41].
Fixpoint cprintf_loop (fmt : list Z) (pct : bool) (args : list karg) : M console unit :=
  match fmt with
  | [] => mret tt
  | c :: fmt =>
      if c =? 0 then mret tt
      else if negb pct then
        if c =? 37 then cprintf_loop fmt true args else consputc c;; cprintf_loop fmt false args
      else if c =? 100 then
        match args with KInt x :: args => printint (i32 x) 10 true;; cprintf_loop fmt false args | _ => undef "va_arg" end
      else if (c =? 120) || (c =? 112) then
        match args with KInt x :: args => printint x 16 false;; cprintf_loop fmt false args | _ => undef "va_arg" end
      else if c =? 115 then
        match args with KStr s :: args => mfor (default null_str s) consputc;; cprintf_loop fmt false args | _ => undef "va_arg" end
      else if c =? 37 then consputc 37;; cprintf_loop fmt false args
      else consputc 37;; consputc c;; cprintf_loop fmt false args
  end.
Definition cprintf (fmt : option (list Z)) (args : list karg) : M console unit :=
  l ← gets locking;
  when l cons_acquire;;
  match fmt with
  | None => Prelude.panic "null fmt"
  | Some fmt => cprintf_loop fmt false args
  end;;
  when l cons_release.

(** [panic], on cpu [id] with the frame at [sp]. *)
Definition panic (id sp : Z) (msg : list Z) : M console unit :=
  modify (set_locking false);;
  cprintf (Some [99; 112; 117; 37; 100; 58; 32; 112; 97; 110; 105; 99; 58; 32]) [KInt id];;
  cprintf (Some msg) [];;
  cprintf (Some [10]) [];;
  s ← get;
  mfor (getcallerpcs (pmem (dev s)) sp) (fun pc => cprintf (Some [32; 37; 112]) [KInt pc]);;
  modify (set_panicked true);;
  halt (SPanic "panic").

(** ** procdump *)

Definition state_name (st : procstate) : list Z :=
  match st with
  | UNUSED => [117; 110; 117; 115; 101; 100]
  | EMBRYO => [101; 109; 98; 114; 121; 111]
  | SLEEPING => [115; 108; 101; 101; 112; 32]
  | RUNNABLE => [114; 117; 110; 98; 108; 101]
  | RUNNING => [114; 117; 110; 32; 32; 32]
  | ZOMBIE => [122; 111; 109; 98; 105; 101]
  end.
Definition nonzero_prefix (l : list Z) : list Z := fold_right (fun x r => if x =? 0 then [] else x :: r) [] l.
(** The context is at its address in memory, ebp its fourth word. *)
Definition procdump (ps : list proc) : M console unit :=
  mfor ps (fun p =>
    if decide (p_state p = UNUSED) then mret tt
    else
      cprintf (Some [37; 100; 32; 37; 115; 32; 37; 115]) [KInt (p_pid p); KStr (Some (state_name (p_state p))); KStr (Some (p_name p))];;
      s ← get;
      let m := pmem (dev s) in
      when (bool_decide (p_state p = SLEEPING))
        (mfor (nonzero_prefix (getcallerpcs m (load32 m (p_context p + 12) + 8))) (fun pc => cprintf (Some [32; 37; 112]) [KInt pc]));;
      cprintf (Some [10]) []).

(** ** Input *)

Definition slot (k : Z) : nat := Z.to_nat (k mod INPUT_BUF).
(** [while (input.e != input.w && input.buf[(input.e-1) % INPUT_BUF] != '\n')] *)
Fixpoint kill_line (fuel : nat) : M console unit :=
  match fuel with
  | O => halt SFuel
  | S fuel =>
      s ← get;
      if (in_e s =? in_w s) || (nth (slot (in_e s ⊖ 1)) (ibuf s) 0 =? 10) then mret tt
      else modify (fun s => set_in_e (in_e s ⊖ 1) s);; consputc BACKSPACE;; kill_line fuel
  end.
(** The characters of the interrupt handler's switch. *)
Definition console_char (ps : list proc) (c : Z) : M console unit :=
  if c =? C_ 80 then procdump ps
  else if c =? C_ 85 then kill_line (S (Z.to_nat INPUT_BUF))
  else if (c =? C_ 72) || (c =? 127) then
    s ← get;
    when (negb (in_e s =? in_w s)) (modify (fun s => set_in_e (in_e s ⊖ 1) s);; consputc BACKSPACE)
  else
    s ← get;
    when (negb (c =? 0) && (in_e s ⊖ in_r s <? INPUT_BUF))
      (let c := if c =? 13 then 10 else c in
       modify (fun s => set_in_e (in_e s ⊕ 1) (set_ibuf (<[slot (in_e s) := c]> (ibuf s)) s));;
       consputc c;;
       s ← get;
       when ((c =? 10) || (c =? C_ 68) || (in_e s =? in_r s ⊕ INPUT_BUF))
         (modify (fun s => set_asleep [] (set_in_w (in_e s) s)))).
(** The loop reads until [getc] has no more. *)
Fixpoint consoleintr_loop (fuel : nat) (ps : list proc) (getc : M (dv D) Z) : M console unit :=
  match fuel with
  | O => halt SFuel
  | S fuel =>
      c ← device getc;
      if 0 <=? c then console_char ps c;; consoleintr_loop fuel ps getc else mret tt
  end.
Definition consoleintr (fuel : nat) (ps : list proc) (getc : M (dv D) Z) : M console unit :=
  in_acquire;; consoleintr_loop fuel ps getc;; in_release.
Definition uartintr (fuel : nat) (ps : list proc) : M console unit := consoleintr fuel ps uartgetc.
Definition kbdintr (fuel : nat) (ps : list proc) : M console unit := consoleintr fuel ps kbdgetc.

(** The outcome of a run of the reader: it returns, or it sleeps with [n]
    bytes to go and what it has so far. *)
Inductive rd : Type := RDone (r : Z) (dst : list Z) | RSleep (n : Z) (dst : list Z).
Fixpoint consoleread_loop (fuel : nat) (pid : nat) (killed : bool) (target n : Z) (dst : list Z) : M console (option rd * Z * list Z) :=
  match fuel with
  | O => halt SFuel
  | S fuel =>
      if 0 <? n then
        s ← get;
        if in_r s =? in_w s then
          if killed then mret (Some (RDone (-1) dst), n, dst)
          else modify (fun s => set_asleep (pid :: asleep s) s);; mret (Some (RSleep n dst), n, dst)
        else
          let c := nth (slot (in_r s)) (ibuf s) 0 in
          modify (fun s => set_in_r (in_r s ⊕ 1) s);;
          if c =? C_ 68 then
            when (n <? target) (modify (fun s => set_in_r (in_r s ⊖ 1) s));; mret (None, n, dst)
          else if c =? 10 then mret (None, n - 1, dst ++ [c])
          else consoleread_loop fuel pid killed target (n - 1) (dst ++ [c])
      else mret (None, n, dst)
  end.
(** From the first statement of the loop; [n] bytes are to go. *)
Definition consoleread_run (pid : nat) (killed : bool) (ip : nat) (target n : Z) (dst : list Z) : M console rd :=
  in_acquire;;
  r ← consoleread_loop (S (Z.to_nat n)) pid killed target n dst;
  in_release;;
  match r with
  | (Some (RDone r dst), _, _) => zoom fsy set_fsy (ilock ip);; mret (RDone r dst)
  | (Some r, _, _) => mret r
  | (None, n, dst) => zoom fsy set_fsy (ilock ip);; mret (RDone (target - n) dst)
  end.
Definition consoleread (pid : nat) (killed : bool) (ip : nat) (n : Z) : M console rd :=
  zoom fsy set_fsy (iunlock ip);; consoleread_run pid killed ip n n [].

Definition consolewrite (ip : nat) (buf : list Z) : M console Z :=
  zoom fsy set_fsy (iunlock ip);;
  cons_acquire;;
  mfor buf (fun c => consputc (Z.land c 0xff));;
  cons_release;;
  zoom fsy set_fsy (ilock ip);;
  mret (Z.of_nat (length buf)).

(** The entries of devsw are consolewrite and consoleread themselves. *)
Definition consoleinit : M console unit :=
  modify (set_cons_lock false);;
  modify (set_in_lock false);;
  modify (set_locking true);;
  device (picenable IRQ_KBD);;
  device (ioapicenable IRQ_KBD 0).
End Console.
