(* ===== verification/Tty.v ===== *)
(** * The console as a line discipline

    What the input side of console.c promises: an abstract terminal with the
    bytes ready for readers and the line being edited.  [rep] relates the ring
    with its three indices to it; [prints] is the frame of all output. *)

From stdpp Require Import functions.
From S2P Require Import Prelude Str Interfaces Spinlock Kalloc Disk Proc Fs Devices Kbd Console.

(** ** The abstract terminal *)

Record tty := mkTty { ready : list Z; edit : list Z }.
Definition type_char (c : Z) (t : tty) : tty :=
  if c =? C_ 80 then t
  else if c =? C_ 85 then mkTty (ready t) []
  else if (c =? C_ 72) || (c =? 127) then mkTty (ready t) (removelast (edit t))
  else if negb (c =? 0) && (Z.of_nat (length (ready t ++ edit t)) <? INPUT_BUF) then
    let c := if c =? 13 then 10 else c in
    let e := edit t ++ [c] in
    if (c =? 10) || (c =? C_ 68) || (Z.of_nat (length (ready t ++ e)) =? INPUT_BUF) then mkTty (ready t ++ e) [] else mkTty (ready t) e
  else t.
Definition type_chars (cs : list Z) (t : tty) : tty := fold_left (fun t c => type_char c t) cs t.

(** A read of [target] bytes with [n] to go: up to a newline, or to an end of
    file, which is consumed only by a read that has nothing yet. *)
Fixpoint read_line (killed : bool) (l : list Z) (target : Z) (n : nat) (dst : list Z) {struct n} : rd * list Z :=
  match n with
  | O => (RDone target dst, l)
  | S n' =>
      match l with
      | [] => (if killed then RDone (-1) dst else RSleep (Z.of_nat n) dst, [])
      | c :: l' =>
          if c =? C_ 68 then (RDone (target - Z.of_nat n) dst, if Z.of_nat n <? target then l else l')
          else if c =? 10 then (RDone (target - Z.of_nat n') (dst ++ [c]), l')
          else read_line killed l' target n' (dst ++ [c])
      end
  end.

Create HintDb quiet discriminated.

Section Tty.
Context {D : Type} `{!Ports D}.
Implicit Types (s : console D) (t : tty).

(** ** Output

    [I] is what output does not disturb, such as the characters that wait in
    the keyboard. *)

Definition outports : list Z := [COM1; CRTPORT; CRTPORT + 1].
Definition inports : list Z := [COM1 + 5; CRTPORT + 1].
Record undisturbed (I : dv D -> Prop) : Prop := {
  un_out : forall d p v, p ∈ outports -> I d -> I (set_hw (out_byte p v (hw d)) d);
  un_in : forall d p v h, p ∈ inports -> in_byte p (hw d) = (v, h) -> I d -> I (set_hw h d);
}.
Context (I : dv D -> Prop) (HI : undisturbed I).

(** Only the devices and the screen change. *)
Definition prints s s' : Prop := exists d f, s' = set_crt f (set_dev d s) /\ (I (dev s) -> I d).

Lemma prints_refl s : prints s s.
Proof. exists (dev s), (crt s). by destruct s. Qed.
Lemma prints_trans s s' s'' : prints s s' -> prints s' s'' -> prints s s''.
Proof. intros (d & f & -> & H) (d' & f' & -> & H'). exists d', f'. cbn in H'. auto. Qed.
Lemma device_prints {A} (m : M (dv D) A) s a d : m (dev s) = Ok a d -> (I (dev s) -> I d) -> device m s = Ok a (set_dev d s) /\ prints s (set_dev d s).
Proof. intros E Hd. unfold device, zoom. rewrite E. split; [done|]. exists d, (crt s). by destruct s. Qed.

Lemma inb_ok p (s : dv D) : p ∈ inports -> exists v d, inb p s = Ok v d /\ (I s -> I d).
Proof. intros Hp. unfold inb. destruct (in_byte p (hw s)) as [v d] eqn:E. eexists _, _. split; [done|]. by apply (un_in _ HI _ p v). Qed.
Lemma outb_ok p v (s : dv D) : p ∈ outports -> exists d, outb p v s = Ok tt d /\ (I s -> I d).
Proof. intros Hp. eexists. split; [done|]. by apply (un_out _ HI). Qed.
Lemma uart_wait_ok i (s : dv D) : exists d, uart_wait i s = Ok tt d /\ (I s -> I d).
Proof.
  revert s. induction i as [|i IH]; intros s; cbn [uart_wait]; [by eexists|]. destruct (inb_ok (COM1 + 5) s) as (v & d & E & Hd); [by left|]. mstep E.
  destruct (truth _); [by eexists|]. unfold microdelay. mrun1. destruct (IH d) as (d' & E' & Hd'). exists d'. auto.
Qed.
Lemma uartputc_ok c (s : dv D) : exists d, uartputc c s = Ok tt d /\ (I s -> I d).
Proof.
  unfold uartputc. mrun1. destruct (uart s); cbn [negb]; [|by eexists]. destruct (uart_wait_ok 128 s) as (d & E & Hd). mstep E.
  destruct (outb_ok COM1 c d) as (d' & E' & Hd'); [by left|]. exists d'. auto.
Qed.

(** A computation that only prints. *)
Definition quiet {A} (m : M (console D) A) : Prop := forall s, panicked s = false -> exists a s', m s = Ok a s' /\ prints s s'.

Lemma quiet_bind {A B} (m : M (console D) A) (f : A -> M (console D) B) : quiet m -> (forall a, quiet (f a)) -> quiet (m ≫= f).
Proof.
  intros Hm Hf s Hp. destruct (Hm s Hp) as (a & s1 & E & H1). mstep E. destruct (Hf a s1) as (b & s2 & E2 & H2).
  - by destruct H1 as (d & f' & -> & _).
  - exists b, s2. split; [done|by eapply prints_trans].
Qed.
Lemma quiet_ret {A} (a : A) : quiet (mret a).
Proof. intros s _. exists a, s. split; [done|apply prints_refl]. Qed.
Lemma quiet_device {A} (m : M (dv D) A) : (forall d, exists a d', m d = Ok a d' /\ (I d -> I d')) -> quiet (device m).
Proof. intros H s _. destruct (H (dev s)) as (a & d & E & Hd). apply device_prints in E as [E Hp]; eauto. Qed.
Lemma quiet_crt g : quiet (modify (fun s => set_crt (g (crt s)) s)).
Proof. intros s _. eexists tt, _. split; [done|]. exists (dev s), (g (crt s)). by destruct s. Qed.
Lemma quiet_mfor {A} (l : list A) (m : A -> M (console D) unit) : (forall x, quiet (m x)) -> quiet (mfor l m).
Proof. intros Hm. induction l as [|x l IH]; [apply quiet_ret|]. cbn [mfor]. apply quiet_bind; [apply Hm|done]. Qed.

Lemma quiet_outb p v : p ∈ outports -> quiet (device (outb p v)).
Proof. intros Hp. apply quiet_device. intros d. destruct (outb_ok p v d Hp) as (d' & E). eauto. Qed.
Lemma quiet_inb p : p ∈ inports -> quiet (device (inb p)).
Proof. intros Hp. apply quiet_device. intros d. by apply inb_ok. Qed.
Lemma quiet_uart c : quiet (device (uartputc c)).
Proof. apply quiet_device. intros d. destruct (uartputc_ok c d) as (d' & E). eauto. Qed.
Lemma crt_index v : quiet (device (outb CRTPORT v)).
Proof. apply quiet_outb. right. by left. Qed.
Lemma crt_data v : quiet (device (outb (CRTPORT + 1) v)).
Proof. apply quiet_outb. do 2 right. by left. Qed.
Lemma crt_read : quiet (device (inb (CRTPORT + 1))).
Proof. apply quiet_inb. right. by left. Qed.

Hint Resolve quiet_ret crt_index crt_data crt_read quiet_uart quiet_mfor : quiet.
Lemma quiet_cga c : quiet (cgaputc c).
Proof.
  unfold cgaputc. do 4 (apply quiet_bind; [eauto with quiet|intros ?]).
  apply quiet_bind.
  { destruct (c =? 10); [eauto with quiet|]. destruct (c =? BACKSPACE); [eauto with quiet|]. apply quiet_bind; [apply (quiet_crt (fun f => <[_ := _]> f))|eauto with quiet]. }
  intros pos. apply quiet_bind.
  { destruct (24 <=? pos / 80); [|eauto with quiet]. apply quiet_bind; [apply (quiet_crt (fun f => blanked _ (scrolled f)))|eauto with quiet]. }
  intros pos'. do 4 (apply quiet_bind; [eauto with quiet|intros ?]). apply (quiet_crt (fun f => <[_ := _]> f)).
Qed.
Lemma quiet_consputc c : quiet (consputc c).
Proof.
  intros s Hp. unfold consputc. mrun1. rewrite Hp. revert s Hp. change (quiet ((if c =? BACKSPACE then device (uartputc 8);; device (uartputc 32);; device (uartputc 8) else device (uartputc c));; cgaputc c)).
  apply quiet_bind; [|intros _; apply quiet_cga]. destruct (c =? BACKSPACE); [|eauto with quiet]. do 2 (apply quiet_bind; [eauto with quiet|intros ?]). eauto with quiet.
Qed.
Lemma quiet_printint xx base sg : quiet (printint xx base sg).
Proof. apply quiet_mfor, quiet_consputc. Qed.

(** cprintf takes the lock of the console when it is free. *)
Lemma cprintf_free fmt args s : quiet (cprintf_loop fmt false args) -> panicked s = false -> cons_lock s = false ->
  exists s', cprintf (Some fmt) args s = Ok tt s' /\ prints s s'.
Proof.
  intros Hq Hp Hl. unfold cprintf. mrun1. destruct (locking s); cbn [when].
  - mstep (acquire_ok cons_lock set_cons_lock s Hl). destruct (Hq (set_cons_lock true s) Hp) as ([] & s1 & E & (d & f & -> & Hd)). mstep E.
    unfold cons_release. rewrite release_ok by done. eexists. split; [done|]. exists d, f. split; [destruct s; cbn in *; by subst|done].
  - mrun1. destruct (Hq s Hp) as ([] & s1 & E & H1). mstep E. eauto.
Qed.

Lemma quiet_str l : quiet (mfor l consputc).
Proof. apply quiet_mfor, quiet_consputc. Qed.
Hint Resolve quiet_consputc quiet_printint quiet_str : quiet.
Ltac quietly := repeat (apply quiet_bind; [solve [eauto with quiet]|intros ?]); solve [eauto with quiet].

Lemma print_pc pc : quiet (cprintf_loop [32; 37; 112] false [KInt pc]).
Proof. cbn. quietly. Qed.
Lemma print_nl : quiet (cprintf_loop [10] false []).
Proof. cbn. quietly. Qed.
Lemma print_proc pid st name : quiet (cprintf_loop [37; 100; 32; 37; 115; 32; 37; 115] false [KInt pid; KStr (Some st); KStr (Some name)]).
Proof. cbn. quietly. Qed.

Lemma mfor_prints {A} (m : A -> M (console D) unit) l s :
  (forall x s, panicked s = false -> cons_lock s = false -> exists s', m x s = Ok tt s' /\ prints s s') ->
  panicked s = false -> cons_lock s = false -> exists s', mfor l m s = Ok tt s' /\ prints s s'.
Proof.
  intros Hm. revert s. induction l as [|x l IH]; intros s Hp Hl; cbn [mfor]; [exists s; split; [done|apply prints_refl]|].
  destruct (Hm x s Hp Hl) as (s1 & E & H1). mstep E. destruct (IH s1) as (s2 & E2 & H2); [by destruct H1 as (d & f & -> & _)..|].
  exists s2. split; [done|by eapply prints_trans].
Qed.
Lemma procdump_prints ps s : panicked s = false -> cons_lock s = false -> exists s', procdump ps s = Ok tt s' /\ prints s s'.
Proof.
  apply mfor_prints. clear s. intros p s Hp Hl. destruct (decide (p_state p = UNUSED)); [exists s; split; [done|apply prints_refl]|].
  destruct (cprintf_free _ [KInt (p_pid p); KStr (Some (state_name (p_state p))); KStr (Some (p_name p))] s (print_proc _ _ _) Hp Hl) as (s1 & E & H1). mstep E. mrun1.
  assert (H2 : exists s2, when (bool_decide (p_state p = SLEEPING)) (mfor (nonzero_prefix (getcallerpcs (pmem (dev s1)) (load32 (pmem (dev s1)) (p_context p + 12) + 8)))
    (fun pc => cprintf (Some [32; 37; 112]) [KInt pc])) s1 = Ok tt s2 /\ prints s s2).
  { case_bool_decide; cbn [when]; [|by exists s1]. destruct (mfor_prints (fun pc => cprintf (Some [32; 37; 112]) [KInt pc])
      (nonzero_prefix (getcallerpcs (pmem (dev s1)) (load32 (pmem (dev s1)) (p_context p + 12) + 8))) s1) as (s2 & E2 & H2).
    - intros pc s' Hp' Hl'. by apply cprintf_free, Hl'; [apply print_pc|].
    - by destruct H1 as (d & f & -> & _).
    - by destruct H1 as (d & f & -> & _).
    - exists s2. split; [done|by eapply prints_trans]. }
  destruct H2 as (s2 & E2 & H2). mstep E2. destruct (cprintf_free [10] [] s2 print_nl) as (s3 & E3 & H3); [by destruct H2 as (d & f & -> & _)..|].
  exists s3. split; [done|by eapply prints_trans].
Qed.

(** ** The ring *)

Record rep s t : Prop := {
  rp_len : length (ibuf s) = Z.to_nat INPUT_BUF;
  rp_r : 0 <= in_r s < 2 ^ 32;
  rp_w : in_w s = u32 (in_r s + Z.of_nat (length (ready t)));
  rp_e : in_e s = u32 (in_r s + Z.of_nat (length (ready t ++ edit t)));
  rp_room : Z.of_nat (length (ready t ++ edit t)) <= INPUT_BUF;
  rp_bytes : forall k c, (ready t ++ edit t) !! k = Some c -> nth (slot (in_r s + Z.of_nat k)) (ibuf s) 0 = c;
  rp_edit : 10 ∉ edit t;
}.

Lemma slot_u32 x : slot (u32 x) = slot x.
Proof. unfold slot, u32, INPUT_BUF. f_equal. apply Z.mod_mod_divide. by exists (2 ^ 25). Qed.
Lemma slot_range x : (slot x < 128)%nat.
Proof. unfold slot, INPUT_BUF. pose proof (Z.mod_pos_bound x 128 ltac:(lia)). lia. Qed.
Lemma slot_inj r a b : 0 <= a < INPUT_BUF -> 0 <= b < INPUT_BUF -> slot (r + a) = slot (r + b) -> a = b.
Proof. unfold slot, INPUT_BUF. intros Ha Hb E. pose proof (Z.mod_pos_bound (r + a) 128 ltac:(lia)). pose proof (Z.mod_pos_bound (r + b) 128 ltac:(lia)). Z.to_euclidean_division_equations; lia. Qed.
Lemma u32_inj r a b : 0 <= a <= INPUT_BUF -> 0 <= b <= INPUT_BUF -> u32 (r + a) = u32 (r + b) -> a = b.
Proof. unfold u32, INPUT_BUF. intros Ha Hb E. Z.to_euclidean_division_equations; lia. Qed.
Lemma u32_add x y : u32 (u32 x + y) = u32 (x + y).
Proof. unfold u32. by rewrite Zplus_mod_idemp_l. Qed.
Lemma u32_sub x y : u32 (u32 x - y) = u32 (x - y).
Proof. unfold u32. by rewrite Zminus_mod_idemp_l. Qed.

Section Rep.
Context (s : console D) (t : tty) (Hr : rep s t).

Lemma rep_count : in_e s ⊖ in_r s = Z.of_nat (length (ready t ++ edit t)).
Proof. rewrite (rp_e _ _ Hr), u32_sub. replace (in_r s + _ - in_r s) with (Z.of_nat (length (ready t ++ edit t))) by lia. apply u32_id. pose proof (rp_room _ _ Hr). unfold INPUT_BUF in *. lia. Qed.
Lemma rep_no_edit : (in_e s =? in_w s) = bool_decide (edit t = []).
Proof.
  pose proof (rp_room _ _ Hr) as Hroom. rewrite length_app in Hroom. case_bool_decide as Hd.
  - apply Z.eqb_eq. rewrite (rp_e _ _ Hr), (rp_w _ _ Hr), Hd, app_nil_r. done.
  - apply Z.eqb_neq. rewrite (rp_e _ _ Hr), (rp_w _ _ Hr). intros E. apply u32_inj in E; [|rewrite length_app; lia|lia]. rewrite length_app in E. apply Hd. destruct (edit t); [done|cbn in E; lia].
Qed.
Lemma rep_no_ready : (in_r s =? in_w s) = bool_decide (ready t = []).
Proof.
  pose proof (rp_room _ _ Hr) as Hroom. rewrite length_app in Hroom. pose proof (rp_r _ _ Hr) as H0. rewrite (rp_w _ _ Hr). case_bool_decide as Hd.
  - apply Z.eqb_eq. rewrite Hd, Z.add_0_r. by rewrite u32_id.
  - apply Z.eqb_neq. intros E. rewrite <- (u32_id (in_r s)) in E at 1 by done. rewrite <- (Z.add_0_r (in_r s)) in E at 1. apply u32_inj in E; [|lia|lia]. apply Hd. destruct (ready t); [done|cbn in E; lia].
Qed.
End Rep.

Lemma rep_prints s s' t : rep s t -> prints s s' -> rep s' t.
Proof. intros [H1 H2 H3 H4 H5 H6 H7] (d & f & -> & _). by split. Qed.

(** The last character of the line is dropped. *)
Lemma rep_erase s t l c : rep s t -> edit t = l ++ [c] -> rep (set_in_e (in_e s ⊖ 1) s) (mkTty (ready t) l).
Proof.
  intros [H1 H2 H3 H4 H5 H6 H7] E. rewrite E in *. rewrite app_assoc, length_app in H4, H5. cbn [length] in H4, H5. split; cbn; try done.
  - rewrite H4, u32_sub. f_equal. lia.
  - lia.
  - intros k x Hk. apply H6. rewrite app_assoc. by apply lookup_app_l_Some.
  - intros Hin. apply H7, elem_of_app. by left.
Qed.

Lemma kill_line_run fuel : forall s t, rep s t -> panicked s = false -> (length (edit t) < fuel)%nat ->
  exists s', kill_line fuel s = Ok tt s' /\ rep s' (mkTty (ready t) []) /\ exists s1 e, prints s s1 /\ s' = set_in_e e s1.
Proof.
  induction fuel as [|fuel IH]; intros s t Hr Hp Hf; [lia|]. cbn [kill_line]. mrun1. rewrite (rep_no_edit s t Hr). case_bool_decide as He; cbn [orb].
  { exists s. split; [done|]. split; [destruct t; cbn in *; by subst|]. exists s, (in_e s). split; [apply prints_refl|by destruct s]. }
  destruct (exists_last He) as (l & c & El). assert (Hc : nth (slot (in_e s ⊖ 1)) (ibuf s) 0 = c).
  { rewrite (rp_e _ _ Hr), u32_sub, slot_u32, El, app_assoc, length_app. cbn [length]. replace (in_r s + Z.of_nat (length (ready t ++ l) + 1) - 1) with (in_r s + Z.of_nat (length (ready t ++ l))) by lia.
    apply (rp_bytes _ _ Hr). rewrite El, app_assoc. by rewrite list_lookup_middle. }
  rewrite Hc, (proj2 (Z.eqb_neq c 10)).
  2:{ intros ->. apply (rp_edit _ _ Hr). rewrite El. apply elem_of_app. right. by left. }
  mrun1. set (s1 := set_in_e _ s). pose proof (rep_erase s t l c Hr El) as Hr1. fold s1 in Hr1. destruct (quiet_consputc BACKSPACE s1 Hp) as ([] & s2 & E2 & H2). mstep E2.
  destruct (IH s2 (mkTty (ready t) l)) as (s3 & E3 & Hr3 & s4 & e & H4 & ->).
  - by eapply rep_prints.
  - by destruct H2 as (d & f & -> & _).
  - rewrite El, length_app in Hf. cbn in *. lia.
  - exists (set_in_e e s4). split; [done|]. split; [done|]. destruct H2 as (d & f & -> & HI2), H4 as (d' & f' & -> & HI4). exists (set_crt f' (set_dev d' s)), e. split; [|done]. exists d', f'. split; [done|]. cbn in HI2, HI4. auto.
Qed.

(** ** Typing *)

Section Add.
Context (s : console D) (t : tty) (c : Z) (Hr : rep s t) (Hroom : Z.of_nat (length (ready t ++ edit t)) < INPUT_BUF).
Let n := Z.of_nat (length (ready t ++ edit t)).
Let b := <[slot (in_e s) := c]> (ibuf s).

Lemma add_bytes k x : (ready t ++ edit t ++ [c]) !! k = Some x -> nth (slot (in_r s + Z.of_nat k)) b 0 = x.
Proof.
  intros Hk. unfold b. rewrite app_assoc in Hk. rewrite (rp_e _ _ Hr), slot_u32. apply lookup_snoc_Some in Hk as [[Hlt Hk]|[-> ->]].
  - rewrite nth_lookup, list_lookup_insert_ne, <- nth_lookup; [by apply (rp_bytes _ _ Hr)|]. intros E. apply slot_inj in E; [lia|lia|lia].
  - rewrite nth_lookup, list_lookup_insert_eq; [done|]. rewrite (rp_len _ _ Hr). apply slot_range.
Qed.
Lemma add_end : in_e s ⊕ 1 = u32 (in_r s + Z.of_nat (length (ready t ++ edit t ++ [c]))).
Proof. rewrite (rp_e _ _ Hr), u32_add, !length_app. cbn [length]. f_equal. lia. Qed.
Lemma rep_add : c <> 10 -> rep (set_in_e (in_e s ⊕ 1) (set_ibuf b s)) (mkTty (ready t) (edit t ++ [c])).
Proof.
  intros Hc. split; cbn; [unfold b; rewrite length_insert|..]; try apply Hr; [apply add_end| |apply add_bytes|].
  - rewrite !length_app in *. cbn in *. lia.
  - intros [Hin|E%list_elem_of_singleton]%elem_of_app; [by apply (rp_edit _ _ Hr)|congruence].
Qed.
Lemma rep_commit al : rep (set_asleep al (set_in_w (in_e s ⊕ 1) (set_in_e (in_e s ⊕ 1) (set_ibuf b s)))) (mkTty (ready t ++ edit t ++ [c]) []).
Proof.
  split; cbn; rewrite ?app_nil_r; [unfold b; rewrite length_insert|..]; try apply Hr; [apply add_end|apply add_end| |apply add_bytes|apply not_elem_of_nil].
  rewrite !length_app in *. cbn in *. lia.
Qed.
Lemma add_full : (in_e s ⊕ 1 =? in_r s ⊕ INPUT_BUF) = (Z.of_nat (length (ready t ++ edit t ++ [c])) =? INPUT_BUF).
Proof.
  rewrite add_end. destruct (Z.eqb_spec (Z.of_nat (length (ready t ++ edit t ++ [c]))) INPUT_BUF) as [E|E]; [rewrite E; apply Z.eqb_refl|].
  apply Z.eqb_neq. intros E'. apply u32_inj in E'; [lia| |unfold INPUT_BUF; lia]. rewrite !length_app in *. cbn [length] in *. lia.
Qed.
End Add.

(** What an interrupt leaves alone. *)
Record typed s s' : Prop := {
  ty_panic : panicked s' = panicked s;
  ty_cons : cons_lock s' = cons_lock s;
  ty_lock : in_lock s' = in_lock s;
  ty_fs : fsy s' = fsy s;
  ty_loc : locking s' = locking s;
  ty_dev : I (dev s) -> I (dev s');
}.
Lemma typed_prints s s' : prints s s' -> typed s s'.
Proof. by intros (d & f & -> & Hd). Qed.
Lemma typed_trans s s' s'' : typed s s' -> typed s' s'' -> typed s s''.
Proof. intros [] []. split; [congruence..|auto]. Qed.

(** A reader sleeps only while nothing is ready. *)
Definition sleepers_ok s t : Prop := ready t <> [] -> asleep s = [].

Lemma console_char_run ps c s t : rep s t -> panicked s = false -> cons_lock s = false -> sleepers_ok s t ->
  exists s', console_char ps c s = Ok tt s' /\ rep s' (type_char c t) /\ typed s s' /\ sleepers_ok s' (type_char c t).
Proof.
  intros Hr Hp Hl Hs. unfold console_char, type_char. destruct (c =? C_ 80).
  { destruct (procdump_prints ps s Hp Hl) as (s' & E & H'). exists s'. split; [done|]. split; [by eapply rep_prints|]. split; [by apply typed_prints|]. by destruct H' as (d & f & -> & _). }
  destruct (c =? C_ 85).
  { destruct (kill_line_run (S (Z.to_nat INPUT_BUF)) s t Hr Hp) as (s' & E & Hr' & s1 & e & H1 & ->).
    - pose proof (rp_room _ _ Hr) as Hroom. rewrite length_app in Hroom. lia.
    - eexists. split; [done|]. split; [done|]. destruct H1 as (d & f & -> & Hd). by split. }
  destruct ((c =? C_ 72) || (c =? 127)).
  { mrun1. rewrite (rep_no_edit s t Hr). case_bool_decide as He; cbn [negb when].
    - exists s. split; [done|]. rewrite He. cbn. split; [destruct t; cbn in *; by subst|]. split; [by split|done].
    - destruct (exists_last He) as (l & x & El). rewrite El, removelast_last. mrun1. set (s1 := set_in_e _ s).
      destruct (quiet_consputc BACKSPACE s1 Hp) as ([] & s2 & E2 & H2). exists s2. split; [done|]. split; [eapply rep_prints; [by eapply rep_erase|done]|].
      destruct H2 as (d & f & -> & Hd). by split. }
  mrun1. rewrite (rep_count s t Hr). destruct (negb (c =? 0) && (Z.of_nat (length (ready t ++ edit t)) <? INPUT_BUF)) eqn:Hg; cbn [when].
  2:{ exists s. split; [done|]. split; [done|]. split; [by split|done]. }
  apply andb_true_iff in Hg as [_ Hroom%Z.ltb_lt]. set (c1 := if c =? 13 then 10 else c). mrun1. set (s1 := set_in_e _ _).
  destruct (quiet_consputc c1 s1 Hp) as ([] & s2 & E2 & H2). mstep E2. mrun1. destruct H2 as (d & f & -> & Hd). cbn [in_e in_r set_crt set_dev s1 set_in_e set_ibuf].
  rewrite (add_full s t c1 Hr Hroom). destruct ((c1 =? 10) || (c1 =? C_ 68) || _) eqn:Hc; cbn [when].
  - eexists. split; [done|]. split; [exact (rep_prints _ (set_crt f (set_dev d _)) _ (rep_commit s t c1 Hr Hroom []) (ex_intro _ d (ex_intro _ f (conj eq_refl Hd))))|]. split; [by split|done].
  - eexists. split; [done|]. apply orb_false_iff in Hc as [[Hc%Z.eqb_neq _]%orb_false_iff _].
    split; [exact (rep_prints _ (set_crt f (set_dev d _)) _ (rep_add s t c1 Hr Hroom Hc) (ex_intro _ d (ex_intro _ f (conj eq_refl Hd))))|]. split; [by split|done].
Qed.
End Tty.

(** ** Interrupts and readers *)

Section Refine.
Context {D : Type} `{!Ports D}.
Implicit Types (s : console D) (t : tty).

(** [getc] delivers the characters [cs], then none, whatever is printed
    between. *)
Record source (getc : M (dv D) Z) (F : dv D -> list Z -> Prop) : Prop := {
  so_more : forall d c cs, F d (c :: cs) -> 0 <= c /\ exists d', getc d = Ok c d' /\ F d' cs;
  so_end : forall d, F d [] -> exists c d', getc d = Ok c d' /\ c < 0;
  so_out : forall cs, undisturbed (fun d => F d cs);
}.

Lemma rep_dev s t d : rep s t -> rep (set_dev d s) t.
Proof. intros []. by split. Qed.

Lemma consoleintr_loop_run getc F ps fuel cs : forall s t,
  source getc F -> F (dev s) cs -> rep s t -> panicked s = false -> cons_lock s = false -> sleepers_ok s t -> (length cs < fuel)%nat ->
  exists s', consoleintr_loop fuel ps getc s = Ok tt s' /\ rep s' (type_chars cs t) /\ typed (fun _ => True) s s' /\ sleepers_ok s' (type_chars cs t).
Proof.
  revert fuel. induction cs as [|c cs IH]; intros [|fuel] s t HF Hcs Hr Hp Hl Hs Hfu; cbn in Hfu; try lia; cbn [consoleintr_loop].
  - destruct (so_end _ _ HF _ Hcs) as (c & d & E & Hc). erewrite bind_ok by (unfold device, zoom; by rewrite E). rewrite (proj2 (Z.leb_gt 0 c)) by done.
    eexists. split; [done|]. split; [by apply rep_dev|]. by split.
  - destruct (so_more _ _ HF _ _ _ Hcs) as (Hc & d & E & Hd). erewrite bind_ok by (unfold device, zoom; by rewrite E). rewrite (proj2 (Z.leb_le 0 c)) by done.
    destruct (console_char_run _ (so_out _ _ HF cs) ps c (set_dev d s) t (rep_dev s t d Hr) Hp Hl Hs) as (s1 & E1 & Hr1 & [T1 T2 T3 T4 T5 T6] & Hs1). mstep E1.
    destruct (IH fuel s1 (type_char c t)) as (s2 & E2 & Hr2 & [G1 G2 G3 G4 G5 G6] & Hs2); [done|by apply T6|done|by rewrite T1|by rewrite T2|done|lia|].
    exists s2. split; [done|]. split; [done|]. split; [|done]. split; [by rewrite G1|by rewrite G2|by rewrite G3|by rewrite G4|by rewrite G5|done].
Qed.

Lemma slot_add x k : slot (u32 x + k) = slot (x + k).
Proof. rewrite <- (slot_u32 (u32 x + k)), u32_add. apply slot_u32. Qed.

(** The reader takes a byte. *)
Lemma rep_pop s c l e : rep s (mkTty (c :: l) e) -> nth (slot (in_r s)) (ibuf s) 0 = c /\ rep (set_in_r (in_r s ⊕ 1) s) (mkTty l e).
Proof.
  intros [H1 H2 H3 H4 H5 H6 H7]. cbn [ready edit] in *. split; [rewrite <- (Z.add_0_r (in_r s)); by apply (H6 0%nat)|]. split; cbn.
  - done.
  - apply u32_range.
  - rewrite H3, u32_add. f_equal. cbn [length]. lia.
  - rewrite H4, u32_add. f_equal. cbn [length app]. lia.
  - cbn [length app] in H5. lia.
  - intros k x Hk. rewrite slot_add. replace (in_r s + 1 + Z.of_nat k) with (in_r s + Z.of_nat (S k)) by lia. by apply H6.
  - done.
Qed.
Lemma unpop s : 0 <= in_r s < 2 ^ 32 -> set_in_r (in_r (set_in_r (in_r s ⊕ 1) s) ⊖ 1) (set_in_r (in_r s ⊕ 1) s) = s.
Proof. intros H. cbn. rewrite u32_sub. replace (in_r s + 1 - 1) with (in_r s) by lia. rewrite u32_id by done. by destruct s. Qed.

Definition outcome (r : rd) (target : Z) : option rd * Z * list Z :=
  match r with
  | RDone k d => (if k =? -1 then Some (RDone k d) else None, target - k, d)
  | RSleep k d => (Some (RSleep k d), k, d)
  end.

Lemma consoleread_loop_run pid killed target fuel : forall n s t dst,
  (n < fuel)%nat -> 0 <= target -> Z.of_nat n <= target -> rep s t -> (sleepers_ok s t) ->
  let (r, l) := read_line killed (ready t) target n dst in
  exists s' x, consoleread_loop fuel pid killed target (Z.of_nat n) dst s = Ok x s' /\ rep s' (mkTty l (edit t)) /\
    match r with
    | RDone k d => match x with (None, m, d') => m = target - k /\ d' = d | (Some r', _, _) => r' = r /\ k = -1 end
    | RSleep k d => x = (Some r, k, d)
    end /\
    panicked s' = panicked s /\ cons_lock s' = cons_lock s /\ in_lock s' = in_lock s /\ fsy s' = fsy s /\
    asleep s' = match r with RDone _ _ => asleep s | RSleep _ _ => pid :: asleep s end.
Proof.
  induction fuel as [|fuel IH]; intros n s t dst Hf H0 Hn Hr Hs; [lia|]. destruct n as [|n]; cbn [read_line consoleread_loop].
  { cbn. eexists s, _. split; [done|]. split; [by destruct t|]. split_and!; try done. lia. }
  rewrite (proj2 (Z.ltb_lt 0 (Z.of_nat (S n)))) by lia. mrun1. rewrite (rep_no_ready s t Hr). destruct t as [[|c l] e]; cbn [ready edit] in *.
  { rewrite bool_decide_true by done. destruct killed.
    - eexists s, _. split; [done|]. by split_and!.
    - mrun1. eexists _, _. split; [done|]. split; [by destruct Hr|]. by split_and!. }
  rewrite bool_decide_false by done. destruct (rep_pop s c l e Hr) as [Hc Hr1]. rewrite Hc. mrun1. set (s1 := set_in_r _ s) in *. destruct (c =? C_ 68).
  { destruct (Z.of_nat (S n) <? target); cbn [when].
    - mrun1. eexists s, _. split; [unfold s1; rewrite unpop by apply Hr; done|]. split_and!; try done. lia.
    - mrun1. eexists s1, _. split; [done|]. split_and!; try done. lia. }
  replace (Z.of_nat (S n) - 1) with (Z.of_nat n) by lia. destruct (c =? 10).
  { eexists s1, _. split; [done|]. split_and!; try done. lia. }
  specialize (IH n s1 (mkTty l e) (dst ++ [c]) ltac:(lia) H0 ltac:(lia) Hr1). cbn [ready edit] in IH. apply IH. intros _. by apply Hs.
Qed.

(** C21: the console is a line discipline.  An interrupt for the characters [cs]
    appends them to the line, with ^U killing the line and ^H erasing a
    character, and hands the line to the readers at a newline, ^D or when the
    buffer is full; what does not fit is dropped.  A read returns what is ready
    up to and including a newline or up to ^D, which makes a read of no bytes;
    it sleeps only when nothing is ready.  The ring of console.c represents the
    abstract terminal throughout, its indices wrapping around at 2^32, and no
    reader sleeps while bytes are ready. *)
Theorem console_refines s t :
  rep s t -> in_lock s = false -> sleepers_ok s t ->
  (forall getc F ps cs fuel, source getc F -> F (dev s) cs -> panicked s = false -> cons_lock s = false -> (length cs < fuel)%nat ->
     exists s', consoleintr fuel ps getc s = Ok tt s' /\ rep s' (type_chars cs t) /\ in_lock s' = false /\ sleepers_ok s' (type_chars cs t)) /\
  (forall pid killed ip target n dst fs' (r := (read_line killed (ready t) target n dst).1) (l := (read_line killed (ready t) target n dst).2),
     Z.of_nat n <= target -> ilock ip (fsy s) = Ok tt fs' ->
     exists s', consoleread_run pid killed ip target (Z.of_nat n) dst s = Ok r s' /\ rep s' (mkTty l (edit t)) /\ in_lock s' = false /\ sleepers_ok s' (mkTty l (edit t)) /\
       match r with RDone _ _ => fsy s' = fs' | RSleep _ _ => l = [] /\ pid ∈ asleep s' end).
Proof.
  intros Hr Hl Hs. assert (Hr1 : rep (set_in_lock true s) t) by (by destruct Hr). split.
  - intros getc F ps cs fuel HF Hcs Hp Hcl Hfu. unfold consoleintr. mstep (acquire_ok in_lock set_in_lock s Hl).
    destruct (consoleintr_loop_run getc F ps fuel cs (set_in_lock true s) t) as (s' & E & Hr' & Ht & Hs'); try done. mstep E.
    unfold in_release. rewrite release_ok by (by rewrite (ty_lock _ _ _ Ht)). eexists. split; [done|]. split; [by destruct Hr'|]. by split.
  - intros pid killed ip target n dst fs' r l Hn Hil. unfold consoleread_run. mstep (acquire_ok in_lock set_in_lock s Hl).
    pose proof (consoleread_loop_run pid killed target (S n) n (set_in_lock true s) t dst ltac:(lia) ltac:(lia) Hn Hr1 Hs) as H. rewrite Nat2Z.id.
    assert (Hl0 : match r with RDone _ _ => True | RSleep _ _ => l = [] end).
    { unfold r, l. clear -killed. generalize (ready t) as L. revert dst. induction n as [|n IH]; intros dst L; cbn; [done|]. destruct L as [|c L]; [by destruct killed|].
      destruct (c =? C_ 68); [done|]. destruct (c =? 10); [done|]. apply IH. }
    assert (Hsub : l <> [] -> ready t <> []).
    { unfold l. clear. intros Hl Hr. rewrite Hr in Hl. destruct n; cbn in Hl; [done|]. by destruct killed. }
    unfold r, l in *. destruct (read_line killed (ready t) target n dst) as [r' l']. cbn [fst snd] in *.
    destruct H as (s' & x & E & Hr' & Hx & Hp & Hcl & Hlk & Hfs & Has). cbn [fsy asleep set_in_lock] in Hfs, Has. mstep E. erewrite bind_ok by (apply (release_ok in_lock set_in_lock); by rewrite Hlk). set (s2 := set_in_lock false s').
    assert (Hr2 : rep s2 (mkTty l' (edit t))) by (by destruct Hr'). destruct r' as [k d|k d].
    + assert (Eil : zoom fsy set_fsy (ilock ip) s2 = Ok tt (set_fsy fs' s2)) by (unfold zoom; cbn; by rewrite Hfs, Hil).
      assert (Hs2 : sleepers_ok (set_fsy fs' s2) (mkTty l' (edit t))) by (intros Hne; cbn; rewrite Has; by apply Hs, Hsub).
      destruct x as [[[r'|] m] d']; [destruct Hx as [-> ->]|destruct Hx as [-> ->]]; mstep Eil; eexists.
      * split; [done|]. by destruct Hr2.
      * split; [unfold mret, M_ret; do 2 f_equal; lia|]. by destruct Hr2.
    + subst x l'. eexists. split; [done|]. split_and!; [exact Hr2|done|by intros Hne|done|]. cbn. rewrite Has. by left.
Qed.
End Refine.

(** ** A terminal with a keyboard *)

Definition keys_wait (d : dv (list Z)) (cs : list Z) : Prop := 0 <= shift d < 128 /\ Forall (fun b => 0 <= b < 256) (hw d) /\ codes (shift d) (hw d) = cs.
Lemma keyboard_source : source kbdgetc keys_wait.
Proof.
  split.
  - intros d c cs (Hs & Hb & E). destruct (hw d) as [|b q] eqn:Eq; [done|]. injection E as Ec Ecs. apply Forall_cons in Hb as [Hb Hq].
    destruct (scan_range _ _ Hs Hb) as [Hc Hsh]. split; [lia|]. eexists. split; [rewrite <- Ec; by eapply keyboard_next|]. done.
  - intros d (_ & _ & E). destruct (hw d) as [|b q] eqn:Eq; [|done]. eexists (-1), _. split; [|lia].
    unfold kbdgetc, inb. unfold mbind at 1, M_bind at 1. cbn [in_byte keyboard]. rewrite Eq. done.
  - intros cs. split; [by intros d p v _ H|]. intros d p v h Hp E (Hs & Hb & Ec).
    assert (h = hw d) as ->; [|done]. cbn in E. destruct (p =? KBSTATP); [by injection E|]. destruct (Z.eqb_spec p KBDATAP) as [->|]; [|by injection E].
    repeat (apply elem_of_cons in Hp as [Hp|Hp]; [done|]). by apply elem_of_nil in Hp.
Qed.

Definition blank_fs : fsys := mkFsys false [mkInode ROOTDEV 3 1 2 T_DEV 1 1 1 0 (replicate 13 0)] (mkLdisk 0 0 (fun _ => []) ∅ [] false).
(** The keys l, s, an x that is erased, and enter wait; process 7 sleeps. *)
Definition terminal : console (list Z) :=
  mkConsole _ (idle [0x26; 0xa6; 0x1f; 0x9f; 0x2d; 0xad; 0x0e; 0x8e; 0x1c; 0x9c]) false false true (fun _ => 0) false (replicate 128 0) (2 ^ 32 - 1) (2 ^ 32 - 1) (2 ^ 32 - 1) [7%nat] blank_fs.

Lemma terminal_rep : rep terminal (mkTty [] []).
Proof. split; try done. apply not_elem_of_nil. Qed.

Lemma console_refines_witness :
  exists s', consoleintr 20 [] kbdgetc terminal = Ok tt s' /\ rep s' (mkTty [108; 115; 10] []) /\ asleep s' = [].
Proof.
  destruct (console_refines terminal (mkTty [] []) terminal_rep eq_refl ltac:(by intros H)) as [H _].
  destruct (H kbdgetc keys_wait [] (codes 0 (hw (dev terminal))) 20%nat keyboard_source) as (s' & E & Hr & _ & Hs).
  - split; [cbn; lia|]. split; [|reflexivity]. repeat constructor; lia.
  - reflexivity.
  - reflexivity.
  - vm_compute. lia.
  - exists s'. split; [exact E|]. split; [exact Hr|]. apply Hs. vm_compute. done.
Defined.
