(* ===== verification/Trap.v ===== *)
(** * trap.c: traps, interrupts and the clock

    trap() of src/trap.c on the process table of Proc.v, with sys_sleep,
    sys_uptime, sys_wait, sys_kill, sys_fork and sys_exit of src/sysproc.c.
    The interrupt handlers of the drivers and cprintf are the record
    [Handlers]: Ide.v, Console.v and Devices.v define them over their own
    states.  trap() is cut where the process may leave the processor:
    [OSyscall] when syscall() runs next and [trap_sysret] after it, [OYield]
    when it has yielded and [trap_end] when it runs again. *)

From S2P Require Import Prelude Str Devices Console Proc.

(** The part of the trap frame that trap() reads. *)
Record tframe := mkTframe { trapno : Z; tcs : Z; teip : Z; terr : Z }.
Inductive outcome : Type := OReturn | OSyscall | OYield | OExit.
Definition DPL_USER : Z := 3.
Definition from_user (tf : tframe) : bool := Z.land (tcs tf) 3 =? DPL_USER.

Section Trap.
Context {K : Type} (srv : Services K) (forkret : Z).
Notation ptable := (ptable (K := K)).

Record Handlers := {
  h_ide : M ptable unit;
  h_kbd : M ptable unit;
  h_uart : M ptable unit;
  h_eoi : M ptable unit;
  h_print : list Z -> list karg -> M ptable unit;
}.
Context (hd : Handlers).

Record clock := mkClock { ck_pt : ptable; tickslock : bool; ticks : Z }.
Definition set_ck_pt v c := mkClock v (tickslock c) (ticks c).
Definition set_tickslock v c := mkClock (ck_pt c) v (ticks c).
Definition set_ticks v c := mkClock (ck_pt c) (tickslock c) v.
Definition procs {A} (m : M ptable A) : M clock A := zoom ck_pt set_ck_pt m.
(** tickslock counts for pushcli like any other lock. *)
Definition ncli_add (n : Z) : M clock unit := procs (modify (fun t => set_pt_lock (pt_lock t) (pt_ncli t + n) t)).
Definition tk_acquire : M clock unit := Spinlock.acquire tickslock set_tickslock;; ncli_add 1.
Definition tk_release : M clock unit := Spinlock.release tickslock set_tickslock;; ncli_add (-1).

(** The channel &ticks. *)
Context (ticks_chan : chan).

Definition tick : M clock unit :=
  tk_acquire;;
  modify (fun c => set_ticks (u32 (ticks c + 1)) c);;
  procs (wakeup ticks_chan);;
  tk_release.

Definition print (fmt : string) (args : list karg) : M clock unit := procs (h_print hd (lit fmt ++ newline) args).

(** trap() on processor [id], running [me] or the scheduler; [cr2] is rcr2(). *)
Definition trap_end (me : option nat) (tf : tframe) : M clock outcome :=
  match me with
  | None => mret OReturn
  | Some p =>
      x ← procs (proc_at p);
      if p_killed x && from_user tf then procs (exit srv p);; mret OExit else mret OReturn
  end.
Definition trap_tail (me : option nat) (tf : tframe) : M clock outcome :=
  match me with
  | None => mret OReturn
  | Some p =>
      x ← procs (proc_at p);
      if p_killed x && from_user tf then procs (exit srv p);; mret OExit
      else if bool_decide (p_state x = RUNNING) && (trapno tf =? T_IRQ0 + IRQ_TIMER) then procs (yield p);; mret OYield
      else trap_end me tf
  end.
Definition trap_default (id cr2 : Z) (me : option nat) (tf : tframe) : M clock unit :=
  match me with
  | Some p =>
      if Z.land (tcs tf) 3 =? 0 then
        print "unexpected trap %d from cpu %d eip %x (cr2=0x%x)" [KInt (trapno tf); KInt id; KInt (teip tf); KInt cr2];; Prelude.panic "trap"
      else
        x ← procs (proc_at p);
        print "pid %d %s: trap %d err %d on cpu %d eip 0x%x addr 0x%x--kill proc"
          [KInt (p_pid x); KStr (Some (p_name x)); KInt (trapno tf); KInt (terr tf); KInt id; KInt (teip tf); KInt cr2];;
        procs (upd_proc p (set_killed true))
  | None => print "unexpected trap %d from cpu %d eip %x (cr2=0x%x)" [KInt (trapno tf); KInt id; KInt (teip tf); KInt cr2];; Prelude.panic "trap"
  end.
Definition trap_switch (id cr2 : Z) (me : option nat) (tf : tframe) : M clock unit :=
  let no := trapno tf in
  if no =? T_IRQ0 + IRQ_TIMER then when (id =? 0) tick;; procs (h_eoi hd)
  else if no =? T_IRQ0 + IRQ_IDE then procs (h_ide hd);; procs (h_eoi hd)
  else if no =? T_IRQ0 + IRQ_IDE + 1 then mret tt
  else if no =? T_IRQ0 + IRQ_KBD then procs (h_kbd hd);; procs (h_eoi hd)
  else if no =? T_IRQ0 + IRQ_COM1 then procs (h_uart hd);; procs (h_eoi hd)
  else if (no =? T_IRQ0 + 7) || (no =? T_IRQ0 + IRQ_SPURIOUS) then
    print "cpu%d: spurious interrupt at %x:%x" [KInt id; KInt (tcs tf); KInt (teip tf)];; procs (h_eoi hd)
  else trap_default id cr2 me tf.
(** [frame] is what proc->tf becomes. *)
Definition trap (id cr2 : Z) (me : option nat) (tf : tframe) (frame : trapframe) : M clock outcome :=
  if trapno tf =? T_SYSCALL then
    p ← deref "proc" me;
    x ← procs (proc_at p);
    if p_killed x then procs (exit srv p);; mret OExit
    else procs (upd_proc p (set_tf frame));; mret OSyscall
  else trap_switch id cr2 me tf;; trap_tail me tf.
Definition trap_sysret (p : nat) : M clock outcome :=
  x ← procs (proc_at p);
  if p_killed x then procs (exit srv p);; mret OExit else mret OReturn.

(** ** sysproc.c *)

(** The loop of sys_sleep, entered with tickslock: [None] when the process
    sleeps, with both locks released; it then runs [sys_sleep_again]. *)
Definition sys_sleep_loop (me : nat) (ticks0 n : Z) : M clock (option Z) :=
  c ← get;
  if u32 (ticks c - ticks0) <? u32 n then
    x ← procs (proc_at me);
    if p_killed x then tk_release;; mret (Some (-1))
    else modify (set_tickslock false);; procs (sleep me ticks_chan true);; mret None
  else tk_release;; mret (Some 0).
Definition sys_sleep_again (me : nat) (ticks0 n : Z) : M clock (option Z) := tk_acquire;; sys_sleep_loop me ticks0 n.
(** [arg] is what argint gives. *)
Definition sys_sleep (me : nat) (arg : option Z) : M clock (option Z) :=
  match arg with
  | None => mret (Some (-1))
  | Some n => tk_acquire;; ticks0 ← gets ticks; sys_sleep_loop me ticks0 n
  end.
Definition sys_uptime : M clock Z :=
  tk_acquire;; xticks ← gets ticks; tk_release;; mret (i32 xticks).
Definition sys_fork (me : nat) : M clock Z := procs (fork srv forkret me).
Definition sys_exit (me : nat) : M clock unit := procs (exit srv me).
Definition sys_wait (me : nat) : M clock (option Z) := procs (wait srv me).
Definition sys_kill (arg : option Z) : M clock Z :=
  match arg with None => mret (-1) | Some pid => procs (kill pid) end.

(** ** A killed process does not return to user mode *)

Lemma procs_inv {A} (m : M ptable A) c a c' : procs m c = Ok a c' -> exists t, m (ck_pt c) = Ok a t /\ c' = set_ck_pt t c.
Proof. unfold procs, zoom. destruct (m (ck_pt c)) as [b t|o t] eqn:E; [|done]. intros [= -> <-]. eauto. Qed.
Lemma read_inv p c c' x : procs (proc_at p) c = Ok x c' -> pt_proc (ck_pt c) !! p = Some x /\ c' = c.
Proof. intros (t & [? ->]%proc_at_inv & ->)%procs_inv. split; [done|by destruct c]. Qed.

Definition spared (p : nat) (c : clock) : Prop := exists x, pt_proc (ck_pt c) !! p = Some x /\ p_killed x = false.
Lemma trap_end_spared p tf c c' : from_user tf = true -> trap_end (Some p) tf c = Ok OReturn c' -> spared p c'.
Proof.
  intros Hu H. unfold trap_end in H. minv H x c1 H1. apply read_inv in H1 as [Hx ->]. rewrite Hu, andb_true_r in H.
  destruct (p_killed x) eqn:Ek; [minv H u c2 H2; done|]. injection H as <-. by exists x.
Qed.
(** C27: A process that has been killed does not get back to its user code: on
    every path of trap that returns to user mode, after an interrupt, after
    having yielded and after a system call, the process is not marked as
    killed at that moment; otherwise it has gone through exit. *)
Theorem killed_stays_in_kernel id cr2 p tf frame c c' : from_user tf = true ->
  trap id cr2 (Some p) tf frame c = Ok OReturn c' \/ trap_end (Some p) tf c = Ok OReturn c' \/ trap_sysret p c = Ok OReturn c' -> spared p c'.
Proof.
  intros Hu [H|[H|H]].
  - unfold trap in H. destruct (trapno tf =? T_SYSCALL).
    + cbn [deref] in H. minv H q c1 H1. injection H1 as <- <-. minv H x c2 H2. destruct (p_killed x); minv H u c3 H3; done.
    + minv H u c1 H1. unfold trap_tail in H. minv H x c2 H2. apply read_inv in H2 as [Hx ->]. rewrite Hu, andb_true_r in H.
      destruct (p_killed x); [minv H v c3 H3; done|]. destruct (_ && _); [minv H v c3 H3; done|]. by eapply trap_end_spared.
  - by eapply trap_end_spared.
  - unfold trap_sysret in H. minv H x c1 H1. apply read_inv in H1 as [Hx ->]. destruct (p_killed x) eqn:Ek; [minv H u c2 H2; done|].
    injection H as <-. by exists x.
Qed.

(** ** Sleeping for a number of ticks *)

(** Process [me] runs, or sleeps on the clock; no lock is held. *)
Record awake (me : nat) (c : clock) (st : procstate) (ch : option chan) : Prop := {
  aw_lock : pt_lock (ck_pt c) = false;
  aw_ncli : pt_ncli (ck_pt c) = 0;
  aw_ticks : tickslock c = false;
  aw_proc : exists x, pt_proc (ck_pt c) !! me = Some x /\ p_state x = st /\ p_killed x = false /\ p_chan x = ch;
}.

Lemma procs_ok {A} (m : M ptable A) c a t : m (ck_pt c) = Ok a t -> procs m c = Ok a (set_ck_pt t c).
Proof. intros E. unfold procs, zoom. by rewrite E. Qed.
Lemma sleep_other_ok me ch x (t : ptable) : pt_lock t = false -> pt_ncli t = 1 -> pt_proc t !! me = Some x ->
  sleep me ch true t = Ok tt (set_pt_lock false 0 (set_procs (<[me := set_state SLEEPING (set_chan (Some ch) x)]> (pt_proc t)) t)).
Proof.
  intros Hl Hn Hx. transitivity (sleep me ch false (set_pt_lock true 1 t)); [|by rewrite (sleep_own_ok me ch x)].
  unfold sleep. cbn [when]. rewrite bind_assoc_run. mstep (pt_acquire_ok t Hl). rewrite (bind_ok _ _ _ _ _ (modify_ok _ _)). cbn [set_pt_lock pt_lock pt_ncli]. rewrite Hn. done.
Qed.

Lemma sys_sleep_again_run me t0 n c ch : awake me c RUNNING ch -> exists c', ticks c' = ticks c /\
  sys_sleep_again me t0 n c = Ok (if u32 (ticks c - t0) <? u32 n then None else Some 0) c' /\
  if u32 (ticks c - t0) <? u32 n then awake me c' SLEEPING (Some ticks_chan) else awake me c' RUNNING ch.
Proof.
  intros [Hl Hn Ht (x & Hx & Hs & Hk & Hc)]. destruct c as [[lk ps np ini nc k] tl tc]. cbn in *. subst lk nc tl.
  assert (Hlen : (me < length ps)%nat) by (by eapply lookup_lt_Some).
  set (c1 := mkClock (mkPtable false ps np ini 1 k) true tc). unfold sys_sleep_again. rewrite (bind_ok _ _ _ tt c1) by done. unfold sys_sleep_loop. mrun1.
  change (ticks c1) with tc. destruct (u32 (tc - t0) <? u32 n).
  - mstep (procs_ok _ c1 _ _ (proc_ok me x (ck_pt c1) Hx)). rewrite Hk. mrun1. set (c2 := set_tickslock false _).
    mstep (procs_ok _ c2 _ _ (sleep_other_ok me ticks_chan x (ck_pt c2) eq_refl eq_refl Hx)). eexists. split; [|split; [done|]]; [done|].
    split; try done. cbn. rewrite list_lookup_insert_eq by done. by eexists.
  - eexists. split; [|split; [reflexivity|]]; [done|]. split; try done. by exists x.
Qed.
Lemma sys_sleep_run me n c ch : awake me c RUNNING ch -> sys_sleep me (Some n) c = sys_sleep_again me (ticks c) n c.
Proof. intros [_ _ Ht _]. unfold sys_sleep, sys_sleep_again, tk_acquire. destruct c as [t tl tc]. cbn in Ht. subst tl. done. Qed.

(** A timer interrupt on processor 0, and then the process is scheduled. *)
Definition tick_and_run (me : nat) : M clock unit := tick;; _ ← procs (schedule me); procs (resume me).
Lemma tick_and_run_ok me c : awake me c SLEEPING (Some ticks_chan) -> exists c', tick_and_run me c = Ok tt c' /\ ticks c' = u32 (ticks c + 1) /\ awake me c' RUNNING None.
Proof.
  intros [Hl Hn Ht (x & Hx & Hs & Hk & Hc)]. destruct c as [[lk ps np ini nc k] tl tc]. cbn in *. subst lk nc tl.
  set (ps' := wake (Some ticks_chan) <$> ps). assert (Hx' : ps' !! me = Some (set_state RUNNABLE x)) by (unfold ps'; rewrite list_lookup_fmap, Hx; cbn; unfold wake; by rewrite decide_True).
  assert (Hlen : (me < length ps')%nat) by (by eapply lookup_lt_Some).
  set (c1 := mkClock (mkPtable false ps' np ini 0 k) false (u32 (tc + 1))). unfold tick_and_run. rewrite (bind_ok _ _ _ tt c1) by done.
  assert (R : schedule me (ck_pt c1) = Ok true (set_procs (<[me := set_state RUNNING (set_state RUNNABLE x)]> ps') (ck_pt c1))).
  { unfold schedule. mstep (pt_acquire_ok (ck_pt c1) eq_refl). rewrite (bind_ok _ _ _ _ _ (proc_ok me (set_state RUNNABLE x) (set_pt_lock true (pt_ncli (ck_pt c1) + 1) (ck_pt c1)) Hx')). rewrite decide_True by done.
    rewrite (bind_ok _ _ _ _ _ (upd_proc_ok me (set_state RUNNING) (set_state RUNNABLE x) (set_pt_lock true (pt_ncli (ck_pt c1) + 1) (ck_pt c1)) Hx')). done. }
  mstep (procs_ok _ c1 _ _ R). unfold resume. erewrite procs_ok by (apply upd_proc_ok; cbn [ck_pt set_ck_pt set_procs pt_proc]; by rewrite list_lookup_insert_eq).
  eexists. split; [done|]. split; [done|]. split; try done. cbn. rewrite list_lookup_insert_eq by (by rewrite length_insert). by eexists.
Qed.

(** [k] ticks after the start of sys_sleep; it looks at the clock after each. *)
Fixpoint sleeping (me : nat) (t0 n : Z) (k : nat) : M clock (option Z) :=
  match k with
  | O => sys_sleep me (Some n)
  | S k =>
      r ← sleeping me t0 n k;
      match r with Some v => mret (Some v) | None => tick_and_run me;; sys_sleep_again me t0 n end
  end.
(** C33: sys_sleep(n) lasts n ticks, also when the counter wraps around: until
    the n-th tick the process is asleep on the clock, every tick wakes it, and
    at the n-th it returns 0. *)
Theorem sys_sleep_lasts me n c ch k : awake me c RUNNING ch -> 0 <= n < 2 ^ 31 -> 0 <= ticks c < 2 ^ 32 -> Z.of_nat k <= n -> exists c',
  sleeping me (ticks c) n k c = Ok (if Z.of_nat k <? n then None else Some 0) c' /\ ticks c' = u32 (ticks c + Z.of_nat k) /\
  awake me c' (if Z.of_nat k <? n then SLEEPING else RUNNING) (if Z.of_nat k <? n then Some ticks_chan else if (k =? 0)%nat then ch else None).
Proof.
  intros Hc Hn Ht. set (t0 := ticks c). induction k as [|k IH]; intros Hk.
  - cbn [sleeping]. rewrite (sys_sleep_run _ _ _ _ Hc). destruct (sys_sleep_again_run me t0 n c ch Hc) as (c' & Et & E & Ha).
    fold t0 in Et, E, Ha. rewrite Z.sub_diag in E, Ha. change (u32 0) with 0 in E, Ha. rewrite (u32_id n) in E, Ha by lia.
    exists c'. change (Z.of_nat 0) with 0. rewrite Et, Z.add_0_r, u32_id by done. split; [done|]. split; [done|]. by destruct (0 <? n).
  - destruct IH as (c1 & E1 & Et1 & Ha1); [lia|]. rewrite (proj2 (Z.ltb_lt (Z.of_nat k) n)) in E1, Ha1 by lia. cbn [sleeping]. mstep E1.
    destruct (tick_and_run_ok me c1 Ha1) as (c2 & E2 & Et2 & Ha2). mstep E2. destruct (sys_sleep_again_run me t0 n c2 None Ha2) as (c3 & Et3 & E3 & Ha3).
    assert (Ek : ticks c2 = u32 (t0 + Z.of_nat (S k))) by (rewrite Et2, Et1; unfold u32; rewrite Zplus_mod_idemp_l; f_equal; lia).
    assert (Ed : u32 (ticks c2 - t0) = Z.of_nat (S k)).
    { rewrite Ek. unfold u32. rewrite Zminus_mod_idemp_l. replace (t0 + Z.of_nat (S k) - t0) with (Z.of_nat (S k)) by lia. apply Z.mod_small. lia. }
    rewrite Ed, (u32_id n) in E3, Ha3 by lia. exists c3. rewrite Et3, Ek. split; [done|]. split; [done|]. by destruct (Z.of_nat (S k) <? n).
Qed.
End Trap.

(** ** Witnesses *)

Definition quiet_handlers : Handlers (K := Z) := Build_Handlers (mret tt) (mret tt) (mret tt) (mret tt) (fun _ _ => mret tt).
(** The first process runs; the clock is about to wrap around. *)
Definition demo_clock : clock (K := Z) := mkClock run1 false (2 ^ 32 - 2).
Definition key_pressed : tframe := mkTframe (T_IRQ0 + IRQ_KBD) 0x1b 0 0.
Lemma killed_stays_in_kernel_witness : exists c', trap counting quiet_handlers (CAddr 0x1000) 0 0 (Some 0%nat) key_pressed (mkTf 0 0 0 []) demo_clock = Ok OReturn c' /\ spared 0 c'.
Proof.
  exists demo_clock. assert (E : trap counting quiet_handlers (CAddr 0x1000) 0 0 (Some 0%nat) key_pressed (mkTf 0 0 0 []) demo_clock = Ok OReturn demo_clock) by (vm_compute; reflexivity).
  split; [exact E|]. exact (killed_stays_in_kernel counting quiet_handlers (CAddr 0x1000) 0 0 0 key_pressed (mkTf 0 0 0 []) demo_clock demo_clock eq_refl (or_introl E)).
Defined.
Lemma demo_awake : awake 0 demo_clock RUNNING None.
Proof. split; try done. eexists. split; [vm_compute; reflexivity|]. by split_and!. Qed.
Lemma sys_sleep_lasts_witness : exists c', sleeping (CAddr 0x1000) 0 (2 ^ 32 - 2) 3 3 demo_clock = Ok (Some 0) c' /\ ticks c' = 1.
Proof.
  destruct (sys_sleep_lasts (CAddr 0x1000) 0 3 demo_clock None 3 demo_awake) as (c' & E & Ht & _); [lia|cbn; lia|lia|].
  exists c'. by split.
Defined.
