(* ===== verification/Vm.v ===== *)
(** * vm.c: page tables and user address spaces

    src/vm.c over the memory of Kalloc.v: page directories and page tables are
    words of the kernel's pages, reached at the kernel address [p2v] of the
    physical address an entry holds; pages come from kalloc() and go back with
    kfree().  [data] is the linker's symbol.  seginit, switchkvm and switchuvm,
    which load registers and descriptor tables, are in Seg.v.  A null page-table-entry pointer that the code
    follows is the undefined access it is in C. *)

From S2P Require Import Prelude Str Spinlock Kalloc.

Definition EXTMEM : Z := 0x100000.
Definition KERNLINK : Z := KERNBASE + EXTMEM.
Definition DEVSPACE : Z := 0xFE000000.
Definition NPDENTRIES : Z := 1024.
Definition NPTENTRIES : Z := 1024.
Definition PTE_P : Z := 1.
Definition PTE_W : Z := 2.
Definition PTE_U : Z := 4.

Definition PDX (va : Z) : Z := Z.land (Z.shiftr va 22) 0x3FF.
Definition PTX (va : Z) : Z := Z.land (Z.shiftr va 12) 0x3FF.
Definition PTE_ADDR (pte : Z) : Z := Z.land pte (u32 (Z.lnot 0xFFF)).
Definition PGROUNDDOWN (a : Z) : Z := Z.land a (u32 (Z.lnot (PGSIZE - 1))).

Definition present (e : Z) : bool := truth (Z.land e PTE_P).

(** Loads and stores of the kernel. *)
Definition lw (a : Z) : M kmem Z := gets (fun k => load32 (kdata k) a).
Definition sw (a w : Z) : M kmem unit := modify (fun k => set_kdata (store32 (kdata k) a w) k).
Definition zero_page (a : Z) : M kmem unit := modify (fun k => set_kdata (memset (kdata k) a 0 PGSIZE) k).
Definition move_bytes (dst src n : Z) : M kmem unit := modify (fun k => set_kdata (memmove (kdata k) dst src n) k).
Definition store_bytes (a : Z) (l : list Z) : M kmem unit := modify (fun k => set_kdata (put_bytes (kdata k) a l) k).

(** The address of the entry, 0 when there is none. *)
Definition walkpgdir (pgdir va : Z) (alloc : bool) : M kmem Z :=
  let pde := pgdir + 4 * PDX va in
  e ← lw pde;
  if present e then mret (p2v (PTE_ADDR e) + 4 * PTX va)
  else if negb alloc then mret 0
  else
    pgtab ← kalloc;
    if pgtab =? 0 then mret 0
    else
      zero_page pgtab;;
      sw pde (Z.lor (Z.lor (Z.lor (v2p pgtab) PTE_P) PTE_W) PTE_U);;
      mret (pgtab + 4 * PTX va).

Fixpoint mappages_loop (fuel : nat) (pgdir a last pa perm : Z) : M kmem Z :=
  match fuel with
  | O => halt SFuel
  | S fuel =>
      pte ← walkpgdir pgdir a true;
      if pte =? 0 then mret (-1)
      else
        e ← lw pte;
        if present e then panic "remap"
        else
          sw pte (Z.lor (Z.lor pa perm) PTE_P);;
          if a =? last then mret 0
          else mappages_loop fuel pgdir (a ⊕ PGSIZE) last (pa ⊕ PGSIZE) perm
  end.
(** The pages from the one of [va] to the one of its last byte: at most 2^20. *)
Definition mappages (pgdir va size pa perm : Z) : M kmem Z :=
  let a := PGROUNDDOWN va in
  let last := PGROUNDDOWN (va ⊕ size ⊖ 1) in
  mappages_loop (S (Z.to_nat ((last ⊖ a) / PGSIZE))) pgdir a last pa perm.

Section Kmap.
Context (data : Z).

(** virt, phys_start, phys_end, perm. *)
Definition kmap : list (Z * Z * Z * Z) :=
  [(KERNBASE, 0, EXTMEM, PTE_W);
   (KERNLINK, v2p KERNLINK, v2p data, 0);
   (data, v2p data, PHYSTOP, PTE_W);
   (DEVSPACE, DEVSPACE, 0, PTE_W)].

Fixpoint setupkvm_loop (pgdir : Z) (l : list (Z * Z * Z * Z)) : M kmem Z :=
  match l with
  | [] => mret pgdir
  | (virt, ps, pe, perm) :: l =>
      r ← mappages pgdir virt (pe ⊖ ps) ps perm;
      if r <? 0 then mret 0 else setupkvm_loop pgdir l
  end.
Definition setupkvm : M kmem Z :=
  pgdir ← kalloc;
  if pgdir =? 0 then mret 0
  else
    zero_page pgdir;;
    if DEVSPACE <? p2v PHYSTOP then panic "PHYSTOP too high"
    else setupkvm_loop pgdir kmap.

(** [init] are the bytes of the first program. *)
Definition inituvm (pgdir : Z) (init : list Z) : M kmem unit :=
  if PGSIZE <=? Z.of_nat (length init) then panic "inituvm: more than a page"
  else
    mem ← kalloc;
    if mem =? 0 then undef "memset(0, 0, PGSIZE)"
    else
      zero_page mem;;
      mappages pgdir 0 PGSIZE (v2p mem) (Z.lor PTE_W PTE_U);;
      store_bytes mem init.

Fixpoint deallocuvm_loop (fuel : nat) (pgdir a oldsz : Z) : M kmem unit :=
  match fuel with
  | O => halt SFuel
  | S fuel =>
      if a <? oldsz then
        pte ← walkpgdir pgdir a false;
        if pte =? 0 then deallocuvm_loop fuel pgdir (a ⊕ (NPTENTRIES - 1) * PGSIZE ⊕ PGSIZE) oldsz
        else
          e ← lw pte;
          when (present e)
            (if PTE_ADDR e =? 0 then panic "kfree"
             else kfree (p2v (PTE_ADDR e));; sw pte 0);;
          deallocuvm_loop fuel pgdir (a ⊕ PGSIZE) oldsz
      else mret tt
  end.
(** Each turn advances by a page at least; the callers' sizes are at most KERNBASE. *)
Definition deallocuvm (pgdir oldsz newsz : Z) : M kmem Z :=
  if oldsz <=? newsz then mret oldsz
  else
    deallocuvm_loop (S (Z.to_nat (oldsz / PGSIZE + 1))) pgdir (PGROUNDUP newsz) oldsz;;
    mret newsz.

Fixpoint allocuvm_loop (fuel : nat) (pgdir a oldsz newsz : Z) : M kmem Z :=
  match fuel with
  | O => halt SFuel
  | S fuel =>
      if a <? newsz then
        mem ← kalloc;
        if mem =? 0 then deallocuvm pgdir newsz oldsz;; mret 0
        else
          zero_page mem;;
          mappages pgdir a PGSIZE (v2p mem) (Z.lor PTE_W PTE_U);;
          allocuvm_loop fuel pgdir (a ⊕ PGSIZE) oldsz newsz
      else mret newsz
  end.
Definition allocuvm (pgdir oldsz newsz : Z) : M kmem Z :=
  if KERNBASE <=? newsz then mret 0
  else if newsz <? oldsz then mret oldsz
  else allocuvm_loop (S (Z.to_nat (newsz / PGSIZE + 1))) pgdir (PGROUNDUP oldsz) oldsz newsz.

Definition free_table (pgdir : Z) (i : Z) : M kmem unit :=
  e ← lw (pgdir + 4 * i);
  when (present e) (kfree (p2v (PTE_ADDR e))).
Definition freevm (pgdir : Z) : M kmem unit :=
  if pgdir =? 0 then panic "freevm: no pgdir"
  else
    deallocuvm pgdir KERNBASE 0;;
    mfor (seqZ 0 NPDENTRIES) (free_table pgdir);;
    kfree pgdir.

Definition clearpteu (pgdir uva : Z) : M kmem unit :=
  pte ← walkpgdir pgdir uva false;
  if pte =? 0 then panic "clearpteu"
  else e ← lw pte; sw pte (Z.land e (u32 (Z.lnot PTE_U))).

(** The loop of copyuvm: false when it jumps to [bad]. *)
Fixpoint copyuvm_loop (fuel : nat) (d pgdir sz i : Z) : M kmem bool :=
  match fuel with
  | O => halt SFuel
  | S fuel =>
      if i <? sz then
        pte ← walkpgdir pgdir i false;
        if pte =? 0 then panic "copyuvm: pte should exist"
        else
          e ← lw pte;
          if negb (present e) then panic "copyuvm: page not present"
          else
            mem ← kalloc;
            if mem =? 0 then mret false
            else
              move_bytes mem (p2v (PTE_ADDR e)) PGSIZE;;
              r ← mappages d i PGSIZE (v2p mem) (Z.lor PTE_W PTE_U);
              if r <? 0 then mret false else copyuvm_loop fuel d pgdir sz (i ⊕ PGSIZE)
      else mret true
  end.
Definition copyuvm (pgdir sz : Z) : M kmem Z :=
  d ← setupkvm;
  if d =? 0 then mret 0
  else
    ok ← copyuvm_loop (S (Z.to_nat (sz / PGSIZE + 1))) d pgdir sz 0;
    if (ok : bool) then mret d else freevm d;; mret 0.
End Kmap.

Definition uva2ka (pgdir uva : Z) : M kmem Z :=
  pte ← walkpgdir pgdir uva false;
  if pte =? 0 then undef "*pte"
  else
    e ← lw pte;
    if negb (present e) then mret 0
    else if negb (truth (Z.land e PTE_U)) then mret 0
    else mret (p2v (PTE_ADDR e)).

(** [p] are the bytes to copy. *)
Fixpoint copyout_loop (fuel : nat) (pgdir va : Z) (p : list Z) : M kmem Z :=
  match fuel with
  | O => halt SFuel
  | S fuel =>
      match p with
      | [] => mret 0
      | _ =>
          let len := Z.of_nat (length p) in
          let va0 := PGROUNDDOWN va in
          pa0 ← uva2ka pgdir va0;
          if pa0 =? 0 then mret (-1)
          else
            let n := Z.min (PGSIZE - (va - va0)) len in
            store_bytes (pa0 + (va - va0)) (take (Z.to_nat n) p);;
            copyout_loop fuel pgdir (va0 ⊕ PGSIZE) (drop (Z.to_nat n) p)
      end
  end.
Definition copyout (pgdir va : Z) (p : list Z) : M kmem Z := copyout_loop (S (length p)) pgdir va p.

(** loaduvm reads a file: it runs on a state that has a memory and files. *)
Section Load.
Context {W : Type} (km : W -> kmem) (set_km : kmem -> W -> W).
(** readi(ip, _, off, n): its result and the bytes it reads. *)
Context (readi : Z -> Z -> M W (Z * list Z)).

Fixpoint loaduvm_loop (fuel : nat) (pgdir addr offset sz i : Z) : M W Z :=
  match fuel with
  | O => halt SFuel
  | S fuel =>
      if i <? sz then
        pte ← zoom km set_km (walkpgdir pgdir (addr ⊕ i) false);
        if pte =? 0 then panic "loaduvm: address should exist"
        else
          e ← zoom km set_km (lw pte);
          let n := if sz ⊖ i <? PGSIZE then sz ⊖ i else PGSIZE in
          r ← readi (offset ⊕ i) n;
          zoom km set_km (store_bytes (p2v (PTE_ADDR e)) r.2);;
          if negb (r.1 =? n) then mret (-1)
          else loaduvm_loop fuel pgdir addr offset sz (i ⊕ PGSIZE)
      else mret 0
  end.
Definition loaduvm (pgdir addr offset sz : Z) : M W Z :=
  if truth (addr mod PGSIZE) then panic "loaduvm: addr must be page aligned"
  else loaduvm_loop (S (Z.to_nat sz)) pgdir addr offset sz 0.
End Load.
