(* ===== verification/Aspace.v ===== *)
(** * Address spaces: what vm.c's page tables mean

    Pages have roles: page directory, page table or user page of an address
    space.  [world] says that the pages with a role are not free, [aspace] that
    the words of a directory and its tables are the map [P] from virtual page
    numbers to entries.  The operations of Vm.v are shown to be operations on
    [P], the free list and the contents of the user pages. *)

From S2P Require Import Prelude Str Spinlock Kalloc Vm.

(** ** Entries *)

Definition entry (pa perm : Z) : Z := Z.lor (Z.lor pa perm) PTE_P.
(** The page an entry maps. *)
Definition frame (e : Z) : Z := p2v (PTE_ADDR e).

Lemma land_page q f : 0 <= f < PGSIZE -> Z.land (PGSIZE * q) f = 0.
Proof.
  intros Hf. apply Z.bits_inj'. intros n Hn. rewrite Z.land_spec, Z.bits_0. change PGSIZE with (2 ^ 12) in *.
  destruct (Z.lt_ge_cases n 12).
  - rewrite Z.mul_comm, Z.mul_pow2_bits_low by lia. done.
  - assert (Hz : Z.testbit f n = false).
    { rewrite <- (Z.mod_small f (2 ^ 12)) by lia. by apply Z.mod_pow2_bits_high. }
    by rewrite Hz, andb_false_r.
Qed.

Lemma lor_page q f : 0 <= f < PGSIZE -> Z.lor (PGSIZE * q) f = PGSIZE * q + f.
Proof. intros Hf. rewrite Z.add_nocarry_lor; [done|]. by apply land_page. Qed.

Lemma page_div q f : 0 <= f < PGSIZE -> (PGSIZE * q + f) / PGSIZE = q.
Proof. intros Hf. unfold PGSIZE in *. rewrite Z.mul_comm, Z.div_add_l by lia. rewrite Z.div_small by lia. lia. Qed.

Lemma present_odd e : present e = Z.odd e.
Proof.
  unfold present, truth, PTE_P. change 1 with (Z.ones 1). rewrite Z.land_ones by lia. change (2 ^ 1) with 2. rewrite Zmod_odd. by destruct (Z.odd e).
Qed.

Lemma PTE_ADDR_spec e : 0 <= e < 2 ^ 32 -> PTE_ADDR e = PGSIZE * (e / PGSIZE).
Proof. apply page_mask. Qed.

(** Permission bits, with or without PTE_P. *)
Definition perm_ok (perm : Z) : Prop := 0 <= perm < PGSIZE /\ Z.lor perm PTE_P < PGSIZE.

Lemma entry_spec q perm :
  0 <= q < 2 ^ 20 -> perm_ok perm ->
  entry (PGSIZE * q) perm = PGSIZE * q + Z.lor perm PTE_P /\ 0 <= entry (PGSIZE * q) perm < 2 ^ 32 /\
  present (entry (PGSIZE * q) perm) = true /\ PTE_ADDR (entry (PGSIZE * q) perm) = PGSIZE * q.
Proof.
  intros Hq [Hp Hl]. assert (H0 : 0 <= Z.lor perm PTE_P) by (apply Z.lor_nonneg; unfold PTE_P; lia).
  assert (E : entry (PGSIZE * q) perm = PGSIZE * q + Z.lor perm PTE_P).
  { unfold entry. rewrite <- Z.lor_assoc. by apply lor_page. }
  assert (Hr : 0 <= entry (PGSIZE * q) perm < 2 ^ 32) by (rewrite E; unfold PGSIZE in *; lia).
  split_and!; try done; try apply Hr.
  - rewrite present_odd, E, Z.odd_add, Z.odd_mul. change (Z.odd PGSIZE) with false. cbn [andb xorb].
    rewrite <- Z.bit0_odd, Z.lor_spec. by rewrite orb_true_r.
  - rewrite PTE_ADDR_spec by done. by rewrite E, page_div.
Qed.

Lemma perm_uw : perm_ok (Z.lor PTE_W PTE_U).
Proof. by vm_compute. Qed.

(** A page as frame number, and the entry of a page table. *)
Lemma page_number e p : page_ok e p -> p = PGSIZE * (p / PGSIZE) /\ v2p p = PGSIZE * (v2p p / PGSIZE) /\ 0 <= v2p p / PGSIZE < 2 ^ 20 /\ p2v (v2p p) = p.
Proof.
  intros Hp. destruct (page_range _ _ Hp) as (Hr & Ev & _). destruct Hp as (Ha & _ & Hk). rewrite Ev. unfold p2v, PGSIZE, KERNBASE, PHYSTOP in *.
  rewrite u32_id by lia. Z.to_euclidean_division_equations. lia.
Qed.

Definition pde_word (t : Z) : Z := Z.lor (Z.lor (Z.lor (v2p t) PTE_P) PTE_W) PTE_U.
Lemma pde_word_spec e t : page_ok e t -> 0 <= pde_word t < 2 ^ 32 /\ present (pde_word t) = true /\ p2v (PTE_ADDR (pde_word t)) = t.
Proof.
  intros Ht. destruct (page_number _ _ Ht) as (_ & Ev & Hq & Ep).
  assert (E : pde_word t = PGSIZE * (v2p t / PGSIZE) + 7).
  { unfold pde_word. rewrite <- !Z.lor_assoc. change (Z.lor PTE_P (Z.lor PTE_W PTE_U)) with 7. rewrite Ev at 1. by apply lor_page. }
  assert (Hr : 0 <= pde_word t < 2 ^ 32) by (rewrite E; unfold PGSIZE in *; lia).
  split_and!; try apply Hr.
  - by rewrite present_odd, E, Z.odd_add, Z.odd_mul.
  - rewrite PTE_ADDR_spec, E, page_div by (done || (unfold PGSIZE; lia)). by rewrite <- Ev.
Qed.

Lemma frame_entry e p perm : page_ok e p -> perm_ok perm -> frame (entry (v2p p) perm) = p.
Proof.
  intros Hp Hperm. destruct (page_number _ _ Hp) as (_ & Ev & Hq & Ep). unfold frame. rewrite Ev at 1.
  destruct (entry_spec (v2p p / PGSIZE) perm Hq Hperm) as (_ & _ & _ & ->). by rewrite <- Ev.
Qed.

(** ** Roles *)

Inductive role : Type := RDir (d : Z) | RTab (d i : Z) | RUser (d v : Z).
Definition dir_of (r : role) : Z := match r with RDir d | RTab d _ | RUser d _ => d end.

(** Memory that differs only inside the page [p]. *)
Definition pg_frame (p : Z) (m m' : mem) : Prop := forall x, x < p \/ p + PGSIZE <= x -> m' x = m x.

Record world (k : kmem) (L : list Z) (own : gmap Z role) : Prop := {
  wo_inv : kinv k L;
  wo_own : forall p r, own !! p = Some r -> page_ok (kend k) p /\ p ∉ L;
  wo_live : forall p r, own !! p = Some r -> own !! dir_of r = Some (RDir (dir_of r));
  wo_dir : forall p d, own !! p = Some (RDir d) -> p = d;
  wo_end : KERNBASE < kend k;      (** the kernel lies below its pages *)
}.

(** Part of the tables of the space [d]. *)
Definition is_table (d : Z) (own : gmap Z role) (p : Z) : Prop := own !! p = Some (RDir d) \/ exists i, own !! p = Some (RTab d i).

Record aspace (k : kmem) (own : gmap Z role) (d : Z) (T P : gmap Z Z) : Prop := {
  as_dir : own !! d = Some (RDir d);
  as_tab : forall i t, T !! i = Some t <-> own !! t = Some (RTab d i);
  as_idx : forall i t, T !! i = Some t -> 0 <= i < 1024;
  as_pde : forall i, 0 <= i < 1024 -> load32 (kdata k) (d + 4 * i) = match T !! i with Some t => pde_word t | None => 0 end;
  as_pte : forall i t j, T !! i = Some t -> 0 <= j < 1024 -> load32 (kdata k) (t + 4 * j) = default 0 (P !! (1024 * i + j));
  as_map : forall v e, P !! v = Some e -> 0 <= v < 2 ^ 20 /\ is_Some (T !! (v / 1024)) /\ 0 <= e < 2 ^ 32 /\ present e = true;
}.

Lemma world_page k L own p r : world k L own -> own !! p = Some r -> page_ok (kend k) p.
Proof. intros Hw Hp. by apply (wo_own _ _ _ Hw p r Hp). Qed.

Lemma pg_load p m m' q a :
  pg_frame p m m' -> p mod PGSIZE = 0 -> q mod PGSIZE = 0 -> p <> q -> q <= a -> a + 4 <= q + PGSIZE -> load32 m' a = load32 m a.
Proof. intros Hf Hp Hq Hne Ha1 Ha2. apply load32_ext. intros x Hx. apply Hf. destruct (page_disjoint p q Hp Hq Hne); lia. Qed.

Lemma kinv_store k L p m' :
  kinv k L -> pg_frame p (kdata k) m' -> p mod PGSIZE = 0 -> p ∉ L -> kinv (set_kdata m' k) L.
Proof.
  intros [Hl He Hc Hp Hn] Hf Hpa Hni. split; k_simpl; try done. eapply chain_ext; [|done]. intros q Hq.
  rewrite Forall_forall in Hp. destruct (Hp q Hq) as (Hqa & _). symmetry. apply (pg_load p _ _ q); [done|done|done|by intros ->|lia|unfold PGSIZE; lia].
Qed.

Lemma world_store k L own p m' :
  world k L own -> pg_frame p (kdata k) m' -> p mod PGSIZE = 0 -> p ∉ L -> world (set_kdata m' k) L own.
Proof. intros [Hi Ho Hl Hd He] Hf Hp Hn. split; [by eapply kinv_store|exact Ho|exact Hl|exact Hd|exact He]. Qed.

(** Stores outside of the tables of a space do not change it. *)
Lemma aspace_other k L own d T P p m' :
  world k L own -> aspace k own d T P -> pg_frame p (kdata k) m' -> p mod PGSIZE = 0 -> ~ is_table d own p ->
  aspace (set_kdata m' k) own d T P.
Proof.
  intros Hw [Hd Ht Hi Hpde Hpte Hmap] Hf Hp Hn. pose proof (world_page _ _ _ _ _ Hw Hd) as (Hda & _).
  split; try done; k_simpl.
  - intros i Hr. rewrite <- Hpde by done. apply (pg_load p _ _ d); [done|done|done| |lia|unfold PGSIZE; lia]. intros ->. apply Hn. by left.
  - intros i t j HT Hj. rewrite <- (Hpte i t j HT Hj). pose proof (proj1 (Ht i t) HT) as Hown. destruct (world_page _ _ _ _ _ Hw Hown) as (Hta & _).
    apply (pg_load p _ _ t); [done|done|done| |lia|unfold PGSIZE; lia]. intros ->. apply Hn. right. by exists i.
Qed.

(** ** walkpgdir *)

Lemma PDX_spec va : 0 <= va < 2 ^ 32 -> PDX va = va / PGSIZE / 1024.
Proof.
  intros Hv. unfold PDX, PGSIZE. rewrite Z.shiftr_div_pow2 by lia. change 0x3FF with (Z.ones 10). rewrite Z.land_ones by lia.
  rewrite Z.div_div by lia. change (4096 * 1024) with (2 ^ 22). apply Z.mod_small. split; [apply Z.div_pos; lia|apply Z.div_lt_upper_bound; lia].
Qed.
Lemma PTX_spec va : PTX va = (va / PGSIZE) mod 1024.
Proof. unfold PTX, PGSIZE. rewrite Z.shiftr_div_pow2 by lia. change 0x3FF with (Z.ones 10). by rewrite Z.land_ones by lia. Qed.

Lemma vpn_range va : 0 <= va < 2 ^ 32 -> 0 <= va / PGSIZE < 2 ^ 20.
Proof. unfold PGSIZE. intros. split; [apply Z.div_pos; lia|apply Z.div_lt_upper_bound; lia]. Qed.
Lemma vpn_split v : 0 <= v < 2 ^ 20 -> 0 <= v / 1024 < 1024 /\ 0 <= v mod 1024 < 1024 /\ 1024 * (v / 1024) + v mod 1024 = v.
Proof. intros. Z.to_euclidean_division_equations. lia. Qed.

Lemma walk_find k L own d T P va alloc :
  world k L own -> aspace k own d T P -> 0 <= va < 2 ^ 32 ->
  match T !! (va / PGSIZE / 1024) with
  | Some t => walkpgdir d va alloc k = Ok (t + 4 * ((va / PGSIZE) mod 1024)) k /\ t + 4 * ((va / PGSIZE) mod 1024) <> 0
  | None => walkpgdir d va false k = Ok 0 k
  end.
Proof.
  intros Hw Ha Hv. pose proof (vpn_split _ (vpn_range va Hv)) as (H1 & H2 & _). unfold walkpgdir, lw. rewrite (PDX_spec va Hv), PTX_spec.
  mrun1. mrun1. rewrite (as_pde _ _ _ _ _ Ha _ H1). destruct (T !! (va / PGSIZE / 1024)) as [t|] eqn:ET; [|done].
  pose proof (proj1 (as_tab _ _ _ _ _ Ha _ _) ET) as Hown. pose proof (world_page _ _ _ _ _ Hw Hown) as Hpt.
  destruct (pde_word_spec _ _ Hpt) as (_ & -> & ->). split; [done|]. apply page_range in Hpt. lia.
Qed.

(** The value of the entry. *)
Lemma pte_value k own d T P v t :
  aspace k own d T P -> 0 <= v < 2 ^ 20 -> T !! (v / 1024) = Some t -> load32 (kdata k) (t + 4 * (v mod 1024)) = default 0 (P !! v).
Proof.
  intros Ha Hv HT. pose proof (vpn_split v Hv) as (_ & H2 & E). rewrite (as_pte _ _ _ _ _ Ha _ _ _ HT H2). by rewrite E.
Qed.

Lemma pte_none k own d T P v : aspace k own d T P -> T !! (v / 1024) = None -> P !! v = None.
Proof. intros Ha HT. destruct (P !! v) as [e|] eqn:E; [|done]. apply (as_map _ _ _ _ _ Ha) in E as (_ & [t Ht] & _). congruence. Qed.

Lemma load32_zero m a : (forall x, a <= x < a + 4 -> m x = 0) -> load32 m a = 0.
Proof. intros E. unfold load32. rewrite !E by lia. done. Qed.

Lemma zero_page_spec m p x : memset m p 0 PGSIZE x = if (p <=? x) && (x <? p + PGSIZE) then 0 else m x.
Proof. by rewrite memset_bytes by (unfold PGSIZE; lia). Qed.
Lemma zero_page_frame m p : pg_frame p m (memset m p 0 PGSIZE).
Proof. intros x Hx. rewrite zero_page_spec. destruct (Z.leb_spec p x), (Z.ltb_spec x (p + PGSIZE)); simpl; done || lia. Qed.
Lemma zero_page_in m p x : p <= x < p + PGSIZE -> memset m p 0 PGSIZE x = 0.
Proof. intros Hx. rewrite zero_page_spec. destruct (Z.leb_spec p x), (Z.ltb_spec x (p + PGSIZE)); simpl; done || lia. Qed.
Lemma store_frame m p a w : p <= a -> a + 4 <= p + PGSIZE -> pg_frame p m (store32 m a w).
Proof. intros H1 H2 x Hx. apply store32_other. lia. Qed.

(** A fresh page becomes the page table of index [i]. *)
Lemma aspace_new_table k L own d T P p i :
  world k (p :: L) own -> aspace k own d T P -> 0 <= i < 1024 -> T !! i = None -> forall k',
  kinv k' L -> kdata k' = kdata k -> kend k' = kend k ->
  let m1 := memset (kdata k) p 0 PGSIZE in
  let k2 := set_kdata (store32 m1 (d + 4 * i) (pde_word p)) k' in
  world k2 L (<[p := RTab d i]> own) /\ aspace k2 (<[p := RTab d i]> own) d (<[i := p]> T) P.
Proof.
  intros Hw Ha Hi HT k' Hk' Ed Ee m1 k2. destruct Hw as [Hinv Hown Hlive Hdir Hend]. pose proof Ha as [Hd Ht Hidx Hpde Hpte Hmap].
  assert (Hp : page_ok (kend k) p) by (pose proof (ki_pages _ _ Hinv) as Hf; by apply Forall_cons in Hf as [? _]).
  assert (HpL : p ∉ L) by (pose proof (ki_nodup _ _ Hinv) as Hf; by apply NoDup_cons in Hf as [? _]).
  assert (Hpo : own !! p = None). { destruct (own !! p) as [r|] eqn:E; [|done]. destruct (Hown p r E) as [_ Hn]. destruct Hn. by left. }
  destruct (Hown d _ Hd) as [Hdp Hdn]. assert (Hdp' : d <> p) by (intros ->; congruence).
  assert (HdL : d ∉ L) by (intros ?; apply Hdn; by right). pose proof Hp as (Hpa & _). pose proof Hdp as (Hda & _).
  assert (Hpw : world k2 L (<[p := RTab d i]> own)).
  { split.
    - apply (kinv_store (set_kdata m1 k') L d); k_simpl; [|apply store_frame; unfold PGSIZE; lia|done|done].
      apply (kinv_store k' L p); [done| |done|done]. rewrite Ed. apply zero_page_frame.
    - intros q r Hq. cbn [k2 kend set_kdata]. rewrite Ee. apply lookup_insert_Some in Hq as [[<- <-]|[Hne Hq]]; [done|].
      destruct (Hown q r Hq) as [? Hn]. split; [done|]. intros ?. apply Hn. by right.
    - intros q r Hq. assert (Hr : own !! dir_of r = Some (RDir (dir_of r))) by (apply lookup_insert_Some in Hq as [[_ <-]|[_ Hq]]; [done|by eapply Hlive]).
      rewrite lookup_insert_ne; [done|congruence].
    - intros q x [[_ ?]|[_ Hq]]%lookup_insert_Some; [done|by apply Hdir].
    - unfold k2. k_simpl. by rewrite Ee. }
  split; [done|]. destruct (pde_word_spec _ _ Hp) as (Hrange & _).
  assert (Hld : forall q a, q mod PGSIZE = 0 -> q <> p -> q <= a -> a + 4 <= q + PGSIZE -> load32 m1 a = load32 (kdata k) a).
  { intros q a Hq Hne H1 H2. apply (pg_load p _ _ q); [apply zero_page_frame|done|done|done|done|done]. }
  split.
  - rewrite lookup_insert_ne by done. done.
  - intros j t. destruct (decide (j = i)) as [->|Hj].
    + rewrite lookup_insert_eq. destruct (decide (t = p)) as [->|Htp]; [by rewrite lookup_insert_eq|]. rewrite lookup_insert_ne by done.
      rewrite <- Ht, HT. split; [congruence|done].
    + rewrite lookup_insert_ne by done. destruct (decide (t = p)) as [->|Htp].
      * rewrite lookup_insert_eq. split; [|congruence]. intros Hj'%Ht. congruence.
      * rewrite lookup_insert_ne by done. apply Ht.
  - intros j t [[<- _]|[_ Hj]]%lookup_insert_Some; [done|by apply Hidx in Hj].
  - intros j Hj. cbn [k2 kdata set_kdata]. destruct (decide (j = i)) as [->|Hne].
    + rewrite lookup_insert_eq. by apply load32_store32.
    + rewrite lookup_insert_ne by done. rewrite <- Hpde by done.
      rewrite (load32_ext _ m1) by (intros x Hx; apply store32_other; lia). apply (Hld d); [done|done|lia|unfold PGSIZE; lia].
  - intros j t b Hj Hb. cbn [k2 kdata set_kdata]. apply lookup_insert_Some in Hj as [[<- <-]|[Hne Hj]].
    + rewrite (pg_load d m1 _ p); [|apply store_frame; unfold PGSIZE; lia|done|done|done|lia|unfold PGSIZE; lia].
      rewrite load32_zero by (intros x Hx; apply zero_page_in; unfold PGSIZE; lia).
      rewrite (pte_none _ _ _ _ _ _ Ha); [done|]. replace ((1024 * i + b) / 1024) with i by (Z.to_euclidean_division_equations; lia). done.
    + rewrite <- (Hpte j t b Hj Hb). pose proof (proj1 (Ht j t) Hj) as Hto. destruct (Hown t _ Hto) as [(Hta & _) _].
      rewrite (pg_load d m1 _ t); [|apply store_frame; unfold PGSIZE; lia|done|done|congruence|lia|unfold PGSIZE; lia].
      apply (Hld t); [done|congruence|lia|unfold PGSIZE; lia].
  - intros v e Hv. destruct (Hmap v e Hv) as (H1 & H2 & H3). split_and!; try done; try apply H3; try apply H1.
    destruct H2 as [t Hvt]. destruct (decide (v / 1024 = i)) as [->|Hne]; [rewrite lookup_insert_eq; eauto|]. rewrite lookup_insert_ne by done. eauto.
Qed.

(** What an operation on the space [d] may do besides: take pages from the front
    of the free list as page tables. *)
Record extends (d : Z) (k : kmem) (L : list Z) (own : gmap Z role) (T : gmap Z Z) (k' : kmem) (L' : list Z) (own' : gmap Z role) (T' : gmap Z Z) : Prop := {
  ex_free : exists N, L = N ++ L';
  ex_keep : forall p r, own !! p = Some r -> own' !! p = Some r;
  ex_new : forall p r, own' !! p = Some r -> own !! p = Some r \/ (p ∈ L /\ exists i, r = RTab d i);
  ex_tab : T ⊆ T';
  ex_count : (length L + size T = length L' + size T')%nat;
  ex_mem : forall p x, p mod PGSIZE = 0 -> ~ is_table d own' p -> p <= x < p + PGSIZE -> kdata k' x = kdata k x;
  ex_end : kend k' = kend k;
}.

Lemma extends_refl d k L own T : extends d k L own T k L own T.
Proof. split; try done; [by exists []|auto]. Qed.

Lemma extends_trans d k1 L1 o1 T1 k2 L2 o2 T2 k3 L3 o3 T3 :
  extends d k1 L1 o1 T1 k2 L2 o2 T2 -> extends d k2 L2 o2 T2 k3 L3 o3 T3 -> extends d k1 L1 o1 T1 k3 L3 o3 T3.
Proof.
  intros [F1 K1 N1 S1 C1 M1 E1] [F2 K2 N2 S2 C2 M2 E2]. split.
  - destruct F1 as [A ->], F2 as [B ->]. exists (A ++ B). by rewrite app_assoc.
  - eauto.
  - intros p r Hp. destruct (N2 p r Hp) as [Hp2|[Hin Hr]]; [by apply N1|]. right. split; [|done]. destruct F1 as [A ->]. by apply elem_of_app; right.
  - by etrans.
  - lia.
  - intros p x Hp Hn Hx. rewrite (M2 p x Hp Hn Hx). apply (M1 p x Hp); [|done]. intros Ht. apply Hn.
    destruct Ht as [Ht|[i Ht]]; [left|right; exists i]; by apply K2.
  - congruence.
Qed.

Lemma walk_run k L own d T P va :
  world k L own -> aspace k own d T P -> 0 <= va < 2 ^ 32 ->
  exists a k' L' own' T', walkpgdir d va true k = Ok a k' /\ world k' L' own' /\ aspace k' own' d T' P /\ extends d k L own T k' L' own' T' /\
    ((a = 0 /\ L' = [] /\ k' = k /\ T' !! (va / PGSIZE / 1024) = None) \/
     exists t, T' !! (va / PGSIZE / 1024) = Some t /\ a = t + 4 * ((va / PGSIZE) mod 1024) /\ a <> 0).
Proof.
  intros Hw Ha Hv. pose proof (walk_find _ _ _ _ _ _ va true Hw Ha Hv) as Hf. destruct (T !! (va / PGSIZE / 1024)) as [t|] eqn:ET.
  { destruct Hf as [Hf Hne]. exists (t + 4 * ((va / PGSIZE) mod 1024)), k, L, own, T. split_and!; try done; [apply extends_refl|]. right. eauto. }
  pose proof (vpn_split _ (vpn_range va Hv)) as (H1 & H2 & _). unfold walkpgdir, lw. rewrite (PDX_spec va Hv), PTX_spec.
  mrun1. rewrite (as_pde _ _ _ _ _ Ha _ H1), ET. cbn [negb]. change (present 0) with false. cbn iota.
  pose proof (kalloc_page k L (wo_inv _ _ _ Hw)) as Hk. destruct L as [|p L].
  { mstep Hk. exists 0, k, [], own, T. split_and!; try done; [apply extends_refl|]. by left. }
  destruct Hk as (k1 & E1 & Hk1 & Hp & HpL & Ed & _ & Ee). mstep E1. pose proof (page_range _ _ Hp) as (Hpr & _).
  rewrite (proj2 (Z.eqb_neq p 0)) by lia. unfold zero_page, sw. mrun1. mrun1.
  destruct (aspace_new_table k L own d T P p _ Hw Ha H1 ET k1 Hk1 Ed Ee) as [Hw2 Ha2].
  assert (Hpo : own !! p = None). { destruct (own !! p) as [r|] eqn:E; [|done]. destruct (wo_own _ _ _ Hw p r E) as [_ Hn]. destruct Hn. by left. }
  eexists (p + 4 * ((va / PGSIZE) mod 1024)), _, L, _, (<[va / PGSIZE / 1024 := p]> T).
  k_simpl. rewrite Ed. split; [done|]. split; [exact Hw2|]. split; [exact Ha2|]. split.
  - split.
    + by exists [p].
    + intros q r Hq. rewrite lookup_insert_ne; [done|congruence].
    + intros q r [[<- <-]|[_ Hq]]%lookup_insert_Some; [right; split; [by left|eauto]|by left].
    + by apply insert_subseteq.
    + rewrite map_size_insert_None by done. cbn [length]. lia.
    + intros q x Hq Hn Hx. k_simpl. assert (q <> p) as Hqp by (intros ->; apply Hn; right; eexists; apply lookup_insert_eq).
      assert (q <> d) as Hqd. { intros ->. apply Hn. left. rewrite lookup_insert_ne; [apply (as_dir _ _ _ _ _ Ha)|congruence]. }
      pose proof (as_dir _ _ _ _ _ Ha) as Hd. destruct (wo_own _ _ _ Hw d _ Hd) as [(Hda & _) _]. pose proof Hp as (Hpa & _).
      rewrite store32_other by (destruct (page_disjoint q d Hq Hda Hqd); unfold PGSIZE in *; lia).
      apply zero_page_frame. destruct (page_disjoint q p Hq Hpa Hqp); lia.
    + done.
  - right. exists p. rewrite lookup_insert_eq. split_and!; [done|done|lia].
Qed.

(** ** Changing one entry *)

Lemma aspace_set k L own d T P v t w P' :
  world k L own -> aspace k own d T P -> 0 <= v < 2 ^ 20 -> T !! (v / 1024) = Some t -> 0 <= w < 2 ^ 32 ->
  default 0 (P' !! v) = w -> (forall u, u <> v -> P' !! u = P !! u) -> (forall e, P' !! v = Some e -> present e = true) ->
  let k' := set_kdata (store32 (kdata k) (t + 4 * (v mod 1024)) w) k in
  world k' L own /\ aspace k' own d T P'.
Proof.
  intros Hw Ha Hv HT Hwr Hw' Hoth Hpr k'. pose proof (vpn_split v Hv) as (Hi & Hj & Ev). pose proof Ha as [Hd Ht Hidx Hpde Hpte Hmap].
  pose proof (proj1 (Ht _ _) HT) as Hto. destruct (wo_own _ _ _ Hw t _ Hto) as [Htp HtL]. pose proof Htp as (Hta & _).
  assert (Hf : pg_frame t (kdata k) (store32 (kdata k) (t + 4 * (v mod 1024)) w)) by (apply store_frame; unfold PGSIZE; lia).
  split; [by eapply world_store|]. split; try done; unfold k'; k_simpl.
  - intros i Hi'. rewrite <- Hpde by done. destruct (wo_own _ _ _ Hw d _ Hd) as [(Hda & _) _].
    apply (pg_load t _ _ d); [done|done|done|congruence|lia|unfold PGSIZE; lia].
  - intros i t' j HT' Hj'. destruct (decide (1024 * i + j = v)) as [E|Hne].
    + assert (i = v / 1024 /\ j = v mod 1024) as [-> ->] by (Z.to_euclidean_division_equations; lia). assert (t' = t) as -> by congruence.
      rewrite load32_store32 by done. by rewrite Ev.
    + rewrite (Hoth _ Hne), <- (Hpte i t' j HT' Hj'). destruct (decide (t' = t)) as [->|Htt].
      * assert (i = v / 1024) as -> by (apply Ht in HT'; congruence).
        apply load32_ext. intros x Hx. apply store32_other. assert (j <> v mod 1024) by lia. lia.
      * pose proof (proj1 (Ht _ _) HT') as Hto'. destruct (wo_own _ _ _ Hw t' _ Hto') as [(Hta' & _) _].
        apply (pg_load t _ _ t'); [done|done|done|congruence|lia|unfold PGSIZE; lia].
  - intros u e Hu. destruct (decide (u = v)) as [->|Hne]; [|rewrite (Hoth _ Hne) in Hu; by apply Hmap].
    split_and!; try lia; [by rewrite HT| | |by apply Hpr]; rewrite Hu in Hw'; simpl in Hw'; lia.
Qed.

Lemma table_page k L own d T P i t : world k L own -> aspace k own d T P -> T !! i = Some t -> page_ok (kend k) t /\ (t ∉ L) /\ is_table d own t.
Proof.
  intros Hw Ha HT. pose proof (proj1 (as_tab _ _ _ _ _ Ha _ _) HT) as Hto. destruct (wo_own _ _ _ Hw t _ Hto). split_and!; try done. right. eauto.
Qed.

Lemma set_extends k L own d T P v t w :
  world k L own -> aspace k own d T P -> T !! (v / 1024) = Some t -> 0 <= v < 2 ^ 20 ->
  extends d k L own T (set_kdata (store32 (kdata k) (t + 4 * (v mod 1024)) w) k) L own T.
Proof.
  intros Hw Ha HT Hv. pose proof (vpn_split v Hv) as (_ & Hj & _). destruct (table_page _ _ _ _ _ _ _ _ Hw Ha HT) as ((Hta & _) & _ & Hit).
  split; try done; [by exists []|auto|]. intros p x Hp Hn Hx. k_simpl. assert (p <> t) as Hne by (intros ->; done).
  apply store32_other. destruct (page_disjoint p t Hp Hta Hne); unfold PGSIZE in *; lia.
Qed.

(** ** mappages *)

(** [n] pages from [v] on, mapped to the frames from [pa] on. *)
Fixpoint map_range (P : gmap Z Z) (v pa perm : Z) (n : nat) : gmap Z Z :=
  match n with
  | O => P
  | S n => map_range (<[v := entry pa perm]> P) (v + 1) (pa + PGSIZE) perm n
  end.

Lemma map_range_lookup P v pa perm n u :
  map_range P v pa perm n !! u = if decide (v <= u < v + Z.of_nat n) then Some (entry (pa + PGSIZE * (u - v)) perm) else P !! u.
Proof.
  revert P v pa. induction n as [|n IH]; intros P v pa; cbn [map_range]; [by rewrite decide_False by lia|].
  rewrite IH. destruct (decide (v + 1 <= u < v + 1 + Z.of_nat n)) as [H1|H1].
  - rewrite decide_True by lia. do 2 f_equal. unfold PGSIZE. lia.
  - destruct (decide (u = v)) as [->|Hne].
    + rewrite lookup_insert_eq, decide_True by lia. do 2 f_equal. lia.
    + rewrite lookup_insert_ne by done. by rewrite decide_False by lia.
Qed.

Lemma mappages_step k L own d T P v pa perm :
  world k L own -> aspace k own d T P -> 0 <= v < 2 ^ 20 -> P !! v = None -> 0 <= pa / PGSIZE < 2 ^ 20 -> pa = PGSIZE * (pa / PGSIZE) -> perm_ok perm ->
  exists a k' L' own' T', walkpgdir d (PGSIZE * v) true k = Ok a k' /\ world k' L' own' /\ extends d k L own T k' L' own' T' /\
    ((a = 0 /\ L' = [] /\ aspace k' own' d T' P) \/
     (a <> 0 /\ load32 (kdata k') a = 0 /\
      let k2 := set_kdata (store32 (kdata k') a (entry pa perm)) k' in
      world k2 L' own' /\ aspace k2 own' d T' (<[v := entry pa perm]> P) /\ extends d k L own T k2 L' own' T')).
Proof.
  intros Hw Ha Hv HP Hq Epa Hperm. assert (Hva : 0 <= PGSIZE * v < 2 ^ 32) by (unfold PGSIZE; lia).
  assert (Ev : PGSIZE * v / PGSIZE = v) by (rewrite <- (Z.add_0_r (PGSIZE * v)); apply page_div; unfold PGSIZE; lia).
  destruct (walk_run _ _ _ _ _ _ _ Hw Ha Hva) as (a & k' & L' & own' & T' & E & Hw' & Ha' & Hex & Hc). rewrite Ev in Hc.
  exists a, k', L', own', T'. split_and!; try done. destruct Hc as [(-> & -> & _)|(t & HT & Ea & Hne)]; [by left|right].
  rewrite Ea. split; [lia|]. split; [rewrite (pte_value _ _ _ _ _ _ _ Ha' Hv HT); by rewrite HP|]. intros k2.
  destruct (entry_spec _ perm Hq Hperm) as (_ & Hr & Hpr & _). rewrite <- Epa in Hr, Hpr.
  destruct (aspace_set k' L' own' d T' P v t (entry pa perm) (<[v := entry pa perm]> P) Hw' Ha' Hv HT Hr) as [Hw2 Ha2].
  - by rewrite lookup_insert_eq.
  - intros u Hu. by rewrite lookup_insert_ne.
  - intros e. rewrite lookup_insert_eq. by intros [= <-].
  - split_and!; [done|done|]. eapply extends_trans; [exact Hex|]. by eapply set_extends.
Qed.

Lemma mappages_loop_run n fuel k L own d T P v pa perm :
  world k L own -> aspace k own d T P -> (S n <= fuel)%nat -> 0 <= v -> v + Z.of_nat (S n) <= 2 ^ 20 ->
  0 <= pa -> pa = PGSIZE * (pa / PGSIZE) -> pa / PGSIZE + Z.of_nat (S n) <= 2 ^ 20 -> perm_ok perm ->
  (forall u, v <= u < v + Z.of_nat (S n) -> P !! u = None) ->
  exists r k' L' own' T' P', mappages_loop fuel d (PGSIZE * v) (PGSIZE * (v + Z.of_nat n)) pa perm k = Ok r k' /\
    world k' L' own' /\ aspace k' own' d T' P' /\ extends d k L own T k' L' own' T' /\
    ((r = 0 /\ P' = map_range P v pa perm (S n)) \/
     (r = -1 /\ L' = [] /\ exists j, (j < S n)%nat /\ P' = map_range P v pa perm j)).
Proof.
  revert fuel k L own T P v pa. induction n as [|n IH]; intros fuel k L own T P v pa Hw Ha Hfu Hv Hvn Hpa Epa Hpn Hperm HP.
  all: destruct fuel as [|fuel]; [lia|]; cbn [mappages_loop].
  all: destruct (mappages_step k L own d T P v pa perm Hw Ha) as (a & k1 & L1 & o1 & T1 & E1 & Hw1 & Hex1 & Hc); [lia|by apply HP; lia|split; [apply Z.div_pos; unfold PGSIZE; lia|lia]|done|done|].
  all: mstep E1; destruct Hc as [(-> & HL & Ha1)|(Hne & Hz & Hw2 & Ha2 & Hex2)];
    [exists (-1), k1, L1, o1, T1, P; split_and!; try done; right; split_and!; try done; exists 0%nat; split; [lia|done]|].
  all: rewrite (proj2 (Z.eqb_neq a 0) Hne); unfold lw; mrun1; rewrite Hz; change (present 0) with false; cbn iota; unfold sw; mrun1.
  - rewrite Z.add_0_r, Z.eqb_refl. eexists 0, _, L1, o1, T1, _. split_and!; try done. by left.
  - rewrite (proj2 (Z.eqb_neq _ _)) by (unfold PGSIZE; lia).
    assert (Eq : (pa + PGSIZE) / PGSIZE = pa / PGSIZE + 1) by (rewrite Epa at 1; unfold PGSIZE; rewrite Z.mul_comm; Z.to_euclidean_division_equations; lia).
    destruct (IH fuel _ L1 o1 T1 _ (v + 1) (pa + PGSIZE) Hw2 Ha2) as (r & k' & L' & o' & T' & P' & E & Hw' & Ha' & Hex & Hc);
      [lia|lia|lia|unfold PGSIZE; lia|rewrite Eq; unfold PGSIZE in *; lia|rewrite Eq; lia|done|intros u Hu; rewrite lookup_insert_ne by lia; apply HP; lia|].
    assert (E0 : PGSIZE * v ⊕ PGSIZE = PGSIZE * (v + 1)) by (rewrite u32_id; unfold PGSIZE; lia).
    assert (E1' : pa ⊕ PGSIZE = pa + PGSIZE) by (apply u32_id; unfold PGSIZE in *; lia).
    exists r, k', L', o', T', P'. rewrite E0, E1'. replace (v + Z.of_nat (S n)) with (v + 1 + Z.of_nat n) by lia. split_and!; try done.
    + by eapply extends_trans.
    + destruct Hc as [[-> ->]|(-> & -> & j & Hj & ->)]; [by left|right]. split_and!; try done. exists (S j). split; [lia|done].
Qed.

Lemma PGROUNDDOWN_spec a : 0 <= a < 2 ^ 32 -> PGROUNDDOWN a = PGSIZE * (a / PGSIZE).
Proof. apply page_mask. Qed.

(** mappages() of a range of whole pages. *)
Lemma mappages_run n k L own d T P v pa perm :
  world k L own -> aspace k own d T P -> 0 <= v -> v + Z.of_nat (S n) <= 2 ^ 20 ->
  0 <= pa -> pa = PGSIZE * (pa / PGSIZE) -> pa / PGSIZE + Z.of_nat (S n) <= 2 ^ 20 -> perm_ok perm ->
  (forall u, v <= u < v + Z.of_nat (S n) -> P !! u = None) ->
  exists r k' L' own' T' P', mappages d (PGSIZE * v) (u32 (PGSIZE * Z.of_nat (S n))) pa perm k = Ok r k' /\
    world k' L' own' /\ aspace k' own' d T' P' /\ extends d k L own T k' L' own' T' /\
    ((r = 0 /\ P' = map_range P v pa perm (S n)) \/
     (r = -1 /\ L' = [] /\ exists j, (j < S n)%nat /\ P' = map_range P v pa perm j)).
Proof.
  intros Hw Ha Hv Hvn Hpa Epa Hpn Hperm HP. unfold mappages.
  assert (E1 : PGROUNDDOWN (PGSIZE * v) = PGSIZE * v).
  { rewrite PGROUNDDOWN_spec by (unfold PGSIZE; lia). f_equal. rewrite <- (Z.add_0_r (PGSIZE * v)). apply page_div. unfold PGSIZE; lia. }
  assert (E2 : PGROUNDDOWN ((PGSIZE * v ⊕ u32 (PGSIZE * Z.of_nat (S n))) ⊖ 1) = PGSIZE * (v + Z.of_nat n)).
  { replace ((PGSIZE * v ⊕ u32 (PGSIZE * Z.of_nat (S n))) ⊖ 1) with (PGSIZE * (v + Z.of_nat n) + (PGSIZE - 1)).
    - rewrite PGROUNDDOWN_spec by (unfold PGSIZE; lia). f_equal. apply page_div. unfold PGSIZE; lia.
    - unfold u32. rewrite Zplus_mod_idemp_r, Zminus_mod_idemp_l, Z.mod_small; unfold PGSIZE in *; lia. }
  rewrite E1, E2. apply mappages_loop_run; try done.
  assert (E3 : PGSIZE * (v + Z.of_nat n) ⊖ PGSIZE * v = PGSIZE * Z.of_nat n) by (rewrite u32_id; unfold PGSIZE; lia).
  rewrite E3. replace (PGSIZE * Z.of_nat n / PGSIZE) with (Z.of_nat n) by (rewrite <- (Z.add_0_r (PGSIZE * _)), page_div; unfold PGSIZE; lia). lia.
Qed.

(** ** Operations that take pages for a space *)

Definition of_space (d : Z) (r : role) : Prop := dir_of r = d.
Definition page_of (d : Z) (own : gmap Z role) (p : Z) : Prop := exists r, own !! p = Some r /\ of_space d r.

Lemma table_of_space d own p : is_table d own p -> page_of d own p.
Proof. intros [H|[i H]]; eexists; split; done. Qed.

Record grows (d : Z) (k : kmem) (L : list Z) (own : gmap Z role) (k' : kmem) (L' : list Z) (own' : gmap Z role) : Prop := {
  gr_free : exists N, L = N ++ L';
  gr_keep : forall p r, own !! p = Some r -> own' !! p = Some r;
  gr_new : forall p r, own' !! p = Some r -> own !! p = Some r \/ (p ∈ L /\ of_space d r);
  gr_mem : forall p x, p mod PGSIZE = 0 -> p ∉ L \/ p ∈ L' -> ~ page_of d own' p -> p <= x < p + PGSIZE -> kdata k' x = kdata k x;
  gr_user : forall p d' v x, own !! p = Some (RUser d' v) -> p mod PGSIZE = 0 -> p <= x < p + PGSIZE -> kdata k' x = kdata k x;
  gr_end : kend k' = kend k;
}.

Lemma extends_grows d k L own T k' L' own' T' : extends d k L own T k' L' own' T' -> grows d k L own k' L' own'.
Proof.
  intros [F K N S C M E]. split; try done.
  - intros p r Hp. destruct (N p r Hp) as [?|[Hin [i ->]]]; [by left|by right].
  - intros p x Hp _ Hn Hx. apply (M p x Hp); [|done]. intros Ht. by apply Hn, table_of_space.
  - intros p d' v x Hp Ha Hx. apply (M p x Ha); [|done]. apply K in Hp. intros [?|[? ?]]; congruence.
Qed.

Lemma grows_refl d k L own : grows d k L own k L own.
Proof. split; try done; [by exists []|auto]. Qed.

Lemma grows_trans d k1 L1 o1 k2 L2 o2 k3 L3 o3 :
  NoDup L1 -> grows d k1 L1 o1 k2 L2 o2 -> grows d k2 L2 o2 k3 L3 o3 -> grows d k1 L1 o1 k3 L3 o3.
Proof.
  intros Hnd [[A F1] K1 N1 M1 U1 E1] [[B F2] K2 N2 M2 U2 E2]. subst L1 L2. split.
  - exists (A ++ B). by rewrite app_assoc.
  - eauto.
  - intros p r Hp. destruct (N2 p r Hp) as [Hp2|[Hin Hr]]; [by apply N1|]. right. split; [|done]. by apply elem_of_app; right.
  - intros p x Hp Hout Hn Hx. assert (Hn1 : ~ page_of d o2 p) by (intros (r & Hr & Hs); apply Hn; exists r; split; [by apply K2|done]).
    rewrite elem_of_app in Hout. rewrite (M2 p x Hp); [|set_solver|done|done]. apply (M1 p x Hp); [|done|done]. rewrite !elem_of_app in *. tauto.
  - intros p d' v x Hp Ha Hx. rewrite (U2 p d' v x (K1 _ _ Hp) Ha Hx). by eapply U1.
  - congruence.
Qed.

(** The user part: pages below KERNBASE are user pages of the space, each once. *)
Definition UVPN : Z := 2 ^ 19.
Definition uspace (own : gmap Z role) (d : Z) (P : gmap Z Z) : Prop :=
  forall v p, (v < UVPN /\ exists e, P !! v = Some e /\ frame e = p) <-> own !! p = Some (RUser d v).

Lemma aspace_user k own d T P p o :
  aspace k own d T P -> (own !! p = None \/ exists d' v, own !! p = Some (RUser d' v)) ->
  (o = None \/ exists d' v, o = Some (RUser d' v)) -> aspace k (partial_alter (fun _ => o) p own) d T P.
Proof.
  intros [Hd Ht Hidx Hpde Hpte Hmap] Hp Ho. split; try done.
  - rewrite lookup_partial_alter_ne; [done|]. intros ->. rewrite Hd in Hp. destruct Hp as [?|(? & ? & ?)]; done.
  - intros i t. destruct (decide (p = t)) as [->|Hne]; [|by rewrite lookup_partial_alter_ne].
    rewrite lookup_partial_alter_eq, Ht. split; intros E.
    + rewrite E in Hp. destruct Hp as [?|(? & ? & ?)]; done.
    + rewrite E in Ho. destruct Ho as [?|(? & ? & ?)]; done.
Qed.

Lemma size_tables k own d T P : aspace k own d T P -> (size T <= 1024)%nat.
Proof.
  intros Ha. rewrite <- size_dom. transitivity (size (list_to_set (seqZ 0 1024) : gset Z)).
  - apply subseteq_size. intros i [t Ht]%elem_of_dom. apply (as_idx _ _ _ _ _ Ha) in Ht. apply elem_of_list_to_set, elem_of_seqZ. lia.
  - rewrite size_list_to_set by apply NoDup_seqZ. by rewrite length_seqZ.
Qed.

(** ** A new directory *)

Lemma world_alloc k L own d : world k (d :: L) own -> own !! d = None /\ (forall p r, own !! p = Some r -> dir_of r <> d) /\ page_ok (kend k) d /\ (d ∉ L).
Proof.
  intros [Hinv Hown Hlive _ _]. assert (Hd : own !! d = None).
  { destruct (own !! d) as [r|] eqn:E; [|done]. destruct (Hown d r E) as [_ Hn]. destruct Hn. by left. }
  split_and!; [done| | |].
  - intros p r Hp E. apply Hlive in Hp. congruence.
  - pose proof (ki_pages _ _ Hinv) as Hf. by apply Forall_cons in Hf as [? _].
  - pose proof (ki_nodup _ _ Hinv) as Hf. by apply NoDup_cons in Hf as [? _].
Qed.

(** kalloc() leaves the page without a role. *)
Lemma world_pop k p L own k' : world k (p :: L) own -> kinv k' L -> kend k' = kend k -> world k' L own.
Proof.
  intros [Hinv Hown Hlive Hdir Hend] Hk Ee. split; try done; [|by rewrite Ee]. intros q r Hq. rewrite Ee. destruct (Hown q r Hq) as [? Hn]. split; [done|]. intros ?. apply Hn. by right.
Qed.

Lemma world_insert k L own p r :
  world k L own -> own !! p = None -> page_ok (kend k) p -> p ∉ L ->
  (r = RDir p \/ (own !! dir_of r = Some (RDir (dir_of r)) /\ r <> RDir (dir_of r))) -> world k L (<[p := r]> own).
Proof.
  intros [Hinv Hown Hlive Hdir Hend] Hp Hok HL Hr. split; try done.
  - intros q r' [[<- <-]|[_ Hq]]%lookup_insert_Some; [done|by apply Hown in Hq].
  - intros q r' Hq. assert (Hc : (r' = RDir p /\ r = RDir p) \/ own !! dir_of r' = Some (RDir (dir_of r'))).
    { apply lookup_insert_Some in Hq as [[_ <-]|[_ Hq]]; [destruct Hr as [->|[Hr _]]; [by left|by right]|right; by eapply Hlive]. }
    destruct Hc as [[-> ->]|Hc]; [apply lookup_insert_eq|]. rewrite lookup_insert_ne; [done|congruence].
  - intros q x [[<- ->]|[_ Hq]]%lookup_insert_Some; [|by apply Hdir]. destruct Hr as [[= ->]|[_ []]]; done.
Qed.

Lemma new_directory k L own d k1 :
  world k (d :: L) own -> kinv k1 L -> kdata k1 = kdata k -> kend k1 = kend k ->
  let k2 := set_kdata (memset (kdata k1) d 0 PGSIZE) k1 in
  world k2 L (<[d := RDir d]> own) /\ aspace k2 (<[d := RDir d]> own) d ∅ ∅ /\ uspace (<[d := RDir d]> own) d ∅ /\
  grows d k (d :: L) own k2 L (<[d := RDir d]> own).
Proof.
  intros Hw Hk1 Ed Ee k2. destruct (world_alloc _ _ _ _ Hw) as (Hd & Hno & Hok & HdL). pose proof Hok as (Hda & _).
  assert (Hw2 : world k2 L (<[d := RDir d]> own)).
  { apply world_insert; try done; [|by rewrite <- Ee in Hok|by left]. apply (world_store k1 L own d); [by eapply world_pop|apply zero_page_frame|done|done]. }
  split_and!; [done| | |].
  - split.
    + by rewrite lookup_insert_eq.
    + intros i t. rewrite lookup_empty. split; [done|]. intros [[_ ?]|[_ Ht]]%lookup_insert_Some; [done|]. by apply Hno in Ht.
    + intros i t. by rewrite lookup_empty.
    + intros i Hi. rewrite lookup_empty. unfold k2. k_simpl. apply load32_zero. intros x Hx. apply zero_page_in. unfold PGSIZE. lia.
    + intros i t j. by rewrite lookup_empty.
    + intros v e. by rewrite lookup_empty.
  - intros v p. rewrite lookup_empty. split; [by intros (_ & e & ? & _)|]. intros [[_ ?]|[_ Ht]]%lookup_insert_Some; [done|]. by apply Hno in Ht.
  - split.
    + by exists [d].
    + intros p r Hp. rewrite lookup_insert_ne; [done|congruence].
    + intros p r [[<- <-]|[_ Hp]]%lookup_insert_Some; [right; split; [by left|done]|by left].
    + intros p x Hp _ Hn Hx. unfold k2. k_simpl. rewrite zero_page_frame; [by rewrite Ed|].
      assert (p <> d) as Hne by (intros ->; apply Hn; eexists; split; [apply lookup_insert_eq|done]). destruct (page_disjoint p d Hp Hda Hne); lia.
    + intros p d' v x Hp Hpa Hx. unfold k2. k_simpl. rewrite zero_page_frame; [by rewrite Ed|].
      assert (p <> d) as Hne by congruence. destruct (page_disjoint p d Hpa Hda Hne); lia.
    + done.
Qed.

(** An operation on one space leaves the others as they are. *)
Lemma aspace_grows c k L own k' L' own' d T P :
  grows c k L own k' L' own' -> world k L own -> c <> d -> aspace k own d T P -> aspace k' own' d T P.
Proof.
  intros Hg Hw Hc [Hd Ht Hi Hpde Hpte Hmap].
  assert (Hld : forall q r a, own !! q = Some r -> dir_of r = d -> q <= a -> a + 4 <= q + PGSIZE -> load32 (kdata k') a = load32 (kdata k) a).
  { intros q r a Hq Hr H1 H2. destruct (wo_own _ _ _ Hw q r Hq) as [(Hqa & _) HqL]. apply load32_ext. intros x Hx.
    apply (gr_mem _ _ _ _ _ _ _ Hg q x Hqa); [by left| |lia]. intros (r' & Hr' & Hs). apply (gr_keep _ _ _ _ _ _ _ Hg) in Hq. unfold of_space in Hs. congruence. }
  split; try done.
  - by apply (gr_keep _ _ _ _ _ _ _ Hg).
  - intros i t. rewrite Ht. split; [apply (gr_keep _ _ _ _ _ _ _ Hg)|]. intros Hq. apply (gr_new _ _ _ _ _ _ _ Hg) in Hq as [?|[_ Hs]]; [done|]. unfold of_space in Hs. cbn in Hs. congruence.
  - intros i Hr. rewrite <- Hpde by done. apply (Hld d _ _ Hd); [done|lia|unfold PGSIZE; lia].
  - intros i t j HT Hj. rewrite <- (Hpte i t j HT Hj). apply Ht in HT. apply (Hld t _ _ HT); [done|lia|unfold PGSIZE; lia].
Qed.
Lemma uspace_grows c k L own k' L' own' d P : grows c k L own k' L' own' -> c <> d -> uspace own d P -> uspace own' d P.
Proof.
  intros Hg Hc Hu v p. rewrite (Hu v p). split; [apply (gr_keep _ _ _ _ _ _ _ Hg)|]. intros Hq. apply (gr_new _ _ _ _ _ _ _ Hg) in Hq as [?|[_ Hs]]; [done|].
  unfold of_space in Hs. cbn in Hs. congruence.
Qed.

(** ** setupkvm *)

(** Whole pages, in increasing order from [lo] on. *)
Fixpoint segs_from (lo : Z) (l : list (Z * Z * Z * Z)) : Prop :=
  match l with
  | [] => True
  | (virt, ps, pe, perm) :: l =>
      exists v n, virt = PGSIZE * v /\ 0 <= lo <= v /\ pe ⊖ ps = PGSIZE * Z.of_nat (S n) /\ v + Z.of_nat (S n) <= 2 ^ 20 /\
        0 <= ps /\ ps = PGSIZE * (ps / PGSIZE) /\ ps / PGSIZE + Z.of_nat (S n) <= 2 ^ 20 /\ perm_ok perm /\ segs_from (v + Z.of_nat (S n)) l
  end.
Fixpoint map_segs (P : gmap Z Z) (l : list (Z * Z * Z * Z)) : gmap Z Z :=
  match l with
  | [] => P
  | (virt, ps, pe, perm) :: l => map_segs (map_range P (virt / PGSIZE) ps perm (Z.to_nat ((pe ⊖ ps) / PGSIZE))) l
  end.

Lemma page_mul_div n : PGSIZE * n / PGSIZE = n.
Proof. rewrite <- (Z.add_0_r (PGSIZE * n)). apply page_div. unfold PGSIZE. lia. Qed.

Lemma map_segs_low lo l P u : segs_from lo l -> u < lo -> map_segs P l !! u = P !! u.
Proof.
  revert lo P. induction l as [|(((virt & ps) & pe) & perm) l IH]; intros lo P Hs Hu; [done|].
  destruct Hs as (v & n & -> & Hlo & _ & _ & _ & _ & _ & _ & Hs). cbn [map_segs]. rewrite (IH _ _ Hs) by lia.
  rewrite page_mul_div, map_range_lookup, decide_False by lia. done.
Qed.

(** The loop of setupkvm. *)
Lemma setupkvm_loop_run l lo k L own d T P :
  world k L own -> aspace k own d T P -> segs_from lo l -> (forall u, lo <= u -> P !! u = None) -> d <> 0 ->
  exists r k' L' own' T' P', setupkvm_loop d l k = Ok r k' /\ world k' L' own' /\ aspace k' own' d T' P' /\ extends d k L own T k' L' own' T' /\
    ((r = d /\ P' = map_segs P l) \/ (r = 0 /\ L' = [])).
Proof.
  revert lo k L own T P. induction l as [|(((virt & ps) & pe) & perm) l IH]; intros lo k L own T P Hw Ha Hs HP Hd; cbn [setupkvm_loop].
  { exists d, k, L, own, T, P. split_and!; try done; [apply extends_refl|by left]. }
  destruct Hs as (v & n & -> & Hlo & En & Hv & Hps & Eps & Hpn & Hperm & Hs).
  destruct (mappages_run n k L own d T P v ps perm Hw Ha) as (r & k1 & L1 & o1 & T1 & P1 & E1 & Hw1 & Ha1 & Hex & Hc); try done; [lia|intros u Hu; apply HP; lia|].
  rewrite <- En, (u32_id (pe ⊖ ps)) in E1 by apply u32_range. mstep E1. destruct Hc as [[-> ->]|(-> & -> & _)].
  - cbn [Z.ltb Z.compare]. destruct (IH (v + Z.of_nat (S n)) k1 L1 o1 T1 _ Hw1 Ha1 Hs) as (r & k' & L' & o' & T' & P' & E & Hw' & Ha' & Hex' & Hc'); [|done|].
    { intros u Hu. rewrite map_range_lookup, decide_False by lia. apply HP. lia. }
    exists r, k', L', o', T', P'. split_and!; try done; [by eapply extends_trans|]. cbn [map_segs]. rewrite En, !page_mul_div. by rewrite Nat2Z.id.
  - exists 0, k1, [], o1, T1, P1. split_and!; try done. by right.
Qed.

Definition data_ok (data : Z) : Prop := data = PGSIZE * (data / PGSIZE) /\ KERNLINK < data < KERNBASE + PHYSTOP.
(** The kernel's mappings (sealed: never to be computed by conversion). *)
Definition kern_map_aux : { f : Z -> gmap Z Z | forall data, map_segs ∅ (kmap data) = f data }.
Proof. exists (fun data => map_segs ∅ (kmap data)). intros data. reflexivity. Qed.
Definition kern_map : Z -> gmap Z Z := proj1_sig kern_map_aux.

Lemma kern_map_eq data : map_segs ∅ (kmap data) = kern_map data.
Proof. exact (proj2_sig kern_map_aux data). Qed.

Lemma kern_map_user data v : segs_from UVPN (kmap data) -> v < UVPN -> kern_map data !! v = None.
Proof. intros Hs Hv. rewrite <- kern_map_eq, (map_segs_low UVPN) by done. apply lookup_empty. Qed.

Lemma kmap_segs data : data_ok data -> segs_from UVPN (kmap data).
Proof.
  intros [Ed Hd]. unfold kmap, segs_from, KERNLINK, EXTMEM, DEVSPACE, KERNBASE, PHYSTOP, UVPN in *.
  assert (Ev : v2p data = data - 2 ^ 31) by (apply u32_id; unfold KERNBASE; lia).
  assert (Hp : forall p, p = 0 \/ p = PTE_W -> perm_ok p) by (intros p [->| ->]; by vm_compute).
  exists (2 ^ 19), 255%nat. split_and!; try done; try lia; try (by apply Hp; auto).
  exists (2 ^ 19 + 256), (Z.to_nat (data / PGSIZE - 2 ^ 19 - 256 - 1)).
  change (v2p (2 ^ 31 + 0x100000)) with 0x100000.
  assert (Hn1 : Z.of_nat (S (Z.to_nat (data / PGSIZE - 2 ^ 19 - 256 - 1))) = data / PGSIZE - 2 ^ 19 - 256) by (unfold PGSIZE in *; lia).
  rewrite Hn1. split_and!; try done; try lia; try (unfold PGSIZE in *; lia); try (by apply Hp; auto); [rewrite Ev, u32_id; unfold PGSIZE in *; lia|change (0x100000 / PGSIZE) with 256; unfold PGSIZE in *; lia|].
  exists (data / PGSIZE), (Z.to_nat (0xE000 + 2 ^ 19 - data / PGSIZE - 1)).
  assert (Hn2 : Z.of_nat (S (Z.to_nat (0xE000 + 2 ^ 19 - data / PGSIZE - 1))) = 0xE000 + 2 ^ 19 - data / PGSIZE) by (unfold PGSIZE in *; lia).
  assert (Eq : (data - 2 ^ 31) / PGSIZE = data / PGSIZE - 2 ^ 19) by (unfold PGSIZE in *; Z.to_euclidean_division_equations; lia).
  rewrite Hn2, Ev. split_and!; try done; try lia; try (unfold PGSIZE in *; lia); try (by apply Hp; auto); try (rewrite Eq; unfold PGSIZE in *; lia); try (rewrite u32_id; unfold PGSIZE in *; lia).
  exists 0xFE000, (Z.to_nat 8191). split_and!; try done; try lia; try (by apply Hp; auto). 
Qed.

(** setupkvm() gives a directory with the kernel's mappings only, or fails
    when the free pages run out. *)
Lemma setupkvm_run data k L own :
  world k L own -> data_ok data ->
  exists r k' L' own', setupkvm data k = Ok r k' /\ world k' L' own' /\
    ((r = 0 /\ (length L <= 1025)%nat /\ exists d, own !! d = None /\ grows d k L own k' L' own') \/
     (r <> 0 /\ own !! r = None /\ r ∈ L /\ grows r k L own k' L' own' /\ uspace own' r (kern_map data) /\
      exists T, aspace k' own' r T (kern_map data) /\ length L = S (length L' + size T))).
Proof.
  intros Hw Hdata. unfold setupkvm. pose proof (kalloc_page k L (wo_inv _ _ _ Hw)) as Hk. destruct L as [|d L].
  { mstep Hk. exists 0, k, [], own. split_and!; try done. left. split_and!; try done; [cbn; lia|]. exists 0. split; [|apply grows_refl].
    destruct (own !! 0) as [r|] eqn:E; [|done]. apply (wo_own _ _ _ Hw) in E as [Hp _]. apply page_range in Hp. lia. }
  destruct Hk as (k1 & E1 & Hk1 & Hp & HpL & Ed & _ & Ee). mstep E1. pose proof (page_range _ _ Hp) as (Hpr & _). rewrite (proj2 (Z.eqb_neq d 0)) by lia.
  destruct (new_directory k L own d k1 Hw Hk1 Ed Ee) as (Hw2 & Ha2 & _ & Hg2). unfold zero_page. mrun1.
  change (DEVSPACE <? p2v PHYSTOP) with false. cbn iota. destruct (world_alloc _ _ _ _ Hw) as (Hd & Hno & _).
  destruct (setupkvm_loop_run (kmap data) UVPN _ L _ d ∅ ∅ Hw2 Ha2 (kmap_segs data Hdata)) as (r & k' & L' & o' & T' & P' & E & Hw' & Ha' & Hex & Hc); [intros u _; apply lookup_empty|lia|].
  assert (Hg : grows d k (d :: L) own k' L' o') by (eapply grows_trans; [apply (ki_nodup _ _ (wo_inv _ _ _ Hw))|done|by eapply extends_grows]).
  exists r, k', L', o'. split_and!; try done. destruct Hc as [[-> EP]|[-> ->]]; [rewrite kern_map_eq in EP; subst P'; right|left].
  all: pose proof (ex_count _ _ _ _ _ _ _ _ _ Hex) as Hcount; rewrite map_size_empty in Hcount; cbn [length] in *.
  - split_and!; try done; [lia|by left| |exists T'; split; [done|lia]]. intros v p. split.
    + intros (Hv & e & He & _). by rewrite (kern_map_user data v (kmap_segs data Hdata) Hv) in He.
    + intros Hr. destruct (ex_new _ _ _ _ _ _ _ _ _ Hex p (RUser d v) Hr) as [Hq|(_ & i & ?)]; [|done].
      apply lookup_insert_Some in Hq as [[_ ?]|[_ Hq]]; [done|]. by apply Hno in Hq.
  - pose proof (size_tables _ _ _ _ _ Ha'). split_and!; try done; [lia|]. by exists d.
Qed.
