(* ===== verification/Uvm.v ===== *)
(** * User memory: allocuvm, deallocuvm, freevm, copyuvm and copyout

    The operations of Vm.v on the user part of an address space, with the
    description of Aspace.v: which pages are mapped, whose they are and what
    they contain. *)

From S2P Require Import Prelude Str Spinlock Kalloc Vm Aspace.

(** ** Mapping a page just taken from kalloc() *)

Lemma user_entry k p : page_ok (kend k) p ->
  v2p p = PGSIZE * (v2p p / PGSIZE) /\ 0 <= v2p p /\ v2p p / PGSIZE + 1 <= 2 ^ 20 /\ frame (entry (v2p p) (Z.lor PTE_W PTE_U)) = p.
Proof.
  intros Hp. destruct (page_number _ _ Hp) as (_ & E & Hr & _). split_and!; [done| |lia|by eapply frame_entry; [|apply perm_uw]].
  unfold PGSIZE in *. lia.
Qed.

Lemma uspace_insert own d P v p e :
  uspace own d P -> P !! v = None -> own !! p = None -> 0 <= v < UVPN -> frame e = p -> uspace (<[p := RUser d v]> own) d (<[v := e]> P).
Proof.
  intros Hu HP Hp Hv He u q. destruct (decide (u = v)) as [->|Hne].
  - split.
    + intros (_ & e' & He' & Eq). rewrite lookup_insert_eq in He'. injection He' as <-. rewrite <- Eq, He. apply lookup_insert_eq.
    + intros [[<- _]|[Hne Hq]]%lookup_insert_Some; [split; [lia|]; exists e; by rewrite lookup_insert_eq|].
      apply Hu in Hq as (_ & e' & He' & _). congruence.
  - rewrite lookup_insert_ne by done. rewrite (Hu u q). split.
    + intros Hq. rewrite lookup_insert_ne; [done|congruence].
    + intros [[_ E]|[_ Hq]]%lookup_insert_Some; [congruence|done].
Qed.

(** The roles of the tables grow; the user part does not change. *)
Lemma uspace_extends own d P k L T k' L' own' T' : uspace own d P -> extends d k L own T k' L' own' T' -> uspace own' d P.
Proof.
  intros Hu Hex v p. rewrite (Hu v p). split.
  - apply (ex_keep _ _ _ _ _ _ _ _ _ Hex).
  - intros Hp. destruct (ex_new _ _ _ _ _ _ _ _ _ Hex _ _ Hp) as [?|(_ & i & ?)]; done.
Qed.

(** The page [p], filled by the caller, is mapped at [v]. *)
Lemma user_map k L own d T P p v k1 m1 :
  world k (p :: L) own -> aspace k own d T P -> uspace own d P -> 0 <= v < UVPN -> P !! v = None ->
  kinv k1 L -> kdata k1 = kdata k -> kend k1 = kend k -> pg_frame p (kdata k) m1 ->
  exists r k' L' own' T', mappages d (PGSIZE * v) PGSIZE (v2p p) (Z.lor PTE_W PTE_U) (set_kdata m1 k1) = Ok r k' /\
    ((r = 0 /\ let own2 := <[p := RUser d v]> own' in
      world k' L' own2 /\ aspace k' own2 d T' (<[v := entry (v2p p) (Z.lor PTE_W PTE_U)]> P) /\
      uspace own2 d (<[v := entry (v2p p) (Z.lor PTE_W PTE_U)]> P) /\ grows d k (p :: L) own k' L' own2 /\
      (forall x, p <= x < p + PGSIZE -> kdata k' x = m1 x) /\ (length L + size T = length L' + size T')%nat) \/
     (r = -1 /\ L' = [] /\ own' !! p = None /\ (length L + size T = size T')%nat /\ world k' L' own' /\ aspace k' own' d T' P /\ uspace own' d P /\ grows d k (p :: L) own k' L' own')).
Proof.
  intros Hw Ha Hu Hv HP Hk1 Ed Ee Hm. destruct (world_alloc _ _ _ _ Hw) as (Hpo & Hno & Hpok & HpL). pose proof Hpok as (Hpa & _).
  assert (Hw1 : world (set_kdata m1 k1) L own).
  { apply (world_store k1 L own p); [by eapply world_pop|by rewrite Ed|done|done]. }
  assert (Hnt : ~ is_table d own p) by (intros [H|[i H]]; congruence).
  assert (Ha1 : aspace (set_kdata m1 k1) own d T P).
  { pose proof (aspace_other k (p :: L) own d T P p m1 Hw Ha Hm Hpa Hnt) as [? ? ? ? ? ?]. by split. }
  assert (Hpok1 : page_ok (kend k1) p) by (by rewrite Ee). destruct (user_entry k1 p Hpok1) as (E1 & E2 & E3 & E4).
  destruct (mappages_run 0 _ L own d T P v (v2p p) (Z.lor PTE_W PTE_U) Hw1 Ha1) as (r & k' & L' & o' & T' & P' & E & Hw' & Ha' & Hex & Hc);
    [lia|unfold UVPN in *; lia|done|done|lia|apply perm_uw|intros u Hu'; by replace u with v by lia|].
  exists r, k', L', o', T'. split; [exact E|]. pose proof (uspace_extends _ _ _ _ _ _ _ _ _ _ Hu Hex) as Hu'.
  assert (Hpo' : o' !! p = None).
  { destruct (o' !! p) as [r'|] eqn:Er; [|done]. apply (ex_new _ _ _ _ _ _ _ _ _ Hex) in Er as [Er|[Hin _]]; [congruence|done]. }
  assert (Hdir : o' !! d = Some (RDir d)) by apply Ha'. assert (Ek' : kend k' = kend k) by (rewrite (ex_end _ _ _ _ _ _ _ _ _ Hex); k_simpl; done).
  assert (HpL' : p ∉ L'). { destruct (ex_free _ _ _ _ _ _ _ _ _ Hex) as [N ->]. intros ?. apply HpL. by apply elem_of_app; right. }
  assert (Hg : forall own2, (forall q r, o' !! q = Some r -> own2 !! q = Some r) -> (forall q r, own2 !! q = Some r -> o' !! q = Some r \/ (q = p /\ of_space d r)) ->
      grows d k (p :: L) own k' L' own2).
  { intros own2 K2 N2. split.
    - destruct (ex_free _ _ _ _ _ _ _ _ _ Hex) as [N ->]. by exists (p :: N).
    - intros q r' Hq. by apply K2, (ex_keep _ _ _ _ _ _ _ _ _ Hex).
    - intros q r' Hq. destruct (N2 q r' Hq) as [Hq'|[-> ?]]; [|right; split; [by left|done]].
      apply (ex_new _ _ _ _ _ _ _ _ _ Hex) in Hq' as [?|[Hin [i ->]]]; [by left|right; split; [by right|done]].
    - intros q x Hq Hout Hn Hx. rewrite (ex_mem _ _ _ _ _ _ _ _ _ Hex q x Hq); [|intros Ht; apply Hn; apply table_of_space in Ht as (r' & Hr' & ?); exists r'; split; [by apply K2|done]|done].
      k_simpl. apply Hm. assert (q <> p) as Hqp by (intros ->; destruct Hout as [Ho|Ho]; [apply Ho; by left|done]). destruct (page_disjoint q p Hq Hpa Hqp); lia.
    - intros q d' u x Hq Hqa Hx. rewrite (ex_mem _ _ _ _ _ _ _ _ _ Hex q x Hqa); [|apply (ex_keep _ _ _ _ _ _ _ _ _ Hex) in Hq; intros [?|[? ?]]; congruence|done].
      k_simpl. apply Hm. assert (q <> p) as Hqp by congruence. destruct (page_disjoint q p Hqa Hpa Hqp); lia.
    - done. }
  destruct Hc as [[-> ->]|(-> & -> & j & Hj & ->)].
  - left. split; [done|]. intros own2. cbn [map_range] in *. split_and!.
    + apply world_insert; try done; [by rewrite Ek'|right; split; done].
    + apply (aspace_user k' o' d T' _ p (Some (RUser d v)) Ha'); [by left|right; by eexists _, _].
    + by apply uspace_insert.
    + apply Hg; [intros q r' Hq; unfold own2; rewrite lookup_insert_ne; [done|congruence]|].
      intros q r' [[<- <-]|[_ Hq]]%lookup_insert_Some; [by right|by left].
    + intros x Hx. apply (ex_mem _ _ _ _ _ _ _ _ _ Hex p x Hpa); [|done]. intros [H|[i H]]; congruence.
    + apply (ex_count _ _ _ _ _ _ _ _ _ Hex).
  - right. assert (j = 0%nat) as -> by lia. split_and!; try done; [apply (ex_count _ _ _ _ _ _ _ _ _ Hex)|]. apply Hg; [done|by left].
Qed.

(** ** Unmapping *)

(** Pages needed for [sz] bytes. *)
Definition pages (sz : Z) : Z := (sz + (PGSIZE - 1)) / PGSIZE.
Lemma pages_lt sz u : PGSIZE * u < sz <-> u < pages sz.
Proof. unfold pages, PGSIZE. Z.to_euclidean_division_equations. lia. Qed.
Lemma pages_up sz : 0 <= sz <= 2 ^ 32 - PGSIZE -> PGROUNDUP sz = PGSIZE * pages sz.
Proof. apply PGROUNDUP_spec. Qed.

(** The user pages of [d] from [v] to [n] (excluded) have gone back to the free list. *)
Definition unmapped (own : gmap Z role) (d v n p : Z) : Prop := exists u, v <= u < n /\ own !! p = Some (RUser d u).

Record unmaps (d v n : Z) (k : kmem) (L : list Z) (own : gmap Z role) (P : gmap Z Z) (k' : kmem) (L' : list Z) (own' : gmap Z role) (P' : gmap Z Z) : Prop := {
  um_map : forall u, P' !! u = if decide (v <= u < n) then None else P !! u;
  um_own : forall p r, own' !! p = Some r <-> own !! p = Some r /\ ~ unmapped own d v n p;
  um_free : forall p, p ∈ L' <-> p ∈ L \/ unmapped own d v n p;
  um_mem : forall p x, p mod PGSIZE = 0 -> ~ is_table d own p -> ~ unmapped own d v n p -> p <= x < p + PGSIZE -> kdata k' x = kdata k x;
  um_end : kend k' = kend k;
}.

Lemma unmaps_none d v n k L own P : (forall u, v <= u < n -> P !! u = None) -> uspace own d P -> n <= UVPN -> unmaps d v n k L own P k L own P.
Proof.
  intros HP Hu Hn. assert (Hno : forall p, ~ unmapped own d v n p).
  { intros p (u & Hu' & Hp). apply Hu in Hp as (_ & e & He & _). rewrite HP in He; done. }
  split; try done.
  - intros u. destruct (decide (v <= u < n)); [by apply HP|done].
  - intros p r. split; [intros ?; split; [done|apply Hno]|by intros []].
  - intros p. split; [by left|]. intros [?|H]; [done|by apply Hno in H].
Qed.

Lemma unmaps_trans d v n w k1 L1 o1 P1 k2 L2 o2 P2 k3 L3 o3 P3 :
  v <= w <= n -> unmaps d v w k1 L1 o1 P1 k2 L2 o2 P2 -> unmaps d w n k2 L2 o2 P2 k3 L3 o3 P3 -> unmaps d v n k1 L1 o1 P1 k3 L3 o3 P3.
Proof.
  intros Hw [M1 O1 F1 X1 E1] [M2 O2 F2 X2 E2].
  assert (Hdisj : forall p, unmapped o1 d v w p -> ~ unmapped o1 d w n p) by (intros p (u & ? & Hp) (u' & ? & Hp'); rewrite Hp in Hp'; injection Hp'; lia).
  assert (H2 : forall p, unmapped o2 d w n p <-> unmapped o1 d w n p).
  { intros p. split; intros (u & Hu & Hp); exists u; (split; [done|]).
    - by apply O1 in Hp as [? _].
    - apply O1. split; [done|]. intros Hp'. apply (Hdisj p Hp'). by exists u. }
  assert (H12 : forall p, unmapped o1 d v n p <-> unmapped o1 d v w p \/ unmapped o1 d w n p).
  { intros p. split.
    - intros (u & Hu & Hp). destruct (decide (u < w)); [left|right]; exists u; (split; [lia|done]).
    - intros [(u & Hu & Hp)|(u & Hu & Hp)]; exists u; (split; [lia|done]). }
  split.
  - intros u. rewrite M2, M1. destruct (decide (w <= u < n)), (decide (v <= u < w)), (decide (v <= u < n)); done || lia.
  - intros p r. rewrite O2, O1, H2, H12. tauto.
  - intros p. rewrite F2, F1, H2, H12. tauto.
  - intros p x Hp Ht Hn Hx. rewrite H12 in Hn. assert (Hn1 : ~ unmapped o1 d v w p) by tauto. assert (Hn2 : ~ unmapped o1 d w n p) by tauto.
    rewrite (X2 p x Hp); [by apply (X1 p x Hp)| |by rewrite H2|done].
    intros [H|[i H]]; apply Ht; apply O1 in H as [H' _]; [by left|right; by exists i].
  - congruence.
Qed.

Lemma aspace_mem k k' own d T P : aspace k own d T P -> kdata k' = kdata k -> aspace k' own d T P.
Proof. intros [? ? ? ? ? ?] E. split; try done; intros; rewrite E; auto. Qed.

Lemma user_page k L own d P v e :
  world k L own -> uspace own d P -> P !! v = Some e -> v < UVPN ->
  own !! frame e = Some (RUser d v) /\ page_ok (kend k) (frame e) /\ (frame e ∉ L) /\ ~ is_table d own (frame e).
Proof.
  intros Hw Hu He Hv. assert (Hp : own !! frame e = Some (RUser d v)) by (apply Hu; split; [done|by exists e]).
  destruct (wo_own _ _ _ Hw _ _ Hp). split_and!; try done. intros [H'|[i H']]; congruence.
Qed.

(** kfree() of the page at [v] and clearing of its entry. *)
Lemma unmap_one k L own d T P v e t :
  world k L own -> aspace k own d T P -> uspace own d P -> 0 <= v < UVPN -> P !! v = Some e -> T !! (v / 1024) = Some t ->
  exists k1, kfree (frame e) k = Ok tt k1 /\
    let k2 := set_kdata (store32 (kdata k1) (t + 4 * (v mod 1024)) 0) k1 in
    let own' := delete (frame e) own in let P' := delete v P in
    world k2 (frame e :: L) own' /\ aspace k2 own' d T P' /\ uspace own' d P' /\ unmaps d v (v + 1) k L own P k2 (frame e :: L) own' P'.
Proof.
  intros Hw Ha Hu Hv He HT. destruct (user_page _ _ _ _ _ _ _ Hw Hu He) as (Hp & Hok & HpL & Hnt); [lia|].
  destruct (kfree_page k L (frame e) (wo_inv _ _ _ Hw) Hok HpL) as (k1 & E1 & Hk1 & (_ & Ee & Hfr) & _). exists k1. split; [done|]. intros k2 own' P'.
  set (p := frame e) in *. pose proof Hok as (Hpa & _).
  assert (Hw1 : world k1 (p :: L) own').
  { split; [done| | |intros q x [_ Hq]%lookup_delete_Some; by apply (wo_dir _ _ _ Hw)|rewrite Ee; apply Hw].
    - intros q r [Hne Hq]%lookup_delete_Some. rewrite Ee. destruct (wo_own _ _ _ Hw q r Hq) as [? Hn]. split; [done|]. intros [->|?]%elem_of_cons; done.
    - intros q r [Hne Hq]%lookup_delete_Some. apply (wo_live _ _ _ Hw) in Hq as Hd. apply lookup_delete_Some. split; [|done]. congruence. }
  assert (Ha1 : aspace k1 own' d T P).
  { apply (aspace_mem (set_kdata (kdata k1) k)); [|done]. apply (aspace_user _ own d T P p None); [|right; by eexists _, _|by left].
    by apply (aspace_other k L own d T P p). }
  destruct (aspace_set k1 (p :: L) own' d T P v t 0 P' Hw1 Ha1) as [Hw2 Ha2]; [unfold UVPN in *; lia|done|lia|by unfold P'; rewrite lookup_delete_eq|intros u Hne; unfold P'; by rewrite lookup_delete_ne|intros e'; unfold P'; by rewrite lookup_delete_eq|].
  assert (Hun : forall q, unmapped own d v (v + 1) q <-> q = p).
  { intros q. split; [|intros ->; exists v; split; [lia|done]]. intros (u & Hu' & Hq). assert (u = v) as -> by lia.
    apply Hu in Hq as (_ & e' & He' & <-). by assert (e' = e) as -> by congruence. }
  split_and!; [done|done| |].
  - intros u q. unfold own', P'. destruct (decide (u = v)) as [->|Hne].
    + rewrite lookup_delete_eq. split; [by intros (_ & e' & ? & _)|]. intros [Hne Hq]%lookup_delete_Some. exfalso. apply Hne. symmetry. apply Hun. exists v. split; [lia|done].
    + rewrite lookup_delete_ne by done. rewrite (Hu u q). split; [|by intros [_ ?]%lookup_delete_Some].
      intros Hq. apply lookup_delete_Some. split; [|done]. intros <-. congruence.
  - split.
    + intros u. unfold P'. destruct (decide (v <= u < v + 1)); [by replace u with v by lia; rewrite lookup_delete_eq|]. rewrite lookup_delete_ne; [done|lia].
    + intros q r. unfold own'. rewrite lookup_delete_Some, Hun. split; intros [H1 H2]; split; done || congruence.
    + intros q. rewrite elem_of_cons, Hun. tauto.
    + intros q x Hq Hntq Hnq Hx. rewrite Hun in Hnq. unfold k2. k_simpl. destruct (table_page _ _ _ _ _ _ _ _ Hw Ha HT) as ((Hta & _) & _ & Htt). pose proof (vpn_split v) as (_ & Hj & _); [unfold UVPN in *; lia|].
      assert (q <> t) as Hqt by (intros ->; done). rewrite store32_other by (destruct (page_disjoint q t Hq Hta Hqt); unfold PGSIZE in *; lia).
      apply Hfr. destruct (page_disjoint q p Hq Hpa Hnq); lia.
    + done.
Qed.

Lemma unmaps_skip d v w n k L own P k' L' own' P' :
  v <= w -> (forall u, v <= u < w -> P !! u = None) -> uspace own d P -> unmaps d w n k L own P k' L' own' P' -> unmaps d v n k L own P k' L' own' P'.
Proof.
  intros Hvw HP Hu [M O F X E]. assert (Hun : forall p, unmapped own d v n p <-> unmapped own d w n p).
  { intros p. split; intros (u & Hu' & Hp); exists u; (split; [|done]); [|lia]. destruct (decide (u < w)); [|lia].
    apply Hu in Hp as (_ & e & He & _). rewrite HP in He by lia. done. }
  split; try done.
  - intros u. rewrite M. destruct (decide (w <= u < n)), (decide (v <= u < n)); try done; try lia. apply HP. lia.
  - intros p r. rewrite Hun. apply O.
  - intros p. rewrite Hun. apply F.
  - intros p x. rewrite Hun. apply X.
Qed.

Lemma dealloc_loop_run fuel k L own d T P v oldsz :
  world k L own -> aspace k own d T P -> uspace own d P -> 0 <= v -> 0 <= oldsz <= KERNBASE -> (Z.to_nat (pages oldsz - v) < fuel)%nat ->
  v mod 1024 = 0 \/ is_Some (T !! (v / 1024)) \/ pages oldsz <= v ->
  exists k' L' own' P', deallocuvm_loop fuel d (PGSIZE * v) oldsz k = Ok tt k' /\ world k' L' own' /\ aspace k' own' d T P' /\ uspace own' d P' /\
    unmaps d v (pages oldsz) k L own P k' L' own' P'.
Proof.
  revert k L own P v. induction fuel as [|fuel IH]; intros k L own P v Hw Ha Hu Hv Hsz Hf HJ; [lia|]. cbn [deallocuvm_loop].
  assert (Hn : pages oldsz <= UVPN) by (unfold pages, UVPN, KERNBASE, PGSIZE in *; Z.to_euclidean_division_equations; lia).
  destruct (Z.ltb_spec (PGSIZE * v) oldsz) as [Hlt|Hge].
  2:{ eexists k, L, own, P. split_and!; try done. apply unmaps_none; [|done|done]. intros u Hu'.
      assert (Hlt : PGSIZE * u < oldsz) by (apply pages_lt; lia). unfold PGSIZE in *. lia. }
  apply pages_lt in Hlt. assert (Hva : 0 <= PGSIZE * v < 2 ^ 32) by (unfold UVPN, PGSIZE in *; lia).
  pose proof (walk_find _ _ _ _ _ _ _ false Hw Ha Hva) as Hf0. rewrite page_mul_div in Hf0. destruct (T !! (v / 1024)) as [t|] eqn:HT.
  - destruct Hf0 as [Hf0 Hne]. mstep Hf0. rewrite (proj2 (Z.eqb_neq _ 0) Hne). unfold lw. mrun1.
    assert (Hv20 : 0 <= v < 2 ^ 20) by (unfold UVPN in *; lia). rewrite (pte_value _ _ _ _ _ _ _ Ha Hv20 HT).
    assert (HJ' : (v + 1) mod 1024 = 0 \/ is_Some (T !! ((v + 1) / 1024)) \/ pages oldsz <= v + 1).
    { destruct (decide ((v + 1) mod 1024 = 0)); [by left|right; left]. replace ((v + 1) / 1024) with (v / 1024) by (Z.to_euclidean_division_equations; lia). by rewrite HT. }
    assert (Ea : PGSIZE * v ⊕ PGSIZE = PGSIZE * (v + 1)) by (rewrite u32_id; unfold UVPN, PGSIZE in *; lia). rewrite Ea.
    destruct (P !! v) as [e|] eqn:He; cbn [from_option id].
    + destruct (as_map _ _ _ _ _ Ha v e He) as (_ & _ & Her & Hpe). destruct (user_page _ _ _ _ _ _ _ Hw Hu He) as (_ & Hok & _); [lia|].
      rewrite Hpe. cbn [when]. assert (Hvu : 0 <= v < UVPN) by lia. destruct (unmap_one _ _ _ _ _ _ _ _ _ Hw Ha Hu Hvu He HT) as (k1 & Ek & Hw1 & Ha1 & Hu1 & Hum).
      assert (E0 : PTE_ADDR e <> 0). { intros E0. destruct Hok as (_ & Hk & _). pose proof (wo_end _ _ _ Hw). unfold frame in Hk. rewrite E0 in Hk. change (p2v 0) with KERNBASE in Hk. lia. }
      rewrite (proj2 (Z.eqb_neq _ 0) E0). rewrite bind_assoc_run. mstep Ek. unfold sw. mrun1.
      destruct (IH _ _ _ _ (v + 1) Hw1 Ha1 Hu1) as (k' & L' & o' & P' & E & Hw' & Ha' & Hu' & Hum'); [lia|done|lia|done|].
      exists k', L', o', P'. split_and!; try done. eapply unmaps_trans; [|exact Hum|exact Hum']. lia.
    + change (present 0) with false. cbn [when]. mrun1.
      destruct (IH _ _ _ _ (v + 1) Hw Ha Hu) as (k' & L' & o' & P' & E & Hw' & Ha' & Hu' & Hum'); [lia|done|lia|done|].
      exists k', L', o', P'. split_and!; try done. apply (unmaps_skip d v (v + 1)); [lia|intros u Hu''; by replace u with v by lia|done|done].
  - mstep Hf0. cbn [Z.eqb]. assert (Hal : v mod 1024 = 0) by (destruct HJ as [?|[[? ?]|?]]; [done|done|lia]).
    assert (Ea : (PGSIZE * v ⊕ (NPTENTRIES - 1) * PGSIZE) ⊕ PGSIZE = PGSIZE * (v + 1024)).
    { unfold NPTENTRIES. rewrite (u32_id (PGSIZE * v + _)) by (unfold UVPN, PGSIZE in *; lia). rewrite u32_id; unfold UVPN, PGSIZE in *; lia. }
    rewrite Ea. destruct (IH k L own P (v + 1024) Hw Ha Hu) as (k' & L' & o' & P' & E & Hw' & Ha' & Hu' & Hum'); [lia|done|lia|left; Z.to_euclidean_division_equations; lia|].
    exists k', L', o', P'. split_and!; try done. apply (unmaps_skip d v (v + 1024)); [lia| |done|done].
    intros u Hu''. apply (pte_none _ _ _ _ _ _ Ha). by replace (u / 1024) with (v / 1024) by (Z.to_euclidean_division_equations; lia).
Qed.

(** ** Freeing a whole space *)

(** kfree() of a page with a role on which no other role depends. *)
Lemma free_page k L own p r :
  world k L own -> own !! p = Some r -> (forall q r', own !! q = Some r' -> q <> p -> dir_of r' <> p) ->
  exists k1, kfree p k = Ok tt k1 /\ world k1 (p :: L) (delete p own) /\ kend k1 = kend k /\ pg_frame p (kdata k) (kdata k1).
Proof.
  intros Hw Hp Hdep. destruct (wo_own _ _ _ Hw p r Hp) as [Hok HpL].
  destruct (kfree_page k L p (wo_inv _ _ _ Hw) Hok HpL) as (k1 & E1 & Hk1 & (_ & Ee & Hfr) & _). exists k1. split_and!; try done.
  split; [done| | |intros q x [_ Hq]%lookup_delete_Some; by apply (wo_dir _ _ _ Hw)|rewrite Ee; apply Hw].
  - intros q r' [Hne Hq]%lookup_delete_Some. rewrite Ee. destruct (wo_own _ _ _ Hw q r' Hq) as [? Hn]. split; [done|]. intros [->|?]%elem_of_cons; done.
  - intros q r' [Hne Hq]%lookup_delete_Some. apply lookup_delete_Some. split; [|by eapply wo_live]. intros ->. by apply (Hdep q r' Hq).
Qed.

(** The tables below index [i] are free, the directory is intact. *)
Record dirinv (k : kmem) (L : list Z) (own : gmap Z role) (d : Z) (T : gmap Z Z) (i : Z) : Prop := {
  di_world : world k L own;
  di_dir : own !! d = Some (RDir d);
  di_pde : forall j, i <= j < 1024 -> load32 (kdata k) (d + 4 * j) = match T !! j with Some t => pde_word t | None => 0 end;
  di_tab : forall j t, own !! t = Some (RTab d j) <-> i <= j < 1024 /\ T !! j = Some t;
}.

(** What freeing pages of [d] keeps. *)
Record released (d : Z) (k : kmem) (L : list Z) (own : gmap Z role) (k' : kmem) (L' : list Z) (own' : gmap Z role) : Prop := {
  fr_own : forall p r, own' !! p = Some r -> own !! p = Some r;
  fr_other : forall p r, own !! p = Some r -> dir_of r <> d -> own' !! p = Some r;
  fr_free : forall p, p ∈ L' <-> p ∈ L \/ (page_of d own p /\ own' !! p = None);
  fr_mem : forall p x, p mod PGSIZE = 0 -> ~ page_of d own p -> p <= x < p + PGSIZE -> kdata k' x = kdata k x;
  fr_end : kend k' = kend k;
}.

Lemma released_trans d k1 L1 o1 k2 L2 o2 k3 L3 o3 :
  released d k1 L1 o1 k2 L2 o2 -> released d k2 L2 o2 k3 L3 o3 -> released d k1 L1 o1 k3 L3 o3.
Proof.
  intros [O1 X1 F1 M1 E1] [O2 X2 F2 M2 E2]. assert (Hpg : forall p, page_of d o2 p -> page_of d o1 p) by (intros p (r & Hr & Hs); exists r; split; [by apply O1|done]).
  split.
  - eauto.
  - eauto.
  - intros p. rewrite F2, F1. split.
    + intros [[?|[Hp H2]]|[Hp H3]]; [by left|right|right; auto]. split; [done|]. destruct (o3 !! p) as [r|] eqn:E; [|done]. apply O2 in E. congruence.
    + intros [?|[Hp H3]]; [by left; left|]. destruct (o2 !! p) as [r|] eqn:E; [|left; right; auto]. right. split; [|done]. exists r. split; [done|].
      destruct Hp as (r' & Hr' & Hs). apply O1 in E. congruence.
  - intros p x Hp Hn Hx. rewrite (M2 p x Hp); [by apply (M1 p x Hp)|by intros ?%Hpg|done].
  - congruence.
Qed.

Lemma released_page d k L own k1 p r :
  own !! p = Some r -> dir_of r = d -> page_ok (kend k) p -> kend k1 = kend k -> pg_frame p (kdata k) (kdata k1) -> released d k L own k1 (p :: L) (delete p own).
Proof.
  intros Hp Hr (Hpa & _) Ee Hf. split; try done.
  - by intros q r' [_ ?]%lookup_delete_Some.
  - intros q r' Hq Hne. apply lookup_delete_Some. split; [|done]. intros ->. congruence.
  - intros q. rewrite elem_of_cons, lookup_delete_None. split.
    + intros [->|?]; [right; split; [by exists r|by left]|by left].
    + intros [?|[(r' & Hr' & _) [->|?]]]; [by right|by left|congruence].
  - intros q x Hq Hn Hx. apply Hf. assert (q <> p) as Hne by (intros ->; apply Hn; by exists r). destruct (page_disjoint q p Hq Hpa Hne); lia.
Qed.

Lemma released_refl d k L own : released d k L own k L own.
Proof.
  split; try done. intros p. split; [by left|]. intros [?|[(r & Hr & _) Hn]]; [done|congruence].
Qed.

Lemma free_tables_run n i k L own d T :
  dirinv k L own d T i -> 0 <= i -> i + Z.of_nat n = 1024 -> (forall j t, T !! j = Some t -> 0 <= j < 1024) ->
  exists k' L' own', mfor (seqZ i (Z.of_nat n)) (free_table d) k = Ok tt k' /\ dirinv k' L' own' d T 1024 /\ released d k L own k' L' own' /\
    (forall p d' v, own !! p = Some (RUser d' v) -> own' !! p = Some (RUser d' v)).
Proof.
  revert i k L own. induction n as [|n IH]; intros i k L own Hd Hi Hn HT.
  { exists k, L, own. assert (i = 1024) as -> by lia. split_and!; [done|done|apply released_refl|done]. }
  assert (Eft : free_table d i k = match T !! i with Some t => kfree t k | None => Ok tt k end).
  { unfold free_table, lw. mrun1. rewrite (di_pde _ _ _ _ _ _ Hd) by lia. destruct (T !! i) as [t|] eqn:ETi; [|done].
    assert (Ht : own !! t = Some (RTab d i)) by (apply (di_tab _ _ _ _ _ _ Hd); split; [lia|done]).
    pose proof (world_page _ _ _ _ _ (di_world _ _ _ _ _ _ Hd) Ht) as Hok. by destruct (pde_word_spec _ _ Hok) as (_ & -> & ->). }
  rewrite seqZ_cons by lia. cbn [mfor]. replace (Z.pred (Z.of_nat (S n))) with (Z.of_nat n) by lia. replace (Z.succ i) with (i + 1) by lia.
  destruct (T !! i) as [t|] eqn:ETi.
  - assert (Ht : own !! t = Some (RTab d i)) by (apply (di_tab _ _ _ _ _ _ Hd); split; [lia|done]).
    destruct (free_page k L own t _ (di_world _ _ _ _ _ _ Hd) Ht) as (k1 & E1 & Hw1 & Ee & Hf).
    { intros q r' Hq _ E. apply (wo_live _ _ _ (di_world _ _ _ _ _ _ Hd)) in Hq. congruence. }
    pose proof (world_page _ _ _ _ _ (di_world _ _ _ _ _ _ Hd) Ht) as Hok. rewrite E1 in Eft. mstep Eft.
    assert (Htd : t <> d) by (intros ->; rewrite (di_dir _ _ _ _ _ _ Hd) in Ht; done).
    pose proof (world_page _ _ _ _ _ (di_world _ _ _ _ _ _ Hd) (di_dir _ _ _ _ _ _ Hd)) as (Hda & _). pose proof Hok as (Hta & _).
    destruct (IH (i + 1) k1 (t :: L) (delete t own)) as (k' & L' & o' & E & Hd' & Hfr & Hus); [|lia|lia|done|].
    { split; [done| | |].
      - rewrite lookup_delete_ne by done. apply Hd.
      - intros j Hj. rewrite <- (di_pde _ _ _ _ _ _ Hd) by lia. apply (pg_load t _ _ d); [done|done|done|done|lia|unfold PGSIZE; lia].
      - intros j t'. rewrite lookup_delete_Some, (di_tab _ _ _ _ _ _ Hd). split.
        + intros [Hne [Hj Hj']]. split; [|done]. destruct (decide (j = i)) as [->|]; [congruence|lia].
        + intros [Hj Hj']. split; [|split; [lia|done]]. intros ->. assert (own !! t' = Some (RTab d j)) by (apply (di_tab _ _ _ _ _ _ Hd); split; [lia|done]).
          assert (j = i) by congruence. lia. }
    exists k', L', o'. split_and!; [done|done| |].
    + eapply released_trans; [|exact Hfr]. by eapply released_page.
    + intros p d' v Hp. apply Hus. rewrite lookup_delete_ne; [done|congruence].
  - mstep Eft. destruct (IH (i + 1) k L own) as (k' & L' & o' & E & Hd' & Hfr & Hus); [|lia|lia|done|by exists k', L', o'].
    destruct Hd as [Hw Hdd Hpde Htab]. split; try done; [intros j Hj; apply Hpde; lia|]. intros j t. rewrite Htab. split; intros [Hj Hj']; (split; [|done]); [|lia].
    destruct (decide (j = i)) as [->|]; [congruence|lia].
Qed.

(** freevm() gives every page of the space back, and only those. *)
Lemma freevm_run k L own d T P :
  world k L own -> aspace k own d T P -> uspace own d P ->
  exists k' L' own', freevm d k = Ok tt k' /\ world k' L' own' /\ released d k L own k' L' own' /\ (forall p r, own' !! p = Some r -> dir_of r <> d).
Proof.
  intros Hw Ha Hu. pose proof (world_page _ _ _ _ _ Hw (as_dir _ _ _ _ _ Ha)) as Hok. pose proof (page_range _ _ Hok) as (Hr & _).
  unfold freevm. rewrite (proj2 (Z.eqb_neq d 0)) by lia. unfold deallocuvm. change (KERNBASE <=? 0) with false. cbn iota.
  change (PGROUNDUP 0) with (PGSIZE * 0). rewrite bind_assoc_run.
  destruct (dealloc_loop_run (S (Z.to_nat (KERNBASE / PGSIZE + 1))) k L own d T P 0 KERNBASE Hw Ha Hu) as (k1 & L1 & o1 & P1 & E1 & Hw1 & Ha1 & Hu1 & Hum);
    [lia|unfold KERNBASE; lia|change (pages KERNBASE) with UVPN; change (KERNBASE / PGSIZE) with UVPN; unfold UVPN; lia|by left|].
  mstep E1. change (pages KERNBASE) with UVPN in Hum.
  assert (Hnu : forall p v, o1 !! p <> Some (RUser d v)).
  { intros p v Hp. pose proof Hp as Hp'. apply Hu1 in Hp' as (Hv & e & He & _). destruct (as_map _ _ _ _ _ Ha1 v e He) as ((Hv0 & _) & _).
    rewrite (um_map _ _ _ _ _ _ _ _ _ _ _ Hum), decide_True in He by lia. done. }
  assert (Hf1 : released d k L own k1 L1 o1).
  { split.
    - by intros p r [? _]%(um_own _ _ _ _ _ _ _ _ _ _ _ Hum).
    - intros p r Hp Hne. apply (um_own _ _ _ _ _ _ _ _ _ _ _ Hum). split; [done|]. intros (u & _ & Hq). rewrite Hp in Hq. injection Hq as ->. done.
    - intros p. rewrite (um_free _ _ _ _ _ _ _ _ _ _ _ Hum). split; (intros [?|H1]; [by left|right]).
      + destruct H1 as (u & Hu' & Hp). split; [by exists (RUser d u)|]. destruct (o1 !! p) as [r|] eqn:E; [|done].
        apply (um_own _ _ _ _ _ _ _ _ _ _ _ Hum) in E as [_ []]. by exists u.
      + destruct H1 as ((r & Hp & Hs) & Hn). destruct r as [d'|d' j|d' u]; unfold of_space in Hs; cbn [dir_of] in Hs; subst d'.
        1,2: assert (E : o1 !! p <> None) by (intros E; eapply eq_None_not_Some; [exact E|]; eexists; apply (um_own _ _ _ _ _ _ _ _ _ _ _ Hum); split; [exact Hp|]; intros (u & _ & Hq); congruence); done.
        exists u. split; [|done]. apply Hu in Hp as (Hv & e & He & _). destruct (as_map _ _ _ _ _ Ha u e He) as (? & _). lia.
    - intros p x Hp Hn Hx. apply (um_mem _ _ _ _ _ _ _ _ _ _ _ Hum p x Hp); [|intros (u & _ & Hq); apply Hn; by eexists|done]. intros Ht. by apply Hn, table_of_space.
    - apply (um_end _ _ _ _ _ _ _ _ _ _ _ Hum). }
  mrun1. destruct (free_tables_run 1024 0 k1 L1 o1 d T) as (k2 & L2 & o2 & E2 & Hd2 & Hf2 & _); [|lia|lia|apply (as_idx _ _ _ _ _ Ha1)|].
  { split; [done|apply Ha1|intros j Hj; apply (as_pde _ _ _ _ _ Ha1); lia|]. intros j t. rewrite <- (as_tab _ _ _ _ _ Ha1). split; [intros Ht; split; [by apply (as_idx _ _ _ _ _ Ha1) in Ht|done]|by intros []]. }
  change (Z.of_nat 1024) with NPDENTRIES in E2. mstep E2.
  assert (Hlast : forall q r', o2 !! q = Some r' -> q <> d -> dir_of r' <> d).
  { intros q [d'|d' j|d' u] Hq Hne E; cbn in E; subst d'.
    - apply (wo_dir _ _ _ (di_world _ _ _ _ _ _ Hd2)) in Hq. done.
    - apply (di_tab _ _ _ _ _ _ Hd2) in Hq as [? _]. lia.
    - apply (fr_own _ _ _ _ _ _ _ Hf2) in Hq. by apply Hnu in Hq. }
  destruct (free_page k2 L2 o2 d _ (di_world _ _ _ _ _ _ Hd2) (di_dir _ _ _ _ _ _ Hd2) Hlast) as (k3 & E3 & Hw3 & Ee3 & Hfr3).
  exists k3, (d :: L2), (delete d o2). split_and!; [done|done| |].
  - eapply released_trans; [exact Hf1|]. eapply released_trans; [exact Hf2|]. eapply released_page; [apply Hd2|done| |done|done].
    eapply world_page; [apply Hd2|apply Hd2].
  - intros p r [Hne Hp]%lookup_delete_Some. apply (Hlast p r Hp). done.
Qed.

(** ** Copying a space *)

Definition UW : Z := Z.lor PTE_W PTE_U.
(** The page of [e'] in [k'] has the bytes the page of [e] has in [k]. *)
Definition same_page (k : kmem) (e : Z) (k' : kmem) (e' : Z) : Prop :=
  forall x, 0 <= x < PGSIZE -> kdata k' (frame e' + x) = kdata k (frame e + x).
Definition user_word (e : Z) : Prop := e = entry (v2p (frame e)) UW.

Lemma grows_user_page c k L own k' L' own' d P v e x :
  grows c k L own k' L' own' -> world k L own -> uspace own d P -> P !! v = Some e -> v < UVPN -> 0 <= x < PGSIZE ->
  kdata k' (frame e + x) = kdata k (frame e + x).
Proof.
  intros Hg Hw Hu He Hv Hx. destruct (user_page _ _ _ _ _ _ _ Hw Hu He Hv) as (Hp & (Hpa & _) & _). apply (gr_user _ _ _ _ _ _ _ Hg _ _ _ _ Hp Hpa). lia.
Qed.

Lemma copyuvm_loop_run fuel k L own d c T P Tc Pc sz v :
  world k L own -> aspace k own d T P -> uspace own d P -> aspace k own c Tc Pc -> uspace own c Pc -> c <> d ->
  0 <= v -> 0 <= sz <= KERNBASE -> (Z.to_nat (pages sz - v) < fuel)%nat ->
  (forall u, 0 <= u < pages sz -> is_Some (P !! u)) -> (forall u, v <= u < UVPN -> Pc !! u = None) ->
  exists b k' L' own' Tc' Pc', copyuvm_loop fuel c d sz (PGSIZE * v) k = Ok b k' /\ world k' L' own' /\ grows c k L own k' L' own' /\
    aspace k' own' c Tc' Pc' /\ uspace own' c Pc' /\
    ((b = false /\ Z.of_nat (length L + size Tc) <= Z.of_nat (size Tc') + (pages sz - v)) \/ (b = true /\ (forall u, ~ v <= u < pages sz -> Pc' !! u = Pc !! u) /\
      forall u, v <= u < pages sz -> exists e e', P !! u = Some e /\ Pc' !! u = Some e' /\ user_word e' /\ same_page k e k' e')).
Proof.
  revert k L own T Tc Pc v. induction fuel as [|fuel IH]; intros k L own T Tc Pc v Hw Ha Hu Hac Huc Hcd Hv Hsz Hf HP HPc; [lia|]. cbn [copyuvm_loop].
  assert (Hn : pages sz <= UVPN) by (unfold pages, UVPN, KERNBASE, PGSIZE in *; Z.to_euclidean_division_equations; lia).
  destruct (Z.ltb_spec (PGSIZE * v) sz) as [Hlt|Hge].
  2:{ exists true, k, L, own, Tc, Pc. split_and!; try done; [apply grows_refl|]. right. split_and!; try done. intros u Hu'.
      assert (PGSIZE * u < sz) by (apply pages_lt; lia). unfold PGSIZE in *. lia. }
  apply pages_lt in Hlt. assert (Hva : 0 <= PGSIZE * v < 2 ^ 32) by (unfold UVPN, PGSIZE in *; lia). destruct (HP v) as [e He]; [lia|].
  destruct (as_map _ _ _ _ _ Ha v e He) as (Hv20 & [t HT] & Her & Hpe). pose proof (walk_find _ _ _ _ _ _ _ false Hw Ha Hva) as Hf0.
  rewrite page_mul_div, HT in Hf0. destruct Hf0 as [Hf0 Hne]. mstep Hf0. rewrite (proj2 (Z.eqb_neq _ 0) Hne). unfold lw. mrun1.
  rewrite (pte_value _ _ _ _ _ _ _ Ha Hv20 HT), He. cbn [from_option id]. rewrite Hpe. cbn [negb].
  pose proof (kalloc_page k L (wo_inv _ _ _ Hw)) as Hk. destruct L as [|p L].
  { mstep Hk. exists false, k, [], own, Tc, Pc. split_and!; try done; [apply grows_refl|left; cbn [length]; lia]. }
  destruct Hk as (k1 & E1 & Hk1 & Hp & HpL & Ed & _ & Ee). mstep E1. pose proof (page_range _ _ Hp) as (Hpr & _). rewrite (proj2 (Z.eqb_neq p 0)) by lia.
  unfold move_bytes. mrun1. fold (frame e). set (m1 := memmove (kdata k1) p (frame e) PGSIZE).
  assert (Hm1 : forall x, m1 x = if (p <=? x) && (x <? p + PGSIZE) then kdata k (frame e + (x - p)) else kdata k x).
  { intros x. unfold m1. rewrite memmove_bytes by (unfold PGSIZE; lia). by rewrite Ed. }
  assert (Hfr : pg_frame p (kdata k) m1). { intros x Hx. rewrite Hm1. destruct (Z.leb_spec p x), (Z.ltb_spec x (p + PGSIZE)); simpl; done || lia. }
  destruct (user_map k L own c Tc Pc p v k1 m1 Hw Hac Huc) as (r & k2 & L2 & o2 & T2 & E2 & Hc2); [lia|apply HPc; lia|done|done|done|done|].
  mstep E2. destruct Hc2 as [(-> & Hw2 & Ha2 & Hu2 & Hg2 & Hpg & Hcnt)|(-> & -> & _ & Hcnt & Hw2 & Ha2 & Hu2 & Hg2)].
  2:{ cbn [Z.ltb Z.compare]. exists false, k2, [], o2, T2, Pc. split_and!; try done. left. cbn [length]. lia. }
  cbn [Z.ltb Z.compare]. set (own2 := <[p := RUser c v]> o2) in *. set (e2 := entry (v2p p) _) in *.
  assert (Ea : PGSIZE * v ⊕ PGSIZE = PGSIZE * (v + 1)) by (rewrite u32_id; unfold UVPN, PGSIZE in *; lia). rewrite Ea.
  destruct (IH k2 L2 own2 T T2 (<[v := e2]> Pc) (v + 1) Hw2) as (b & k' & L' & o' & T' & P' & E & Hw' & Hg' & Ha' & Hu' & Hc');
    [by eapply aspace_grows|by eapply uspace_grows|done|done|done|lia|done|lia|done|intros u Hu'; rewrite lookup_insert_ne by lia; apply HPc; lia|].
  exists b, k', L', o', T', P'. split_and!; try done; [eapply grows_trans; [apply (ki_nodup _ _ (wo_inv _ _ _ Hw))|done|done]|].
  destruct Hc' as [[-> Hle]|(-> & Hout & Hin)]; [left; split; [done|cbn [length]; lia]|right]. split; [done|]. split.
  { intros u Hu''. rewrite Hout by lia. rewrite lookup_insert_ne; [done|]. lia. }
  assert (Ef2 : frame e2 = p) by (apply (user_entry k p Hp)). intros u Hu''. destruct (decide (u = v)) as [->|Hne'].
  - exists e, e2. rewrite Hout, lookup_insert_eq by lia. split_and!; try done; [unfold user_word; by rewrite Ef2|].
    intros x Hx. rewrite (grows_user_page c k2 L2 own2 k' L' o' c (<[v := e2]> Pc) v e2 x) by (done || apply lookup_insert_eq || lia).
    rewrite Ef2, Hpg by lia. rewrite Hm1. destruct (Z.leb_spec p (p + x)), (Z.ltb_spec (p + x) (p + PGSIZE)); simpl; try lia. f_equal. lia.
  - destruct (Hin u) as (eu & eu' & H1 & H2 & H3 & H4); [lia|]. exists eu, eu'. split_and!; try done.
    intros x Hx. rewrite (H4 x Hx). apply (grows_user_page c k (p :: L) own k2 L2 own2 d P u eu x); try done. lia.
Qed.

Lemma released_grows d k1 L1 o1 k2 L2 o2 k3 L3 o3 :
  world k1 L1 o1 -> o1 !! d = None -> grows d k1 L1 o1 k2 L2 o2 -> world k2 L2 o2 -> released d k2 L2 o2 k3 L3 o3 -> world k3 L3 o3 ->
  (forall p r, o3 !! p = Some r -> dir_of r <> d) -> o3 = o1 /\ forall p x, p mod PGSIZE = 0 -> (p ∉ L1) -> p <= x < p + PGSIZE -> is_Some (o1 !! p) -> kdata k3 x = kdata k1 x.
Proof.
  intros Hw1 Hd Hg Hw2 Hr Hw3 Hno.
  assert (Hnd : forall p r, o1 !! p = Some r -> dir_of r <> d) by (intros p r Hp E; apply (wo_live _ _ _ Hw1) in Hp; congruence).
  split.
  - apply map_eq. intros p. apply option_eq. intros r. split.
    + intros Hp. pose proof (Hno p r Hp). apply (fr_own _ _ _ _ _ _ _ Hr) in Hp. apply (gr_new _ _ _ _ _ _ _ Hg) in Hp as [?|[_ ?]]; done.
    + intros Hp. apply (fr_other _ _ _ _ _ _ _ Hr); [by apply (gr_keep _ _ _ _ _ _ _ Hg)|by eapply Hnd].
  - intros p x Hp HpL Hx [r Hr1]. assert (Hnp : ~ page_of d o2 p).
    { intros (r' & Hr' & Hs). apply (gr_keep _ _ _ _ _ _ _ Hg) in Hr1 as Hr2. rewrite Hr2 in Hr'. injection Hr' as ->. by apply (Hnd p r'). }
    rewrite (fr_mem _ _ _ _ _ _ _ Hr p x Hp Hnp Hx). apply (gr_mem _ _ _ _ _ _ _ Hg p x Hp); [by left|done|done].
Qed.

(** Memory of the pages with a role unchanged: so are the spaces. *)
Lemma aspace_same k L k' own d T P :
  world k L own -> (forall p x, p mod PGSIZE = 0 -> (p ∉ L) -> p <= x < p + PGSIZE -> is_Some (own !! p) -> kdata k' x = kdata k x) ->
  aspace k own d T P -> aspace k' own d T P.
Proof.
  intros Hw Hm [Hd Ht Hi Hpde Hpte Hmap].
  assert (Hld : forall q r a, own !! q = Some r -> q <= a -> a + 4 <= q + PGSIZE -> load32 (kdata k') a = load32 (kdata k) a).
  { intros q r a Hq H1 H2. destruct (wo_own _ _ _ Hw q r Hq) as [(Hqa & _) HqL]. apply load32_ext. intros x Hx. apply (Hm q x); [done|done|lia|done]. }
  split; try done.
  - intros i Hr. rewrite <- Hpde by done. apply (Hld d _ _ Hd); [lia|unfold PGSIZE; lia].
  - intros i t j HT Hj. rewrite <- (Hpte i t j HT Hj). apply Ht in HT. apply (Hld t _ _ HT); [lia|unfold PGSIZE; lia].
Qed.

(** ** Growing a space *)

Definition zeroed (k : kmem) (e : Z) : Prop := forall x, 0 <= x < PGSIZE -> kdata k (frame e + x) = 0.

Lemma allocuvm_loop_run fuel k L own d T P v oldsz newsz :
  world k L own -> aspace k own d T P -> uspace own d P -> 0 <= v -> 0 <= newsz < KERNBASE -> (Z.to_nat (pages newsz - v) < fuel)%nat ->
  (forall u, v <= u < pages newsz -> P !! u = None) -> pages newsz - v + 1025 <= Z.of_nat (length L + size T) ->
  exists k' L' own' T' P', allocuvm_loop fuel d (PGSIZE * v) oldsz newsz k = Ok newsz k' /\ world k' L' own' /\ aspace k' own' d T' P' /\ uspace own' d P' /\
    grows d k L own k' L' own' /\ Z.of_nat (length L + size T) = Z.of_nat (length L' + size T') + Z.max 0 (pages newsz - v) /\
    (forall u, ~ v <= u < pages newsz -> P' !! u = P !! u) /\
    forall u, v <= u < pages newsz -> exists e, P' !! u = Some e /\ user_word e /\ own !! frame e = None /\ zeroed k' e.
Proof.
  revert k L own T P v. induction fuel as [|fuel IH]; intros k L own T P v Hw Ha Hu Hv Hsz Hf HP Hmem; [lia|]. cbn [allocuvm_loop].
  assert (Hn : pages newsz <= UVPN) by (unfold pages, UVPN, KERNBASE, PGSIZE in *; Z.to_euclidean_division_equations; lia).
  destruct (Z.ltb_spec (PGSIZE * v) newsz) as [Hlt|Hge].
  2:{ exists k, L, own, T, P. assert (Hle : pages newsz <= v) by (apply Z.nlt_ge; intros ?%pages_lt; lia).
      split_and!; try done; [apply grows_refl|lia|]. intros u Hu'. assert (PGSIZE * u < newsz) by (apply pages_lt; lia). unfold PGSIZE in *. lia. }
  apply pages_lt in Hlt. pose proof (size_tables _ _ _ _ _ Ha) as HsT.
  pose proof (kalloc_page k L (wo_inv _ _ _ Hw)) as Hk. destruct L as [|p L]; [cbn [length] in Hmem; lia|].
  destruct Hk as (k1 & E1 & Hk1 & Hp & HpL & Ed & _ & Ee). mstep E1. pose proof (page_range _ _ Hp) as (Hpr & _). rewrite (proj2 (Z.eqb_neq p 0)) by lia.
  unfold zero_page. mrun1. rewrite Ed.
  destruct (user_map k L own d T P p v k1 (memset (kdata k) p 0 PGSIZE) Hw Ha Hu) as (r & k2 & L2 & o2 & T2 & E2 & Hc2);
    [lia|apply HP; lia|done|done|done|apply zero_page_frame|]. mstep E2. cbn [length] in Hmem.
  destruct Hc2 as [(-> & Hw2 & Ha2 & Hu2 & Hg2 & Hpg & Hcnt)|(-> & -> & _ & Hcnt & Hw2 & Ha2 & Hu2 & Hg2)].
  2:{ pose proof (size_tables _ _ _ _ _ Ha2). lia. }
  set (own2 := <[p := RUser d v]> o2) in *. set (e2 := entry (v2p p) _) in *. assert (Ef2 : frame e2 = p) by (apply (user_entry k p Hp)).
  assert (Ea : PGSIZE * v ⊕ PGSIZE = PGSIZE * (v + 1)) by (rewrite u32_id; unfold UVPN, PGSIZE in *; lia). rewrite Ea.
  destruct (IH k2 L2 own2 T2 (<[v := e2]> P) (v + 1) Hw2 Ha2 Hu2) as (k' & L' & o' & T' & P' & E & Hw' & Ha' & Hu' & Hg' & Hcnt' & Hout & Hin);
    [lia|done|lia|intros u Hu'; rewrite lookup_insert_ne by lia; apply HP; lia|lia|].
  exists k', L', o', T', P'. split_and!; try done; [eapply grows_trans; [apply (ki_nodup _ _ (wo_inv _ _ _ Hw))|done|done]|cbn [length]; lia| |].
  { intros u Hu''. rewrite Hout by lia. rewrite lookup_insert_ne; [done|]. lia. }
  intros u Hu''. destruct (decide (u = v)) as [->|Hne'].
  - exists e2. rewrite Hout, lookup_insert_eq by lia. split_and!; try done; [unfold user_word; by rewrite Ef2|rewrite Ef2; by apply (world_alloc _ _ _ _ Hw)|].
    intros x Hx. rewrite (grows_user_page d k2 L2 own2 k' L' o' d (<[v := e2]> P) v e2 x) by (done || apply lookup_insert_eq || lia).
    rewrite Ef2, Hpg by lia. apply zero_page_in. lia.
  - destruct (Hin u) as (eu & H1 & H2 & H3 & H4); [lia|]. exists eu. split_and!; try done.
    destruct (own !! frame eu) as [r|] eqn:Er; [|done]. apply (gr_keep _ _ _ _ _ _ _ Hg2) in Er. congruence.
Qed.

(** C6: copyuvm(), which fork() calls, on an address space with user pages up to
    [sz]: it returns 0 or the directory of a new space.  The new space has the
    kernel's mappings, and for each user page of the old one a page of its own
    with the same bytes, mapped writable at the same address, and nothing
    else.  The old space and its contents do not change.  It only fails when
    fewer than [1026 + pages sz] pages are free. *)
Theorem copyuvm_correct data k L own d T P sz :
  world k L own -> aspace k own d T P -> uspace own d P -> data_ok data -> 0 <= sz <= KERNBASE ->
  (forall u, 0 <= u < pages sz -> is_Some (P !! u)) ->
  exists c k' L' own', copyuvm data d sz k = Ok c k' /\ world k' L' own' /\ aspace k' own' d T P /\ uspace own' d P /\
    (forall u e x, P !! u = Some e -> u < UVPN -> 0 <= x < PGSIZE -> kdata k' (frame e + x) = kdata k (frame e + x)) /\
    ((c = 0 /\ Z.of_nat (length L) < 1026 + pages sz) \/
     (own !! c = None /\ exists Tc Pc, aspace k' own' c Tc Pc /\ uspace own' c Pc /\
        (forall u, ~ 0 <= u < pages sz -> Pc !! u = kern_map data !! u) /\
        forall u, 0 <= u < pages sz -> exists e e', P !! u = Some e /\ Pc !! u = Some e' /\ user_word e' /\ frame e' <> frame e /\ same_page k e k' e')).
Proof.
  intros Hw Ha Hu Hdata Hsz HP. assert (Hn : 0 <= pages sz <= UVPN) by (unfold pages, UVPN, KERNBASE, PGSIZE in *; Z.to_euclidean_division_equations; lia).
  unfold copyuvm. destruct (setupkvm_run data k L own Hw Hdata) as (c & k1 & L1 & o1 & E1 & Hw1 & Hc). mstep E1.
  destruct Hc as [(-> & Hlen & d0 & Hd0 & Hg)|(Hc0 & Hc & HcL & Hg & Huc & Tc & Hac & Hlen)].
  { assert (Hne : d0 <> d) by (intros ->; rewrite (as_dir _ _ _ _ _ Ha) in Hd0; done).
    exists 0, k1, L1, o1. split_and!; [done|done|by eapply aspace_grows|by eapply uspace_grows| |left; split; [done|lia]].
    intros u e x He Hv Hx. by eapply grows_user_page. }
  rewrite (proj2 (Z.eqb_neq c 0) Hc0). assert (Hne : c <> d) by (intros ->; rewrite (as_dir _ _ _ _ _ Ha) in Hc; done).
  pose proof (aspace_grows _ _ _ _ _ _ _ _ _ _ Hg Hw Hne Ha) as Ha1. pose proof (uspace_grows _ _ _ _ _ _ _ _ _ Hg Hne Hu) as Hu1.
  destruct (copyuvm_loop_run (S (Z.to_nat (sz / PGSIZE + 1))) k1 L1 o1 d c T P Tc (kern_map data) sz 0 Hw1 Ha1 Hu1 Hac Huc Hne)
    as (b & k2 & L2 & o2 & T2 & P2 & E2 & Hw2 & Hg2 & Ha2 & Hu2 & Hc2); [lia|done| |done|intros u Hu'; apply kern_map_user; [by apply kmap_segs|lia]|].
  { unfold pages, PGSIZE in *. Z.to_euclidean_division_equations. lia. }
  rewrite Z.mul_0_r in E2. mstep E2. assert (Hg12 : grows c k L own k2 L2 o2) by (eapply grows_trans; [apply (ki_nodup _ _ (wo_inv _ _ _ Hw))|done|done]).
  destruct Hc2 as [[-> Hle]|(-> & Hout & Hin)].
  - destruct (freevm_run k2 L2 o2 c T2 P2 Hw2 Ha2 Hu2) as (k3 & L3 & o3 & E3 & Hw3 & Hr & Hno). mstep E3.
    destruct (released_grows c k L own k2 L2 o2 k3 L3 o3 Hw Hc Hg12 Hw2 Hr Hw3 Hno) as [-> Hm].
    exists 0, k3, L3, own. split_and!; try done; [by apply (aspace_same k L)| |left; split; [done|]].
    + intros u e x He Hv Hx. destruct (user_page _ _ _ _ _ _ _ Hw Hu He Hv) as (Hp & (Hpa & _) & HpL & _). apply (Hm (frame e)); [done|done|lia|done].
    + pose proof (size_tables _ _ _ _ _ Ha2). lia.
  - exists c, k2, L2, o2. split_and!; [done|done|by apply (aspace_grows c k L own k2 L2 o2)|by apply (uspace_grows c k L own k2 L2 o2)| |right].
    + intros u e x He Hv Hx. by eapply (grows_user_page c k L own k2 L2 o2 d P).
    + split; [done|]. exists T2, P2. split_and!; try done. intros u Hu'. destruct (Hin u Hu') as (e & e' & H1 & H2 & H3 & H4). exists e, e'. split_and!; try done.
      * intros Ef. assert (Hp : o2 !! frame e' = Some (RUser c u)) by (apply Hu2; split; [lia|by exists e']).
        assert (Hp' : o2 !! frame e = Some (RUser d u)) by (apply (uspace_grows _ _ _ _ _ _ _ _ _ Hg12 Hne Hu); split; [lia|by exists e]). congruence.
      * intros x Hx. rewrite (H4 x Hx). apply (grows_user_page c k L own k1 L1 o1 d P u e); try done. lia.
Qed.

(** C29: freevm(), which wait() and exec() call, gives back every page of the
    space, the directory, the page tables and the user pages, exactly once,
    and nothing else: afterwards the free pages are the old ones and those,
    and the pages of the other spaces are not changed. *)
Theorem freevm_correct k L own d T P :
  world k L own -> aspace k own d T P -> uspace own d P ->
  exists k' L' own', freevm d k = Ok tt k' /\ world k' L' own' /\ NoDup L' /\
    (forall p, p ∈ L' <-> p ∈ L \/ page_of d own p) /\
    (forall p r, own' !! p = Some r <-> own !! p = Some r /\ dir_of r <> d) /\
    (forall p x, p mod PGSIZE = 0 -> ~ page_of d own p -> p <= x < p + PGSIZE -> kdata k' x = kdata k x).
Proof.
  intros Hw Ha Hu. destruct (freevm_run k L own d T P Hw Ha Hu) as (k' & L' & o' & E & Hw' & Hr & Hno). exists k', L', o'. split_and!; try done.
  - apply (ki_nodup _ _ (wo_inv _ _ _ Hw')).
  - intros p. rewrite (fr_free _ _ _ _ _ _ _ Hr). split; (intros [?|Hp]; [by left|right]); [by destruct Hp|]. split; [done|].
    destruct (o' !! p) as [r|] eqn:Eo; [|done]. pose proof (Hno p r Eo). apply (fr_own _ _ _ _ _ _ _ Hr) in Eo. destruct Hp as (r' & Hr' & Hs). unfold of_space in Hs. congruence.
  - intros p r. split; [intros Hp; split; [by apply (fr_own _ _ _ _ _ _ _ Hr)|by eapply Hno]|]. intros [Hp Hd]. by apply (fr_other _ _ _ _ _ _ _ Hr).
  - apply (fr_mem _ _ _ _ _ _ _ Hr).
Qed.

(** Allocuvm(), behind sbrk() and exec(), from a space whose pages end at
    [oldsz]: it refuses sizes at or above KERNBASE, returns [oldsz] when asked
    to shrink, and otherwise, with [1025] pages more than it needs free, maps
    at every page from [oldsz] to [newsz] a page of its own, writable, filled
    with zeroes; the other entries and the bytes of the user pages stay. *)
Theorem allocuvm_correct k L own d T P oldsz newsz :
  world k L own -> aspace k own d T P -> uspace own d P -> 0 <= oldsz <= KERNBASE -> 0 <= newsz < 2 ^ 32 ->
  (forall u, pages oldsz <= u < pages newsz -> P !! u = None) -> pages newsz - pages oldsz + 1025 <= Z.of_nat (length L + size T) ->
  if decide (KERNBASE <= newsz) then allocuvm d oldsz newsz k = Ok 0 k
  else if decide (newsz < oldsz) then allocuvm d oldsz newsz k = Ok oldsz k
  else exists k' L' own' T' P', allocuvm d oldsz newsz k = Ok newsz k' /\ world k' L' own' /\ aspace k' own' d T' P' /\ uspace own' d P' /\
    (forall u, ~ pages oldsz <= u < pages newsz -> P' !! u = P !! u) /\
    (forall u, pages oldsz <= u < pages newsz -> exists e, P' !! u = Some e /\ user_word e /\ own !! frame e = None /\ zeroed k' e) /\
    (forall u e x, P !! u = Some e -> u < UVPN -> 0 <= x < PGSIZE -> kdata k' (frame e + x) = kdata k (frame e + x)).
Proof.
  intros Hw Ha Hu Ho Hn HP Hmem. unfold allocuvm. destruct (Z.leb_spec KERNBASE newsz) as [H1|H1]; [by rewrite decide_True|]. rewrite decide_False by lia.
  destruct (Z.ltb_spec newsz oldsz) as [H2|H2]; [by rewrite decide_True|]. rewrite decide_False by lia. rewrite pages_up by (unfold KERNBASE, PGSIZE in *; lia).
  destruct (allocuvm_loop_run (S (Z.to_nat (newsz / PGSIZE + 1))) k L own d T P (pages oldsz) oldsz newsz Hw Ha Hu) as (k' & L' & o' & T' & P' & E & Hw' & Ha' & Hu' & Hg & _ & Hout & Hin);
    [|lia| |done|done|].
  { unfold pages, PGSIZE. apply Z.div_pos; lia. }
  { clear -Ho H1 H2. unfold pages, PGSIZE in *. Z.to_euclidean_division_equations. lia. }
  exists k', L', o', T', P'. split_and!; try done. intros u e x He Hv Hx. by eapply grows_user_page.
Qed.

(** ** copyout *)

(** Entries that user code may use. *)
Definition user_ok (e : Z) : Prop := truth (Z.land e PTE_U) = true.

(** The byte at offset [x] of user page [u] after the bytes [p] were written at [va]. *)
Definition overlaid (p : list Z) (va u x old : Z) : Z :=
  let a := PGSIZE * u + x in if (va <=? a) && (a <? va + Z.of_nat (length p)) then nth (Z.to_nat (a - va)) p 0 else old.

Lemma uva2ka_run k L own d T P v e :
  world k L own -> aspace k own d T P -> 0 <= v < 2 ^ 20 -> P !! v = Some e -> user_ok e -> uva2ka d (PGSIZE * v) k = Ok (frame e) k.
Proof.
  intros Hw Ha Hv He Hue. destruct (as_map _ _ _ _ _ Ha v e He) as (_ & [t HT] & Her & Hpe). unfold uva2ka.
  assert (Hva : 0 <= PGSIZE * v < 2 ^ 32) by (unfold PGSIZE; lia). pose proof (walk_find _ _ _ _ _ _ _ false Hw Ha Hva) as Hf. rewrite page_mul_div, HT in Hf.
  destruct Hf as [Hf Hne]. mstep Hf. rewrite (proj2 (Z.eqb_neq _ 0) Hne). unfold lw. mrun1. rewrite (pte_value _ _ _ _ _ _ _ Ha Hv HT), He.
  cbn [from_option id]. rewrite Hpe. unfold user_ok in Hue. by rewrite Hue.
Qed.

(** Bytes written inside one user page. *)
Lemma store_user k L own d T P v e o q :
  world k L own -> aspace k own d T P -> uspace own d P -> P !! v = Some e -> v < UVPN -> 0 <= o -> o + Z.of_nat (length q) <= PGSIZE ->
  let k' := set_kdata (put_bytes (kdata k) (frame e + o) q) k in
  world k' L own /\ aspace k' own d T P /\
  forall u e' x, P !! u = Some e' -> u < UVPN -> 0 <= x < PGSIZE -> kdata k' (frame e' + x) = overlaid q (PGSIZE * v + o) u x (kdata k (frame e' + x)).
Proof.
  intros Hw Ha Hu He Hv Ho Hlen k'. destruct (user_page _ _ _ _ _ _ _ Hw Hu He Hv) as (Hp & (Hpa & _) & HpL & Hnt).
  assert (Hf : pg_frame (frame e) (kdata k) (put_bytes (kdata k) (frame e + o) q)).
  { intros x Hx. rewrite put_bytes_spec. destruct (Z.leb_spec (frame e + o) x), (Z.ltb_spec x (frame e + o + Z.of_nat (length q))); simpl; done || lia. }
  split_and!; [by eapply world_store|by eapply aspace_other|]. intros u e' x He' Hu' Hx. unfold k'. k_simpl. unfold overlaid. cbv zeta.
  destruct (decide (u = v)) as [->|Hne].
  - assert (e' = e) as -> by congruence. rewrite put_bytes_spec.
    destruct (Z.leb_spec (frame e + o) (frame e + x)), (Z.ltb_spec (frame e + x) (frame e + o + Z.of_nat (length q))),
      (Z.leb_spec (PGSIZE * v + o) (PGSIZE * v + x)), (Z.ltb_spec (PGSIZE * v + x) (PGSIZE * v + o + Z.of_nat (length q))); simpl; try done; try lia. f_equal. lia.
  - destruct (user_page _ _ _ _ _ _ _ Hw Hu He' Hu') as (Hp' & (Hpa' & _) & _). assert (Hfe : frame e' <> frame e) by congruence.
    rewrite Hf by (destruct (page_disjoint _ _ Hpa' Hpa Hfe); lia).
    destruct (Z.leb_spec (PGSIZE * v + o) (PGSIZE * u + x)), (Z.ltb_spec (PGSIZE * u + x) (PGSIZE * v + o + Z.of_nat (length q))); simpl; try done. unfold PGSIZE in *. lia.
Qed.

Lemma copyout_loop_run fuel k L own d T P va p :
  world k L own -> aspace k own d T P -> uspace own d P -> (length p < fuel)%nat -> 0 <= va -> va + Z.of_nat (length p) <= KERNBASE ->
  (forall u, va < PGSIZE * (u + 1) -> PGSIZE * u < va + Z.of_nat (length p) -> exists e, P !! u = Some e /\ user_ok e) ->
  exists k', copyout_loop fuel d va p k = Ok 0 k' /\ world k' L own /\ aspace k' own d T P /\
    forall u e x, P !! u = Some e -> u < UVPN -> 0 <= x < PGSIZE -> kdata k' (frame e + x) = overlaid p va u x (kdata k (frame e + x)).
Proof.
  revert k va p. induction fuel as [|fuel IH]; intros k va p Hw Ha Hu Hf Hva Hend HP; [lia|]. cbn [copyout_loop]. destruct p as [|b p].
  { exists k. split_and!; try done. intros u e x _ _ _. unfold overlaid. cbn [length]. destruct (Z.leb_spec va (PGSIZE * u + x)), (Z.ltb_spec (PGSIZE * u + x) (va + Z.of_nat 0)); simpl; done || lia. }
  set (q := b :: p) in *. assert (Hq : 0 < Z.of_nat (length q)) by (cbn; lia). set (v := va / PGSIZE) in *. set (o := va mod PGSIZE).
  assert (Evo : va = PGSIZE * v + o) by (apply Z.div_mod; unfold PGSIZE; lia). assert (Hor : 0 <= o < PGSIZE) by (apply Z.mod_pos_bound; unfold PGSIZE; lia).
  assert (Hv : 0 <= v < UVPN) by (unfold UVPN, KERNBASE, PGSIZE in *; lia).
  assert (Er : PGROUNDDOWN va = PGSIZE * v) by (apply PGROUNDDOWN_spec; unfold KERNBASE in *; lia). rewrite Er.
  replace (va - PGSIZE * v) with o by lia. destruct (HP v) as (e & He & Hue); [lia|lia|].
  mstep (uva2ka_run k L own d T P v e Hw Ha ltac:(unfold UVPN in *; lia) He Hue).
  destruct (user_page _ _ _ _ _ _ _ Hw Hu He) as (Hp & Hok & _); [lia|]. pose proof (page_range _ _ Hok) as (Hr0 & _). rewrite (proj2 (Z.eqb_neq _ 0)) by lia.
  set (n := Z.min (PGSIZE - o) (Z.of_nat (length q))). assert (Hn : 0 < n <= Z.of_nat (length q)) by lia. unfold store_bytes. mrun1.
  assert (Hlt : length (take (Z.to_nat n) q) = Z.to_nat n) by (rewrite length_take; lia). assert (Hld : length (drop (Z.to_nat n) q) = (length q - Z.to_nat n)%nat) by apply length_drop.
  destruct (store_user k L own d T P v e o (take (Z.to_nat n) q) Hw Ha Hu He) as (Hw1 & Ha1 & Hb1); [lia|lia|lia|].
  assert (Ea : PGSIZE * v ⊕ PGSIZE = PGSIZE * (v + 1)) by (rewrite u32_id; unfold UVPN, PGSIZE in *; lia). rewrite Ea.
  destruct (decide (n = Z.of_nat (length q))) as [En|En].
  - assert (Edr : drop (Z.to_nat n) q = []) by (apply drop_ge; lia). assert (Etk : take (Z.to_nat n) q = q) by (apply take_ge; lia). rewrite Edr, Etk in *.
    destruct fuel as [|fuel]; [lia|]. cbn [copyout_loop]. eexists. split_and!; [done|done|done|]. intros u e' x H1 H2 H3. rewrite (Hb1 u e' x H1 H2 H3). by rewrite <- Evo.
  - assert (En' : n = PGSIZE - o) by lia.
    destruct (IH _ (PGSIZE * (v + 1)) (drop (Z.to_nat n) q) Hw1 Ha1 Hu) as (k' & E & Hw' & Ha' & Hb'); [lia|unfold PGSIZE in *; lia|lia|intros u H1 H2; apply HP; lia|].
    exists k'. split_and!; [done|done|done|]. intros u e' x H1 H2 H3. rewrite (Hb' u e' x H1 H2 H3), (Hb1 u e' x H1 H2 H3). unfold overlaid. cbv zeta. rewrite Hlt, Hld.
    destruct (Z.leb_spec (PGSIZE * (v + 1)) (PGSIZE * u + x)), (Z.ltb_spec (PGSIZE * u + x) (PGSIZE * (v + 1) + Z.of_nat (length q - Z.to_nat n))),
      (Z.leb_spec (PGSIZE * v + o) (PGSIZE * u + x)), (Z.ltb_spec (PGSIZE * u + x) (PGSIZE * v + o + Z.of_nat (Z.to_nat n))),
      (Z.leb_spec va (PGSIZE * u + x)), (Z.ltb_spec (PGSIZE * u + x) (va + Z.of_nat (length q))); cbn [andb]; try done; try (unfold PGSIZE in *; lia).
    + rewrite nth_lookup, lookup_drop, <- nth_lookup. f_equal. unfold PGSIZE in *. lia.
    + rewrite nth_lookup, lookup_take_lt, <- nth_lookup by lia. f_equal. lia.
Qed.

(** Copyout(), with which exec() builds the new stack, to user pages of an
    address space that need not be the current one: it returns 0 and the user
    memory of the space has the bytes at [va], whatever pages they cross, and
    is otherwise unchanged; no page table changes. *)
Theorem copyout_correct k L own d T P va p :
  world k L own -> aspace k own d T P -> uspace own d P -> 0 <= va -> va + Z.of_nat (length p) <= KERNBASE ->
  (forall u, va < PGSIZE * (u + 1) -> PGSIZE * u < va + Z.of_nat (length p) -> exists e, P !! u = Some e /\ user_ok e) ->
  exists k', copyout d va p k = Ok 0 k' /\ world k' L own /\ aspace k' own d T P /\
    forall u e x, P !! u = Some e -> u < UVPN -> 0 <= x < PGSIZE -> kdata k' (frame e + x) = overlaid p va u x (kdata k (frame e + x)).
Proof. intros. apply (copyout_loop_run _ k L own d T P); try done. lia. Qed.

(** ** Witnesses: the kernel after kinit *)

Lemma user_word_ok e : user_word e -> user_ok e.
Proof.
  intros E. unfold user_ok, truth. apply negb_true_iff, Z.eqb_neq. intros H0.
  assert (Hb : Z.testbit (Z.land e PTE_U) 2 = true); [|by rewrite H0 in Hb].
  rewrite Z.land_spec. apply andb_true_iff. split; [|done]. rewrite E. unfold entry, UW. rewrite !Z.lor_spec. by rewrite orb_true_r.
Qed.

Lemma NoDup_frames p n : NoDup (frames p n).
Proof. apply NoDup_fmap_2_strong; [|apply NoDup_seq]. intros i j _ _ E. unfold PGSIZE in E. lia. Qed.

Lemma booted : exists k L, world k L ∅ /\ (5000 <= length L)%nat.
Proof.
  destruct (kinit_run (mkKmem false false 0 (fun _ => 0) 0x8010a5a0)) as (k & L & _ & Hk & _ & Ee & HL); [done|unfold KERNBASE, PGSIZE; simpl; lia|].
  cbn [kend] in Ee. exists k, L. split.
  - split; [done|by intros p r; rewrite lookup_empty..|by intros p d; rewrite lookup_empty|rewrite Ee; unfold KERNBASE; lia].
  - transitivity (length (frames 0x80200000 5000)); [unfold frames; by rewrite length_map, length_seq|].
    apply submseteq_length, NoDup_submseteq; [apply NoDup_frames|]. intros q Hq. apply HL. unfold frames in Hq. apply list_elem_of_fmap in Hq as (i & -> & Hi%elem_of_seq).
    unfold page_ok, PGSIZE, KERNBASE, PHYSTOP. simpl. split_and!; [|lia..]. Z.to_euclidean_division_equations. lia.
Qed.

(** A space with four user pages and nothing else. *)
Lemma booted_space : exists k L own d T P,
  world k L own /\ aspace k own d T P /\ uspace own d P /\ (2000 <= length L)%nat /\
  (forall u, 0 <= u < 4 -> exists e, P !! u = Some e /\ user_ok e) /\ (forall u, 4 <= u < UVPN -> P !! u = None).
Proof.
  destruct booted as (k & L & Hw & HL). assert (Hd : data_ok 0x80108000) by (unfold data_ok, KERNLINK, EXTMEM, KERNBASE, PHYSTOP; split; [done|lia]).
  destruct (setupkvm_run 0x80108000 k L ∅ Hw Hd) as (d & k1 & L1 & o1 & _ & Hw1 & [(_ & Hl & _)|(Hd0 & _ & _ & _ & Hu1 & T1 & Ha1 & Hl)]); [lia|].
  pose proof (size_tables _ _ _ _ _ Ha1) as Hs.
  destruct (allocuvm_loop_run 10 k1 L1 o1 d T1 (kern_map 0x80108000) 0 0 (4 * PGSIZE) Hw1 Ha1 Hu1) as (k2 & L2 & o2 & T2 & P2 & _ & Hw2 & Ha2 & Hu2 & Hg & Hcnt & Hout & Hin).
  - lia.
  - unfold PGSIZE, KERNBASE. lia.
  - change (pages (4 * PGSIZE)) with 4. lia.
  - intros u Hu. change (pages (4 * PGSIZE)) with 4 in Hu. apply kern_map_user; [by apply kmap_segs|unfold UVPN; lia].
  - change (pages (4 * PGSIZE)) with 4. lia.
  - exists k2, L2, o2, d, T2, P2. change (pages (4 * PGSIZE)) with 4 in *. split_and!; try done.
    + pose proof (size_tables _ _ _ _ _ Ha2). lia.
    + intros u Hu. destruct (Hin u Hu) as (e & He & Hw' & _). exists e. split; [done|by apply user_word_ok].
    + intros u Hu. rewrite Hout by lia. apply kern_map_user; [by apply kmap_segs|lia].
Qed.

Lemma copyuvm_correct_witness : exists k d c k' own' Tc Pc,
  copyuvm 0x80108000 d (4 * PGSIZE) k = Ok c k' /\ c <> 0 /\ aspace k' own' c Tc Pc /\ is_Some (Pc !! 3).
Proof.
  destruct booted_space as (k & L & own & d & T & P & Hw & Ha & Hu & Hl & HP & _).
  destruct (copyuvm_correct 0x80108000 k L own d T P (4 * PGSIZE) Hw Ha Hu) as (c & k' & L' & o' & E & Hw' & _ & _ & _ & [[_ Hlt]|(Hc & Tc & Pc & Hac & _ & _ & Hin)]).
  - unfold data_ok, KERNLINK, EXTMEM, KERNBASE, PHYSTOP. split; [done|lia].
  - unfold PGSIZE, KERNBASE. lia.
  - change (pages (4 * PGSIZE)) with 4. intros u Hu'. destruct (HP u Hu') as (e & He & _). by exists e.
  - change (pages (4 * PGSIZE)) with 4 in Hlt. lia.
  - exists k, d, c, k', o', Tc, Pc. split; [exact E|]. split.
    + intros ->. pose proof (as_dir _ _ _ _ _ Hac) as H0. apply (world_page _ _ _ _ _ Hw') in H0. apply page_range in H0. lia.
    + split; [exact Hac|]. destruct (Hin 3) as (_ & e' & _ & He' & _); [by split|]. by exists e'.
Defined.

Lemma freevm_correct_witness : exists k d k' L' p, freevm d k = Ok tt k' /\ kinv k' L' /\ p ∈ L' /\ p <> 0.
Proof.
  destruct booted_space as (k & L & own & d & T & P & Hw & Ha & Hu & _ & _ & _).
  destruct (freevm_correct k L own d T P Hw Ha Hu) as (k' & L' & o' & E & Hw' & _ & HL & _). exists k, d, k', L', d.
  split; [exact E|]. split; [exact (wo_inv _ _ _ Hw')|]. split.
  - apply HL. right. exists (RDir d). split; [apply Ha|done].
  - pose proof (world_page _ _ _ _ _ Hw (as_dir _ _ _ _ _ Ha)) as H0. apply page_range in H0. lia.
Defined.

Lemma allocuvm_correct_witness : exists k d k' own' T' P', allocuvm d (4 * PGSIZE) (6 * PGSIZE) k = Ok (6 * PGSIZE) k' /\ aspace k' own' d T' P' /\ is_Some (P' !! 5).
Proof.
  destruct booted_space as (k & L & own & d & T & P & Hw & Ha & Hu & Hl & _ & HP).
  assert (E4 : pages (4 * PGSIZE) = 4) by done. assert (E6 : pages (6 * PGSIZE) = 6) by done.
  pose proof (allocuvm_correct k L own d T P (4 * PGSIZE) (6 * PGSIZE) Hw Ha Hu) as A. rewrite E4, E6 in A.
  destruct A as (k' & L' & o' & T' & P' & E & _ & Ha' & _ & _ & Hin & _).
  - unfold PGSIZE, KERNBASE. lia.
  - unfold PGSIZE. lia.
  - intros u Hu'. apply HP. unfold UVPN. lia.
  - lia.
  - exists k, d, k', o', T', P'. split; [exact E|]. split; [exact Ha'|]. destruct (Hin 5) as (e & He & _); [by split|]. by exists e.
Defined.

Lemma copyout_correct_witness : exists k own d T (P : gmap Z Z) k' e,
  aspace k own d T P /\ copyout d (PGSIZE - 1) [65; 66] k = Ok 0 k' /\ P !! 1 = Some e /\ kdata k' (frame e + 0) = 66.
Proof.
  destruct booted_space as (k & L & own & d & T & P & Hw & Ha & Hu & _ & HP & _).
  destruct (copyout_correct k L own d T P (PGSIZE - 1) [65; 66] Hw Ha Hu) as (k' & E & _ & _ & Hb).
  - unfold PGSIZE. lia.
  - unfold PGSIZE, KERNBASE. simpl. lia.
  - intros u H1 H2. apply HP. unfold PGSIZE in *. simpl in H2. lia.
  - destruct (HP 1) as (e & He & _); [by split|]. exists k, own, d, T, P, k', e. split; [exact Ha|]. split; [exact E|]. split; [exact He|].
    rewrite (Hb 1 e 0 He); [done|done|by split].
Defined.

(** Allocuvm() ignores the result of mappages().  In a consistent kernel
    with one free page left and no page table for the address, it reports
    success although no page is mapped; the page it took is neither free nor
    part of any space any more. *)
Theorem allocuvm_leaves_hole :
  exists k p own d T, world k [p] own /\ aspace k own d T ∅ /\ uspace own d ∅ /\
    exists k' own' T', allocuvm d 0 PGSIZE k = Ok PGSIZE k' /\ world k' [] own' /\ aspace k' own' d T' ∅ /\ own' !! p = None.
Proof.
  set (k0 := mkKmem false true 0x80102000 (store32 (fun _ => 0) 0x80102000 0x80101000) 0x80101000).
  assert (Hk0 : kinv k0 [0x80102000; 0x80101000]).
  { split; [done|done|vm_compute; split_and!; [done|done|done|done|done]| |].
    - do 2 (constructor; [split; [done|unfold KERNBASE, PHYSTOP; simpl; lia]|]). constructor.
    - apply (bool_decide_unpack _). vm_compute. done. }
  assert (Hw0 : world k0 [0x80102000; 0x80101000] ∅).
  { split; [done|by intros p r; rewrite lookup_empty..|by intros p d; rewrite lookup_empty|unfold KERNBASE, k0; simpl; lia]. }
  destruct (kalloc_page k0 _ Hk0) as (k1 & _ & Hk1 & _ & _ & Ed & _ & Ee).
  destruct (new_directory k0 _ ∅ 0x80102000 k1 Hw0 Hk1 Ed Ee) as (Hw & Ha & Hu & _).
  set (k := set_kdata _ k1) in *. set (own := <[0x80102000 := RDir 0x80102000]> ∅) in *. set (d := 0x80102000) in *. set (p := 0x80101000) in *.
  exists k, p, own, d, ∅. split; [exact Hw|]. split; [exact Ha|]. split; [exact Hu|].
  unfold allocuvm. change (KERNBASE <=? PGSIZE) with false. change (PGSIZE <? 0) with false. cbn iota. change (PGROUNDUP 0) with (PGSIZE * 0).
  change (Z.to_nat (PGSIZE / PGSIZE + 1)) with 2%nat. cbn [allocuvm_loop]. change (PGSIZE * 0 <? PGSIZE) with true. cbn iota.
  destruct (kalloc_page k _ (wo_inv _ _ _ Hw)) as (k2 & E2 & Hk2 & _ & _ & Ed2 & _ & Ee2). mstep E2. change (p =? 0) with false. cbn iota.
  unfold zero_page. mrun1. rewrite Ed2.
  destruct (user_map k [] own d ∅ ∅ p 0 k2 (memset (kdata k) p 0 PGSIZE) Hw Ha Hu) as (r & k' & L' & o' & T' & E & Hc); [by split|done|done|done|done|apply zero_page_frame|].
  mstep E. destruct Hc as [(-> & _ & Ha' & _ & _ & _ & Hcnt)|(-> & -> & Hpo & _ & Hw' & Ha' & _)].
  - exfalso. destruct (as_map _ _ _ _ _ Ha' 0 (entry (v2p p) (Z.lor PTE_W PTE_U))) as (_ & [t Ht] & _); [apply lookup_insert_eq|].
    rewrite map_size_empty in Hcnt. cbn [length] in Hcnt. assert (HT : size T' = 0%nat) by lia. apply map_size_empty_iff in HT. rewrite HT, lookup_empty in Ht. done.
  - change (PGSIZE * 0 ⊕ PGSIZE) with PGSIZE. change (PGSIZE <? PGSIZE) with false. cbn iota. exists k', o', T'. split; [reflexivity|]. split; [exact Hw'|]. split; [exact Ha'|exact Hpo].
Qed.

(** uva2ka() follows the pointer that walkpgdir() returns without looking
    whether it is null: for an address of a user program with no page table it
    reads through address 0. *)
Theorem uva2ka_null_entry k L own d T P va :
  world k L own -> aspace k own d T P -> 0 <= va < KERNBASE -> T !! (va / PGSIZE / 1024) = None -> uva2ka d va k = Stop (SUndef "*pte") k.
Proof.
  intros Hw Ha Hva HT. unfold uva2ka. pose proof (walk_find _ _ _ _ _ _ va false Hw Ha ltac:(unfold KERNBASE in *; lia)) as Hf. rewrite HT in Hf. by mstep Hf.
Qed.
