(* ===== verification/Mp.v ===== *)
(** * mp.c: finding the processors; cpunum and ioapicinit

    src/mp.c over the memory of the machine and the console it prints to, with
    cpunum of src/lapic.c and ioapicinit of src/ioapic.c, which print too.
    The table of processors the BIOS leaves in memory is read byte by byte.

    [mpinit_correct] relates the loop over the table to the list of entries it
    encodes; [mpinit_hangs] shows what an entry of another type does. *)

From S2P Require Import Prelude Str Spinlock Kalloc Vm Devices Console Tty.

Definition NCPU : nat := 8.
Definition MPBOOT : Z := 2.
Definition MPPROC : Z := 0.
Definition MPBUS : Z := 1.
Definition MPIOAPIC : Z := 2.
Definition MPIOINTR : Z := 3.
Definition MPLINTR : Z := 4.
Definition sizeof_mp : Z := 16.
Definition sizeof_mpconf : Z := 44.
Definition sizeof_mpproc : Z := 20.
Definition sizeof_mpioapic : Z := 8.
Definition load16 (m : mem) (a : Z) : Z := m a + 2 ^ 8 * m (a + 1).
(** struct mp and struct mpconf at an address *)
Definition mp_physaddr (m : mem) (p : Z) : Z := load32 m (p + 4).
Definition mp_imcrp (m : mem) (p : Z) : Z := m (p + 12).
Definition conf_length (m : mem) (p : Z) : Z := load16 m (p + 4).
Definition conf_version (m : mem) (p : Z) : Z := m (p + 6).
Definition conf_lapicaddr (m : mem) (p : Z) : Z := load32 m (p + 36).

Definition sum (m : mem) (addr : Z) (len : nat) : Z := u8 (fold_left Z.add (bytes m addr len) 0).
Definition MP_sig : list Z := [95; 77; 80; 95].
Definition PCMP_sig : list Z := [80; 67; 77; 80].
Fixpoint mpsearch1_loop (m : mem) (p : Z) (n : nat) : option Z :=
  match n with
  | O => None
  | S n =>
      if (memcmp (at_ m p) (of_list MP_sig) 4 =? 0) && (sum m p (Z.to_nat sizeof_mp) =? 0) then Some p
      else mpsearch1_loop m (p + sizeof_mp) n
  end.
Definition mpsearch1 (m : mem) (a len : Z) : option Z := mpsearch1_loop m (p2v a) (Z.to_nat ((len + sizeof_mp - 1) / sizeof_mp)).
Definition mpsearch (m : mem) : option Z :=
  let bda := p2v 0x400 in
  let p := Z.shiftl (Z.lor (Z.shiftl (m (bda + 0x0F)) 8) (m (bda + 0x0E))) 4 in
  let r :=
    if truth p then mpsearch1 m p 1024
    else
      let p := Z.lor (Z.shiftl (m (bda + 0x14)) 8) (m (bda + 0x13)) * 1024 in
      mpsearch1 m (u32 (p - 1024)) 1024 in
  match r with Some mp => Some mp | None => mpsearch1 m 0xF0000 0x10000 end.
(** The configuration table and the floating pointer. *)
Definition mpconfig (m : mem) : option (Z * Z) :=
  match mpsearch m with
  | None => None
  | Some mp =>
      if mp_physaddr m mp =? 0 then None
      else
        let conf := p2v (mp_physaddr m mp) in
        if negb (memcmp (at_ m conf) (of_list PCMP_sig) 4 =? 0) then None
        else if negb (conf_version m conf =? 1) && negb (conf_version m conf =? 4) then None
        else if negb (sum m conf (Z.to_nat (conf_length m conf)) =? 0) then None
        else Some (conf, mp)
  end.

Record mpst {D : Type} := mkMp {
  con : console D;
  cpu_id : list Z;     (** cpus[].id *)
  bcpu : nat;          (** the index of bcpu in cpus *)
  if_calls : Z;        (** n of cpunum *)
}.
Arguments mpst : clear implicits.

Section Mp.
Context {D : Type} `{!Ports D}.
Notation mpst := (mpst D).
Definition set_con v (s : mpst) : mpst := mkMp _ v (cpu_id s) (bcpu s) (if_calls s).
Definition set_cpu_id v (s : mpst) : mpst := mkMp _ (con s) v (bcpu s) (if_calls s).
Definition set_bcpu v (s : mpst) : mpst := mkMp _ (con s) (cpu_id s) v (if_calls s).
Definition set_if_calls v (s : mpst) : mpst := mkMp _ (con s) (cpu_id s) (bcpu s) v.
Definition cons_ {A} (m : M (console D) A) : M mpst A := zoom con set_con m.
Definition dev_ {A} (m : M (dv D) A) : M mpst A := cons_ (device m).
Definition getd : M mpst (dv D) := gets (fun s => dev (con s)).

Definition mpbcpu : M mpst nat := gets bcpu.

(** The loop over the entries from [p] to [e]. *)
Fixpoint mpinit_loop (fuel : nat) (p e : Z) : M mpst unit :=
  match fuel with
  | O => halt SFuel
  | S fuel =>
      if negb (p <? e) then mret tt
      else
        d ← getd;
        let m := pmem d in
        if m p =? MPPROC then
          let apicid := m (p + 1) in
          (if negb (ncpu d =? apicid) then
             cons_ (cprintf (Some (lit "mpinit: ncpu=%d apicid=%d" ++ newline)) [KInt (ncpu d); KInt apicid]);;
             dev_ (modify (set_ismp false))
           else mret tt);;
          when (truth (Z.land (m (p + 3)) MPBOOT)) (modify (set_bcpu (Z.to_nat (ncpu d))));;
          s ← get;
          _ ← deref "cpus[ncpu]" (cpu_id s !! Z.to_nat (ncpu d));
          modify (fun s => set_cpu_id (<[Z.to_nat (ncpu d) := ncpu d]> (cpu_id s)) s);;
          dev_ (modify (set_ncpu (ncpu d + 1)));;
          mpinit_loop fuel (p + sizeof_mpproc) e
        else if m p =? MPIOAPIC then
          dev_ (modify (set_ioapicid (m (p + 1))));;
          mpinit_loop fuel (p + sizeof_mpioapic) e
        else if (m p =? MPBUS) || (m p =? MPIOINTR) || (m p =? MPLINTR) then mpinit_loop fuel (p + 8) e
        else
          cons_ (cprintf (Some (lit "mpinit: unknown config type %x" ++ newline)) [KInt (m p)]);;
          dev_ (modify (set_ismp false));;
          mpinit_loop fuel p e
  end.
Definition mpinit (fuel : nat) : M mpst unit :=
  modify (set_bcpu 0);;
  d ← getd;
  match mpconfig (pmem d) with
  | None => mret tt
  | Some (conf, mp) =>
      dev_ (modify (set_ismp true));;
      dev_ (modify (set_lapic (conf_lapicaddr (pmem d) conf)));;
      mpinit_loop fuel (conf + sizeof_mpconf) (conf + conf_length (pmem d) conf);;
      d ← getd;
      if negb (ismp d) then
        dev_ (modify (set_ncpu 1));; dev_ (modify (set_lapic 0));; dev_ (modify (set_ioapicid 0))
      else
        when (truth (mp_imcrp (pmem d) mp))
          (dev_ (outb 0x22 0x70);;
           v ← dev_ (inb 0x23);
           dev_ (outb 0x23 (Z.lor v 1)))
  end.

(** [cpunum], called from [ra] with the interrupt flag [ifl]. *)
Definition cpunum (ifl : bool) (ra : Z) : M mpst Z :=
  (if ifl then
     n ← gets if_calls;
     modify (set_if_calls (i32 (n + 1)));;
     when (n =? 0) (cons_ (cprintf (Some (lit "cpu called from %x with interrupts enabled" ++ newline)) [KInt ra]))
   else mret tt);;
  d ← getd;
  if negb (lapic d =? 0) then v ← dev_ (lapicr L_ID); mret (Z.shiftr v 24) else mret 0.

Definition IOAPIC : Z := 0xFEC00000.
Definition REG_ID : Z := 0.
Definition REG_VER : Z := 1.
Definition INT_DISABLED : Z := 0x00010000.
Definition ioapicinit : M mpst unit :=
  d ← getd;
  if negb (ismp d) then mret tt
  else
    dev_ (modify (set_ioapic IOAPIC));;
    v ← dev_ (ioapicread REG_VER);
    let maxintr := Z.land (Z.shiftr v 16) 0xFF in
    v ← dev_ (ioapicread REG_ID);
    let id := Z.shiftr v 24 in
    when (negb (id =? ioapicid d)) (cons_ (cprintf (Some (lit "ioapicinit: id isn't equal to ioapicid; not a MP" ++ newline)) []));;
    mfor (seq 0 (S (Z.to_nat maxintr))) (fun i =>
      dev_ (ioapicwrite (REG_TABLE + 2 * Z.of_nat i) (Z.lor INT_DISABLED (T_IRQ0 + Z.of_nat i)));;
      dev_ (ioapicwrite (REG_TABLE + 2 * Z.of_nat i + 1) 0)).

(** ** Printing *)

(** The arguments are those the format asks for. *)
Fixpoint typed (fmt : list Z) (pct : bool) (args : list karg) : bool :=
  match fmt with
  | [] => true
  | c :: fmt =>
      if c =? 0 then true
      else if negb pct then typed fmt (c =? 37) args
      else if (c =? 100) || ((c =? 120) || (c =? 112)) then
        match args with KInt _ :: args => typed fmt false args | _ => false end
      else if c =? 115 then match args with KStr _ :: args => typed fmt false args | _ => false end
      else typed fmt false args
  end.
Lemma quiet_cprintf I : undisturbed I -> forall fmt pct args, typed fmt pct args = true -> quiet I (cprintf_loop fmt pct args).
Proof.
  intros HI. induction fmt as [|c fmt IH]; intros pct args; cbn [typed cprintf_loop]; [intros _; apply quiet_ret|].
  destruct (c =? 0); [intros _; apply quiet_ret|]. destruct pct; cbn [negb].
  - destruct (c =? 100); cbn [orb]; [|destruct ((c =? 120) || (c =? 112))]; [| |destruct (c =? 115)].
    1,2: destruct args as [|[x|o] args]; [done| |done]; intros Ht; apply quiet_bind; [by apply quiet_printint|auto].
    + destruct args as [|[x|o] args]; [done|done|]. intros Ht. apply quiet_bind; [by apply quiet_str|auto].
    + intros Ht. destruct (c =? 37); repeat (apply quiet_bind; [by apply quiet_consputc|intros _]); auto.
  - intros Ht. destruct (c =? 37); [auto|]. apply quiet_bind; [by apply quiet_consputc|auto].
Qed.

(** The state without the hardware: the drivers' variables, the processors. *)
Record st (s : mpst) (d : dv D) (ids : list Z) (b : nat) : Prop := {
  st_panic : panicked (con s) = false;
  st_lock : cons_lock (con s) = false;
  st_dev : exists h, dev (con s) = set_hw h d;
  st_ids : cpu_id s = ids;
  st_bcpu : bcpu s = b;
}.
Definition keeps (d0 d : dv D) : Prop := exists h, d = set_hw h d0.
Lemma keeps_undisturbed d0 : undisturbed (keeps d0).
Proof. split; [intros d p v _ [h ->]|intros d p v h _ _ [h' ->]]; by eexists. Qed.
Lemma st_print s d ids b fmt args : st s d ids b -> typed fmt false args = true ->
  exists s', cons_ (cprintf (Some fmt) args) s = Ok tt s' /\ st s' d ids b.
Proof.
  intros [Hp Hl [h Hd] Hi Hb] Ht. destruct (cprintf_free (keeps d) fmt args (con s)) as (c & E & (d' & f & -> & Hk)); [|done..|].
  { apply quiet_cprintf; [apply keeps_undisturbed|done]. }
  unfold cons_, zoom. rewrite E. eexists. split; [done|]. split; try done. apply Hk. by exists h.
Qed.
Lemma st_modify s d ids b f : (forall h, f (set_hw h d) = set_hw h (f d)) -> st s d ids b ->
  exists s', dev_ (modify f) s = Ok tt s' /\ st s' (f d) ids b.
Proof. intros Hf [Hp Hl [h Hd] Hi Hb]. eexists. split; [done|]. split; try done. exists h. cbn. by rewrite Hd. Qed.
Lemma st_getd s d ids b : st s d ids b -> exists h, getd s = Ok (set_hw h d) s.
Proof. intros [_ _ [h Hd] _ _]. exists h. unfold getd, gets. by rewrite Hd. Qed.

(** ** The table *)

Inductive entry :=
| EProc (apicid version flags : Z) (rest : list Z)
| EIoapic (apicno : Z) (rest : list Z)
| EOther (ty : Z) (rest : list Z).    (** bus, interrupt source *)
Definition wf_entry (e : entry) : Prop :=
  match e with
  | EProc _ _ _ r => length r = 16%nat
  | EIoapic _ r => length r = 6%nat
  | EOther ty r => (ty = MPBUS \/ ty = MPIOINTR \/ ty = MPLINTR) /\ length r = 7%nat
  end.
Definition enc (e : entry) : list Z :=
  match e with
  | EProc i v f r => MPPROC :: i :: v :: f :: r
  | EIoapic n r => MPIOAPIC :: n :: r
  | EOther ty r => ty :: r
  end.
(** The processors of a table, with their flags. *)
Definition procs (es : list entry) : list (Z * Z) := omap (fun e => match e with EProc i _ f _ => Some (i, f) | _ => None end) es.
Definition ioapics (es : list entry) : list Z := omap (fun e => match e with EIoapic n _ => Some n | _ => None end) es.
(** The index of the last processor marked as the boot processor. *)
Fixpoint boot_of (ps : list (Z * Z)) (n b : nat) : nat :=
  match ps with [] => b | (_, f) :: ps => boot_of ps (S n) (if truth (Z.land f MPBOOT) then n else b) end.
Definition table_of (es : list entry) : list Z := concat (map enc es).
(** What the entries up to here have left: [n] processors before them. *)
Record scanned (m : mem) (la : Z) (es : list entry) (n : nat) (mp0 : bool) (io0 : Z) (d : dv D) (ids : list Z) : Prop := {
  sc_pmem : pmem d = m;
  sc_lapic : lapic d = la;
  sc_ncpu : ncpu d = Z.of_nat (n + length (procs es));
  sc_ismp : ismp d = mp0 && bool_decide ((procs es).*1 = seqZ (Z.of_nat n) (Z.of_nat (length (procs es))));
  sc_io : ioapicid d = default io0 (last (ioapics es));
  sc_len : length ids = NCPU;
  sc_ids : forall i, (i < n + length (procs es))%nat -> ids !! i = Some (Z.of_nat i);
}.
Lemma scanned_nil m la n mp0 d ids : pmem d = m -> lapic d = la -> ncpu d = Z.of_nat n -> ismp d = mp0 -> length ids = NCPU ->
  (forall i, (i < n)%nat -> ids !! i = Some (Z.of_nat i)) -> scanned m la [] n mp0 (ioapicid d) d ids.
Proof. intros. split; try done; cbn; rewrite ?Nat.add_0_r; try done. by rewrite andb_true_r. Qed.
Lemma enc_length e : wf_entry e -> Z.of_nat (length (enc e)) = match e with EProc _ _ _ _ => sizeof_mpproc | _ => 8 end.
Proof. destruct e; cbn; unfold sizeof_mpproc; lia. Qed.


Section Entry.
Context (m : mem) (la : Z) (n : nat) (mp0 : bool) (s : mpst) (d : dv D) (ids : list Z) (b : nat) (fuel : nat) (p q : Z).
Context (Hst : st s d ids b) (Hsc : scanned m la [] n mp0 (ioapicid d) d ids) (Hpq : p < q).
Definition advances (e : entry) : Prop := exists s' d' ids',
  mpinit_loop (S fuel) p q s = mpinit_loop fuel (p + Z.of_nat (length (enc e))) q s' /\
  st s' d' ids' (boot_of (procs [e]) n b) /\ scanned m la [e] n mp0 (ioapicid d) d' ids'.

Lemma ioapic_run i r : wf_entry (EIoapic i r) -> lies_at m p (enc (EIoapic i r)) -> advances (EIoapic i r).
Proof.
  intros Hwf Hh. unfold advances. rewrite (enc_length _ Hwf). cbn [mpinit_loop]. rewrite (proj2 (Z.ltb_lt p q) Hpq). cbn [negb].
  destruct (st_getd _ _ _ _ Hst) as [h E]. mstep E. cbn [set_hw pmem ncpu]. destruct Hsc as [Hm Hla Hnc Hmp _ Hlen Hids]. rewrite Hm.
  cbn [enc] in Hh. rewrite !lies_cons in Hh. destruct Hh as (-> & -> & _). cbn [Z.eqb Pos.eqb MPIOAPIC MPPROC].
  destruct (st_modify s d ids b (set_ioapicid i)) as (s1 & E1 & H1); [done..|]. mstep E1. exists s1, (set_ioapicid i d), ids. split; [done|]. split; [done|by split].
Qed.
Lemma other_run ty r : wf_entry (EOther ty r) -> lies_at m p (enc (EOther ty r)) -> advances (EOther ty r).
Proof.
  intros Hwf Hh. unfold advances. rewrite (enc_length _ Hwf). cbn [mpinit_loop]. rewrite (proj2 (Z.ltb_lt p q) Hpq). cbn [negb].
  destruct (st_getd _ _ _ _ Hst) as [h E]. mstep E. cbn [set_hw pmem ncpu]. rewrite (sc_pmem _ _ _ _ _ _ _ _ Hsc).
  cbn [enc] in Hh. rewrite !lies_cons in Hh. destruct Hh as [-> _]. exists s, d, ids. split; [|by split; [|destruct Hsc; split]].
  destruct Hwf as [[-> | [-> | ->]] _]; done.
Qed.
Lemma proc_run i v f r : (n < NCPU)%nat -> wf_entry (EProc i v f r) -> lies_at m p (enc (EProc i v f r)) -> advances (EProc i v f r).
Proof.
  intros Hn Hwf Hh. unfold advances. rewrite (enc_length _ Hwf). cbn [mpinit_loop]. rewrite (proj2 (Z.ltb_lt p q) Hpq). cbn [negb].
  destruct (st_getd _ _ _ _ Hst) as [h E]. mstep E. cbn [set_hw pmem ncpu]. destruct Hsc as [Hm Hla Hnc Hmp _ Hlen Hids]. rewrite Hm.
  cbn [procs omap length] in Hnc, Hids. rewrite Nat.add_0_r in Hnc, Hids. cbn in Hmp. rewrite andb_true_r in Hmp.
  cbn [enc] in Hh. rewrite !lies_cons in Hh. replace (p + 1 + 1 + 1) with (p + 3) in Hh by lia. destruct Hh as (-> & -> & _ & -> & _).
  set (d1 := if negb (ncpu d =? i) then set_ismp false d else d).
  assert (H1 : exists s1, (if negb (ncpu d =? i) then cons_ (cprintf (Some (lit "mpinit: ncpu=%d apicid=%d" ++ newline)) [KInt (ncpu d); KInt i]);; dev_ (modify (set_ismp false)) else mret tt) s = Ok tt s1 /\ st s1 d1 ids b).
  { unfold d1. destruct (negb (ncpu d =? i)); [|by exists s]. edestruct (st_print s d ids b) as (s1 & E1 & H1); [done| |mstep E1; by apply (st_modify s1 d ids b (set_ismp false))]. done. }
  destruct H1 as (s1 & E1 & H1). cbn [Z.eqb MPPROC]. mstep E1. cbn beta.
  assert (H2 : exists s2, when (truth (Z.land f MPBOOT)) (modify (set_bcpu (Z.to_nat (ncpu d)))) s1 = Ok tt s2 /\ st s2 d1 ids (if truth (Z.land f MPBOOT) then n else b)).
  { destruct (truth _); [|by exists s1]. eexists. split; [done|]. destruct H1; split; try done. cbn. by rewrite Hnc, Nat2Z.id. }
  destruct H2 as (s2 & E2 & H2). mstep E2. cbn beta. mrun1. cbn beta. rewrite (st_ids _ _ _ _ H2), Hnc, Nat2Z.id.
  destruct (lookup_lt_is_Some_2 ids n) as [x Hx]; [lia|]. rewrite Hx. cbn [deref]. mrun1. mrun1.
  destruct (st_modify (set_cpu_id (<[n := Z.of_nat n]> (cpu_id s2)) s2) d1 (<[n := Z.of_nat n]> ids) (if truth (Z.land f MPBOOT) then n else b) (set_ncpu (Z.of_nat n + 1))) as (s3 & E3 & H3); [done|by destruct H2; split; cbn; [..|congruence|]|].
  mstep E3. eexists s3, _, _. split; [done|]. split; [exact H3|]. unfold d1. clear - Hm Hla Hnc Hmp Hlen Hids Hx.
  assert (Hi : (if negb (ncpu d =? i) then set_ismp false d else d) = set_ismp (mp0 && bool_decide (i = Z.of_nat n)) d).
  { rewrite Hnc, <- Hmp. destruct (Z.eqb_spec (Z.of_nat n) i) as [->|Hne]; cbn [negb]; [rewrite bool_decide_true, andb_true_r by done; by destruct d|by rewrite bool_decide_false, andb_false_r by done]. }
  rewrite Hi. split; cbn; try done; [lia| |by rewrite length_insert|].
  - f_equal. apply bool_decide_ext. change (seqZ (Z.of_nat n) (Z.of_nat 1)) with [Z.of_nat n]. split; [by intros ->|congruence].
  - intros j Hj. destruct (decide (j = n)) as [->|]; [apply list_lookup_insert_eq; by eapply lookup_lt_Some|rewrite list_lookup_insert_ne by done; apply Hids; lia].
Qed.
End Entry.

Lemma mp_entry_run m la n mp0 s d ids b fuel p q e : st s d ids b -> scanned m la [] n mp0 (ioapicid d) d ids -> p < q -> wf_entry e ->
  (n + length (procs [e]) <= NCPU)%nat -> lies_at m p (enc e) -> advances m la n mp0 s d b fuel p q e.
Proof.
  intros Hst Hsc Hpq Hwf Hn Hh. destruct e as [i v f r|i r|ty r]; [|by eapply ioapic_run|by eapply other_run].
  eapply proc_run; try done. cbn in Hn. lia.
Qed.

(** Scans compose. *)
Lemma procs_cons e es : procs (e :: es) = procs [e] ++ procs es.
Proof. unfold procs. by destruct e. Qed.
Lemma ioapics_cons e es : ioapics (e :: es) = ioapics [e] ++ ioapics es.
Proof. unfold ioapics. by destruct e. Qed.
Lemma boot_of_app ps ps' n b : boot_of (ps ++ ps') n b = boot_of ps' (n + length ps) (boot_of ps n b).
Proof.
  revert n b. induction ps as [|[i f] ps IH]; intros n b; cbn; [by rewrite Nat.add_0_r|]. rewrite IH. by replace (S n + length ps)%nat with (n + S (length ps))%nat by lia.
Qed.
Lemma scanned_cons m la e es n mp0 io0 d ids d' ids' : scanned m la [e] n mp0 io0 d ids ->
  scanned m la es (n + length (procs [e])) (ismp d) (ioapicid d) d' ids' -> scanned m la (e :: es) n mp0 io0 d' ids'.
Proof.
  intros [] []. split; rewrite ?(procs_cons e es), ?(ioapics_cons e es), ?length_app; try done.
  - rewrite sc_ncpu1. f_equal. lia.
  - rewrite sc_ismp1, sc_ismp0, <- andb_assoc. f_equal. rewrite fmap_app, !Nat2Z.inj_add, seqZ_app by lia. rewrite <- bool_decide_and.
    apply bool_decide_ext. split; [by intros [-> ->]|]. intros E. apply app_inj_1 in E; [done|]. by rewrite length_fmap, length_seqZ, Nat2Z.id.
  - rewrite last_app, sc_io1. destruct (last (ioapics es)); [done|]. cbn. by rewrite sc_io0.
  - intros i Hi. apply sc_ids1. lia.
Qed.
Lemma scanned_restart m la es n mp0 io0 d ids : scanned m la es n mp0 io0 d ids -> scanned m la [] (n + length (procs es)) (ismp d) (ioapicid d) d ids.
Proof. intros []. by apply scanned_nil. Qed.

Lemma loop_run m la es : forall n mp0 s d ids b fuel p q, st s d ids b -> scanned m la [] n mp0 (ioapicid d) d ids -> Forall wf_entry es ->
  (n + length (procs es) <= NCPU)%nat -> lies_at m p (table_of es) -> p + Z.of_nat (length (table_of es)) <= q ->
  exists s' d' ids', mpinit_loop (length es + fuel) p q s = mpinit_loop fuel (p + Z.of_nat (length (table_of es))) q s' /\
  st s' d' ids' (boot_of (procs es) n b) /\ scanned m la es n mp0 (ioapicid d) d' ids'.
Proof.
  induction es as [|e es IH]; intros n mp0 s d ids b fuel p q Hst Hsc Hwf Hn Hh Hq.
  { exists s, d, ids. cbn. by rewrite Z.add_0_r. }
  apply Forall_cons in Hwf as [We Wes]. unfold table_of in *. cbn [map concat] in *. rewrite length_app in *. apply lies_app in Hh as [He Hes].
  rewrite (procs_cons e es), length_app in Hn. pose proof (enc_length e We) as Hl.
  edestruct (mp_entry_run m la n mp0 s d ids b (length es + fuel) p q e) as (s1 & d1 & ids1 & E1 & H1 & S1); try done; [destruct e; unfold sizeof_mpproc in Hl; lia|lia|].
  cbn [length Nat.add]. rewrite E1.
  destruct (IH (n + length (procs [e]))%nat (ismp d1) s1 d1 ids1 (boot_of (procs [e]) n b) fuel (p + Z.of_nat (length (enc e))) q) as (s2 & d2 & ids2 & E2 & H2 & S2); try done; [by eapply scanned_restart|lia|lia|].
  exists s2, d2, ids2. rewrite E2. split; [f_equal; lia|]. rewrite (procs_cons e es), boot_of_app. split; [done|by eapply scanned_cons].
Qed.

(** The machine at boot: a configuration table with the entries [es], then [rest]. *)
Record bios (s : mpst) (es : list entry) (rest : list Z) (conf mp : Z) : Prop := {
  bi_st : panicked (con s) = false /\ cons_lock (con s) = false;
  bi_ncpu : ncpu (dev (con s)) = 0;
  bi_cpus : length (cpu_id s) = NCPU;
  bi_conf : mpconfig (pmem (dev (con s))) = Some (conf, mp);
  bi_len : conf_length (pmem (dev (con s))) conf = sizeof_mpconf + Z.of_nat (length (table_of es ++ rest));
  bi_table : lies_at (pmem (dev (con s))) (conf + sizeof_mpconf) (table_of es ++ rest);
  bi_wf : Forall wf_entry es;
  bi_room : (length (procs es) <= NCPU)%nat;
}.

(** mpinit up to the loop, and through the entries. *)
Lemma mpinit_scan s es rest conf mp fuel : bios s es rest conf mp ->
  let m := pmem (dev (con s)) in let la := conf_lapicaddr m conf in let q := conf + conf_length m conf in
  exists s' d' ids', st s' d' ids' (boot_of (procs es) 0 0) /\ scanned m la es 0 true (ioapicid (dev (con s))) d' ids' /\
  mpinit (length es + fuel) s =
    (mpinit_loop fuel (conf + sizeof_mpconf + Z.of_nat (length (table_of es))) q;;
     d ← getd;
     if negb (ismp d) then dev_ (modify (set_ncpu 1));; dev_ (modify (set_lapic 0));; dev_ (modify (set_ioapicid 0))
     else when (truth (mp_imcrp (pmem d) mp)) (dev_ (outb 0x22 0x70);; v ← dev_ (inb 0x23); dev_ (outb 0x23 (Z.lor v 1)))) s'.
Proof.
  intros [[Hp Hl] Hn Hc Hconf Hlen Htab Hwf Hroom] m la q. apply lies_app in Htab as [Htab _]. rewrite length_app in Hlen.
  set (s1 := set_bcpu 0 s). set (d1 := set_lapic la (set_ismp true (dev (con s)))). set (s2 := set_con (set_dev d1 (con s)) s1).
  assert (H2 : st s2 d1 (cpu_id s) 0) by (split; try done; by exists (hw (dev (con s)))).
  destruct (loop_run m la es 0 true s2 d1 (cpu_id s) 0%nat fuel (conf + sizeof_mpconf) q) as (s3 & d3 & ids3 & E3 & H3 & S3); try done; [|unfold q, m; lia|].
  { apply scanned_nil; try done. intros i Hi. lia. }
  exists s3, d3, ids3. split; [done|]. split; [done|]. unfold mpinit. mrun. unfold getd. rewrite (bind_ok _ _ _ _ _ (gets_ok _ _)). cbn [con set_bcpu]. rewrite Hconf.
  change (dev_ (modify (set_ismp true)) s1) with (Ok (S := mpst) tt (set_con (set_dev (set_ismp true (dev (con s))) (con s)) s1)).
  rewrite (bind_ok _ _ s1 tt (set_con (set_dev (set_ismp true (dev (con s))) (con s)) s1)) by done. rewrite (bind_ok _ _ _ tt s2) by done.
  unfold mbind, M_bind. unfold q, m in E3. by rewrite E3.
Qed.

(** C34: On a machine whose BIOS describes up to NCPU processors, mpinit ends and
    has read the table: if the processors are numbered from 0 in their order,
    ncpu, the ids, the boot processor, the I/O APIC and the address of the
    local APIC are those of the table; otherwise it falls back to one
    processor without APICs. *)
Theorem mpinit_correct s es conf mp fuel : bios s es [] conf mp -> (length es < fuel)%nat ->
  let ps := procs es in let m := pmem (dev (con s)) in
  exists s', mpinit fuel s = Ok tt s' /\ let d := dev (con s') in
  if bool_decide (ps.*1 = seqZ 0 (Z.of_nat (length ps))) then
    ismp d = true /\ ncpu d = Z.of_nat (length ps) /\ bcpu s' = boot_of ps 0 0 /\ lapic d = conf_lapicaddr m conf /\
    ioapicid d = default (ioapicid (dev (con s))) (last (ioapics es)) /\ forall i, (i < length ps)%nat -> cpu_id s' !! i = Some (Z.of_nat i)
  else ismp d = false /\ ncpu d = 1 /\ lapic d = 0 /\ ioapicid d = 0.
Proof.
  intros Hb Hf ps m. destruct (mpinit_scan s es [] conf mp (fuel - length es) Hb) as (s1 & d1 & ids1 & H1 & [Hm Hla Hn Hmp Hio Hlen Hids] & E).
  replace (length es + (fuel - length es))%nat with fuel in E by lia. rewrite E. clear E. rewrite (bi_len _ _ _ _ _ Hb), app_nil_r.
  destruct (fuel - length es)%nat as [|n] eqn:En; [lia|]. cbn [mpinit_loop]. rewrite (proj2 (Z.ltb_ge _ _)) by lia. cbn [negb].
  rewrite (bind_ok _ _ _ _ _ (mret_ok _ _)). destruct H1 as [Hp Hl [h Hd] Hi Hb1]. unfold getd. rewrite (bind_ok _ _ _ _ _ (gets_ok _ _)), Hd.
  cbn [set_hw ismp]. rewrite Hmp. cbn [andb Nat.add]. fold ps in Hmp |- *. change (Z.of_nat 0) with 0 in *.
  destruct (decide (ps.*1 = seqZ 0 (Z.of_nat (length ps)))) as [He|He]; [rewrite (bool_decide_true _ He) in Hmp |- *|rewrite (bool_decide_false _ He) in Hmp |- *]; cbn [negb].
  - set (d2 := set_hw h d1) in *. assert (Hq : exists s', when (truth (mp_imcrp (pmem d2) mp)) (dev_ (outb 0x22 0x70);; v ← dev_ (inb 0x23); dev_ (outb 0x23 (Z.lor v 1))) s1 = Ok tt s' /\
      (exists h', dev (con s') = set_hw h' d1) /\ cpu_id s' = cpu_id s1 /\ bcpu s' = bcpu s1).
    { destruct (truth _); [|exists s1; split; [done|]; split; [by exists h|done]]. cbn [when]. unfold dev_, cons_, device, zoom, inb, outb, modify, mbind, M_bind. cbn [con set_con dev set_dev]. destruct (in_byte _ _) as [v h'] eqn:Ein. eexists. split; [reflexivity|]. cbn. rewrite Hd. split; [by eexists|done]. }
    destruct Hq as (s' & E & [h' Hd'] & Hc' & Hb'). exists s'. split; [exact E|]. rewrite Hd'. cbn. rewrite Hmp.
    split_and!; try done; [by rewrite Hb', Hb1|]. rewrite Hc', Hi. done.
  - eexists. split; [reflexivity|]. cbn. rewrite Hd. cbn. by rewrite Hmp.
Qed.

Lemma unknown_loops m p q : p < q -> m p ∉ [MPPROC; MPBUS; MPIOAPIC; MPIOINTR; MPLINTR] -> forall fuel s d ids b, st s d ids b -> pmem d = m ->
  exists s', mpinit_loop fuel p q s = Stop SFuel s'.
Proof.
  intros Hpq Hm. assert (Hne : m p <> 0 /\ m p <> 1 /\ m p <> 2 /\ m p <> 3 /\ m p <> 4) by (unfold MPPROC, MPBUS, MPIOAPIC, MPIOINTR, MPLINTR in Hm; set_solver).
  induction fuel as [|fuel IH]; intros s d ids b Hst Hd; [by eexists|]. cbn [mpinit_loop]. rewrite (proj2 (Z.ltb_lt p q) Hpq). cbn [negb].
  destruct (st_getd _ _ _ _ Hst) as [h E]. mstep E. cbn [set_hw pmem ncpu]. rewrite Hd. unfold MPPROC, MPBUS, MPIOAPIC, MPIOINTR, MPLINTR.
  rewrite !(proj2 (Z.eqb_neq (m p) _)) by apply Hne. cbn [orb].
  destruct (st_print s d ids b (lit "mpinit: unknown config type %x" ++ newline) [KInt (m p)]) as (s1 & E1 & H1); [done..|]. mstep E1.
  destruct (st_modify s1 d ids b (set_ismp false)) as (s2 & E2 & H2); [done..|]. mstep E2. by apply (IH s2 (set_ismp false d) ids b).
Qed.

(** An entry of any other type in the table hangs the boot: after the
    message mpinit looks at the same entry again, for ever. *)
Theorem mpinit_hangs s es ty rest conf mp fuel : bios s es (ty :: rest) conf mp -> ty ∉ [MPPROC; MPBUS; MPIOAPIC; MPIOINTR; MPLINTR] ->
  exists s', mpinit (length es + fuel) s = Stop SFuel s'.
Proof.
  intros Hb Hty. destruct (mpinit_scan s es (ty :: rest) conf mp fuel Hb) as (s1 & d1 & ids1 & H1 & Hsc & ->).
  destruct Hb as [_ _ _ _ Hlen Htab _ _]. apply lies_app in Htab as [_ Htab]. apply lies_cons in Htab as [Hm _]. rewrite Hlen, length_app. cbn [length].
  edestruct (unknown_loops (pmem (dev (con s)))) as [s' E]; [| |exact H1|apply (sc_pmem _ _ _ _ _ _ _ _ Hsc)|]; [| |erewrite (bind_stop _ _ _ _ _ E); by eexists]; [lia|by rewrite Hm].
Qed.
End Mp.

(** ** Witnesses *)

#[local] Instance silent : Ports unit := {
  in_byte p d := (0, d); out_byte p v d := d; in_words p n d := ([], d); out_words p x d := d; reg_read a d := (0, d); reg_write a v d := d;
}.
Definition store_list (m : mem) (a : Z) (l : list Z) : mem :=
  fun x => if (a <=? x) && (x <? a + Z.of_nat (length l)) then nth (Z.to_nat (x - a)) l 0 else m x.
(** Two processors, the second of them the boot processor, and an I/O APIC. *)
Definition demo_entries : list entry := [EProc 0 20 1 (replicate 16 0); EProc 1 20 3 (replicate 16 0); EIoapic 2 (replicate 6 0); EOther MPBUS (replicate 7 0)].
Definition checked (l : list Z) (i : nat) : list Z := <[i := u8 (- fold_left Z.add l 0)]> l.
Definition demo_table (rest : list Z) : list Z :=
  let n := Z.of_nat (44 + length (table_of demo_entries ++ rest)) in
  checked (PCMP_sig ++ [n; 0; 4; 0] ++ replicate 28 0 ++ [0; 0; 224; 254; 0; 0; 0; 0] ++ table_of demo_entries ++ rest) 7.
Definition demo_mem (rest : list Z) : mem :=
  store_list (store_list (fun _ => 0) (p2v 0xF0020) (checked (MP_sig ++ [0; 1; 15; 0; 1; 4; 0; 0; 0; 0; 0; 0]) 10)) (p2v 0xF0100) (demo_table rest).
Definition demo_boot (rest : list Z) : mpst unit :=
  mkMp _ (mkConsole _ (mkDv _ tt 0 0 false 0 0 0 false 0 (demo_mem rest)) false false false (fun _ => 0) false (replicate 128 0) 0 0 0 [] blank_fs) (replicate NCPU 0) 0 0.
Lemma demo_bios rest : rest = [] \/ rest = [9] -> bios (demo_boot rest) demo_entries rest (p2v 0xF0100) (p2v 0xF0020).
Proof.
  intros Hr. split; try (destruct Hr as [-> | ->]; vm_compute; done).
  - repeat constructor.
  - vm_compute. lia.
Qed.
Lemma mpinit_correct_witness : exists s', mpinit 5 (demo_boot []) = Ok tt s' /\ ismp (dev (con s')) = true /\ ncpu (dev (con s')) = 2 /\ bcpu s' = 1%nat /\ ioapicid (dev (con s')) = 2.
Proof.
  destruct (mpinit_correct (demo_boot []) demo_entries (p2v 0xF0100) (p2v 0xF0020) 5) as (s' & E & H); [apply demo_bios; by left|cbn; lia|].
  exists s'. split; [exact E|]. cbv zeta in H. rewrite bool_decide_true in H by (vm_compute; reflexivity).
  destruct H as (H1 & H2 & H3 & _ & H4 & _). split; [exact H1|]. split; [exact H2|]. split; [exact H3|exact H4].
Defined.
Lemma mpinit_hangs_witness : exists s', mpinit 104 (demo_boot [9]) = Stop SFuel s'.
Proof. apply (mpinit_hangs (demo_boot [9]) demo_entries 9 [] (p2v 0xF0100) (p2v 0xF0020) 100); [apply demo_bios; by right|set_solver]. Defined.
