(* ===== verification/Kern.v ===== *)
(** * The kernel as one process sees it; syscall.c

    [kern] puts the components together that a system call of the running
    process uses: the file system (Fs.v), the memory with the page tables
    (Kalloc.v, Vm.v), the table of open files (file.c), the pipes (Pipe.v) and
    the process itself (Proc.v).  System calls read and write user memory
    directly, through the page table of the process: an access to a page that
    is not present is a page fault in the kernel, which trap() answers with
    panic("trap").

    The argument functions of src/syscall.c follow. *)

From stdpp Require Import functions.
From S2P Require Import Prelude Str Spinlock Bytes Proc Pipe Kalloc Vm Disk Fs.

(** ** struct file *)
Inductive fdtype : Type := FD_NONE | FD_PIPE | FD_INODE.
Global Instance fdtype_eq : EqDecision fdtype.
Proof. solve_decision. Defined.

Record file := mkFile {
  f_type : fdtype; f_ref : Z; f_readable : bool; f_writable : bool;
  f_pipe : Z;       (** the address of the pipe *)
  f_ip : nat; f_off : Z;
}.
Definition set_f_ref v f := mkFile (f_type f) v (f_readable f) (f_writable f) (f_pipe f) (f_ip f) (f_off f).
Definition set_f_type v f := mkFile v (f_ref f) (f_readable f) (f_writable f) (f_pipe f) (f_ip f) (f_off f).
Definition set_f_off v f := mkFile (f_type f) (f_ref f) (f_readable f) (f_writable f) (f_pipe f) (f_ip f) v.
Definition set_f_pipe r w p f := mkFile FD_PIPE (f_ref f) r w p (f_ip f) (f_off f).
Definition set_f_inode r w ip f := mkFile FD_INODE (f_ref f) r w (f_pipe f) ip 0.

Definition NFILE : nat := 100.

Record kern := mkKern {
  k_fs : fsys;
  k_mem : kmem;
  k_ftlock : bool;
  k_ftable : list file;       (** NFILE entries *)
  k_pipes : gmap Z pipe;      (** the pipe in the page at an address *)
  k_proc : proc;              (** the running process *)
}.
Definition set_fs v s := mkKern v (k_mem s) (k_ftlock s) (k_ftable s) (k_pipes s) (k_proc s).
Definition set_mem v s := mkKern (k_fs s) v (k_ftlock s) (k_ftable s) (k_pipes s) (k_proc s).
Definition set_ftlock v s := mkKern (k_fs s) (k_mem s) v (k_ftable s) (k_pipes s) (k_proc s).
Definition set_ftable v s := mkKern (k_fs s) (k_mem s) (k_ftlock s) v (k_pipes s) (k_proc s).
Definition set_pipes v s := mkKern (k_fs s) (k_mem s) (k_ftlock s) (k_ftable s) v (k_proc s).
Definition set_proc v s := mkKern (k_fs s) (k_mem s) (k_ftlock s) (k_ftable s) (k_pipes s) v.

Definition fs {A} (m : M fsys A) : M kern A := zoom k_fs set_fs m.
Definition memory {A} (m : M kmem A) : M kern A := zoom k_mem set_mem m.
Lemma fs_run {B} (m : M fsys B) s a f : m (k_fs s) = Ok a f -> fs m s = Ok a (set_fs f s).
Proof. intros E. unfold fs, zoom. by rewrite E. Qed.
Definition me : M kern proc := gets k_proc.
Definition upd_me (f : proc -> proc) : M kern unit := modify (fun s => set_proc (f (k_proc s)) s).
(** An operation on the pipe at an address. *)
Definition on_pipe {A} (p : Z) (m : M pipe A) : M kern A :=
  s ← get;
  q ← deref "struct pipe" (k_pipes s !! p);
  match m q with
  | Ok a q' => put (set_pipes (<[p := q']> (k_pipes s)) s);; mret a
  | Stop o q' => put (set_pipes (<[p := q']> (k_pipes s)) s);; halt o
  end.

(** ** User memory *)

(** The kernel address of a user byte, by the page table of the process. *)
Definition mmu (va : Z) : M kern Z :=
  x ← me;
  pte ← memory (walkpgdir (p_pgdir x) va false);
  if pte =? 0 then panic "trap"
  else
    e ← memory (lw pte);
    if present e then mret (p2v (PTE_ADDR e) + va mod PGSIZE) else panic "trap".
Definition uload (va : Z) : M kern Z := a ← mmu va; memory (gets (fun k => kdata k a)).
Definition ustore (va b : Z) : M kern unit := a ← mmu va; memory (modify (fun k => set_kdata (sto (kdata k) a b) k)).
Fixpoint uload_bytes (va : Z) (n : nat) : M kern (list Z) :=
  match n with
  | O => mret []
  | S n => b ← uload va; l ← uload_bytes (va ⊕ 1) n; mret (b :: l)
  end.
Fixpoint ustore_bytes (va : Z) (l : list Z) : M kern unit :=
  match l with
  | [] => mret tt
  | b :: l => ustore va b;; ustore_bytes (va ⊕ 1) l
  end.

(** ** syscall.c: arguments *)

(** [None] is the result -1. *)
Definition fetchint (addr : Z) : M kern (option Z) :=
  x ← me;
  if (p_sz x <=? addr) || (p_sz x <? addr ⊕ 4) then mret None
  else l ← uload_bytes addr 4; mret (Some (i32 (le_value l))).

(** The string at [s], up to [ep]. *)
Fixpoint fetchstr_loop (fuel : nat) (s ep : Z) : M kern (option (list Z)) :=
  match fuel with
  | O => halt SFuel
  | S fuel =>
      if s <? ep then
        b ← uload s;
        if b =? 0 then mret (Some [])
        else r ← fetchstr_loop fuel (s + 1) ep; mret (cons b <$> r)
      else mret None
  end.
Definition fetchstr (addr : Z) : M kern (option (list Z)) :=
  x ← me;
  if p_sz x <=? addr then mret None
  else fetchstr_loop (S (Z.to_nat (p_sz x))) addr (p_sz x).

Definition argint (n : Z) : M kern (option Z) :=
  x ← me; fetchint (tf_esp (p_tf x) ⊕ (4 + 4 * n)).

Definition argptr (n size : Z) : M kern (option Z) :=
  i ← argint n;
  match i with
  | None => mret None
  | Some i =>
      x ← me;
      if (p_sz x <=? u32 i) || (p_sz x <? u32 i ⊕ size) then mret None else mret (Some (u32 i))
  end.

Definition argstr (n : Z) : M kern (option (list Z)) :=
  a ← argint n;
  match a with
  | None => mret None
  | Some a => fetchstr (u32 a)
  end.
