(* ===== verification/Umem.v ===== *)
(** * The user memory of the running process

    [user s U]: the running process has the memory [U], from 0 to its size,
    behind its page table.  System calls read and write it through the page
    table ([uload], [ustore] of Kern.v); below its size nothing faults. *)

From stdpp Require Import functions.
From S2P Require Import Prelude Str Spinlock Bytes Proc Pipe Kalloc Vm Aspace Uvm Disk Fs Kern.

(** The byte at a user address. *)
Definition ubyte (k : kmem) (P : gmap Z Z) (a : Z) : Z :=
  match P !! (a / PGSIZE) with Some e => kdata k (frame e + a mod PGSIZE) | None => 0 end.

Record mapped (s : kern) (L : list Z) (own : gmap Z role) (T P : gmap Z Z) : Prop := {
  ma_world : world (k_mem s) L own;
  ma_space : aspace (k_mem s) own (p_pgdir (k_proc s)) T P;
  ma_user : uspace own (p_pgdir (k_proc s)) P;
  ma_size : 0 <= p_sz (k_proc s) <= KERNBASE;
  ma_pages : forall u, 0 <= u < pages (p_sz (k_proc s)) -> is_Some (P !! u);
}.
Definition user (s : kern) (U : mem) : Prop :=
  exists L own T P, mapped s L own T P /\ forall a, 0 <= a < p_sz (k_proc s) -> ubyte (k_mem s) P a = U a.

Lemma user_page_at s L own T P a : mapped s L own T P -> 0 <= a < p_sz (k_proc s) ->
  0 <= a / PGSIZE < UVPN /\ 0 <= a mod PGSIZE < PGSIZE /\ a = PGSIZE * (a / PGSIZE) + a mod PGSIZE /\ exists e, P !! (a / PGSIZE) = Some e.
Proof.
  intros [_ _ _ Hs Hp] Ha. unfold UVPN, KERNBASE, PGSIZE in *. split_and!; [Z.to_euclidean_division_equations; lia..|].
  apply Hp. split; [apply Z.div_pos; lia|]. apply pages_lt. unfold PGSIZE. Z.to_euclidean_division_equations. lia.
Qed.
Lemma mmu_run s L own T P a e : mapped s L own T P -> 0 <= a < p_sz (k_proc s) -> P !! (a / PGSIZE) = Some e -> mmu a s = Ok (frame e + a mod PGSIZE) s.
Proof.
  intros Hm Ha He. pose proof Hm as [Hw Has _ Hs _]. destruct (as_map _ _ _ _ _ Has _ _ He) as (Hv & [t HT] & _ & Hpe).
  pose proof (walk_find _ _ _ _ _ _ a false Hw Has ltac:(unfold KERNBASE in *; lia)) as Hf. rewrite HT in Hf. destruct Hf as [Hf Hne].
  unfold mmu, me. mrun1. assert (E1 : memory (walkpgdir (p_pgdir (k_proc s)) a false) s = Ok (t + 4 * ((a / PGSIZE) mod 1024)) s) by (unfold memory, zoom; rewrite Hf; by destruct s).
  mstep E1. rewrite (proj2 (Z.eqb_neq _ _) Hne). assert (E2 : memory (lw (t + 4 * ((a / PGSIZE) mod 1024))) s = Ok e s).
  { unfold memory, zoom, lw. rewrite gets_ok, (pte_value _ _ _ _ _ _ _ Has Hv HT), He. by destruct s. }
  mstep E2. by rewrite Hpe.
Qed.
Lemma uload_run s U a : user s U -> 0 <= a < p_sz (k_proc s) -> uload a s = Ok (U a) s.
Proof.
  intros (L & own & T & P & Hm & HU) Ha. destruct (user_page_at _ _ _ _ _ _ Hm Ha) as (_ & _ & _ & e & He).
  unfold uload. mstep (mmu_run _ _ _ _ _ _ _ Hm Ha He). rewrite <- HU by done. unfold ubyte. rewrite He. unfold memory, zoom. rewrite gets_ok. by destruct s.
Qed.
Lemma ustore_mapped s L own T P a b : mapped s L own T P -> 0 <= a < p_sz (k_proc s) ->
  exists k, ustore a b s = Ok tt (set_mem k s) /\ mapped (set_mem k s) L own T P /\ forall x, 0 <= x < KERNBASE -> ubyte k P x = if x =? a then b else ubyte (k_mem s) P x.
Proof.
  intros Hm Ha. destruct (user_page_at _ _ _ _ _ _ Hm Ha) as (Hv & Ho & Ea & e & He). pose proof Hm as [Hw Has Hu Hs Hp].
  destruct (store_user _ _ _ _ _ _ _ e (a mod PGSIZE) [b] Hw Has Hu He) as (Hw' & Has' & Hb); [lia|lia|cbn [length]; lia|].
  exists (set_kdata (put_bytes (kdata (k_mem s)) (frame e + a mod PGSIZE) [b]) (k_mem s)). split; [unfold ustore; by mstep (mmu_run _ _ _ _ _ _ _ Hm Ha He)|]. split; [by split|]. intros x Hx. unfold ubyte. destruct (P !! (x / PGSIZE)) as [e'|] eqn:Ex.
  - specialize (Hb (x / PGSIZE) e' (x mod PGSIZE) Ex). rewrite Hb; [|unfold UVPN, KERNBASE, PGSIZE in *; Z.to_euclidean_division_equations; lia..].
    unfold overlaid. rewrite <- Ea. assert (Ex' : PGSIZE * (x / PGSIZE) + x mod PGSIZE = x) by (unfold PGSIZE; Z.to_euclidean_division_equations; lia). rewrite Ex'. cbn [length].
    destruct (Z.eqb_spec x a) as [->|]; [rewrite Z.sub_diag; by rewrite (proj2 (Z.leb_le a a)), (proj2 (Z.ltb_lt _ _)) by lia|].
    destruct (Z.leb_spec a x), (Z.ltb_spec x (a + Z.of_nat 1)); done || lia.
  - destruct (Z.eqb_spec x a) as [->|]; [congruence|done].
Qed.
Lemma ustore_run s U a b : user s U -> 0 <= a < p_sz (k_proc s) -> exists k, ustore a b s = Ok tt (set_mem k s) /\ user (set_mem k s) (sto U a b).
Proof.
  intros (L & own & T & P & Hm & HU) Ha. destruct (ustore_mapped _ _ _ _ _ a b Hm Ha) as (k & E & Hm' & Hb). exists k. split; [done|]. exists L, own, T, P. split; [done|].
  cbn [set_mem k_proc k_mem]. intros x Hx. rewrite Hb by (destruct Hm; lia). unfold sto. rewrite HU by done. done.
Qed.

Lemma uload_bytes_run s U n : forall a, user s U -> 0 <= a -> a + Z.of_nat n <= p_sz (k_proc s) -> uload_bytes a n s = Ok (bytes U a n) s.
Proof.
  induction n as [|n IH]; intros a Hu Ha Hs; [done|]. cbn [uload_bytes]. mstep (uload_run s U a Hu ltac:(lia)).
  assert (Hsz : p_sz (k_proc s) <= KERNBASE) by (destruct Hu as (? & ? & ? & ? & [] & _); lia). rewrite u32_id by (unfold KERNBASE in *; lia).
  mstep (IH (a + 1) Hu ltac:(lia) ltac:(lia)). by rewrite bytes_S.
Qed.
Lemma ustore_bytes_run l : forall s U a, user s U -> 0 <= a -> a + Z.of_nat (length l) <= p_sz (k_proc s) ->
  exists k, ustore_bytes a l s = Ok tt (set_mem k s) /\ user (set_mem k s) (put_bytes U a l).
Proof.
  induction l as [|b l IH]; intros s U a Hu Ha Hs; [exists (k_mem s); by destruct s|]. cbn [ustore_bytes put_bytes]. cbn [length] in Hs.
  destruct (ustore_run s U a b Hu) as (k & E & Hu1); [lia|]. mstep E. assert (Hsz : p_sz (k_proc s) <= KERNBASE) by (destruct Hu as (? & ? & ? & ? & [] & _); lia). rewrite u32_id by (unfold KERNBASE in *; lia).
  destruct (IH (set_mem k s) (sto U a b) (a + 1) Hu1) as (k2 & E2 & Hu2); [lia|cbn; lia|]. exists k2. by destruct s.
Qed.

(** ** Arguments of system calls *)

Definition int_at (U : mem) (a : Z) : Z := i32 (le_value (bytes U a 4)).
(** A string and its NUL, below [e]. *)
Definition str_at (U : mem) (a e : Z) (l : list Z) : Prop := lies_at U a (l ++ [0]) /\ (0 ∉ l) /\ a + Z.of_nat (length l) < e.

Lemma int_at_word U a v : lies_at U a (le_bytes 4 (u32 v)) -> int_at U a = i32 v.
Proof. intros H. unfold int_at. change 4%nat with (length (le_bytes 4 (u32 v))) at 1. rewrite H, le_value_bytes by (change (2 ^ (8 * Z.of_nat 4)) with (2 ^ 32); apply u32_range). unfold i32, u32. by rewrite Zplus_mod_idemp_l. Qed.
Lemma user_size s U : user s U -> 0 <= p_sz (k_proc s) <= KERNBASE.
Proof. by intros (? & ? & ? & ? & [] & _). Qed.
Lemma fetchint_run s U a : user s U -> 0 <= a < 2 ^ 32 -> fetchint a s = Ok (if decide (a + 4 <= p_sz (k_proc s)) then Some (int_at U a) else None) s.
Proof.
  intros Hu Ha. pose proof (user_size _ _ Hu) as Hs. unfold KERNBASE in Hs. unfold fetchint, me. mrun1. set (sz := p_sz (k_proc s)) in *.
  destruct (Z.leb_spec sz a); [by rewrite decide_False by lia|]. rewrite u32_id by lia. destruct (Z.ltb_spec sz (a + 4)); [by rewrite decide_False by lia|]. cbn [orb].
  rewrite decide_True by lia. by mstep (uload_bytes_run s U 4 a Hu ltac:(lia) ltac:(fold sz; lia)).
Qed.
Lemma fetchstr_loop_run s U fuel : forall a, user s U -> 0 <= a -> (Z.to_nat (p_sz (k_proc s) - a) < fuel)%nat -> exists r,
  fetchstr_loop fuel a (p_sz (k_proc s)) s = Ok r s /\
  match r with Some l => str_at U a (p_sz (k_proc s)) l | None => forall x, a <= x < p_sz (k_proc s) -> U x <> 0 end.
Proof.
  induction fuel as [|fuel IH]; intros a Hu Ha Hf; [lia|]. cbn [fetchstr_loop]. destruct (Z.ltb_spec a (p_sz (k_proc s))) as [Hlt|]; [|exists None; split; [done|lia]].
  mstep (uload_run s U a Hu ltac:(lia)). destruct (Z.eqb_spec (U a) 0) as [E0|E0].
  - exists (Some []). split; [done|]. split_and!; [by apply lies_cons; rewrite E0|set_solver|cbn; lia].
  - destruct (IH (a + 1) Hu ltac:(lia) ltac:(lia)) as (r & E & Hr). mstep E. exists (cons (U a) <$> r). split; [done|]. destruct r as [l|]; cbn.
    + destruct Hr as (H1 & H2 & H3). split_and!; [by apply lies_cons|set_solver|cbn [length]; lia].
    + intros x Hx. destruct (decide (x = a)) as [->|]; [done|]. apply Hr. lia.
Qed.
Lemma fetchstr_run s U a : user s U -> 0 <= a -> exists r, fetchstr a s = Ok r s /\
  match r with Some l => str_at U a (p_sz (k_proc s)) l | None => forall x, a <= x < p_sz (k_proc s) -> U x <> 0 end.
Proof.
  intros Hu Ha. unfold fetchstr, me. mrun1. destruct (Z.leb_spec (p_sz (k_proc s)) a); [exists None; split; [done|lia]|]. apply fetchstr_loop_run; [done|done|lia].
Qed.

(** C10: The arguments of a system call are read from the memory of the process
    and from nowhere else: argint gives the word at its place on the user
    stack, argptr the pointer if the object of the size asked for lies in the
    memory, argstr the string if it ends there, and all of them -1 otherwise,
    whatever the stack pointer and the arguments are; nothing faults and
    nothing changes. *)
Theorem arguments_correct s U n (sz := p_sz (k_proc s)) (a := tf_esp (p_tf (k_proc s)) ⊕ (4 + 4 * n)) : user s U ->
  argint n s = Ok (if decide (a + 4 <= sz) then Some (int_at U a) else None) s /\
  (forall size, 0 <= size < 2 ^ 31 ->
     argptr n size s = Ok (if decide (a + 4 <= sz /\ u32 (int_at U a) < sz /\ u32 (int_at U a) + size <= sz) then Some (u32 (int_at U a)) else None) s) /\
  exists r, argstr n s = Ok r s /\
    match r with
    | Some l => a + 4 <= sz /\ str_at U (u32 (int_at U a)) sz l
    | None => a + 4 <= sz -> forall x, u32 (int_at U a) <= x < sz -> U x <> 0
    end.
Proof.
  intros Hu. pose proof (user_size _ _ Hu) as Hs. fold sz in Hs. unfold KERNBASE in Hs. pose proof (u32_range (tf_esp (p_tf (k_proc s)) + (4 + 4 * n))) as Ha. fold a in Ha.
  assert (Ei : argint n s = Ok (if decide (a + 4 <= sz) then Some (int_at U a) else None) s) by (unfold argint, me; mrun1; by apply fetchint_run).
  split; [done|]. split.
  - intros size Hz. unfold argptr, me. mstep Ei. pose proof (u32_range (int_at U a)) as Hi. destruct (decide (a + 4 <= sz)); [|by rewrite decide_False by tauto].
    mrun1. fold sz. destruct (Z.leb_spec sz (u32 (int_at U a))); [by rewrite decide_False by lia|]. rewrite (u32_id (u32 (int_at U a) + size)) by lia. cbn [orb].
    destruct (Z.ltb_spec sz (u32 (int_at U a) + size)); [by rewrite decide_False by lia|]. by rewrite decide_True by lia.
  - unfold argstr. destruct (decide (a + 4 <= sz)) as [Hd|Hd]; [|exists None; by mstep Ei]. destruct (fetchstr_run s U (u32 (int_at U a)) Hu) as (r & E & Hr); [apply u32_range|].
    exists r. mstep Ei. split; [done|]. by destruct r.
Qed.

(** ** Witnesses *)

(** A process of four pages that runs on a booted machine; its memory starts
    with the bytes [l]. *)
Definition small_proc (d esp : Z) (fds : list (option nat)) (cwd : nat) : proc :=
  mkProc (4 * PGSIZE) d 0x80300000 RUNNING 1 None (mkTf 0 0 esp []) 0 0 None false fds (Some cwd) [].
Lemma booted_user l : (length l <= 4 * 4096)%nat -> exists k d U, lies_at U 0 l /\ forall fsy lk ft pp esp fds cwd, user (mkKern fsy k lk ft pp (small_proc d esp fds cwd)) U.
Proof.
  intros Hl. destruct booted_space as (k & L & own & d & T & P & Hw & Ha & Hu & _ & HP & _).
  assert (H0 : forall fsy lk ft pp esp fds cwd, user (mkKern fsy k lk ft pp (small_proc d esp fds cwd)) (ubyte k P)).
  { intros. exists L, own, T, P. split; [|done]. split; [done|done|done|unfold small_proc, PGSIZE, KERNBASE; cbn; lia|]. intros u Hu'. destruct (HP u) as (e & He & _); [|by exists e]. by change 4 with (pages (4 * PGSIZE)). }
  destruct (ustore_bytes_run l (mkKern (mkFsys false [] (mkLdisk 0 0 (fun _ => []) ∅ [] false)) k false [] ∅ (small_proc d 0 [] 0)) (ubyte k P) 0) as (k' & E & Hu'); [apply H0|done|cbn; unfold PGSIZE; lia|].
  exists k', d, (put_bytes (ubyte k P) 0 l). split.
  - apply put_bytes_lies.
  - intros. destruct Hu' as (L' & own' & T' & P' & [M1 M2 M3 M4 M5] & HU). exists L', own', T', P'. split; [by split|done].
Qed.
Lemma arguments_correct_witness : exists s, argint 1 s = Ok (Some 7) s /\ argptr 1 100 s = Ok (Some 7) s /\ argint 4096 s = Ok None s /\ exists l, argstr 0 s = Ok (Some l) s.
Proof.
  destruct (booted_user (le_bytes 4 0 ++ le_bytes 4 12 ++ le_bytes 4 7 ++ [104; 105; 0])) as (k & d & U & Hl & Hu); [cbn; lia|].
  specialize (Hu (mkFsys false [] (mkLdisk 0 0 (fun _ => []) ∅ [] false)) false [] ∅ 0 [] 0%nat). exists (mkKern (mkFsys false [] (mkLdisk 0 0 (fun _ => []) ∅ [] false)) k false [] ∅ (small_proc d 0 [] 0)).
  rewrite !lies_app in Hl. rewrite !le_bytes_length in Hl. destruct Hl as (_ & B1 & B2 & B3). apply (int_at_word U (0 + Z.of_nat 4) 12) in B1. apply (int_at_word U (0 + Z.of_nat 4 + Z.of_nat 4) 7) in B2.
  destruct (arguments_correct _ U 1 Hu) as (H1 & H2 & _). destruct (arguments_correct _ U 4096 Hu) as (H3 & _). destruct (arguments_correct _ U 0 Hu) as (_ & _ & r & H4 & Hr).
  cbn [k_proc small_proc p_tf tf_esp p_sz] in *. change (0 ⊕ (4 + 4 * 1)) with (0 + Z.of_nat 4 + Z.of_nat 4) in *. change (0 ⊕ (4 + 4 * 0)) with (0 + Z.of_nat 4) in *. rewrite B2 in H1, H2. rewrite B1 in Hr.
  split; [exact H1|]. split; [exact (H2 100 ltac:(lia))|]. split; [exact H3|].
  destruct r as [l|]; [by exists l|]. exfalso. rewrite !lies_cons in B3. apply (Hr ltac:(unfold PGSIZE; cbn; lia) 14); [split; [vm_compute; congruence|unfold PGSIZE; lia]|apply B3].
Defined.
