(* ===== verification/Execmem.v ===== *)
(** * The address space that exec builds

    [image]: a space that is being built by setupkvm, allocuvm, loaduvm,
    clearpteu and copyout, next to the spaces that exist ([k0], [L0], [own0]
    are the memory, the free pages and the roles of pages before).  Its first
    [n] pages are mapped and hold [U]; all but page [g] can be used by user
    code. *)

From stdpp Require Import functions.
From S2P Require Import Prelude Str Spinlock Bytes Proc Pipe Kalloc Vm Aspace Uvm Disk Fs Kern Umem.

Section Image.
Context (k0 : kmem) (L0 : list Z) (own0 : gmap Z role) (d : Z).

Record image (g n : Z) (U : mem) (k : kmem) (L : list Z) (own : gmap Z role) (T P : gmap Z Z) : Prop := {
  ig_world : world k L own;
  ig_space : aspace k own d T P;
  ig_user : uspace own d P;
  ig_range : 0 <= n <= UVPN;
  ig_mapped : forall u, 0 <= u < n -> exists e, P !! u = Some e /\ (u <> g -> user_ok e);
  ig_rest : forall u, n <= u < UVPN -> P !! u = None;
  ig_bytes : forall a, 0 <= a < PGSIZE * n -> ubyte k P a = U a;
  ig_zero : forall a, PGSIZE * n <= a -> U a = 0;
  ig_grows : grows d k0 L0 own0 k L own;
}.
Context (Hnew : forall p r, own0 !! p = Some r -> dir_of r <> d).

(** Bytes are stored in a user page. *)
Lemma ubyte_store k L own T P v e o q : world k L own -> aspace k own d T P -> uspace own d P -> P !! v = Some e -> 0 <= v < UVPN -> 0 <= o -> o + Z.of_nat (length q) <= PGSIZE ->
  let k' := set_kdata (put_bytes (kdata k) (frame e + o) q) k in forall a, 0 <= a < KERNBASE -> ubyte k' P a = put_bytes (ubyte k P) (PGSIZE * v + o) q a.
Proof.
  intros Hw Ha Hu He Hv Ho Hq k' a Har. destruct (store_user _ _ _ _ _ _ _ e o q Hw Ha Hu He) as (_ & _ & Hb); [lia..|]. fold k' in Hb.
  assert (Ea : PGSIZE * (a / PGSIZE) + a mod PGSIZE = a) by (unfold PGSIZE; Z.to_euclidean_division_equations; lia). rewrite put_bytes_spec. unfold ubyte at 1 2. destruct (P !! (a / PGSIZE)) as [e'|] eqn:Ee.
  - rewrite (Hb _ _ _ Ee) by (unfold UVPN, KERNBASE, PGSIZE in *; Z.to_euclidean_division_equations; lia). unfold overlaid. rewrite Ea. done.
  - destruct (Z.leb_spec (PGSIZE * v + o) a), (Z.ltb_spec a (PGSIZE * v + o + Z.of_nat (length q))); try done. exfalso.
    assert (Hav : a / PGSIZE = v) by (rewrite <- Ea; unfold PGSIZE in *; Z.to_euclidean_division_equations; lia). congruence.
Qed.
Lemma grows_store k L own p m' : grows d k0 L0 own0 k L own -> pg_frame p (kdata k) m' -> p mod PGSIZE = 0 -> page_of d own p -> grows d k0 L0 own0 (set_kdata m' k) L own.
Proof.
  intros [G1 G2 G3 G4 G5 G6] Hf Hp Hpg. split; try done.
  - intros q x Hq Hl Hn Hx. cbn. rewrite Hf; [by eapply G4|]. assert (p <> q) by (intros ->; done). destruct (page_disjoint p q); [done..|lia|lia].
  - intros q d' v x Hq Hqa Hx. cbn. rewrite Hf; [by eapply G5|]. assert (p <> q). { intros ->. destruct Hpg as (r & Hr & Hs). rewrite (G2 _ _ Hq) in Hr. injection Hr as <-. exact (Hnew _ _ Hq Hs). }
    destruct (page_disjoint p q); [done..|lia|lia].
Qed.
Lemma image_store g n U k L own T P v e o q : image g n U k L own T P -> P !! v = Some e -> 0 <= v < n -> 0 <= o -> o + Z.of_nat (length q) <= PGSIZE ->
  image g n (put_bytes U (PGSIZE * v + o) q) (set_kdata (put_bytes (kdata k) (frame e + o) q) k) L own T P.
Proof.
  intros [I1 I2 I3 I4 I5 I6 I7 I8 I9] He Hv Ho Hq. destruct (store_user _ _ _ _ _ _ _ e o q I1 I2 I3 He) as (Hw & Ha & _); [lia..|].
  destruct (user_page _ _ _ _ _ _ _ I1 I3 He) as (Hp & (Hpa & _) & _ & _); [lia|].
  split; try done.
  - intros a Har. rewrite (ubyte_store k L own T P v e o q) by (done || unfold UVPN, KERNBASE, PGSIZE in *; lia). rewrite !put_bytes_spec. destruct (_ && _); [done|]. by apply I7.
  - intros a Har. rewrite put_bytes_spec. destruct (Z.leb_spec (PGSIZE * v + o) a), (Z.ltb_spec a (PGSIZE * v + o + Z.of_nat (length q))); [|by apply I8..].
    unfold PGSIZE in *. lia.
  - apply (grows_store _ _ _ (frame e)); [done| |done|by exists (RUser d v)]. intros x Hx. rewrite put_bytes_spec. destruct (Z.leb_spec (frame e + o) x), (Z.ltb_spec x (frame e + o + Z.of_nat (length q))); try done. lia.
Qed.

Context (Hw0 : world k0 L0 own0).

(** setupkvm. *)
Lemma image_new data k L own T : world k L own -> aspace k own d T (kern_map data) -> uspace own d (kern_map data) -> data_ok data -> grows d k0 L0 own0 k L own -> image (-1) 0 (fun _ => 0) k L own T (kern_map data).
Proof. intros Hw Ha Hu Hd Hg. split; [done|done|done|unfold UVPN; lia|intros; lia| |intros a; unfold PGSIZE; lia|done|done]. intros u Hu'. apply kern_map_user; [by apply kmap_segs|lia]. Qed.

(** allocuvm. *)
Lemma image_alloc g n U k L own T P oldsz newsz : image g n U k L own T P -> pages oldsz = n -> 0 <= oldsz <= newsz -> newsz < KERNBASE -> pages newsz - n + 1025 <= Z.of_nat (length L + size T) ->
  exists k' L' own' T' P', allocuvm d oldsz newsz k = Ok newsz k' /\ image g (pages newsz) U k' L' own' T' P' /\ Z.of_nat (length L + size T) = Z.of_nat (length L' + size T') + (pages newsz - n).
Proof.
  intros [I1 I2 I3 I4 I5 I6 I7 I8 I9] En Hsz Hk Hroom. assert (Hle : n <= pages newsz <= UVPN) by (rewrite <- En; unfold pages, PGSIZE, KERNBASE, UVPN in *; Z.to_euclidean_division_equations; lia).
  unfold allocuvm. rewrite (proj2 (Z.leb_gt _ _)), (proj2 (Z.ltb_ge _ _)) by lia. rewrite pages_up, En by (unfold KERNBASE, PGSIZE in *; lia).
  destruct (allocuvm_loop_run (S (Z.to_nat (newsz / PGSIZE + 1))) k L own d T P n oldsz newsz I1 I2 I3) as (k' & L' & own' & T' & P' & E & Hw' & Ha' & Hu' & Hg & Hcnt & Hout & Hin); [lia|lia| |intros u Hu; apply I6; lia|done|].
  { unfold pages, PGSIZE in *. Z.to_euclidean_division_equations. lia. }
  exists k', L', own', T', P'. split; [done|]. split; [|lia]. split; try done.
  - lia.
  - intros u Hu. destruct (decide (u < n)); [rewrite Hout by lia; apply I5; lia|]. destruct (Hin u) as (e & He & Hue & _); [lia|]. exists e. split; [done|]. intros _. by apply user_word_ok.
  - intros u Hu. rewrite Hout by lia. apply I6. lia.
  - intros a Har. unfold ubyte. assert (Hr : 0 <= a / PGSIZE < pages newsz /\ 0 <= a mod PGSIZE < PGSIZE) by (unfold PGSIZE in *; Z.to_euclidean_division_equations; lia).
    destruct (decide (a / PGSIZE < n)) as [Hlt|Hge].
    + rewrite Hout by lia. destruct (I5 (a / PGSIZE)) as (e & He & _); [lia|]. rewrite He, (grows_user_page _ _ _ _ _ _ _ _ _ _ _ _ Hg I1 I3 He) by lia.
      rewrite <- I7 by (unfold PGSIZE in *; Z.to_euclidean_division_equations; lia). unfold ubyte. by rewrite He.
    + destruct (Hin (a / PGSIZE)) as (e & He & _ & _ & Hz); [lia|]. rewrite He, Hz by lia. symmetry. apply I8. unfold PGSIZE in *. Z.to_euclidean_division_equations. lia.
  - intros a Har. apply I8. unfold PGSIZE in *. lia.
  - eapply grows_trans; [apply (ki_nodup _ _ (wo_inv _ _ _ Hw0))|done|done].
Qed.

(** clearpteu. *)
Lemma clear_user e : 0 <= e < 2 ^ 32 -> let w := Z.land e (u32 (Z.lnot PTE_U)) in 0 <= w < 2 ^ 32 /\ present w = present e /\ PTE_ADDR w = PTE_ADDR e.
Proof.
  intros He w. change (u32 (Z.lnot PTE_U)) with 0xfffffffb in w. subst w. split; [|split].
  - assert (E : Z.land e 0xfffffffb = Z.land e 0xfffffffb mod 2 ^ 32) by (rewrite <- Z.land_ones by lia; rewrite <- Z.land_assoc; done). rewrite E. apply Z.mod_pos_bound. lia.
  - unfold present. by rewrite <- Z.land_assoc.
  - unfold PTE_ADDR. by rewrite <- Z.land_assoc.
Qed.
Lemma image_clear n U k L own T P v : image (-1) n U k L own T P -> 0 <= v < n -> exists k' P', clearpteu d (PGSIZE * v) k = Ok tt k' /\ image v n U k' L own T P'.
Proof.
  intros [I1 I2 I3 I4 I5 I6 I7 I8 I9] Hv. destruct (I5 v Hv) as (e & He & _). destruct (as_map _ _ _ _ _ I2 _ _ He) as (Hv' & [t HT] & Her & Hpe). destruct (clear_user e Her) as (Hwr & Hwp & Hwa). set (w := Z.land e _) in *.
  assert (Hva : 0 <= PGSIZE * v < 2 ^ 32) by (unfold PGSIZE; lia). pose proof (walk_find _ _ _ _ _ _ _ false I1 I2 Hva) as Hf. rewrite page_mul_div, HT in Hf. destruct Hf as [Hf Hne].
  destruct (aspace_set k L own d T P v t w (<[v := w]> P) I1 I2 Hv' HT Hwr) as [Hw' Ha']; [by rewrite lookup_insert_eq|intros u Hu; by rewrite lookup_insert_ne|intros x; rewrite lookup_insert_eq; intros [= <-]; congruence|].
  exists (set_kdata (store32 (kdata k) (t + 4 * (v mod 1024)) w) k), (<[v := w]> P). split.
  { unfold clearpteu. mstep Hf. rewrite (proj2 (Z.eqb_neq _ _) Hne). unfold lw. mrun1. by rewrite (pte_value _ _ _ _ _ _ _ I2 Hv' HT), He. }
  assert (Hfr : frame w = frame e) by (unfold frame; by rewrite Hwa). destruct (table_page _ _ _ _ _ _ _ _ I1 I2 HT) as ((Hta & _) & HtL & Hit). pose proof (vpn_split v Hv') as (_ & Hj & _).
  assert (Hpf : pg_frame t (kdata k) (store32 (kdata k) (t + 4 * (v mod 1024)) w)) by (apply store_frame; unfold PGSIZE; lia).
  split; try done.
  - intros u p. rewrite <- (I3 u p). destruct (decide (u = v)) as [->|Hne']; [|by rewrite lookup_insert_ne]. rewrite lookup_insert_eq. split; intros (Hlt & x & Hx & Hp); (split; [done|]).
    + injection Hx as <-. exists e. split; [done|congruence].
    + exists w. split; [done|]. simplify_eq. congruence.
  - intros u Hu. destruct (decide (u = v)) as [->|Hne']; [exists w; rewrite lookup_insert_eq; split; [done|lia]|]. rewrite lookup_insert_ne by done. destruct (I5 u Hu) as (x & Hx & Hok). exists x. split; [done|]. intros _. apply Hok. lia.
  - intros u Hu. rewrite lookup_insert_ne by lia. by apply I6.
  - intros a Har. rewrite <- I7 by done. unfold ubyte. cbn [kdata set_kdata].
    assert (Hsame : forall u x o, P !! u = Some x -> u < UVPN -> 0 <= o < PGSIZE -> store32 (kdata k) (t + 4 * (v mod 1024)) w (frame x + o) = kdata k (frame x + o)).
    { intros u x o Hx Hu Ho. destruct (user_page _ _ _ _ _ _ _ I1 I3 Hx Hu) as (_ & (Hpa & _) & _ & Hnt). apply Hpf. assert (t <> frame x) by (intros ->; done). destruct (page_disjoint t (frame x)); [done..|lia|lia]. }
    assert (Hr : 0 <= a / PGSIZE < UVPN /\ 0 <= a mod PGSIZE < PGSIZE) by (unfold PGSIZE, UVPN in *; Z.to_euclidean_division_equations; lia).
    destruct (decide (a / PGSIZE = v)) as [Ev|Hne']; [rewrite Ev, lookup_insert_eq, He, Hfr; apply (Hsame v); [done|lia|lia]|]. rewrite lookup_insert_ne by done. destruct (P !! (a / PGSIZE)) as [x|] eqn:Ex; [|done]. apply (Hsame (a / PGSIZE)); [done|lia|lia].
  - by eapply grows_store; [|apply Hpf| |apply table_of_space].
Qed.

(** copyout. *)
Lemma image_copyout_loop g n fuel : forall U k L own T P va p, image g n U k L own T P -> (length p < fuel)%nat -> 0 <= va -> va + Z.of_nat (length p) <= PGSIZE * n ->
  (forall a, va <= a < va + Z.of_nat (length p) -> a / PGSIZE <> g) -> exists k', copyout_loop fuel d va p k = Ok 0 k' /\ image g n (put_bytes U va p) k' L own T P.
Proof.
  induction fuel as [|fuel IH]; intros U k L own T P va p Hi Hf Hva Hend Hg; [lia|]. cbn [copyout_loop]. destruct p as [|b p]; [by exists k|].
  set (q := b :: p) in *. assert (Hq : 0 < Z.of_nat (length q)) by (cbn; lia). set (v := va / PGSIZE) in *. set (o := va mod PGSIZE).
  assert (Evo : va = PGSIZE * v + o) by (apply Z.div_mod; unfold PGSIZE; lia). assert (Hor : 0 <= o < PGSIZE) by (apply Z.mod_pos_bound; unfold PGSIZE; lia).
  pose proof (ig_range _ _ _ _ _ _ _ _ Hi) as Hn. assert (Hv : 0 <= v < n) by (unfold PGSIZE in *; lia).
  rewrite (PGROUNDDOWN_spec va) by (unfold UVPN, PGSIZE in *; lia). fold v. replace (va - PGSIZE * v) with o by lia. destruct (ig_mapped _ _ _ _ _ _ _ _ Hi v Hv) as (e & He & Hue).
  mstep (uva2ka_run k L own d T P v e (ig_world _ _ _ _ _ _ _ _ Hi) (ig_space _ _ _ _ _ _ _ _ Hi) ltac:(unfold UVPN in *; lia) He (Hue (Hg va ltac:(lia)))).
  destruct (user_page _ _ _ _ _ _ _ (ig_world _ _ _ _ _ _ _ _ Hi) (ig_user _ _ _ _ _ _ _ _ Hi) He) as (Hp & Hok & _); [lia|]. pose proof (page_range _ _ Hok) as (Hr0 & _). rewrite (proj2 (Z.eqb_neq _ 0)) by lia.
  set (c := Z.min (PGSIZE - o) (Z.of_nat (length q))). assert (Hc : 0 < c <= Z.of_nat (length q)) by lia. unfold store_bytes. mrun1.
  assert (Hlt : length (take (Z.to_nat c) q) = Z.to_nat c) by (rewrite length_take; lia). assert (Hld : length (drop (Z.to_nat c) q) = (length q - Z.to_nat c)%nat) by apply length_drop.
  pose proof (image_store g n U k L own T P v e o (take (Z.to_nat c) q) Hi He Hv ltac:(lia) ltac:(lia)) as Hi1. rewrite <- Evo in Hi1.
  rewrite (u32_id (PGSIZE * v + PGSIZE)) by (unfold UVPN, PGSIZE in *; lia). 
  assert (Eq : put_bytes U va q = put_bytes (put_bytes U va (take (Z.to_nat c) q)) (va + c) (drop (Z.to_nat c) q)) by (rewrite <- (take_drop (Z.to_nat c) q) at 1; rewrite put_bytes_app, Hlt; f_equal; lia). rewrite Eq.
  destruct (decide (c = Z.of_nat (length q))) as [Ec|Ec].
  - rewrite (drop_ge q) by lia. destruct fuel as [|fuel]; [lia|]. cbn [copyout_loop put_bytes]. by eexists.
  - replace (va + c) with (PGSIZE * v + PGSIZE) by lia. apply IH; [done|lia|unfold PGSIZE in *; lia|lia|]. intros a Ha. apply Hg. lia.
Qed.
Lemma image_copyout g n U k L own T P va p : image g n U k L own T P -> 0 <= va -> va + Z.of_nat (length p) <= PGSIZE * n -> (forall a, va <= a < va + Z.of_nat (length p) -> a / PGSIZE <> g) ->
  exists k', copyout d va p k = Ok 0 k' /\ image g n (put_bytes U va p) k' L own T P.
Proof. intros. apply image_copyout_loop; try done. lia. Qed.
End Image.
