(* ===== verification/File.v ===== *)
(** * file.c: open files

    The table of open files, and reading and writing through them; pipealloc of
    src/pipe.c.  Operations that sleep in a pipe stop with [SSleep] (what they
    do when woken is in Pipe.v). *)

From stdpp Require Import functions.
From S2P Require Import Prelude Str Spinlock Bytes Interfaces Proc Pipe Kalloc Vm Log Disk Fs Kern.

Definition ft_acquire : M kern unit := acquire k_ftlock set_ftlock.
Definition ft_release : M kern unit := release k_ftlock set_ftlock.
Definition file_at (f : nat) : M kern file := s ← get; deref "struct file" (k_ftable s !! f).
Definition upd_file (f : nat) (g : file -> file) : M kern unit :=
  x ← file_at f; modify (fun s => set_ftable (<[f := g x]> (k_ftable s)) s).

Definition fileinit : M kern unit := modify (set_ftlock false).

(** The first entry with no reference. *)
Fixpoint free_file (l : list file) (k : nat) : option nat :=
  match l with
  | [] => None
  | f :: l => if f_ref f =? 0 then Some k else free_file l (S k)
  end.
Definition filealloc : M kern (option nat) :=
  ft_acquire;;
  s ← get;
  match free_file (k_ftable s) 0 with
  | Some f => upd_file f (set_f_ref 1);; ft_release;; mret (Some f)
  | None => ft_release;; mret None
  end.

Definition filedup (f : nat) : M kern nat :=
  ft_acquire;;
  x ← file_at f;
  if f_ref x <? 1 then panic "filedup"
  else upd_file f (fun x => set_f_ref (f_ref x + 1) x);; ft_release;; mret f.

(** pipeclose() with its kfree(). *)
Definition pipe_close (p : Z) (writable : bool) : M kern unit :=
  on_pipe p (pipeclose writable);;
  s ← get;
  q ← deref "struct pipe" (k_pipes s !! p);
  when (freed q) (modify (fun s => set_pipes (delete p (k_pipes s)) s);; memory (kfree p)).

Definition fileclose (f : nat) : M kern unit :=
  ft_acquire;;
  x ← file_at f;
  if f_ref x <? 1 then panic "fileclose"
  else
    upd_file f (fun x => set_f_ref (f_ref x - 1) x);;
    ff ← file_at f;
    if 0 <? f_ref ff then ft_release
    else
      upd_file f (fun x => set_f_type FD_NONE (set_f_ref 0 x));;
      ft_release;;
      match f_type ff with
      | FD_PIPE => pipe_close (f_pipe ff) (f_writable ff)
      | FD_INODE => fs (disk begin_trans);; fs (iput (f_ip ff));; fs (disk commit_trans)
      | FD_NONE => mret tt
      end.

(** [None] is -1. *)
Definition filestat (f : nat) : M kern (option stat) :=
  x ← file_at f;
  match f_type x with
  | FD_INODE => fs (ilock (f_ip x));; st ← fs (stati (f_ip x)); fs (iunlock (f_ip x));; mret (Some st)
  | _ => mret None
  end.

Section Devices.
Context (devsw : Z -> option ((nat -> Z -> M fsys (Z * list Z)) * (nat -> list Z -> M fsys Z))).

(** The result and the bytes stored at [addr]. *)
Definition fileread (f : nat) (n : Z) : M kern (Z * list Z) :=
  x ← file_at f;
  if negb (f_readable x) then mret (-1, [])
  else
    match f_type x with
    | FD_PIPE =>
        y ← me;
        r ← on_pipe (f_pipe x) (piperead (Z.to_nat (p_pid y)) (p_killed y) n);
        match r with inl r => mret r | inr _ => halt (SSleep (f_pipe x)) end
    | FD_INODE =>
        fs (ilock (f_ip x));;
        r ← fs (readi devsw (f_ip x) (f_off x) (u32 n));
        when (0 <? r.1) (upd_file f (fun x => set_f_off (f_off x ⊕ r.1) x));;
        fs (iunlock (f_ip x));;
        mret r
    | FD_NONE => panic "fileread"
    end.

Definition write_max : Z := (LOGSIZE - 1 - 1 - 2) / 2 * 512.

(** One turn: write at most [write_max] bytes in a transaction of their own. *)
Definition filewrite_chunk (f : nat) (src : list Z) (n1 : Z) : M kern Z :=
  x ← file_at f;
  fs (disk begin_trans);;
  fs (ilock (f_ip x));;
  r ← fs (writei devsw (f_ip x) src (f_off x) n1);
  when (0 <? r) (upd_file f (fun x => set_f_off (f_off x ⊕ r) x));;
  fs (iunlock (f_ip x));;
  fs (disk commit_trans);;
  mret r.
Fixpoint filewrite_loop (fuel : nat) (f : nat) (addr : list Z) (i n : Z) : M kern Z :=
  match fuel with
  | O => halt SFuel
  | S fuel =>
      if i <? n then
        let n1 := Z.min (n - i) write_max in
        r ← filewrite_chunk f (take (Z.to_nat n1) (drop (Z.to_nat i) addr)) n1;
        if r <? 0 then mret (if i =? n then n else -1)
        else if negb (r =? n1) then panic "short filewrite"
        else filewrite_loop fuel f addr (i + r) n
      else mret (if i =? n then n else -1)
  end.
(** [addr] are the [n] bytes at the user's address. *)
Definition filewrite (f : nat) (addr : list Z) (n : Z) : M kern Z :=
  x ← file_at f;
  if negb (f_writable x) then mret (-1)
  else
    match f_type x with
    | FD_PIPE =>
        y ← me;
        r ← on_pipe (f_pipe x) (pipewrite (Z.to_nat (p_pid y)) (p_killed y) n addr);
        match r with inl r => mret r | inr _ => halt (SSleep (f_pipe x + 1)) end
    | FD_INODE => filewrite_loop (S (Z.to_nat n)) f addr 0 n
    | FD_NONE => panic "filewrite"
    end.
End Devices.

(** ** pipealloc *)

(** p->data in the page: behind the lock. *)
Definition pipe_data_off : Z := 52.

Definition pipe_bad (f0 f1 : option nat) : M kern (option (nat * nat)) :=
  match f0 with Some f0 => fileclose f0 | None => mret tt end;;
  match f1 with Some f1 => fileclose f1 | None => mret tt end;;
  mret None.

Definition pipealloc : M kern (option (nat * nat)) :=
  f0 ← filealloc;
  match f0 with
  | None => pipe_bad None None
  | Some f0 =>
      f1 ← filealloc;
      match f1 with
      | None => pipe_bad (Some f0) None
      | Some f1 =>
          p ← memory kalloc;
          if p =? 0 then pipe_bad (Some f0) (Some f1)
          else
            modify (fun s => set_pipes (<[p := new_pipe (bytes (kdata (k_mem s)) (p + pipe_data_off) (Z.to_nat PIPESIZE))]> (k_pipes s)) s);;
            upd_file f0 (set_f_pipe true false p);;
            upd_file f1 (set_f_pipe false true p);;
            mret (Some (f0, f1))
      end
  end.
