(* ===== verification/Filerw.v ===== *)
(** * Reading and writing through open files

    filewrite and fileread of src/file.c on a file of the disk, from the system
    call's loop over chunks down to the blocks: every chunk is a transaction of
    its own, and [write_max] is small enough for its blocks, the inode, the
    bitmap and the indirect block to fit into the log and into the buffer
    cache.  [filewrite_correct] is the write as a whole, [written_is_read] that
    a reader of the same file gets the bytes. *)

From stdpp Require Import functions.
From S2P Require Import Prelude Str Interfaces Spinlock Bytes Proc Kalloc Log Disk Fs Fsblk Fsfile Fswrite Fspath Kern File.

Lemma splice_twice (x y z : list Z) k : (k <= length x)%nat -> splice (splice x k y) (k + length y) z = splice x k (y ++ z).
Proof.
  intros Hk. assert (Hl : length (take k x ++ y) = (k + length y)%nat) by (rewrite length_app, length_take; lia).
  unfold splice at 2. rewrite app_assoc. unfold splice at 1. rewrite take_app_length' by done.
  rewrite drop_app_ge, Hl, drop_drop by lia. unfold splice. rewrite length_app, <- !app_assoc. do 4 f_equal. lia.
Qed.

Lemma slice_splice_same' (x y : list Z) k : (k <= length x)%nat -> slice (splice x k y) k (length y) = y.
Proof.
  intros Hk. unfold slice, splice. rewrite drop_app_length' by (rewrite length_take; lia). apply take_app_length.
Qed.

Lemma file_at_run s f x : k_ftable s !! f = Some x -> file_at f s = Ok x s.
Proof. intros H. unfold file_at. mrun1. by rewrite H. Qed.
Lemma upd_file_run s f x g : k_ftable s !! f = Some x -> upd_file f g s = Ok tt (set_ftable (<[f := g x]> (k_ftable s)) s).
Proof. intros H. unfold upd_file. by mstep (file_at_run s f x H). Qed.

Section Filerw.
Context (fsz bm : Z) (devsw : Z -> option ((nat -> Z -> M fsys (Z * list Z)) * (nat -> list Z -> M fsys Z))).
Notation vol := (vol fsz bm).
Notation imap := (imap bm).
Notation ifile := (ifile bm).
Notation spare := (spare bm).

(** Descriptor [f] is the open file [x] on the inode [i] with the blocks [A];
    nobody is in a transaction or holds the inode or a buffer. *)
Record opened (s : kern) (f : nat) (x : file) (i : inode) (A : list Z) : Prop := {
  op_file : k_ftable s !! f = Some x;
  op_type : f_type x = FD_INODE;
  op_lock : ic_lock (k_fs s) = false;
  op_vol : vol (dsk (k_fs s));
  op_inode : ifile (k_fs s) (f_ip x) i A;
  op_ref : 0 < i_ref i;
  op_flags : i_flags i = I_VALID;
  op_buf : ld_buf (dsk (k_fs s)) = ∅;
  op_log : ld_log (dsk (k_fs s)) = [];
  op_busy : ld_busy (dsk (k_fs s)) = false;
  op_nlog : 8 < ld_nlog (dsk (k_fs s));
}.

(** Beginning and ending a transaction changes no block. *)
Lemma vol_trans d b l : vol d -> vol (set_busy b (set_log l d)).
Proof. intros [[] ? ? ?]. split; [split|..]; done. Qed.
Lemma imap_trans d b l i A : imap d i A <-> imap (set_busy b (set_log l d)) i A.
Proof. split; intros [H1 H2 H3 H4 H5 H6 H7]; by split. Qed.

(** ** The lock of a valid inode *)

Lemma ilock_valid f k i : ic_lock f = false -> icache f !! k = Some i -> 0 < i_ref i -> i_flags i = I_VALID -> ilock k f = Ok tt (with_entry k (set_iflags 3 i) f).
Proof.
  intros Hl Hk Hr Hf. unfold ilock. mstep (inode_at_run f k i Hk). rewrite (proj2 (Z.ltb_ge _ _)) by lia. mstep (acquire_run f Hl). mstep (inode_at_run (set_ic_lock true f) k i Hk).
  destruct (locked_steps f k i (fun i => set_iflags (Z.lor (i_flags i) I_BUSY) i) Hl Hk) as (f1 & E1 & E2). unfold flag at 1. rewrite Hf in *.
  change (truth (Z.land I_VALID I_BUSY)) with false. cbn iota. mstep E1. mstep E2. mstep (inode_at_run _ k _ (with_entry_at k (set_iflags (Z.lor I_VALID I_BUSY) i) i f Hk)). done.
Qed.
Lemma iunlock_valid f k i : ic_lock f = false -> icache f !! k = Some i -> 0 < i_ref i -> i_flags i = 3 -> iunlock k f = Ok tt (with_entry k (set_iflags I_VALID i) f).
Proof.
  intros Hl Hk Hr Hf. unfold iunlock. mstep (inode_at_run f k i Hk). rewrite (proj2 (Z.ltb_ge _ _)) by lia. unfold flag. rewrite Hf. change (truth (Z.land 3 I_BUSY)) with true. cbn [orb negb].
  rewrite (locked_run f k i _ Hl Hk), Hf. done.
Qed.
Lemma ifile_flags f k i A v : ifile f k i A -> ifile (with_entry k (set_iflags v i) f) k (set_iflags v i) A.
Proof.
  intros [H1 H2 H3 H4 H5 H6]. split; try done; [by eapply with_entry_at|]. by apply (imap_meta bm (dsk f) i).
Qed.

(** ** A chunk *)

Lemma chunk_blocks off n : 0 <= off -> 0 < n <= write_max -> nblk (off + n) - off / BSIZE <= 4.
Proof. unfold write_max, LOGSIZE, nblk, BSIZE. intros. change ((10 - 1 - 1 - 2) / 2 * 512) with 1536 in *. Z.to_euclidean_division_equations; lia. Qed.

(** Inside the transaction: what is pinned is at most four blocks of data, the
    bitmap, the inode's block and the indirect block. *)
Lemma chunk_room d ib i : ld_log d = [] -> ld_buf d = ∅ -> ld_busy d = true -> 8 < ld_nlog d -> room bm d ∅ ib i 4.
Proof.
  intros Hl Hb Hy Hn. split; [rewrite Hl; constructor| | | |done].
  - unfold ld_pinned. rewrite Hl, Hb. set_solver.
  - rewrite size_empty. unfold NBUF. lia.
  - rewrite size_empty. lia.
Qed.
Lemma room_log d P ib i m : room bm d P ib i m -> (length (ld_log d) < NBUF)%nat.
Proof.
  intros [Hn Hp Hr _ _]. pose proof (ws_size bm P ib i). pose proof (indirect_length i).
  assert (length (ld_log d) <= size (ws bm P ib i))%nat; [|lia].
  rewrite <- (size_list_to_set (C := gset Z) (ld_log d) Hn). apply subseteq_size. etrans; [|exact Hp]. unfold ld_pinned. set_solver.
Qed.

Definition others_kept (d d' : ldisk) (i : inode) (A : list Z) (i' : inode) (A' : list Z) : Prop :=
  forall j B, imap d j B -> footprint j B ## footprint i A -> imap d' j B /\ fbytes d' B = fbytes d B /\ footprint j B ## footprint i' A'.

Lemma others_trans d d1 d2 i A i1 A1 i2 A2 : others_kept d d1 i A i1 A1 -> others_kept d1 d2 i1 A1 i2 A2 -> others_kept d d2 i A i2 A2.
Proof. intros H1 H2 j B Hj Hd. destruct (H1 j B Hj Hd) as (Hj1 & E1 & Hd1). destruct (H2 j B Hj1 Hd1) as (? & E2 & ?). split_and!; [done|by rewrite E2|done]. Qed.

Lemma chunk_run s f x i A src (n := Z.of_nat (length src)) (off := f_off x) :
  opened s f x i A -> 0 < n <= write_max -> 0 <= off <= i_size i -> off + n <= MAXFILE * BSIZE -> nblk (off + n) - Z.of_nat (length A) <= spare (dsk (k_fs s)) i ->
  exists s' i' A', filewrite_chunk devsw f src n s = Ok n s' /\ opened s' f (set_f_off (off + n) x) i' A' /\
    s' = set_ftable (<[f := set_f_off (off + n) x]> (k_ftable s)) (set_fs (k_fs s') s) /\ i_size i' = Z.max (i_size i) (off + n) /\
    contents (dsk (k_fs s')) i' A' = splice (contents (dsk (k_fs s)) i A) (Z.to_nat off) src /\
    spare (dsk (k_fs s')) i' = spare (dsk (k_fs s)) i - (Z.of_nat (length A') - Z.of_nat (length A)) /\
    others_kept (dsk (k_fs s)) (dsk (k_fs s')) i A i' A'.
Proof.
  intros [Hf Hty Hl Hv Hi Hr Hfl Hb Hlog Hbu Hnl] Hn Hoff Hmax Hsp. destruct (k_fs s) as [lk ic d] eqn:Es. cbn [ic_lock dsk] in *. subst lk.
  unfold filewrite_chunk. mstep (file_at_run s f x Hf).
  set (f1 := mkFsys false ic (set_busy true d)).
  assert (E1 : disk begin_trans (k_fs s) = Ok tt f1) by (rewrite Es; unfold disk, zoom, begin_trans; mrun1; cbn [dsk]; rewrite Hbu; done).
  mstep (fs_run _ _ _ _ E1).
  set (f2 := with_entry (f_ip x) (set_iflags 3 i) f1).
  assert (E2 : ilock (f_ip x) f1 = Ok tt f2) by (by apply ilock_valid; [done|apply Hi|..]).
  mstep (fs_run (ilock (f_ip x)) (set_fs f1 s) _ _ E2).
  destruct (writei_full fsz bm devsw f2 (f_ip x) (set_iflags 3 i) A ∅ 4 off src) as (f3 & i3 & A3 & E3 & Hi3 & Hv3 & Hl3 & Hc3 & Em3 & Hco3 & Hw3 & _ & Hs3 & (P3 & m3 & Hr3) & Hn3).
  { exact (vol_trans d true (ld_log d) Hv). }
  { apply ifile_flags. destruct Hi as [? Him]. split; try done. exact (proj1 (imap_trans d true (ld_log d) i A) Him). }
  { done. } { by apply chunk_room. } { done. } { done. } { apply chunk_blocks; [lia|done]. } { done. }
  fold n in E3, Em3, Hco3. mstep (fs_run (writei devsw (f_ip x) src off n) (set_fs f2 (set_fs f1 s)) _ _ E3).
  rewrite (proj2 (Z.ltb_lt 0 n)) by lia. cbn [when]. mstep (upd_file_run (set_fs f3 (set_fs f2 (set_fs f1 s))) f x (fun x => set_f_off (f_off x ⊕ n) x) Hf).
  change (f_off x ⊕ n) with (off ⊕ n). rewrite u32_id by (unfold MAXFILE, NDIRECT, NINDIRECT, BSIZE in Hmax; lia).
  set (x' := set_f_off (off + n) x). set (s3 := set_ftable _ _).
  set (f4 := with_entry (f_ip x) (set_iflags I_VALID i3) f3).
  assert (E4 : iunlock (f_ip x) f3 = Ok tt f4) by (apply iunlock_valid; [done|apply Hi3|by rewrite Em3|by rewrite Em3]).
  mstep (fs_run (iunlock (f_ip x)) s3 _ _ E4).
  set (f5 := set_dsk (set_busy false (set_log [] (dsk f3))) f4).
  assert (E5 : disk commit_trans f4 = Ok tt f5).
  { unfold disk, zoom, commit_trans. mrun1. cbn [dsk f4 with_entry set_icache]. rewrite (wr_buf _ _ _ _ Hw3). cbn. rewrite Hb, dom_empty_L.
    rewrite bool_decide_true by done. cbn [negb]. rewrite bool_decide_false; [done|]. pose proof (room_log _ _ _ _ _ Hr3). lia. }
  mstep (fs_run (disk commit_trans) (set_fs f4 s3) _ _ E5).
  eexists _, (set_iflags I_VALID i3), A3. split; [done|]. split_and!.
  - split; try done.
    + cbn. apply list_lookup_insert_eq. by eapply lookup_lt_Some.
    + exact (vol_trans (dsk f3) false [] Hv3).
    + destruct (ifile_flags f3 (f_ip x) i3 A3 I_VALID Hi3) as [G1 G2 G3 G4 G5 G6]. split; try done. exact (proj1 (imap_trans (dsk f3) false [] _ A3) G2).
    + cbn. by rewrite Em3.
    + cbn. by rewrite (wr_buf _ _ _ _ Hw3).
    + cbn. by rewrite (wr_nlog _ _ _ _ Hw3).
  - done.
  - cbn. by rewrite Em3.
  - exact Hco3.
  - exact Hs3.
  - intros j B Hj Hd. pose proof (proj1 (imap_trans d true (ld_log d) j B) Hj) as Hj2.
    destruct (other_kept fsz bm (dsk f2) (dsk f3) (IBLOCK (i_inum i)) (set_iflags 3 i) A j B) as [Hj3 Hb3]; [exact (vol_trans d true (ld_log d) Hv)|apply Hi|exact Hw3|exact Hj2|exact Hd|].
    split; [exact (proj1 (imap_trans (dsk f3) false [] j B) Hj3)|]. split; [exact Hb3|]. intros z Hz Hz'. destruct (Hn3 z Hz') as [?|Hfr]; [by apply (Hd z)|].
    apply elem_of_free in Hfr as [_ Hfr]. destruct (imap_data _ _ _ _ _ Hj Hz) as [_ Hbit]. cbn in Hfr. congruence.
Qed.

(** ** The loop *)

Lemma contents_length f ip i A : vol (dsk f) -> ifile f ip i A -> length (contents (dsk f) i A) = Z.to_nat (i_size i).
Proof.
  intros Hv Hi. unfold contents. rewrite length_take, (fbytes_length fsz bm _ _ _ Hv (if_map _ _ _ _ _ Hi)). pose proof (if_bound _ _ _ _ _ Hi). lia.
Qed.

Lemma filewrite_loop_run fuel : forall s f x i A src k n (off := f_off x),
  opened s f x i A -> 0 <= k <= n -> n = Z.of_nat (length src) -> (Z.to_nat (n - k) < fuel)%nat -> 0 <= off <= i_size i ->
  off + (n - k) <= MAXFILE * BSIZE -> nblk (off + (n - k)) - Z.of_nat (length A) <= spare (dsk (k_fs s)) i ->
  exists s' i' A', filewrite_loop devsw fuel f src k n s = Ok n s' /\ opened s' f (set_f_off (off + (n - k)) x) i' A' /\
    s' = set_ftable (<[f := set_f_off (off + (n - k)) x]> (k_ftable s)) (set_fs (k_fs s') s) /\ i_size i' = Z.max (i_size i) (off + (n - k)) /\
    contents (dsk (k_fs s')) i' A' = splice (contents (dsk (k_fs s)) i A) (Z.to_nat off) (drop (Z.to_nat k) src) /\
    others_kept (dsk (k_fs s)) (dsk (k_fs s')) i A i' A'.
Proof.
  induction fuel as [|fuel IH]; intros s f x i A src k n off Ho Hk Hn Hfu Hoff Hmax Hsp; [lia|]. cbn [filewrite_loop].
  destruct (Z.ltb_spec k n) as [Hlt|Hge].
  2:{ assert (k = n) as -> by lia. rewrite Z.eqb_refl, Z.sub_diag, Z.add_0_r. exists s, i, A. pose proof (op_file _ _ _ _ _ Ho) as Hx.
      assert (Ex : set_f_off off x = x) by (unfold off; by destruct x). rewrite Ex, (list_insert_id _ _ _ Hx). rewrite drop_ge, splice_nil by lia.
      split_and!; [done|done|by destruct s|lia|done|]. intros j B Hj Hd. done. }
  set (n1 := Z.min (n - k) write_max). assert (Hwm : 0 < write_max) by done.
  set (c := take (Z.to_nat n1) (drop (Z.to_nat k) src)). assert (Hc : Z.of_nat (length c) = n1) by (unfold c; rewrite length_take, length_drop; lia).
  pose proof (if_len _ _ _ _ _ (op_inode _ _ _ _ _ Ho)) as HlA.
  assert (Hnb : nblk (off + n1) <= nblk (off + (n - k))) by (unfold nblk, BSIZE; apply Z.div_le_mono; lia).
  destruct (chunk_run s f x i A c) as (s1 & i1 & A1 & E1 & Ho1 & Es1 & Hi1 & Hc1 & Hs1 & Hk1); rewrite ?Hc; fold off; try done; try lia.
  rewrite Hc in E1. mstep E1. fold off in Ho1, Es1, Hi1, Hc1. rewrite Hc in Ho1, Es1, Hi1.
  rewrite (proj2 (Z.ltb_ge n1 0)) by lia. rewrite Z.eqb_refl. cbn [negb].
  pose proof (if_len _ _ _ _ _ (op_inode _ _ _ _ _ Ho1)) as HlA1. rewrite Hi1, nblk_max in HlA1.
  destruct (IH s1 f (set_f_off (off + n1) x) i1 A1 src (k + n1) n) as (s2 & i2 & A2 & E2 & Ho2 & Es2 & Hi2 & Hc2 & Hk2); cbn [f_off set_f_off]; try done; try lia.
  { replace (off + n1 + (n - (k + n1))) with (off + (n - k)) by lia. lia. }
  exists s2, i2, A2. cbn [f_off set_f_off] in Ho2, Es2, Hi2, Hc2. replace (off + n1 + (n - (k + n1))) with (off + (n - k)) in Ho2, Es2, Hi2 by lia.
  split_and!; [done|exact Ho2| |lia| |by eapply others_trans].
  - rewrite Es2, Es1. cbn. by rewrite list_insert_insert_eq.
  - rewrite Hc2, Hc1. replace (Z.to_nat (off + n1)) with (Z.to_nat off + length c)%nat by lia.
    rewrite splice_twice by (rewrite (contents_length _ _ _ _ (op_vol _ _ _ _ _ Ho) (op_inode _ _ _ _ _ Ho)); lia).
    f_equal. replace (Z.to_nat (k + n1)) with (Z.to_nat k + Z.to_nat n1)%nat by lia. rewrite <- drop_drop. unfold c. by rewrite take_drop.
Qed.

(** A chunk that writei refuses leaves everything as it was. *)
Lemma rejected_run s f x i A src n (off := f_off x) fuel :
  opened s f x i A -> 0 < n -> n = Z.of_nat (length src) -> 0 <= off < 2 ^ 32 -> i_size i < off \/ MAXFILE * BSIZE < off + Z.min n write_max ->
  filewrite_loop devsw (S fuel) f src 0 n s = Ok (-1) s.
Proof.
  intros [Hf Hty Hl Hv Hi Hr Hfl Hb Hlog Hbu Hnl] Hn En Hoff Hbad. cbn [filewrite_loop]. rewrite (proj2 (Z.ltb_lt 0 n)) by lia. rewrite Z.sub_0_r.
  set (n1 := Z.min n write_max) in *. assert (0 < write_max) by done. change (drop (Z.to_nat 0) src) with src.
  assert (Hc : Z.of_nat (length (take (Z.to_nat n1) src)) = n1) by (rewrite length_take; lia). set (c := take _ src) in *.
  destruct s as [[lk ic d] km fl ft pp pr]. cbn [k_fs k_ftable ic_lock dsk] in *. subst lk.
  set (s := mkKern _ _ _ _ _ _). set (f1 := mkFsys false ic (set_busy true d)). set (f2 := with_entry (f_ip x) (set_iflags 3 i) f1).
  assert (Hip : icache f1 !! f_ip x = Some i) by apply Hi.
  assert (E : filewrite_chunk devsw f c n1 s = Ok (-1) s).
  { unfold filewrite_chunk. mstep (file_at_run s f x Hf).
    assert (E1 : disk begin_trans (k_fs s) = Ok tt f1) by (unfold disk, zoom, begin_trans; mrun1; cbn; rewrite Hbu; done). mstep (fs_run _ s _ _ E1).
    mstep (fs_run _ (set_fs f1 s) _ _ (ilock_valid f1 (f_ip x) i eq_refl Hip Hr Hfl)). fold f2.
    pose proof (with_entry_at (f_ip x) (set_iflags 3 i) i f1 Hip) as Hip2. fold f2 in Hip2.
    assert (E3 : writei devsw (f_ip x) c off n1 f2 = Ok (-1) f2).
    { rewrite <- Hc. apply (writei_rejected devsw f2 (f_ip x) _ c off Hip2); [apply Hi|done|change write_max with 1536 in *; lia|by rewrite Hc]. }
    mstep (fs_run _ (set_fs f2 (set_fs f1 s)) _ _ E3). cbn [Z.ltb Z.compare when]. mrun1.
    mstep (fs_run _ (set_fs f2 (set_fs f2 (set_fs f1 s))) _ _ (iunlock_valid f2 (f_ip x) _ eq_refl Hip2 Hr eq_refl)). unfold f2. rewrite with_entry_twice.
    assert (Ei : set_iflags I_VALID (set_iflags 3 i) = i) by (destruct i; cbn in *; by subst). rewrite Ei. unfold with_entry. rewrite (list_insert_id _ _ _ Hip).
    assert (E5 : disk commit_trans (set_icache (icache f1) f1) = Ok tt (mkFsys false ic d)).
    { unfold disk, zoom, commit_trans. mrun1. cbn. rewrite Hb, dom_empty_L, bool_decide_true, Hlog by done. cbn. destruct d. cbn in *. by subst. }
    mstep (fs_run _ (set_fs (set_icache (icache f1) f1) (set_fs f2 (set_fs f2 (set_fs f1 s)))) _ _ E5). done. }
  mstep E. rewrite (proj2 (Z.eqb_neq 0 n)) by lia. done.
Qed.

(** C7: A write to an open file whose data the disk has room for (one block
    beyond the data for the indirect block, if the file has none) returns the
    number of bytes asked for, having gone through the transactions of all its
    chunks without a panic of the log or the cache: the bytes are in the file at
    the offset of the descriptor, which moves behind them, the file grows as
    needed, and no other file changes.  A write that starts behind the end of
    the file, or whose first chunk ends behind the largest file, returns -1 and
    changes nothing. *)
Theorem filewrite_correct s f x i A src (n := Z.of_nat (length src)) (off := f_off x) :
  opened s f x i A -> f_writable x = true -> 0 <= off < 2 ^ 32 ->
  (0 < n -> i_size i < off \/ MAXFILE * BSIZE < off + Z.min n write_max -> filewrite devsw f src n s = Ok (-1) s) /\
  (off <= i_size i -> off + n <= MAXFILE * BSIZE -> nblk (off + n) - Z.of_nat (length A) <= spare (dsk (k_fs s)) i ->
   exists s' i' A', filewrite devsw f src n s = Ok n s' /\ opened s' f (set_f_off (off + n) x) i' A' /\
     s' = set_ftable (<[f := set_f_off (off + n) x]> (k_ftable s)) (set_fs (k_fs s') s) /\ i_size i' = Z.max (i_size i) (off + n) /\
     contents (dsk (k_fs s')) i' A' = splice (contents (dsk (k_fs s)) i A) (Z.to_nat off) src /\
     others_kept (dsk (k_fs s)) (dsk (k_fs s')) i A i' A').
Proof.
  intros Ho Hw Hoff. assert (E : filewrite devsw f src n s = filewrite_loop devsw (S (Z.to_nat n)) f src 0 n s).
  { unfold filewrite. mstep (file_at_run s f x (op_file _ _ _ _ _ Ho)). by rewrite Hw, (op_type _ _ _ _ _ Ho). }
  rewrite E. split.
  - intros Hn Hbad. by apply (rejected_run s f x i A).
  - intros Hsz Hmax Hsp. destruct (filewrite_loop_run (S (Z.to_nat n)) s f x i A src 0 n) as (s' & i' & A' & H); fold off; rewrite ?Z.sub_0_r; try done; try lia.
    rewrite Z.sub_0_r in H. exists s', i', A'. exact H.
Qed.

(** ** Reading *)

Lemma fileread_run s f x i A n (off := f_off x) :
  opened s f x i A -> f_readable x = true -> 0 <= off <= i_size i -> 0 <= n -> off + n < 2 ^ 32 ->
  let r := Z.min n (i_size i - off) in
  fileread devsw f n s = Ok (r, slice (contents (dsk (k_fs s)) i A) (Z.to_nat off) (Z.to_nat r)) (set_ftable (<[f := set_f_off (off + r) x]> (k_ftable s)) s).
Proof.
  intros [Hf Hty Hl Hv Hi Hr Hfl Hb Hlog Hbu Hnl] Hrd Hoff Hn Hov r. unfold fileread. mstep (file_at_run s f x Hf). rewrite Hrd, Hty. cbn [negb].
  set (f2 := with_entry (f_ip x) (set_iflags 3 i) (k_fs s)). pose proof (if_cache _ _ _ _ _ Hi) as Hip.
  mstep (fs_run _ s _ _ (ilock_valid (k_fs s) (f_ip x) i Hl Hip Hr Hfl)). fold f2. rewrite (u32_id n) by lia.
  pose proof (ifile_flags (k_fs s) (f_ip x) i A 3 Hi) as Hi2. fold f2 in Hi2.
  assert (E : readi devsw (f_ip x) off n f2 = Ok (r, slice (contents (dsk f2) (set_iflags 3 i) A) (Z.to_nat off) (Z.to_nat r)) f2).
  { rewrite (readi_run fsz bm f2 (f_ip x) (set_iflags 3 i) A ∅); try done; try apply Hi2; try lia.
    - change (i_size (set_iflags 3 i)) with (i_size i). rewrite (proj2 (Z.ltb_ge _ _)), (proj2 (Z.leb_gt _ _)) by lia. done.
    - split; [cbn; rewrite Hlog; constructor|unfold ld_pinned; cbn; rewrite Hlog, Hb; set_solver|rewrite size_empty; unfold NBUF; lia].
    - split; [apply Hi|exact (if_bound _ _ _ _ _ Hi)]. }
  mstep (fs_run _ (set_fs f2 s) _ _ E). cbn [fst].
  pose proof (with_entry_at (f_ip x) (set_iflags 3 i) i (k_fs s) Hip) as Hip2. fold f2 in Hip2.
  assert (Ei : set_iflags I_VALID (set_iflags 3 i) = i) by (destruct i; cbn in *; by subst).
  assert (E4 : iunlock (f_ip x) f2 = Ok tt (k_fs s)).
  { rewrite (iunlock_valid f2 (f_ip x) _ Hl Hip2 Hr eq_refl), Ei. unfold f2. rewrite with_entry_twice. unfold with_entry. rewrite (list_insert_id _ _ _ Hip). by destruct (k_fs s). }
  assert (Es : forall t, set_fs (k_fs s) (set_ftable t (set_fs f2 (set_fs f2 s))) = set_ftable t s) by (by destruct s).
  destruct (Z.ltb_spec 0 r) as [Hp|Hz]; cbn [when].
  - mstep (upd_file_run (set_fs f2 (set_fs f2 s)) f x (fun x => set_f_off (f_off x ⊕ r) x) Hf). change (f_off x ⊕ r) with (off ⊕ r). rewrite u32_id by lia.
    mstep (fs_run _ (set_ftable (<[f := set_f_off (off + r) x]> (k_ftable (set_fs f2 (set_fs f2 s)))) (set_fs f2 (set_fs f2 s))) _ _ E4). by rewrite Es.
  - assert (r = 0) as -> by lia. mrun1. mstep (fs_run _ (set_fs f2 (set_fs f2 s)) _ _ E4). rewrite Z.add_0_r.
    assert (set_f_off off x = x) as -> by (unfold off; by destruct x). rewrite (list_insert_id _ _ _ Hf). by destruct s.
Qed.

(** C11: What is written to a file through one descriptor is read from it
    through another: when [f] and [g] are open on the same inode with the same
    offset, a read of as many bytes from [g] after a write to [f] returns the
    bytes written, and both offsets stand behind them. *)
Theorem written_is_read s f x g y i A src (n := Z.of_nat (length src)) (off := f_off x) :
  opened s f x i A -> opened s g y i A -> f <> g -> f_writable x = true -> f_readable y = true -> f_ip y = f_ip x -> f_off y = off ->
  0 <= off <= i_size i -> off + n <= MAXFILE * BSIZE -> nblk (off + n) - Z.of_nat (length A) <= spare (dsk (k_fs s)) i ->
  exists s' s'', filewrite devsw f src n s = Ok n s' /\ fileread devsw g n s' = Ok (n, src) s'' /\
    k_ftable s'' = <[g := set_f_off (off + n) y]> (<[f := set_f_off (off + n) x]> (k_ftable s)).
Proof.
  intros Ho Hg Hne Hw Hr Hip Hof Hoff Hmax Hsp.
  assert (E : filewrite devsw f src n s = filewrite_loop devsw (S (Z.to_nat n)) f src 0 n s).
  { unfold filewrite. mstep (file_at_run s f x (op_file _ _ _ _ _ Ho)). by rewrite Hw, (op_type _ _ _ _ _ Ho). }
  destruct (filewrite_loop_run (S (Z.to_nat n)) s f x i A src 0 n) as (s' & i' & A' & E' & Ho' & Es & Hsz & Hc & _); fold off; rewrite ?Z.sub_0_r; try done; try lia.
  rewrite Z.sub_0_r in Ho', Es, Hsz. fold off in Ho', Es, Hsz, Hc. change (drop (Z.to_nat 0) src) with src in Hc.
  assert (Hg' : opened s' g y i' A').
  { destruct Ho' as [? ? ? ? Hi ? ? ? ? ?]. split; try done; [|apply Hg|by rewrite Hip]. rewrite Es. cbn. rewrite list_lookup_insert_ne by done. apply Hg. }
  unfold MAXFILE, NDIRECT, NINDIRECT, BSIZE in Hmax.
  pose proof (fileread_run s' g y i' A' n Hg' Hr ltac:(lia) ltac:(lia) ltac:(lia)) as Er. cbv zeta in Er. rewrite Hof, Hsz in Er.
  replace (Z.min n (Z.max (i_size i) (off + n) - off)) with n in Er by lia. eexists s', _. rewrite E. split; [exact E'|]. split; [rewrite Er|].
  - do 2 f_equal. rewrite Hc. unfold n. rewrite Nat2Z.id. apply slice_splice_same'. rewrite (contents_length _ _ _ _ (op_vol _ _ _ _ _ Ho) (op_inode _ _ _ _ _ Ho)). lia.
  - cbn. by rewrite Es.
Qed.
End Filerw.

(** ** Witnesses: two descriptors on the file of the small disk *)

Definition rw_file (r w : bool) : file := mkFile FD_INODE 1 r w 0 0 5.
Definition rw_inode : inode := set_iflags I_VALID demo_inode.
Definition rw_kern (pr : proc) : kern :=
  mkKern (mkFsys false [rw_inode] (set_busy false demo_disk)) (mkKmem false true 0 (fun _ => 0) 0) false [rw_file false true; rw_file true false] ∅ pr.
Lemma rw_opened pr f r w : k_ftable (rw_kern pr) !! f = Some (rw_file r w) -> opened 50 4 (rw_kern pr) f (rw_file r w) rw_inode [5].
Proof.
  intros H. split; try done; [exact (vol_trans 50 4 demo_disk false [] demo_vol)|].
  pose proof (ifile_flags 4 demo_fs 0 demo_inode [5] I_VALID demo_ifile) as [? Hm]. split; try done. exact (proj1 (imap_trans 4 demo_disk false [] _ _) Hm).
Qed.

Definition rw_proc : proc := mkProc 0 0 0 RUNNING 1 None (mkTf 0 0 0 []) 0 0 None false [] None [].
Definition rw_data : list Z := map (fun k => u8 (Z.of_nat k)) (seq 0 2000).
(** 2000 bytes behind the 5 there are: two transactions, three new blocks. *)
Lemma filewrite_correct_witness :
  exists s' i' A', filewrite (fun _ => None) 0 rw_data 2000 (rw_kern rw_proc) = Ok 2000 s' /\ i_size i' = 2005 /\
    contents (dsk (k_fs s')) i' A' = [104; 101; 108; 108; 111] ++ rw_data.
Proof.
  destruct (filewrite_correct 50 4 (fun _ => None) (rw_kern rw_proc) 0 (rw_file false true) rw_inode [5] rw_data) as [_ H]; [by apply rw_opened|done|done|].
  destruct H as (s' & i' & A' & E & _ & _ & Hs & Hc & _); [by vm_compute|by vm_compute|by vm_compute|]. exists s', i', A'. split; [exact E|]. split; [exact Hs|].
  rewrite Hc. vm_compute. reflexivity.
Defined.
Lemma written_is_read_witness :
  exists s' s'', filewrite (fun _ => None) 0 rw_data 2000 (rw_kern rw_proc) = Ok 2000 s' /\ fileread (fun _ => None) 1 2000 s' = Ok (2000, rw_data) s''.
Proof.
  destruct (written_is_read 50 4 (fun _ => None) (rw_kern rw_proc) 0 (rw_file false true) 1 (rw_file true false) rw_inode [5] rw_data) as (s' & s'' & E1 & E2 & _);
    [by apply rw_opened|by apply rw_opened|done|done|done|done|done|by vm_compute|by vm_compute|by vm_compute|].
  exists s', s''. split; [exact E1|exact E2].
Defined.
