(* ===== verification/Sysfile.v ===== *)
(** * sysfile.c: the system calls on files

    Each system call of src/sysfile.c is its whole handler, from the fetching
    of its arguments in user memory to its result.  [name0] is what the
    uninitialised array name[DIRSIZ] holds. *)

From stdpp Require Import functions.
From S2P Require Import Prelude Str Spinlock Bytes Proc Pipe Kalloc Vm Disk Fs Kern File.

Definition O_RDONLY : Z := 0x000.
Definition O_WRONLY : Z := 0x001.
Definition O_RDWR : Z := 0x002.
Definition O_CREATE : Z := 0x200.
Definition MAXARG : Z := 32.

(** [if((x = m) < 0) return -1;] *)
Definition or_fail {A} (m : M kern (option A)) (f : A -> M kern Z) : M kern Z :=
  o ← m; match o with Some a => f a | None => mret (-1) end.

(** The open file of a descriptor. *)
Definition fdfile (fd : Z) : M kern (option (Z * nat)) :=
  x ← me;
  if (fd <? 0) || (Z.of_nat NOFILE <=? fd) then mret None
  else match p_ofile x !! Z.to_nat fd with
       | Some (Some f) => mret (Some (fd, f))
       | _ => mret None
       end.
Definition argfd (n : Z) : M kern (option (Z * nat)) :=
  fd ← argint n;
  match fd with
  | None => mret None
  | Some fd => fdfile fd
  end.

(** The first null descriptor. *)
Fixpoint free_fd (l : list (option nat)) (k : Z) : option Z :=
  match l with
  | [] => None
  | None :: _ => Some k
  | Some _ :: l => free_fd l (k + 1)
  end.
Definition fdalloc (f : nat) : M kern (option Z) :=
  x ← me;
  match free_fd (p_ofile x) 0 with
  | Some fd => upd_me (fun x => set_ofile (<[Z.to_nat fd := Some f]> (p_ofile x)) x);; mret (Some fd)
  | None => mret None
  end.

Definition sys_dup : M kern Z :=
  or_fail (argfd 0) (fun '(_, f) =>
  or_fail (fdalloc f) (fun fd =>
  filedup f;; mret fd)).

Definition close_fd '((fd, f) : Z * nat) : M kern Z :=
  upd_me (fun x => set_ofile (<[Z.to_nat fd := None]> (p_ofile x)) x);;
  fileclose f;;
  mret 0.
Definition sys_close : M kern Z := or_fail (argfd 0) close_fd.

Definition sizeof_stat : Z := 20.
(** The fields stati() assigns; the padding keeps its bytes. *)
Definition ustore_stat (a : Z) (st : stat) : M kern unit :=
  ustore_bytes a (le_bytes 2 (u16 (st_type st)));;
  ustore_bytes (a ⊕ 4) (le_bytes 4 (u32 (st_dev st)));;
  ustore_bytes (a ⊕ 8) (le_bytes 4 (st_ino st));;
  ustore_bytes (a ⊕ 12) (le_bytes 2 (u16 (st_nlink st)));;
  ustore_bytes (a ⊕ 16) (le_bytes 4 (st_size st)).
Definition sys_fstat : M kern Z :=
  or_fail (argfd 0) (fun '(_, f) =>
  or_fail (argptr 1 sizeof_stat) (fun st =>
  or_fail (filestat f) (fun x => ustore_stat st x;; mret 0))).

Definition sys_pipe : M kern Z :=
  or_fail (argptr 0 8) (fun fd =>
  or_fail pipealloc (fun '(rf, wf) =>
  fd0 ← fdalloc rf;
  fd1 ← (match fd0 with Some _ => fdalloc wf | None => mret None end);
  match fd0, fd1 with
  | Some fd0, Some fd1 =>
      ustore_bytes fd (le_bytes 4 (u32 fd0));; ustore_bytes (fd ⊕ 4) (le_bytes 4 (u32 fd1));; mret 0
  | _, _ =>
      match fd0 with
      | Some fd0 => upd_me (fun x => set_ofile (<[Z.to_nat fd0 := None]> (p_ofile x)) x)
      | None => mret tt
      end;;
      fileclose rf;;
      fileclose wf;;
      mret (-1)
  end)).

Section Devices.
Context (devsw : Z -> option ((nat -> Z -> M fsys (Z * list Z)) * (nat -> list Z -> M fsys Z))).
Context (name0 : list Z).

Definition sys_read : M kern Z :=
  or_fail (argfd 0) (fun '(_, f) =>
  or_fail (argint 2) (fun n =>
  or_fail (argptr 1 n) (fun p =>
  r ← fileread devsw f n;
  ustore_bytes p r.2;;
  mret r.1))).

Definition sys_write : M kern Z :=
  or_fail (argfd 0) (fun '(_, f) =>
  or_fail (argint 2) (fun n =>
  or_fail (argptr 1 n) (fun p =>
  src ← uload_bytes p (Z.to_nat n);
  filewrite devsw f src n))).

(** namei(path) and nameiparent(path, name) for the running process. *)
Definition k_namei (path : list Z) : M kern (option nat) :=
  x ← me; cwd ← deref "proc->cwd" (p_cwd x); fs (namei devsw cwd path).
Definition k_nameiparent (path : list Z) : M kern (option nat * list Z) :=
  x ← me; cwd ← deref "proc->cwd" (p_cwd x); fs (nameiparent devsw cwd path name0).

Definition bump_nlink (ip : nat) (d : Z) : M kern unit :=
  fs (upd_inode ip (fun i => set_nlink (i16 (i_nlink i + d)) i));; fs (iupdate ip).

Definition link_bad (ip : nat) : M kern Z :=
  fs (ilock ip);; bump_nlink ip (-1);; fs (iunlockput ip);; fs (disk commit_trans);; mret (-1).
Definition link_paths (old new : list Z) : M kern Z :=
  or_fail (k_namei old) (fun ip =>
  fs (disk begin_trans);;
  fs (ilock ip);;
  i ← fs (inode_at ip);
  if i_type i =? T_DIR then fs (iunlockput ip);; fs (disk commit_trans);; mret (-1)
  else
    bump_nlink ip 1;;
    fs (iunlock ip);;
    r ← k_nameiparent new;
    match r.1 with
    | None => link_bad ip
    | Some dp =>
        fs (ilock dp);;
        d ← fs (inode_at dp);
        i ← fs (inode_at ip);
        bad ← (if negb (i_dev d =? i_dev i) then mret true
               else r ← fs (dirlink devsw dp (of_list r.2) (i_inum i)); mret (r <? 0));
        if (bad : bool) then fs (iunlockput dp);; link_bad ip
        else fs (iunlockput dp);; fs (iput ip);; fs (disk commit_trans);; mret 0
    end).
Definition sys_link : M kern Z := or_fail (argstr 0) (fun old => or_fail (argstr 1) (fun new => link_paths old new)).

Fixpoint isdirempty_loop (fuel : nat) (dp : nat) (off : Z) : M kern bool :=
  match fuel with
  | O => halt SFuel
  | S fuel =>
      d ← fs (inode_at dp);
      if off <? i_size d then
        r ← fs (readi devsw dp off sizeof_de);
        if negb (r.1 =? sizeof_de) then panic "isdirempty: readi"
        else if negb (de_inum r.2 =? 0) then mret false
        else isdirempty_loop fuel dp (off + sizeof_de)
      else mret true
  end.
Definition isdirempty (dp : nat) : M kern bool :=
  d ← fs (inode_at dp); isdirempty_loop (S (Z.to_nat (i_size d))) dp (2 * sizeof_de).

Definition dot : cstr := of_list [46; 0].
Definition dotdot : cstr := of_list [46; 46; 0].

Definition unlink_bad (dp : nat) : M kern Z := fs (iunlockput dp);; fs (disk commit_trans);; mret (-1).
Definition unlink_path (path : list Z) : M kern Z :=
  r ← k_nameiparent path;
  match r.1 with
  | None => mret (-1)
  | Some dp =>
      let name := of_list r.2 in
      fs (disk begin_trans);;
      fs (ilock dp);;
      if (namecmp name dot =? 0) || (namecmp name dotdot =? 0) then unlink_bad dp
      else
        o ← fs (dirlookup devsw dp name);
        match o with
        | None => unlink_bad dp
        | Some (ip, off) =>
            fs (ilock ip);;
            i ← fs (inode_at ip);
            if i_nlink i <? 1 then panic "unlink: nlink < 1"
            else
              full ← (if i_type i =? T_DIR then e ← isdirempty ip; mret (negb e) else mret false);
              if (full : bool) then fs (iunlockput ip);; unlink_bad dp
              else
                w ← fs (writei devsw dp (replicate 16 0) off sizeof_de);
                if negb (w =? sizeof_de) then panic "unlink: writei"
                else
                  when (i_type i =? T_DIR) (bump_nlink dp (-1));;
                  fs (iunlockput dp);;
                  bump_nlink ip (-1);;
                  fs (iunlockput ip);;
                  fs (disk commit_trans);;
                  mret 0
        end
  end.
Definition sys_unlink : M kern Z := or_fail (argstr 0) unlink_path.

Definition create (path : list Z) (type major minor : Z) : M kern (option nat) :=
  r ← k_nameiparent path;
  match r.1 with
  | None => mret None
  | Some dp =>
      let name := of_list r.2 in
      fs (ilock dp);;
      o ← fs (dirlookup devsw dp name);
      match o with
      | Some (ip, _) =>
          fs (iunlockput dp);;
          fs (ilock ip);;
          i ← fs (inode_at ip);
          if (type =? T_FILE) && (i_type i =? T_FILE) then mret (Some ip)
          else fs (iunlockput ip);; mret None
      | None =>
          d ← fs (inode_at dp);
          ip ← fs (ialloc (i_dev d) type);
          fs (ilock ip);;
          fs (upd_inode ip (fun i => set_meta (i_type i) (i16 major) (i16 minor) 1 (i_size i) (i_addrs i) i));;
          fs (iupdate ip);;
          i ← fs (inode_at ip);
          when (type =? T_DIR)
            (bump_nlink dp 1;;
             d ← fs (inode_at dp);
             r1 ← fs (dirlink devsw ip dot (i_inum i));
             if r1 <? 0 then panic "create dots"
             else
               r2 ← fs (dirlink devsw ip dotdot (i_inum d));
               when (r2 <? 0) (panic "create dots"));;
          r3 ← fs (dirlink devsw dp name (i_inum i));
          if r3 <? 0 then panic "create: dirlink"
          else fs (iunlockput dp);; mret (Some ip)
      end
  end.

(** The end of sys_open, with the inode locked. *)
Definition open_file (ip : nat) (omode : Z) : M kern Z :=
  f ← filealloc;
  match f with
  | None => fs (iunlockput ip);; mret (-1)
  | Some f =>
      fd ← fdalloc f;
      match fd with
      | None => fileclose f;; fs (iunlockput ip);; mret (-1)
      | Some fd =>
          fs (iunlock ip);;
          upd_file f (set_f_inode (negb (truth (Z.land omode O_WRONLY))) (truth (Z.land omode O_WRONLY) || truth (Z.land omode O_RDWR)) ip);;
          mret fd
      end
  end.
Definition open_path (path : list Z) (omode : Z) : M kern Z :=
  if truth (Z.land omode O_CREATE) then
    fs (disk begin_trans);;
    ip ← create path T_FILE 0 0;
    fs (disk commit_trans);;
    match ip with None => mret (-1) | Some ip => open_file ip omode end
  else
    or_fail (k_namei path) (fun ip =>
    fs (ilock ip);;
    i ← fs (inode_at ip);
    if (i_type i =? T_DIR) && negb (omode =? O_RDONLY) then fs (iunlockput ip);; mret (-1)
    else open_file ip omode).
Definition sys_open : M kern Z := or_fail (argstr 0) (fun path => or_fail (argint 1) (fun omode => open_path path omode)).

(** sys_mkdir in its transaction. *)
Definition mkdir_path (path : option (list Z)) : M kern Z :=
  ip ← (match path with Some path => create path T_DIR 0 0 | None => mret None end);
  match ip with
  | None => fs (disk commit_trans);; mret (-1)
  | Some ip => fs (iunlockput ip);; fs (disk commit_trans);; mret 0
  end.
Definition sys_mkdir : M kern Z := fs (disk begin_trans);; path ← argstr 0; mkdir_path path.

Definition sys_mknod : M kern Z :=
  fs (disk begin_trans);;
  path ← argstr 0;
  ip ← (match path with
        | None => mret None
        | Some path =>
            major ← argint 1;
            match major with
            | None => mret None
            | Some major =>
                minor ← argint 2;
                match minor with
                | None => mret None
                | Some minor => create path T_DEV major minor
                end
            end
        end);
  match ip with
  | None => fs (disk commit_trans);; mret (-1)
  | Some ip => fs (iunlockput ip);; fs (disk commit_trans);; mret 0
  end.

Definition chdir_path (path : list Z) : M kern Z :=
  or_fail (k_namei path) (fun ip =>
  fs (ilock ip);;
  i ← fs (inode_at ip);
  if negb (i_type i =? T_DIR) then fs (iunlockput ip);; mret (-1)
  else
    fs (iunlock ip);;
    x ← me;
    cwd ← deref "proc->cwd" (p_cwd x);
    fs (iput cwd);;
    upd_me (set_cwd (Some ip));;
    mret 0).
Definition sys_chdir : M kern Z := or_fail (argstr 0) chdir_path.
End Devices.
