(* ===== verification/Usertests.v ===== *)
(** * usertests.c: the tests of files and processes

    The tests of src/usertests.c that are about files, directories, fork and wait,
    as interaction trees over the system calls of Uprog.v, with the programs
    src/forktest.c and src/stressfs.c.  The global buffer is passed from test to
    test.

    [execute] runs programs on the kernel: the calls on files are those of
    Sysfile.v and File.v behind the fetching of their arguments, down to the
    blocks of the disk; fork, exit and wait are those of Proc.v, whose file
    services are the kernel's own and whose memory is always granted.  The
    processes share the processor in turns of [slice] steps, with yield() and the
    scheduler's dispatch between them.  Standard output is collected.

    [booted] is the kernel with init and the process of the tests in the root
    directory of a disk that mkfs (Mkfs.v) has made.  The examples
    [file_tests_pass] and [process_tests_pass] run tests on it and compare all
    that they print: they validate the model of the kernel against the program's
    own test suite.  The other tests of the file run to their "ok" line in the
    same way, in a time that is too long to keep them (createtest, iref,
    createdelete, concreate, sharedfd, bigdir).  fsfull stops the model: balloc()
    has handed out a block of the log, which mkfs does not mark as used
    ([log_blocks_not_marked]).

    The theorem [exit_from_removed_directory_panics] is about a case that no test
    tries, for every state of the kernel. *)

From ITree Require Import ITree.
From S2P Require Import Prelude Str Bytes Interfaces Spinlock Proc Kalloc Pipe Bio Log Crash Disk Fs Fsblk Fsfile Fspath Mkfs Kern File Sysfile Uprog.

(** ** The programs *)

Definition say (s : list Z) : prog unit := printf 1 s [].
(** [if(c){ printf(..); exit(); }] *)
Definition fail_with (c : bool) (s : list Z) (args : list uarg) : prog unit :=
  if c then let* _ := printf 1 s args in exit_ else Ret tt.
Definition fail_if (c : bool) (s : list Z) : prog unit := fail_with c s [].
(** [if(call < 0)], [if(call >= 0)], [if(call != 0)], [if(call == 0)] with their message. *)
Definition must (e : sysE Z) (s : list Z) : prog unit := let* r := call e in fail_if (r <? 0) s.
Definition must_not (e : sysE Z) (s : list Z) : prog unit := let* r := call e in fail_if (0 <=? r) s.
Definition must_zero (e : sysE Z) (s : list Z) : prog unit := let* r := call e in fail_if (negb (r =? 0)) s.
Definition must_fail (e : sysE Z) (s : list Z) : prog unit := let* r := call e in fail_if (r =? 0) s.
Definition ignore (e : sysE Z) : prog unit := let* _ := call e in Ret tt.

Definition CREATE_RDWR : Z := Z.lor O_CREATE O_RDWR.
(** char buf[8192] *)
Definition buffer := list Z.
Definition buf0 : buffer := replicate (Z.to_nat 8192) 0.
(** read(fd, buf, n) *)
Definition read_buf (fd n : Z) (buf : buffer) : prog (Z * buffer) :=
  let* r := call (Read fd n) in
  Ret (match r with Some l => (Z.of_nat (length l), splice buf 0 l) | None => (-1, buf) end).
(** write(fd, buf, n) *)
Definition write_buf (fd n : Z) (buf : buffer) : prog Z := call (Write fd (take (Z.to_nat n) buf)).
Definition upto (n : nat) (f : Z -> prog unit) : prog unit := each (List.map Z.of_nat (seq 0 n)) f.
Definition char_at (buf : buffer) (k : nat) : Z := nth k buf 0.

Definition opentest : prog unit :=
  let* _ := say (line "open test") in
  let* fd := call (Open (lit "echo") 0) in
  let* _ := fail_if (fd <? 0) (line "open echo failed!") in
  let* _ := call (Close fd) in
  let* fd := call (Open (lit "doesnotexist") 0) in
  let* _ := fail_if (0 <=? fd) (line "open doesnotexist succeeded!") in
  say (line "open test ok").

Definition writetest (buf : buffer) : prog buffer :=
  let* _ := say (line "small file test") in
  let* fd := call (Open (lit "small") CREATE_RDWR) in
  let* _ := (if 0 <=? fd then say (line "creat small succeeded; ok") else fail_if true (line "error: creat small failed!")) in
  let* _ := upto 100 (fun i =>
    let* r := call (Write fd (lit "aaaaaaaaaa")) in
    let* _ := fail_with (negb (r =? 10)) (line "error: write aa %d new file failed") [UInt i] in
    let* r := call (Write fd (lit "bbbbbbbbbb")) in
    fail_with (negb (r =? 10)) (line "error: write bb %d new file failed") [UInt i]) in
  let* _ := say (line "writes ok") in
  let* _ := call (Close fd) in
  let* fd := call (Open (lit "small") 0) in
  let* _ := (if 0 <=? fd then say (line "open small succeeded ok") else fail_if true (line "error: open small failed!")) in
  let* (i, buf) := read_buf fd 2000 buf in
  let* _ := (if i =? 2000 then say (line "read succeeded ok") else fail_if true (line "read failed")) in
  let* _ := call (Close fd) in
  let* _ := must (Unlink (lit "small")) (line "unlink small failed") in
  let* _ := say (line "small file test ok") in
  Ret buf.

(** The blocks are written with their number in front. *)
Fixpoint write_blocks (fd : Z) (l : list Z) (buf : buffer) : prog buffer :=
  match l with
  | [] => Ret buf
  | i :: l =>
      let buf := splice buf 0 (le_bytes 4 i) in
      let* r := write_buf fd 512 buf in
      let* _ := fail_with (negb (r =? 512)) (line "error: write big file failed") [UInt i] in
      write_blocks fd l buf
  end.
Definition writetest1 (buf : buffer) : prog buffer :=
  let* _ := say (line "big files test") in
  let* fd := call (Open (lit "big") CREATE_RDWR) in
  let* _ := fail_if (fd <? 0) (line "error: creat big failed!") in
  let* buf := write_blocks fd (List.map Z.of_nat (seq 0 (Z.to_nat MAXFILE))) buf in
  let* _ := call (Close fd) in
  let* fd := call (Open (lit "big") 0) in
  let* _ := fail_if (fd <? 0) (line "error: open big failed!") in
  let* buf := ITree.iter (fun '(n, buf) =>
    let* (i, buf) := read_buf fd 512 buf in
    if i =? 0 then
      let* _ := fail_with (n =? MAXFILE - 1) (lit "read only %d blocks from big") [UInt n] in Ret (inr buf)
    else
      let* _ := fail_with (negb (i =? 512)) (line "read failed %d") [UInt i] in
      let w := i32 (le_value (take 4 buf)) in
      let* _ := fail_with (negb (w =? n)) (line "read content of block %d is %d") [UInt n; UInt w] in
      Ret (inl (n + 1, buf))) (0, buf) in
  let* _ := call (Close fd) in
  let* _ := must (Unlink (lit "big")) (line "unlink big failed") in
  let* _ := say (line "big files ok") in
  Ret buf.

(** The names a0, a1, ... *)
Definition name2 (c i : Z) : list Z := [c; 48 + i].
Definition createtest : prog unit :=
  let* _ := say (line "many creates, followed by unlink test") in
  let* _ := upto 52 (fun i => let* fd := call (Open (name2 97 i) CREATE_RDWR) in ignore (Close fd)) in
  let* _ := upto 52 (fun i => ignore (Unlink (name2 97 i))) in
  say (line "many creates, followed by unlink; ok").

Definition dirtest : prog unit :=
  let* _ := say (line "mkdir test") in
  let* _ := must (Mkdir (lit "dir0")) (line "mkdir failed") in
  let* _ := must (Chdir (lit "dir0")) (line "chdir dir0 failed") in
  let* _ := must (Chdir (lit "..")) (line "chdir .. failed") in
  let* _ := must (Unlink (lit "dir0")) (line "unlink dir0 failed") in
  say (line "mkdir test").

Definition unlinkread (buf : buffer) : prog buffer :=
  let* _ := say (line "unlinkread test") in
  let* fd := call (Open (lit "unlinkread") CREATE_RDWR) in
  let* _ := fail_if (fd <? 0) (line "create unlinkread failed") in
  let* _ := call (Write fd (lit "hello")) in
  let* _ := call (Close fd) in
  let* fd := call (Open (lit "unlinkread") O_RDWR) in
  let* _ := fail_if (fd <? 0) (line "open unlinkread failed") in
  let* _ := must_zero (Unlink (lit "unlinkread")) (line "unlink unlinkread failed") in
  let* fd1 := call (Open (lit "unlinkread") CREATE_RDWR) in
  let* _ := call (Write fd1 (lit "yyy")) in
  let* _ := call (Close fd1) in
  let* (n, buf) := read_buf fd 8192 buf in
  let* _ := fail_if (negb (n =? 5)) (lit "unlinkread read failed") in
  let* _ := fail_if (negb (char_at buf 0 =? 104)) (line "unlinkread wrong data") in
  let* r := write_buf fd 10 buf in
  let* _ := fail_if (negb (r =? 10)) (line "unlinkread write failed") in
  let* _ := call (Close fd) in
  let* _ := call (Unlink (lit "unlinkread")) in
  let* _ := say (line "unlinkread ok") in
  Ret buf.

Definition linktest (buf : buffer) : prog buffer :=
  let* _ := say (line "linktest") in
  let* _ := call (Unlink (lit "lf1")) in
  let* _ := call (Unlink (lit "lf2")) in
  let* fd := call (Open (lit "lf1") CREATE_RDWR) in
  let* _ := fail_if (fd <? 0) (line "create lf1 failed") in
  let* r := call (Write fd (lit "hello")) in
  let* _ := fail_if (negb (r =? 5)) (line "write lf1 failed") in
  let* _ := call (Close fd) in
  let* _ := must (Link (lit "lf1") (lit "lf2")) (line "link lf1 lf2 failed") in
  let* _ := call (Unlink (lit "lf1")) in
  let* _ := must_not (Open (lit "lf1") 0) (line "unlinked lf1 but it is still there!") in
  let* fd := call (Open (lit "lf2") 0) in
  let* _ := fail_if (fd <? 0) (line "open lf2 failed") in
  let* (n, buf) := read_buf fd 8192 buf in
  let* _ := fail_if (negb (n =? 5)) (line "read lf2 failed") in
  let* _ := call (Close fd) in
  let* _ := must_not (Link (lit "lf2") (lit "lf2")) (line "link lf2 lf2 succeeded! oops") in
  let* _ := call (Unlink (lit "lf2")) in
  let* _ := must_not (Link (lit "lf2") (lit "lf1")) (line "link non-existant succeeded! oops") in
  let* _ := must_not (Link (lit ".") (lit "lf1")) (line "link . lf1 succeeded! oops") in
  let* _ := say (line "linktest ok") in
  Ret buf.

Definition name3 (i : Z) : list Z := [120; 48 + i / 64; 48 + i mod 64].
Definition bigdir : prog unit :=
  let* _ := say (line "bigdir test") in
  let* _ := call (Unlink (lit "bd")) in
  let* fd := call (Open (lit "bd") O_CREATE) in
  let* _ := fail_if (fd <? 0) (line "bigdir create failed") in
  let* _ := call (Close fd) in
  let* _ := upto (Z.to_nat 500) (fun i => must_zero (Link (lit "bd") (name3 i)) (line "bigdir link failed")) in
  let* _ := call (Unlink (lit "bd")) in
  let* _ := upto (Z.to_nat 500) (fun i => must_zero (Unlink (name3 i)) (lit "bigdir unlink failed")) in
  say (line "bigdir ok").

Definition subdir (buf : buffer) : prog buffer :=
  let* _ := say (line "subdir test") in
  let* _ := call (Unlink (lit "ff")) in
  let* _ := must_zero (Mkdir (lit "dd")) (line "subdir mkdir dd failed") in
  let* fd := call (Open (lit "dd/ff") CREATE_RDWR) in
  let* _ := fail_if (fd <? 0) (line "create dd/ff failed") in
  let* _ := call (Write fd (lit "ff")) in
  let* _ := call (Close fd) in
  let* _ := must_not (Unlink (lit "dd")) (line "unlink dd (non-empty dir) succeeded!") in
  let* _ := must_zero (Mkdir (lit "/dd/dd")) (line "subdir mkdir dd/dd failed") in
  let* fd := call (Open (lit "dd/dd/ff") CREATE_RDWR) in
  let* _ := fail_if (fd <? 0) (line "create dd/dd/ff failed") in
  let* _ := call (Write fd (lit "FF")) in
  let* _ := call (Close fd) in
  let* fd := call (Open (lit "dd/dd/../ff") 0) in
  let* _ := fail_if (fd <? 0) (line "open dd/dd/../ff failed") in
  let* (cc, buf) := read_buf fd 8192 buf in
  let* _ := fail_if (negb (cc =? 2) || negb (char_at buf 0 =? 102)) (line "dd/dd/../ff wrong content") in
  let* _ := call (Close fd) in
  let* _ := must_zero (Link (lit "dd/dd/ff") (lit "dd/dd/ffff")) (line "link dd/dd/ff dd/dd/ffff failed") in
  let* _ := must_zero (Unlink (lit "dd/dd/ff")) (line "unlink dd/dd/ff failed") in
  let* _ := must_not (Open (lit "dd/dd/ff") O_RDONLY) (line "open (unlinked) dd/dd/ff succeeded") in
  let* _ := must_zero (Chdir (lit "dd")) (line "chdir dd failed") in
  let* _ := must_zero (Chdir (lit "dd/../../dd")) (line "chdir dd/../../dd failed") in
  let* _ := must_zero (Chdir (lit "dd/../../../dd")) (line "chdir dd/../../dd failed") in
  let* _ := must_zero (Chdir (lit "./..")) (line "chdir ./.. failed") in
  let* fd := call (Open (lit "dd/dd/ffff") 0) in
  let* _ := fail_if (fd <? 0) (line "open dd/dd/ffff failed") in
  let* (cc, buf) := read_buf fd 8192 buf in
  let* _ := fail_if (negb (cc =? 2)) (line "read dd/dd/ffff wrong len") in
  let* _ := call (Close fd) in
  let* _ := must_not (Open (lit "dd/dd/ff") O_RDONLY) (line "open (unlinked) dd/dd/ff succeeded!") in
  let* _ := must_not (Open (lit "dd/ff/ff") CREATE_RDWR) (line "create dd/ff/ff succeeded!") in
  let* _ := must_not (Open (lit "dd/xx/ff") CREATE_RDWR) (line "create dd/xx/ff succeeded!") in
  let* _ := must_not (Open (lit "dd") O_CREATE) (line "create dd succeeded!") in
  let* _ := must_not (Open (lit "dd") O_RDWR) (line "open dd rdwr succeeded!") in
  let* _ := must_not (Open (lit "dd") O_WRONLY) (line "open dd wronly succeeded!") in
  let* _ := must_fail (Link (lit "dd/ff/ff") (lit "dd/dd/xx")) (line "link dd/ff/ff dd/dd/xx succeeded!") in
  let* _ := must_fail (Link (lit "dd/xx/ff") (lit "dd/dd/xx")) (line "link dd/xx/ff dd/dd/xx succeeded!") in
  let* _ := must_fail (Link (lit "dd/ff") (lit "dd/dd/ffff")) (line "link dd/ff dd/dd/ffff succeeded!") in
  let* _ := must_fail (Mkdir (lit "dd/ff/ff")) (line "mkdir dd/ff/ff succeeded!") in
  let* _ := must_fail (Mkdir (lit "dd/xx/ff")) (line "mkdir dd/xx/ff succeeded!") in
  let* _ := must_fail (Mkdir (lit "dd/dd/ffff")) (line "mkdir dd/dd/ffff succeeded!") in
  let* _ := must_fail (Unlink (lit "dd/xx/ff")) (line "unlink dd/xx/ff succeeded!") in
  let* _ := must_fail (Unlink (lit "dd/ff/ff")) (line "unlink dd/ff/ff succeeded!") in
  let* _ := must_fail (Chdir (lit "dd/ff")) (line "chdir dd/ff succeeded!") in
  let* _ := must_fail (Chdir (lit "dd/xx")) (line "chdir dd/xx succeeded!") in
  let* _ := must_zero (Unlink (lit "dd/dd/ffff")) (line "unlink dd/dd/ff failed") in
  let* _ := must_zero (Unlink (lit "dd/ff")) (line "unlink dd/ff failed") in
  let* _ := must_fail (Unlink (lit "dd")) (line "unlink non-empty dd succeeded!") in
  let* _ := must (Unlink (lit "dd/dd")) (line "unlink dd/dd failed") in
  let* _ := must (Unlink (lit "dd")) (line "unlink dd failed") in
  let* _ := say (line "subdir ok") in
  Ret buf.

(** [for(sz = 499; sz < 12*512; sz += 471)] *)
Definition bigwrite_sizes : list Z := List.map (fun k => 499 + 471 * Z.of_nat k) (seq 0 12).
Definition bigwrite (buf : buffer) : prog unit :=
  let* _ := say (line "bigwrite test") in
  let* _ := call (Unlink (lit "bigwrite")) in
  let* _ := each bigwrite_sizes (fun sz =>
    let* fd := call (Open (lit "bigwrite") CREATE_RDWR) in
    let* _ := fail_if (fd <? 0) (line "cannot create bigwrite") in
    let* _ := upto 2 (fun _ =>
      let* cc := write_buf fd sz buf in
      fail_with (negb (cc =? sz)) (line "write(%d) ret %d") [UInt sz; UInt cc]) in
    let* _ := call (Close fd) in
    ignore (Unlink (lit "bigwrite"))) in
  say (line "bigwrite ok").

Fixpoint write_600 (fd : Z) (l : list Z) (buf : buffer) : prog buffer :=
  match l with
  | [] => Ret buf
  | i :: l =>
      let buf := splice buf 0 (replicate (Z.to_nat 600) i) in
      let* r := write_buf fd 600 buf in
      let* _ := fail_if (negb (r =? 600)) (line "write bigfile failed") in
      write_600 fd l buf
  end.
Definition bigfile (buf : buffer) : prog buffer :=
  let* _ := say (line "bigfile test") in
  let* _ := call (Unlink (lit "bigfile")) in
  let* fd := call (Open (lit "bigfile") CREATE_RDWR) in
  let* _ := fail_if (fd <? 0) (lit "cannot create bigfile") in
  let* buf := write_600 fd (List.map Z.of_nat (seq 0 20)) buf in
  let* _ := call (Close fd) in
  let* fd := call (Open (lit "bigfile") 0) in
  let* _ := fail_if (fd <? 0) (line "cannot open bigfile") in
  let* (total, buf) := ITree.iter (fun '(i, total, buf) =>
    let* (cc, buf) := read_buf fd 300 buf in
    let* _ := fail_if (cc <? 0) (line "read bigfile failed") in
    if cc =? 0 then Ret (inr (total, buf))
    else
      let* _ := fail_if (negb (cc =? 300)) (line "short read bigfile") in
      let* _ := fail_if (negb (char_at buf 0 =? i / 2) || negb (char_at buf (Z.to_nat 299) =? i / 2)) (line "read bigfile wrong data") in
      Ret (inl (i + 1, total + cc, buf))) (0, 0, buf) in
  let* _ := call (Close fd) in
  let* _ := fail_if (negb (total =? 20 * 600)) (line "read bigfile wrong total") in
  let* _ := call (Unlink (lit "bigfile")) in
  let* _ := say (line "bigfile test ok") in
  Ret buf.

Definition fourteen : prog unit :=
  let* _ := say (line "fourteen test") in
  let* _ := must_zero (Mkdir (lit "12345678901234")) (line "mkdir 12345678901234 failed") in
  let* _ := must_zero (Mkdir (lit "12345678901234/123456789012345")) (line "mkdir 12345678901234/123456789012345 failed") in
  let* fd := call (Open (lit "123456789012345/123456789012345/123456789012345") O_CREATE) in
  let* _ := fail_if (fd <? 0) (line "create 123456789012345/123456789012345/123456789012345 failed") in
  let* _ := call (Close fd) in
  let* fd := call (Open (lit "12345678901234/12345678901234/12345678901234") 0) in
  let* _ := fail_if (fd <? 0) (line "open 12345678901234/12345678901234/12345678901234 failed") in
  let* _ := call (Close fd) in
  let* _ := must_fail (Mkdir (lit "12345678901234/12345678901234")) (line "mkdir 12345678901234/12345678901234 succeeded!") in
  let* _ := must_fail (Mkdir (lit "123456789012345/12345678901234")) (line "mkdir 12345678901234/123456789012345 succeeded!") in
  say (line "fourteen ok").

Definition rmdot : prog unit :=
  let* _ := say (line "rmdot test") in
  let* _ := must_zero (Mkdir (lit "dots")) (line "mkdir dots failed") in
  let* _ := must_zero (Chdir (lit "dots")) (line "chdir dots failed") in
  let* _ := must_fail (Unlink (lit ".")) (line "rm . worked!") in
  let* _ := must_fail (Unlink (lit "..")) (line "rm .. worked!") in
  let* _ := must_zero (Chdir (lit "/")) (line "chdir / failed") in
  let* _ := must_fail (Unlink (lit "dots/.")) (line "unlink dots/. worked!") in
  let* _ := must_fail (Unlink (lit "dots/..")) (line "unlink dots/.. worked!") in
  let* _ := must_zero (Unlink (lit "dots")) (line "unlink dots failed!") in
  say (line "rmdot ok").

Definition dirfile : prog unit :=
  let* _ := say (line "dir vs file") in
  let* fd := call (Open (lit "dirfile") O_CREATE) in
  let* _ := fail_if (fd <? 0) (line "create dirfile failed") in
  let* _ := call (Close fd) in
  let* _ := must_fail (Chdir (lit "dirfile")) (line "chdir dirfile succeeded!") in
  let* _ := must_not (Open (lit "dirfile/xx") 0) (line "create dirfile/xx succeeded!") in
  let* _ := must_not (Open (lit "dirfile/xx") O_CREATE) (line "create dirfile/xx succeeded!") in
  let* _ := must_fail (Mkdir (lit "dirfile/xx")) (line "mkdir dirfile/xx succeeded!") in
  let* _ := must_fail (Unlink (lit "dirfile/xx")) (line "unlink dirfile/xx succeeded!") in
  let* _ := must_fail (Link (lit "README") (lit "dirfile/xx")) (line "link to dirfile/xx succeeded!") in
  let* _ := must_zero (Unlink (lit "dirfile")) (line "unlink dirfile failed!") in
  let* _ := must_not (Open (lit ".") O_RDWR) (line "open . for writing succeeded!") in
  let* fd := call (Open (lit ".") 0) in
  let* r := call (Write fd (lit "x")) in
  let* _ := fail_if (0 <? r) (line "write . succeeded!") in
  let* _ := call (Close fd) in
  say (line "dir vs file OK").

Definition iref : prog unit :=
  let* _ := say (line "empty file name") in
  let* _ := upto 51 (fun _ =>
    let* _ := must_zero (Mkdir (lit "irefd")) (line "mkdir irefd failed") in
    let* _ := must_zero (Chdir (lit "irefd")) (line "chdir irefd failed") in
    let* _ := call (Mkdir []) in
    let* _ := call (Link (lit "README") []) in
    let* fd := call (Open [] O_CREATE) in
    let* _ := (if 0 <=? fd then ignore (Close fd) else Ret tt) in
    let* fd := call (Open (lit "xx") O_CREATE) in
    let* _ := (if 0 <=? fd then ignore (Close fd) else Ret tt) in
    ignore (Unlink (lit "xx"))) in
  let* _ := call (Chdir (lit "/")) in
  say (line "empty file name OK").

(** ** Tests with several processes *)

Definition exitwait : prog unit :=
  ITree.iter (fun i =>
    if i <? 100 then
      let* pid := call Fork in
      if pid <? 0 then let* _ := say (line "fork failed") in Ret (inr tt)
      else if negb (pid =? 0) then
        let* r := call Wait in
        if negb (r =? pid) then let* _ := say (line "wait wrong pid") in Ret (inr tt) else Ret (inl (i + 1))
      else exit_
    else let* _ := say (line "exitwait ok") in Ret (inr tt)) 0.

(** The reads of sharedfd: ten bytes at a time into buf, of which all are counted. *)
Definition count (c : Z) (l : list Z) : Z := Z.of_nat (length (List.filter (Z.eqb c) l)).
Definition sharedfd : prog unit :=
  let* _ := say (line "sharedfd test") in
  let* _ := call (Unlink (lit "sharedfd")) in
  let* fd := call (Open (lit "sharedfd") CREATE_RDWR) in
  if fd <? 0 then say (lit "fstests: cannot open sharedfd for writing")
  else
    let* pid := call Fork in
    let buf := replicate 10 (if pid =? 0 then 99 else 112) in
    let* _ := ITree.iter (fun i =>
      if i <? 1000 then
        let* r := call (Write fd buf) in
        if negb (r =? 10) then let* _ := say (line "fstests: write sharedfd failed") in Ret (inr tt) else Ret (inl (i + 1))
      else Ret (inr tt)) 0 in
    let* _ := (if pid =? 0 then exit_ else ignore Wait) in
    let* _ := call (Close fd) in
    let* fd := call (Open (lit "sharedfd") 0) in
    if fd <? 0 then say (line "fstests: cannot open sharedfd for reading")
    else
      let* (nc, np) := ITree.iter (fun '(nc, np, buf) =>
        let* r := call (Read fd 10) in
        match r with
        | Some (c :: l) => let buf := splice buf 0 (c :: l) in Ret (inl (nc + count 99 buf, np + count 112 buf, buf))
        | _ => Ret (inr (nc, np))
        end) (0, 0, buf) in
      let* _ := call (Close fd) in
      let* _ := call (Unlink (lit "sharedfd")) in
      if (nc =? 10000) && (np =? 10000) then say (line "sharedfd ok")
      else fail_with true (line "sharedfd oops %d %d") [UInt nc; UInt np].

Definition twofiles (buf : buffer) : prog buffer :=
  let* _ := say (line "twofiles test") in
  let* _ := call (Unlink (lit "f1")) in
  let* _ := call (Unlink (lit "f2")) in
  let* pid := call Fork in
  let* _ := fail_if (pid <? 0) (line "fork failed") in
  let* fd := call (Open (if pid =? 0 then lit "f2" else lit "f1") CREATE_RDWR) in
  let* _ := fail_if (fd <? 0) (line "create failed") in
  let buf := splice buf 0 (replicate 512 (if pid =? 0 then 99 else 112)) in
  let* _ := upto 12 (fun _ =>
    let* n := write_buf fd 500 buf in
    fail_with (negb (n =? 500)) (line "write failed %d") [UInt n]) in
  let* _ := call (Close fd) in
  let* _ := (if pid =? 0 then exit_ else ignore Wait) in
  let* buf := ITree.iter (fun '(i, buf) =>
    if i <? 2 then
      let* fd := call (Open (if i =? 0 then lit "f2" else lit "f1") 0) in
      let* (total, buf) := ITree.iter (fun '(total, buf) =>
        let* (n, buf) := read_buf fd 8192 buf in
        if 0 <? n then
          let* _ := fail_if (existsb (fun c => negb (c =? (if i =? 0 then 99 else 112))) (take (Z.to_nat n) buf)) (line "wrong char") in
          Ret (inl (total + n, buf))
        else Ret (inr (total, buf))) (0, buf) in
      let* _ := call (Close fd) in
      let* _ := fail_with (negb (total =? 12 * 500)) (line "wrong length %d") [UInt total] in
      Ret (inl (i + 1, buf))
    else Ret (inr buf)) (0, buf) in
  let* _ := call (Unlink (lit "f1")) in
  let* _ := call (Unlink (lit "f2")) in
  let* _ := say (line "twofiles ok") in
  Ret buf.

(** fsfull: a file of as many blocks as it takes, and its name. *)
Definition name4 (n : Z) : list Z := [102; 48 + n / 1000; 48 + (n mod 1000) / 100; 48 + (n mod 100) / 10; 48 + n mod 10].
Definition fill_file (fd : Z) (buf : buffer) : prog Z :=
  ITree.iter (fun total =>
    let* cc := write_buf fd 512 buf in
    if cc <? 512 then Ret (inr total) else Ret (inl (total + cc))) 0.
Definition fsfull (buf : buffer) : prog unit :=
  let* _ := say (line "fsfull test") in
  let* nfiles := ITree.iter (fun nfiles =>
    let* _ := printf 1 (line "writing %s") [UStr (name4 nfiles)] in
    let* fd := call (Open (name4 nfiles) CREATE_RDWR) in
    if fd <? 0 then let* _ := printf 1 (line "open %s failed") [UStr (name4 nfiles)] in Ret (inr nfiles)
    else
      let* total := fill_file fd buf in
      let* _ := printf 1 (line "wrote %d bytes") [UInt total] in
      let* _ := call (Close fd) in
      if total =? 0 then Ret (inr nfiles) else Ret (inl (nfiles + 1))) 0 in
  let* _ := ITree.iter (fun n =>
    if 0 <=? n then let* _ := call (Unlink (name4 n)) in Ret (inl (n - 1)) else Ret (inr tt)) nfiles in
  say (line "fsfull test finished").

(** A file that must exist exactly when [i] is 0 or at least 10. *)
Definition expect_file (c i : Z) : prog unit :=
  let* fd := call (Open (name2 c i) 0) in
  let* _ := (if ((i =? 0) || (10 <=? i)) && (fd <? 0) then fail_with true (line "oops createdelete %s didn't exist") [UStr (name2 c i)]
             else fail_with ((1 <=? i) && (i <? 10) && (0 <=? fd)) (line "oops createdelete %s did exist") [UStr (name2 c i)]) in
  if 0 <=? fd then ignore (Close fd) else Ret tt.
Definition createdelete : prog unit :=
  let* _ := say (line "createdelete test") in
  let* pid := call Fork in
  let* _ := fail_if (pid <? 0) (line "fork failed") in
  let c := if pid =? 0 then 99 else 112 in
  let* _ := upto 20 (fun i =>
    let* fd := call (Open (name2 c i) CREATE_RDWR) in
    let* _ := fail_if (fd <? 0) (line "create failed") in
    let* _ := call (Close fd) in
    if (0 <? i) && (i mod 2 =? 0) then must (Unlink (name2 c (i / 2))) (line "unlink failed") else Ret tt) in
  let* _ := (if pid =? 0 then exit_ else ignore Wait) in
  let* _ := upto 20 (fun i => let* _ := expect_file 112 i in expect_file 99 i) in
  let* _ := upto 20 (fun i => let* _ := call (Unlink (name2 112 i)) in ignore (Unlink (name2 99 i))) in
  say (line "createdelete ok").

(** The directory entries of concreate: [fa] holds the names seen, [de] the entry last read. *)
Definition concreate_list (fd : Z) : prog Z :=
  ITree.iter (fun '(fa, n, de) =>
    let* (r, de) := read_buf fd 16 de in
    if r <=? 0 then Ret (inr n)
    else if le_value (take 2 de) =? 0 then Ret (inl (fa, n, de))
    else if (char_at de 2 =? 67) && (char_at de 4 =? 0) then
      let i := char_at de 3 - 48 in
      let* _ := fail_with ((i <? 0) || (40 <=? i)) (line "concreate weird file %s") [UStr (until_nul (drop 2 de))] in
      let* _ := fail_with (existsb (Z.eqb i) fa) (line "concreate duplicate file %s") [UStr (until_nul (drop 2 de))] in
      Ret (inl (i :: fa, n + 1, de))
    else Ret (inl (fa, n, de))) ([], 0, replicate 16 0).
Definition concreate : prog unit :=
  let* _ := say (line "concreate test") in
  let* _ := upto 40 (fun i =>
    let file := name2 67 i in
    let* _ := call (Unlink file) in
    let* pid := call Fork in
    let* _ := (if negb (pid =? 0) && (i mod 3 =? 1) then ignore (Link (lit "C0") file)
               else if (pid =? 0) && (i mod 5 =? 1) then ignore (Link (lit "C0") file)
               else
                 let* fd := call (Open file CREATE_RDWR) in
                 let* _ := fail_with (fd <? 0) (line "concreate create %s failed") [UStr file] in
                 ignore (Close fd)) in
    if pid =? 0 then exit_ else ignore Wait) in
  let* fd := call (Open (lit ".") 0) in
  let* n := concreate_list fd in
  let* _ := call (Close fd) in
  let* _ := fail_if (negb (n =? 40)) (line "concreate not enough files in directory listing") in
  let* _ := upto 40 (fun i =>
    let file := name2 67 i in
    let* pid := call Fork in
    let* _ := fail_if (pid <? 0) (line "fork failed") in
    let* _ := (if ((i mod 3 =? 0) && (pid =? 0)) || ((i mod 3 =? 1) && negb (pid =? 0))
               then upto 4 (fun _ => let* fd := call (Open file 0) in ignore (Close fd))
               else upto 4 (fun _ => ignore (Unlink file))) in
    if pid =? 0 then exit_ else ignore Wait) in
  say (line "concreate ok").

Definition linkunlink : prog unit :=
  let* _ := say (line "linkunlink test") in
  let* _ := call (Unlink (lit "x")) in
  let* pid := call Fork in
  let* _ := fail_if (pid <? 0) (line "fork failed") in
  let* _ := ITree.iter (fun '(i, x) =>
    if i <? 100 then
      let x := u32 (x * 1103515245 + 12345) in
      let* _ := (if x mod 3 =? 0 then let* fd := call (Open (lit "x") CREATE_RDWR) in ignore (Close fd)
                 else if x mod 3 =? 1 then ignore (Link (lit "cat") (lit "x"))
                 else ignore (Unlink (lit "x"))) in
      Ret (inl (i + 1, x))
    else Ret (inr tt)) (0, if pid =? 0 then 97 else 1) in
  let* _ := (if pid =? 0 then exit_ else ignore Wait) in
  say (line "linkunlink ok").

Definition forktest : prog unit :=
  let* _ := say (line "fork test") in
  let* n := ITree.iter (fun n =>
    if n <? 1000 then
      let* pid := call Fork in
      if pid <? 0 then Ret (inr n) else if pid =? 0 then exit_ else Ret (inl (n + 1))
    else Ret (inr n)) 0 in
  let* _ := fail_if (n =? 1000) (line "fork claimed to work 1000 times!") in
  let* _ := ITree.iter (fun n =>
    if 0 <? n then let* r := call Wait in let* _ := fail_if (r <? 0) (line "wait stopped early") in Ret (inl (n - 1))
    else Ret (inr tt)) n in
  let* r := call Wait in
  let* _ := fail_if (negb (r =? -1)) (line "wait got too many") in
  say (line "fork test OK").

(** ** forktest.c and stressfs.c *)

(** forktest.c has a printf of its own, which only writes the format. *)
Definition put_ (fd : Z) (s : list Z) : prog unit := ignore (Write fd s).
Definition put_exit (c : bool) (s : list Z) : prog unit := if c then let* _ := put_ 1 s in exit_ else Ret tt.
Definition forktest_ : prog unit :=
  let* _ := put_ 1 (line "fork test") in
  let* n := ITree.iter (fun n =>
    if n <? 1000 then
      let* pid := call Fork in
      if pid <? 0 then Ret (inr n) else if pid =? 0 then exit_ else Ret (inl (n + 1))
    else Ret (inr n)) 0 in
  let* _ := put_exit (n =? 1000) (line "fork claimed to work N times!") in
  let* _ := ITree.iter (fun n =>
    if 0 <? n then let* r := call Wait in let* _ := put_exit (r <? 0) (line "wait stopped early") in Ret (inl (n - 1))
    else Ret (inr tt)) n in
  let* r := call Wait in
  let* _ := put_exit (negb (r =? -1)) (line "wait got too many") in
  put_ 1 (line "fork test OK").
Definition forktest_main : prog unit := let* _ := forktest_ in exit_.

Definition stressfs_main : prog unit :=
  let* _ := say (line "stressfs starting") in
  let data := replicate 512 97 in
  let* i := ITree.iter (fun i =>
    if i <? 4 then let* r := call Fork in if 0 <? r then Ret (inr i) else Ret (inl (i + 1))
    else Ret (inr i)) 0 in
  let* _ := printf 1 (line "write %d") [UInt i] in
  let path := lit "stressfs" ++ [48 + i] in
  let* fd := call (Open path CREATE_RDWR) in
  let* _ := upto 20 (fun _ => ignore (Write fd data)) in
  let* _ := call (Close fd) in
  let* _ := say (line "read") in
  let* fd := call (Open path O_RDONLY) in
  let* _ := upto 20 (fun _ => let* _ := call (Read fd 512) in Ret tt) in
  let* _ := call (Close fd) in
  let* _ := call Wait in
  exit_.

(** ** The kernel under the programs *)

Inductive ended (A : Type) : Type :=
| Returned (a : A)   (** of the first process *)
| Exited
| Elsewhere          (** a system call of another kind *)
| Crashed (o : stop) (** a panic or undefined behaviour of the kernel *)
| OutOfFuel.
Arguments Returned {A}. Arguments Exited {A}. Arguments Elsewhere {A}. Arguments Crashed {A}. Arguments OutOfFuel {A}.

Section Run.
Context (devsw : Z -> option ((nat -> Z -> M fsys (Z * list Z)) * (nat -> list Z -> M fsys Z))) (name0 : list Z).

(** Memory is always granted; files and inodes are those of the kernel. *)
Definition services : Services kern := {|
  s_kalloc := mret 0x80400000; s_kfree _ := mret tt; s_setupkvm := mret 0x80401000; s_inituvm _ := mret tt;
  s_copyuvm _ _ := mret 0x80401000; s_freevm _ := mret tt; s_allocuvm _ _ n := mret n; s_deallocuvm _ _ n := mret n;
  s_filedup := filedup; s_fileclose := fileclose; s_idup ip := fs (idup ip); s_iput ip := fs (iput ip);
  s_namei_root := fs (namei devsw 0 (lit "/")); s_uva2ka _ va := mret va; s_store _ _ := mret tt;
|}.
Notation table := (ptable (K := kern)).

(** A system call on files by the process [me]. *)
Definition sys_on {A} (me : nat) (m : M kern A) : M table A :=
  x ← proc_at me;
  t ← get;
  match m (set_proc x (pt_k t)) with
  | Ok a k => put (set_k k t);; upd_proc me (fun _ => k_proc k);; mret a
  | Stop o _ => halt o
  end.

Definition kcall {T} (e : sysE T) : option (M kern T) :=
  match e with
  | Open path mode => Some (open_path devsw name0 path mode)
  | Close fd => Some (or_fail (fdfile fd) close_fd)
  | Read fd n =>
      Some (o ← fdfile fd;
            match o with
            | None => mret None
            | Some (_, f) => r ← fileread devsw f n; mret (if r.1 <? 0 then None else Some r.2)
            end)
  | Write fd l => Some (or_fail (fdfile fd) (fun '(_, f) => filewrite devsw f l (Z.of_nat (length l))))
  | Link old new => Some (link_paths devsw name0 old new)
  | Unlink path => Some (unlink_path devsw name0 path)
  | Mkdir path => Some (fs (disk begin_trans);; mkdir_path devsw name0 (Some path))
  | Chdir path => Some (chdir_path devsw path)
  | _ => None
  end.
(** Writing to the console succeeds. *)
Definition to_console {T} (e : sysE T) : option (list Z * T) :=
  match e with
  | Write fd l => if fd =? 1 then Some (l, Z.of_nat (length l)) else None
  | _ => None
  end.


(** What one step of the program of process [me] leads to. *)
Inductive outcome (A : Type) : Type :=
| Goes (p : prog A)
| Forks (child : nat) (q p : prog A)
| Sleeps                 (** the call is made again when the process is resumed *)
| Gone
| Ends (r : ended A).
Arguments Goes {A}. Arguments Forks {A}. Arguments Sleeps {A}. Arguments Gone {A}. Arguments Ends {A}.

Definition attempt {A B} (m : M table B) (t : table) (f : B -> outcome A) : outcome A * table :=
  match m t with Ok b t => (f b, t) | Stop o t => (Ends (Crashed o), t) end.
Definition step1 {A} (me : nat) (p : prog A) (t : table) : outcome A * table * list Z :=
  match observe p with
  | RetF a => (Ends (Returned a), t, [])
  | TauF p => (Goes p, t, [])
  | VisF e k =>
      match to_console e with
      | Some (l, r) => (Goes (k r), t, l)
      | None =>
          (match e in sysE T return (T -> prog A) -> outcome A * table with
           | Fork => fun k =>
               match fork services 0 me t with
               | Ok pid t => (match kill_scan pid (pt_proc t) 0 with
                              | Some c => if pid <? 0 then Goes (k pid) else Forks c (k 0) (k pid)
                              | None => Goes (k pid)
                              end, t)
               | Stop o t => (Ends (Crashed o), t)
               end
           | Wait => fun k => attempt (wait services me) t (fun r => match r with Some pid => Goes (k pid) | None => Sleeps end)
           | Kill pid => fun k => attempt (kill pid) t (fun r => Goes (k r))
           | Exit => fun _ => attempt (exit services me) t (fun _ => Gone)
           | e => fun k =>
               match kcall e with
               | Some m => attempt (sys_on me m) t (fun r => Goes (k r))
               | None => (Ends Elsewhere, t)
               end
           end k, [])
      end
  end.

(** Round robin: the head of [q] runs for [slice] steps, until it sleeps or is
    gone.  The run ends with the first program.  [out] is what has been
    printed, the last byte first. *)
Fixpoint execute {A} (slice fuel ticks : nat) (q : list (nat * prog A)) (t : table) (out : list Z) : ended A * table * list Z :=
  match fuel, q with
  | O, _ => (OutOfFuel, t, out)
  | _, [] => (Exited, t, out)
  | S fuel, (me, p) :: q =>
      match p_state <$> pt_proc t !! me with
      | Some RUNNING =>
          match ticks with
          | O => match yield me t with
                 | Ok _ t => execute slice fuel slice (q ++ [(me, p)]) t out
                 | Stop o t => (Crashed o, t, out)
                 end
          | S ticks =>
              let '(o, t, l) := step1 me p t in
              let out := rev_append l out in
              match o with
              | Goes p => execute slice fuel ticks ((me, p) :: q) t out
              | Forks c p' p => execute slice fuel ticks ((me, p) :: q ++ [(c, p')]) t out
              | Sleeps => execute slice fuel slice (q ++ [(me, p)]) t out
              | Gone => execute slice fuel slice q t out
              | Ends r => (r, t, out)
              end
          end
      | Some RUNNABLE =>
          match (_ ← schedule me; resume me) t with
          | Ok _ t => execute slice fuel slice ((me, p) :: q) t out
          | Stop o t => (Crashed o, t, out)
          end
      | _ => execute slice fuel slice (q ++ [(me, p)]) t out
      end
  end.
End Run.

(** ** A booted machine *)

Definition disk_files : list (list Z) := [lit "README"; lit "_echo"; lit "_cat"].
Definition made : option mkfs :=
  match Mkfs.main false 1024 (fun name => Some [name]) (lit "mkfs" :: lit "fs.img" :: disk_files) true mkfs0 with Ok _ s => Some s | _ => None end.
Definition no_inode : inode := mkInode 0 0 0 0 0 0 0 0 0 [].
Definition console_file : file := mkFile FD_INODE 6 true true 0 1 0.
Definition first_proc : proc :=
  mkProc 0x4000 0x8dffe000 0x8dfff000 RUNNING 1 None (mkTf 0 0 0 []) 0 0 None false (replicate 3 (Some 0%nat) ++ replicate 13 None) (Some 0%nat) [].
(** The root directory is the current one; the file of the console is not on
    this disk. *)
Definition booted_kern (s : mkfs) : kern :=
  mkKern (mkFsys false (mkInode ROOTDEV ROOTINO 2 0 0 0 0 0 0 [] :: mkInode 2 1 1 0 0 0 0 0 0 [] :: replicate 48 no_inode) (image s))
    (mkKmem false true 0 (fun _ => 0) 0) false (console_file :: replicate 99 (mkFile FD_NONE 0 false false 0 0 0)) ∅ first_proc.

(** Entry 0 is init, entry 1 the process of the tests. *)
Definition booted (s : mkfs) : ptable (K := kern) :=
  mkPtable false (set_chan (Some (CProc 0)) (set_state SLEEPING first_proc) :: set_parent (Some 0%nat) (set_pid 2 first_proc) :: replicate 62 zero_proc) 3 (Some 0%nat) 0 (booted_kern s).

Definition run_on {A} (slice : nat) (p : prog A) : option (ended A * list Z) :=
  match made with
  | None => None
  | Some s => let '(r, _, out) := execute (fun _ => None) (replicate 14 0) slice (Z.to_nat 200000) slice [(1%nat, p)] (booted s) [] in Some (r, rev out)
  end.

(** What a program that returns has printed. *)
Definition output {A} (slice : nat) (p : prog A) : option (list Z) :=
  match run_on slice p with Some (Returned _, l) => Some l | _ => None end.

(** All processes of a program have called exit(). *)
Definition all_exit {A} (slice : nat) (p : prog A) : bool :=
  match run_on slice p with Some (Exited, _) => true | _ => false end.

(** ** The tests pass *)

Ltac run_tests :=
  repeat match goal with
  | |- _ /\ _ => split
  | |- Forall _ (_ :: _) => apply Forall_cons_2
  | |- Forall _ [] => apply Forall_nil_2
  end;
  vm_compute; reflexivity.

(** On a disk made by mkfs the kernel passes the tests of usertests.c on opening,
    small, large and unlinked files, links, directories, path names and their
    errors: each returns having printed exactly its messages of success, with no
    panic. *)
Example file_tests_pass :
  output 1 opentest = Some (line "open test" ++ line "open test ok") /\
  output 1 (writetest buf0) = Some (line "small file test" ++ line "creat small succeeded; ok" ++ line "writes ok" ++ line "open small succeeded ok" ++ line "read succeeded ok" ++ line "small file test ok") /\
  output 1 (writetest1 buf0) = Some (line "big files test" ++ line "big files ok") /\
  output 1 dirtest = Some (line "mkdir test" ++ line "mkdir test") /\
  output 1 (unlinkread buf0) = Some (line "unlinkread test" ++ line "unlinkread ok") /\
  output 1 (linktest buf0) = Some (line "linktest" ++ line "linktest ok") /\
  output 1 (subdir buf0) = Some (line "subdir test" ++ line "subdir ok") /\
  output 1 (bigwrite buf0) = Some (line "bigwrite test" ++ line "bigwrite ok") /\
  output 1 (bigfile buf0) = Some (line "bigfile test" ++ line "bigfile test ok") /\
  output 1 fourteen = Some (line "fourteen test" ++ line "fourteen ok") /\
  output 1 rmdot = Some (line "rmdot test" ++ line "rmdot ok") /\
  output 1 dirfile = Some (line "dir vs file" ++ line "dir vs file OK").
Proof. run_tests. Qed.

(** Whether the processes change places after every step or after every seventh,
    the tests of fork, exit and wait end and pass: a hundred children are waited
    for by their pids, fork() fails and recovers when the process table is full,
    two processes write two files at once without mixing their blocks, and
    create, link and unlink one name in a race that leaves no process asleep; the
    five processes of stressfs all exit. *)
Example process_tests_pass :
  Forall (fun slice =>
    output slice exitwait = Some (line "exitwait ok") /\
    output slice forktest = Some (line "fork test" ++ line "fork test OK") /\
    output slice (twofiles buf0) = Some (line "twofiles test" ++ line "twofiles ok")) [1; 7]%nat /\
  output 1 linkunlink = Some (line "linkunlink test" ++ line "linkunlink ok") /\
  output 1 forktest_ = Some (line "fork test" ++ line "fork test OK") /\
  all_exit 1 stressfs_main = true.
Proof. run_tests. Qed.

(** ** What the tests do not try *)

Lemma bfree_outside f size bm b :
  geom (dsk f) size bm -> ld_log (dsk f) = [] -> ld_buf (dsk f) = ∅ -> ld_busy (dsk f) = false -> 1 < ld_nlog (dsk f) ->
  0 <= b < BPB -> bit (ld_blk (dsk f) bm) b = true -> exists f', bfree ROOTDEV b f = Stop (SPanic "write outside of trans") f'.
Proof.
  intros Hg Hlog Hbuf Hbusy Hn Hb Hbit. pose proof (ge_range _ _ _ Hg) as Hbr.
  assert (Hr : rbud (dsk f) ∅). { split; [rewrite Hlog; constructor|unfold ld_pinned; rewrite Hlog, Hbuf; set_solver|unfold NBUF; rewrite size_empty; lia]. }
  unfold bfree. erewrite bind_ok by (apply (fs_readsb f ∅); [done|rewrite Hbuf; set_solver|lia]). cbn [sb_size sb_ninodes].
  rewrite (geom_bm _ _ _ b Hg Hb), (Z.mod_small b BPB) by lia. erewrite bind_ok by (apply (fs_bread f bm ∅); [done|rewrite Hbuf; set_solver|lia]). set (f1 := set_dsk _ f).
  assert (Hx : ld_buf (dsk f1) !! bm = Some (ld_blk (dsk f) bm)) by apply lookup_insert_eq. mstep (bdata_run f1 bm _ Hx).
  rewrite mask_test. fold (bit (ld_blk (dsk f) bm) b). rewrite Hbit. cbn [negb]. mstep (set_bdata_run f1 bm _ (clear_bit (ld_blk (dsk f) bm) b) Hx).
  eexists. apply bind_stop. unfold disk, zoom, log_write. mrun1. cbn [dsk set_dsk f1]. d_simpl. rewrite Hlog, Hbusy. cbn [length negb orb].
  rewrite (proj2 (Z.leb_gt LOGSIZE _)), (proj2 (Z.leb_gt _ _)) by (unfold LOGSIZE; lia). done.
Qed.

Lemma upd_inode_at f k i g : icache f !! k = Some i -> upd_inode k g f = Ok tt (with_entry k (g i) f).
Proof. intros Hi. unfold upd_inode. by mstep (inode_at_run f k i Hi). Qed.
(** iput() of the last reference to an inode without links that has a first block, outside of a transaction. *)
Lemma iput_outside f k i size bm :
  ic_lock f = false -> icache f !! k = Some i -> i_dev i = ROOTDEV -> i_ref i = 1 -> i_flags i = I_VALID -> i_nlink i = 0 ->
  geom (dsk f) size bm -> ld_log (dsk f) = [] -> ld_buf (dsk f) = ∅ -> ld_busy (dsk f) = false -> 1 < ld_nlog (dsk f) ->
  0 < addr_at i 0 < BPB -> bit (ld_blk (dsk f) bm) (addr_at i 0) = true -> exists f', iput k f = Stop (SPanic "write outside of trans") f'.
Proof.
  intros Hl Hi Hd Hr Hf Hn Hg Hlog Hbuf Hbusy Hnl Ha Hbit. unfold iput. mstep (acquire_run f Hl). mstep (inode_at_run (set_ic_lock true f) k i Hi).
  unfold flag. rewrite Hr, Hf, Hn. change (truth (Z.land I_VALID I_BUSY)) with false. change ((1 =? 1) && truth (Z.land I_VALID I_VALID) && (0 =? 0)) with true. cbn [when]; cbv iota.
  rewrite !bind_assoc_run. mstep (upd_inode_at (set_ic_lock true f) k i (fun i => set_iflags (Z.lor (i_flags i) I_BUSY) i) Hi). cbv beta. set (i1 := set_iflags _ i).
  rewrite bind_assoc_run. erewrite bind_ok by (by apply release_run). rewrite bind_assoc_run. set (f1 := set_ic_lock false _). assert (Hi1 : icache f1 !! k = Some i1) by (apply list_lookup_insert_eq; by eapply lookup_lt_Some).
  destruct (bfree_outside f1 size bm (addr_at i 0)) as [f2 E]; try done; [lia|]. exists f2. apply bind_stop, bind_stop. change (Log.upto NDIRECT) with (0 :: List.map Z.of_nat (seq 1 11)). apply bind_stop.
  unfold free_direct. mstep (inode_at_run f1 k i1 Hi1). change (addr_at i1 0) with (addr_at i 0). change (i_dev i1) with (i_dev i). unfold truth. rewrite (proj2 (Z.eqb_neq _ 0)), Hd by lia. cbn [negb when]. by apply bind_stop.
Qed.
Lemma run_seq_then {K A B C} (m : M (ptable (K := K)) A) (k : A -> code B) (h : M ptable C) t :
  (run (Act (a ← m; mret (k a)));; h) t = (a ← m; run (k a);; h) t.
Proof. cbn [run]. unfold mbind, M_bind, mret, M_ret. by destruct (m t). Qed.
Lemma bind_ext {S A B} (m : M S A) (f g : A -> M S B) s : (forall a s, f a s = g a s) -> (m ≫= f) s = (m ≫= g) s.
Proof. intros E. unfold mbind, M_bind. destruct (m s); [apply E|done]. Qed.
Lemma close_files_then {K A} (srv : Services K) me fd n (c : code A) t :
  run (close_files srv me fd n c) t = (run (close_files srv me fd n (Done tt));; run c) t.
Proof.
  revert fd t. induction n as [|n IH]; intros fd t; [done|]. cbn [close_files]. rewrite run_seq, run_seq_then. apply bind_ext. intros b t1.
  destruct b; [|apply IH]. rewrite run_seq, run_seq_then. apply bind_ext. intros _ t2. apply IH.
Qed.

(** C38: A process that exits in a directory that has been removed takes the kernel
    down.  Whoever exits with a directory as the current one that has no link
    any more and no other reference to it, drops that reference in exit() outside
    of a transaction; so iput() frees the directory's blocks, which log_write()
    refuses by a panic. *)
Theorem exit_from_removed_directory_panics devsw me x cwd i size bm t t1 :
  pt_init t <> Some me -> run (close_files (services devsw) me 0 NOFILE (Done tt)) t = Ok tt t1 ->
  pt_proc t1 !! me = Some x -> p_cwd x = Some cwd ->
  let f := k_fs (pt_k t1) in
  ic_lock f = false -> icache f !! cwd = Some i -> i_dev i = ROOTDEV -> i_ref i = 1 -> i_flags i = I_VALID -> i_nlink i = 0 ->
  geom (dsk f) size bm -> ld_log (dsk f) = [] -> ld_buf (dsk f) = ∅ -> ld_busy (dsk f) = false -> 1 < ld_nlog (dsk f) ->
  0 < addr_at i 0 < BPB -> bit (ld_blk (dsk f) bm) (addr_at i 0) = true ->
  exists t', Proc.exit (services devsw) me t = Stop (SPanic "write outside of trans") t'.
Proof.
  intros Hin Hcl Hx Hc f Hl Hi Hd Hr Hf Hn Hg Hlog Hbuf Hbusy Hnl Ha Hbit. destruct (iput_outside f cwd i size bm) as [f' E]; try done.
  exists (set_k (set_fs f' (pt_k t1)) t1). unfold Proc.exit, exit_check. rewrite bind_assoc_run. mrun1. rewrite bool_decide_false by done. mrun1.
  unfold exit_files. apply bind_stop. rewrite close_files_then. mstep Hcl. rewrite run_seq. apply bind_stop. mstep (proc_ok me x t1 Hx). rewrite Hc. cbn [deref]. mrun1.
  unfold service, zoom. cbn [services s_iput]. unfold fs, zoom. fold f. by rewrite E.
Qed.
(** The process of the tests makes a directory, goes there and removes it. *)
Definition no_devices : Z -> option ((nat -> Z -> M fsys (Z * list Z)) * (nat -> list Z -> M fsys Z)) := fun _ => None.
Definition remove_cwd : M (ptable (K := kern)) unit :=
  _ ← sys_on 1 (fs (disk begin_trans);; mkdir_path no_devices (replicate 14 0) (Some (lit "d")));
  _ ← sys_on 1 (chdir_path no_devices (lit "d"));
  _ ← sys_on 1 (unlink_path no_devices (replicate 14 0) (lit "../d"));
  mret tt.
Definition removed : ptable := match made with Some s => final remove_cwd (booted s) | None => booted mkfs0 end.
Definition closed : ptable := final (run (close_files (services no_devices) 1 0 NOFILE (Done tt))) removed.
Definition is_ok {S A} (r : res S A) : bool := match r with Ok _ _ => true | Stop _ _ => false end.
Lemma ok_final {S} (m : M S unit) s : is_ok (m s) = true -> m s = Ok tt (final m s).
Proof. unfold final. by destruct (m s) as [[]|]. Qed.
Definition inode_view (i : inode) := (i_dev i, i_ref i, i_flags i, i_nlink i, addr_at i 0).
(** What the theorem asks of the states before and after the files are closed. *)
Definition view (b : bool) (t t1 : ptable (K := kern)) :=
  let f := k_fs (pt_k t1) in let d := dsk f in
  (b, (pt_init t, p_cwd <$> pt_proc t1 !! 1%nat), (ic_lock f, inode_view <$> icache f !! 2%nat), (get32 (ld_blk d 1) 0, BBLOCK 0 (get32 (ld_blk d 1) 8)),
   (ld_size d, ld_nlog d, ld_log d, ld_buf d, ld_busy d), bit (ld_blk d 28) 33).
Lemma view_cases b t t1 :
  view b t t1 = (true, (Some 0%nat, Some (Some 2%nat)), (false, Some (1, 1, I_VALID, 0, 33)), (1024, 28), (1014, 10, [], ∅, false), true) ->
  let f := k_fs (pt_k t1) in let d := dsk f in
  b = true /\ pt_init t = Some 0%nat /\ (exists x, pt_proc t1 !! 1%nat = Some x /\ p_cwd x = Some 2%nat) /\ ic_lock f = false /\
  (exists i, icache f !! 2%nat = Some i /\ i_dev i = 1 /\ i_ref i = 1 /\ i_flags i = I_VALID /\ i_nlink i = 0 /\ addr_at i 0 = 33) /\
  geom d 1024 28 /\ ld_nlog d = 10 /\ ld_log d = [] /\ ld_buf d = ∅ /\ ld_busy d = false /\ bit (ld_blk d 28) 33 = true.
Proof.
  cbv zeta. unfold view. intros E. rewrite !pair_equal_spec in E. destruct E as (((((-> & E1 & E2) & E3 & E4) & E5 & E6) & ((((E7 & E8) & E9) & E10) & E11)) & E12).
  destruct (pt_proc t1 !! 1%nat) as [x|]; [|done]. destruct (icache (k_fs (pt_k t1)) !! 2%nat) as [i|]; [|done]. injection E2 as E2. injection E4 as F1 F2 F3 F4 F5.
  split_and!; try done; [by exists x|by exists i|]. split; [done..|by unfold BPB, BSIZE|rewrite E7; lia].
Qed.
Lemma removed_view :
  view (is_ok (run (close_files (services no_devices) 1 0 NOFILE (Done tt)) removed)) removed closed =
  (true, (Some 0%nat, Some (Some 2%nat)), (false, Some (1, 1, I_VALID, 0, 33)), (1024, 28), (1014, 10, [], ∅, false), true).
Proof. vm_compute. reflexivity. Qed.

Lemma exit_from_removed_directory_panics_witness :
  exists t', Proc.exit (services no_devices) 1 removed = Stop (SPanic "write outside of trans") t'.
Proof.
  destruct (view_cases _ _ _ removed_view) as (E0 & E1 & (x & Hx & Hc) & E2 & (i & Hi & F1 & F2 & F3 & F4 & F5) & Hg & E3 & E4 & E5 & E6 & E7).
  refine (exit_from_removed_directory_panics no_devices 1 x 2 i 1024 28 removed closed _ (ok_final _ _ E0) Hx Hc E2 Hi F1 F2 F3 F4 Hg E4 E5 E6 _ _ _); rewrite ?E1, ?E3, ?F5; [congruence|lia|unfold BPB, BSIZE; lia|exact E7].
Defined.

(** mkfs does not mark the blocks of the log as used, and they are below the size
    up to which balloc() looks for free blocks. *)
Lemma log_blocks_not_marked :
  match made with
  | Some s => forallb (fun b => (b <? size_) && negb (bit (m_sect s (ninodes / IPB + 3)) b)) (seqZ (size_ - nlog) nlog)
  | None => false
  end = true.
Proof. vm_compute. reflexivity. Qed.
