(* ===== verification/Exec.v ===== *)
(** * exec.c; sys_exec and the dispatcher

    exec() of src/exec.c, with sys_exec of src/sysfile.c, sys_sbrk of
    src/sysproc.c and the table of src/syscall.c.  [data] is the linker's
    symbol, [elf0] and [ph0] what the uninitialised locals elf and ph hold.
    The other process system calls are those of Proc.v, on the process table:
    they are the argument [proc_calls]. *)

From stdpp Require Import functions.
From S2P Require Import Prelude Str Spinlock Bytes Proc Pipe Kalloc Vm Disk Fs Kern File Sysfile.

Definition ELF_MAGIC : Z := 0x464C457F.
Definition ELF_PROG_LOAD : Z := 1.
Definition sizeof_elf : Z := 52.
Definition sizeof_ph : Z := 32.
Definition elf_magic (x : list Z) : Z := get32 x 0.
Definition elf_entry (x : list Z) : Z := get32 x 24.
Definition elf_phoff (x : list Z) : Z := get32 x 28.
Definition elf_phnum (x : list Z) : Z := get16 x 44.
Definition ph_type (x : list Z) : Z := get32 x 0.
Definition ph_off (x : list Z) : Z := get32 x 4.
Definition ph_vaddr (x : list Z) : Z := get32 x 8.
Definition ph_filesz (x : list Z) : Z := get32 x 16.
Definition ph_memsz (x : list Z) : Z := get32 x 20.

Section Exec.
Context (devsw : Z -> option ((nat -> Z -> M fsys (Z * list Z)) * (nat -> list Z -> M fsys Z))).
Context (name0 elf0 ph0 : list Z) (data : Z).

Definition k_readi (ip : nat) (off n : Z) : M kern (Z * list Z) := fs (readi devsw ip off n).

(** [bad:] *)
Definition exec_bad (pgdir : Z) (ip : option nat) : M kern Z :=
  when (truth pgdir) (memory (freevm pgdir));;
  match ip with Some ip => fs (iunlockput ip) | None => mret tt end;;
  mret (-1).

(** The loop over the program headers; [None] is a jump to [bad]. *)
Fixpoint exec_load (n : nat) (ip : nat) (pgdir off sz : Z) (phl : list Z) : M kern (option Z) :=
  match n with
  | O => mret (Some sz)
  | S n =>
      r ← k_readi ip (u32 off) sizeof_ph;
      let phl := splice phl 0 r.2 in
      if negb (r.1 =? sizeof_ph) then mret None
      else if negb (ph_type phl =? ELF_PROG_LOAD) then exec_load n ip pgdir (i32 (off + sizeof_ph)) sz phl
      else if ph_memsz phl <? ph_filesz phl then mret None
      else
        sz ← memory (allocuvm pgdir sz (ph_vaddr phl ⊕ ph_memsz phl));
        if sz =? 0 then mret None
        else
          l ← loaduvm k_mem set_mem (k_readi ip) pgdir (ph_vaddr phl) (ph_off phl) (ph_filesz phl);
          if l <? 0 then mret None
          else exec_load n ip pgdir (i32 (off + sizeof_ph)) sz phl
  end.

(** The loop over argv: the stack pointer and the pointers pushed. *)
Fixpoint exec_args (pgdir sp argc : Z) (argv : list (list Z)) (ptrs : list Z) : M kern (option (Z * list Z)) :=
  match argv with
  | [] => mret (Some (sp, ptrs))
  | a :: argv =>
      if MAXARG <=? argc then mret None
      else
        let sp := Z.land (sp ⊖ (Z.of_nat (length a) + 1)) (u32 (Z.lnot 3)) in
        r ← memory (copyout pgdir sp (a ++ [0]));
        if r <? 0 then mret None
        else exec_args pgdir sp (argc + 1) argv (ptrs ++ [sp])
  end.

(** The path after its last slash. *)
Fixpoint last_name (last s : list Z) : list Z :=
  match s with
  | [] => last
  | c :: s => last_name (if c =? slash then s else last) s
  end.

(** The guard page, the stack page and what is on it: the size and the stack
    pointer; [None] is a jump to [bad]. *)
Definition exec_stack (pgdir sz : Z) (argv : list (list Z)) : M kern (option (Z * Z)) :=
  let sz := PGROUNDUP sz in
  sz ← memory (allocuvm pgdir sz (sz ⊕ 2 * Kalloc.PGSIZE));
  if sz =? 0 then mret None
  else
    memory (clearpteu pgdir (sz ⊖ 2 * Kalloc.PGSIZE));;
    a ← exec_args pgdir sz 0 argv [];
    match a with
    | None => mret None
    | Some (sp, ptrs) =>
        let argc := Z.of_nat (length argv) in
        let ustack := [0xffffffff; argc; sp ⊖ (argc + 1) * 4] ++ ptrs ++ [0] in
        let sp := sp ⊖ (3 + argc + 1) * 4 in
        c ← memory (copyout pgdir sp (concat (map (le_bytes 4) ustack)));
        if c <? 0 then mret None else mret (Some (sz, sp))
    end.
(** switchuvm() changes registers only (Seg.v). *)
Definition exec_commit (path : list Z) (pgdir sz entry sp : Z) : M kern Z :=
  x ← me;
  let tf := p_tf x in
  upd_me (fun x => set_tf (mkTf (tf_eax tf) entry sp (tf_regs tf)) (set_sz sz (set_pgdir pgdir (set_name (take 15 (last_name path path)) x))));;
  memory (freevm (p_pgdir x));;
  mret 0.

Definition exec (path : list Z) (argv : list (list Z)) : M kern Z :=
  or_fail (k_namei devsw path) (fun ip =>
  fs (ilock ip);;
  r ← k_readi ip 0 sizeof_elf;
  let elf := splice elf0 0 r.2 in
  if u32 r.1 <? sizeof_elf then exec_bad 0 (Some ip)
  else if negb (elf_magic elf =? ELF_MAGIC) then exec_bad 0 (Some ip)
  else
    pgdir ← memory (setupkvm data);
    if pgdir =? 0 then exec_bad 0 (Some ip)
    else
      o ← exec_load (Z.to_nat (elf_phnum elf)) ip pgdir (i32 (elf_phoff elf)) 0 ph0;
      match o with
      | None => exec_bad pgdir (Some ip)
      | Some sz =>
          fs (iunlockput ip);;
          st ← exec_stack pgdir sz argv;
          match st with
          | None => exec_bad pgdir None
          | Some (sz, sp) => exec_commit path pgdir sz (elf_entry elf) sp
          end
      end).

(** The loop of sys_exec over the user's argv array, from [i]. *)
Fixpoint exec_argv (fuel : nat) (uargv i : Z) (argv : list (list Z)) : M kern (option (list (list Z))) :=
  match fuel with
  | O => halt SFuel
  | S fuel =>
      if MAXARG <=? i then mret None
      else
        uarg ← fetchint (uargv ⊕ 4 * i);
        match uarg with
        | None => mret None
        | Some uarg =>
            if uarg =? 0 then mret (Some argv)
            else
              s ← fetchstr (u32 uarg);
              match s with None => mret None | Some s => exec_argv fuel uargv (i + 1) (argv ++ [s]) end
        end
  end.
Definition sys_exec : M kern Z :=
  or_fail (argstr 0) (fun path =>
  or_fail (argint 1) (fun uargv =>
  or_fail (exec_argv (S (Z.to_nat MAXARG)) (u32 uargv) 0 []) (fun argv =>
  exec path argv))).

(** sys_getpid and sys_sbrk (with growproc) of src/sysproc.c. *)
Definition sys_getpid : M kern Z := x ← me; mret (p_pid x).
Definition grow (n : Z) : M kern Z :=
  x ← me;
  sz ← (if 0 <? n then memory (allocuvm (p_pgdir x) (p_sz x) (p_sz x ⊕ n))
        else if n <? 0 then memory (deallocuvm (p_pgdir x) (p_sz x) (p_sz x ⊕ n))
        else mret (p_sz x));
  if negb (n =? 0) && (sz =? 0) then mret (-1) else upd_me (set_sz sz);; mret 0.
Definition sys_sbrk : M kern Z :=
  or_fail (argint 0) (fun n =>
  x ← me;
  r ← grow n;
  if r <? 0 then mret (-1) else mret (i32 (p_sz x))).

(** ** syscall() *)
Context (proc_calls : Z -> option (M kern Z)).

Definition syscalls (num : Z) : option (M kern Z) :=
  if num =? 4 then Some sys_pipe
  else if num =? 5 then Some (sys_read devsw)
  else if num =? 7 then Some sys_exec
  else if num =? 8 then Some sys_fstat
  else if num =? 9 then Some (sys_chdir devsw)
  else if num =? 10 then Some sys_dup
  else if num =? 11 then Some sys_getpid
  else if num =? 12 then Some sys_sbrk
  else if num =? 15 then Some (sys_open devsw name0)
  else if num =? 16 then Some (sys_write devsw)
  else if num =? 17 then Some (sys_mknod devsw name0)
  else if num =? 18 then Some (sys_unlink devsw name0)
  else if num =? 19 then Some (sys_link devsw name0)
  else if num =? 20 then Some (sys_mkdir devsw name0)
  else if num =? 21 then Some sys_close
  else if (1 <=? num) && (num <=? 14) then proc_calls num
  else None.

Definition set_eax (r : Z) (x : proc) : proc :=
  set_tf (mkTf (u32 r) (tf_eip (p_tf x)) (tf_esp (p_tf x)) (tf_regs (p_tf x))) x.
Definition syscall : M kern unit :=
  x ← me;
  match syscalls (i32 (tf_eax (p_tf x))) with
  | Some h => r ← h; upd_me (set_eax r)
  | None => upd_me (set_eax (-1))
  end.
End Exec.
