(* ===== verification/Boot.v ===== *)
(** * bootmain.c: the boot loader

    src/bootmain.c over the ports of Devices.v and the physical memory.  The
    drive behaves as the ATA interface of Idedisk.v describes.  The loader
    reads the kernel's ELF file from the disk behind the boot sector; the
    headers are read from memory where the C code reads them, also after
    segments have been loaded.  Calling the entry point is the result
    [Some entry], returning to bootasm.S is [None]. *)

From stdpp Require Import functions.
From S2P Require Import Prelude Str Interfaces Spinlock Bytes Devices Ide Idedisk Exec.

Definition SECTSIZE : Z := 512.
(** The scratch space for the headers. *)
Definition ELF_AT : Z := 0x10000.
Definition ph_paddr (x : list Z) : Z := get32 x 12.

Lemma bytes_ext m m' a n : (forall x, a <= x < a + Z.of_nat n -> m' x = m x) -> bytes m' a n = bytes m a n.
Proof. intros H. unfold bytes. apply list_fmap_ext. intros i j Hj%lookup_seq. apply H. lia. Qed.
Lemma lies_slice m a l k n : lies_at m a l -> (k + n <= length l)%nat -> lies_at m (a + Z.of_nat k) (slice l k n).
Proof.
  intros H Hk. rewrite <- (take_drop k l), lies_app in H. destruct H as [_ H]. rewrite length_take, Nat.min_l in H by lia. rewrite <- (take_drop n (drop k l)), lies_app in H. apply H.
Qed.

Record boot {D : Type} := mkBoot { b_hw : D; b_mem : mem }.
Arguments boot : clear implicits.
Arguments mkBoot {D}.

Section Boot.
Context {D : Type} `{!Ports D}.
Notation boot := (boot D).
Definition b_inb (port : Z) : M boot Z := fun s => let (v, d) := in_byte port (b_hw s) in Ok v (mkBoot d (b_mem s)).
Definition b_outb (port v : Z) : M boot unit := modify (fun s => mkBoot (out_byte port (u8 v) (b_hw s)) (b_mem s)).
Definition b_insl (port addr : Z) (cnt : nat) : M boot unit :=
  fun s => let (x, d) := in_words port cnt (b_hw s) in Ok tt (mkBoot d (put_bytes (b_mem s) addr x)).

(** The number of status reads is bounded by [polls]. *)
Context (polls : nat).
Fixpoint waitdisk_loop (polls : nat) : M boot unit :=
  match polls with
  | O => halt SFuel
  | S polls => r ← b_inb 0x1F7; if negb (Z.land r 0xC0 =? 0x40) then waitdisk_loop polls else mret tt
  end.
Definition waitdisk : M boot unit := waitdisk_loop polls.

Definition readsect (dst offset : Z) : M boot unit :=
  waitdisk;;
  b_outb 0x1F2 1;;
  b_outb 0x1F3 offset;;
  b_outb 0x1F4 (Z.shiftr offset 8);;
  b_outb 0x1F5 (Z.shiftr offset 16);;
  b_outb 0x1F6 (Z.lor (Z.shiftr offset 24) 0xE0);;
  b_outb 0x1F7 0x20;;
  waitdisk;;
  b_insl 0x1F0 dst (Z.to_nat (SECTSIZE / 4)).

Fixpoint readseg_loop (fuel : nat) (pa epa offset : Z) : M boot unit :=
  match fuel with
  | O => halt SFuel
  | S fuel => if pa <? epa then readsect pa offset;; readseg_loop fuel (pa ⊕ SECTSIZE) epa (offset ⊕ 1) else mret tt
  end.
Definition readseg (pa count offset : Z) : M boot unit :=
  let epa := pa ⊕ count in
  let pa := pa ⊖ offset mod SECTSIZE in
  let offset := offset / SECTSIZE ⊕ 1 in
  readseg_loop (S (S (Z.to_nat ((epa - pa) / SECTSIZE)))) pa epa offset.

(** One program header, then the next. *)
Fixpoint bootmain_loop (n : nat) (ph eph : Z) : M boot unit :=
  match n with
  | O => halt SFuel
  | S n =>
      if ph <? eph then
        h ← gets (fun s => bytes (b_mem s) ph 32);
        let pa := ph_paddr h in
        readseg pa (ph_filesz h) (ph_off h);;
        h ← gets (fun s => bytes (b_mem s) ph 32);
        when (ph_filesz h <? ph_memsz h)
          (modify (fun s => mkBoot (b_hw s) (stosb (b_mem s) (pa ⊕ ph_filesz h) 0 (Z.to_nat (ph_memsz h ⊖ ph_filesz h)))));;
        bootmain_loop n (ph ⊕ 32) eph
      else mret tt
  end.
Definition bootmain : M boot (option Z) :=
  readseg ELF_AT 4096 0;;
  elf ← gets (fun s => bytes (b_mem s) ELF_AT 52);
  if negb (elf_magic elf =? ELF_MAGIC) then mret None
  else
    let ph := ELF_AT ⊕ elf_phoff elf in
    let eph := ph ⊕ 32 * elf_phnum elf in
    bootmain_loop (S (Z.to_nat (elf_phnum elf))) ph eph;;
    elf ← gets (fun s => bytes (b_mem s) ELF_AT 52);
    mret (Some (elf_entry elf)).

(** ** The disk *)

Context `{!Ata D} (Hpolls : (max_delay < polls)%nat).
Implicit Types (s : boot).

Lemma waitdisk_loop_run n s : (delay (b_hw s) < n)%nat -> exists h, waitdisk_loop n s = Ok tt (mkBoot h (b_mem s)) /\ same_drive (b_hw s) h.
Proof.
  revert s. induction n as [|n IH]; intros s Hd; [lia|]. cbn [waitdisk_loop]. destruct (in_byte 0x1f7 (b_hw s)) as [r h] eqn:E. assert (Ei : b_inb 0x1f7 s = Ok r (mkBoot h (b_mem s))) by (unfold b_inb; by rewrite E). mstep Ei.
  destruct (ata_status _ _ _ E) as (H1 & H2 & H3 & _ & H5). change (Z.lor IDE_BSY IDE_DRDY) with 0xC0 in H5. change IDE_DRDY with 0x40 in H5. destruct (Z.eqb_spec (Z.land r 0xC0) 0x40) as [Er|Er]; cbn [negb].
  - exists h. by split.
  - destruct H5 as [H5|H5]; [done|]. destruct (IH (mkBoot h (b_mem s))) as (h' & R & S1 & S2 & S3); [cbn; lia|]. exists h'. split; [exact R|]. cbn in S1, S2, S3. unfold same_drive. by rewrite S1, S2, S3.
Qed.
Lemma waitdisk_run s : exists h, waitdisk s = Ok tt (mkBoot h (b_mem s)) /\ same_drive (b_hw s) h.
Proof. apply waitdisk_loop_run. pose proof (ata_delay (b_hw s)). lia. Qed.
Lemma b_outb_run p v s : b_outb p v s = Ok tt (mkBoot (out_byte p (u8 v) (b_hw s)) (b_mem s)).
Proof. done. Qed.

Lemma high_byte n : 0 <= n < 2 ^ 28 -> u8 (Z.lor (Z.shiftr n 24) 0xE0) = u8 (Z.lor (Z.lor 0xe0 (Z.shiftl (Z.land 0 1) 4)) (Z.land (Z.shiftr n 24) 0x0f)).
Proof.
  intros Hn. assert (Hx : 0 <= Z.shiftr n 24 < 16) by (rewrite Z.shiftr_div_pow2 by lia; split; [apply Z.div_pos; lia|apply Z.div_lt_upper_bound; lia]).
  change 0x0f with (Z.ones 4). rewrite Z.land_ones, (Z.mod_small (Z.shiftr n 24)) by (lia || done). f_equal. by rewrite Z.lor_comm.
Qed.
Lemma u8_land n : u8 (Z.land n 0xff) = u8 n.
Proof. change 0xff with (Z.ones 8). rewrite Z.land_ones by lia. unfold u8. apply Z.mod_mod. lia. Qed.

Lemma readsect_run dst n s : 0 <= n < 2 ^ 28 -> exists h, readsect dst n s = Ok tt (mkBoot h (put_bytes (b_mem s) dst (platter (b_hw s) (0, n)))) /\ platter h = platter (b_hw s).
Proof.
  intros Hn. unfold readsect. destruct (waitdisk_run s) as (h0 & E0 & _ & P0 & _). mstep E0. do 6 (erewrite bind_ok by apply b_outb_run). cbn [b_hw b_mem].
  set (h1 := out_byte 0x1f6 _ _). assert (Hp : platter h1 = platter h0) by (unfold h1; by rewrite !ata_platter by set_solver).
  assert (Ha : drive_of (treg h1) = 0 /\ lba_of (treg h1) = n).
  { unfold h1. rewrite !ata_treg by set_solver. apply lba_split; [done|lia|by rewrite u8_land..|apply (high_byte n Hn)]. }
  change (u8 0x20) with IDE_CMD_READ. destruct (ata_read h1) as [P1 Q1]. rewrite (proj1 Ha), (proj2 Ha) in Q1. set (h2 := out_byte 0x1f7 IDE_CMD_READ h1) in *.
  destruct (waitdisk_run (mkBoot h2 (b_mem s))) as (h3 & E3 & _ & P3 & Q3). mstep E3. cbn [b_hw b_mem] in *. unfold b_insl. cbn [b_hw b_mem]. destruct (in_words 0x1f0 (Z.to_nat (SECTSIZE / 4)) h3) as [x h4] eqn:E4.
  destruct (ata_in h3 (0, n) x h4) as [-> P4]; [by rewrite Q3|exact E4|]. exists h4. split; [|congruence]. do 3 f_equal. by rewrite P3, P1, Hp, P0.
Qed.

(** ** Segments *)

Section Image.
(** The sectors behind the boot sector hold the kernel's file. *)
Context (img : list Z) (nsec : nat).
Definition on_disk (d : D) : Prop := forall j, (j < nsec)%nat -> platter d (0, Z.of_nat j + 1) = slice img (512 * j) 512.
Context (Himg : length img = (512 * nsec)%nat) (Hnsec : Z.of_nat nsec + 1 < 2 ^ 28).

(** [k] sectors from sector [j] of the file on. *)
Lemma readseg_loop_run k : forall j fuel s pa epa, on_disk (b_hw s) -> (j + k <= nsec)%nat -> (k < fuel)%nat -> 0 <= pa -> pa + 512 * Z.of_nat k < 2 ^ 32 -> epa <= pa + 512 * Z.of_nat k -> pa + 512 * (Z.of_nat k - 1) < epa ->
  exists h, readseg_loop fuel pa epa (Z.of_nat j + 1) s = Ok tt (mkBoot h (put_bytes (b_mem s) pa (slice img (512 * j) (512 * k)))) /\ on_disk h.
Proof.
  induction k as [|k IH]; intros j fuel s pa epa Hd Hj Hf Hpa Hmax Hlo Hhi; destruct fuel as [|fuel]; try lia; cbn [readseg_loop].
  - rewrite (proj2 (Z.ltb_ge _ _)) by lia. exists (b_hw s). destruct s. done.
  - rewrite (proj2 (Z.ltb_lt _ _)) by lia. destruct (readsect_run pa (Z.of_nat j + 1) s) as (h & E & Hp); [lia|]. mstep E. unfold SECTSIZE. rewrite !u32_id by lia. rewrite (Hd j) by lia. replace (Z.of_nat j + 1 + 1) with (Z.of_nat (S j) + 1) by lia.
    destruct (IH (S j) fuel (mkBoot h (put_bytes (b_mem s) pa (slice img (512 * j) 512))) (pa + 512) epa) as (h' & E' & Hd'); [intros i Hi; cbn; rewrite Hp; by apply Hd|lia..|]. exists h'. split; [|done]. etrans; [exact E'|]. cbn [b_mem]. do 2 f_equal.
    replace (512 * S k)%nat with (512 + 512 * k)%nat by lia. rewrite slice_app, put_bytes_app, slice_length by lia. by replace (512 * S j)%nat with (512 * j + 512)%nat by lia.
Qed.
Definition sectors (count off : Z) : nat := Z.to_nat ((off mod 512 + count + 511) / 512).
Lemma readseg_run s pa count off (o := off mod 512) (k := sectors count off) : on_disk (b_hw s) -> 0 <= off -> 0 <= count -> off + count <= Z.of_nat (length img) -> o <= pa -> pa + count + 512 < 2 ^ 32 ->
  exists h, readseg pa count off s = Ok tt (mkBoot h (put_bytes (b_mem s) (pa - o) (slice img (Z.to_nat (off - o)) (512 * k)))) /\ on_disk h.
Proof.
  intros Hd Ho Hc Hend Hpa Hmax. unfold readseg, SECTSIZE. fold o. assert (Hor : 0 <= o < 512) by (apply Z.mod_pos_bound; lia). rewrite (u32_id (pa + count)), (u32_id (pa - o)) by lia.
  assert (Hoff : off = 512 * (off / 512) + o) by (apply Z.div_mod; lia). assert (Hq : 0 <= off / 512) by (apply Z.div_pos; lia). rewrite (u32_id (off / 512 + 1)) by lia.
  assert (Hk : Z.of_nat k = (o + count + 511) / 512) by (unfold k, sectors; fold o; rewrite Z2Nat.id; [done|apply Z.div_pos; lia]).
  replace (pa + count - (pa - o)) with (o + count) by lia. replace (off / 512 + 1) with (Z.of_nat (Z.to_nat (off / 512)) + 1) by lia.
  assert (Hkb : o + count <= 512 * Z.of_nat k < o + count + 512) by (rewrite Hk; Z.to_euclidean_division_equations; lia).
  destruct (readseg_loop_run k (Z.to_nat (off / 512)) (S (S (Z.to_nat ((o + count) / 512)))) s (pa - o) (pa + count)) as (h & E & Hd'); try done; try lia.
  - assert (Z.of_nat k <= (o + count) / 512 + 1) by (rewrite Hk; Z.to_euclidean_division_equations; lia). lia.
  - exists h. split; [|done]. replace (Z.to_nat (off - o)) with (512 * Z.to_nat (off / 512))%nat by lia. exact E.
Qed.

(** A segment is in place: its bytes of the file, then zeros. *)
Definition in_place (m : mem) (h : list Z) : Prop :=
  lies_at m (ph_paddr h) (slice img (Z.to_nat (ph_off h)) (Z.to_nat (ph_filesz h))) /\ forall x, ph_paddr h + ph_filesz h <= x < ph_paddr h + ph_memsz h -> m x = 0.
(** A header for which nothing is loaded: linkers put one for the stack, with
    address 0, among the others, and the loop does not look at ph->type. *)
Definition nothing (h : list Z) : Prop := ph_filesz h = 0 /\ ph_memsz h = 0 /\ ph_off h mod 512 = 0.
(** Segments above [lo], in ascending order, with room for whole sectors. *)
Fixpoint loadable_from (lo : Z) (phs : list (list Z)) : Prop :=
  match phs with
  | [] => True
  | h :: phs =>
      nothing h /\ loadable_from lo phs \/
      lo <= ph_paddr h - ph_off h mod 512 /\ 0 <= ph_off h /\ 0 <= ph_filesz h /\ 0 <= ph_memsz h < 2 ^ 32 /\ ph_off h + ph_filesz h <= Z.of_nat (length img) /\
      ph_paddr h + Z.max (ph_filesz h) (ph_memsz h) + 512 < 2 ^ 32 /\ loadable_from (ph_paddr h + Z.max (ph_filesz h) (ph_memsz h)) phs
  end.

Lemma readseg_placed m pa count off (o := off mod 512) (m' := put_bytes m (pa - o) (slice img (Z.to_nat (off - o)) (512 * sectors count off))) : 0 <= off -> 0 <= count -> off + count <= Z.of_nat (length img) -> 
  lies_at m' pa (slice img (Z.to_nat off) (Z.to_nat count)) /\ forall x, x < pa - o -> m' x = m x.
Proof.
  intros Ho Hc Hend. assert (Hor : 0 <= o < 512) by (apply Z.mod_pos_bound; lia). assert (Hoff : off = 512 * (off / 512) + o) by (apply Z.div_mod; lia). assert (Hq : 0 <= off / 512) by (apply Z.div_pos; lia).
  assert (Hk : o + count <= 512 * Z.of_nat (sectors count off) < o + count + 512) by (unfold sectors; fold o; rewrite Z2Nat.id by (apply Z.div_pos; lia); Z.to_euclidean_division_equations; lia). split.
  - pose proof (put_bytes_lies m (pa - o) (slice img (Z.to_nat (off - o)) (512 * sectors count off))) as H. fold m' in H.
    apply (lies_slice _ _ _ (Z.to_nat o) (Z.to_nat count)) in H; [|rewrite slice_length; lia]. replace (pa - o + Z.of_nat (Z.to_nat o)) with pa in H by lia. rewrite slice_slice in H by lia. by replace (Z.to_nat (off - o) + Z.to_nat o)%nat with (Z.to_nat off) in H by lia.
  - intros x Hx. apply put_bytes_out. lia.
Qed.

Lemma in_place_below m m' h hi : in_place m h -> 0 <= ph_off h -> 0 <= ph_filesz h -> ph_off h + ph_filesz h <= Z.of_nat (length img) -> ph_paddr h + Z.max (ph_filesz h) (ph_memsz h) <= hi -> (forall x, x < hi -> m' x = m x) -> in_place m' h.
Proof.
  intros [H1 H2] Ho Hf He Hhi Hm. split.
  - eapply lies_ext; [|exact H1]. intros x Hx. rewrite slice_length in Hx by lia. apply Hm. lia.
  - intros x Hx. rewrite Hm by lia. by apply H2.
Qed.

Lemma readseg_nothing s pa off : off mod 512 = 0 -> readseg pa 0 off s = Ok tt s.
Proof. intros Ho. unfold readseg, SECTSIZE. rewrite Ho, Z.add_0_r, Z.sub_0_r. cbn [readseg_loop]. by rewrite Z.ltb_irrefl. Qed.
Lemma in_place_nothing m h : nothing h -> in_place m h.
Proof. intros (Hf & Hm & _). unfold in_place. rewrite Hf, Hm. split; [done|lia]. Qed.

Lemma bootmain_loop_run phs : forall s ph lo n, on_disk (b_hw s) -> (forall j h, phs !! j = Some h -> bytes (b_mem s) (ph + 32 * Z.of_nat j) 32 = h) -> 0 <= ph -> ph + 32 * Z.of_nat (length phs) <= lo -> lo < 2 ^ 32 -> loadable_from lo phs -> (length phs < n)%nat ->
  exists s', bootmain_loop n ph (ph + 32 * Z.of_nat (length phs)) s = Ok tt s' /\ on_disk (b_hw s') /\ (forall x, x < lo -> b_mem s' x = b_mem s x) /\ Forall (in_place (b_mem s')) phs.
Proof.
  induction phs as [|h phs IH]; intros s ph lo n Hd Hh Hph Hlo Hmax Hl Hn; destruct n as [|n]; cbn [length] in *; try lia; cbn [bootmain_loop].
  { rewrite (proj2 (Z.ltb_ge _ _)) by lia. exists s. by split_and!. }
  rewrite (proj2 (Z.ltb_lt _ _)) by lia. mrun1. assert (Hb : bytes (b_mem s) ph 32 = h) by (rewrite <- (Hh 0%nat h eq_refl); f_equal; lia). rewrite Hb. cbv zeta. cbn [loadable_from] in Hl. destruct Hl as [[He Hl]|(L1 & L2 & L3 & L4 & L5 & L6 & Hl)].
  { pose proof He as (Hf & Hm & Ho). rewrite Hf. mstep (readseg_nothing s (ph_paddr h) (ph_off h) Ho). mrun1. rewrite Hb, Hf, Hm. change (0 <? 0) with false. cbn [when]. mrun1. rewrite (u32_id (ph + 32)) by lia.
    replace (ph + 32 * Z.of_nat (S (length phs))) with (ph + 32 + 32 * Z.of_nat (length phs)) by lia.
    destruct (IH s (ph + 32) lo n) as (s' & E & Hd' & Hk & Hall); [done| |lia|lia|lia|exact Hl|lia|].
    - intros j h' Hj. rewrite <- (Hh (S j) h' Hj). f_equal. lia.
    - exists s'. split_and!; try done. constructor; [by apply in_place_nothing|done]. }
  assert (Hor : 0 <= ph_off h mod 512) by (apply Z.mod_pos_bound; lia).
  destruct (readseg_run s (ph_paddr h) (ph_filesz h) (ph_off h) Hd L2 L3 L5) as (d1 & E1 & Hd1); [lia|lia|]. mstep E1. destruct (readseg_placed (b_mem s) (ph_paddr h) (ph_filesz h) (ph_off h) L2 L3 L5) as [Hlies Hlow]. set (m1 := put_bytes _ _ _) in *.
  mrun1. cbn [b_mem]. assert (Hb1 : bytes m1 ph 32 = h) by (rewrite <- Hb; apply bytes_ext; intros x Hx; apply Hlow; lia). rewrite Hb1.
  set (s2 := if ph_filesz h <? ph_memsz h then mkBoot d1 (stosb m1 (ph_paddr h + ph_filesz h) 0 (Z.to_nat (ph_memsz h - ph_filesz h))) else mkBoot d1 m1).
  assert (E2 : when (ph_filesz h <? ph_memsz h) (modify (fun s => mkBoot (b_hw s) (stosb (b_mem s) (ph_paddr h ⊕ ph_filesz h) 0 (Z.to_nat (ph_memsz h ⊖ ph_filesz h))))) (mkBoot d1 m1) = Ok tt s2).
  { unfold s2. destruct (Z.ltb_spec (ph_filesz h) (ph_memsz h)); cbn [when]; [|done]. rewrite !u32_id by lia. done. }
  mstep E2. rewrite (u32_id (ph + 32)) by lia. set (hi := ph_paddr h + Z.max (ph_filesz h) (ph_memsz h)) in *.
  assert (Hs2 : b_hw s2 = d1 /\ (forall x, x < ph_paddr h + ph_filesz h -> b_mem s2 x = m1 x) /\ forall x, ph_paddr h + ph_filesz h <= x < ph_paddr h + ph_memsz h -> b_mem s2 x = 0).
  { unfold s2. destruct (Z.ltb_spec (ph_filesz h) (ph_memsz h)); cbn [b_hw b_mem]; split_and!; try done; [| |lia].
    - intros x Hx. rewrite stosb_spec. rewrite (proj2 (Z.leb_gt _ _)) by lia. done.
    - intros x Hx. rewrite stosb_spec. rewrite (proj2 (Z.leb_le _ _)), (proj2 (Z.ltb_lt _ _)) by lia. done. }
  destruct Hs2 as (Hw2 & Hm2 & Hz2). assert (Hlow2 : forall x, x < lo -> b_mem s2 x = b_mem s x) by (intros x Hx; rewrite Hm2 by lia; apply Hlow; lia).
  replace (ph + 32 * Z.of_nat (S (length phs))) with (ph + 32 + 32 * Z.of_nat (length phs)) by lia.
  destruct (IH s2 (ph + 32) hi n) as (s' & E & Hd' & Hk & Hall); [by rewrite Hw2| |lia|lia|lia|exact Hl|lia|].
  - intros j h' Hj. rewrite <- (Hh (S j) h' Hj). replace (ph + 32 + 32 * Z.of_nat j) with (ph + 32 * Z.of_nat (S j)) by lia. apply bytes_ext. intros x Hx. apply Hlow2. apply lookup_lt_Some in Hj. lia.
  - exists s'. split; [exact E|]. split; [done|]. split; [intros x Hx; rewrite Hk by lia; by apply Hlow2|]. constructor; [|done]. apply (in_place_below (b_mem s2) _ _ hi); try done; try lia.
    split; [|done]. eapply lies_ext; [|exact Hlies]. intros x Hx. rewrite slice_length in Hx by lia. apply Hm2. lia.
Qed.
End Image.

(** C24: The boot loader, on a drive whose sectors behind the boot sector hold a
    kernel's ELF file: when the magic number is missing it returns; otherwise
    it calls the entry point of the file with every segment in place, its
    bytes of the file followed by zeros up to its size in memory.  The
    segments that are not empty lie in ascending order above the scratch page,
    with room for the whole sectors that are read. *)
Theorem bootmain_correct img nsec phs s (elf := take 52 img) : length img = (512 * nsec)%nat -> Z.of_nat nsec + 1 < 2 ^ 28 -> (8 <= nsec)%nat -> on_disk img nsec (b_hw s) ->
  elf_phnum elf = Z.of_nat (length phs) -> 0 <= elf_phoff elf -> elf_phoff elf + 32 * Z.of_nat (length phs) <= 4096 ->
  (forall j h, phs !! j = Some h -> slice img (Z.to_nat (elf_phoff elf) + 32 * j) 32 = h) -> loadable_from img (ELF_AT + 4096) phs ->
  exists s', bootmain s = Ok (if elf_magic elf =? ELF_MAGIC then Some (elf_entry elf) else None) s' /\ (elf_magic elf = ELF_MAGIC -> Forall (in_place img (b_mem s')) phs).
Proof.
  intros Himg Hnsec H8 Hd Hnum Hoff Hend Hphs Hl. unfold bootmain. destruct (readseg_run img nsec Himg Hnsec s ELF_AT 4096 0 Hd) as (d1 & E1 & Hd1); [done|done|lia|done|done|]. mstep E1.
  change (0 mod 512) with 0 in *. change (sectors 4096 0) with 8%nat in *. rewrite !Z.sub_0_r in *. set (m1 := put_bytes (b_mem s) ELF_AT (slice img (Z.to_nat 0) (512 * 8))).
  assert (Hpage : forall k n, (k + n <= 4096)%nat -> bytes m1 (ELF_AT + Z.of_nat k) n = slice img k n).
  { intros k n Hkn. pose proof (put_bytes_lies (b_mem s) ELF_AT (slice img 0 4096)) as H. change (lies_at m1 ELF_AT (slice img 0 4096)) in H. apply (lies_slice _ _ _ k n) in H; [|rewrite slice_length; lia]. rewrite slice_slice in H by lia. unfold lies_at in H. rewrite slice_length in H by lia. exact H. }
  assert (Helf : bytes m1 ELF_AT 52 = elf) by (rewrite <- (Z.add_0_r ELF_AT); apply (Hpage 0%nat 52%nat); lia). mrun1. cbn [b_mem]. rewrite Helf. destruct (Z.eqb_spec (elf_magic elf) ELF_MAGIC) as [Em|Em]; cbn [negb].
  2:{ eexists. split; [done|]. by intros. }
  cbv zeta. rewrite Hnum, Nat2Z.id. rewrite (u32_id (ELF_AT + elf_phoff elf)) by (unfold ELF_AT; lia). rewrite u32_id by (unfold ELF_AT; lia).
  destruct (bootmain_loop_run img nsec Himg Hnsec phs (mkBoot d1 m1) (ELF_AT + elf_phoff elf) (ELF_AT + 4096) (S (length phs))) as (s' & E & _ & Hk & Hall); [done| |unfold ELF_AT; lia|lia|done|done|lia|].
  - intros j h Hj. cbn [b_mem]. apply lookup_lt_Some in Hj as Hjl. replace (ELF_AT + elf_phoff elf + 32 * Z.of_nat j) with (ELF_AT + Z.of_nat (Z.to_nat (elf_phoff elf) + 32 * j)) by lia. rewrite Hpage by lia. by apply Hphs.
  - mstep E. mrun1. assert (He : bytes (b_mem s') ELF_AT 52 = elf) by (rewrite <- Helf; apply bytes_ext; intros x Hx; apply Hk; lia). rewrite He. by exists s'.
Qed.
End Boot.

(** A kernel of one segment, four bytes and four zeros at 1 MB, with the header of a stack before it. *)
#[local] Existing Instance toy_ports.
#[local] Existing Instance toy_ata.
Definition tiny_kernel : list Z :=
  let file := le_bytes 4 ELF_MAGIC ++ replicate 20 0 ++ le_bytes 4 0x100000 ++ le_bytes 4 52 ++ replicate 12 0 ++ [2; 0] ++ replicate 6 0 ++ (le_bytes 4 0x6474e551 ++ replicate 20 0 ++ le_bytes 4 7 ++ le_bytes 4 16) ++
    (le_bytes 4 1 ++ le_bytes 4 116 ++ le_bytes 4 0x80100000 ++ le_bytes 4 0x100000 ++ le_bytes 4 4 ++ le_bytes 4 8 ++ replicate 8 0) ++ [250; 235; 254; 144] in
  file ++ replicate (4096 - length file) 7.
Definition boot_toy : boot toy := mkBoot (mkToy (fun _ => 0) (fun k => slice tiny_kernel (512 * Z.to_nat (k.2 - 1)) 512) None false) (fun _ => 9).
Lemma bootmain_correct_witness : exists s', bootmain 2 boot_toy = Ok (Some 0x100000) s' /\ lies_at (b_mem s') 0x100000 [250; 235; 254; 144] /\ b_mem s' 0x100007 = 0.
Proof.
  assert (H1 : (@max_delay toy toy_ports toy_ata < 2)%nat) by (cbn; lia).
  destruct (bootmain_correct (D := toy) 2 H1 tiny_kernel 8 [slice tiny_kernel 52 32; slice tiny_kernel 84 32] boot_toy) as (s' & E & Hall).
  - reflexivity.
  - reflexivity.
  - lia.
  - intros j Hj. cbn [platter toy_ata toy_platter b_hw boot_toy]. f_equal. cbn [snd]. lia.
  - vm_compute. reflexivity.
  - vm_compute. discriminate.
  - vm_compute. discriminate.
  - intros [|[|j]] h Hj; [injection Hj as <-; reflexivity..|discriminate].
  - cbn [loadable_from]. left. split; [split_and!; vm_compute; reflexivity|]. right. split_and!; try exact I; vm_compute; (reflexivity || discriminate).
  - exists s'. split; [exact E|]. specialize (Hall ltac:(vm_compute; reflexivity)). apply Forall_cons in Hall as [_ Hall]. apply Forall_cons in Hall as [[B1 B2] _]. split; [exact B1|]. apply B2. vm_compute. split; [discriminate|reflexivity].
Defined.
