(* ===== verification/Files.v ===== *)
(** * Descriptors and open files

    The reference count of an open file is the number of descriptors that
    refer to it: those of the running process and [ext], the references that
    others hold.  Every system call keeps this ([syscall_keeps_files]). *)

From stdpp Require Import functions.
From S2P Require Import Prelude Str Spinlock Bytes Interfaces Proc Pipe Kalloc Vm Aspace Uvm Log Disk Fs Kern Umem File Sysfile Exec.

(** Descriptors in [l] that refer to [f]. *)
Fixpoint uses (f : nat) (l : list (option nat)) : Z :=
  match l with
  | [] => 0
  | o :: l => (if bool_decide (o = Some f) then 1 else 0) + uses f l
  end.
Definition one (f : nat) : nat -> Z := fun g => if bool_decide (g = f) then 1 else 0.
Definition plus (e e' : nat -> Z) : nat -> Z := fun g => e g + e' g.
Definition minus (e e' : nat -> Z) : nat -> Z := fun g => e g - e' g.

(** The open files agree with the descriptors. *)
Record files (ext : nat -> Z) (s : kern) : Prop := {
  fi_lock : k_ftlock s = false;
  fi_fds : length (p_ofile (k_proc s)) = NOFILE;
  fi_open : forall fd f, p_ofile (k_proc s) !! fd = Some (Some f) -> (f < length (k_ftable s))%nat;
  fi_ref : forall f x, k_ftable s !! f = Some x -> f_ref x = uses f (p_ofile (k_proc s)) + ext f;
  fi_free : forall f x, k_ftable s !! f = Some x -> f_ref x = 0 -> f_type x = FD_NONE;
}.

Lemma uses_nonneg f l : 0 <= uses f l.
Proof. induction l as [|o l IH]; cbn; [done|]. case_bool_decide; lia. Qed.
Lemma uses_pos f l k : l !! k = Some (Some f) -> 0 < uses f l.
Proof.
  revert k. induction l as [|o l IH]; intros [|k] Hk; simplify_eq/=; [pose proof (uses_nonneg f l); rewrite bool_decide_true by done; lia|]. specialize (IH k Hk). case_bool_decide; lia.
Qed.
Lemma uses_insert f l k o o' : l !! k = Some o -> uses f (<[k := o']> l) = uses f l - (if bool_decide (o = Some f) then 1 else 0) + (if bool_decide (o' = Some f) then 1 else 0).
Proof. revert k. induction l as [|y l IH]; intros [|k] Hk; simplify_eq/=; [lia|]. rewrite (IH k Hk). lia. Qed.

(** ** What leaves descriptors and open files alone *)

Definition apart (s s' : kern) : Prop := k_ftlock s' = k_ftlock s /\ k_ftable s' = k_ftable s /\ p_ofile (k_proc s') = p_ofile (k_proc s).
Definition frames {A} (m : M kern A) : Prop := forall s a s', m s = Ok a s' -> apart s s'.
Lemma files_apart ext s s' : apart s s' -> files ext s -> files ext s'.
Proof. intros (E1 & E2 & E3) [H1 H2 H3 H4 H5]. split; rewrite ?E1, ?E2, ?E3; done. Qed.
Lemma apart_trans s1 s2 s3 : apart s1 s2 -> apart s2 s3 -> apart s1 s3.
Proof. intros (?&?&?) (?&?&?). split_and!; congruence. Qed.

Create HintDb frames.
Lemma frames_ret {A} (a : A) : frames (mret a).
Proof. by intros s b s' [= <- <-]. Qed.
Lemma frames_bind {A B} (m : M kern A) (f : A -> M kern B) : frames m -> (forall a, frames (f a)) -> frames (m ≫= f).
Proof. intros Hm Hf s b s' H. minv H a s1 H1. eapply apart_trans; [by eapply Hm|by eapply Hf]. Qed.
Lemma frames_fs {A} (m : M fsys A) : frames (fs m).
Proof. intros s a s'. unfold fs, zoom. destruct (m (k_fs s)); [|done]. by intros [= <- <-]. Qed.
Lemma frames_memory {A} (m : M kmem A) : frames (memory m).
Proof. intros s a s'. unfold memory, zoom. destruct (m (k_mem s)); [|done]. by intros [= <- <-]. Qed.
Lemma frames_stop {A} o : frames (halt o : M kern A).
Proof. by intros s a s'. Qed.
Lemma frames_panic {A} msg : frames (panic msg : M kern A).
Proof. by intros s a s'. Qed.
Lemma frames_me : frames me.
Proof. by intros s a s' [= <- <-]. Qed.
Lemma frames_get : frames get.
Proof. by intros s a s' [= <- <-]. Qed.
Lemma frames_deref {A} msg (o : option A) : frames (deref msg o : M kern A).
Proof. intros s a s'. destruct o; [|done]. by intros [= <- <-]. Qed.
Lemma frames_when b (m : M kern unit) : frames m -> frames (when b m).
Proof. intros Hm. destruct b; [done|apply frames_ret]. Qed.
Lemma frames_on_pipe {A} p (m : M pipe A) : frames (on_pipe p m).
Proof.
  intros s a s' H. unfold on_pipe in H. minv H s0 s1 H0. injection H0 as <- <-. minv H q s2 H2. destruct (k_pipes s !! p); [|done]. injection H2 as <- <-.
  destruct (m p0); minv H u s3 H3; [|done]. injection H3 as <- <-. by injection H as <- <-.
Qed.
Lemma frames_upd_me f : (forall x, p_ofile (f x) = p_ofile x) -> frames (upd_me f).
Proof. intros Hf s a s' [= <- <-]. split_and!; [done|done|apply Hf]. Qed.
Lemma frames_pipes f : frames (modify (fun s => set_pipes (f s) s)).
Proof. by intros s a s' [= <- <-]. Qed.
#[export] Hint Resolve frames_ret frames_fs frames_memory frames_stop frames_panic frames_me frames_get frames_deref frames_on_pipe frames_pipes : frames.

(** Cut a program into its steps. *)
Ltac frame :=
  repeat (intros;
    match goal with
    | |- frames (_ ≫= _) => apply frames_bind
    | |- frames (when _ _) => apply frames_when
    | |- frames (if ?b then _ else _) => destruct b
    | |- frames (match ?x with _ => _ end) => destruct x
    | |- frames (let _ := _ in _) => cbv zeta
    | |- frames (upd_me _) => apply frames_upd_me; done
    | |- frames _ => solve [auto with frames]
    end).

Lemma frames_or_fail {A} (m : M kern (option A)) f : frames m -> (forall a, frames (f a)) -> frames (or_fail m f).
Proof. intros Hm Hf. unfold or_fail. frame. Qed.
Lemma frames_mmu a : frames (mmu a).
Proof. unfold mmu. frame. Qed.
#[export] Hint Resolve frames_mmu : frames.
Lemma frames_uload a : frames (uload a).
Proof. unfold uload. frame. Qed.
Lemma frames_ustore a b : frames (ustore a b).
Proof. unfold ustore. frame. Qed.
#[export] Hint Resolve frames_uload frames_ustore : frames.
Lemma frames_uload_bytes n : forall a, frames (uload_bytes a n).
Proof. induction n as [|n IH]; intros a; cbn [uload_bytes]; frame. Qed.
Lemma frames_ustore_bytes l : forall a, frames (ustore_bytes a l).
Proof. induction l as [|b l IH]; intros a; cbn [ustore_bytes]; frame. Qed.
#[export] Hint Resolve frames_uload_bytes frames_ustore_bytes : frames.
Lemma frames_fetchint a : frames (fetchint a).
Proof. unfold fetchint. frame. Qed.
Lemma frames_fetchstr_loop fuel : forall a e, frames (fetchstr_loop fuel a e).
Proof. induction fuel as [|fuel IH]; intros a e; cbn [fetchstr_loop]; frame. Qed.
Lemma frames_fetchstr a : frames (fetchstr a).
Proof. unfold fetchstr. pose proof frames_fetchstr_loop. frame. Qed.
#[export] Hint Resolve frames_fetchint frames_fetchstr : frames.
Lemma frames_argint n : frames (argint n).
Proof. unfold argint. frame. Qed.
#[export] Hint Resolve frames_argint : frames.
Lemma frames_argptr n z : frames (argptr n z).
Proof. unfold argptr. frame. Qed.
Lemma frames_argstr n : frames (argstr n).
Proof. unfold argstr. frame. Qed.
Lemma frames_argfd n : frames (argfd n).
Proof. unfold argfd, fdfile. frame. Qed.
#[export] Hint Resolve frames_argptr frames_argstr frames_argfd : frames.

(** System calls that open and close nothing. *)
Section Frames.
Context (devsw : Z -> option ((nat -> Z -> M fsys (Z * list Z)) * (nat -> list Z -> M fsys Z))) (name0 elf0 ph0 : list Z) (data : Z).

Lemma frames_k_namei path : frames (k_namei devsw path).
Proof. unfold k_namei. frame. Qed.
Lemma frames_k_nameiparent path : frames (k_nameiparent devsw name0 path).
Proof. unfold k_nameiparent. frame. Qed.
Lemma frames_bump_nlink ip n : frames (bump_nlink ip n).
Proof. unfold bump_nlink. frame. Qed.
#[local] Hint Resolve frames_k_namei frames_k_nameiparent frames_bump_nlink : frames.
Lemma frames_link_bad ip : frames (link_bad ip).
Proof. unfold link_bad. frame. Qed.
Lemma frames_unlink_bad dp : frames (unlink_bad dp).
Proof. unfold unlink_bad. frame. Qed.
Lemma frames_isdirempty_loop fuel : forall dp off, frames (isdirempty_loop devsw fuel dp off).
Proof. induction fuel as [|fuel IH]; intros dp off; cbn [isdirempty_loop]; frame. Qed.
Lemma frames_isdirempty dp : frames (isdirempty devsw dp).
Proof. unfold isdirempty. pose proof frames_isdirempty_loop. frame. Qed.
Lemma frames_create path ty ma mi : frames (create devsw name0 path ty ma mi).
Proof. unfold create. frame. Qed.
#[local] Hint Resolve frames_link_bad frames_unlink_bad frames_isdirempty frames_create : frames.
Lemma frames_sys_link : frames (sys_link devsw name0).
Proof. unfold sys_link, link_paths, or_fail. frame. Qed.
Lemma frames_sys_unlink : frames (sys_unlink devsw name0).
Proof. unfold sys_unlink, unlink_path, or_fail. frame. Qed.
Lemma frames_sys_mkdir : frames (sys_mkdir devsw name0).
Proof. unfold sys_mkdir, mkdir_path. frame. Qed.
Lemma frames_sys_mknod : frames (sys_mknod devsw name0).
Proof. unfold sys_mknod. frame. Qed.
Lemma frames_sys_chdir : frames (sys_chdir devsw).
Proof. unfold sys_chdir, chdir_path, or_fail. frame. Qed.
Lemma frames_sys_sbrk : frames sys_sbrk.
Proof. unfold sys_sbrk, or_fail, grow. frame. Qed.
Lemma frames_sys_getpid : frames sys_getpid.
Proof. unfold sys_getpid. frame. Qed.

(** exec. *)
Lemma frames_k_readi ip off n : frames (k_readi devsw ip off n).
Proof. unfold k_readi. frame. Qed.
#[local] Hint Resolve frames_k_readi : frames.
Lemma frames_loaduvm_loop ip fuel : forall pgdir a o z i, frames (loaduvm_loop k_mem set_mem (k_readi devsw ip) fuel pgdir a o z i).
Proof. induction fuel as [|fuel IH]; intros pgdir a o z i; cbn [loaduvm_loop]; frame; apply frames_memory. Qed.
Lemma frames_loaduvm ip pgdir a o z : frames (loaduvm k_mem set_mem (k_readi devsw ip) pgdir a o z).
Proof. unfold loaduvm. pose proof frames_loaduvm_loop. frame. Qed.
#[local] Hint Resolve frames_loaduvm : frames.
Lemma frames_exec_load n : forall ip pgdir off sz phl, frames (exec_load devsw n ip pgdir off sz phl).
Proof. induction n as [|n IH]; intros ip pgdir off sz phl; cbn [exec_load]; frame. Qed.
Lemma frames_exec_args argv : forall pgdir sp argc ptrs, frames (exec_args pgdir sp argc argv ptrs).
Proof. induction argv as [|x argv IH]; intros pgdir sp argc ptrs; cbn [exec_args]; frame. Qed.
Lemma frames_exec_bad pgdir ip : frames (exec_bad pgdir ip).
Proof. unfold exec_bad. frame. Qed.
Lemma frames_exec_argv fuel : forall u i argv, frames (exec_argv fuel u i argv).
Proof. induction fuel as [|fuel IH]; intros u i argv; cbn [exec_argv]; frame. Qed.
#[local] Hint Resolve frames_exec_load frames_exec_args frames_exec_bad frames_exec_argv : frames.
Lemma frames_exec_stack pgdir sz argv : frames (exec_stack pgdir sz argv).
Proof. unfold exec_stack. frame. Qed.
Lemma frames_exec_commit path pgdir sz entry sp : frames (exec_commit path pgdir sz entry sp).
Proof. unfold exec_commit. frame. Qed.
#[local] Hint Resolve frames_exec_stack frames_exec_commit : frames.
Lemma frames_exec path argv : frames (exec devsw elf0 ph0 data path argv).
Proof. unfold exec, or_fail. frame. Qed.
Lemma frames_sys_exec : frames (sys_exec devsw elf0 ph0 data).
Proof. unfold sys_exec, or_fail. pose proof frames_exec. frame. Qed.
End Frames.

(** ** Opening and closing *)

Lemma files_ext e e' s : (forall f, e f = e' f) -> files e s -> files e' s.
Proof. intros He [H1 H2 H3 H4 H5]. split; try done. intros f x Hx. rewrite <- He. by apply H4. Qed.
Lemma ft_acquire_inv s a s' : ft_acquire s = Ok a s' -> s' = set_ftlock true s.
Proof. unfold ft_acquire, acquire. intros H. minv H x s1 H1. injection H1 as <- <-. destruct (k_ftlock s); [done|]. by injection H as <- <-. Qed.
Lemma ft_release_inv s a s' : ft_release s = Ok a s' -> s' = set_ftlock false s.
Proof. unfold ft_release, release. intros H. minv H x s1 H1. injection H1 as <- <-. destruct (k_ftlock s); [|done]. by injection H as <- <-. Qed.
Lemma file_at_inv f s x s' : file_at f s = Ok x s' -> k_ftable s !! f = Some x /\ s' = s.
Proof. unfold file_at. intros H. minv H s0 s1 H1. injection H1 as <- <-. destruct (k_ftable s !! f); [|done]. by injection H as <- <-. Qed.
Lemma upd_file_inv f g s a s' : upd_file f g s = Ok a s' -> exists x, k_ftable s !! f = Some x /\ s' = set_ftable (<[f := g x]> (k_ftable s)) s.
Proof. unfold upd_file. intros H. minv H x s1 H1. apply file_at_inv in H1 as [Hx ->]. exists x. split; [done|]. by injection H as <- <-. Qed.

(** An entry of the table changes, and its count by [n]. *)
Lemma files_entry ext ext' s f x y : files ext s -> k_ftable s !! f = Some x -> (forall g, ext' g = ext g + (f_ref y - f_ref x) * one f g) -> (f_ref y = 0 -> f_type y = FD_NONE) ->
  files ext' (set_ftable (<[f := y]> (k_ftable s)) s).
Proof.
  intros [H1 H2 H3 H4 H5] Hx He Hy. split; cbn [set_ftable k_ftlock k_proc k_ftable]; try done.
  - intros fd g Hg. rewrite length_insert. eauto.
  - intros g z [(<- & <- & _)|(Hne & Hz)]%list_lookup_insert_Some.
    + rewrite He, (H4 f x Hx). unfold one. rewrite bool_decide_true by done. lia.
    + rewrite He, (H4 g z Hz). unfold one. rewrite bool_decide_false by done. lia.
  - intros g z [(<- & <- & _)|(Hne & Hz)]%list_lookup_insert_Some; [done|by eapply H5].
Qed.
Lemma files_relock ext s b f : files ext (set_ftable f s) -> files ext (set_ftlock false (set_ftable f (set_ftlock b s))).
Proof. intros [H1 H2 H3 H4 H5]. by split. Qed.

Lemma free_file_spec l : forall k f, free_file l k = Some f -> exists j x, f = (k + j)%nat /\ l !! j = Some x /\ f_ref x = 0.
Proof.
  induction l as [|x l IH]; intros k f; cbn; [done|]. destruct (Z.eqb_spec (f_ref x) 0); [intros [= <-]; exists 0%nat, x; by rewrite Nat.add_0_r|].
  intros H. destruct (IH _ _ H) as (j & y & -> & Hj & Hy). exists (S j), y. by rewrite Nat.add_succ_r.
Qed.
Lemma filealloc_files ext s o s' : files ext s -> filealloc s = Ok o s' -> length (k_ftable s') = length (k_ftable s) /\ k_proc s' = k_proc s /\
  match o with Some f => files (plus ext (one f)) s' /\ (f < length (k_ftable s'))%nat | None => files ext s' end.
Proof.
  intros Hf H. unfold filealloc in H. minv H u s1 H1. apply ft_acquire_inv in H1 as ->. minv H s0 s1 H1. injection H1 as <- <-. cbn [set_ftlock k_ftable] in H.
  destruct (free_file (k_ftable s) 0) as [f|] eqn:Ef.
  - apply free_file_spec in Ef as (j & x & -> & Hx & Hr). minv H u2 s2 H2. apply upd_file_inv in H2 as (y & Hy & ->). minv H u3 s3 H3. apply ft_release_inv in H3 as ->. injection H as <- <-.
    cbn [set_ftlock k_ftable Nat.add] in *. simplify_eq. split; [apply length_insert|]. split; [done|]. split; [|cbn; rewrite length_insert; by eapply lookup_lt_Some].
    apply files_relock. eapply files_entry; [done|done| |done]. intros g. unfold plus. cbn. lia.
  - minv H u3 s3 H3. apply ft_release_inv in H3 as ->. injection H as <- <-. split; [done|]. split; [done|]. destruct Hf as [F1 F2 F3 F4 F5]. by split.
Qed.
Lemma filedup_files ext s f a s' : files ext s -> filedup f s = Ok a s' -> files (plus ext (one f)) s'.
Proof.
  intros Hf H. unfold filedup in H. minv H u s1 H1. apply ft_acquire_inv in H1 as ->. minv H x s1 H1. apply file_at_inv in H1 as [Hx ->]. destruct (Z.ltb_spec (f_ref x) 1); [done|].
  minv H u2 s2 H2. apply upd_file_inv in H2 as (y & Hy & ->). minv H u3 s3 H3. apply ft_release_inv in H3 as ->. injection H as <- <-. cbn [set_ftlock k_ftable] in *. simplify_eq.
  apply files_relock. eapply files_entry; [done|done| |cbn; lia]. intros g. unfold plus. cbn. lia.
Qed.
Lemma pipe_close_frames p w : frames (pipe_close p w).
Proof. unfold pipe_close. frame. Qed.
Lemma fileclose_files ext s f a s' : files ext s -> fileclose f s = Ok a s' -> files (minus ext (one f)) s'.
Proof.
  intros Hf H. unfold fileclose in H. minv H u s1 H1. apply ft_acquire_inv in H1 as ->. minv H x s1 H1. apply file_at_inv in H1 as [Hx ->]. destruct (Z.ltb_spec (f_ref x) 1); [done|].
  minv H u2 s2 H2. apply upd_file_inv in H2 as (y & Hy & ->). minv H ff s3 H3. apply file_at_inv in H3 as [Hff ->]. cbn [set_ftlock set_ftable k_ftable] in *. simplify_eq.
  rewrite list_lookup_insert_eq in Hff by (by eapply lookup_lt_Some). injection Hff as <-. cbn [f_ref set_f_ref f_type] in H. destruct (Z.ltb_spec 0 (f_ref x - 1)).
  - apply ft_release_inv in H as ->. apply files_relock. eapply files_entry; [done|done| |cbn; lia]. intros g. unfold minus. cbn. lia.
  - minv H u4 s4 H4. apply upd_file_inv in H4 as (z & Hz & ->). cbn [set_ftlock set_ftable k_ftable] in *. rewrite list_lookup_insert_eq in Hz by (by eapply lookup_lt_Some). injection Hz as <-.
    rewrite list_insert_insert_eq in H. minv H u5 s5 H5. apply ft_release_inv in H5 as ->.
    eapply files_apart; [|apply files_relock; eapply (files_entry ext _ s f x (set_f_type FD_NONE (set_f_ref 0 (set_f_ref (f_ref x - 1) x)))); [done|done| |done]; intros g; unfold minus; cbn; replace (f_ref x) with 1 by lia; lia].
    destruct (f_type x); [|by eapply pipe_close_frames|]; [by injection H as <- <-|].
    match type of H with ?m _ = _ => assert (Hm : frames m) by frame; exact (Hm _ _ _ H) end.
Qed.
Lemma free_fd_spec l : forall k fd, 0 <= k -> free_fd l k = Some fd -> exists j, fd = k + Z.of_nat j /\ l !! j = Some None /\ forall i, (i < j)%nat -> exists g, l !! i = Some (Some g).
Proof.
  induction l as [|o l IH]; intros k fd Hk; cbn; [done|]. destruct o as [g|]; [|intros [= <-]; exists 0%nat; rewrite Z.add_0_r; split_and!; [done|done|lia]].
  intros H. destruct (IH (k + 1) fd ltac:(lia) H) as (j & -> & Hj & Hall). exists (S j). split_and!; [lia|done|]. intros [|i] Hi; [by exists g|]. apply Hall. lia.
Qed.
(** A descriptor changes. *)
Lemma files_fd ext ext' s k o o' : files ext s -> p_ofile (k_proc s) !! k = Some o -> (forall f, o' = Some f -> (f < length (k_ftable s))%nat) ->
  (forall g, ext' g = ext g + (if bool_decide (o = Some g) then 1 else 0) - (if bool_decide (o' = Some g) then 1 else 0)) ->
  files ext' (set_proc (set_ofile (<[k := o']> (p_ofile (k_proc s))) (k_proc s)) s).
Proof.
  intros [H1 H2 H3 H4 H5] Hk Ho He. split; cbn [set_proc k_ftlock k_proc k_ftable p_ofile set_ofile]; try done.
  - by rewrite length_insert.
  - intros fd f [(-> & -> & _)|(_ & Hf)]%list_lookup_insert_Some; [by apply Ho|by eapply H3].
  - intros f x Hx. rewrite (H4 f x Hx), (uses_insert f _ _ _ o' Hk), He. lia.
Qed.
Lemma fdalloc_files ext s f o s' : files ext s -> (f < length (k_ftable s))%nat -> fdalloc f s = Ok o s' -> k_ftable s' = k_ftable s /\
  match o with
  | Some fd => files (minus ext (one f)) s' /\ 0 <= fd /\ p_ofile (k_proc s') !! Z.to_nat fd = Some (Some f)
  | None => files ext s'
  end.
Proof.
  intros Hf Hlt H. unfold fdalloc, me in H. minv H x s1 H1. injection H1 as <- <-. destruct (free_fd (p_ofile (k_proc s)) 0) as [fd|] eqn:E; [|by injection H as <- <-].
  minv H u s2 H2. injection H2 as <- <-. injection H as <- <-. split; [done|]. apply free_fd_spec in E as (j & -> & Hj & _); [|done]. rewrite Z.add_0_l, Nat2Z.id. split_and!; [|lia|].
  - eapply files_fd; [done|done|by intros ? [= <-]|]. intros g. unfold minus, one. rewrite (bool_decide_false (None = _)) by done. destruct (decide (g = f)) as [->|]; [by rewrite !bool_decide_true by done; lia|]. rewrite !bool_decide_false by congruence. lia.
  - cbn. by apply list_lookup_insert_eq, lookup_lt_Some with None.
Qed.
Lemma upd_file_files ext s f g a s' : files ext s -> upd_file f g s = Ok a s' -> (forall x, f_ref (g x) = f_ref x) ->
  (forall x, f_type (g x) = f_type x) \/ 0 < uses f (p_ofile (k_proc s)) + ext f -> files ext s' /\ k_proc s' = k_proc s /\ length (k_ftable s') = length (k_ftable s).
Proof.
  intros Hf H Hr Ht. apply upd_file_inv in H as (x & Hx & ->). split; [|cbn; by rewrite length_insert]. eapply files_entry; [done|done|intros h; rewrite Hr; lia|]. rewrite Hr. intros Hz.
  destruct Ht as [Ht|Ht]; [rewrite Ht; by apply (fi_free _ _ Hf f)|]. rewrite (fi_ref _ _ Hf f x Hx) in Hz. lia.
Qed.

(** ** System calls *)

(** [m] keeps the open files, whatever others refer to. *)
Definition keeps {A} (m : M kern A) : Prop := forall ext s a s', (forall f, 0 <= ext f) -> files ext s -> m s = Ok a s' -> files ext s'.
Lemma keeps_frames {A} (m : M kern A) : frames m -> keeps m.
Proof. intros Hm ext s a s' _ Hf H. eapply files_apart; [by eapply Hm|done]. Qed.
Lemma keeps_bind {A B} (m : M kern A) (f : A -> M kern B) : keeps m -> (forall a, keeps (f a)) -> keeps (m ≫= f).
Proof. intros Hm Hf ext s b s' He Hs H. minv H a s1 H1. eapply Hf; [done|by eapply Hm|done]. Qed.
Lemma keeps_if {A} (b : bool) (m m' : M kern A) : keeps m -> keeps m' -> keeps (if b then m else m').
Proof. by destruct b. Qed.
Lemma keeps_offset f g : (forall x, f_ref (g x) = f_ref x) -> (forall x, f_type (g x) = f_type x) -> keeps (upd_file f g).
Proof. intros Hr Ht ext s a s' _ Hf H. eapply upd_file_files; [done|done|done|by left]. Qed.
Lemma keeps_file_at f : keeps (file_at f).
Proof. intros ext s a s' _ Hf H. by apply file_at_inv in H as [_ ->]. Qed.

Ltac keep :=
  repeat (intros;
    match goal with
    | |- keeps (_ ≫= _) => apply keeps_bind
    | |- keeps (if _ then _ else _) => apply keeps_if
    | |- keeps (match ?x with _ => _ end) => destruct x
    | |- keeps (when ?b _) => destruct b; cbn [when]
    | |- keeps (file_at _) => apply keeps_file_at
    | |- keeps (upd_file _ _) => apply keeps_offset; done
    | |- keeps _ => solve [auto with frames | apply keeps_frames; frame]
    end).

Lemma argfd_inv n s fd f s' : argfd n s = Ok (Some (fd, f)) s' -> apart s s' /\ p_ofile (k_proc s') !! Z.to_nat fd = Some (Some f).
Proof.
  intros H. split; [by eapply frames_argfd|]. unfold argfd, fdfile, me in H. minv H o s1 H1. destruct o as [z|]; [|done]. minv H x s2 H2. injection H2 as <- <-.
  destruct (_ || _); [done|]. destruct (p_ofile (k_proc s1) !! Z.to_nat z) as [[g|]|] eqn:E; [|done..]. by injection H as <- <- <-.
Qed.
Lemma or_fail_inv {A} (m : M kern (option A)) f s b s' : or_fail m f s = Ok b s' -> exists o s1, m s = Ok o s1 /\ match o with Some a => f a s1 = Ok b s' | None => s' = s1 end.
Proof. unfold or_fail. intros H. minv H o s1 H1. exists o, s1. split; [done|]. destruct o; [done|]. by injection H as <- <-. Qed.

Lemma sys_dup_keeps : keeps sys_dup.
Proof.
  intros ext s a s' He Hf H. unfold sys_dup in H. apply or_fail_inv in H as ([[fd f]|] & s1 & H1 & H); [|subst s'; eapply files_apart; [by eapply frames_argfd|done]].
  apply argfd_inv in H1 as [Ha Ho]. pose proof (files_apart _ _ _ Ha Hf) as Hf1. apply or_fail_inv in H as (o & s2 & H2 & H).
  destruct (fdalloc_files _ _ _ _ _ Hf1 (fi_open _ _ Hf1 _ _ Ho) H2) as [_ Hd]. destruct o as [fd'|]; [|by subst s'].
  minv H u s3 H3. injection H as <- <-. eapply files_ext; [|eapply filedup_files; [apply Hd|exact H3]]. intros g. unfold plus, minus. lia.
Qed.
Lemma clear_fd_files ext s fd f : files ext s -> p_ofile (k_proc s) !! Z.to_nat fd = Some (Some f) ->
  files (plus ext (one f)) (set_proc (set_ofile (<[Z.to_nat fd := None]> (p_ofile (k_proc s))) (k_proc s)) s).
Proof.
  intros Hf Ho. eapply files_fd; [done|done|done|]. intros g. unfold plus, one. rewrite (bool_decide_false (None = Some g)) by done.
  destruct (decide (g = f)) as [->|]; [rewrite !bool_decide_true by done; lia|]. rewrite !bool_decide_false by congruence. lia.
Qed.
Lemma sys_close_keeps : keeps sys_close.
Proof.
  intros ext s a s' He Hf H. unfold sys_close, close_fd in H. apply or_fail_inv in H as ([[fd f]|] & s1 & H1 & H); [|subst s'; eapply files_apart; [by eapply frames_argfd|done]].
  apply argfd_inv in H1 as [Ha Ho]. pose proof (files_apart _ _ _ Ha Hf) as Hf1. minv H u s2 H2. injection H2 as <- <-. minv H u3 s3 H3. injection H as <- <-.
  eapply files_ext; [|eapply fileclose_files; [by apply (clear_fd_files _ _ _ _ Hf1 Ho)|exact H3]]. intros g. unfold plus, minus. lia.
Qed.
Lemma one_pos f : one f f = 1.
Proof. unfold one. by rewrite bool_decide_true. Qed.
Lemma one_nonneg f g : 0 <= one f g.
Proof. unfold one. case_bool_decide; lia. Qed.
Lemma pipealloc_files ext s o s' : (forall f, 0 <= ext f) -> files ext s -> pipealloc s = Ok o s' ->
  match o with
  | Some (f0, f1) => files (plus (plus ext (one f0)) (one f1)) s' /\ (f0 < length (k_ftable s'))%nat /\ (f1 < length (k_ftable s'))%nat
  | None => files ext s'
  end.
Proof.
  intros He Hf H. unfold pipealloc, pipe_bad in H. minv H o0 s1 H1. destruct (filealloc_files _ _ _ _ Hf H1) as (El1 & _ & Hf1). destruct o0 as [f0|].
  2:{ minv H u s2 H2. injection H2 as <- <-. minv H u3 s3 H3. injection H3 as <- <-. by injection H as <- <-. }
  destruct Hf1 as [Hf1 Hl0]. minv H o1 s2 H2. destruct (filealloc_files _ _ _ _ Hf1 H2) as (El2 & _ & Hf2). destruct o1 as [f1|].
  2:{ minv H u s3 H3. minv H u4 s4 H4. injection H4 as <- <-. injection H as <- <-. eapply files_ext; [|eapply fileclose_files; [exact Hf2|exact H3]]. intros g. unfold plus, minus. lia. }
  destruct Hf2 as [Hf2 Hl1]. minv H p s3 H3. apply (frames_memory kalloc) in H3 as Ha3. pose proof (files_apart _ _ _ Ha3 Hf2) as Hf3. destruct Ha3 as (_ & Et3 & _). destruct (p =? 0).
  - minv H u s4 H4. minv H u5 s5 H5. injection H as <- <-. eapply files_ext; [|eapply fileclose_files; [eapply fileclose_files; [exact Hf3|exact H4]|exact H5]]. intros g. unfold plus, minus. lia.
  - minv H u s4 H4. apply (frames_pipes (fun s => <[p := new_pipe (bytes (kdata (k_mem s)) (p + pipe_data_off) (Z.to_nat PIPESIZE))]> (k_pipes s))) in H4 as Ha4. pose proof (files_apart _ _ _ Ha4 Hf3) as Hf4. destruct Ha4 as (_ & Et4 & _).
    pose proof (He f0) as Hp0. pose proof (He f1) as Hp1. pose proof (one_pos f0) as Hp2. pose proof (one_pos f1) as Hp3. pose proof (one_nonneg f0 f1) as Hp4. pose proof (one_nonneg f1 f0) as Hp5.
    minv H u5 s5 H5. destruct (upd_file_files _ _ _ _ _ _ Hf4 H5) as (Hf5 & Ep5 & El5); [done|right; pose proof (uses_nonneg f0 (p_ofile (k_proc s4))); unfold plus; lia|].
    minv H u6 s6 H6. destruct (upd_file_files _ _ _ _ _ _ Hf5 H6) as (Hf6 & Ep6 & El6); [done|right; pose proof (uses_nonneg f1 (p_ofile (k_proc s5))); unfold plus; lia|].
    injection H as <- <-. split; [done|]. rewrite El6, El5, Et4, Et3. lia.
Qed.
Lemma sys_pipe_keeps : keeps sys_pipe.
Proof.
  intros ext s a s' He Hf H. unfold sys_pipe in H. apply or_fail_inv in H as (o & s1 & H1 & H). assert (Hf1 : files ext s1) by (eapply files_apart; [by eapply frames_argptr|done]). destruct o as [fd|]; [|by subst s'].
  apply or_fail_inv in H as (o & s2 & H2 & H). pose proof (pipealloc_files _ _ _ _ He Hf1 H2) as Hf2. destruct o as [[rf wf]|]; [|by subst s']. destruct Hf2 as (Hf2 & Hlr & Hlw).
  minv H o0 s3 H3. destruct (fdalloc_files _ _ _ _ _ Hf2 Hlr H3) as [Et3 Hf3]. minv H o1 s4 H4. destruct o0 as [fd0|].
  - destruct Hf3 as (Hf3 & Hn0 & Ho0). rewrite <- Et3 in Hlw. destruct (fdalloc_files _ _ _ _ _ Hf3 Hlw H4) as [Et4 Hf4]. destruct o1 as [fd1|].
    + destruct Hf4 as (Hf4 & _). eapply files_ext; [|eapply files_apart; [|exact Hf4]]; [intros g; unfold plus, minus; lia|]. match type of H with ?m _ = _ => assert (Hm : frames m) by frame; exact (Hm _ _ _ H) end.
    + assert (s4 = s3) as ->. { unfold fdalloc, me in H4. minv H4 x s5 H5. injection H5 as <- <-. destruct (free_fd _ _); [minv H4 u s6 H6; done|]. by injection H4. }
      minv H u s5 H5. injection H5 as <- <-. minv H u6 s6 H6. minv H u7 s7 H7. injection H as <- <-.
      eapply files_ext; [|eapply fileclose_files; [eapply fileclose_files; [by apply (clear_fd_files _ _ _ rf Hf3 Ho0)|exact H6]|exact H7]]. intros g. unfold plus, minus. lia.
  - injection H4 as <- <-. minv H u s5 H5. injection H5 as <- <-. minv H u6 s6 H6. minv H u7 s7 H7. injection H as <- <-.
    eapply files_ext; [|eapply fileclose_files; [eapply fileclose_files; [exact Hf3|exact H6]|exact H7]]. intros g. unfold plus, minus. lia.
Qed.

Section Calls.
Context (devsw : Z -> option ((nat -> Z -> M fsys (Z * list Z)) * (nat -> list Z -> M fsys Z))) (name0 elf0 ph0 : list Z) (data : Z).

Lemma filestat_keeps f : keeps (filestat f).
Proof. unfold filestat. keep. Qed.
Lemma fileread_keeps f n : keeps (fileread devsw f n).
Proof. unfold fileread. keep. Qed.
Lemma filewrite_chunk_keeps f l n : keeps (filewrite_chunk devsw f l n).
Proof. unfold filewrite_chunk. keep. Qed.
Lemma filewrite_loop_keeps fuel : forall f l i n, keeps (filewrite_loop devsw fuel f l i n).
Proof. pose proof filewrite_chunk_keeps. induction fuel as [|fuel IH]; intros f l i n; cbn [filewrite_loop]; cbv zeta; keep. Qed.
Lemma filewrite_keeps f l n : keeps (filewrite devsw f l n).
Proof. pose proof filewrite_loop_keeps. unfold filewrite. keep. Qed.
#[local] Hint Resolve filestat_keeps fileread_keeps filewrite_keeps : frames.
Lemma sys_fstat_keeps : keeps sys_fstat.
Proof. unfold sys_fstat, or_fail, ustore_stat. keep. Qed.
Lemma sys_read_keeps : keeps (sys_read devsw).
Proof. unfold sys_read, or_fail. keep. Qed.
Lemma sys_write_keeps : keeps (sys_write devsw).
Proof. unfold sys_write, or_fail. keep. Qed.
Lemma open_file_keeps ip omode : keeps (open_file ip omode).
Proof.
  intros ext s a s' He Hf H. unfold open_file in H. minv H o s1 H1. destruct (filealloc_files _ _ _ _ Hf H1) as (_ & _ & Hf1). destruct o as [f|].
  2:{ eapply files_apart; [|exact Hf1]. match type of H with ?m _ = _ => assert (Hm : frames m) by frame; exact (Hm _ _ _ H) end. }
  destruct Hf1 as [Hf1 Hl]. minv H o s2 H2. destruct (fdalloc_files _ _ _ _ _ Hf1 Hl H2) as [Et Hf2]. destruct o as [fd|].
  - destruct Hf2 as (Hf2 & Hn & Ho). minv H u s3 H3. apply frames_fs in H3. pose proof (files_apart _ _ _ H3 Hf2) as Hf3. minv H u4 s4 H4. injection H as <- <-.
    eapply files_ext; [|eapply upd_file_files; [exact Hf3|exact H4|done|right]]; [intros g; unfold plus, minus; lia|]. destruct H3 as (_ & _ & ->).
    pose proof (uses_pos _ _ _ Ho). pose proof (He f). unfold plus, minus. lia.
  - minv H u s3 H3. eapply files_apart; [|eapply files_ext; [|eapply fileclose_files; [exact Hf2|exact H3]]]; [|intros g; unfold plus, minus; lia].
    match type of H with ?m _ = _ => assert (Hm : frames m) by frame; exact (Hm _ _ _ H) end.
Qed.
#[local] Hint Resolve open_file_keeps : frames.
Lemma sys_open_keeps : keeps (sys_open devsw name0).
Proof. pose proof (frames_create devsw name0). pose proof (frames_k_namei devsw). unfold sys_open, open_path, or_fail. keep. Qed.
End Calls.

(** ** The results *)

(** The calls of sysproc.c that act on the process table. *)
Definition process_calls : list Z := [1; 2; 3; 6; 13; 14].

(** C9: Open files stay well formed: every system call on files, exec and sbrk
    keep the table of open files in agreement with the descriptors.  Each
    descriptor of the process refers to an entry of the table, the reference
    count of an entry is the number of descriptors that refer to it, here and
    in other processes ([ext]), and an entry without references has type
    FD_NONE. *)
Theorem syscall_keeps_files devsw name0 elf0 ph0 data proc_calls ext s s' : (forall f, 0 <= ext f) -> files ext s ->
  i32 (tf_eax (p_tf (k_proc s))) ∉ process_calls -> syscall devsw name0 elf0 ph0 data proc_calls s = Ok tt s' -> files ext s'.
Proof.
  intros He Hf Hn H. unfold syscall, me in H. minv H x s1 H1. injection H1 as <- <-. set (num := i32 _) in *.
  assert (Hk : forall h, syscalls devsw name0 elf0 ph0 data proc_calls num = Some h -> keeps h).
  { intros h. unfold syscalls. assert (Hcase : num = 1 \/ num = 2 \/ num = 3 \/ num = 6 \/ num = 13 \/ num = 14 -> False) by (unfold process_calls in Hn; set_solver).
    repeat (match goal with |- (if num =? ?k then _ else _) = _ -> _ => destruct (Z.eqb_spec num k); [intros [= <-]|] end); try solve [auto using sys_pipe_keeps, sys_read_keeps, sys_fstat_keeps, sys_dup_keeps, sys_open_keeps, sys_write_keeps, sys_close_keeps, keeps_frames, frames_sys_exec, frames_sys_chdir, frames_sys_getpid, frames_sys_sbrk, frames_sys_mknod, frames_sys_unlink, frames_sys_link, frames_sys_mkdir].
    destruct (Z.leb_spec 1 num), (Z.leb_spec num 14); cbn [andb]; try done. lia. }
  destruct (syscalls devsw name0 elf0 ph0 data proc_calls num) as [h|].
  - minv H r s2 H2. pose proof (Hk h eq_refl ext s r s2 He Hf H2) as Hf2. eapply files_apart; [|exact Hf2]. apply (frames_upd_me (set_eax r) ltac:(done) _ _ _ H).
  - eapply files_apart; [|exact Hf]. apply (frames_upd_me (set_eax (-1)) ltac:(done) _ _ _ H).
Qed.

Lemma argfd_run s U n (sz := p_sz (k_proc s)) (a := tf_esp (p_tf (k_proc s)) ⊕ (4 + 4 * n)) (fd := int_at U a) : user s U ->
  argfd n s = Ok (if decide (a + 4 <= sz /\ 0 <= fd < Z.of_nat NOFILE) then match p_ofile (k_proc s) !! Z.to_nat fd with Some (Some f) => Some (fd, f) | _ => None end else None) s.
Proof.
  intros Hu. unfold argfd, fdfile. assert (Ei : argint n s = Ok (if decide (a + 4 <= sz) then Some fd else None) s).
  { unfold argint, me. mrun1. apply fetchint_run; [done|apply u32_range]. }
  mstep Ei. destruct (decide (a + 4 <= sz)) as [Hd|Hd]; [|by rewrite decide_False by tauto]. unfold me. mrun1. 
  destruct (Z.ltb_spec fd 0); [by rewrite decide_False by lia|]. destruct (Z.leb_spec (Z.of_nat NOFILE) fd); [by rewrite decide_False by lia|]. cbn [orb]. rewrite decide_True by lia.
  by destruct (p_ofile (k_proc s) !! Z.to_nat fd) as [[f|]|].
Qed.
Lemma sys_dup_run ext s U (a := tf_esp (p_tf (k_proc s)) ⊕ 4) (fd := int_at U a) (fds := p_ofile (k_proc s)) : (forall f, 0 <= ext f) -> files ext s -> user s U ->
  match (if decide (a + 4 <= p_sz (k_proc s) /\ 0 <= fd < Z.of_nat NOFILE) then fds !! Z.to_nat fd else None), free_fd fds 0 with
  | Some (Some f), Some fd' =>
      exists x, k_ftable s !! f = Some x /\
      sys_dup s = Ok fd' (set_ftable (<[f := set_f_ref (f_ref x + 1) x]> (k_ftable s)) (set_proc (set_ofile (<[Z.to_nat fd' := Some f]> fds) (k_proc s)) s)) /\
      fds !! Z.to_nat fd' = Some None /\ forall k, (k < Z.to_nat fd')%nat -> exists g, fds !! k = Some (Some g)
  | _, _ => sys_dup s = Ok (-1) s
  end.
Proof.
  intros He Hf Hu. pose proof (argfd_run s U 0 Hu) as Ea. change (4 + 4 * 0) with 4 in Ea. fold a fd fds in Ea. unfold sys_dup, or_fail. rewrite (bind_ok _ _ _ _ _ Ea).
  destruct (decide _) as [Hd|Hd]; [|done]. destruct (fds !! Z.to_nat fd) as [[f|]|] eqn:Efd; [|done..].
  unfold fdalloc. unfold me. rewrite bind_assoc_run. mrun1. fold fds. destruct (free_fd fds 0) as [fd'|] eqn:Efr; [|by mrun1].
  destruct (lookup_lt_is_Some_2 (k_ftable s) f) as [x Hx]; [by apply (fi_open _ _ Hf (Z.to_nat fd))|]. exists x. split; [done|].
  assert (Hr : 1 <= f_ref x) by (rewrite (fi_ref _ _ Hf f x Hx); fold fds; pose proof (uses_pos _ _ _ Efd); pose proof (He f); lia).
  apply free_fd_spec in Efr as (j & -> & Hj & Hall); [|done]. rewrite Z.add_0_l, Nat2Z.id in *. split; [|done].
  set (s1 := set_proc (set_ofile (<[j := Some f]> fds) (k_proc s)) s). assert (E1 : upd_me (fun x => set_ofile (<[j := Some f]> (p_ofile x)) x) s = Ok tt s1) by done.
  rewrite bind_assoc_run. mstep E1. rewrite (bind_ok _ _ _ _ _ (mret_ok _ _)).
  assert (Ed : filedup f s1 = Ok f (set_ftable (<[f := set_f_ref (f_ref x + 1) x]> (k_ftable s)) s1)); [|by mstep Ed].
  unfold filedup. pose proof (acquire_ok k_ftlock set_ftlock s1 (fi_lock _ _ Hf)) as E2. unfold ft_acquire. mstep E2.
  assert (E3 : file_at f (set_ftlock true s1) = Ok x (set_ftlock true s1)) by (unfold file_at; mrun1; cbn; by rewrite Hx). mstep E3. rewrite (proj2 (Z.ltb_ge _ _) Hr).
  assert (E4 : upd_file f (fun x => set_f_ref (f_ref x + 1) x) (set_ftlock true s1) = Ok tt (set_ftable (<[f := set_f_ref (f_ref x + 1) x]> (k_ftable s)) (set_ftlock true s1))) by (unfold upd_file; by mstep E3).
  mstep E4. unfold ft_release. erewrite bind_ok by (by apply release_ok). unfold mret, M_ret, s1. f_equal. pose proof (fi_lock _ _ Hf) as Hl. destruct s. cbn in *. by subst.
Qed.
(** Dup gives the open file of its argument a second descriptor, the lowest
    that is free, and counts the reference; it returns -1 and changes nothing
    when the argument is no open descriptor or none is free.  It never panics. *)
Theorem sys_dup_correct ext s U (a := tf_esp (p_tf (k_proc s)) ⊕ 4) (fd := int_at U a) (fds := p_ofile (k_proc s)) : (forall f, 0 <= ext f) -> files ext s -> user s U ->
  match (if decide (a + 4 <= p_sz (k_proc s) /\ 0 <= fd < Z.of_nat NOFILE) then fds !! Z.to_nat fd else None), free_fd fds 0 with
  | Some (Some f), Some fd' =>
      exists x, k_ftable s !! f = Some x /\
      sys_dup s = Ok fd' (set_ftable (<[f := set_f_ref (f_ref x + 1) x]> (k_ftable s)) (set_proc (set_ofile (<[Z.to_nat fd' := Some f]> fds) (k_proc s)) s)) /\
      fds !! Z.to_nat fd' = Some None /\ forall k, (k < Z.to_nat fd')%nat -> exists g, fds !! k = Some (Some g)
  | _, _ => sys_dup s = Ok (-1) s
  end.
Proof. apply sys_dup_run. Qed.

(** ** Witnesses *)

(** Descriptor 0 refers to an open file, and so does another process. *)
Definition two_readers : list file := [mkFile FD_INODE 2 true false 0 0 0; mkFile FD_NONE 0 false false 0 0 0].
Definition some_fds : list (option nat) := Some 0%nat :: replicate 15 None.
Definition idle_fs : fsys := mkFsys false [] (mkLdisk 0 0 (fun _ => []) ∅ [] false).
Lemma two_readers_files k d tf : files (one 0) (mkKern idle_fs k false two_readers ∅ (set_tf tf (small_proc d 0 some_fds 0))).
Proof.
  split; [done|done| | |]; cbn.
  - intros [|fd] f Hf; [injection Hf as <-; lia|]. do 16 (destruct fd as [|fd]; [done|]). done.
  - intros [|[|f]] x Hx; [by injection Hx as <-..|done].
  - intros [|[|f]] x Hx; [by injection Hx as <-..|done].
Qed.
Lemma demo_call : exists k d U, int_at U 4 = 0 /\ user (mkKern idle_fs k false two_readers ∅ (set_tf (mkTf 10 0 0 []) (small_proc d 0 some_fds 0))) U.
Proof.
  destruct (booted_user (le_bytes 4 0 ++ le_bytes 4 0)) as (k & d & U & Hl & Hu); [cbn; lia|]. exists k, d, U. split.
  - apply lies_app in Hl as [_ Hl]. by apply (int_at_word U (0 + Z.of_nat (length (le_bytes 4 0))) 0) in Hl.
  - destruct (Hu idle_fs false two_readers ∅ 0 some_fds 0%nat) as (L & own & T & P & [M1 M2 M3 M4 M5] & HU). exists L, own, T, P. split; [by split|done].
Qed.
Lemma sys_dup_correct_witness : exists s s', sys_dup s = Ok 1 s' /\ k_ftable s' !! 0%nat = Some (mkFile FD_INODE 3 true false 0 0 0).
Proof.
  destruct demo_call as (k & d & U & E4 & Hu). pose proof (sys_dup_correct (one 0) _ U (one_nonneg 0) (two_readers_files k d (mkTf 10 0 0 [])) Hu) as H. cbv zeta in H.
  cbn [k_proc set_tf p_tf tf_esp p_sz p_ofile small_proc] in H. change (0 ⊕ 4) with 4 in H. rewrite E4, decide_True in H by (unfold PGSIZE, NOFILE; lia). cbn [some_fds Z.to_nat lookup list_lookup] in H.
  destruct H as (x & Hx & H & _). eexists _, _. split; [exact H|]. injection Hx as <-. reflexivity.
Defined.
Lemma syscall_keeps_files_witness : exists s s', syscall (fun _ => None) [] [] [] 0 (fun _ => None) s = Ok tt s' /\ files (one 0) s'.
Proof.
  destruct demo_call as (k & d & U & E4 & Hu). pose proof (two_readers_files k d (mkTf 10 0 0 [])) as Hf. pose proof (sys_dup_run (one 0) _ U (one_nonneg 0) Hf Hu) as H. cbv zeta in H.
  cbn [k_proc set_tf p_tf tf_esp p_sz p_ofile small_proc] in H. change (0 ⊕ 4) with 4 in H. rewrite E4, decide_True in H by (unfold PGSIZE, NOFILE; lia). cbn [some_fds Z.to_nat lookup list_lookup] in H.
  destruct H as (x & _ & H & _). match type of H with sys_dup ?s0 = Ok _ ?s1 => exists s0, (set_proc (set_eax 1 (k_proc s1)) s1); assert (E : syscall (fun _ => None) [] [] [] 0 (fun _ => None) s0 = Ok tt (set_proc (set_eax 1 (k_proc s1)) s1)) end.
  { unfold syscall, me. mrun1. cbn [k_proc set_tf p_tf tf_eax small_proc]. change (i32 10) with 10. cbn [syscalls Z.eqb Pos.eqb]. by mstep H. }
  split; [exact E|]. apply (syscall_keeps_files (fun _ => None) [] [] [] 0 (fun _ => None) (one 0) _ _ (one_nonneg 0) Hf); [|exact E]. cbn. change (i32 10) with 10. unfold process_calls. set_solver.
Defined.
