(* ===== verification/Execrun.v ===== *)
(** * exec

    exec of src/exec.c from the path of a program to the registers and the
    memory of the process that runs it. *)

From stdpp Require Import functions.
From S2P Require Import Prelude Str Spinlock Bytes Interfaces Proc Pipe Kalloc Vm Aspace Uvm Log Disk Fs Fsblk Fsfile Fswrite Fsdir Fspath Kern Umem Execmem File Sysfile Exec.

Lemma memory_run {A} (m : M kmem A) s a k : m (k_mem s) = Ok a k -> memory m s = Ok a (set_mem k s).
Proof. intros E. unfold memory, zoom. by rewrite E. Qed.
Lemma set_mem_same s : set_mem (k_mem s) s = s.
Proof. by destruct s. Qed.
Lemma pages_mono a b : a <= b -> pages a <= pages b.
Proof. intros. unfold pages, PGSIZE. apply Z.div_le_mono; lia. Qed.
Lemma splice_all x y : length x = length y -> splice x 0 y = y.
Proof. intros E. unfold splice. rewrite take_0, drop_ge by lia. by rewrite app_nil_r. Qed.

(** ** Program headers *)

Section Headers.
Context (img : list Z).

(** What the headers load: the size and the memory of the program. *)
Fixpoint loaded (sz : Z) (U : mem) (phs : list (list Z)) : Z * mem :=
  match phs with
  | [] => (sz, U)
  | h :: phs =>
      if ph_type h =? ELF_PROG_LOAD then loaded (ph_vaddr h + ph_memsz h) (put_bytes U (ph_vaddr h) (slice img (Z.to_nat (ph_off h)) (Z.to_nat (ph_filesz h)))) phs
      else loaded sz U phs
  end.
(** Segments in ascending order, on page boundaries, below [top] and within the file. *)
Fixpoint loadable (sz top : Z) (phs : list (list Z)) : Prop :=
  match phs with
  | [] => sz <= top
  | h :: phs =>
      if ph_type h =? ELF_PROG_LOAD then
        (exists v, ph_vaddr h = PGSIZE * v) /\ 0 <= ph_vaddr h /\ 0 <= ph_off h /\ 0 <= ph_filesz h <= ph_memsz h /\ ph_off h + ph_filesz h <= Z.of_nat (length img) /\
        0 < ph_vaddr h + ph_memsz h /\ sz <= ph_vaddr h + ph_memsz h /\ loadable (ph_vaddr h + ph_memsz h) top phs
      else loadable sz top phs
  end.
Lemma loadable_le phs : forall sz top, loadable sz top phs -> sz <= top.
Proof. induction phs as [|h phs IH]; intros sz top; cbn; [done|]. destruct (_ =? _); [|apply IH]. intros (_ & _ & _ & _ & _ & _ & H1 & H2). apply IH in H2. lia. Qed.
Lemma loaded_le phs : forall sz top U, loadable sz top phs -> sz <= (loaded sz U phs).1 <= top.
Proof. induction phs as [|h phs IH]; intros sz top U; cbn; [lia|]. destruct (_ =? _); [|apply IH]. intros (_ & _ & _ & _ & _ & _ & H1 & H2). apply (IH _ _ (put_bytes U (ph_vaddr h) (slice img (Z.to_nat (ph_off h)) (Z.to_nat (ph_filesz h))))) in H2. lia. Qed.
End Headers.

(** ** Loading *)

Section Load.
Context (devsw : Z -> option ((nat -> Z -> M fsys (Z * list Z)) * (nat -> list Z -> M fsys Z))).
Context (k0 : kmem) (L0 : list Z) (own0 : gmap Z role) (d : Z).
Context (Hnew : forall p r, own0 !! p = Some r -> dir_of r <> d) (Hw0 : world k0 L0 own0).
(** The program [img] is in the file of [ip], which is locked in [F]. *)
Context (F : fsys) (ip : nat) (img : list Z).
Context (Hlen : Z.of_nat (length img) < 2 ^ 31).
Context (Hread : forall s off n, k_fs s = F -> 0 <= off -> 0 <= n -> off + n <= Z.of_nat (length img) -> k_readi devsw ip off n s = Ok (n, slice img (Z.to_nat off) (Z.to_nat n)) s).

Lemma loaduvm_loop_run g n v off sz fuel : 0 <= v -> 0 <= off -> 0 <= sz -> off + sz <= Z.of_nat (length img) -> PGSIZE * v + sz <= PGSIZE * n ->
  forall U L own T P s i, image k0 L0 own0 d g n U (k_mem s) L own T P -> k_fs s = F -> 0 <= i -> (Z.to_nat (sz - PGSIZE * i) < fuel)%nat ->
  exists k, loaduvm_loop k_mem set_mem (k_readi devsw ip) fuel d (PGSIZE * v) off sz (PGSIZE * i) s = Ok 0 (set_mem k s) /\
    image k0 L0 own0 d g n (put_bytes U (PGSIZE * (v + i)) (slice img (Z.to_nat (off + PGSIZE * i)) (Z.to_nat (sz - PGSIZE * i)))) k L own T P.
Proof.
  intros Hv Hoff Hsz Himg Hfit. induction fuel as [|fuel IH]; intros U L own T P s i Hi HF Hi0 Hfu; [lia|]. cbn [loaduvm_loop].
  destruct (Z.ltb_spec (PGSIZE * i) sz) as [Hlt|Hge].
  2:{ exists (k_mem s). rewrite set_mem_same. replace (Z.to_nat (sz - PGSIZE * i)) with 0%nat by lia. unfold slice. by rewrite take_0. }
  pose proof (ig_range _ _ _ _ _ _ _ _ _ _ _ _ Hi) as Hn. assert (Hvi : 0 <= v + i < n) by (unfold PGSIZE in *; lia).
  rewrite (u32_id (PGSIZE * v + PGSIZE * i)) by (unfold UVPN, PGSIZE in *; lia). replace (PGSIZE * v + PGSIZE * i) with (PGSIZE * (v + i)) by lia.
  destruct (ig_mapped _ _ _ _ _ _ _ _ _ _ _ _ Hi (v + i) Hvi) as (e & He & _). pose proof (ig_space _ _ _ _ _ _ _ _ _ _ _ _ Hi) as Ha. destruct (as_map _ _ _ _ _ Ha _ _ He) as (Hvr & [t HT] & _ & _).
  pose proof (walk_find _ _ _ _ _ _ (PGSIZE * (v + i)) false (ig_world _ _ _ _ _ _ _ _ _ _ _ _ Hi) Ha ltac:(unfold PGSIZE; lia)) as Hf. rewrite page_mul_div, HT in Hf. destruct Hf as [Hf Hne].
  pose proof (memory_run _ s _ _ Hf) as E1. rewrite set_mem_same in E1. unfold memory in E1. mstep E1. rewrite (proj2 (Z.eqb_neq _ _) Hne).
  assert (E2 : zoom k_mem set_mem (lw (t + 4 * ((v + i) mod 1024))) s = Ok e s) by (unfold zoom, lw; rewrite gets_ok, (pte_value _ _ _ _ _ _ _ Ha Hvr HT), He; by rewrite set_mem_same). mstep E2.
  set (c := if sz ⊖ PGSIZE * i <? PGSIZE then sz ⊖ PGSIZE * i else PGSIZE). assert (Hc : c = Z.min (sz - PGSIZE * i) PGSIZE).
  { unfold c. rewrite u32_id by (unfold PGSIZE in *; lia). destruct (Z.ltb_spec (sz - PGSIZE * i) PGSIZE); lia. }
  assert (Hcp : 0 < c <= PGSIZE /\ c <= sz - PGSIZE * i) by (unfold PGSIZE in *; lia).
  rewrite (u32_id (off + PGSIZE * i)) by (unfold PGSIZE in *; lia). rewrite (bind_ok _ _ _ _ _ (Hread s (off + PGSIZE * i) c HF ltac:(unfold PGSIZE in *; lia) ltac:(lia) ltac:(lia))). cbn [fst snd].
  set (q := slice img (Z.to_nat (off + PGSIZE * i)) (Z.to_nat c)). assert (Hq : Z.of_nat (length q) = c) by (unfold q; rewrite slice_length; unfold PGSIZE in *; lia).
  pose proof (image_store _ _ _ _ Hnew g n U (k_mem s) L own T P (v + i) e 0 q Hi He Hvi ltac:(lia) ltac:(lia)) as Hi1. rewrite !Z.add_0_r in Hi1.
  set (k1 := set_kdata (put_bytes (kdata (k_mem s)) (frame e) q) (k_mem s)) in *.
  assert (E3 : zoom k_mem set_mem (store_bytes (p2v (PTE_ADDR e)) q) s = Ok tt (set_mem k1 s)) by done. mstep E3. rewrite Z.eqb_refl. cbn [negb].
  rewrite (u32_id (PGSIZE * i + PGSIZE)) by (unfold PGSIZE in *; lia). replace (PGSIZE * i + PGSIZE) with (PGSIZE * (i + 1)) by lia.
  destruct (IH _ L own T P (set_mem k1 s) (i + 1) Hi1) as (k2 & E & Hi2); [done|lia|unfold PGSIZE in *; lia|]. exists k2. split; [exact E|].
  replace (Z.to_nat (sz - PGSIZE * i)) with (Z.to_nat c + Z.to_nat (sz - PGSIZE * (i + 1)))%nat by (unfold PGSIZE in *; lia).
  rewrite slice_app, put_bytes_app. fold q. rewrite Hq. destruct (decide (c = PGSIZE)) as [Ec|Ec].
  - replace (Z.to_nat (off + PGSIZE * i) + Z.to_nat c)%nat with (Z.to_nat (off + PGSIZE * (i + 1))) by (unfold PGSIZE in *; lia).
    replace (PGSIZE * (v + i) + c) with (PGSIZE * (v + (i + 1))) by lia. exact Hi2.
  - replace (Z.to_nat (sz - PGSIZE * (i + 1))) with 0%nat in * by (unfold PGSIZE in *; lia). unfold slice in Hi2 |- *. rewrite take_0 in *. exact Hi2.
Qed.

Lemma exec_load_run top : top < KERNBASE -> forall phs off sz U L own T P s phl,
  (forall j h, phs !! j = Some h -> length h = 32%nat /\ slice img (Z.to_nat off + 32 * j) 32 = h) -> 0 <= off -> off + 32 * Z.of_nat (length phs) <= Z.of_nat (length img) ->
  length phl = 32%nat -> 0 <= sz -> loadable img sz top phs -> image k0 L0 own0 d (-1) (pages sz) U (k_mem s) L own T P -> k_fs s = F -> pages top - pages sz + 1025 <= Z.of_nat (length L + size T) ->
  exists k L' own' T' P', exec_load devsw (length phs) ip d off sz phl s = Ok (Some (loaded img sz U phs).1) (set_mem k s) /\
    image k0 L0 own0 d (-1) (pages (loaded img sz U phs).1) (loaded img sz U phs).2 k L' own' T' P' /\
    Z.of_nat (length L + size T) = Z.of_nat (length L' + size T') + (pages (loaded img sz U phs).1 - pages sz).
Proof.
  intros Htop. induction phs as [|h phs IH]; intros off sz U L own T P s phl Hh Hoff Hend Hphl Hsz Hld Hi HF Hroom; cbn [length exec_load loaded].
  { exists (k_mem s), L, own, T, P. rewrite set_mem_same. split_and!; [done|done|cbn; lia]. }
  destruct (Hh 0%nat h eq_refl) as [Hlh Hsl]. rewrite Nat.mul_0_r, Nat.add_0_r in Hsl. cbn [length] in Hend. rewrite (u32_id off) by lia.
  rewrite (bind_ok _ _ _ _ _ (Hread s off sizeof_ph HF Hoff ltac:(done) ltac:(unfold sizeof_ph; lia))). cbn [fst snd]. change (Z.to_nat sizeof_ph) with 32%nat. rewrite Hsl, (splice_all phl h) by lia. rewrite Z.eqb_refl. cbn [negb].
  rewrite (i32_id (off + sizeof_ph)) by (unfold sizeof_ph; lia).
  assert (Hh' : forall j h', phs !! j = Some h' -> length h' = 32%nat /\ slice img (Z.to_nat (off + sizeof_ph) + 32 * j) 32 = h').
  { intros j h' Hj. destruct (Hh (S j) h' Hj) as [H1 H2]. split; [done|]. rewrite <- H2. f_equal. unfold sizeof_ph. lia. }
  cbn [loadable] in Hld. destruct (ph_type h =? ELF_PROG_LOAD); cbn [negb]; [|apply (IH (off + sizeof_ph) sz U L own T P s h Hh'); try done; unfold sizeof_ph; lia].
  destruct Hld as ((v & Ev) & Hv & Ho & Hf & Hfile & Hpos & Hle & Hld). set (sz' := ph_vaddr h + ph_memsz h) in *. pose proof (loadable_le _ _ _ _ Hld) as Hst.
  rewrite (proj2 (Z.ltb_ge _ _)) by lia. rewrite (u32_id sz') by (unfold KERNBASE in *; lia). pose proof (pages_mono _ _ Hle). pose proof (pages_mono _ _ Hst).
  destruct (image_alloc _ _ _ _ Hw0 (-1) (pages sz) U (k_mem s) L own T P sz sz' Hi eq_refl) as (k1 & L1 & own1 & T1 & P1 & E1 & Hi1 & Hc1); [lia|lia|lia|].
  rewrite (bind_ok _ _ _ _ _ (memory_run _ s _ _ E1)). rewrite (proj2 (Z.eqb_neq sz' 0)) by lia. set (s1 := set_mem k1 s) in *.
  assert (Hfit : PGSIZE * v + ph_filesz h <= PGSIZE * pages sz').
  { assert (sz' <= PGSIZE * pages sz') by (unfold pages, PGSIZE; Z.to_euclidean_division_equations; lia). lia. }
  destruct (loaduvm_loop_run (-1) (pages sz') v (ph_off h) (ph_filesz h) (S (Z.to_nat (ph_filesz h)))) with (s := s1) (i := 0) (U := U) (L := L1) (own := own1) (T := T1) (P := P1) as (k2 & E2 & Hi2); [unfold PGSIZE in *; lia|done|lia|done|done|done|done|lia|lia|].
  rewrite Z.mul_0_r, Z.add_0_r, Z.add_0_r, Z.sub_0_r in Hi2. rewrite Z.mul_0_r in E2.
  assert (E3 : loaduvm k_mem set_mem (k_readi devsw ip) d (ph_vaddr h) (ph_off h) (ph_filesz h) s1 = Ok 0 (set_mem k2 s1)).
  { unfold loaduvm. replace (ph_vaddr h mod PGSIZE) with 0 by (rewrite Ev, Z.mul_comm, Z.mod_mul; [done|unfold PGSIZE; lia]). rewrite Ev. exact E2. }
  mstep E3. change (0 <? 0) with false. cbn iota. rewrite <- Ev in Hi2.
  destruct (IH (off + sizeof_ph) sz' (put_bytes U (ph_vaddr h) (slice img (Z.to_nat (ph_off h)) (Z.to_nat (ph_filesz h)))) L1 own1 T1 P1 (set_mem k2 s1) h Hh') as (k3 & L3 & own3 & T3 & P3 & E4 & Hi3 & Hc3);
    try done; [unfold sizeof_ph; lia|unfold sizeof_ph; lia|lia|lia|]. exists k3, L3, own3, T3, P3. split; [exact E4|]. split; [exact Hi3|]. lia.
Qed.
End Load.

(** ** The stack *)

Lemma word_mask x : 0 <= x < 2 ^ 32 -> Z.land x (u32 (Z.lnot 3)) = 4 * (x / 4).
Proof.
  intros Hx. change (u32 (Z.lnot 3)) with (Z.ldiff (Z.ones 32) (Z.ones 2)).
  assert (E : Z.land x (Z.ldiff (Z.ones 32) (Z.ones 2)) = Z.ldiff (Z.land x (Z.ones 32)) (Z.ones 2)).
  { apply Z.bits_inj'. intros n _. by rewrite !Z.land_spec, !Z.ldiff_spec, Z.land_spec, andb_assoc. }
  rewrite E, Z.land_ones, Z.mod_small by lia. rewrite Z.ldiff_ones_r by lia. rewrite Z.shiftl_mul_pow2, Z.shiftr_div_pow2 by lia. change (2 ^ 2) with 4. lia.
Qed.
(** Where a string goes, below [sp]. *)
Definition slot (sp : Z) (a : list Z) : Z := 4 * ((sp - (Z.of_nat (length a) + 1)) / 4).
(** The stack pointer, the pointers and the memory when [argv] is pushed. *)
Fixpoint pushed (sp : Z) (U : mem) (argv : list (list Z)) : Z * list Z * mem :=
  match argv with
  | [] => (sp, [], U)
  | a :: argv => let '(sp', ptrs, U') := pushed (slot sp a) (put_bytes U (slot sp a) (a ++ [0])) argv in (sp', slot sp a :: ptrs, U')
  end.
Lemma slot_le sp a : slot sp a + Z.of_nat (length a) + 1 <= sp.
Proof. unfold slot. Z.to_euclidean_division_equations. lia. Qed.

Lemma pushed_spec argv : forall sp U, let '(sp', ptrs, U') := pushed sp U argv in
  sp' <= sp /\ length ptrs = length argv /\ (sp mod 4 = 0 -> sp' mod 4 = 0) /\ (forall x, x < sp' \/ sp <= x -> U' x = U x) /\
  forall i p a, ptrs !! i = Some p -> argv !! i = Some a -> sp' <= p /\ p + Z.of_nat (length a) < sp /\ lies_at U' p (a ++ [0]).
Proof.
  induction argv as [|a argv IH]; intros sp U; cbn [pushed]; [by split_and!|]. specialize (IH (slot sp a) (put_bytes U (slot sp a) (a ++ [0]))). pose proof (slot_le sp a) as Hsl.
  destruct (pushed (slot sp a) (put_bytes U (slot sp a) (a ++ [0])) argv) as [[sp' ptrs] U']. destruct IH as (H1 & H2 & H3 & H4 & H5). split_and!; [lia|cbn; lia| | |].
  - intros _. apply H3. unfold slot. rewrite Z.mul_comm. by apply Z.mod_mul.
  - intros x Hx. rewrite H4 by lia. apply put_bytes_out. rewrite length_app. cbn [length]. lia.
  - intros [|i] p b Hp Hb; simplify_eq/=.
    + split; [lia|]. split; [lia|]. eapply lies_ext; [|apply put_bytes_lies]. intros x Hx. apply H4. lia.
    + destruct (H5 i p b Hp Hb) as (? & ? & ?). split; [done|]. split; [lia|done].
Qed.

Section Stack.
Context (k0 : kmem) (L0 : list Z) (own0 : gmap Z role) (d : Z).
Context (Hnew : forall p r, own0 !! p = Some r -> dir_of r <> d) (Hw0 : world k0 L0 own0).

(** The stack is the last page, below it is the guard page. *)
Lemma exec_args_run n L own T P argv : 2 <= n -> forall sp argc ptrs U s, image k0 L0 own0 d (n - 2) n U (k_mem s) L own T P -> 0 <= sp <= PGSIZE * n -> argc + Z.of_nat (length argv) <= MAXARG ->
  PGSIZE * (n - 1) <= (pushed sp U argv).1.1 -> exists k, exec_args d sp argc argv ptrs s = Ok (Some ((pushed sp U argv).1.1, ptrs ++ (pushed sp U argv).1.2)) (set_mem k s) /\
    image k0 L0 own0 d (n - 2) n (pushed sp U argv).2 k L own T P.
Proof.
  intros Hn2. induction argv as [|a argv IH]; intros sp argc ptrs U s Hi Hsp Hc Hfit; cbn [exec_args].
  { exists (k_mem s). rewrite set_mem_same. cbn. by rewrite app_nil_r. }
  pose proof (ig_range _ _ _ _ _ _ _ _ _ _ _ _ Hi) as Hn. cbn [length] in Hc. rewrite (proj2 (Z.leb_gt _ _)) by lia. cbn [pushed] in *. pose proof (slot_le sp a) as Hsl.
  pose proof (pushed_spec argv (slot sp a) (put_bytes U (slot sp a) (a ++ [0]))) as Hps. specialize (IH (slot sp a) (argc + 1) (ptrs ++ [slot sp a]) (put_bytes U (slot sp a) (a ++ [0]))).
  destruct (pushed (slot sp a) (put_bytes U (slot sp a) (a ++ [0])) argv) as [[sp' ps] U']. cbn [fst snd] in *. destruct Hps as (Hle & _).
  assert (Hlow : PGSIZE * (n - 1) <= slot sp a) by lia. assert (Hnz : 0 <= slot sp a) by (unfold PGSIZE in *; lia).
  assert (Ha : Z.land (sp ⊖ (Z.of_nat (length a) + 1)) (u32 (Z.lnot 3)) = slot sp a).
  { unfold UVPN, PGSIZE in *. rewrite u32_id by (unfold slot in *; Z.to_euclidean_division_equations; lia). apply word_mask. unfold slot in *. Z.to_euclidean_division_equations. lia. }
  rewrite Ha. destruct (image_copyout _ _ _ _ Hnew (n - 2) n U (k_mem s) L own T P (slot sp a) (a ++ [0]) Hi) as (k1 & E1 & Hi1); [done|rewrite length_app; cbn [length]; lia| |].
  { intros x Hx. unfold PGSIZE in *. Z.to_euclidean_division_equations. lia. }
  rewrite (bind_ok _ _ _ _ _ (memory_run _ s _ _ E1)). change (0 <? 0) with false. cbn iota.
  destruct (IH (set_mem k1 s) Hi1) as (k2 & E2 & Hi2); [lia|lia|done|]. exists k2. split; [|done]. rewrite <- app_assoc in E2. exact E2.
Qed.

(** What exec_stack leaves on the stack: the words from [ustack] and the strings. *)
Definition ustack (sp : Z) (ptrs : list Z) : list Z := [0xffffffff; Z.of_nat (length ptrs); sp - (Z.of_nat (length ptrs) + 1) * 4] ++ ptrs ++ [0].
Definition esp_of (sz : Z) (argv : list (list Z)) : Z := (pushed sz (fun _ => 0) argv).1.1 - (3 + Z.of_nat (length argv) + 1) * 4.
Definition stack_mem (sz : Z) (U : mem) (argv : list (list Z)) : mem :=
  let '(sp, ptrs, U') := pushed sz U argv in put_bytes U' (esp_of sz argv) (concat (map (le_bytes 4) (ustack sp ptrs))).

Lemma pushed_sp argv : forall sp U U', (pushed sp U argv).1 = (pushed sp U' argv).1.
Proof.
  induction argv as [|a argv IH]; intros sp U U'; cbn [pushed]; [done|]. specialize (IH (slot sp a) (put_bytes U (slot sp a) (a ++ [0])) (put_bytes U' (slot sp a) (a ++ [0]))).
  destruct (pushed _ (put_bytes U _ _) argv) as [[? ?] ?], (pushed _ (put_bytes U' _ _) argv) as [[? ?] ?]. cbn in *. by simplify_eq.
Qed.
Lemma words_length l : length (concat (map (le_bytes 4) l)) = (4 * length l)%nat.
Proof. induction l as [|w l IH]; [done|]. cbn [map concat length]. rewrite length_app, le_bytes_length, IH. lia. Qed.

Lemma exec_stack_run sz U L own T P argv s (n := pages sz + 2) : image k0 L0 own0 d (-1) (pages sz) U (k_mem s) L own T P -> 0 <= sz -> PGSIZE * n < KERNBASE -> 1027 <= Z.of_nat (length L + size T) ->
  Z.of_nat (length argv) <= MAXARG -> PGSIZE * (n - 1) <= esp_of (PGSIZE * n) argv ->
  exists k L' own' T' P', exec_stack d sz argv s = Ok (Some (PGSIZE * n, esp_of (PGSIZE * n) argv)) (set_mem k s) /\ image k0 L0 own0 d (n - 2) n (stack_mem (PGSIZE * n) U argv) k L' own' T' P'.
Proof.
  intros Hi Hsz Hk Hroom Hargc Hesp. assert (Hp : 0 <= pages sz) by (unfold pages, PGSIZE; apply Z.div_pos; lia).
  assert (Hsz' : sz <= PGSIZE * pages sz) by (unfold pages, PGSIZE; Z.to_euclidean_division_equations; lia). assert (Hpg : forall m, pages (PGSIZE * m) = m) by (intros m; unfold pages, PGSIZE; Z.to_euclidean_division_equations; lia).
  unfold exec_stack. rewrite pages_up by (subst n; unfold KERNBASE, PGSIZE in *; lia). replace (PGSIZE * pages sz ⊕ 2 * PGSIZE) with (PGSIZE * n) by (rewrite u32_id; subst n; unfold KERNBASE, PGSIZE in *; lia).
  destruct (image_alloc _ _ _ _ Hw0 (-1) (pages sz) U (k_mem s) L own T P (PGSIZE * pages sz) (PGSIZE * n) Hi) as (k1 & L1 & own1 & T1 & P1 & E1 & Hi1 & Hc1); rewrite ?Hpg; [done|subst n; unfold PGSIZE; lia|done|subst n; lia|]. rewrite Hpg in Hi1.
  rewrite (bind_ok _ _ _ _ _ (memory_run _ s _ _ E1)). rewrite (proj2 (Z.eqb_neq _ 0)) by (subst n; unfold PGSIZE; lia).
  replace (PGSIZE * n ⊖ 2 * PGSIZE) with (PGSIZE * (n - 2)) by (rewrite u32_id; subst n; unfold KERNBASE, PGSIZE in *; lia).
  destruct (image_clear _ _ _ _ Hnew n U k1 L1 own1 T1 P1 (n - 2) Hi1) as (k2 & P2 & E2 & Hi2); [subst n; lia|]. set (s1 := set_mem k1 s) in *. rewrite (bind_ok _ _ _ _ _ (memory_run _ s1 _ _ E2)). set (s2 := set_mem k2 s1).
  pose proof (pushed_spec argv (PGSIZE * n) U) as Hps. unfold stack_mem. assert (Eesp : esp_of (PGSIZE * n) argv = (pushed (PGSIZE * n) U argv).1.1 - (3 + Z.of_nat (length argv) + 1) * 4) by (unfold esp_of; by rewrite (pushed_sp argv (PGSIZE * n) (fun _ => 0) U)).
  destruct (exec_args_run n L1 own1 T1 P2 argv ltac:(subst n; lia) (PGSIZE * n) 0 [] U s2 Hi2) as (k3 & E3 & Hi3); [subst n; unfold PGSIZE in *; lia|lia|lia|].
  mstep E3. destruct (pushed (PGSIZE * n) U argv) as [[sp ptrs] U'] eqn:Ep. cbn [fst snd] in *. destruct Hps as (Hle & Hlen & _). rewrite app_nil_l in *. 
  assert (Hw : sp - (3 + Z.of_nat (length argv) + 1) * 4 = sp ⊖ (3 + Z.of_nat (length argv) + 1) * 4 /\ sp ⊖ (Z.of_nat (length argv) + 1) * 4 = sp - (Z.of_nat (length argv) + 1) * 4).
  { subst n. unfold KERNBASE, PGSIZE in *. rewrite !u32_id by lia. lia. }
  destruct Hw as [Hw1 Hw2]. rewrite Hw2, <- Hw1, <- Eesp.
  assert (Hus : [0xffffffff; Z.of_nat (length argv); sp - (Z.of_nat (length argv) + 1) * 4] ++ ptrs ++ [0] = ustack sp ptrs) by (unfold ustack; by rewrite Hlen). rewrite Hus.
  destruct (image_copyout _ _ _ _ Hnew (n - 2) n U' k3 L1 own1 T1 P2 (esp_of (PGSIZE * n) argv) (concat (map (le_bytes 4) (ustack sp ptrs))) Hi3) as (k4 & E4 & Hi4).
  { subst n. unfold PGSIZE in *. lia. }
  { rewrite words_length. unfold ustack. rewrite !length_app. cbn [length]. subst n. unfold PGSIZE in *. lia. }
  { intros a Ha. subst n. unfold PGSIZE in *. Z.to_euclidean_division_equations. lia. }
  rewrite (bind_ok _ _ _ _ _ (memory_run _ (set_mem k3 s2) _ _ E4)). change (0 <? 0) with false. cbn iota. exists k4, L1, own1, T1, P2. split; [done|exact Hi4].
Qed.
End Stack.

(** ** exec *)

(** Freeing one space leaves the others. *)
Lemma aspace_released c k L own k' L' own' d T P :
  released c k L own k' L' own' -> world k L own -> c <> d -> aspace k own d T P -> uspace own d P ->
  aspace k' own' d T P /\ uspace own' d P /\ forall a, 0 <= a < KERNBASE -> ubyte k' P a = ubyte k P a.
Proof.
  intros Hr Hw Hc [Hd Ht Hi Hpde Hpte Hmap] Hu.
  assert (Hkeep : forall q r, dir_of r = d -> own' !! q = Some r <-> own !! q = Some r) by (intros q r Hq; split; [apply (fr_own _ _ _ _ _ _ _ Hr)|intros Ho; apply (fr_other _ _ _ _ _ _ _ Hr); [done|congruence]]).
  assert (Hmem : forall q r x, own !! q = Some r -> dir_of r = d -> q <= x < q + PGSIZE -> kdata k' x = kdata k x).
  { intros q r x Hq Hdr Hx. destruct (wo_own _ _ _ Hw q r Hq) as [(Hqa & _) _]. apply (fr_mem _ _ _ _ _ _ _ Hr q x Hqa); [|done]. intros (r' & Hr' & Hs). unfold of_space in Hs. congruence. }
  split; [|split].
  - split; try done.
    + by apply Hkeep.
    + intros i t. rewrite Ht. symmetry. by apply Hkeep.
    + intros i Hir. rewrite <- Hpde by done. apply load32_ext. intros x Hx. apply (Hmem d (RDir d)); [done|done|unfold PGSIZE; lia].
    + intros i t j HT Hj. rewrite <- (Hpte i t j HT Hj). apply load32_ext. intros x Hx. apply (Hmem t (RTab d i)); [by apply Ht|done|unfold PGSIZE; lia].
  - intros v p. rewrite (Hu v p). symmetry. by apply Hkeep.
  - intros a Ha. unfold ubyte. destruct (P !! (a / PGSIZE)) as [e|] eqn:Ee; [|done]. assert (Hv : 0 <= a / PGSIZE < UVPN /\ 0 <= a mod PGSIZE < PGSIZE) by (unfold KERNBASE, UVPN, PGSIZE in *; Z.to_euclidean_division_equations; lia).
    apply (Hmem (frame e) (RUser d (a / PGSIZE))); [|done|lia]. apply Hu. split; [lia|]. by exists e.
Qed.

(** [img] is a program for the headers [phs], which end below [top]. *)
Record program (img : list Z) (phs : list (list Z)) (top : Z) : Prop := {
  pr_len : 52 <= Z.of_nat (length img) < 2 ^ 31;
  pr_magic : elf_magic (take 52 img) = ELF_MAGIC;
  pr_phnum : elf_phnum (take 52 img) = Z.of_nat (length phs);
  pr_phoff : 0 <= elf_phoff (take 52 img) /\ elf_phoff (take 52 img) + 32 * Z.of_nat (length phs) <= Z.of_nat (length img);
  pr_phs : forall j h, phs !! j = Some h -> length h = 32%nat /\ slice img (Z.to_nat (elf_phoff (take 52 img)) + 32 * j) 32 = h;
  pr_load : loadable img 0 top phs;
}.

Section Exec.
Context (fsz bm : Z) (devsw : Z -> option ((nat -> Z -> M fsys (Z * list Z)) * (nat -> list Z -> M fsys Z))).

(** The file is read while its inode is locked. *)
Lemma program_read F ip n r A img : coherent fsz bm (Some ip) F -> icache F !! ip = Some (copy (dsk F) n r 3) -> isfile bm (dsk F) n A img ->
  Z.of_nat (length img) = i_size (copy (dsk F) n 1 3) /\
  forall s off m, k_fs s = F -> 0 <= off -> 0 <= m -> off + m <= Z.of_nat (length img) -> k_readi devsw ip off m s = Ok (m, slice img (Z.to_nat off) (Z.to_nat m)) s.
Proof.
  intros Hc Hip [Hl Him Hsz Hty Hb].
  assert (Hlen : Z.of_nat (length img) = i_size (copy (dsk F) n 1 3)).
  { rewrite <- Hb. unfold contents. rewrite length_take, (fbytes_length fsz bm (dsk F) (copy (dsk F) n 1 3) A (co_vol _ _ _ _ Hc) (Him 1 3)). lia. }
  split; [done|]. intros s off m HF Ho Hm Hend.
  pose proof (im_len _ _ _ _ (Him 1 3)) as HA. unfold MAXFILE, NDIRECT, NINDIRECT in HA. unfold k_readi, fs, zoom. rewrite HF.
  rewrite (readi_run fsz bm F ip (copy (dsk F) n r 3) A (list_to_set (ld_log (dsk F))) (co_vol _ _ _ _ Hc) (Him r 3) Hip (co_buf _ _ _ _ Hc) (co_rbud _ _ _ _ Hc) devsw off m Hty Hsz) by lia.
  change (i_size (copy (dsk F) n r 3)) with (i_size (copy (dsk F) n 1 3)). rewrite <- Hlen. rewrite (proj2 (Z.ltb_ge _ _)), (proj2 (Z.leb_gt _ _)) by lia. cbn [orb]. cbv zeta.
  rewrite Z.min_l by lia. change (contents (dsk F) (copy (dsk F) n r 3) A) with (contents (dsk F) (copy (dsk F) n 1 3) A). rewrite Hb. destruct s. cbn in *. by subst.
Qed.

Lemma stack_layout sz U argv (U' := stack_mem sz U argv) (esp := esp_of sz argv) : exists ptrs, length ptrs = length argv /\
  lies_at U' esp (concat (map (le_bytes 4) ([0xffffffff; Z.of_nat (length argv); esp + 12] ++ ptrs ++ [0]))) /\
  (forall i p a, ptrs !! i = Some p -> argv !! i = Some a -> lies_at U' p (a ++ [0])) /\ forall x, x < esp -> U' x = U x.
Proof.
  pose proof (pushed_spec argv sz U) as Hps. assert (Eesp : esp = (pushed sz U argv).1.1 - (3 + Z.of_nat (length argv) + 1) * 4) by (unfold esp, esp_of; by rewrite (pushed_sp argv sz (fun _ => 0) U)).
  unfold U', stack_mem. fold esp. destruct (pushed sz U argv) as [[sp ptrs] V]. cbn [fst snd] in Eesp. destruct Hps as (Hle & Hlen & _ & Hout & Hstr). exists ptrs. split; [done|].
  assert (Hus : [0xffffffff; Z.of_nat (length argv); esp + 12] ++ ptrs ++ [0] = ustack sp ptrs) by (replace (esp + 12) with (sp - (Z.of_nat (length argv) + 1) * 4) by lia; unfold ustack; by rewrite Hlen).
  assert (Hwl : Z.of_nat (length (concat (map (le_bytes 4) (ustack sp ptrs)))) = (4 + Z.of_nat (length argv)) * 4) by (rewrite words_length; unfold ustack; rewrite !length_app; cbn [length]; lia).
  split_and!.
  - rewrite Hus. apply put_bytes_lies.
  - intros i p a Hp Ha. destruct (Hstr i p a Hp Ha) as (H1 & H2 & H3). eapply lies_ext; [|exact H3]. intros x Hx. apply put_bytes_out. lia.
  - intros x Hx. rewrite put_bytes_out by lia. apply Hout. lia.
Qed.

(** The new space takes the place of the old one. *)
Lemma exec_commit_run k0 L0 own0 d0 T0 P0 d g n U L own T P path entry sp s :
  world k0 L0 own0 -> aspace k0 own0 d0 T0 P0 -> uspace own0 d0 P0 -> image k0 L0 own0 d g n U (k_mem s) L own T P -> d <> d0 -> p_pgdir (k_proc s) = d0 -> PGSIZE * n < KERNBASE ->
  exists k L' own', exec_commit path d (PGSIZE * n) entry sp s =
      Ok 0 (set_mem k (set_proc (set_tf (mkTf (tf_eax (p_tf (k_proc s))) entry sp (tf_regs (p_tf (k_proc s)))) (set_sz (PGSIZE * n) (set_pgdir d (set_name (take 15 (last_name path path)) (k_proc s))))) s)) /\
    world k L' own' /\ aspace k own' d T P /\ uspace own' d P /\ (forall a, 0 <= a < PGSIZE * n -> ubyte k P a = U a) /\ (forall p r, own' !! p = Some r -> dir_of r <> d0).
Proof.
  intros Hw0 Ha0 Hu0 Hi Hne Hd0 Hn. pose proof (ig_grows _ _ _ _ _ _ _ _ _ _ _ _ Hi) as Hg. pose proof (ig_world _ _ _ _ _ _ _ _ _ _ _ _ Hi) as Hw.
  destruct (freevm_run (k_mem s) L own d0 T0 P0 Hw (aspace_grows _ _ _ _ _ _ _ _ _ _ Hg Hw0 Hne Ha0) (uspace_grows _ _ _ _ _ _ _ _ _ Hg Hne Hu0)) as (k & L' & own' & E & Hw' & Hr & Hno).
  destruct (aspace_released d0 (k_mem s) L own k L' own' d T P Hr Hw ltac:(done) (ig_space _ _ _ _ _ _ _ _ _ _ _ _ Hi) (ig_user _ _ _ _ _ _ _ _ _ _ _ _ Hi)) as (Ha' & Hu' & Hb).
  exists k, L', own'. split.
  - unfold exec_commit, me. mrun1. unfold upd_me. mrun1. rewrite Hd0. erewrite bind_ok by (apply memory_run; exact E). done.
  - split_and!; try done. intros a Har. rewrite Hb by lia. by apply (ig_bytes _ _ _ _ _ _ _ _ _ _ _ _ Hi).
Qed.

(** From the path to the locked inode of the program. *)
Lemma exec_open_run s cwd ci path n A img : coherent fsz bm None (k_fs s) -> 2 <= nfree (k_fs s) -> p_cwd (k_proc s) = Some cwd -> icache (k_fs s) !! cwd = Some ci -> 0 < i_ref ci -> 0 ∉ path ->
  walks bm (dsk (k_fs s)) (if bool_decide (head path = Some slash) then ROOTINO else i_inum ci) (elems path) (Some n) -> isfile bm (dsk (k_fs s)) n A img ->
  exists f1 ip F r, k_namei devsw path s = Ok (Some ip) (set_fs f1 s) /\ fs (ilock ip) (set_fs f1 s) = Ok tt (set_fs F s) /\ dsk F = dsk (k_fs s) /\
    coherent fsz bm (Some ip) F /\ moved n 1 (k_fs s) F /\ icache F !! ip = Some (copy (dsk (k_fs s)) n r 3).
Proof.
  intros Hc Hroom Hcwd Hk Hi Hp Hw Hfile. destruct (namei_run fsz bm devsw (k_fs s) Hc Hroom cwd ci path (Some n) Hk Hi Hp Hw) as (o & f1 & E1 & Hr). destruct o as [ip|]; [|done].
  destruct (visit_run fsz bm (k_fs s) Hc f1 ip n Hr (if_live _ _ _ _ _ Hfile)) as (F & r & E2 & Hc2 & Hm2 & Hk2). exists f1, ip, F, r. split_and!; try done.
  - unfold k_namei, me. mrun1. rewrite Hcwd. cbn [deref]. rewrite (bind_ok _ _ _ _ _ (mret_ok _ _)). by apply fs_run.
  - rewrite (fs_run _ (set_fs f1 s) tt F E2). by destruct s.
  - apply Hm2.
Qed.

Context (elf0 ph0 : list Z) (data : Z) (Helf0 : length elf0 = 52%nat) (Hph0 : length ph0 = 32%nat) (Hdata : data_ok data).

Lemma exec_run s cwd ci path argv n A img phs top L own T P (sz1 := (loaded img 0 (fun _ => 0) phs).1) (U1 := (loaded img 0 (fun _ => 0) phs).2) (sz := PGSIZE * (pages sz1 + 2)) :
  coherent fsz bm None (k_fs s) -> 2 <= nfree (k_fs s) -> p_cwd (k_proc s) = Some cwd -> icache (k_fs s) !! cwd = Some ci -> 0 < i_ref ci -> 0 ∉ path ->
  walks bm (dsk (k_fs s)) (if bool_decide (head path = Some slash) then ROOTINO else i_inum ci) (elems path) (Some n) -> isfile bm (dsk (k_fs s)) n A img -> program img phs top ->
  mapped s L own T P -> pages top + 1028 <= Z.of_nat (length L) -> PGSIZE * (pages top + 2) < KERNBASE -> Z.of_nat (length argv) <= MAXARG -> sz - PGSIZE <= esp_of sz argv ->
  exists s' F k L' own' d T' P', exec devsw elf0 ph0 data path argv s = Ok 0 s' /\ 
    s' = set_mem k (set_proc (set_tf (mkTf (tf_eax (p_tf (k_proc s))) (elf_entry (take 52 img)) (esp_of sz argv) (tf_regs (p_tf (k_proc s)))) (set_sz sz (set_pgdir d (set_name (take 15 (last_name path path)) (k_proc s))))) (set_fs F s)) /\
    settled fsz bm (k_fs s) F /\ mapped s' L' own' T' P' /\ (forall a, 0 <= a < sz -> ubyte k P' a = stack_mem sz U1 argv a) /\ (forall p r, own' !! p = Some r -> dir_of r <> p_pgdir (k_proc s)).
Proof.
  intros Hc Hroom Hcwd Hk Hi Hp Hw Hfile Hpr Hm Hfree Hk2 Hargc Hesp. destruct (exec_open_run s cwd ci path n A img) as (f1 & ip & F & r & E1 & E2 & Hd & HcF & HmF & HkF); try done.
  rewrite <- Hd in Hfile, HkF. destruct (program_read F ip n r A img HcF HkF Hfile) as [_ Hread]. destruct Hpr as [Hlen Hmag Hnum [Hoff0 Hoff1] Hphs Hload].
  unfold exec, or_fail. mstep E1. mstep E2. set (s2 := set_fs F s). rewrite (bind_ok _ _ _ _ _ (Hread s2 0 sizeof_elf eq_refl ltac:(done) ltac:(done) ltac:(unfold sizeof_elf; lia))). cbn [fst snd].
  change (u32 sizeof_elf <? sizeof_elf) with false. cbn iota. change (Z.to_nat sizeof_elf) with 52%nat. change (slice img (Z.to_nat 0) 52) with (take 52 img).
  assert (Hsp : splice elf0 0 (take 52 img) = take 52 img) by (apply splice_all; rewrite length_take; lia). rewrite Hsp, Hmag, Z.eqb_refl. cbn [negb].
  destruct (setupkvm_run data (k_mem s) L own (ma_world _ _ _ _ _ Hm) Hdata) as (d & k1 & L1 & own1 & E3 & Hw1 & [(_ & Hlow & _)|(Hd0 & Hdn & _ & Hg1 & Hu1 & T1 & Ha1 & Hl1)]).
  { exfalso. assert (0 <= pages top) by (pose proof (loadable_le img phs 0 top Hload); unfold pages, PGSIZE; apply Z.div_pos; lia). lia. }
  assert (Hnew : forall p x, own !! p = Some x -> dir_of x <> d) by (intros p x Hx <-; apply (wo_live _ _ _ (ma_world _ _ _ _ _ Hm)) in Hx; congruence).
  rewrite (bind_ok _ _ _ _ _ (memory_run _ s2 _ _ E3)). rewrite (proj2 (Z.eqb_neq _ _) Hd0), Hnum, Nat2Z.id, i32_id by lia. set (s3 := set_mem k1 s2).
  pose proof (image_new (k_mem s) L own d data k1 L1 own1 T1 Hw1 Ha1 Hu1 Hdata Hg1) as Hi1. pose proof (loaded_le img phs 0 top (fun _ => 0) Hload) as Hle. fold sz1 in Hle. pose proof (pages_mono _ _ (proj2 Hle)) as Hpm.
  assert (Htop : top < KERNBASE). { assert (top <= PGSIZE * pages top) by (unfold pages, PGSIZE; Z.to_euclidean_division_equations; lia). unfold PGSIZE in *. lia. }
  destruct (exec_load_run devsw (k_mem s) L own d Hnew (ma_world _ _ _ _ _ Hm) F ip img ltac:(lia) Hread top Htop phs (elf_phoff (take 52 img)) 0 (fun _ => 0) L1 own1 T1 (kern_map data) s3 ph0)
    as (k4 & L4 & own4 & T4 & P4 & E4 & Hi4 & Hc4); try done; [change (pages 0) with 0; lia|]. fold sz1 U1 in E4, Hi4, Hc4. change (pages 0) with 0 in Hc4. mstep E4. set (s4 := set_mem k4 s3).
  destruct (leave_run fsz bm (k_fs s) Hc F ip n r HcF HmF) as (F5 & E5 & Hs5); [by rewrite <- Hd|rewrite <- Hd; apply Hfile|].
  rewrite (bind_ok _ _ _ _ _ (fs_run _ s4 _ _ E5)). set (s5 := set_fs F5 s4).
  assert (Hsz1 : PGSIZE * (pages sz1 + 2) < KERNBASE) by (unfold PGSIZE in *; lia).
  destruct (exec_stack_run (k_mem s) L own d Hnew (ma_world _ _ _ _ _ Hm) sz1 U1 L4 own4 T4 P4 argv s5 Hi4) as (k6 & L6 & own6 & T6 & P6 & E6 & Hi6); [lia|done|lia|done|fold sz; unfold sz in *; lia|]. fold sz in E6, Hi6. mstep E6.
  destruct (exec_commit_run (k_mem s) L own (p_pgdir (k_proc s)) T P d _ _ _ L6 own6 T6 P6 path (elf_entry (take 52 img)) (esp_of sz argv) (set_mem k6 s5) (ma_world _ _ _ _ _ Hm) (ma_space _ _ _ _ _ Hm) (ma_user _ _ _ _ _ Hm) Hi6) as (k7 & L7 & own7 & E7 & Hw7 & Ha7 & Hu7 & Hb7 & Hno);
    [intros ->; exact (Hnew _ _ (as_dir _ _ _ _ _ (ma_space _ _ _ _ _ Hm)) eq_refl)|done|done|].
  eexists _, F5, k7, L7, own7, d, T6, P6. split; [exact E7|]. split; [by destruct s|]. split; [done|]. split; [|done].
  assert (Hp0 : 0 <= pages sz1) by apply (ig_range _ _ _ _ _ _ _ _ _ _ _ _ Hi4). split; [done|done|done|change (0 <= sz <= KERNBASE); unfold sz, PGSIZE in *; lia|]. intros u Hu. destruct (ig_mapped _ _ _ _ _ _ _ _ _ _ _ _ Hi6 u) as (e & He & _); [|by exists e].
  change (0 <= u < pages sz) in Hu. assert (pages sz = pages sz1 + 2) by (unfold sz, pages, PGSIZE; Z.to_euclidean_division_equations; lia). lia.
Qed.
End Exec.

(** C8: Exec of a program that is in a file, in a consistent kernel with enough
    free memory, returns 0, and the process is that program: its memory below
    the stack is what the program headers load, zero elsewhere; it starts at
    the entry of the ELF header; and at its stack pointer are the return
    address 0xffffffff, argc and the argument vector, whose pointers lead to
    the null-terminated arguments.  The old address space is freed as a whole,
    the open files and the current directory stay, the disk does not change
    and no inode stays locked or referenced. *)
Theorem exec_correct fsz bm devsw elf0 ph0 data s cwd ci path argv n A img phs top L own T P
    (sz1 := (loaded img 0 (fun _ => 0) phs).1) (U1 := (loaded img 0 (fun _ => 0) phs).2) (sz := PGSIZE * (pages sz1 + 2)) :
  length elf0 = 52%nat -> length ph0 = 32%nat -> data_ok data ->
  coherent fsz bm None (k_fs s) -> 2 <= nfree (k_fs s) -> p_cwd (k_proc s) = Some cwd -> icache (k_fs s) !! cwd = Some ci -> 0 < i_ref ci -> 0 ∉ path ->
  walks bm (dsk (k_fs s)) (if bool_decide (head path = Some slash) then ROOTINO else i_inum ci) (elems path) (Some n) -> isfile bm (dsk (k_fs s)) n A img -> program img phs top ->
  mapped s L own T P -> pages top + 1028 <= Z.of_nat (length L) -> PGSIZE * (pages top + 2) < KERNBASE -> Z.of_nat (length argv) <= MAXARG -> sz - PGSIZE <= esp_of sz argv ->
  exists s' L' own' T' P' V ptrs, exec devsw elf0 ph0 data path argv s = Ok 0 s' /\
    mapped s' L' own' T' P' /\ (forall a, 0 <= a < sz -> ubyte (k_mem s') P' a = V a) /\ (forall p r, own' !! p = Some r -> dir_of r <> p_pgdir (k_proc s)) /\
    p_sz (k_proc s') = sz /\ tf_eip (p_tf (k_proc s')) = elf_entry (take 52 img) /\
    let esp := tf_esp (p_tf (k_proc s')) in sz - PGSIZE <= esp /\ (forall a, a < esp -> V a = U1 a) /\
    length ptrs = length argv /\ lies_at V esp (concat (map (le_bytes 4) ([0xffffffff; Z.of_nat (length argv); esp + 12] ++ ptrs ++ [0]))) /\
    (forall i p a, ptrs !! i = Some p -> argv !! i = Some a -> lies_at V p (a ++ [0])) /\
    settled fsz bm (k_fs s) (k_fs s') /\ k_ftable s' = k_ftable s /\ p_ofile (k_proc s') = p_ofile (k_proc s) /\ p_cwd (k_proc s') = p_cwd (k_proc s).
Proof.
  intros Helf Hph Hdata Hc Hroom Hcwd Hk Hi Hp Hw Hfile Hpr Hm Hfree Htop Hargc Hesp.
  destruct (exec_run fsz bm devsw elf0 ph0 data Helf Hph Hdata s cwd ci path argv n A img phs top L own T P) as (s' & F & k & L' & own' & d & T' & P' & E & Es & Hs & Hm' & Hb & Hno); try done. fold sz1 U1 sz in Es, Hb.
  destruct (stack_layout sz U1 argv) as (ptrs & Hl & Hst & Hstr & Hlow). exists s', L', own', T', P', (stack_mem sz U1 argv), ptrs. rewrite Es in E, Hm' |- *. cbv zeta. by split_and!.
Qed.

(** "/d/f" holds a program of one segment: four bytes of code and four of zeros. *)
Definition loop_prog : list Z :=
  le_bytes 4 ELF_MAGIC ++ replicate 20 0 ++ le_bytes 4 0 ++ le_bytes 4 52 ++ replicate 12 0 ++ [1; 0] ++ replicate 6 0 ++
  (le_bytes 4 ELF_PROG_LOAD ++ le_bytes 4 84 ++ le_bytes 4 0 ++ le_bytes 4 0 ++ le_bytes 4 4 ++ le_bytes 4 8 ++ replicate 8 0) ++ [235; 254; 144; 144].
Definition prog_blk (s : Z) : block :=
  if s =? 2 then dip_store tree_inodes (dip_off 3) (mkInode ROOTDEV 3 1 0 T_FILE 0 0 1 88 (5 :: replicate 12 0)) else if s =? 5 then pad loop_prog else tree_blk s.
Definition prog_disk : ldisk := mkLdisk 40 10 prog_blk ∅ [] true.
Definition prog_fs : fsys := mkFsys false (icache tree_fs) prog_disk.
Lemma prog_vol : vol 50 4 prog_disk.
Proof.
  split; [by split| | |done].
  - intros s Hs. apply Nat.eqb_eq. revert s Hs. apply (all_below (fun s => length (ld_blk prog_disk s) =? 512)%nat). vm_compute. reflexivity.
  - intros b Hb. apply (all_below (fun b => bit (ld_blk prog_disk 4) b) 5); [vm_compute; reflexivity|lia].
Qed.
Lemma prog_coherent : coherent 50 4 None prog_fs.
Proof.
  split; [done|apply prog_vol|done|split; [constructor|vm_compute; lia]| |exact (co_unique _ _ _ _ tree_coherent)].
  intros k i Hk. destruct (co_entry _ _ _ _ tree_coherent k i Hk). split; try done. intros _ Hf. destruct Hf. do 4 (destruct k as [|k]; [by injection Hk as <-|]). done.
Qed.
Lemma prog_isdir n b E : (n, b, E) ∈ [(1, 6, root_ents); (2, 7, d_ents)] -> isdir 4 prog_disk n [b] E.
Proof.
  intros Hn. assert ((n = 1 /\ b = 6 /\ E = root_ents) \/ (n = 2 /\ b = 7 /\ E = d_ents)) as [(-> & -> & ->)|(-> & -> & ->)] by set_solver; clear Hn.
  all: split; [by split; vm_compute| |by vm_compute|by vm_compute|by vm_compute|by vm_compute|repeat constructor; by rewrite dirent_length].
  all: intros r fl; split; [done|done|done| |by vm_compute|apply NoDup_singleton|repeat constructor; vm_compute; done].
  - intros k Hk. apply Z.eqb_eq. revert k Hk. apply (all_below (fun k => fblock prog_disk (copy prog_disk 1 r fl) k =? default 0 ([6] !! Z.to_nat k))). vm_compute. reflexivity.
  - intros k Hk. apply Z.eqb_eq. revert k Hk. apply (all_below (fun k => fblock prog_disk (copy prog_disk 2 r fl) k =? default 0 ([7] !! Z.to_nat k))). vm_compute. reflexivity.
Qed.
Lemma prog_isfile : isfile 4 prog_disk 3 [5] loop_prog.
Proof.
  split; [by split; vm_compute| |by vm_compute|by vm_compute|by vm_compute].
  intros r fl; split; [done|done|done| |by vm_compute|apply NoDup_singleton|repeat constructor; vm_compute; done].
  intros k Hk. apply Z.eqb_eq. revert k Hk. apply (all_below (fun k => fblock prog_disk (copy prog_disk 3 r fl) k =? default 0 ([5] !! Z.to_nat k))). vm_compute. reflexivity.
Qed.
Lemma prog_program : program loop_prog [slice loop_prog 52 32] 8.
Proof.
  split; [by vm_compute|by vm_compute|by vm_compute|by vm_compute| |].
  - intros [|j] h Hj; [|done]. injection Hj as <-. by vm_compute.
  - cbn [loadable]. change (ph_type (slice loop_prog 52 32) =? ELF_PROG_LOAD) with true. cbn iota. split; [by exists 0|]. by vm_compute.
Qed.

(** The process of a booted kernel runs "f ab" in "/d". *)
Lemma exec_correct_witness : exists s s' V esp, exec (fun _ => None) (replicate 52 0) (replicate 32 0) 0x80108000 [102] [[102]; [97; 98]] s = Ok 0 s' /\
  user s' V /\ tf_esp (p_tf (k_proc s')) = esp /\ lies_at V 0 [235; 254; 144; 144] /\ lies_at V (esp + 4) (le_bytes 4 2) /\ settled 50 4 prog_fs (k_fs s').
Proof.
  destruct booted_space as (k & L & own & d & T & P & Hw & Ha & Hu & HL & HP & _). set (s := mkKern prog_fs k false [] ∅ (small_proc d 0 [] 0)).
  destruct (exec_correct 50 4 (fun _ => None) (replicate 52 0) (replicate 32 0) 0x80108000 s 0 (mkInode ROOTDEV 2 1 0 0 0 0 0 0 []) [102] [[102]; [97; 98]] 3 [5] loop_prog [slice loop_prog 52 32] 8 L own T P)
    as (s' & L' & own' & T' & P' & V & ptrs & E & Hm & HV & _ & Hsz & _ & Hlow & Hmem & _ & Hst & _ & Hs & _).
  - vm_compute. reflexivity.
  - vm_compute. reflexivity.
  - unfold data_ok, KERNLINK, EXTMEM, KERNBASE, PHYSTOP. split; [done|lia].
  - exact prog_coherent.
  - vm_compute. discriminate.
  - reflexivity.
  - reflexivity.
  - reflexivity.
  - apply not_elem_of_cons. split; [discriminate|apply not_elem_of_nil].
  - eapply walk_step; [apply prog_isdir; right; left|vm_compute; reflexivity|apply walk_done].
  - exact prog_isfile.
  - exact prog_program.
  - split; [exact Hw|exact Ha|exact Hu|unfold s, small_proc, PGSIZE, KERNBASE; cbn; lia|]. intros u Hu'. destruct (HP u Hu') as (e & He & _). by exists e.
  - change (pages 8) with 1. lia.
  - reflexivity.
  - vm_compute. discriminate.
  - vm_compute. discriminate.
  - exists s, s', V, (tf_esp (p_tf (k_proc s'))). split; [exact E|]. split; [exists L', own', T', P'; split; [exact Hm|by rewrite Hsz]|]. split; [done|]. split; [|split; [|exact Hs]].
    + assert (Hbig : PGSIZE * 2 <= tf_esp (p_tf (k_proc s'))) by exact Hlow. eapply lies_ext; [intros x Hx; apply Hmem|by vm_compute]. change (Z.of_nat (length [235; 254; 144; 144])) with 4 in Hx. unfold PGSIZE in Hbig. lia.
    + cbn [map concat app] in Hst. rewrite !lies_app in Hst. exact (proj1 (proj2 Hst)).
Defined.
